(* ===== verification/_CoqProject ===== *)
-Q . S2P
Prelude.v
Bst.v
BstRep.v
BstFind.v
BstInsert.v
BstRemove.v
BstDestroy.v
BstHistory.v
ServiceEntry.v
ServiceTable.v
ServiceInv.v
ServiceRefine.v
ServiceAdd.v
ServiceDel.v
ServiceClaims.v
Hex.v
SalHdr.v
SalHdrProps.v
Checksum.v
WireClaims.v
SalSock.v
Rto.v
DelayQueue.v
Sal.v
SalCtrl.v
SalState.v
SalListen.v
SalInv.v
SalQueue.v
SalStep.v
SalMachine.v
SalSession.v
Udp.v
UdpSession.v
SalFwd.v
SalFwdOk.v
TransportCsum.v
SalRelay.v
RelayClaims.v
SalRcv.v
SalRcvOk.v
RcvClaims.v
Heap.v
HeapOk.v
TimerQueue.v
TimerQueueOk.v
UTimer.v
UTimerOk.v
TcpSock.v
TcpCong.v
TcpQueue.v
TcpFrame.v
TcpQueueOk.v
TcpStream.v
TcpOut.v
TcpRecv.v
TcpRecvOk.v
TcpOpt.v
TcpClaims.v
TcpCongOk.v
TcpSend.v
TcpTimer.v
TcpWire.v
TcpSendOk.v
TcpXmitOk.v
TcpRetransOk.v
TcpFillOk.v
TcpAckOk.v
TcpSession.v
TcpTimerOk.v
TcpEnd.v
TcpTimerLive.v
Hash.v
Hashtable.v
HashtableOk.v
HashtableClaims.v
Ctrl.v
CtrlClients.v
CtrlAdd.v
CtrlClaims.v
