(* ===== verification/Prelude.v ===== *)
(** * Verification of the Serval stack

    Serval puts a service access layer (SAL) between the transport protocols
    and IP: sockets connect to service identifiers, the SAL resolves them
    through a table of rules, and flow identifiers demultiplex packets, so that
    both ends of a connection can migrate.  This library models the stack of
    the repository, in the configuration of its user-level build, and proves
    the properties of its parts.

    ** The parts and the files that model them

    Every file named [X.v] holds the definitions, translated from the C code;
    the files that follow it hold the lemmas about them.

    - [Prelude.v]: the monad of stateful C code.  [Fault] is undefined
      behaviour, a crash or a deadlock; [NoFuel] the exhaustion of a bound of
      the model.  Fixed-width integers are [Z] with the wrap-around written out
      ([u8] ... [u64], [s32]).
    - [Bst.v] (src/stack/bst.c): the bitwise trie, on a heap of nodes with
      parent pointers.  [BstRep], [BstFind], [BstInsert], [BstRemove],
      [BstDestroy], [BstHistory]: the trie is a finite map from bit
      strings with longest-prefix lookup ([trep]); [BstClient] is the interface
      of its callbacks, with the service table as its client.
    - [ServiceEntry.v], [ServiceTable.v] (src/stack/service.c): target sets,
      weighted sampling, iterators, and the table.  [ServiceInv],
      [ServiceRefine], [ServiceAdd], [ServiceDel],
      [ServiceClaims]: the table is a map from prefixes to bags of prioritised
      targets.
    - [Hex.v], [SalHdr.v], [Checksum.v] (include/netinet/serval.h,
      src/stack/serval_sal.c, src/stack/userlevel/checksum.c): printed
      identifiers, SAL headers and Internet checksums, as bytes.
      [SalHdrProps], [WireClaims]: round trips and the reads of the parser.
    - [SalSock.v], [Rto.v], [DelayQueue.v], [Sal.v], [SalCtrl.v],
      [SalState.v], [SalListen.v] (src/stack/serval_sal.c, serval_sock.c,
      serval_ipv4.c, delay_queue.c): one socket with its buffers, timers and
      references, and the functions that run on it: transmission, the control
      queue, one function per state, listening sockets.  [salw] is the world:
      the socket, the live buffers, the frames sent (with their IP headers), the
      service table, the delay queue and the state of the transport protocol.  Allocation
      failures, device results and random numbers are consumed from lists.
    - [SalInv], [SalQueue], [SalStep], [SalMachine],
      [SalSession]: the invariant (every live buffer has one owner, the
      reference count is the number of timers and owned buffers), that every
      handler keeps it, and the transition relation of the protocol.  The
      transport protocol enters through the class [TransportOk].
    - [SalFwd.v], [SalRcv.v] (src/stack/serval_sal.c, serval_sock.c,
      serval_ipv4.c, userlevel/skbuff.c): what happens to a packet from the
      device.  Its header is checked, the packet goes to the socket of its
      flow or is resolved on its service identifier, and is delivered,
      forwarded with a longer source extension, answered with a reset, or
      dropped.  [SalFwdOk], [TransportCsum], [SalRelay], [RelayClaims]:
      forwarding by a relay and by a chain of them.  [SalRcvOk], [RcvClaims]:
      the receive path.
    - [Udp.v] (src/stack/serval_udp.c): the UDP transport.  [UdpSession]
      discharges [TransportOk] for it and states the session theorems for UDP
      sockets.
    - [Heap.v], [TimerQueue.v] (src/common/heap.c, timer.c, signal.c): the
      binary heap and the timer queue of the daemons; [HeapOk],
      [TimerQueueOk].
    - [UTimer.v] (src/stack/userlevel/timer.c): the timers of the user-level
      stack; [UTimerOk].
    - [TcpSock.v], [TcpQueue.v], [TcpOpt.v] (src/stack/
      serval_tcp_input.c, serval_tcp_sock.h): a TCP connection as its receiver
      sees it: queues of segments in and out of order, their memory, the
      receive window, acknowledgement state, options.  [TcpOut.v]
      (serval_tcp_output.c): window selection, headers, acknowledgements.
      [TcpRecv.v] (serval_tcp.c): reading.  [TcpCong.v] (serval_tcp_cong.c and
      the functions around it): congestion control.  [TcpFrame],
      [TcpQueueOk], [TcpStream], [TcpRecvOk]: 32-bit
      sequence numbers as positions of a stream, and the invariant that the
      queues hold the stream's bytes ([TcpStream.v]); [TcpClaims], [TcpCongOk].
    - [TcpSend.v] (serval_tcp.c, serval_tcp_output.c, serval_tcp_input.c,
      userlevel/stream.c): the sender.  [sndw] adds the write queue to the
      world of the receiver, as the segments already sent ([rtx_q]) and those
      from [sk_send_head] on ([unsent_q]), the send buffer and the
      retransmission timer.  Writing, segmentation, the tests of Nagle and of
      the windows, transmission of a clone, retransmission with fragmenting
      and collapsing, the removal of acknowledged segments, the FIN.
      [TcpWire.v]: the bytes of a frame and the checks of its receiver.
      [TcpSendOk], [TcpXmitOk], [TcpRetransOk], [TcpFillOk],
      [TcpAckOk]: the invariant [sending] (the queue is the written stream from
      a first byte on, cut into adjacent segments, and every frame sent is one
      of the stream's), kept by each function.  [TcpSession]: any sequence of
      calls.  [TcpEnd]: a sender and a receiver.
    - [TcpTimer.v] (serval_tcp_timer.c, serval_tcp_sock.c and the functions they
      call): the timers of a connection.  [timw] adds to the world of the sender
      what they count and report: retransmission with its backoff, the loss
      state, probes of a closed window, delayed acknowledgements, giving up, and
      the stop and start of the timers by a migration.  [TcpTimerOk]: each
      handler is a sequence of steps of [sender]; [TcpTimerLive]: runs of the
      retransmission timer alone.
    - [Hash.v], [Hashtable.v] (include/common/hash.h, include/common/list.h,
      src/common/hashtable.c): hash functions, and the table of reference-counted
      elements in chains with back pointers.  [HashtableOk]: the pointers of a
      chain as a list, and the table as a list of elements, newest first;
      [HashtableClaims]: the operations and their histories.
    - [Ctrl.v] (src/stack/userlevel/ctrl.c, src/stack/ctrl_handler.c,
      include/serval/ctrlmsg.h): the control channel, a client of the hash table
      and of the service table: clients, replies, and the handlers that add,
      delete, modify and report rules, over the bytes of the messages.
      [CtrlClients], [CtrlAdd], [CtrlClaims].

    ** What the theorems show

    - Connections: from any state that satisfies the invariant, any sequence
      of packets, closes, migrations and timeouts runs every handler to its
      end, without a leak or an unbalanced reference, and moves the socket along
      the transition relation (session_safe, connection_step); a silent peer is
      sent the packet again the configured number of times and then given up
      (silent_peer_closes); closing sends a FIN (close_sends_fin).  Two faults of
      the code stand in the way of more.  Every transmission reads the length of
      a buffer that the device has freed (transmit_reads_freed): the model makes
      that read a fault unless [freed_len] gives it a value, and the theorems
      about connections assume that it has one ([StaleRead]) and say so.  And the
      retransmission timeout is shifted by a back-off that is only bounded by
      hypothesis (rexmit_backoff_faults).
    - Tables: histories of trie operations answer like a finite map; a rule
      added is found, lookups are longest-prefix matches under each match rule,
      deletions remove what they name and nothing else; sampling draws each
      target for a share of the random numbers proportional to its weight;
      destroying the trie frees each of its nodes once.
    - Bytes: headers built are parsed back, what is sent verifies its checksum,
      checksums of pieces combine, identifiers survive printing.
    - Relays and reception: a packet forwarded by any number of relays keeps
      its extensions and payload and lists the relays it passed, none twice; a
      relay refuses a packet it has seen; recomputed UDP checksums are accepted
      by the receiver; malformed packets are dropped and change nothing;
      packets of a connection reach its state machine; packets for unknown
      services are dropped, and answered with a reset unless they open a
      connection or are resets.
    - TCP: whatever order, overlap and repetition the segments of a stream
      arrive in, with allocations that fail and queues that are collapsed or
      pruned on the way, the bytes read are a prefix of the stream
      (tcp_delivers_stream); a read returns all that is in order up to its
      length; the next segment that fits the window is taken; the right edge
      of the offered window never moves back.  Hypotheses: segments carry the
      stream's bytes at their sequence numbers ([arriving]) and start within
      2^30 of what has been received, and the socket is within the limits of
      its memory counters ([in_limits]).  The congestion window stays between
      one segment and 2^31 over any run of the events of [TcpCongOk.v], in which
      the entry into fast recovery is missing; it grows by a segment per
      acknowledgement in slow start and per [snd_cwnd + 1] acknowledgements above
      the threshold, up to its clamp.
    - TCP from end to end: the write queue loses nothing that is not
      acknowledged and no call of the sender faults (tcp_write_queue_holds);
      every frame is a correct segment of the stream (tcp_frames_conform); what
      the peer's user reads is a prefix of what was written
      (tcp_end_to_end).  Hypotheses, in [sender]: less than 2^30 bytes are
      queued, segments count for one packet (no segmentation offload),
      acknowledgement numbers are 32-bit values, and when the user writes, the
      last unsent segment is not larger than the segment size and has room up to
      it in its buffer ([tail_ok]): without it the code loses bytes
      (sendmsg_loses_bytes, probe_then_write_loses_bytes).
      The SAL enters the theorems about TCP as an interface, [sal_xmit]: it is
      handed a segment and returns any result.
    - TCP timers: from any state a sender can reach, every handler returns and
      leaves such a state, or a destroyed socket that had no user
      (tcp_timers_safe), provided that the back-off is at most 30 when the window
      is probed, as the shift by it is undefined from 32 on
      (probe_backoff_faults); the test whether to give up compares with the sum of
      the backed-off timeouts (timeout_is_backed_off); a connection whose peer is
      silent is closed with an error when that sum has passed and at most two
      minutes later (silent_peer_times_out), provided that one retransmission
      was accepted by the link: without it the connection is never given up
      (refused_goes_on).
    - Control channel: a request to add rules changes the service table by the
      rules that its reply lists, and the reply reaches every client once
      (ctrl_add_request), over a hash table that behaves like a list of elements
      under any sequence of calls (table_history); the 64-bit hash is a
      multiplication (hash_64_golden).
    - Timers: the timer queues fire in the order of the timeouts and sleep
      until the first of them, and every queued item but the first records its
      position (the first can go stale, timer_del_misses); the round-trip
      estimators keep the timeout within its bounds for samples below 2^27 (TCP)
      and 2^28 ticks (SAL).
    - Errors: where the code departs from what it means to do the departure is
      a theorem about a concrete run (release_root_faults, parse_hdr_overread,
      transmit_reads_freed, rexmit_backoff_faults, probe_backoff_faults,
      relay_use_after_free, stale_ack_ends_finwait1, reset_needs_no_nonce,
      timer_del_misses, timer_del_disorders, del_timer_idle_deadlocks,
      mod_timer_expiry, sendmsg_loses_bytes, probe_then_write_loses_bytes,
      refused_goes_on, ctrl_add_other_type_faults).

    ** Bounds and fuel

    Loops of the C code are structural recursions on what they consume where
    possible.  The walks of the trie take fuel from the number of nodes; the
    refinement theorems show that they never return [NoFuel].  The loop over
    the targets of a service on transmission takes the number of targets plus
    two; it does run out when an interface is missing, because the C loop does
    not end then.  The retries of [sk_sal_alloc_retry] are bounded by the list
    of allocation results, whose end is success.  Slow start takes the quotient
    of its counter by the window, the halvings after an idle period 34 turns,
    reads of a TCP socket two turns more than there are segments, collapsing
    the bytes in the queue, walks of a hash chain the number of elements, the
    loops over the services of a message 40 turns (33 fit the buffer); the
    theorems show that these suffice.  Prefixes have at most 256 bits, headers at most ten extensions, as in the code.

    ** Not modelled

    Of TCP: the recovery state machine that decides what to retransmit
    (retransmissions of the theorems are of any segment sent, at any time),
    segments sent to probe the MTU, urgent data and selective acknowledgements; prequeue
    and blocking reads and writes.  UDP encapsulation and the Linux kernel
    build, blocking waits, printing and logging, the raw packet devices, and the daemons and
    libraries above the stack (servd, libserval, libservalctrl, the
    translator).  Of the control channel: the handlers that act on sockets and on
    the delay queue.  Locks are modelled where the code can fail to take or
    release them (delay queue, timer lists, readers of service entries); the
    handlers of a socket run under its lock and are atomic steps, whose
    interleavings are the sequences of steps of the session theorems. *)

From stdpp Require Export base gmap list numbers sorting.
From Stdlib Require Export ZArith Lia.

#[export] Set Default Goal Selector "!".
#[export] Set Warnings "-clear-no-such-hyp".

(** ** Outcomes of C code

    [Fault] is undefined behaviour of the C program: a NULL dereference, an
    access outside an object, a use after free or a double free.  [NoFuel] is
    the exhaustion of a loop bound of the model; the theorems show that the
    bounds chosen are enough. *)
Inductive outcome (A : Type) : Type :=
| Ok (a : A)
| Fault
| NoFuel.
Arguments Ok {A} a.
Arguments Fault {A}.
Arguments NoFuel {A}.

#[export] Instance outcome_bind : MBind outcome := fun A B k m =>
  match m with Ok a => k a | Fault => Fault | NoFuel => NoFuel end.

Lemma obind_Ok {A B} (m : outcome A) (k : A -> outcome B) a :
  m = Ok a -> (m ≫= k) = k a.
Proof. by intros ->. Qed.

(** State passing with outcomes: the monad all stateful code is written in. *)
Definition M (S A : Type) : Type := S -> outcome (A * S).

#[export] Instance M_ret S : MRet (M S) := fun A a st => Ok (a, st).
#[export] Instance M_bind S : MBind (M S) := fun A B k m st =>
  match m st with
  | Ok (a, st') => k a st'
  | Fault => Fault
  | NoFuel => NoFuel
  end.

Declare Scope serval_scope.
Delimit Scope serval_scope with serval.

Section state_ops.
Context {S : Type}.
Definition getS : M S S := fun st => Ok (st, st).
Definition putS (st' : S) : M S unit := fun _ => Ok (tt, st').
Definition modS (f : S -> S) : M S unit := fun st => Ok (tt, f st).
Definition gets {A} (f : S -> A) : M S A := fun st => Ok (f st, st).
Definition faultM {A} : M S A := fun _ => Fault.
Definition nofuelM {A} : M S A := fun _ => NoFuel.
(** Dereference: [None] is a NULL (or dangling) pointer. *)
Definition derefM {A} (o : option A) : M S A :=
  match o with Some a => mret a | None => faultM end.
End state_ops.

Lemma bind_ret {S A B} (a : A) (k : A -> M S B) st :
  (mret a ≫= k) st = k a st.
Proof. done. Qed.

Lemma bind_Ok {S A B} (m : M S A) (k : A -> M S B) st a st' :
  m st = Ok (a, st') -> (m ≫= k) st = k a st'.
Proof. by unfold mbind, M_bind; intros ->. Qed.

Lemma bind_Ok_inv {S A B} (m : M S A) (k : A -> M S B) st b st'' :
  (m ≫= k) st = Ok (b, st'') ->
  exists a st', m st = Ok (a, st') /\ k a st' = Ok (b, st'').
Proof.
  unfold mbind, M_bind. destruct (m st) as [[a st']| |]; naive_solver.
Qed.

(** ** Fixed-width integers *)
Local Open Scope Z_scope.

Definition u8 (z : Z) : Z := z mod 2 ^ 8.
Definition u16 (z : Z) : Z := z mod 2 ^ 16.
Definition u32 (z : Z) : Z := z mod 2 ^ 32.
Definition u64 (z : Z) : Z := z mod 2 ^ 64.
Definition s32 (z : Z) : Z :=
  if u32 z <? 2 ^ 31 then u32 z else u32 z - 2 ^ 32.

Lemma u32_id z : 0 <= z < 2 ^ 32 -> u32 z = z.
Proof. intros. unfold u32. by apply Z.mod_small. Qed.

(** ** Total correctness

    [wp m st Q]: from [st], the code neither faults nor runs out of fuel, and
    its result and final state satisfy [Q]. *)
Definition wp {S A} (m : M S A) (st : S) (Q : A -> S -> Prop) : Prop :=
  match m st with Ok (a, st') => Q a st' | _ => False end.

Section wp.
Context {S : Type}.
Implicit Types (st : S).

Lemma wp_bind {A B} (m : M S A) (k : A -> M S B) st Q :
  wp m st (fun a st' => wp (k a) st' Q) -> wp (m ≫= k) st Q.
Proof. unfold wp, mbind, M_bind. by destruct (m st) as [[]| |]. Qed.
Lemma wp_mono {A} (m : M S A) st (Q Q' : A -> S -> Prop) :
  wp m st Q -> (forall a st', Q a st' -> Q' a st') -> wp m st Q'.
Proof. unfold wp. destruct (m st) as [[]| |]; auto. Qed.
Lemma wp_and {A} (m : M S A) st (Q Q' : A -> S -> Prop) :
  wp m st Q -> wp m st Q' -> wp m st (fun a st' => Q a st' /\ Q' a st').
Proof. unfold wp. by destruct (m st) as [[]| |]. Qed.
Lemma wp_ret {A} (a : A) st (Q : A -> S -> Prop) :
  Q a st -> wp (mret a) st Q.
Proof. done. Qed.
Lemma wp_modS f st (Q : unit -> S -> Prop) : Q tt (f st) -> wp (modS f) st Q.
Proof. done. Qed.
Lemma wp_gets {A} (f : S -> A) st (Q : A -> S -> Prop) :
  Q (f st) st -> wp (gets f) st Q.
Proof. done. Qed.
Lemma wp_getS st (Q : S -> S -> Prop) : Q st st -> wp getS st Q.
Proof. done. Qed.
Lemma wp_run {A} (m : M S A) st Q :
  wp m st Q <-> exists a st', m st = Ok (a, st') /\ Q a st'.
Proof.
  unfold wp. split.
  - destruct (m st) as [[a st']| |]; [eauto|done|done].
  - by intros (a & st' & -> & ?).
Qed.
Lemma wp_derefM {A} (o : option A) a st (Q : A -> S -> Prop) :
  o = Some a -> Q a st -> wp (derefM o) st Q.
Proof. by intros ->. Qed.
Lemma wp_if {A} (b : bool) (m m' : M S A) st Q :
  (b = true -> wp m st Q) -> (b = false -> wp m' st Q) ->
  wp (if b then m else m') st Q.
Proof. destruct b; auto. Qed.
End wp.

(** Symbolic execution of straight-line code. *)
Ltac wp_step :=
  lazymatch goal with
  | |- wp (mbind _ _) _ _ => apply wp_bind
  | |- wp (mret _) _ _ => apply wp_ret
  | |- wp (modS _) _ _ => apply wp_modS
  | |- wp (gets _) _ _ => apply wp_gets
  | |- wp getS _ _ => apply wp_getS
  end.
Ltac wp_steps := repeat wp_step.
