(* ===== verification/Bst.v ===== *)
(** * The bitwise trie of the service table (src/stack/bst.c, bst.h)

    The trie is modelled on an explicit heap of nodes with parent, left and
    right pointers, so that freeing, dangling pointers and the in-place
    rotation of [__bst_destroy_subtree] are visible.  Private data and the
    operations of a node belong to a client (the service table): they are the
    fields of the class [BstClient]. *)
From S2P Require Import Prelude.
Local Open Scope nat_scope.

(** A heap address.  Addresses are never reused, so an access through a stale
    pointer is always a [Fault]. *)
Abbreviation loc := positive (only parsing).

(** Bit addressing of prefixes (the macros of bst.c). *)
Definition PREFIX_BYTE (bits : nat) : nat := bits / 8.

Definition PREFIX_SIZE (bits : nat) : nat :=
  PREFIX_BYTE bits + (if bits mod 8 =? 0 then 0 else 1).

(** [CHECK_BIT]: the byte is read through a [char] pointer; reading past the
    end of the prefix is undefined ([None]). *)
Definition CHECK_BIT (prefix : list Z) (bitoffset : nat) : option bool :=
  match prefix !! PREFIX_BYTE bitoffset with
  | Some byte =>
      Some (negb (Z.land byte (Z.shiftl 1 (Z.of_nat (7 - bitoffset mod 8)))
                  =? 0)%Z)
  | None => None
  end.

(** What the trie needs from its client: the type of the operation tables
    ([struct bst_node_ops]), of the private pointers, of the client's own
    state, and the meaning of the [init] and [destroy] callbacks ([None] for a
    NULL function pointer). *)
Class BstClient := {
  Ops : Type;
  Priv : Type;
  Env : Type;
  op_init : Ops -> option (Priv -> Env -> Z * Env);
  op_destroy : Ops -> option (Priv -> Env -> outcome Env);
}.

(** The member [flags] of [struct bst_node] is only ever set to 0 and [lh] only
    threads the explicit stacks below; both are left out. *)
Record bst_node `{BstClient} := BstNode {
  n_parent : loc;
  n_left : option loc;
  n_right : option loc;
  n_ops : option Ops;
  n_private : option Priv;
  n_prefix_bits : nat;
  n_prefix_size : nat;
  n_prefix : list Z;
}.

(** The state: [struct bst] (root and entries), the heap, the bump pointer of
    the allocator, the outcomes of the coming [kmalloc] calls ([false] is a
    failed allocation; an exhausted schedule succeeds), and the client's
    state. *)
Record bst `{BstClient} := Bst {
  heap : gmap loc bst_node;
  root : option loc;
  entries : Z;
  next_loc : loc;
  allocs : list bool;
  env : Env;
}.

Section bst_code.
Context `{BC : BstClient}.

Definition set_heap (h : gmap loc bst_node) (st : bst) : bst :=
  Bst _ h (root st) (entries st) (next_loc st) (allocs st) (env st).
Definition set_root (r : option loc) (st : bst) : bst :=
  Bst _ (heap st) r (entries st) (next_loc st) (allocs st) (env st).
Definition set_entries (e : Z) (st : bst) : bst :=
  Bst _ (heap st) (root st) e (next_loc st) (allocs st) (env st).
Definition set_allocs (a : list bool) (st : bst) : bst :=
  Bst _ (heap st) (root st) (entries st) (next_loc st) a (env st).
Definition set_env (e : Env) (st : bst) : bst :=
  Bst _ (heap st) (root st) (entries st) (next_loc st) (allocs st) e.

Definition load (l : loc) : M bst bst_node := fun st =>
  match heap st !! l with Some n => Ok (n, st) | None => Fault end.
Definition store (l : loc) (n : bst_node) : M bst unit := fun st =>
  match heap st !! l with
  | Some _ => Ok (tt, set_heap (<[l := n]> (heap st)) st)
  | None => Fault
  end.
Definition kfree (l : loc) : M bst unit := fun st =>
  match heap st !! l with
  | Some _ => Ok (tt, set_heap (delete l (heap st)) st)
  | None => Fault
  end.

(** The outcome of the next allocation. *)
Definition alloc_ok (st : bst) : bool * bst :=
  match allocs st with
  | [] => (true, st)
  | b :: a => (b, set_allocs a st)
  end.

Definition kmalloc_node (n : bst_node) : M bst (option loc) := fun st =>
  let '(ok, st) := alloc_ok st in
  if ok then
    Ok (Some (next_loc st),
        Bst _ (<[next_loc st := n]> (heap st)) (root st) (entries st)
          (Pos.succ (next_loc st)) (allocs st) (env st))
  else Ok (None, st).

(** Field updates through a pointer. *)
Definition with_left (c : option loc) (n : bst_node) : bst_node :=
  BstNode _ (n_parent n) c (n_right n) (n_ops n) (n_private n)
    (n_prefix_bits n) (n_prefix_size n) (n_prefix n).
Definition with_right (c : option loc) (n : bst_node) : bst_node :=
  BstNode _ (n_parent n) (n_left n) c (n_ops n) (n_private n)
    (n_prefix_bits n) (n_prefix_size n) (n_prefix n).
Definition with_data (o : option Ops) (p : option Priv) (n : bst_node)
  : bst_node :=
  BstNode _ (n_parent n) (n_left n) (n_right n) o p
    (n_prefix_bits n) (n_prefix_size n) (n_prefix n).

Definition is_set {A} (o : option A) : bool :=
  match o with Some _ => true | None => false end.

(** ** Accessors *)
Definition bst_node_get_prefix (l : loc) : M bst (list Z) :=
  n ← load l; mret (n_prefix n).
Definition bst_node_get_prefix_size (l : loc) : M bst nat :=
  n ← load l; mret (PREFIX_SIZE (n_prefix_bits n)).
Definition bst_node_get_prefix_bits (l : loc) : M bst nat :=
  n ← load l; mret (n_prefix_bits n).
Definition bst_node_get_private (l : loc) : M bst (option Priv) :=
  n ← load l; mret (n_private n).

(** ** Explicit stacks and iteration *)
Definition stack_push (stack : list loc) (n : loc) : list loc := n :: stack.
Definition stack_pop (stack : list loc) : option (loc * list loc) :=
  match stack with [] => None | n :: s => Some (n, s) end.

Record bst_iterator := BstIter { it_stack : list loc; it_curr : option loc }.

Definition push_opt (c : option loc) (stack : list loc) : list loc :=
  match c with Some l => stack_push stack l | None => stack end.

Definition bst_iterator_init : M bst bst_iterator :=
  r ← gets root; mret (BstIter (push_opt r []) r).

Definition bst_iterator_node (iter : bst_iterator) : option loc := it_curr iter.

Fixpoint iterator_loop (fuel : nat) (stack : list loc) (n : option loc)
  : M bst (option loc * list loc) :=
  match stack_pop stack with
  | None => mret (n, stack)
  | Some (l, stack) =>
      match fuel with
      | O => nofuelM
      | S fuel =>
          nd ← load l;
          let stack := push_opt (n_right nd) (push_opt (n_left nd) stack) in
          if is_set (n_private nd) then mret (Some l, stack)
          else iterator_loop fuel stack (Some l)
      end
  end.

Definition bst_iterator_next (iter : bst_iterator)
  : M bst (option loc * bst_iterator) :=
  st ← getS;
  '(n, stack) ← iterator_loop (size (heap st)) (it_stack iter) None;
  mret (n, BstIter stack n).

(** ** Longest prefix match *)
Definition match_node (mtch : option (loc -> M bst bool)) (l : loc)
  : M bst bool :=
  match mtch with None => mret true | Some f => f l end.

Fixpoint find_loop (fuel : nat) (n : loc) (prev : option loc)
    (prefix : list Z) (prefix_bits : nat) (mtch : option (loc -> M bst bool))
  : M bst (loc * option loc) :=
  nd ← load n;
  prev ← (if is_set (n_private nd)
          then b ← match_node mtch n; mret (if b : bool then Some n else prev)
          else mret prev);
  if (prefix_bits =? 0) || (n_prefix_bits nd =? prefix_bits)
  then mret (n, prev)
  else
    b ← derefM (CHECK_BIT prefix (n_prefix_bits nd));
    match (if b : bool then n_right nd else n_left nd) with
    | None => mret (n, prev)
    | Some c =>
        match fuel with
        | O => nofuelM
        | S fuel => find_loop fuel c prev prefix prefix_bits mtch
        end
    end.

Definition bst_node_find_longest_prefix (n prev : option loc)
    (prefix : list Z) (prefix_bits : nat) (mtch : option (loc -> M bst bool))
  : M bst (option loc * option loc) :=
  match n with
  | None => mret (None, prev)
  | Some n =>
      '(n, prev) ← find_loop prefix_bits n prev prefix prefix_bits mtch;
      mret (Some n, prev)
  end.

Definition bst_find_longest_prefix_match (prefix : list Z) (prefix_bits : nat)
    (mtch : option (loc -> M bst bool)) : M bst (option loc) :=
  r ← gets root;
  '(n, prev) ← bst_node_find_longest_prefix r None prefix prefix_bits mtch;
  match n with
  | None => mret prev
  | Some l =>
      nd ← load l;
      if is_set (n_private nd) then
        b ← match_node mtch l;
        mret (if b : bool then Some l else prev)
      else mret prev
  end.

Definition bst_find_longest_prefix (prefix : list Z) (prefix_bits : nat)
  : M bst (option loc) :=
  bst_find_longest_prefix_match prefix prefix_bits None.

(** ** Removal *)
Definition bst_node_free (l : loc) : M bst unit :=
  nd ← load l;
  let p := n_parent nd in
  (if decide (p = l) then modS (set_root None)
   else
     pn ← load p;
     if decide (n_right pn = Some l) then store p (with_right None pn)
     else store p (with_left None pn));;
  kfree l.

(** [if (n->ops && n->ops->destroy) n->ops->destroy(n)]. *)
Definition call_destroy (ops : option Ops) (v : Priv) : M bst unit := fun st =>
  match ops ≫= op_destroy with
  | Some destroy =>
      match destroy v (env st) with
      | Ok e => Ok (tt, set_env e st)
      | Fault => Fault
      | NoFuel => NoFuel
      end
  | None => Ok (tt, st)
  end.

Definition bst_node_orphan (l : loc) : M bst unit :=
  nd ← load l;
  match n_private nd with
  | None => mret tt
  | Some v =>
      modS (fun st => set_entries (u32 (entries st - 1)) st);;
      call_destroy (n_ops nd) v;;
      nd ← load l;
      store l (with_data None None nd)
  end.

(** The upward loop of [bst_node_release]; [n] was the parent of the node just
    freed. *)
Fixpoint release_loop (fuel : nat) (n : loc) : M bst unit :=
  nd ← load n;
  if is_set (n_private nd) || is_set (n_left nd) || is_set (n_right nd)
     || bool_decide (n = n_parent nd)
  then mret tt
  else
    bst_node_free n;;
    match fuel with
    | O => nofuelM
    | S fuel => release_loop fuel (n_parent nd)
    end.

Definition bst_node_release (n : loc) : M bst unit :=
  bst_node_orphan n;;
  nd ← load n;
  if is_set (n_left nd) || is_set (n_right nd) then mret tt
  else
    bst_node_free n;;
    release_loop (n_prefix_bits nd) (n_parent nd).

(** The loop of [__bst_destroy_subtree]: walk down right pointers, turning a
    left child into a right child when there is no right one, and free the
    leaves on the way back. *)
Fixpoint destroy_loop (fuel : nat) (top n : loc) : M bst unit :=
  match fuel with
  | O => nofuelM
  | S fuel =>
      nd ← load n;
      if decide (n = top /\ n_left nd = None /\ n_right nd = None) then
        bst_node_orphan n;; bst_node_free n
      else
        match n_right nd, n_left nd with
        | None, None =>
            bst_node_orphan n;; bst_node_free n;;
            destroy_loop fuel top (n_parent nd)
        | None, Some c =>
            store n (with_left None (with_right (Some c) nd));;
            destroy_loop fuel top n
        | Some c, _ => destroy_loop fuel top c
        end
  end.

Definition bst_destroy_subtree (n : loc) : M bst unit :=
  st ← getS; destroy_loop (3 * size (heap st)) n n.

(** ** Traversal with a callback

    The children are read before the callback runs, which may free the node. *)
Fixpoint subtree_loop (fuel : nat) (stack : list loc) (count : Z)
    (func : loc -> M bst Z) : M bst Z :=
  match stack_pop stack with
  | None => mret count
  | Some (n, stack) =>
      match fuel with
      | O => nofuelM
      | S fuel =>
          nd ← load n;
          let next := push_opt (n_left nd) (push_opt (n_right nd) stack) in
          if is_set (n_private nd) then
            ret ← func n;
            if (ret <? 0)%Z then mret ret
            else subtree_loop fuel next (s32 (count + ret)) func
          else subtree_loop fuel next count func
      end
  end.

Definition bst_subtree_func (n : loc) (func : loc -> M bst Z) : M bst Z :=
  st ← getS; subtree_loop (size (heap st)) (stack_push [] n) 0%Z func.

(** ** Initialisation and destruction *)
Definition bst_init : M bst Z :=
  modS (fun st => set_entries 0 (set_root None st));; mret 0%Z.

Definition bst_destroy : M bst unit :=
  st ← getS;
  match root st with
  | Some r =>
      if (0 <? entries st)%Z then
        bst_destroy_subtree r;;
        modS (fun st => set_entries 0 (set_root None st))
      else mret tt
  | None => mret tt
  end.

(** ** Insertion *)
(** [if (ops && ops->init) ops->init(n)], 0 when there is no callback. *)
Definition call_init (ops : option Ops) (private : option Priv) : M bst Z :=
  fun st =>
  match ops ≫= op_init, private with
  | Some init, Some v =>
      let '(ret, e) := init v (env st) in Ok (ret, set_env e st)
  | _, _ => Ok (0%Z, st)
  end.

Definition bst_node_init (l : loc) (ops : option Ops) (private : option Priv)
  : M bst Z :=
  nd ← load l;
  if is_set (n_ops nd) then mret (-1)%Z
  else if is_set (n_private nd) then mret (-1)%Z
  else
    store l (with_data ops private nd);;
    ret ← call_init ops private;
    mret (if (ret <? 0)%Z then (-1)%Z else 0%Z).

(** The mask built bit by bit in [bst_create_node]. *)
Fixpoint endmask_loop (i k : nat) (mask : Z) : Z :=
  match k with
  | O => mask
  | S k => endmask_loop (S i) k
             (Z.lor mask (Z.shiftl 1 (Z.of_nat (7 - i))))
  end.
Definition endmask (bits : nat) : Z := endmask_loop 0 (bits mod 8) 0.

(** [memcpy] of [size] bytes; reading past the source is a fault. *)
Definition read_prefix (prefix : list Z) (size : nat) : option (list Z) :=
  if decide (size <= length prefix) then Some (take size prefix) else None.

Definition mask_last (prefix : list Z) (prefix_size prefix_bits : nat)
  : list Z :=
  if prefix_bits mod 8 =? 0 then prefix
  else alter (fun b => Z.land b (endmask prefix_bits)) (prefix_size - 1) prefix.

(** [if (CHECK_BIT(...)) parent->right = n; else parent->left = n;] *)
Definition link_child (parent : loc) (prefix : list Z) (n : loc) : M bst unit :=
  pn ← load parent;
  b ← derefM (CHECK_BIT prefix (n_prefix_bits pn));
  if b : bool then store parent (with_right (Some n) pn)
  else store parent (with_left (Some n) pn).

(** The fields of the new node, with the bits of the last byte past the key
    masked out. *)
Definition fill_node (parent : loc) (prefix : list Z) (prefix_size : nat)
    (n : loc) : M bst unit :=
  pn ← load parent;
  copy ← derefM (read_prefix prefix prefix_size);
  store n (BstNode _ parent None None None None (n_prefix_bits pn + 1)
             prefix_size
             (mask_last copy prefix_size (n_prefix_bits pn + 1))).

Definition bst_create_node (parent : loc) (prefix : list Z)
    (prefix_size : nat) : M bst (option loc) :=
  r ← kmalloc_node (BstNode _ parent None None None None 0 0 []);
  match r with
  | None => mret None
  | Some n =>
      link_child parent prefix n;;
      fill_node parent prefix prefix_size n;;
      mret (Some n)
  end.

Fixpoint node_new_loop (fuel : nat) (parent : loc) (prefix : list Z)
    (prefix_bits : nat) : M bst (option loc) :=
  match fuel with
  | O => nofuelM
  | S fuel =>
      pn ← load parent;
      n ← bst_create_node parent prefix (PREFIX_SIZE (n_prefix_bits pn + 1));
      match n with
      | None => mret None
      | Some n =>
          link_child parent prefix n;;
          if n_prefix_bits pn + 1 =? prefix_bits then mret (Some n)
          else node_new_loop fuel n prefix prefix_bits
      end
  end.

Definition bst_node_new (parent : loc) (prefix : list Z) (prefix_bits : nat)
  : M bst (option loc) :=
  node_new_loop prefix_bits parent prefix prefix_bits.

Definition bst_node_insert_prefix (r : option loc) (ops : option Ops)
    (private : option Priv) (prefix : list Z) (prefix_bits : nat)
  : M bst (option loc) :=
  '(n, _) ← bst_node_find_longest_prefix r None prefix prefix_bits None;
  n ← derefM n;
  nd ← load n;
  n ← (if n_prefix_bits nd <? prefix_bits
       then bst_node_new n prefix prefix_bits else mret (Some n));
  match n with
  | None => mret None
  | Some n =>
      ret ← bst_node_init n ops private;
      mret (if (ret =? -1)%Z then None else Some n)
  end.

(** The fresh root of an empty tree: its parent pointer is itself. *)
Definition new_root : M bst bool := fun st =>
  let '(ok, st) := alloc_ok st in
  if ok then
    let l := next_loc st in
    Ok (true, Bst _ (<[l := BstNode _ l None None None None 0 0 []]> (heap st))
                (Some l) (entries st) (Pos.succ l) (allocs st) (env st))
  else Ok (false, set_root None st).

Definition bst_insert_prefix (ops : option Ops) (private : option Priv)
    (prefix : list Z) (prefix_bits : nat) : M bst (option loc) :=
  st ← getS;
  ok ← (if (entries st =? 0)%Z then new_root else mret true);
  if ok : bool then
    r ← gets root;
    n ← bst_node_insert_prefix r ops private prefix prefix_bits;
    match n with
    | None => mret None
    | Some n =>
        modS (fun st => set_entries (u32 (entries st + 1)) st);;
        mret (Some n)
    end
  else mret None.

Definition bst_remove_prefix (prefix : list Z) (prefix_bits : nat) : M bst Z :=
  n ← bst_find_longest_prefix prefix prefix_bits;
  match n with
  | None => mret 0%Z
  | Some l =>
      nd ← load l;
      if n_prefix_bits nd =? prefix_bits then
        bst_node_orphan l;; mret 1%Z
      else mret 0%Z
  end.

End bst_code.
