(* ===== verification/BstRep.v ===== *)
(** * Representation of the trie heap by pure trees

    A tree of addresses and data, the predicate [shape] that a heap holds it,
    and zippers ([frame], [plug]) that focus on one node, with which the
    pointer walks of bst.c are followed. *)
From S2P Require Import Prelude Bst.
Local Open Scope nat_scope.

Section rep.
Context `{BC : BstClient}.

Inductive tree :=
| E
| T (l : loc) (o : option Ops) (p : option Priv) (tl tr : tree).

Definition root_of (t : tree) : option loc :=
  match t with E => None | T l _ _ _ _ => Some l end.
Definition troot (t : tree) : loc := default 1%positive (root_of t).

Fixpoint locs (t : tree) : list loc :=
  match t with E => [] | T l _ _ a b => l :: locs a ++ locs b end.

(** A node is active when its private pointer is set. *)
Fixpoint active (t : tree) : nat :=
  match t with
  | E => 0
  | T _ _ p a b => (if is_set p then 1 else 0) + active a + active b
  end.

Record frame := Frame {
  f_dir : bool; f_loc : loc; f_ops : option Ops; f_priv : option Priv;
  f_sib : tree;
}.

Definition fill (f : frame) (t : tree) : tree :=
  if f_dir f then T (f_loc f) (f_ops f) (f_priv f) (f_sib f) t
  else T (f_loc f) (f_ops f) (f_priv f) t (f_sib f).
Fixpoint plug (c : list frame) (t : tree) : tree :=
  match c with [] => t | f :: c => plug c (fill f t) end.
Fixpoint cpath (c : list frame) : list bool :=
  match c with [] => [] | f :: c => cpath c ++ [f_dir f] end.
Definition cpar (c : list frame) (l : loc) : loc :=
  match c with [] => l | f :: _ => f_loc f end.
Fixpoint clocs (c : list frame) : list loc :=
  match c with [] => [] | f :: c => f_loc f :: locs (f_sib f) ++ clocs c end.

(** The representation is parametric in what a node at a given bit path
    satisfies besides its pointers ([K]): its key, or nothing while the tree
    is being destroyed. *)
Section with_K.
Variable K : list bool -> bst_node -> Prop.

Definition node_at (h : gmap loc bst_node) (l par : loc) (lft rgt : option loc)
    (o : option Ops) (p : option Priv) (path : list bool) : Prop :=
  exists nd, h !! l = Some nd /\ n_parent nd = par /\ n_left nd = lft /\
    n_right nd = rgt /\ n_ops nd = o /\ n_private nd = p /\ K path nd.

Fixpoint shape (h : gmap loc bst_node) (par : loc) (path : list bool)
    (t : tree) : Prop :=
  match t with
  | E => True
  | T l o p a b =>
      node_at h l par (root_of a) (root_of b) o p path /\
      shape h l (path ++ [false]) a /\ shape h l (path ++ [true]) b
  end.

Definition rep (h : gmap loc bst_node) (t : tree) : Prop :=
  shape h (troot t) [] t.

Fixpoint cshape (h : gmap loc bst_node) (c : list frame) (hole : option loc)
  : Prop :=
  match c with
  | [] => True
  | f :: c =>
      node_at h (f_loc f) (cpar c (f_loc f))
        (if f_dir f then root_of (f_sib f) else hole)
        (if f_dir f then hole else root_of (f_sib f))
        (f_ops f) (f_priv f) (cpath c) /\
      shape h (f_loc f) (cpath c ++ [negb (f_dir f)]) (f_sib f) /\
      cshape h c (Some (f_loc f))
  end.

Lemma root_of_fill f t : root_of (fill f t) = Some (f_loc f).
Proof. unfold fill. by destruct (f_dir f). Qed.

Lemma rep_plug h c t :
  rep h (plug c t) <->
  cshape h c (root_of t) /\ shape h (cpar c (troot t)) (cpath c) t.
Proof.
  revert t. induction c as [|f c IH]; intros t; simpl.
  { unfold rep. tauto. }
  rewrite IH, root_of_fill. unfold troot; rewrite root_of_fill; simpl.
  unfold fill. destruct (f_dir f); simpl; tauto.
Qed.

Lemma locs_plug c t : locs (plug c t) ≡ₚ locs t ++ clocs c.
Proof.
  revert t. induction c as [|f c IH]; intros t; simpl.
  { by rewrite app_nil_r. }
  rewrite IH. unfold fill. destruct (f_dir f); simpl; solve_Permutation.
Qed.

Lemma active_plug c t t' :
  active (plug c t) + active t' = active (plug c t') + active t.
Proof.
  revert t t'. induction c as [|f c IH]; intros t t'; simpl; [lia|].
  specialize (IH (fill f t) (fill f t')).
  unfold fill in *. destruct (f_dir f); simpl in *; lia.
Qed.

Lemma NoDup_plug c t :
  NoDup (locs (plug c t)) <->
  NoDup (locs t) /\ NoDup (clocs c) /\ (forall l, l ∈ locs t -> l ∉ clocs c).
Proof. rewrite locs_plug, NoDup_app. naive_solver. Qed.

(** Updates outside a tree do not change what the heap says of it. *)
Lemma node_at_agree h h' l par lft rgt o p path :
  node_at h l par lft rgt o p path -> h' !! l = h !! l ->
  node_at h' l par lft rgt o p path.
Proof. intros (nd & ? & ?) Hl. exists nd. by rewrite Hl. Qed.

Lemma shape_agree h h' par path t :
  shape h par path t -> (forall l, l ∈ locs t -> h' !! l = h !! l) ->
  shape h' par path t.
Proof.
  revert par path. induction t as [|l o p a IHa b IHb]; intros par path;
    simpl; [done|].
  intros (Hn & Ha & Hb) Hag. repeat split.
  - eapply node_at_agree; [done|]. apply Hag. set_solver.
  - apply IHa; [done|]. intros x Hx. apply Hag. set_solver.
  - apply IHb; [done|]. intros x Hx. apply Hag. set_solver.
Qed.

Lemma cshape_agree h h' c hole :
  cshape h c hole -> (forall l, l ∈ clocs c -> h' !! l = h !! l) ->
  cshape h' c hole.
Proof.
  revert hole. induction c as [|f c IH]; intros hole; simpl; [done|].
  intros (Hn & Hs & Hc) Hag. repeat split.
  - eapply node_at_agree; [done|]. apply Hag. set_solver.
  - eapply shape_agree; [done|]. intros x Hx. apply Hag. set_solver.
  - apply IH; [done|]. intros x Hx. apply Hag. set_solver.
Qed.

Lemma shape_dom h par path t l :
  shape h par path t -> l ∈ locs t -> is_Some (h !! l).
Proof.
  revert par path. induction t as [|l' o p a IHa b IHb]; intros par path;
    simpl; [set_solver|].
  intros ((nd & Hn & _) & Ha & Hb) [->|[Hl|Hl]%elem_of_app]%elem_of_cons;
    eauto.
Qed.

Lemma rep_dom h t l : rep h t -> l ∈ locs t -> is_Some (h !! l).
Proof. apply shape_dom. Qed.

Lemma rep_size h t : rep h t -> NoDup (locs t) -> length (locs t) <= size h.
Proof.
  intros Hrep Hnd.
  assert (list_to_set (locs t) ⊆ dom h) as Hsub.
  { intros l. rewrite elem_of_list_to_set, elem_of_dom. eauto using rep_dom. }
  apply subseteq_size in Hsub. rewrite size_list_to_set in Hsub by done.
  by rewrite size_dom in Hsub.
Qed.

Lemma root_of_locs t l : root_of t = Some l -> l ∈ locs t.
Proof. destruct t; simpl; intros; simplify_eq; set_solver. Qed.

(** Replacing the focused subtree, with the context untouched. *)
Lemma rep_replace h h' c t t' :
  rep h (plug c t) -> (forall l, l ∈ clocs c -> h' !! l = h !! l) ->
  root_of t' = root_of t -> shape h' (cpar c (troot t)) (cpath c) t' ->
  rep h' (plug c t').
Proof.
  intros [Hc _]%rep_plug Hag Hr Hs. apply rep_plug.
  replace (troot t') with (troot t) by (unfold troot; by rewrite Hr).
  rewrite Hr. split; [by eapply cshape_agree|done].
Qed.

(** The focused node, as the code reads it. *)
Lemma rep_focus h c l o p a b :
  rep h (plug c (T l o p a b)) ->
  node_at h l (cpar c l) (root_of a) (root_of b) o p (cpath c).
Proof. intros (_ & Hn & _)%rep_plug. done. Qed.

End with_K.

Lemma length_cpath c : length (cpath c) = length c.
Proof. induction c; simpl; rewrite ?length_app; simpl; lia. Qed.
End rep.

Arguments tree {BC}.
Arguments frame {BC}.
