(* ===== verification/BstFind.v ===== *)
(** * Longest prefix match: the trie against its abstract map

    A trie stands for a finite map from bit strings to private data.  The
    searches of bst.c return what a scan of the map over all prefixes of the
    key returns. *)
From S2P Require Import Prelude Bst BstRep.
Local Open Scope nat_scope.

(** The bits of a prefix, most significant bit of each byte first. *)
Definition bit_at (prefix : list Z) (i : nat) : bool :=
  default false (CHECK_BIT prefix i).
Definition bits_of (prefix : list Z) (n : nat) : list bool :=
  map (bit_at prefix) (seq 0 n).

Lemma length_bits_of prefix n : length (bits_of prefix n) = n.
Proof. unfold bits_of. by rewrite length_map, length_seq. Qed.

Lemma lookup_bits_of prefix n i :
  i < n -> bits_of prefix n !! i = Some (bit_at prefix i).
Proof.
  intros. unfold bits_of. rewrite list_lookup_fmap, lookup_seq_lt by done.
  done.
Qed.

Lemma drop_bits_of prefix n k :
  k < n -> drop k (bits_of prefix n) =
           bit_at prefix k :: drop (S k) (bits_of prefix n).
Proof. intros. by erewrite drop_S by by apply lookup_bits_of. Qed.

Lemma take_S_bits_of prefix n k :
  k < n -> take (S k) (bits_of prefix n) =
           take k (bits_of prefix n) ++ [bit_at prefix k].
Proof. intros. by erewrite take_S_r by by apply lookup_bits_of. Qed.

Lemma CHECK_BIT_in prefix n i :
  PREFIX_SIZE n <= length prefix -> i < n ->
  CHECK_BIT prefix i = Some (bit_at prefix i).
Proof.
  intros Hlen Hi. unfold bit_at, CHECK_BIT.
  destruct (prefix !! PREFIX_BYTE i) as [b|] eqn:Hb; [done|].
  exfalso. apply lookup_ge_None in Hb. unfold PREFIX_SIZE, PREFIX_BYTE in *.
  pose proof (Nat.div_mod_eq n 8). pose proof (Nat.div_mod_eq i 8).
  pose proof (Nat.mod_upper_bound i 8). pose proof (Nat.mod_upper_bound n 8).
  destruct (Nat.eqb_spec (n mod 8) 0); lia.
Qed.

(** An active entry: the node's address and its private data. *)
Abbreviation entry := (positive * Priv)%type.

Section find.
Context `{BC : BstClient}.

(** What a node at bit path [path] stores of its key: the length, and the
    packed bits with the unused low bits of the last byte cleared. *)
Definition keyed (path : list bool) (nd : bst_node) : Prop :=
  n_prefix_bits nd = length path /\
  n_prefix_size nd = PREFIX_SIZE (length path) /\
  length (n_prefix nd) = n_prefix_size nd /\
  (forall i, i < 8 * n_prefix_size nd ->
     CHECK_BIT (n_prefix nd) i = Some (default false (path !! i))).

(** ** Tree-level search *)

Fixpoint tget (t : tree) (key : list bool) : option entry :=
  match t, key with
  | E, _ => None
  | T l _ p _ _, [] => pair l <$> p
  | T _ _ _ a b, x :: key => tget (if x : bool then b else a) key
  end.

Definition upd_prev (mp : Priv -> bool) (p : option Priv) (l : loc)
    (prev : option loc) : option loc :=
  match p with Some v => if mp v then Some l else prev | None => prev end.

Fixpoint tsearch (mp : Priv -> bool) (t : tree) (key : list bool)
    (prev : option loc) : option loc * option loc :=
  match t with
  | E => (None, prev)
  | T l o p a b =>
      let prev := upd_prev mp p l prev in
      match key with
      | [] => (Some l, prev)
      | x :: key =>
          match (if x : bool then b else a) with
          | E => (Some l, prev)
          | T _ _ _ _ _ as t' => tsearch mp t' key prev
          end
      end
  end.

(** A match callback that, on the entries of [t], reads the state and decides
    by [mp]. *)
Definition matches (st : bst) (t : tree) (mtch : option (loc -> M bst bool))
    (mp : Priv -> bool) : Prop :=
  forall key l v, tget t key = Some (l, v) ->
    match_node mtch l st = Ok (mp v, st).

Lemma matches_none st t : matches st t None (fun _ => true).
Proof. done. Qed.

Lemma matches_child st l o p a b mtch mp (x : bool) :
  matches st (T l o p a b) mtch mp ->
  matches st (if x then b else a) mtch mp.
Proof. intros H key y v Hg. by apply (H (x :: key)). Qed.

Lemma find_prev st mtch mp l o p a b prev :
  matches st (T l o p a b) mtch mp ->
  (if is_set p
   then b ← match_node mtch l; mret (if b : bool then Some l else prev)
   else mret prev) st = Ok (upd_prev mp p l prev, st).
Proof.
  intros Hm. destruct p as [v|]; simpl; [|done].
  unfold mbind, M_bind. by rewrite (Hm [] l v).
Qed.

Lemma load_Ok st l nd : heap st !! l = Some nd -> load l st = Ok (nd, st).
Proof. unfold load. by intros ->. Qed.

(** The loop follows the tree-level search and changes nothing. *)
Lemma find_loop_ok st mtch mp prefix n :
  PREFIX_SIZE n <= length prefix ->
  forall fuel k par l o p a b prev, k <= n -> n - k <= fuel ->
  matches st (T l o p a b) mtch mp ->
  shape keyed (heap st) par (take k (bits_of prefix n)) (T l o p a b) ->
  exists n' prev',
    tsearch mp (T l o p a b) (drop k (bits_of prefix n)) prev
      = (Some n', prev') /\
    find_loop fuel l prev prefix n mtch st = Ok ((n', prev'), st).
Proof.
  intros Hlen fuel. induction fuel as [|fuel IH];
    intros k par l o p a b prev Hk Hfuel Hm ((nd & Hl & Hpar & Ha & Hb & Ho & Hp
      & Hbits & _) & Sa & Sb);
    rewrite length_take_le in Hbits by (rewrite length_bits_of; lia); simpl;
    rewrite (bind_Ok _ _ _ _ _ (load_Ok _ _ _ Hl)), Hp,
      (bind_Ok _ _ _ _ _ (find_prev _ _ _ _ _ _ _ _ prev Hm)), Hbits.
  - replace k with n by lia. rewrite drop_ge by (rewrite length_bits_of; lia).
    rewrite Nat.eqb_refl, orb_true_r. eauto.
  - destruct (decide (k = n)) as [->|Hne].
    + rewrite drop_ge by (rewrite length_bits_of; lia).
      rewrite Nat.eqb_refl, orb_true_r. eauto.
    + rewrite (proj2 (Nat.eqb_neq n 0)), (proj2 (Nat.eqb_neq k n)) by lia.
      rewrite drop_bits_of by lia. simpl.
      erewrite (CHECK_BIT_in _ n) by lia. simpl. rewrite bind_ret, Ha, Hb.
      apply (matches_child _ _ _ _ _ _ _ _ (bit_at prefix k)) in Hm.
      set (t' := if bit_at prefix k then b else a) in *.
      assert (shape keyed (heap st) l (take (S k) (bits_of prefix n)) t') as St.
      { rewrite take_S_bits_of by lia. subst t'.
        by destruct (bit_at prefix k). }
      replace (if bit_at prefix k then root_of b else root_of a)
        with (root_of t') by (subst t'; by destruct (bit_at prefix k)).
      destruct t' as [|l' o' p' a' b']; [simpl; eauto|].
      apply (IH (S k) l l' o' p' a' b'); [lia..|done|done].
Qed.

(** ** The abstract map of a tree *)
Fixpoint tmap (t : tree) : gmap (list bool) entry :=
  match t with
  | E => ∅
  | T l _ p a b =>
      partial_alter (fun _ => pair l <$> p) []
        (kmap (cons false) (tmap a) ∪ kmap (cons true) (tmap b))
  end.

Lemma lookup_kmap_nil (x : bool) (m : gmap (list bool) entry) :
  (kmap (cons x) m : gmap (list bool) entry) !! [] = None.
Proof. apply lookup_kmap_None; [apply _|]. naive_solver. Qed.

Lemma lookup_kmap_cons (x y : bool) (m : gmap (list bool) entry) k :
  (kmap (cons x) m : gmap (list bool) entry) !! (y :: k) =
  if decide (x = y) then m !! k else None.
Proof.
  case_decide as Hxy; [subst; by apply (lookup_kmap (cons y))|].
  apply lookup_kmap_None; [apply _|]. naive_solver.
Qed.

Lemma size_kmap_cons (x : bool) (m : gmap (list bool) entry) :
  size (kmap (cons x) m : gmap (list bool) entry) = size m.
Proof.
  induction m as [|k v m Hk IH] using map_ind.
  { by rewrite kmap_empty. }
  rewrite (kmap_insert (cons x)), !map_size_insert_None, IH;
    rewrite ?(lookup_kmap (cons x)); done.
Qed.

Lemma tmap_lookup t key : tmap t !! key = tget t key.
Proof.
  revert key. induction t as [|l o p a IHa b IHb]; intros key; simpl.
  { by rewrite lookup_empty. }
  destruct key as [|x key].
  { by rewrite lookup_partial_alter_eq. }
  rewrite lookup_partial_alter_ne by done.
  rewrite lookup_union, !lookup_kmap_cons, IHa, IHb.
  destruct x; simpl.
  - by destruct (tget b key).
  - by destruct (tget a key).
Qed.

Lemma tmap_size t : size (tmap t) = active t.
Proof.
  induction t as [|l o p a IHa b IHb]; simpl; [done|].
  set (m := kmap (cons false) (tmap a) ∪ kmap (cons true) (tmap b)).
  assert (size m = active a + active b) as Hm.
  { subst m. rewrite map_size_disj_union, !size_kmap_cons, IHa, IHb; [done|].
    apply map_disjoint_spec. intros [|[] k] x y;
      rewrite ?lookup_kmap_nil, ?lookup_kmap_cons; done. }
  assert (m !! [] = None) as Hnil.
  { subst m. by rewrite lookup_union, !lookup_kmap_nil. }
  destruct p as [v|]; simpl.
  - change (partial_alter _ _ m) with (<[[] := (l, v)]> m).
    rewrite map_size_insert_None by done. lia.
  - change (partial_alter _ _ m) with (delete [] m).
    rewrite delete_id by done. lia.
Qed.

(** ** The abstract search: scan the prefixes of the key, longest first *)
Fixpoint lpm_from (m : gmap (list bool) entry) (mp : Priv -> bool)
    (key : list bool) (n : nat) : option (list bool * entry) :=
  let next := match n with O => None | S n => lpm_from m mp key n end in
  match m !! take n key with
  | Some v => if mp v.2 then Some (take n key, v) else next
  | None => next
  end.
Definition lpm (m : gmap (list bool) entry) (mp : Priv -> bool)
    (key : list bool) : option (list bool * entry) :=
  lpm_from m mp key (length key).

(** No prefix of [key] shorter than or as long as [n] has a matching entry. *)
Lemma lpm_from_None m mp key n :
  lpm_from m mp key n = None <->
  (forall i v, i <= n -> m !! take i key = Some v -> mp v.2 = false).
Proof.
  induction n as [|n IH]; simpl.
  - destruct (m !! take 0 key) as [v|] eqn:Hv.
    + destruct (mp v.2) eqn:Hmp; split; try done.
      * intros H. specialize (H 0 v ltac:(lia) Hv). congruence.
      * intros _ i w Hi Hw. replace i with 0 in Hw by lia. congruence.
    + split; [|done]. intros _ i w Hi Hw. replace i with 0 in Hw by lia.
      congruence.
  - destruct (m !! take (S n) key) as [v|] eqn:Hv; [destruct (mp v.2) eqn:Hmp|].
    + split; [done|]. intros H. specialize (H _ _ ltac:(done) Hv). congruence.
    + rewrite IH. split; intros H i w Hi Hw; [|eauto].
      destruct (decide (i = S n)) as [->|]; [congruence|].
      apply (H i w); [lia|done].
    + rewrite IH. split; intros H i w Hi Hw; [|eauto].
      destruct (decide (i = S n)) as [->|]; [congruence|].
      apply (H i w); [lia|done].
Qed.

Lemma lpm_from_Some m mp key n i v :
  i <= n -> m !! take i key = Some v -> mp v.2 = true ->
  (forall j w, i < j <= n -> m !! take j key = Some w -> mp w.2 = false) ->
  lpm_from m mp key n = Some (take i key, v).
Proof.
  intros Hi Hv Hmp Hmax. induction n as [|n IH]; simpl.
  { replace i with 0 in * by lia. by rewrite Hv, Hmp. }
  destruct (decide (i = S n)) as [->|Hne].
  { by rewrite Hv, Hmp. }
  rewrite IH; [|lia|intros j w Hj; apply Hmax; lia].
  destruct (m !! take (S n) key) as [w|] eqn:Hw; [|done].
  by rewrite (Hmax (S n) w) by (lia || done).
Qed.

(** What the tree-level search leaves in [prev]: the deepest matching entry on
    the way, or the initial value when there is none. *)
Definition no_match_from (mp : Priv -> bool) (t : tree) (key : list bool)
    (i : nat) : Prop :=
  forall j w, i <= j <= length key -> tget t (take j key) = Some w ->
    mp w.2 = false.
Definition best_match (mp : Priv -> bool) (t : tree) (key : list bool)
    (prev res : option loc) : Prop :=
  (exists i e, i <= length key /\ tget t (take i key) = Some e /\
     mp e.2 = true /\ res = Some e.1 /\ no_match_from mp t key (S i)) \/
  (res = prev /\ no_match_from mp t key 0).

Lemma best_here mp l o p a b key prev :
  no_match_from mp (T l o p a b) key 1 ->
  best_match mp (T l o p a b) key prev (upd_prev mp p l prev).
Proof.
  intros Hdeep. unfold upd_prev. destruct p as [v|].
  - destruct (mp v) eqn:Hmp; [left; exists 0, (l, v); naive_solver lia|].
    right. split; [done|]. intros [|j] w Hj; [simpl; intros; by simplify_eq|].
    apply Hdeep. lia.
  - right. split; [done|]. intros [|j] w Hj; [by simpl|]. apply Hdeep. lia.
Qed.

Lemma no_match_empty mp key i : no_match_from mp E key i.
Proof. intros j w _ Hw. simpl in Hw. by destruct (take j key). Qed.

Lemma best_empty mp key prev : best_match mp E key prev prev.
Proof. right. split; [done|]. apply no_match_empty. Qed.

Lemma no_match_child mp l o p a b (x : bool) key i :
  no_match_from mp (if x then b else a) key i ->
  no_match_from mp (T l o p a b) (x :: key) (S i).
Proof.
  intros Hno [|j] w Hj Hw; [lia|]. apply (Hno j w); simpl in *; [lia|done].
Qed.

Lemma best_child mp l o p a b (x : bool) key prev res :
  best_match mp (if x then b else a) key (upd_prev mp p l prev) res ->
  best_match mp (T l o p a b) (x :: key) prev res.
Proof.
  intros [(i & v & Hi & Hg & Hmp & Hl & Hmax)|[-> Hno]].
  - left. exists (S i), v. split_and!; [simpl; lia|done..|].
    by apply no_match_child.
  - by apply best_here, no_match_child.
Qed.

Lemma tsearch_spec mp t key prev n prev' :
  tsearch mp t key prev = (n, prev') -> best_match mp t key prev prev'.
Proof.
  revert t prev. induction key as [|x key IH]; intros [|l o p a b] prev Hs;
    simpl in Hs.
  - simplify_eq. by apply best_empty.
  - simplify_eq. apply best_here. intros j w ?; simpl in *; lia.
  - simplify_eq. by apply best_empty.
  - destruct (if x then b else a) as [|l' o' p' a' b'] eqn:Ht'.
    + simplify_eq. apply best_here, no_match_child. rewrite Ht'.
      apply no_match_empty.
    + apply best_child. rewrite Ht'. by apply IH.
Qed.

(** Where the search stops: at the node of the key, or at the last node of the
    path, whose child on the next bit is missing. *)
Lemma tsearch_zip mp key : forall c l o p a b prev n prev',
  tsearch mp (T l o p a b) key prev = (Some n, prev') ->
  exists d o' p' a' b',
    plug (d ++ c) (T n o' p' a' b') = plug c (T l o p a b) /\
    cpath (d ++ c) = cpath c ++ take (length d) key /\
    length d <= length key /\
    upd_prev mp p' n prev' = prev' /\
    (length d = length key \/ exists x rest, drop (length d) key = x :: rest /\
       (if x : bool then b' else a') = E).
Proof.
  assert (forall p l prev, upd_prev mp p l (upd_prev mp p l prev) =
                           upd_prev mp p l prev) as Hidem.
  { intros p l prev. unfold upd_prev. destruct p as [v|]; [|done].
    by destruct (mp v). }
  induction key as [|x key IH]; intros c l o p a b prev n prev' Hs;
    simpl in Hs.
  { simplify_eq. exists [], o, p, a, b. simpl. rewrite app_nil_r. auto 10. }
  destruct (if x then b else a) as [|l' o' p' a' b'] eqn:Ht'.
  { simplify_eq. exists [], o, p, a, b. simpl. rewrite app_nil_r.
    split_and!; eauto with lia. }
  set (f := Frame x l o p (if x then a else b)).
  destruct (IH (f :: c) _ _ _ _ _ _ _ _ Hs)
    as (d & o1 & p1 & a1 & b1 & Hplug & Hpath & Hlen & Hu & Hend).
  exists (d ++ [f]), o1, p1, a1, b1.
  rewrite <-!app_assoc, !length_app. simpl.
  replace (length d + 1) with (S (length d)) by lia. simpl.
  split_and!; [| |lia|done|].
  - rewrite Hplug. simpl. subst f. unfold fill. simpl. rewrite <-Ht'.
    by destruct x.
  - rewrite Hpath. simpl. by rewrite <-app_assoc.
  - destruct Hend; [left; lia|by right].
Qed.

Lemma tsearch_stop mp l o p a b key prev n prev' :
  tsearch mp (T l o p a b) key prev = (Some n, prev') ->
  exists c o' p' a' b',
    plug c (T n o' p' a' b') = T l o p a b /\
    cpath c = take (length c) key /\ length c <= length key /\
    upd_prev mp p' n prev' = prev' /\
    (length c = length key \/ exists x rest, drop (length c) key = x :: rest /\
       (if x : bool then b' else a') = E).
Proof.
  intros (c & o' & p' & a' & b' & Hs)%(tsearch_zip mp key []).
  exists c, o', p', a', b'. by rewrite app_nil_r in Hs.
Qed.

Lemma tget_cpath c l o p a b v :
  p = Some v -> tget (plug c (T l o p a b)) (cpath c) = Some (l, v).
Proof.
  intros ->. assert (forall c t k e, tget t k = Some e ->
    tget (plug c t) (cpath c ++ k) = Some e) as H.
  { clear. induction c as [|f c IH]; intros t k e Hk; simpl; [done|].
    rewrite <-app_assoc. apply IH. unfold fill. by destruct (f_dir f). }
  rewrite <-(app_nil_r (cpath c)). by apply H.
Qed.

(** ** The representation invariant of the whole structure *)

(** A node has operations exactly when it is active: both are set and cleared
    together. *)
Fixpoint tree_ok (t : tree) : Prop :=
  match t with
  | E => True
  | T _ o p a b => is_set o = is_set p /\ tree_ok a /\ tree_ok b
  end.

Definition fresh_above (h : gmap loc bst_node) (next : loc) : Prop :=
  forall l, is_Some (h !! l) -> (l < next)%positive.

Record trieK (K : list bool -> bst_node -> Prop) (st : bst) (t : tree)
  : Prop := Trie {
  trie_rep : rep K (heap st) t;
  trie_root : root st = root_of t;
  trie_nodup : NoDup (locs t);
  trie_fresh : fresh_above (heap st) (next_loc st);
  trie_ok : tree_ok t;
}.
#[global] Arguments trie_rep {K} st t.
#[global] Arguments trie_root {K} st t.
#[global] Arguments trie_nodup {K} st t.
#[global] Arguments trie_fresh {K} st t.
#[global] Arguments trie_ok {K} st t.
Definition trie : bst -> tree -> Prop := trieK keyed.

(** The code-level search returns [lpm] of the abstract map. *)
Lemma find_match_trie st t prefix n mtch mp :
  trie st t -> matches st t mtch mp -> PREFIX_SIZE n <= length prefix ->
  exists res,
    bst_find_longest_prefix_match prefix n mtch st = Ok (res, st) /\
    best_match mp t (bits_of prefix n) None res.
Proof.
  intros Ht Hm Hlen. unfold bst_find_longest_prefix_match.
  rewrite (bind_Ok _ _ _ (root st) st), (trie_root _ _ Ht) by done.
  destruct t as [|l o p a b]; simpl.
  { exists None. split; [done|]. apply best_empty. }
  destruct (find_loop_ok st mtch mp prefix n Hlen n 0 l l o p a b None)
    as (n' & prev' & Hs & Hf); [lia..|done|apply (trie_rep _ _ Ht)|].
  rewrite (bind_Ok _ _ st (Some n', prev') st) by (by rewrite (bind_Ok _ _ _ _ _ Hf)).
  exists prev'. split; [|by eapply tsearch_spec].
  destruct (tsearch_stop _ _ _ _ _ _ _ _ _ _ Hs)
    as (c & o' & p' & a' & b' & Hplug & _ & _ & Hu & _).
  pose proof (trie_rep _ _ Ht) as Hrep. rewrite <-Hplug in Hrep.
  apply rep_focus in Hrep as (nd & Hl & _ & _ & _ & _ & Hp & _).
  rewrite (bind_Ok _ _ _ _ _ (load_Ok _ _ _ Hl)), Hp.
  destruct p' as [v|]; simpl; [|done].
  rewrite <-Hplug in Hm.
  rewrite (bind_Ok _ _ _ _ _ (Hm (cpath c) n' v ltac:(by apply tget_cpath))).
  simpl in Hu. by rewrite Hu.
Qed.

(** The same, read on the abstract map. *)
Lemma best_match_lpm mp t key res :
  best_match mp t key None res ->
  match lpm (tmap t) mp key with
  | Some (k, e) => tget t k = Some e /\ res = Some e.1
  | None => res = None
  end.
Proof.
  intros [(i & v & Hi & Hg & Hmp & Hl & Hmax)|[-> Hno]].
  - unfold lpm. rewrite (lpm_from_Some _ _ _ _ i v); [|done|..|done|].
    + done.
    + by rewrite tmap_lookup.
    + intros j w Hj. rewrite tmap_lookup. apply Hmax. lia.
  - unfold lpm. rewrite (proj2 (lpm_from_None _ _ _ _)); [done|].
    intros j w Hj. rewrite tmap_lookup. apply Hno. lia.
Qed.
End find.
