(* ===== verification/BstInsert.v ===== *)
(** * Insertion into the trie

    Creating the missing nodes of a key, and [bst_insert_prefix] against
    insertion into the abstract map. *)
From S2P Require Import Prelude Bst BstRep BstFind.
Local Open Scope nat_scope.

(** ** The packed keys written by [bst_create_node] *)
Lemma land_shiftl_testbit b j :
  (0 <= j)%Z -> negb (Z.land b (Z.shiftl 1 j) =? 0)%Z = Z.testbit b j.
Proof.
  intros Hj. destruct (Z.testbit b j) eqn:Hb.
  - apply negb_true_iff, Z.eqb_neq. intros H0.
    apply (f_equal (fun z => Z.testbit z j)) in H0.
    rewrite Z.land_spec, Z.shiftl_spec, Z.sub_diag, Hb, Z.bits_0 in H0 by done.
    done.
  - apply negb_false_iff, Z.eqb_eq, Z.bits_inj'. intros i Hi.
    rewrite Z.land_spec, Z.shiftl_spec, Z.bits_0 by done.
    destruct (decide (i = j)) as [->|Hne]; [by rewrite Hb|].
    apply andb_false_iff. right.
    destruct (decide (i < j)%Z); [by apply Z.testbit_neg_r; lia|].
    apply (Z.pow2_bits_false 0). lia.
Qed.

Lemma endmask_testbit r j :
  r < 8 -> j < 8 ->
  Z.testbit (endmask_loop 0 r 0) (Z.of_nat (7 - j)) = (j <? r).
Proof.
  intros Hr Hj. 
  do 8 (destruct r as [|r]; [do 8 (destruct j as [|j]; [done|]); lia|]); lia.
Qed.

Lemma PREFIX_BYTE_lt i size : i < 8 * size -> PREFIX_BYTE i < size.
Proof. intros. unfold PREFIX_BYTE. apply Nat.Div0.div_lt_upper_bound. lia. Qed.

Lemma PREFIX_SIZE_mono m n : m <= n -> PREFIX_SIZE m <= PREFIX_SIZE n.
Proof.
  intros. unfold PREFIX_SIZE, PREFIX_BYTE.
  pose proof (Nat.div_mod_eq n 8). pose proof (Nat.div_mod_eq m 8).
  pose proof (Nat.mod_upper_bound m 8). pose proof (Nat.mod_upper_bound n 8).
  destruct (Nat.eqb_spec (n mod 8) 0), (Nat.eqb_spec (m mod 8) 0); lia.
Qed.

Lemma CHECK_BIT_byte prefix i b :
  prefix !! PREFIX_BYTE i = Some b ->
  CHECK_BIT prefix i = Some (Z.testbit b (Z.of_nat (7 - i mod 8))).
Proof.
  intros Hb. unfold CHECK_BIT. rewrite Hb, land_shiftl_testbit by lia. done.
Qed.

(** Masking clears exactly the bits from [bits] on. *)
Lemma CHECK_BIT_mask_last prefix bits i :
  length prefix = PREFIX_SIZE bits -> i < 8 * PREFIX_SIZE bits ->
  CHECK_BIT (mask_last prefix (PREFIX_SIZE bits) bits) i =
  Some (if i <? bits then bit_at prefix i else false).
Proof.
  intros Hlen Hi. unfold bit_at, mask_last.
  assert (PREFIX_BYTE i < length prefix) as Hb
    by (rewrite Hlen; by apply PREFIX_BYTE_lt).
  apply lookup_lt_is_Some in Hb as [b Hb].
  rewrite (CHECK_BIT_byte _ _ _ Hb). unfold default.
  pose proof (Nat.div_mod_eq bits 8). pose proof (Nat.div_mod_eq i 8).
  pose proof (Nat.mod_upper_bound bits 8). pose proof (Nat.mod_upper_bound i 8).
  unfold PREFIX_SIZE, PREFIX_BYTE in *.
  destruct (Nat.eqb_spec (bits mod 8) 0) as [Hz|Hz].
  { rewrite (CHECK_BIT_byte _ _ _ Hb). f_equal.
    destruct (Nat.ltb_spec i bits); [done|lia]. }
  replace (bits / 8 + 1 - 1) with (bits / 8) by lia.
  destruct (decide (i / 8 = bits / 8)) as [He|He].
  - erewrite CHECK_BIT_byte
      by (unfold PREFIX_BYTE; by rewrite He, list_lookup_alter_eq, <-He, Hb).
    f_equal. rewrite Z.land_spec. unfold endmask.
    rewrite endmask_testbit by lia.
    destruct (Nat.ltb_spec (i mod 8) (bits mod 8)), (Nat.ltb_spec i bits);
      rewrite ?andb_true_r, ?andb_false_r; (done || lia).
  - erewrite CHECK_BIT_byte
      by (unfold PREFIX_BYTE; by rewrite list_lookup_alter_ne).
    f_equal. destruct (Nat.ltb_spec i bits); [done|].
    assert (i / 8 <= bits / 8) by lia. lia.
Qed.

Section insert.
Context `{BC : BstClient}.

Definition set_child (x : bool) (c : option loc) (n : bst_node) : bst_node :=
  if x then with_right c n else with_left c n.

Lemma store_Ok st l nd n :
  heap st !! l = Some nd ->
  store l n st = Ok (tt, set_heap (<[l := n]> (heap st)) st).
Proof. unfold store. by intros ->. Qed.

Definition leaf (n : loc) : tree := T n None None E E.
Definition add_child (x : bool) (t : tree) (n : loc) : tree :=
  match t with
  | E => E
  | T l o p a b => if x then T l o p a (leaf n) else T l o p (leaf n) b
  end.

(** The node written by [bst_create_node] carries the key one bit longer. *)
Lemma keyed_child prefix n k par :
  PREFIX_SIZE n <= length prefix -> k < n ->
  keyed (take (S k) (bits_of prefix n))
    (BstNode _ par None None None None (k + 1) (PREFIX_SIZE (k + 1))
       (mask_last (take (PREFIX_SIZE (k + 1)) prefix) (PREFIX_SIZE (k + 1))
          (k + 1))).
Proof.
  intros Hlen Hk. pose proof (PREFIX_SIZE_mono (k + 1) n ltac:(lia)) as Hm.
  assert (length (take (PREFIX_SIZE (k + 1)) prefix) = PREFIX_SIZE (k + 1))
    as Hl by (rewrite length_take; lia).
  unfold keyed; simpl n_prefix_bits; simpl n_prefix_size; simpl n_prefix.
  rewrite length_take_le by (rewrite length_bits_of; lia).
  replace (S k) with (k + 1) by lia.
  split_and!; [done..| |].
  { unfold mask_last. destruct (_ =? _); by rewrite ?length_alter. }
  intros i Hi. rewrite CHECK_BIT_mask_last by done. f_equal.
  destruct (Nat.ltb_spec i (k + 1)) as [Hik|Hik].
  - rewrite lookup_take_lt, lookup_bits_of by lia. simpl.
    unfold bit_at, CHECK_BIT. rewrite lookup_take_lt; [done|].
    apply PREFIX_BYTE_lt. lia.
  - by rewrite lookup_take_ge by lia.
Qed.

Lemma keyed_set_child path x c nd : keyed path nd -> keyed path (set_child x c nd).
Proof. by destruct x. Qed.

Lemma rep_add_child h c l o p a b x nl nd cn h' :
  rep keyed h (plug c (T l o p a b)) -> NoDup (locs (plug c (T l o p a b))) ->
  (if x : bool then b else a) = E ->
  h !! l = Some nd -> nl ∉ locs (plug c (T l o p a b)) ->
  h' !! l = Some (set_child x (Some nl) nd) -> h' !! nl = Some cn ->
  (forall y, y <> l -> y <> nl -> h' !! y = h !! y) ->
  n_parent cn = l -> n_left cn = None -> n_right cn = None ->
  n_ops cn = None -> n_private cn = None -> keyed (cpath c ++ [x]) cn ->
  rep keyed h' (plug c (add_child x (T l o p a b) nl)).
Proof.
  intros Hrep Hnd HE Hl Hnl Hl' Hcn Hag C1 C2 C3 C4 C5 Hk.
  rewrite NoDup_plug in Hnd. destruct Hnd as (Ht & _ & Hdisj).
  rewrite locs_plug in Hnl. simpl in Ht, Hnl, Hdisj.
  rewrite NoDup_cons, NoDup_app in Ht.
  pose proof (rep_focus _ _ _ _ _ _ _ _ Hrep)
    as (nd' & Hl2 & N1 & N2 & N3 & N4 & N5 & N6).
  rewrite Hl in Hl2. injection Hl2 as <-.
  pose proof Hrep as (_ & _ & Sa & Sb)%rep_plug.
  apply (rep_replace _ h h' c (T l o p a b)); [done|..].
  - intros y Hy. apply Hag; set_solver.
  - by destruct x.
  - assert (node_at keyed h' nl l None None None None (cpath c ++ [x])) as Hleaf
      by (exists cn; auto 10).
    destruct x; simpl in *; subst; (split; [|split]); try done;
      try (eexists; split; [exact Hl'|]; simpl; auto 10 using keyed_set_child);
      (eapply shape_agree; [done|]; intros y Hy; apply Hag; set_solver).
Qed.

Lemma tree_ok_plug c t t' :
  tree_ok (plug c t) -> (tree_ok t -> tree_ok t') -> tree_ok (plug c t').
Proof.
  revert t t'. induction c as [|f c IH]; intros t t' H Ht; simpl in *; [auto|].
  eapply IH; [exact H|]. unfold fill. destruct (f_dir f); simpl; naive_solver.
Qed.

Lemma root_plug c t t' :
  root_of t = root_of t' -> root_of (plug c t) = root_of (plug c t').
Proof.
  revert t t'. induction c as [|f c IH]; intros t t' H; simpl; [done|].
  apply IH. by rewrite !root_of_fill.
Qed.

Lemma locs_add_child x l o p a b nl :
  (if x : bool then b else a) = E ->
  locs (add_child x (T l o p a b) nl) ≡ₚ nl :: locs (T l o p a b).
Proof. destruct x; simpl; intros ->; simpl; solve_Permutation. Qed.

Lemma fresh_not_in st t : trie st t -> next_loc st ∉ locs t.
Proof.
  intros Ht Hin. pose proof (rep_dom _ _ _ _ (trie_rep _ _ Ht) Hin) as Hs.
  apply (trie_fresh _ _ Ht) in Hs. lia.
Qed.

Definition allocs_good (st : bst) : Prop := Forall (eq true) (allocs st).
(** What allocation and linking leave alone. *)
Definition same_env (st st' : bst) : Prop :=
  env st' = env st /\ entries st' = entries st /\
  (allocs_good st -> allocs_good st').

Lemma same_env_trans st1 st2 st3 :
  same_env st1 st2 -> same_env st2 st3 -> same_env st1 st3.
Proof. unfold same_env. naive_solver congruence. Qed.

(** Setting the child pointer of [l] and the fresh node below it. *)
Lemma trie_add_child st c l o p a b x nd cn al :
  trie st (plug c (T l o p a b)) -> (if x : bool then b else a) = E ->
  heap st !! l = Some nd ->
  n_parent cn = l -> n_left cn = None -> n_right cn = None ->
  n_ops cn = None -> n_private cn = None -> keyed (cpath c ++ [x]) cn ->
  trie (Bst _ (<[next_loc st := cn]>
                 (<[l := set_child x (Some (next_loc st)) nd]> (heap st)))
          (root st) (entries st) (Pos.succ (next_loc st)) al (env st))
       (plug c (add_child x (T l o p a b) (next_loc st))).
Proof.
  intros Ht HE Hl C1 C2 C3 C4 C5 Hk.
  assert (l <> next_loc st) as Hne.
  { pose proof (trie_fresh _ _ Ht l ltac:(eauto)). lia. }
  pose proof (fresh_not_in _ _ Ht) as Hnl. destruct Ht as [R1 R2 R3 R4 R5].
  split; cbn [heap root next_loc].
  - eapply (rep_add_child (heap st)); try done; [by simplify_map_eq..|].
    intros y ? ?. by simplify_map_eq.
  - rewrite R2. apply root_plug. by destruct x.
  - rewrite locs_plug, locs_add_child, <-app_comm_cons, <-locs_plug by done.
    by apply NoDup_cons.
  - intros y. rewrite !lookup_insert_is_Some. intros [<-|[_ [<-|[_ Hy]]]];
      [lia| |].
    + pose proof (R4 l ltac:(eauto)). lia.
    + apply R4 in Hy. lia.
  - eapply tree_ok_plug; [exact R5|]. destruct x; simpl; naive_solver.
Qed.

Lemma read_prefix_Ok prefix n k :
  PREFIX_SIZE n <= length prefix -> k < n ->
  read_prefix prefix (PREFIX_SIZE (k + 1)) =
  Some (take (PREFIX_SIZE (k + 1)) prefix).
Proof.
  intros. pose proof (PREFIX_SIZE_mono (k + 1) n ltac:(lia)).
  unfold read_prefix. rewrite decide_True by lia. done.
Qed.

Lemma link_child_Ok st l nd prefix n k nl :
  heap st !! l = Some nd -> n_prefix_bits nd = k ->
  PREFIX_SIZE n <= length prefix -> k < n ->
  link_child l prefix nl st =
  Ok (tt, set_heap (<[l := set_child (bit_at prefix k) (Some nl) nd]>
                      (heap st)) st).
Proof.
  intros Hl Hb Hlen Hk. unfold link_child.
  rewrite (bind_Ok _ _ _ _ _ (load_Ok _ _ _ Hl)), Hb.
  rewrite (CHECK_BIT_in prefix n k) by lia. simpl. rewrite bind_ret.
  destruct (bit_at prefix k); by apply (store_Ok _ _ nd).
Qed.

Lemma fill_node_Ok st l nd prefix n k nl x :
  heap st !! l = Some nd -> n_prefix_bits nd = k ->
  heap st !! nl = Some x ->
  PREFIX_SIZE n <= length prefix -> k < n ->
  exists cn,
    fill_node l prefix (PREFIX_SIZE (k + 1)) nl st =
      Ok (tt, set_heap (<[nl := cn]> (heap st)) st) /\
    n_parent cn = l /\ n_left cn = None /\ n_right cn = None /\
    n_ops cn = None /\ n_private cn = None /\
    keyed (take (S k) (bits_of prefix n)) cn.
Proof.
  intros Hl Hb Hnl Hlen Hk. eexists. split.
  - unfold fill_node. rewrite (bind_Ok _ _ _ _ _ (load_Ok _ _ _ Hl)), Hb.
    rewrite (read_prefix_Ok prefix n k) by lia. simpl. rewrite bind_ret.
    by apply (store_Ok _ _ x).
  - simpl. split_and!; try done. by apply keyed_child.
Qed.

(** The focused node of a trie. *)
Lemma trie_focus st c l o p a b :
  trie st (plug c (T l o p a b)) ->
  exists nd, heap st !! l = Some nd /\ n_parent nd = cpar c l /\
    n_left nd = root_of a /\ n_right nd = root_of b /\ n_ops nd = o /\
    n_private nd = p /\ n_prefix_bits nd = length c /\ l <> next_loc st.
Proof.
  intros Ht. pose proof (rep_focus _ _ _ _ _ _ _ _ (trie_rep _ _ Ht))
    as (nd & Hl & N1 & N2 & N3 & N4 & N5 & Hbits & _).
  rewrite length_cpath in Hbits. exists nd. split_and!; try done.
  pose proof (trie_fresh _ _ Ht l ltac:(eauto)). lia.
Qed.

Definition allocated (st : bst) (z : bst_node) (al : list bool) : bst :=
  Bst _ (<[next_loc st := z]> (heap st)) (root st) (entries st)
    (Pos.succ (next_loc st)) al (env st).

(** Linking and filling in the node just allocated. *)
Lemma grow_ok st c l o p a b prefix n z al :
  trie st (plug c (T l o p a b)) -> PREFIX_SIZE n <= length prefix ->
  length c < n -> cpath c = take (length c) (bits_of prefix n) ->
  (if bit_at prefix (length c) then b else a) = E ->
  exists st',
    (link_child l prefix (next_loc st);;
     fill_node l prefix (PREFIX_SIZE (length c + 1)) (next_loc st);;
     mret (Some (next_loc st))) (allocated st z al)
    = Ok (Some (next_loc st), st') /\
    env st' = env st /\ entries st' = entries st /\ allocs st' = al /\
    trie st' (plug c (add_child (bit_at prefix (length c)) (T l o p a b)
                        (next_loc st))).
Proof.
  intros Ht Hlen Hk Hp HE.
  destruct (trie_focus _ _ _ _ _ _ _ Ht)
    as (nd & Hl & _ & _ & _ & _ & _ & Hb & Hne).
  assert (heap (allocated st z al) !! l = Some nd) as Hl1
    by (simpl; by rewrite lookup_insert_ne).
  rewrite (bind_Ok _ _ _ _ _ (link_child_Ok _ l nd prefix n (length c) _
             Hl1 Hb Hlen Hk)).
  set (st2 := set_heap _ (allocated st z al)).
  destruct (fill_node_Ok st2 l (set_child (bit_at prefix (length c))
              (Some (next_loc st)) nd) prefix n (length c) (next_loc st) z)
    as (cn & Hf & ? & ? & ? & ? & ? & Hkey); try done.
  { apply lookup_insert_eq. }
  { by destruct (bit_at prefix (length c)). }
  { simpl. by rewrite lookup_insert_ne, lookup_insert_eq by done. }
  rewrite (bind_Ok _ _ _ _ _ Hf). eexists. split; [done|].
  split_and!; [done..|]. unfold set_heap; simpl.
  rewrite (insert_insert_ne _ l), insert_insert_eq by done.
  apply trie_add_child; try done. by rewrite Hp, <-take_S_bits_of.
Qed.

(** One node is created below the focus, or the allocation fails and nothing
    changes. *)
Lemma create_node_ok st c l o p a b prefix n :
  trie st (plug c (T l o p a b)) -> PREFIX_SIZE n <= length prefix ->
  length c < n -> cpath c = take (length c) (bits_of prefix n) ->
  (if bit_at prefix (length c) then b else a) = E ->
  exists r st',
    bst_create_node l prefix (PREFIX_SIZE (length c + 1)) st = Ok (r, st') /\
    same_env st st' /\
    match r with
    | Some nl => trie st'
        (plug c (add_child (bit_at prefix (length c)) (T l o p a b) nl))
    | None => trie st' (plug c (T l o p a b)) /\ ~ allocs_good st
    end.
Proof.
  intros Ht Hlen Hk Hp HE. unfold bst_create_node.
  set (z := BstNode _ l None None None None 0 0 []).
  destruct (allocs st) as [|[] al] eqn:Hal.
  - destruct (grow_ok st c l o p a b prefix n z [] Ht Hlen Hk Hp HE)
      as (st' & Hrun & ? & ? & Hal' & Ht').
    rewrite (bind_Ok _ _ _ (Some (next_loc st)) (allocated st z []))
      by (unfold kmalloc_node, alloc_ok, allocated; by rewrite Hal, <-Hal).
    eexists _, st'. split; [exact Hrun|]. split; [|done].
    split_and!; try done. intros _. unfold allocs_good. by rewrite Hal'.
  - destruct (grow_ok st c l o p a b prefix n z al Ht Hlen Hk Hp HE)
      as (st' & Hrun & ? & ? & Hal' & Ht').
    rewrite (bind_Ok _ _ _ (Some (next_loc st)) (allocated st z al))
      by (unfold kmalloc_node, alloc_ok, allocated; by rewrite Hal).
    eexists _, st'. split; [exact Hrun|]. split; [|done].
    split_and!; try done. unfold allocs_good. rewrite Hal, Hal'.
    apply Forall_inv_tail.
  - exists None, (set_allocs al st).
    split; [unfold kmalloc_node, alloc_ok, mbind, M_bind; by rewrite Hal|].
    unfold same_env, allocs_good. rewrite Hal. simpl. split_and!; try done.
    + apply Forall_inv_tail.
    + destruct Ht. by split.
    + intros [? _]%Forall_cons. done.
Qed.

(** ** The loop of [bst_node_new] *)

(** The nodes it creates are inactive: the abstract map does not change. *)
Lemma tget_plug_ext c t t' :
  (forall k, tget t k = tget t' k) ->
  forall k, tget (plug c t) k = tget (plug c t') k.
Proof.
  revert t t'. induction c as [|f c IH]; intros t t' H k; simpl; [auto|].
  apply IH. intros k'. unfold fill.
  destruct (f_dir f), k' as [|[] k']; simpl; auto.
Qed.

Lemma tget_add_child x l o p a b nl k :
  (if x : bool then b else a) = E ->
  tget (add_child x (T l o p a b) nl) k = tget (T l o p a b) k.
Proof.
  destruct x; simpl; intros ->; destruct k as [|[] [|[] k]]; done.
Qed.

(** The loop links the new node a second time, to no effect. *)
Lemma relink_Ok st c l o p a b nl prefix n :
  trie st (plug c (add_child (bit_at prefix (length c)) (T l o p a b) nl)) ->
  PREFIX_SIZE n <= length prefix -> length c < n ->
  link_child l prefix nl st = Ok (tt, st).
Proof.
  intros Ht Hlen Hk. set (x := bit_at prefix (length c)) in *.
  assert (exists nd, heap st !! l = Some nd /\ n_prefix_bits nd = length c /\
            set_child x (Some nl) nd = nd) as (nd & Hl & Hb & Hs).
  { destruct x; simpl in Ht;
      destruct (trie_focus _ _ _ _ _ _ _ Ht)
        as (nd & Hl & _ & N2 & N3 & _ & _ & Hb & _);
      exists nd; (split_and!; [done..|]); destruct nd; simpl in *; by subst. }
  rewrite (link_child_Ok _ l nd prefix n (length c)) by done. fold x.
  rewrite Hs, insert_id by done. by destruct st.
Qed.

Lemma node_new_loop_ok fuel prefix n : forall st c l o p a b,
  trie st (plug c (T l o p a b)) -> PREFIX_SIZE n <= length prefix ->
  length c < n -> n - length c <= fuel ->
  cpath c = take (length c) (bits_of prefix n) ->
  (if bit_at prefix (length c) then b else a) = E ->
  exists r st' t', node_new_loop fuel l prefix n st = Ok (r, st') /\
    same_env st st' /\ trie st' t' /\
    (forall k, tget t' k = tget (plug c (T l o p a b)) k) /\
    match r with
    | Some nl => exists d, t' = plug d (leaf nl) /\ cpath d = bits_of prefix n
    | None => ~ allocs_good st
    end.
Proof.
  induction fuel as [|fuel IH]; intros st c l o p a b Ht Hlen Hk Hf Hp HE;
    [lia|].
  destruct (trie_focus _ _ _ _ _ _ _ Ht) as (nd & Hl & _ & _ & _ & _ & _ & Hb & _).
  destruct (create_node_ok st c l o p a b prefix n)
    as ([nl|] & st1 & Hcr & Henv & Ht1); try done; simpl;
    rewrite (bind_Ok _ _ _ _ _ (load_Ok _ _ _ Hl)), Hb, (bind_Ok _ _ _ _ _ Hcr).
  2: { exists None, st1, (plug c (T l o p a b)). naive_solver. }
  set (x := bit_at prefix (length c)) in *.
  set (f := Frame x l o p (if x then a else b)).
  assert (plug c (add_child x (T l o p a b) nl) = plug (f :: c) (leaf nl)) as Hz.
  { simpl. unfold fill; simpl. by destruct x. }
  rewrite (bind_Ok _ _ _ _ _ (relink_Ok _ _ _ _ _ _ _ _ _ _ Ht1 Hlen Hk)).
  assert (forall k, tget (plug (f :: c) (leaf nl)) k =
                    tget (plug c (T l o p a b)) k) as Hget.
  { intros k. rewrite <-Hz. apply tget_plug_ext. intros k'.
    by apply tget_add_child. }
  assert (cpath (f :: c) = take (S (length c)) (bits_of prefix n)) as Hp'.
  { simpl. by rewrite Hp, <-take_S_bits_of. }
  rewrite Hz in Ht1. destruct (Nat.eqb_spec (length c + 1) n) as [He|Hn].
  - exists (Some nl), st1, (plug (f :: c) (leaf nl)). split_and!; try done.
    exists (f :: c). split; [done|]. rewrite Hp', take_ge; [done|].
    rewrite length_bits_of. lia.
  - destruct (IH st1 (f :: c) nl None None E E)
      as (r & st2 & t2 & Hrun & Henv2 & Ht2 & Hg2 & Hr); simpl length;
      try done; try lia.
    { by destruct (bit_at prefix (S (length c))). }
    exists r, st2, t2. split_and!; try done.
    + by eapply same_env_trans.
    + intros k. by rewrite Hg2, Hget.
    + destruct r; [done|]. intros Hgood. apply Hr. by apply Henv.
Qed.

Lemma node_new_ok st c l o p a b prefix n :
  trie st (plug c (T l o p a b)) -> PREFIX_SIZE n <= length prefix ->
  length c < n -> cpath c = take (length c) (bits_of prefix n) ->
  (if bit_at prefix (length c) then b else a) = E ->
  exists r st' t', bst_node_new l prefix n st = Ok (r, st') /\
    same_env st st' /\ trie st' t' /\
    (forall k, tget t' k = tget (plug c (T l o p a b)) k) /\
    match r with
    | Some nl => exists d, t' = plug d (leaf nl) /\ cpath d = bits_of prefix n
    | None => ~ allocs_good st
    end.
Proof. intros. apply node_new_loop_ok; auto with lia. Qed.

(** ** Activating a node *)
Lemma keyed_with_data path o p nd : keyed path nd -> keyed path (with_data o p nd).
Proof. done. Qed.

(** Changing the data of the focused node. *)
Lemma rep_with_data K h c l o p a b o' p' nd :
  (forall path o p nd, K path nd -> K path (with_data o p nd)) ->
  rep K h (plug c (T l o p a b)) -> NoDup (locs (plug c (T l o p a b))) ->
  h !! l = Some nd ->
  rep K (<[l := with_data o' p' nd]> h) (plug c (T l o' p' a b)).
Proof.
  intros HK Hrep (Ht & _ & Hdisj)%NoDup_plug Hl. simpl in *.
  rewrite NoDup_cons, NoDup_app in Ht.
  pose proof (rep_focus _ _ _ _ _ _ _ _ Hrep)
    as (nd' & Hl2 & N1 & N2 & N3 & N4 & N5 & N6).
  rewrite Hl in Hl2. injection Hl2 as <-.
  pose proof Hrep as (_ & _ & Sa & Sb)%rep_plug.
  apply (rep_replace _ h _ c (T l o p a b)); [done|..|done|].
  - intros y Hy. apply lookup_insert_ne. set_solver.
  - split; [|split].
    + exists (with_data o' p' nd). simpl. rewrite lookup_insert_eq. auto 10.
    + eapply shape_agree; [done|]. intros y Hy. apply lookup_insert_ne.
      set_solver.
    + eapply shape_agree; [done|]. intros y Hy. apply lookup_insert_ne.
      set_solver.
Qed.

Lemma trie_with_data st c l o p a b o' p' nd :
  trie st (plug c (T l o p a b)) -> heap st !! l = Some nd ->
  is_set o' = is_set p' ->
  trie (set_heap (<[l := with_data o' p' nd]> (heap st)) st)
       (plug c (T l o' p' a b)).
Proof.
  intros [R1 R2 R3 R4 R5] Hl Hop. split; cbn [heap root next_loc set_heap].
  - eapply rep_with_data; eauto using keyed_with_data.
  - rewrite R2. by apply root_plug.
  - rewrite locs_plug in *. done.
  - intros y. rewrite lookup_insert_is_Some. intros [<-|[_ Hy]]; [|auto].
    apply R4. eauto.
  - eapply tree_ok_plug; [exact R5|]. simpl. tauto.
Qed.

(** The abstract map when only the data of the focus differs. *)
Lemma tget_plug_focus c l o p a b o' p' k :
  tget (plug c (T l o' p' a b)) k =
  if decide (k = cpath c) then pair l <$> p' else tget (plug c (T l o p a b)) k.
Proof.
  enough (forall t t' j, (forall k, tget t' k = if decide (k = j)
            then pair l <$> p' else tget t k) -> tget (plug c t') k =
            if decide (k = cpath c ++ j) then pair l <$> p'
            else tget (plug c t) k) as H.
  { rewrite (H (T l o p a b) (T l o' p' a b) []), app_nil_r; [done|].
    intros [|x k']; [by rewrite decide_True|by rewrite decide_False]. }
  induction c as [|f c IH]; intros t t' j H; simpl; [auto|].
  rewrite (IH (fill f t) (fill f t') (f_dir f :: j)).
  { rewrite <-app_assoc. done. }
  intros k'. unfold fill.
  destruct (f_dir f), k' as [|[] k']; simpl; rewrite ?H;
    repeat case_decide; simplify_eq; done.
Qed.

Lemma tree_ok_focus c t : tree_ok (plug c t) -> tree_ok t.
Proof.
  revert t. induction c as [|f c IH]; intros t; simpl; [done|].
  intros H%IH. unfold fill in H. destruct (f_dir f); simpl in H; tauto.
Qed.

Lemma tget_focus c l o p a b : 
  tget (plug c (T l o p a b)) (cpath c) = pair l <$> p.
Proof.
  rewrite (tget_plug_focus c l o p a b o p). by rewrite decide_True.
Qed.

(** The client's [init] callback succeeds without touching its state. *)
Definition init_trivial (ops : Ops) (v : Priv) : Prop :=
  forall st, call_init (Some ops) (Some v) st = Ok (0%Z, st).

Lemma node_init_ok st c l o p a b ops v :
  trie st (plug c (T l o p a b)) -> init_trivial ops v ->
  exists ret st', bst_node_init l (Some ops) (Some v) st = Ok (ret, st') /\
    same_env st st' /\
    match p with
    | None => ret = 0%Z /\ trie st' (plug c (T l (Some ops) (Some v) a b))
    | Some _ => ret = (-1)%Z /\ st' = st
    end.
Proof.
  intros Ht Hinit.
  destruct (trie_focus _ _ _ _ _ _ _ Ht) as (nd & Hl & _ & _ & _ & N4 & N5 & _).
  pose proof (tree_ok_focus _ _ (trie_ok _ _ Ht)) as (Hop & _).
  unfold bst_node_init. rewrite (bind_Ok _ _ _ _ _ (load_Ok _ _ _ Hl)), N4, N5.
  destruct p as [w|]; simpl.
  { exists (-1)%Z, st. by destruct o. }
  destruct o; [done|]. simpl.
  rewrite (bind_Ok _ _ _ _ _ (store_Ok _ _ _ _ Hl)).
  rewrite (bind_Ok _ _ _ _ _ (Hinit _)). simpl. eexists _, _. split; [done|].
  split; [done|]. split; [done|]. by eapply trie_with_data.
Qed.

(** The abstract state of a trie. *)
Definition refines (st : bst) (m : gmap (list bool) entry) : Prop :=
  exists t, trie st t /\ tmap t = m /\ entries st = Z.of_nat (size m).

(** Activating the inactive node of the key. *)
Lemma activate_ok st c l a b ops v m :
  trie st (plug c (T l None None a b)) -> init_trivial ops v ->
  (forall k, tget (plug c (T l None None a b)) k = m !! k) ->
  exists st', bst_node_init l (Some ops) (Some v) st = Ok (0%Z, st') /\
    same_env st st' /\ m !! cpath c = None /\
    exists t, trie st' t /\ tmap t = <[cpath c := (l, v)]> m.
Proof.
  intros Ht Hinit Hm.
  destruct (node_init_ok _ _ _ _ _ _ _ ops v Ht Hinit)
    as (ret & st' & Hrun & Henv & -> & Ht').
  exists st'. split_and!; try done.
  - by rewrite <-Hm, tget_focus.
  - eexists; split; [done|]. apply map_eq. intros k.
    rewrite tmap_lookup, (tget_plug_focus c l None None), Hm.
    rewrite lookup_insert. repeat case_decide; (done || congruence).
Qed.

(** The outcome of an insertion of [v] under [key] into the map [m]. *)
Definition insert_outcome (m : gmap (list bool) entry) (key : list bool)
    (v : Priv) (st : bst) (r : option loc) (st' : bst) : Prop :=
  match r with
  | Some l => m !! key = None /\
      exists t, trie st' t /\ tmap t = <[key := (l, v)]> m
  | None => (is_Some (m !! key) \/ ~ allocs_good st) /\
      exists t, trie st' t /\ tmap t = m
  end.

(** The node of the key exists: it is activated, or already active. *)
Lemma insert_existing st c l o p a b ops v m :
  trie st (plug c (T l o p a b)) -> init_trivial ops v ->
  (forall k, tget (plug c (T l o p a b)) k = m !! k) ->
  exists r st',
    (ret ← bst_node_init l (Some ops) (Some v);
     mret (if (ret =? -1)%Z then None else Some l)) st = Ok (r, st') /\
    same_env st st' /\ insert_outcome m (cpath c) v st r st'.
Proof.
  intros Ht Hinit Hm. destruct p as [w|].
  - destruct (node_init_ok _ _ _ _ _ _ _ ops v Ht Hinit)
      as (ret & st' & Hrun & Henv & -> & ->).
    rewrite (bind_Ok _ _ _ _ _ Hrun). exists None, st. split; [done|].
    split; [done|]. split.
    + left. rewrite <-Hm, tget_focus. simpl. eauto.
    + eexists; split; [done|]. apply map_eq. intros k. by rewrite tmap_lookup.
  - pose proof (tree_ok_focus _ _ (trie_ok _ _ Ht)) as (Hop & _).
    destruct o; [done|].
    destruct (activate_ok _ _ _ _ _ ops v m Ht Hinit Hm)
      as (st' & Hrun & Henv & Hnone & Ht').
    rewrite (bind_Ok _ _ _ _ _ Hrun). by exists (Some l), st'.
Qed.

(** Where an insertion starts: the deepest node on the path of the key. *)
Lemma find_focus st t prefix n :
  trie st t -> t <> E -> PREFIX_SIZE n <= length prefix ->
  exists c l o p a b prev,
    bst_node_find_longest_prefix (root st) None prefix n None st
      = Ok ((Some l, prev), st) /\
    t = plug c (T l o p a b) /\
    cpath c = take (length c) (bits_of prefix n) /\
    (length c = n \/ length c < n /\
       (if bit_at prefix (length c) then b else a) = E).
Proof.
  intros Ht Hne Hlen. rewrite (trie_root _ _ Ht).
  destruct t as [|l o p a b]; [done|]. simpl.
  destruct (find_loop_ok st None (fun _ => true) prefix n Hlen
              n 0 l l o p a b None)
    as (n' & prev' & Hs & Hf); [lia..|done|apply (trie_rep _ _ Ht)|].
  rewrite (bind_Ok _ _ _ _ _ Hf).
  destruct (tsearch_stop _ _ _ _ _ _ _ _ _ _ Hs)
    as (c & o' & p' & a' & b' & Hplug & Hpath & Hc & _ & Hend).
  rewrite drop_0, length_bits_of in *.
  exists c, n', o', p', a', b', prev'. split_and!; try done.
  destruct Hend as [|(x & rest & Hd & HE)]; [by left|].
  destruct (decide (length c = n)); [by left|right].
  rewrite drop_bits_of in Hd by lia. injection Hd as <- _. auto with lia.
Qed.

Lemma insert_outcome_weaken m key v st st1 r st' :
  same_env st st1 -> insert_outcome m key v st1 r st' ->
  insert_outcome m key v st r st'.
Proof.
  intros (_ & _ & Hg). destruct r; simpl; [done|]. naive_solver.
Qed.

Lemma node_insert_ok st t ops v prefix n :
  trie st t -> t <> E -> init_trivial ops v -> PREFIX_SIZE n <= length prefix ->
  exists r st',
    bst_node_insert_prefix (root st) (Some ops) (Some v) prefix n st
      = Ok (r, st') /\
    same_env st st' /\
    insert_outcome (tmap t) (bits_of prefix n) v st r st'.
Proof.
  intros Ht Hne Hinit Hlen. unfold bst_node_insert_prefix.
  destruct (find_focus st t prefix n Ht Hne Hlen)
    as (c & l & o & p & a & b & prev & Hf & -> & Hpath & Hend).
  rewrite (bind_Ok _ _ _ _ _ Hf). simpl. rewrite bind_ret.
  destruct (trie_focus _ _ _ _ _ _ _ Ht) as (nd & Hl & _ & _ & _ & _ & _ & Hb & _).
  rewrite (bind_Ok _ _ _ _ _ (load_Ok _ _ _ Hl)), Hb.
  destruct Hend as [Hn|[Hlt HE]].
  - rewrite (proj2 (Nat.ltb_ge _ _)), bind_ret by lia.
    assert (cpath c = bits_of prefix n) as <-
      by (rewrite Hpath; apply take_ge; rewrite length_bits_of; lia).
    apply (insert_existing st c l o p a b); try done.
    intros k. by rewrite tmap_lookup.
  - rewrite (proj2 (Nat.ltb_lt _ _)) by lia.
    destruct (node_new_ok st c l o p a b prefix n)
      as ([nl|] & st1 & t1 & Hrun & Henv & Ht' & Hg & Hr); try done;
      rewrite (bind_Ok _ _ _ _ _ Hrun).
    + destruct Hr as (d & -> & <-).
      destruct (insert_existing st1 d nl None None E E ops v
                  (tmap (plug c (T l o p a b))))
        as (r & st2 & Hrun2 & Henv2 & Hout);
        [done..|intros k; by rewrite Hg, tmap_lookup|].
      exists r, st2. split; [done|].
      eauto using same_env_trans, insert_outcome_weaken.
    + exists None, st1. split; [done|]. split; [done|]. split; [by right|].
      exists t1. split; [done|]. apply map_eq. intros k.
      by rewrite !tmap_lookup, Hg.
Qed.

(** ** The root and the counter *)
Lemma new_root_ok st :
  fresh_above (heap st) (next_loc st) ->
  exists ok st', new_root st = Ok (ok, st') /\ same_env st st' /\
    if ok : bool then trie st' (leaf (next_loc st))
    else trie st' E /\ ~ allocs_good st.
Proof.
  intros Hf.
  assert (forall al, trie (Bst _
            (<[next_loc st := BstNode _ (next_loc st) None None None None 0 0 []]>
               (heap st)) (Some (next_loc st)) (entries st)
            (Pos.succ (next_loc st)) al (env st)) (leaf (next_loc st))) as Hroot.
  { intros al. split; simpl.
    - split; [|done]. eexists. rewrite lookup_insert_eq. split_and!; try done.
      split_and!; try done. intros i; simpl; lia.
    - done.
    - apply NoDup_singleton.
    - intros y. simpl. rewrite lookup_insert_is_Some. intros [<-|[_ Hy]]; [lia|].
      apply Hf in Hy. lia.
    - done. }
  unfold new_root, alloc_ok. destruct (allocs st) as [|[] al] eqn:Hal.
  - eexists _, _. split; [done|]. split; [|apply Hroot]. by split_and!.
  - eexists _, _. split; [done|]. split; [|apply Hroot].
    split_and!; try done. unfold allocs_good. rewrite Hal.
    apply Forall_inv_tail.
  - eexists _, _. split; [done|]. unfold same_env, allocs_good. rewrite Hal.
    split_and!; simpl; try done; [apply Forall_inv_tail|..].
    + split; try done. apply NoDup_nil_2.
    + intros [? _]%Forall_cons. done.
Qed.

(** Insertion into the trie is insertion into the abstract map; a failure (a
    key already in use, or no memory) leaves the map as it is. *)
Lemma insert_refines st m ops v prefix n :
  refines st m -> init_trivial ops v -> PREFIX_SIZE n <= length prefix ->
  (Z.of_nat (size m) + 1 < 2 ^ 32)%Z ->
  exists r st',
    bst_insert_prefix (Some ops) (Some v) prefix n st = Ok (r, st') /\
    (env st' = env st /\ (allocs_good st -> allocs_good st')) /\
    match r with
    | Some l => m !! bits_of prefix n = None /\
        refines st' (<[bits_of prefix n := (l, v)]> m)
    | None => (is_Some (m !! bits_of prefix n) \/ ~ allocs_good st) /\
        refines st' m
    end.
Proof.
  intros (t & Ht & Hm & He) Hinit Hlen Hsize. unfold bst_insert_prefix.
  rewrite (bind_Ok _ _ st st st) by done.
  assert (exists ok st1 t1, (if (entries st =? 0)%Z then new_root else mret true)
             st = Ok (ok, st1) /\ same_env st st1 /\ trie st1 t1 /\
             tmap t1 = m /\ if ok : bool then t1 <> E else ~ allocs_good st)
    as (ok & st1 & t1 & Hrun & Henv & Ht1 & Hm1 & Hok).
  { destruct (Z.eqb_spec (entries st) 0) as [H0|H0].
    - assert (m = ∅) as -> by (apply map_size_empty_inv; lia).
      destruct (new_root_ok st (trie_fresh _ _ Ht)) as ([] & st1 & ? & ? & Hr).
      + exists true, st1, (leaf (next_loc st)). by split_and!.
      + exists false, st1, E. naive_solver.
    - exists true, st, t. split_and!; try done. intros ->. simpl in Hm.
      subst m. by rewrite map_size_empty in He. }
  destruct Henv as (Henv & Hent & Hg).
  rewrite (bind_Ok _ _ _ _ _ Hrun). destruct ok.
  2: { exists None, st1. split_and!; try done; [by right|].
       exists t1. split_and!; congruence || done. }
  rewrite (bind_Ok _ _ _ (root st1) st1) by done.
  destruct (node_insert_ok st1 t1 ops v prefix n)
    as (r & st2 & Hrun2 & (Henv2 & Hent2 & Hg2) & Hout); try done.
  rewrite (bind_Ok _ _ _ _ _ Hrun2), Hm1 in *. destruct r as [l|]; simpl in Hout.
  - destruct Hout as (Hnone & (t' & [R1 R2 R3 R4 R5] & Hm')).
    eexists _, _. split; [done|]. split_and!; [simpl; congruence|unfold allocs_good in *; simpl; tauto|done|].
    exists t'. split; [by split|]. split; [done|].
    cbn [entries set_entries]. rewrite Hent2, Hent, He, map_size_insert_None by done.
    unfold u32. rewrite Z.mod_small; lia.
  - destruct Hout as ([?|?] & t' & Ht' & Hm'); exists None, st2;
      (split_and!; [done|congruence|tauto| |exists t'; split_and!; try done; congruence]);
      [by left|right; tauto].
Qed.
End insert.
