(* ===== verification/BstRemove.v ===== *)
(** * Removal from the trie

    [bst_node_orphan], [bst_node_free] and the upward pruning of
    [bst_node_release] against deletion from the abstract map. *)
From S2P Require Import Prelude Bst BstRep BstFind BstInsert.
Local Open Scope nat_scope.

Section remove.
Context `{BC : BstClient}.

(** The effect of the [destroy] callback when a node is orphaned. *)
Definition destroy_env (o : option Ops) (p : option Priv) (e : Env)
  : outcome Env :=
  match p with
  | None => Ok e
  | Some v => match o ≫= op_destroy with Some d => d v e | None => Ok e end
  end.

Lemma call_destroy_Ok st o v e :
  destroy_env o (Some v) (env st) = Ok e ->
  call_destroy o v st = Ok (tt, set_env e st).
Proof.
  unfold destroy_env, call_destroy. destruct (o ≫= op_destroy); intros He.
  - by rewrite He.
  - injection He as <-. by destruct st.
Qed.

Definition after_orphan (st : bst) (l : loc) (nd : bst_node) (p : option Priv)
    (e : Env) : bst :=
  match p with
  | None => st
  | Some _ => Bst _ (<[l := with_data None None nd]> (heap st)) (root st)
      (u32 (entries st - 1)) (next_loc st) (allocs st) e
  end.

Lemma orphan_run st l nd e :
  heap st !! l = Some nd ->
  destroy_env (n_ops nd) (n_private nd) (env st) = Ok e ->
  bst_node_orphan l st = Ok (tt, after_orphan st l nd (n_private nd) e).
Proof.
  intros Hl He. unfold bst_node_orphan.
  rewrite (bind_Ok _ _ _ _ _ (load_Ok _ _ _ Hl)).
  destruct (n_private nd) as [v|] eqn:Hp; [|done].
  set (st1 := set_entries (u32 (entries st - 1)) st).
  rewrite (bind_Ok _ _ _ tt st1) by done.
  rewrite (bind_Ok _ _ _ _ _ (call_destroy_Ok st1 _ _ _ He)).
  rewrite (bind_Ok _ _ _ nd (set_env e st1)) by (by apply load_Ok).
  by rewrite (store_Ok _ _ nd).
Qed.

(** What removal never changes. *)
Definition same_rest (st st' : bst) : Prop :=
  next_loc st' = next_loc st /\ allocs st' = allocs st.

(** ** Generic in what nodes satisfy besides their pointers *)
Section with_K.
Variable K : list bool -> bst_node -> Prop.
Hypothesis K_data :
  forall path o p nd, K path nd -> K path (with_data o p nd).
Hypothesis K_child :
  forall path x c nd, K path nd -> K path (set_child x c nd).

Lemma orphan_rep st c l o p a b e :
  rep K (heap st) (plug c (T l o p a b)) ->
  NoDup (locs (plug c (T l o p a b))) -> is_set o = is_set p ->
  destroy_env o p (env st) = Ok e ->
  exists nd, heap st !! l = Some nd /\ n_private nd = p /\
    bst_node_orphan l st = Ok (tt, after_orphan st l nd p e) /\
    rep K (heap (after_orphan st l nd p e)) (plug c (T l None None a b)).
Proof.
  clear K_child.
  intros Hrep Hnd Hop He.
  destruct (rep_focus _ _ _ _ _ _ _ _ Hrep)
    as (nd & Hl & _ & _ & _ & Ho & Hp & _).
  exists nd. split_and!; try done.
  - rewrite <-Hp, <-Ho in He. by rewrite (orphan_run st l nd e), Hp.
  - destruct p as [v|]; simpl.
    + by eapply rep_with_data.
    + by destruct o.
Qed.

(** The heap after freeing a leaf [l] below [f]. *)
Definition cut (h : gmap loc bst_node) (f : frame) (l : loc) (pn : bst_node)
  : gmap loc bst_node :=
  delete l (<[f_loc f := set_child (f_dir f) None pn]> h).

Lemma free_run st f c l o p :
  rep K (heap st) (plug (f :: c) (T l o p E E)) ->
  NoDup (locs (plug (f :: c) (T l o p E E))) ->
  exists pn, heap st !! f_loc f = Some pn /\ f_loc f <> l /\
    bst_node_free l st = Ok (tt, set_heap (cut (heap st) f l pn) st).
Proof.
  clear K_data K_child.
  intros Hrep (_ & _ & Hdisj)%NoDup_plug. simpl in Hdisj.
  destruct (rep_focus _ _ _ _ _ _ _ _ Hrep) as (nd & Hl & Hpar & _).
  pose proof Hrep as (((pn & Hf & _ & _ & N3 & _) & _ & _) & _)%rep_plug.
  simpl in Hpar. assert (f_loc f <> l) as Hne by set_solver.
  exists pn. split; [done|]. split; [done|]. unfold bst_node_free.
  rewrite (bind_Ok _ _ _ _ _ (load_Ok _ _ _ Hl)), Hpar.
  rewrite decide_False by done.
  rewrite (bind_Ok _ _ _ tt
             (set_heap (<[f_loc f := set_child (f_dir f) None pn]> (heap st)) st)).
  { unfold kfree, cut. simpl. by rewrite lookup_insert_ne, Hl. }
  rewrite (bind_Ok _ _ _ _ _ (load_Ok _ _ _ Hf)), N3. unfold set_child.
  destruct (f_dir f); simpl.
  - rewrite decide_True by done. by apply (store_Ok _ _ pn).
  - rewrite decide_False; [by apply (store_Ok _ _ pn)|].
    intros Hr%root_of_locs. set_solver.
Qed.

Lemma cut_rep h f c l o p pn :
  rep K h (plug (f :: c) (T l o p E E)) ->
  NoDup (locs (plug (f :: c) (T l o p E E))) -> h !! f_loc f = Some pn ->
  rep K (cut h f l pn) (plug (f :: c) E).
Proof.
  clear K_data.
  intros Hrep (_ & Hc & Hdisj)%NoDup_plug Hpn.
  simpl in Hc, Hdisj. rewrite NoDup_cons, NoDup_app in Hc.
  pose proof Hrep as (((pn' & Hf & N1 & N2 & N3 & N4 & N5 & N6) & Hs & _)
    & _)%rep_plug.
  rewrite Hpn in Hf. injection Hf as <-.
  assert (forall y, y <> l -> y <> f_loc f -> cut h f l pn !! y = h !! y) as Hag.
  { intros y ? ?. unfold cut. by rewrite lookup_delete_ne, lookup_insert_ne. }
  simpl. eapply (rep_replace _ h _ c); [exact Hrep|..].
  - intros y Hy. apply Hag; set_solver.
  - by rewrite !root_of_fill.
  - unfold troot. rewrite root_of_fill. simpl.
    assert (node_at K (cut h f l pn) (f_loc f) (cpar c (f_loc f))
              (if f_dir f then root_of (f_sib f) else None)
              (if f_dir f then None else root_of (f_sib f))
              (f_ops f) (f_priv f) (cpath c)) as Hn.
    { exists (set_child (f_dir f) None pn). unfold cut.
      rewrite lookup_delete_ne, lookup_insert_eq by set_solver.
      pose proof (K_child _ (f_dir f) None _ N6).
      destruct (f_dir f); simpl in *; auto 10. }
    assert (shape K (cut h f l pn) (f_loc f)
              (cpath c ++ [negb (f_dir f)]) (f_sib f)) as Hs'.
    { eapply shape_agree; [exact Hs|]. intros y Hy. apply Hag; set_solver. }
    unfold fill. destruct (f_dir f); simpl in *; auto.
Qed.

(** ** On tries *)
Lemma trieK_orphan st c l o p a b e :
  trieK K st (plug c (T l o p a b)) -> destroy_env o p (env st) = Ok e ->
  exists st', bst_node_orphan l st = Ok (tt, st') /\
    trieK K st' (plug c (T l None None a b)) /\ env st' = e /\
    same_rest st st' /\ dom (heap st') = dom (heap st) /\
    entries st' = (if is_set p then u32 (entries st - 1) else entries st).
Proof.
  intros [R1 R2 R3 R4 R5] He.
  pose proof (tree_ok_focus _ _ R5) as (Hop & _).
  destruct (orphan_rep st c l o p a b e)
    as (nd & Hl & Hp & Hrun & Hrep'); try done.
  eexists. split; [exact Hrun|].
  destruct p as [v|]; simpl in *; [|by destruct o; simplify_eq].
  split_and!; try done; [|apply dom_insert_lookup_L; eauto]. split; simpl; try done.
  - rewrite R2. by apply root_plug.
  - by rewrite locs_plug in *.
  - intros y. rewrite lookup_insert_is_Some. intros [<-|[_ Hy]]; [|auto].
    apply R4. eauto.
  - eapply tree_ok_plug; [exact R5|]. simpl. tauto.
Qed.

Lemma trieK_free st f c l o p :
  trieK K st (plug (f :: c) (T l o p E E)) ->
  exists st', bst_node_free l st = Ok (tt, st') /\ trieK K st' (plug (f :: c) E) /\
    env st' = env st /\ entries st' = entries st /\ same_rest st st' /\
    dom (heap st') = dom (heap st) ∖ {[l]}.
Proof.
  intros [R1 R2 R3 R4 R5].
  destruct (free_run st f c l o p R1 R3) as (pn & Hf & Hne & Hrun).
  pose proof (cut_rep _ _ _ _ _ _ _ R1 R3 Hf) as Hrep.
  eexists. split; [exact Hrun|]. split.
  - split; cbn [heap root next_loc set_heap]; try done.
    + rewrite R2. simpl. apply root_plug. by rewrite !root_of_fill.
    + rewrite locs_plug in *. by apply NoDup_app in R3 as (_ & _ & ?).
    + intros y. unfold cut. rewrite lookup_delete_is_Some, lookup_insert_is_Some.
      intros [_ [<-|[_ Hy]]]; apply R4; eauto.
    + eapply tree_ok_plug; [exact R5|done].
  - split_and!; try done. unfold cut. simpl.
    rewrite dom_delete_L, dom_insert_lookup_L by eauto. done.
Qed.
End with_K.

Lemma trie_orphan st c l o p a b e :
  trie st (plug c (T l o p a b)) -> destroy_env o p (env st) = Ok e ->
  exists st', bst_node_orphan l st = Ok (tt, st') /\
    trie st' (plug c (T l None None a b)) /\ env st' = e /\
    same_rest st st' /\ dom (heap st') = dom (heap st) /\
    entries st' = (if is_set p then u32 (entries st - 1) else entries st).
Proof. by apply trieK_orphan. Qed.

Lemma trie_free st f c l o p :
  trie st (plug (f :: c) (T l o p E E)) ->
  exists st', bst_node_free l st = Ok (tt, st') /\ trie st' (plug (f :: c) E) /\
    env st' = env st /\ entries st' = entries st /\ same_rest st st' /\
    dom (heap st') = dom (heap st) ∖ {[l]}.
Proof. apply trieK_free; eauto using keyed_with_data, keyed_set_child. Qed.

(** The tree left by the upward loop: childless inactive ancestors go, up to
    the first that is active, has another child, or is the root. *)
Fixpoint prune (c : list frame) : tree :=
  match c with
  | [] => E
  | f :: c' =>
      match c' with
      | [] => plug c E
      | _ :: _ =>
          if is_set (f_priv f) || is_set (root_of (f_sib f)) then plug c E
          else prune c'
      end
  end.

Lemma release_loop_ok fuel : forall f c st,
  trie st (plug (f :: c) E) -> length c <= fuel ->
  exists st', release_loop fuel (f_loc f) st = Ok (tt, st') /\
    trie st' (prune (f :: c)) /\ env st' = env st /\ entries st' = entries st /\
    same_rest st st'.
Proof.
  induction fuel as [|fuel IH]; intros f c st Ht Hfuel;
    pose proof (trie_rep _ _ Ht) as Hrep;
    pose proof Hrep as (((nd & Hl & N1 & N2 & N3 & _ & N5 & _) & _ & _) & _)%rep_plug;
    simpl in N1, N2, N3; simpl release_loop;
    rewrite (bind_Ok _ _ _ _ _ (load_Ok _ _ _ Hl)), N1, N2, N3, N5.
  - destruct c; [|simpl in Hfuel; lia]. exists st. split; [|done].
    simpl. rewrite bool_decide_true, orb_true_r by done. done.
  - destruct c as [|f' c].
    { exists st. split; [|done]. simpl.
      rewrite bool_decide_true, orb_true_r by done. done. }
    assert (f_loc f <> f_loc f') as Hne.
    { pose proof (trie_nodup _ _ Ht) as (_ & Hc & _)%NoDup_plug.
      simpl in Hc. rewrite NoDup_cons, NoDup_app, NoDup_cons in Hc. set_solver. }
    cbn [cpar]. rewrite bool_decide_false, orb_false_r by done.
    destruct (is_set (f_priv f)) eqn:Hp; simpl.
    { exists st. by rewrite Hp. }
    assert (is_set (if f_dir f then root_of (f_sib f) else None)
              || is_set (if f_dir f then None else root_of (f_sib f))
            = is_set (root_of (f_sib f))) as Hc
      by (by destruct (f_dir f), (f_sib f)).
    rewrite Hc. destruct (f_sib f) as [|l' o' p' a' b'] eqn:Hsib; simpl.
    2: { exists st. by rewrite Hp, orb_true_r. }
    assert (plug (f :: f' :: c) E
            = plug (f' :: c) (T (f_loc f) (f_ops f) (f_priv f) E E)) as Hfill
      by (simpl; unfold fill at 2; rewrite Hsib; by destruct (f_dir f)).
    rewrite Hfill in Ht.
    destruct (trie_free _ _ _ _ _ _ Ht) as (st1 & Hrun & Ht1 & ? & ? & [] & _).
    rewrite (bind_Ok _ _ _ _ _ Hrun).
    destruct (IH f' c st1) as (st2 & Hrun2 & ? & ? & ? & []);
      [done|simpl in Hfuel; lia|].
    exists st2. rewrite Hp. split; [done|]. unfold same_rest.
    split_and!; congruence || done.
Qed.

(** ** Release and removal against deletion *)
Lemma prune_get f c k : tget (prune (f :: c)) k = tget (plug (f :: c) E) k.
Proof.
  revert f. induction c as [|f' c IH]; intros f; [done|]. simpl.
  destruct (is_set (f_priv f)) eqn:Hp; [done|].
  destruct (f_sib f) eqn:Hs; [|done]. simpl orb. cbv iota.
  change (tget (prune (f' :: c)) k = tget (plug (f' :: c) (fill f E)) k).
  rewrite IH. apply (tget_plug_ext (f' :: c) E). intros [|[] k']; unfold fill;
    rewrite Hs; destruct (f_dir f), (f_priv f); done.
Qed.

Lemma tget_plug_clear c l o p a b k :
  tget (plug c (T l None None a b)) k =
  delete (cpath c) (tmap (plug c (T l o p a b))) !! k.
Proof.
  rewrite (tget_plug_focus c l o p), lookup_delete, tmap_lookup.
  by repeat case_decide.
Qed.

Lemma tmap_of t m : (forall k, tget t k = m !! k) -> tmap t = m.
Proof. intros H. apply map_eq. intros k. by rewrite tmap_lookup. Qed.

(** Dropping an inactive leaf does not change the map. *)
Lemma tget_drop_leaf c l k : tget (plug c (T l None None E E)) k = tget (plug c E) k.
Proof. apply tget_plug_ext. by intros [|[] k']. Qed.

Lemma orphan_refines st m c l o v a b e :
  trie st (plug c (T l o (Some v) a b)) -> tmap (plug c (T l o (Some v) a b)) = m ->
  entries st = Z.of_nat (size m) -> (Z.of_nat (size m) < 2 ^ 32)%Z ->
  destroy_env o (Some v) (env st) = Ok e ->
  exists st', bst_node_orphan l st = Ok (tt, st') /\ env st' = e /\
    trie st' (plug c (T l None None a b)) /\
    tmap (plug c (T l None None a b)) = delete (cpath c) m /\
    entries st' = Z.of_nat (size (delete (cpath c) m)) /\ same_rest st st'.
Proof.
  intros Ht Hm He Hsz Hd.
  destruct (trie_orphan _ _ _ _ _ _ _ _ Ht Hd) as (st' & Hrun & Ht' & ? & ? & _ & He').
  exists st'. split_and!; try done.
  - apply tmap_of. intros k. rewrite (tget_plug_clear c l o (Some v)). by subst m.
  - assert (is_Some (m !! cpath c)) as Hin
      by (rewrite <-Hm, tmap_lookup, tget_focus; simpl; eauto).
    rewrite He', He, map_size_delete_Some by done. simpl.
    assert (size m <> 0).
    { intros ->%map_size_empty_iff. by destruct Hin. }
    unfold u32. rewrite Z.mod_small; lia.
Qed.

(** [bst_node_release] on an active node that is not a childless root deletes
    its entry, runs its [destroy] callback once, and prunes the nodes that no
    longer lead to anything. *)
Lemma release_ok st m c l o v a b e :
  trie st (plug c (T l o (Some v) a b)) -> tmap (plug c (T l o (Some v) a b)) = m ->
  entries st = Z.of_nat (size m) -> (Z.of_nat (size m) < 2 ^ 32)%Z ->
  destroy_env o (Some v) (env st) = Ok e ->
  (c <> [] \/ a <> E \/ b <> E) ->
  exists st', bst_node_release l st = Ok (tt, st') /\ env st' = e /\
    refines st' (delete (cpath c) m) /\ same_rest st st'.
Proof.
  intros Ht Hm He Hsz Hd Hside.
  destruct (orphan_refines st m c l o v a b e) as
    (st1 & Hrun & Henv & Ht1 & Hm1 & He1 & [Hs1 Hs2]); try done.
  unfold bst_node_release. rewrite (bind_Ok _ _ _ _ _ Hrun).
  destruct (trie_focus _ _ _ _ _ _ _ Ht1)
    as (nd & Hl & Npar & Na & Nb & _ & _ & Hbits & _).
  rewrite (bind_Ok _ _ _ _ _ (load_Ok _ _ _ Hl)), Na, Nb, Npar, Hbits.
  destruct (is_set (root_of a) || is_set (root_of b)) eqn:Hch.
  { exists st1. split_and!; try done. by eexists. }
  apply orb_false_iff in Hch as [Ha Hb].
  destruct a; [|done]. destruct b; [|done]. clear Ha Hb.
  destruct c as [|f c]; [naive_solver|].
  destruct (trie_free _ _ _ _ _ _ Ht1) as (st2 & Hrun2 & Ht2 & ? & ? & [] & _).
  rewrite (bind_Ok _ _ _ _ _ Hrun2).
  destruct (release_loop_ok (length (f :: c)) f c st2) as
    (st3 & Hrun3 & Ht3 & ? & ? & []); [done|simpl; lia|].
  exists st3. split; [exact Hrun3|]. unfold same_rest. split_and!; try congruence.
  exists (prune (f :: c)). split; [done|]. split; [|congruence].
  rewrite <-Hm1. apply tmap_of. intros k.
  by rewrite tmap_lookup, prune_get, tget_drop_leaf.
Qed.

(** The zipper of an entry. *)
Lemma tget_zip t : forall key l v, tget t key = Some (l, v) ->
  exists c o a b, t = plug c (T l o (Some v) a b) /\ cpath c = key.
Proof.
  enough (forall key t c l v, tget t key = Some (l, v) ->
    exists d o a b, plug c t = plug (d ++ c) (T l o (Some v) a b) /\
      cpath (d ++ c) = cpath c ++ key) as H.
  { intros key l v (d & o & a & b & Hp & Hc)%(H _ _ []).
    rewrite app_nil_r in *. exists d, o, a, b. auto. }
  clear t. induction key as [|x key IH]; intros [|l' o' p' a' b'] c l v Hg;
    try done; simpl in Hg.
  { destruct p' as [w|]; simplify_eq/=. exists [], o', a', b'.
    by rewrite app_nil_r. }
  set (f := Frame x l' o' p' (if x then a' else b')).
  destruct (IH _ (f :: c) l v Hg) as (d & o & a & b & Hp & Hc).
  exists (d ++ [f]), o, a, b. rewrite <-app_assoc. simpl. rewrite <-Hp, Hc.
  simpl. rewrite <-app_assoc. split; [|done]. subst f. unfold fill. simpl.
  by destruct x.
Qed.

(** Any other entry below the root keeps a childless root from arising. *)
Lemma plug_other c l o p a b k e :
  tget (plug c (T l o p a b)) k = Some e -> k <> cpath c -> c = [] ->
  a <> E \/ b <> E.
Proof.
  intros Hg Hk ->. simpl in *. destruct k as [|[] k]; [done|right|left];
    simpl in Hg; intros ->; destruct k; done.
Qed.

(** The abstract state names every entry by its address, so releasing the
    node [l] of [key] is deletion of [key]. *)
Lemma release_refines st m key l v e :
  refines st m -> m !! key = Some (l, v) -> (Z.of_nat (size m) < 2 ^ 32)%Z ->
  (forall ops, destroy_env (Some ops) (Some v) (env st) = Ok e) ->
  (key <> [] \/ 1 < size m) ->
  exists st', bst_node_release l st = Ok (tt, st') /\ env st' = e /\
    refines st' (delete key m) /\ same_rest st st'.
Proof.
  intros (t & Ht & Hm & He) Hkey Hsz Hd Hside.
  rewrite <-Hm, tmap_lookup in Hkey.
  destruct (tget_zip _ _ _ _ Hkey) as (c & o & a & b & -> & <-).
  pose proof (tree_ok_focus _ _ (trie_ok _ _ Ht)) as (Ho & _).
  destruct o as [ops|]; [|done].
  apply (release_ok st m c l (Some ops) v a b e); try done.
  destruct c as [|f c]; [right|by left].
  destruct (decide (map_Exists (fun k _ => k <> []) m))
    as [(k & x & Hk & Hne)|Hno].
  - rewrite <-Hm, tmap_lookup in Hk. by eapply (plug_other []).
  - exfalso. destruct Hside as [|Hside]; [done|].
    assert (m = {[ [] := (l, v) ]}) as ->; [|by rewrite map_size_singleton in Hside; lia].
    apply map_eq. intros k. rewrite lookup_singleton. case_decide as Hk.
    + subst. by rewrite tmap_lookup.
    + destruct (m !! k) as [x|] eqn:Hx; [|done]. exfalso. apply Hno.
      exists k, x. auto.
Qed.

(** Releasing the only node of a trie, its root (the default
    service), frees the node and then reads its parent pointer: a use after
    free. *)
Theorem release_root_faults st l o p e :
  trie st (T l o p E E) -> destroy_env o p (env st) = Ok e ->
  bst_node_release l st = Fault.
Proof.
  intros Ht Hd.
  destruct (trie_orphan st [] _ _ _ _ _ _ Ht Hd) as (st' & Hrun & Ht' & _).
  unfold bst_node_release. rewrite (bind_Ok _ _ _ _ _ Hrun).
  destruct (trie_focus _ [] _ _ _ _ _ Ht')
    as (nd & Hl & Npar & Na & Nb & _ & _ & Hbits & _). simpl in *.
  rewrite (bind_Ok _ _ _ _ _ (load_Ok _ _ _ Hl)), Na, Nb. simpl.
  assert (bst_node_free l st' =
    Ok (tt, set_heap (delete l (heap st')) (set_root None st'))) as Hfree.
  { unfold bst_node_free. rewrite (bind_Ok _ _ _ _ _ (load_Ok _ _ _ Hl)), Npar.
    rewrite decide_True by done. unfold mbind, M_bind, modS, kfree. simpl.
    by rewrite Hl. }
  rewrite (bind_Ok _ _ _ _ _ Hfree), Npar, Hbits. simpl.
  unfold mbind, M_bind, load. simpl. by rewrite lookup_delete_eq.
Qed.

(** [bst_remove_prefix] deletes exactly the entry of the key, if any; the
    nodes stay. *)
Lemma remove_refines st m prefix n :
  refines st m -> PREFIX_SIZE n <= length prefix ->
  (Z.of_nat (size m) < 2 ^ 32)%Z ->
  match m !! bits_of prefix n with
  | Some (l, v) => forall e,
      (forall ops, destroy_env (Some ops) (Some v) (env st) = Ok e) ->
      exists st', bst_remove_prefix prefix n st = Ok (1%Z, st') /\
        (env st' = e /\ allocs st' = allocs st) /\ refines st' (delete (bits_of prefix n) m)
  | None => bst_remove_prefix prefix n st = Ok (0%Z, st)
  end.
Proof.
  intros (t & Ht & Hm & He) Hlen Hsz.
  destruct (find_match_trie st t prefix n None _ Ht (matches_none st t) Hlen)
    as (res & Hrun & Hbest).
  unfold bst_remove_prefix, bst_find_longest_prefix.
  rewrite (bind_Ok _ _ _ _ _ Hrun).
  assert (forall e : entry, tget t (bits_of prefix n) = Some e -> res = Some e.1) as Hres.
  { intros e Hg. destruct Hbest as [(i & e' & Hi & Hg' & _ & -> & Hno)|[_ Hno]].
    - destruct (decide (i = n)) as [->|Hne].
      + rewrite take_ge in Hg' by (rewrite length_bits_of; lia). congruence.
      + rewrite length_bits_of in Hi. specialize (Hno n e).
        rewrite length_bits_of, take_ge in Hno by (rewrite length_bits_of; lia).
        by specialize (Hno ltac:(lia) Hg).
    - specialize (Hno n e).
      rewrite length_bits_of, take_ge in Hno by (rewrite length_bits_of; lia).
      by specialize (Hno ltac:(lia) Hg). }
  rewrite <-Hm, tmap_lookup.
  destruct (tget t (bits_of prefix n)) as [[l v]|] eqn:Hg.
  - intros e Hd. rewrite (Hres _ eq_refl). simpl.
    destruct (tget_zip _ _ _ _ Hg) as (c & o & a & b & -> & Hc).
    pose proof (tree_ok_focus _ _ (trie_ok _ _ Ht)) as (Ho & _).
    destruct o as [ops|]; [|done].
    destruct (trie_focus _ _ _ _ _ _ _ Ht) as (nd & Hl & _ & _ & _ & _ & _ & Hb & _).
    rewrite (bind_Ok _ _ _ _ _ (load_Ok _ _ _ Hl)), Hb.
    rewrite <-length_cpath, Hc, length_bits_of, Nat.eqb_refl.
    destruct (orphan_refines st m c l (Some ops) v a b e)
      as (st1 & Hrun1 & Henv & Ht1 & Hm1 & He1 & _ & Hal); try done.
    rewrite (bind_Ok _ _ _ _ _ Hrun1), <-Hc, Hm. exists st1.
    split_and!; try done. by eexists.
  - destruct Hbest as [(i & [l v] & Hi & Hg' & _ & -> & Hno)|[-> Hno]]; [|done].
    destruct (tget_zip _ _ _ _ Hg') as (c & o & a & b & -> & Hc).
    destruct (trie_focus _ _ _ _ _ _ _ Ht) as (nd & Hl & _ & _ & _ & _ & _ & Hb & _).
    simpl. rewrite (bind_Ok _ _ _ _ _ (load_Ok _ _ _ Hl)), Hb.
    rewrite (proj2 (Nat.eqb_neq _ _)); [done|]. intros Hn.
    apply (f_equal length) in Hc as Hlc. rewrite length_cpath, Hn in Hlc.
    rewrite length_take, length_bits_of in Hlc.
    rewrite take_ge in Hg' by (rewrite length_bits_of; lia). congruence.
Qed.
End remove.

(** * The trie as its clients see it

    The facts about a trie that refines a map which the service table relies
    on: searches are [lpm], and entries can be read through their address. *)

Section api.
Context `{BC : BstClient}.

(** The search returns the node of the longest matching prefix. *)
Lemma find_refines st m prefix n mtch mp :
  refines st m ->
  (forall key l v, m !! key = Some (l, v) -> match_node mtch l st = Ok (mp v, st)) ->
  PREFIX_SIZE n <= length prefix ->
  bst_find_longest_prefix_match prefix n mtch st =
  Ok ((fun ke => ke.2.1) <$> lpm m mp (bits_of prefix n), st).
Proof.
  intros (t & Ht & <- & _) Hm Hlen.
  destruct (find_match_trie st t prefix n mtch mp Ht) as (res & -> & Hb); [|done|].
  { intros key l v Hg. apply (Hm key). by rewrite tmap_lookup. }
  apply best_match_lpm in Hb. do 2 f_equal.
  destruct (lpm (tmap t) mp (bits_of prefix n)) as [[k e]|]; [|done].
  by destruct Hb as [_ ->].
Qed.

(** The node of an entry. *)
Lemma entry_node_ok st m key l v :
  refines st m -> m !! key = Some (l, v) ->
  exists nd, heap st !! l = Some nd /\ n_private nd = Some v /\ keyed key nd.
Proof.
  intros (t & Ht & <- & _) Hk. rewrite tmap_lookup in Hk.
  destruct (tget_zip _ _ _ _ Hk) as (c & o & a & b & -> & <-).
  destruct (rep_focus _ _ _ _ _ _ _ _ (trie_rep _ _ Ht))
    as (nd & Hl & _ & _ & _ & _ & Hp & Hkey). by exists nd.
Qed.

Lemma lpm_from_sound m mp key n k e :
  lpm_from m mp key n = Some (k, e) ->
  m !! k = Some e /\ mp e.2 = true /\ exists i, i <= n /\ k = take i key.
Proof.
  induction n as [|n IH]; simpl.
  - destruct (m !! take 0 key) as [v|] eqn:Hv; [|done].
    destruct (mp v.2) eqn:Hmp; [|done]. intros [= <- <-]. eauto 10.
  - destruct (m !! take (S n) key) as [v|] eqn:Hv; [destruct (mp v.2) eqn:Hmp|].
    + intros [= <- <-]. eauto 10.
    + intros (? & ? & i & ? & ?)%IH. eauto 10.
    + intros (? & ? & i & ? & ?)%IH. eauto 10.
Qed.

Lemma lpm_sound m mp key k e :
  lpm m mp key = Some (k, e) ->
  m !! k = Some e /\ mp e.2 = true /\ exists i, i <= length key /\ k = take i key.
Proof. apply lpm_from_sound. Qed.

(** The exact entry wins. *)
Lemma lpm_exact m key e :
  m !! key = Some e -> lpm m (fun _ => true) key = Some (key, e).
Proof.
  intros Hk. unfold lpm. destruct key as [|x key].
  - simpl. by rewrite Hk.
  - cbn [length lpm_from]. rewrite take_ge by done. by rewrite Hk.
Qed.

Lemma lpm_exact_match m mp key e :
  m !! key = Some e -> mp e.2 = true -> lpm m mp key = Some (key, e).
Proof.
  intros Hk Hm. unfold lpm. rewrite (lpm_from_Some m mp key (length key) (length key) e);
    [by rewrite take_ge|done|by rewrite take_ge|done|intros; lia].
Qed.

(** No longer prefix has a matching entry. *)
Lemma lpm_from_longest m mp key n k e :
  lpm_from m mp key n = Some (k, e) ->
  exists i, i <= n /\ k = take i key /\ m !! k = Some e /\ mp e.2 = true /\
    forall j w, i < j <= n -> m !! take j key = Some w -> mp w.2 = false.
Proof.
  induction n as [|n IH]; simpl; intros H.
  all: destruct (m !! take _ key) as [v|] eqn:Hv; [destruct (mp v.2) eqn:Hmp|].
  all: try done.
  - injection H as <- <-. exists 0. split_and!; try done. intros; lia.
  - injection H as <- <-. exists (S n). split_and!; try done. intros; lia.
  - destruct (IH H) as (i & ? & ? & ? & ? & Hj). exists i. split_and!; try done; [lia|].
    intros j w ? Hw. destruct (decide (j = S n)) as [->|]; [congruence|]. apply (Hj j w); [lia|done].
  - destruct (IH H) as (i & ? & ? & ? & ? & Hj). exists i. split_and!; try done; [lia|].
    intros j w ? Hw. destruct (decide (j = S n)) as [->|]; [congruence|]. apply (Hj j w); [lia|done].
Qed.

(** An entry as long as the key is the entry of the key. *)
Lemma lpm_full m mp key k e :
  lpm m mp key = Some (k, e) -> length key <= length k -> k = key.
Proof.
  intros (_ & _ & i & Hi & ->)%lpm_sound. rewrite length_take. intros.
  apply take_ge. lia.
Qed.

Lemma key_size st m key l v :
  refines st m -> m !! key = Some (l, v) ->
  bst_node_get_prefix_bits l st = Ok (length key, st).
Proof.
  intros Hr Hk. destruct (entry_node_ok _ _ _ _ _ Hr Hk) as (nd & Hl & _ & Hb & _).
  unfold bst_node_get_prefix_bits.
  by rewrite (bind_Ok _ _ _ _ _ (load_Ok _ _ _ Hl)), Hb.
Qed.

(** Distinct keys have distinct nodes. *)
Lemma refines_inj st m k k' l v v' :
  refines st m -> m !! k = Some (l, v) -> m !! k' = Some (l, v') -> k = k'.
Proof.
  intros Hr Hk Hk'.
  destruct (entry_node_ok _ _ _ _ _ Hr Hk) as (nd & Hl & _ & Hb & Hs & Hlen & Hbits).
  destruct (entry_node_ok _ _ _ _ _ Hr Hk') as (nd' & Hl' & _ & Hb' & _ & _ & Hbits').
  rewrite Hl in Hl'. injection Hl' as <-.
  assert (length k = length k') as Hlk by congruence.
  apply (list_eq_same_length _ _ (length k)); [done..|].
  intros i x y Hi Hx Hy.
  assert (i < 8 * n_prefix_size nd) as Hin.
  { rewrite Hs. unfold PREFIX_SIZE, PREFIX_BYTE.
    pose proof (Nat.div_mod_eq (length k) 8).
    pose proof (Nat.mod_upper_bound (length k) 8).
    destruct (Nat.eqb_spec (length k mod 8) 0); lia. }
  specialize (Hbits i Hin). specialize (Hbits' i Hin).
  rewrite Hx in Hbits. rewrite Hy in Hbits'. simpl in *. congruence.
Qed.
End api.
