(* ===== verification/BstDestroy.v ===== *)
(** * Destruction of the trie

    [__bst_destroy_subtree] walks down right pointers, turns a left child into
    a right child when there is no right one, and frees leaves on the way back.
    It frees every node of the tree and runs every [destroy] callback once. *)
From S2P Require Import Prelude Bst BstRep BstFind BstInsert BstRemove.
Local Open Scope nat_scope.

Section destroy.
Context `{BC : BstClient}.

(** While the tree is taken apart the keys no longer match the paths. *)
Definition anyK (path : list bool) (nd : bst_node) : Prop := True.

Lemma anyK_rep K h t : rep K h t -> rep anyK h t.
Proof.
  unfold rep. generalize (troot t), (@nil bool).
  induction t as [|l o p a IHa b IHb]; intros par path; simpl; [done|].
  intros ((nd & ? & ? & ? & ? & ? & ? & ?) & Ha & Hb). split; [|eauto].
  exists nd. by split_and!.
Qed.

Lemma anyK_shape_path h par path path' t :
  shape anyK h par path t -> shape anyK h par path' t.
Proof.
  revert par path path'. induction t as [|l o p a IHa b IHb]; intros; simpl in *;
    [done|]. intuition eauto.
Qed.

(** The callbacks, in the order the loop runs them. *)
Fixpoint destroy_all (t : tree) (e : Env) : outcome Env :=
  match t with
  | E => Ok e
  | T _ o p a b => 
      e ← destroy_all b e; e ← destroy_all a e; destroy_env o p e
  end.

(** Iterations spent below and on a node. *)
Fixpoint cost (t : tree) : nat :=
  match t with
  | E => 0
  | T _ _ _ a b =>
      (match b with E => 0 | _ => 1 + cost b end)
      + (match a with E => 0 | _ => 2 + cost a end) + 1
  end.

Lemma cost_size t : cost t <= 3 * length (locs t) - 2.
Proof.
  induction t as [|l o p a IHa b IHb]; [done|].
  cbn [cost locs length]. rewrite length_app.
  destruct a, b; cbn [locs length] in *; lia.
Qed.

(** What one subtree's destruction does to the state besides the tree. *)
Definition destroyed (t : tree) (st st' : bst) : Prop :=
  destroy_all t (env st) = Ok (env st') /\
  same_rest st st' /\ dom (heap st') = dom (heap st) ∖ list_to_set (locs t).

(** The rotation: the left child becomes the right one. *)
Lemma rotate_ok st c l o p a nd :
  trieK anyK st (plug c (T l o p a E)) -> heap st !! l = Some nd ->
  let st' := set_heap
    (<[l := with_left None (with_right (root_of a) nd)]> (heap st)) st in
  trieK anyK st' (plug c (T l o p E a)) /\ dom (heap st') = dom (heap st).
Proof.
  intros [R1 R2 R3 R4 R5] Hl st'.
  pose proof R3 as (Ht & _ & Hdisj)%NoDup_plug. simpl in Ht, Hdisj.
  rewrite NoDup_cons, app_nil_r in Ht. rewrite app_nil_r in Hdisj.
  pose proof (rep_focus _ _ _ _ _ _ _ _ R1) as (nd' & Hl2 & N1 & N2 & N3 & N4 & N5 & _).
  rewrite Hl in Hl2. injection Hl2 as <-.
  pose proof R1 as (_ & _ & Sa & _)%rep_plug.
  split; [|apply dom_insert_lookup_L; eauto].
  split; cbn [heap root next_loc set_heap st']; try done.
  - eapply (rep_replace _ (heap st)); [exact R1|..|done|].
    + intros y Hy. apply lookup_insert_ne. set_solver.
    + split; [|split; [done|]].
      * eexists. rewrite lookup_insert_eq. by split_and!.
      * eapply anyK_shape_path, shape_agree; [exact Sa|].
        intros y Hy. apply lookup_insert_ne. set_solver.
  - rewrite R2. by apply root_plug.
  - revert R3. rewrite !locs_plug. simpl. by rewrite app_nil_r.
  - intros y. rewrite lookup_insert_is_Some. intros [<-|[_ Hy]]; apply R4; eauto.
  - eapply tree_ok_plug; [exact R5|]. simpl. tauto.
Qed.

Lemma trieK_focus K st c l o p a b :
  trieK K st (plug c (T l o p a b)) ->
  exists nd, heap st !! l = Some nd /\ n_parent nd = cpar c l /\
    n_left nd = root_of a /\ n_right nd = root_of b.
Proof.
  intros Ht. destruct (rep_focus _ _ _ _ _ _ _ _ (trie_rep _ _ Ht))
    as (nd & ? & ? & ? & ? & _). eauto.
Qed.

(** A childless node below [f]: its callback runs and it is freed. *)
Lemma destroy_leaf st f c l o p e :
  trieK anyK st (plug (f :: c) (T l o p E E)) ->
  destroy_env o p (env st) = Ok e ->
  exists st', (bst_node_orphan l;; bst_node_free l) st = Ok (tt, st') /\
    trieK anyK st' (plug (f :: c) E) /\ env st' = e /\ same_rest st st' /\
    dom (heap st') = dom (heap st) ∖ {[l]}.
Proof.
  intros Ht Hd.
  destruct (trieK_orphan anyK ltac:(done) _ _ _ _ _ _ _ _ Ht Hd)
    as (st1 & Hr1 & Ht1 & ? & [] & Hdom & ?).
  destruct (trieK_free anyK ltac:(done) _ _ _ _ _ _ Ht1)
    as (st2 & Hr2 & Ht2 & ? & ? & [] & Hdom2).
  exists st2. rewrite (bind_Ok _ _ _ _ _ Hr1). unfold same_rest.
  split_and!; congruence || done.
Qed.

Lemma destroy_all_split l o p a b e e' :
  destroy_all (T l o p a b) e = Ok e' ->
  exists e1 e2, destroy_all b e = Ok e1 /\ destroy_all a e1 = Ok e2 /\
    destroy_env o p e2 = Ok e'.
Proof.
  simpl. unfold mbind, outcome_bind.
  destruct (destroy_all b e) as [e1| |]; [|done..].
  destruct (destroy_all a e1) as [e2| |] eqn:?; naive_solver.
Qed.

(** One step down, from a node whose right child is [t]. *)
Lemma step_right K fuel top st c l o p a b :
  trieK K st (plug c (T l o p a b)) -> b <> E ->
  destroy_loop (S fuel) top l st = destroy_loop fuel top (troot b) st.
Proof.
  intros Ht Hb. destruct (trieK_focus _ _ _ _ _ _ _ _ Ht) as (nd & Hl & _ & Na & Nb).
  simpl. rewrite (bind_Ok _ _ _ _ _ (load_Ok _ _ _ Hl)), Nb.
  destruct b as [|l' o' p' a' b']; [done|]. simpl.
  rewrite decide_False by naive_solver. done.
Qed.

(** The rotation step. *)
Lemma step_rotate fuel top st c l o p a :
  trieK anyK st (plug c (T l o p a E)) -> a <> E ->
  exists st', destroy_loop (S fuel) top l st = destroy_loop fuel top l st' /\
    trieK anyK st' (plug c (T l o p E a)) /\ env st' = env st /\
    same_rest st st' /\ dom (heap st') = dom (heap st).
Proof.
  intros Ht Ha. destruct (trieK_focus _ _ _ _ _ _ _ _ Ht) as (nd & Hl & _ & Na & Nb).
  destruct (rotate_ok _ _ _ _ _ _ _ Ht Hl) as [Ht' Hdom].
  eexists. split; [|by split_and!]. simpl.
  rewrite (bind_Ok _ _ _ _ _ (load_Ok _ _ _ Hl)), Na, Nb.
  destruct a as [|l' o' p' a' b']; [done|]. simpl.
  rewrite decide_False by naive_solver.
  by rewrite (bind_Ok _ _ _ _ _ (store_Ok _ _ _ _ Hl)).
Qed.

(** The leaf step of a node that is not the top: back to its parent. *)
Lemma step_leaf fuel top st f c l o p e :
  trieK anyK st (plug (f :: c) (T l o p E E)) -> l <> top ->
  destroy_env o p (env st) = Ok e ->
  exists st', destroy_loop (S fuel) top l st = destroy_loop fuel top (f_loc f) st' /\
    trieK anyK st' (plug (f :: c) E) /\ env st' = e /\ same_rest st st' /\
    dom (heap st') = dom (heap st) ∖ {[l]}.
Proof.
  intros Ht Hne Hd.
  destruct (trieK_focus _ _ _ _ _ _ _ _ Ht) as (nd & Hl & Npar & Na & Nb).
  destruct (destroy_leaf _ _ _ _ _ _ _ Ht Hd) as (st' & Hrun & ?).
  exists st'. split; [|done]. simpl.
  rewrite (bind_Ok _ _ _ _ _ (load_Ok _ _ _ Hl)), Na, Nb, Npar. simpl.
  rewrite decide_False by naive_solver.
  apply bind_Ok_inv in Hrun as ([] & st1 & Hr1 & Hr2).
  by rewrite (bind_Ok _ _ _ _ _ Hr1), (bind_Ok _ _ _ _ _ Hr2).
Qed.

(** Destroying the subtree [t] hanging below [f]. *)
Definition destroys (t : tree) : Prop := forall f c st top fuel e,
  trieK anyK st (plug (f :: c) t) -> top ∉ locs t -> t <> E ->
  destroy_all t (env st) = Ok e ->
  exists st', destroy_loop (cost t + fuel) top (troot t) st
                = destroy_loop fuel top (f_loc f) st' /\
    trieK anyK st' (plug (f :: c) E) /\ destroyed t st st'.

(** The children of the node [l], the one being emptied being [top] or not. *)
Lemma destroy_right l o p a b c st top fuel e :
  destroys b -> trieK anyK st (plug c (T l o p a b)) -> top ∉ locs b ->
  b <> E -> destroy_all b (env st) = Ok e ->
  exists st', destroy_loop (1 + cost b + fuel) top l st
                = destroy_loop fuel top l st' /\
    trieK anyK st' (plug c (T l o p a E)) /\ destroyed b st st'.
Proof.
  intros IH Ht Htop Hb Hd. cbn [Nat.add].
  rewrite (step_right _ _ _ _ _ _ _ _ _ _ Ht) by done.
  destruct (IH (Frame true l o p a) c st top fuel e Ht Htop Hb Hd)
    as (st' & ? & ? & ?). eauto.
Qed.

Lemma destroy_left l o p a c st top fuel e :
  destroys a -> trieK anyK st (plug c (T l o p a E)) -> top ∉ locs a ->
  a <> E -> destroy_all a (env st) = Ok e ->
  exists st', destroy_loop (2 + cost a + fuel) top l st
                = destroy_loop fuel top l st' /\
    trieK anyK st' (plug c (T l o p E E)) /\ destroyed a st st'.
Proof.
  intros IH Ht Htop Ha Hd. cbn [Nat.add].
  destruct (step_rotate (S (cost a + fuel)) top _ _ _ _ _ _ Ht Ha)
    as (st1 & Hrun & Ht1 & He1 & Hs1 & Hdom1).
  rewrite <-He1 in Hd.
  destruct (destroy_right l o p E a c st1 top fuel e IH Ht1 Htop Ha Hd)
    as (st' & Hrun' & Ht' & (D1 & [D2 D3] & D4)). destruct Hs1.
  exists st'. rewrite Hrun, <-Hrun'. split; [done|]. split; [done|].
  unfold destroyed, same_rest. split_and!; congruence.
Qed.

(** Both children, as far as they exist. *)
Definition below (a b : tree) : nat := cost (T 1 None None a b) - 1.

Lemma destroy_children l o p a b c st top fuel e1 e2 :
  destroys a -> destroys b -> trieK anyK st (plug c (T l o p a b)) ->
  top ∉ locs a -> top ∉ locs b ->
  destroy_all b (env st) = Ok e1 -> destroy_all a e1 = Ok e2 ->
  exists st', destroy_loop (below a b + fuel) top l st
                = destroy_loop fuel top l st' /\
    trieK anyK st' (plug c (T l o p E E)) /\ env st' = e2 /\ same_rest st st' /\
    dom (heap st') = dom (heap st) ∖ list_to_set (locs a ++ locs b).
Proof.
  intros IHa IHb Ht Hta Htb Hd1 Hd2. unfold below. cbn [cost].
  rewrite Nat.add_sub.
  assert (exists st1, destroy_loop
      (match b with E => 0 | _ => 1 + cost b end
       + (match a with E => 0 | _ => 2 + cost a end + fuel)) top l st
      = destroy_loop (match a with E => 0 | _ => 2 + cost a end + fuel) top l st1
      /\ trieK anyK st1 (plug c (T l o p a E)) /\ destroyed b st st1)
    as (st1 & Hr1 & Ht1 & (D1 & D2 & D3)).
  { destruct b as [|lb ob pb ab bb] eqn:Hb.
    - exists st. split_and!; try done. unfold destroyed. simpl. split_and!; try done.
      set_solver.
    - rewrite <-Hb in *. replace (match b with E => 0 | _ => 1 + cost b end)
        with (1 + cost b) by (by subst).
      apply (destroy_right _ _ _ _ _ _ _ _ _ e1); try done. by subst. }
  rewrite <-Nat.add_assoc, Hr1. rewrite D1 in Hd1. injection Hd1 as <-.
  destruct a as [|la oa pa aa ba] eqn:Ha.
  - exists st1. simpl in *. split_and!; try done. congruence.
  - rewrite <-Ha in *. replace (match a with E => 0 | _ => 2 + cost a end)
      with (2 + cost a) by (by subst).
    destruct (destroy_left l o p a c st1 top fuel e2 IHa Ht1 Hta)
      as (st2 & Hr2 & Ht2 & (D4 & D5 & D6)); [by subst|done|].
    exists st2. split; [done|]. split; [done|]. split; [congruence|].
    split; [destruct D2, D5; unfold same_rest; split; congruence|].
    rewrite D6, D3, list_to_set_app_L. set_solver.
Qed.

Lemma destroys_all t : destroys t.
Proof.
  induction t as [|l o p a IHa b IHb]; intros f c st top fuel e Ht Htop Hne Hd;
    [done|].
  destruct (destroy_all_split _ _ _ _ _ _ _ Hd) as (e1 & e2 & Hb & Ha & He).
  cbn [locs] in Htop.
  destruct (destroy_children l o p a b (f :: c) st top (S fuel) e1 e2)
    as (st1 & Hr1 & Ht1 & He1 & [] & Hdom1); [done..|set_solver|set_solver|done|done|].
  rewrite <-He1 in He.
  destruct (step_leaf fuel top st1 f c l o p e) as (st2 & Hr2 & Ht2 & He2 & [] & Hdom2);
    [done|set_solver|done|].
  exists st2. replace (cost (T l o p a b) + fuel) with (below a b + S fuel)
    by (unfold below; cbn [cost]; lia).
  unfold troot; simpl. rewrite Hr1, Hr2. split; [done|]. split; [done|].
  unfold destroyed, same_rest. split; [congruence|]. split; [split; congruence|].
  rewrite Hdom2, Hdom1. simpl. set_solver.
Qed.

(** Freeing the root itself: its parent pointer is its own address. *)
Lemma free_root K st l o p :
  trieK K st (T l o p E E) ->
  bst_node_free l st =
  Ok (tt, set_heap (delete l (heap st)) (set_root None st)).
Proof.
  intros Ht. destruct (trieK_focus _ _ [] _ _ _ _ _ Ht) as (nd & Hl & Npar & _).
  unfold bst_node_free. rewrite (bind_Ok _ _ _ _ _ (load_Ok _ _ _ Hl)), Npar.
  simpl. rewrite decide_True by done. unfold mbind, M_bind, modS, kfree. simpl.
  by rewrite Hl.
Qed.

(** The last iteration, at the top of the tree. *)
Lemma step_top fuel st l o p e :
  trieK anyK st (T l o p E E) -> destroy_env o p (env st) = Ok e ->
  exists st', destroy_loop (S fuel) l l st = Ok (tt, st') /\ root st' = None /\
    fresh_above (heap st') (next_loc st') /\ env st' = e /\ same_rest st st' /\
    dom (heap st') = dom (heap st) ∖ {[l]}.
Proof.
  intros Ht Hd. destruct (trieK_focus _ _ [] _ _ _ _ _ Ht) as (nd & Hl & _ & Na & Nb).
  destruct (trieK_orphan anyK ltac:(done) _ [] _ _ _ _ _ _ Ht Hd)
    as (st1 & Hr1 & Ht1 & He & Hs & Hdom & _). simpl in Ht1.
  eexists. split.
  - simpl. rewrite (bind_Ok _ _ _ _ _ (load_Ok _ _ _ Hl)), Na, Nb.
    rewrite decide_True by done. rewrite (bind_Ok _ _ _ _ _ Hr1).
    by apply (free_root _ _ _ _ _ Ht1).
  - split_and!; try done; cbn [heap next_loc set_heap set_root].
    + intros y [_ Hy]%lookup_delete_is_Some. by apply (trie_fresh _ _ Ht1).
    + by rewrite dom_delete_L, Hdom.
Qed.

(** The whole loop, in [cost t] turns. *)
Lemma destroy_loop_run st t e fuel :
  trie st t -> t <> E -> destroy_all t (env st) = Ok e -> cost t <= fuel ->
  exists st', destroy_loop fuel (troot t) (troot t) st = Ok (tt, st') /\
    root st' = None /\ fresh_above (heap st') (next_loc st') /\ env st' = e /\
    dom (heap st') = dom (heap st) ∖ list_to_set (locs t).
Proof.
  intros [R1 R2 R3 R4 R5] Hne Hd Hcost.
  destruct t as [|l o p a b]; [done|].
  destruct (destroy_all_split _ _ _ _ _ _ _ Hd) as (e1 & e2 & Hb & Ha & He).
  assert (trieK anyK st (plug [] (T l o p a b))) as Ht
    by (split; eauto using anyK_rep).
  cbn [locs length] in *. rewrite NoDup_cons in R3.
  set (extra := fuel - cost (T l o p a b)).
  destruct (destroy_children l o p a b [] st l (S extra) e1 e2)
    as (st1 & Hr1 & Ht1 & He1 & [] & Hdom1); auto using destroys_all; [set_solver..|].
  simpl in Ht1. rewrite <-He1 in He.
  destruct (step_top extra _ _ _ _ _ Ht1 He)
    as (st2 & Hr2 & ? & ? & ? & [] & Hdom2).
  exists st2. replace fuel with (below a b + S extra).
  2: { unfold below, extra. cbn [cost] in *. lia. }
  change (troot (T l o p a b)) with l. rewrite Hr1, Hr2.
  split_and!; try done. rewrite Hdom2, Hdom1. simpl. set_solver.
Qed.
(** It fits the bound of [bst_destroy_subtree]. *)
Lemma destroy_subtree_ok st t e :
  trie st t -> t <> E -> destroy_all t (env st) = Ok e ->
  exists st', bst_destroy_subtree (troot t) st = Ok (tt, st') /\
    root st' = None /\ fresh_above (heap st') (next_loc st') /\ env st' = e /\
    dom (heap st') = dom (heap st) ∖ list_to_set (locs t).
Proof.
  intros Ht Hne Hd. unfold bst_destroy_subtree. rewrite (bind_Ok _ _ _ st st) by done.
  pose proof (rep_size _ _ _ (trie_rep _ _ Ht) (trie_nodup _ _ Ht)). pose proof (cost_size t).
  apply destroy_loop_run; [done..|lia].
Qed.

(** C21 (termination): [bst_destroy] on a non-empty trie whose callbacks succeed
    runs to completion although its loop rotates the tree it walks: three turns
    per node, less two, are enough; the loop frees every node reachable from the
    root (freeing one twice would be a fault) and no other; the callbacks of all
    entries have run, a node's after those below it, the right subtree before the
    left; and what is left represents the empty map. *)
Theorem destroy_refines st t e :
  trie st t -> refines st (tmap t) -> tmap t <> ∅ ->
  destroy_all t (env st) = Ok e ->
  (exists st', bst_destroy st = Ok (tt, st') /\ refines st' ∅ /\ env st' = e /\
    dom (heap st') = dom (heap st) ∖ list_to_set (locs t)) /\
  (forall l fuel, root st = Some l -> 3 * length (locs t) - 2 <= fuel ->
    exists st', destroy_loop fuel l l st = Ok (tt, st')).
Proof.
  intros Ht (t' & _ & _ & Hent) Hm Hd. split.
  - unfold bst_destroy. rewrite (bind_Ok _ _ _ st st), (trie_root _ _ Ht), Hent by done.
    assert (size (tmap t) <> 0) by (by rewrite map_size_empty_iff).
    rewrite (proj2 (Z.ltb_lt 0 _)) by lia.
    destruct t as [|l o p a b]; [done|]. cbn [root_of].
    destruct (destroy_subtree_ok st (T l o p a b) e Ht ltac:(done) Hd)
      as (st1 & Hr & ? & ? & ? & ?).
    rewrite (bind_Ok _ _ _ _ _ Hr). eexists. split; [done|].
    split_and!; try done. exists E. split_and!; try done.
    split; try done. apply NoDup_nil_2.
  - intros l fuel Hl Hf. rewrite (trie_root _ _ Ht) in Hl.
    destruct t as [|l' o p a b]; [done|]. injection Hl as <-.
    pose proof (cost_size (T l' o p a b)).
    destruct (destroy_loop_run st (T l' o p a b) e fuel Ht ltac:(done) Hd) as (st1 & ? & _); [lia|].
    by exists st1.
Qed.
End destroy.
