(* ===== verification/BstHistory.v ===== *)
(** * Histories of trie operations

    Any sequence of insertions, removals and searches, from the empty trie on,
    runs without a fault and answers like a finite map from bit strings to
    values with longest-prefix lookup. *)
From S2P Require Import Prelude Bst BstRep BstFind BstInsert BstRemove BstDestroy.
Local Open Scope nat_scope.

Section history.
Context `{BC : BstClient}.

Inductive trie_op :=
| OpInsert (o : Ops) (v : Priv) (prefix : list Z) (n : nat)
| OpRemove (prefix : list Z) (n : nat)
| OpFind (prefix : list Z) (n : nat).
Inductive trie_result :=
| RInsert (done : bool)
| RRemove (removed : Z)
| RFind (v : option Priv).

(** The callers' use of the API: a search reads the private data of the node
    it is given. *)
Definition find_private (prefix : list Z) (n : nat) : M bst (option Priv) :=
  r ← bst_find_longest_prefix prefix n;
  match r with Some l => bst_node_get_private l | None => mret None end.
Definition run_op (op : trie_op) : M bst trie_result :=
  match op with
  | OpInsert o v prefix n =>
      r ← bst_insert_prefix (Some o) (Some v) prefix n; mret (RInsert (is_set r))
  | OpRemove prefix n => r ← bst_remove_prefix prefix n; mret (RRemove r)
  | OpFind prefix n => r ← find_private prefix n; mret (RFind r)
  end.
Fixpoint run_ops (ops : list trie_op) : M bst (list trie_result) :=
  match ops with
  | [] => mret []
  | op :: ops => r ← run_op op; rs ← run_ops ops; mret (r :: rs)
  end.

(** ** The specification: a map and longest-prefix lookup *)
Fixpoint longest (m : gmap (list bool) Priv) (key : list bool) (n : nat) : option Priv :=
  match m !! take n key, n with
  | Some v, _ => Some v
  | None, O => None
  | None, S n => longest m key n
  end.
Inductive op_spec (nomem : Prop) (m : gmap (list bool) Priv)
  : trie_op -> trie_result -> gmap (list bool) Priv -> Prop :=
| spec_insert o v prefix n :
    m !! bits_of prefix n = None ->
    op_spec nomem m (OpInsert o v prefix n) (RInsert true) (<[bits_of prefix n := v]> m)
| spec_insert_fail o v prefix n :
    is_Some (m !! bits_of prefix n) \/ nomem ->
    op_spec nomem m (OpInsert o v prefix n) (RInsert false) m
| spec_remove prefix n v :
    m !! bits_of prefix n = Some v ->
    op_spec nomem m (OpRemove prefix n) (RRemove 1) (delete (bits_of prefix n) m)
| spec_remove_none prefix n :
    m !! bits_of prefix n = None -> op_spec nomem m (OpRemove prefix n) (RRemove 0) m
| spec_find prefix n :
    op_spec nomem m (OpFind prefix n) (RFind (longest m (bits_of prefix n) n)) m.
Inductive history_spec (nomem : Prop) : gmap (list bool) Priv -> list trie_op ->
    list trie_result -> gmap (list bool) Priv -> Prop :=
| history_nil m : history_spec nomem m [] [] m
| history_cons m op r m1 ops rs m2 :
    op_spec nomem m op r m1 -> history_spec nomem m1 ops rs m2 ->
    history_spec nomem m (op :: ops) (r :: rs) m2.

Definition op_ok (op : trie_op) : Prop :=
  match op with
  | OpInsert o v prefix n => init_trivial o v /\ PREFIX_SIZE n <= length prefix
  | OpRemove prefix n | OpFind prefix n => PREFIX_SIZE n <= length prefix
  end.
(** The destructor of the client's data always runs. *)
Definition destroys : Prop :=
  forall v e, exists e', forall o, destroy_env (Some o) (Some v) e = Ok e'.

Lemma lpm_longest (m : gmap (list bool) entry) key n :
  longest (snd <$> m) key n = (fun ke => ke.2.2) <$> lpm_from m (fun _ => true) key n.
Proof.
  induction n as [|n IH]; simpl.
  all: rewrite lookup_fmap; destruct (m !! _); simpl; done.
Qed.

Lemma find_private_ok st m prefix n :
  refines st m -> PREFIX_SIZE n <= length prefix ->
  find_private prefix n st = Ok (longest (snd <$> m) (bits_of prefix n) n, st).
Proof.
  intros Hr Hlen. unfold find_private, bst_find_longest_prefix.
  rewrite (bind_Ok _ _ _ _ _ (find_refines st m prefix n None (fun _ => true) Hr
    (fun _ _ _ _ => eq_refl) Hlen)).
  rewrite lpm_longest. unfold lpm. rewrite length_bits_of.
  destruct (lpm_from _ _ _ _) as [[k [l v]]|] eqn:Hk; simpl; [|done].
  apply lpm_from_sound in Hk as (Hk & _ & _).
  destruct (entry_node_ok _ _ _ _ _ Hr Hk) as (nd & Hl & Hp & _).
  unfold bst_node_get_private. by rewrite (bind_Ok _ _ _ _ _ (load_Ok _ _ _ Hl)), Hp.
Qed.

Lemma run_op_ok st m op :
  destroys -> refines st m -> op_ok op -> (Z.of_nat (size m) + 1 < 2 ^ 32)%Z ->
  exists r st' m', run_op op st = Ok (r, st') /\ refines st' m' /\
    op_spec (~ allocs_good st) (snd <$> m) op r (snd <$> m') /\ size m' <= size m + 1 /\
    (allocs_good st -> allocs_good st').
Proof.
  intros Hd Hr Hok Hsz. destruct op as [o v prefix n|prefix n|prefix n]; simpl in *.
  - destruct Hok as [Hi Hlen].
    destruct (insert_refines st m o v prefix n Hr Hi Hlen Hsz) as ([l|] & st' & Hrun & [_ Ha] & H);
      rewrite (bind_Ok _ _ _ _ _ Hrun); destruct H as [H1 H2].
    + eexists _, _, _. split; [done|]. split; [exact H2|]. split.
      * rewrite fmap_insert. simpl. constructor. by rewrite lookup_fmap, H1.
      * rewrite map_size_insert_None by done. split; [lia|done].
    + eexists _, _, _. split; [done|]. split; [exact H2|]. split; [|by split; [lia|]].
      constructor. destruct H1 as [[e H1]|H1]; [left|by right].
      by rewrite lookup_fmap, H1.
  - pose proof (remove_refines st m prefix n Hr Hok ltac:(lia)) as H.
    destruct (m !! bits_of prefix n) as [[l v]|] eqn:Hm.
    + destruct (Hd v (env st)) as (e & He). destruct (H e He) as (st' & Hrun & [_ Ha] & H2).
      rewrite (bind_Ok _ _ _ _ _ Hrun). eexists _, _, _. split; [done|]. split; [exact H2|].
      split; [|unfold allocs_good; rewrite Ha, map_size_delete, Hm; split; [simpl; lia|done]].
      rewrite fmap_delete. apply spec_remove with v. by rewrite lookup_fmap, Hm.
    + rewrite (bind_Ok _ _ _ _ _ H). eexists _, _, m. split; [done|]. split; [done|].
      split; [|split; [lia|done]]. constructor. by rewrite lookup_fmap, Hm.
  - rewrite (bind_Ok _ _ _ _ _ (find_private_ok st m prefix n Hr Hok)).
    eexists _, _, m. split; [done|]. split; [done|]. split; [constructor|split; [lia|done]].
Qed.

Lemma op_spec_mono (P Q : Prop) m op r m' : (P -> Q) -> op_spec P m op r m' -> op_spec Q m op r m'.
Proof. intros HPQ []; try by econstructor. constructor. tauto. Qed.

Lemma run_ops_ok st0 ops : forall st m,
  destroys -> refines st m -> Forall op_ok ops ->
  (Z.of_nat (size m + length ops) < 2 ^ 32)%Z -> (allocs_good st0 -> allocs_good st) ->
  exists rs st' m', run_ops ops st = Ok (rs, st') /\ refines st' m' /\
    history_spec (~ allocs_good st0) (snd <$> m) ops rs (snd <$> m').
Proof.
  induction ops as [|op ops IH]; intros st m Hd Hr Hops Hsz Ha.
  { exists [], st, m. repeat (split; [done|]). constructor. }
  apply Forall_cons in Hops as [Hop Hops]. simpl in Hsz.
  destruct (run_op_ok st m op Hd Hr Hop) as (r & st1 & m1 & Hrun & Hr1 & Hs1 & Hsz1 & Ha1); [lia|].
  destruct (IH st1 m1) as (rs & st2 & m2 & Hrun2 & Hr2 & Hs2); [done..|lia|tauto|].
  exists (r :: rs), st2, m2. simpl.
  rewrite (bind_Ok _ _ _ _ _ Hrun), (bind_Ok _ _ _ _ _ Hrun2).
  repeat (split; [done|]). econstructor; [|exact Hs2]. eapply op_spec_mono; [|exact Hs1]. tauto.
Qed.

(** The empty trie. *)
Definition bst_empty (al : list bool) (e : Env) : bst := Bst _ ∅ None 0 1 al e.
Lemma refines_empty al e : refines (bst_empty al e) ∅.
Proof.
  exists E. split; [|done]. split; try done; [apply NoDup_nil_2|].
  intros y [x Hx]. simpl in Hx. by rewrite lookup_empty in Hx.
Qed.

(** C8 (refinement): from the empty trie, every sequence of insertions, removals
    and longest-prefix searches on well-formed prefixes runs to completion
    without touching freed or unallocated memory, and its answers are those of
    a finite map from bit strings to values: an insertion succeeds iff the
    prefix was free (or memory ran out), a removal reports whether the exact
    prefix was there, and a search returns the value of the longest prefix
    stored. *)
Theorem trie_history al e ops :
  destroys -> Forall op_ok ops -> (Z.of_nat (length ops) < 2 ^ 32)%Z ->
  exists rs st m, run_ops ops (bst_empty al e) = Ok (rs, st) /\ refines st m /\
    history_spec (~ Forall (eq true) al) ∅ ops rs (snd <$> m).
Proof.
  intros Hd Hops Hsz.
  destruct (run_ops_ok (bst_empty al e) ops (bst_empty al e) ∅ Hd (refines_empty al e) Hops)
    as (rs & st & m & H1 & H2 & H3); [by rewrite map_size_empty|done|].
  exists rs, st, m. by rewrite fmap_empty in H3.
Qed.
End history.

(** A client without callbacks. *)
Module Plain.
Definition plain_client : BstClient :=
  {| Ops := unit; Priv := Z; Env := unit; op_init _ := None; op_destroy _ := None |}.
Definition ins v prefix n : @trie_op plain_client := @OpInsert plain_client tt v prefix n.
Definition ops : list (@trie_op plain_client) :=
  [ins 7%Z [192; 0]%Z 8; ins 9%Z [192; 128]%Z 9; @OpFind plain_client [192; 129]%Z 16;
   @OpRemove plain_client [192; 128]%Z 9; @OpFind plain_client [192; 129]%Z 16].

Lemma trie_history_witness :
  exists st m, @run_ops plain_client ops (@bst_empty plain_client [] tt)
    = Ok ([@RInsert plain_client true; @RInsert plain_client true; @RFind plain_client (Some 9%Z);
           @RRemove plain_client 1; @RFind plain_client (Some 7%Z)], st) /\
    @refines plain_client st m.
Proof.
  destruct (@trie_history plain_client [] tt ops) as (rs & st & m & H1 & H2 & _).
  - intros v e. by exists e.
  - repeat constructor; try done; cbv; lia.
  - cbv. done.
  - exists st, m. split; [|exact H2]. rewrite H1.
    vm_compute in H1. by injection H1 as <- <-.
Defined.

(** A trie that holds only a default entry. *)
Definition root_only : @bst plain_client :=
  @Bst plain_client {[ 1%positive := @BstNode plain_client 1 None None (Some tt) (Some 5%Z) 0 0 [] ]}
    (Some 1%positive) 1 2 [] tt.
Lemma root_only_trie : @trie plain_client root_only (@T plain_client 1 (Some tt) (Some 5%Z) E E).
Proof.
  split; simpl; try done.
  - split; [|done]. eexists. split; [reflexivity|]. split_and!; try done.
    split_and!; try done. intros i; simpl; lia.
  - apply NoDup_singleton.
  - intros y [x Hx]. simpl in Hx. apply lookup_singleton_Some in Hx as [<- _]. done.
Qed.
Lemma release_root_faults_witness : @bst_node_release plain_client 1%positive root_only = Fault.
Proof.
  apply (@release_root_faults plain_client root_only 1%positive (Some tt) (Some 5%Z) tt root_only_trie).
  reflexivity.
Defined.
(** A trie with an entry two steps down on the left and one on the right: the
    loop rotates the root once the right child is gone. *)
Definition grown : @bst plain_client :=
  match @run_ops plain_client [ins 7%Z [64]%Z 2; ins 9%Z [128]%Z 1] (@bst_empty plain_client [] tt) with
  | Ok (_, st) => st
  | _ => @bst_empty plain_client [] tt
  end.
Lemma plain_destroys : @destroys plain_client.
Proof. intros v e. by exists e. Qed.
Lemma plain_destroy_all t : @destroy_all plain_client t tt = Ok tt.
Proof. induction t as [|l o p a IHa b IHb]; [done|]. simpl. rewrite IHb. simpl. rewrite IHa. by destruct o, p. Qed.
Lemma grown_refines : exists m, @refines plain_client grown m /\ m <> ∅.
Proof.
  destruct (@run_ops_ok plain_client (@bst_empty plain_client [] tt) [ins 7%Z [64]%Z 2; ins 9%Z [128]%Z 1]
    (@bst_empty plain_client [] tt) ∅) as (rs & st & m & H1 & H2 & _).
  - exact plain_destroys.
  - apply refines_empty.
  - repeat constructor; try done; cbv; lia.
  - rewrite map_size_empty. cbv. done.
  - done.
  - exists m. assert (st = grown) as E by (unfold grown; by rewrite H1). rewrite E in H2.
    split; [exact H2|]. intros ->. destruct H2 as (t & _ & _ & He). vm_compute in He. done.
Qed.
Lemma destroy_refines_witness : size (heap grown) = 4 /\
  (exists st', @bst_destroy plain_client grown = Ok (tt, st') /\ @refines plain_client st' ∅) /\
  exists st', @destroy_loop plain_client 10 1%positive 1%positive grown = Ok (tt, st').
Proof.
  destruct grown_refines as (m & (t & Ht & Hm & He) & Hne). split; [reflexivity|].
  destruct (@destroy_refines plain_client grown t tt Ht) as [(st' & H1 & H2 & _) Hsteps].
  - exists t. split; [exact Ht|]. split; [reflexivity|]. rewrite Hm. exact He.
  - rewrite Hm. exact Hne.
  - apply plain_destroy_all.
  - split; [exists st'; exact (conj H1 H2)|].
    apply (Hsteps 1%positive 10); [reflexivity|].
    pose proof (rep_size _ _ _ (trie_rep _ _ Ht) (trie_nodup _ _ Ht)) as Hs.
    change (size (heap grown)) with 4 in Hs. lia.
Defined.
End Plain.
