(* ===== verification/ServiceEntry.v ===== *)
(** * Service entries: target sets, targets and iterators
    (src/stack/service.c lines 85-893, service.h)

    A service entry holds a list of target sets in decreasing priority; a set
    holds the targets of one priority.  Entries are heap objects, reference
    counted and named by their address; the targets and sets of an entry are
    values of its record, and a pointer to a target is its position in it. *)
From S2P Require Import Prelude Bst.
Local Open Scope Z_scope.

(** ** Data *)
Inductive service_rule_type :=
| SERVICE_RULE_UNDEFINED
| SERVICE_RULE_FORWARD
| SERVICE_RULE_DEMUX
| SERVICE_RULE_DELAY
| SERVICE_RULE_DROP.
#[export] Instance service_rule_type_eq_dec : EqDecision service_rule_type.
Proof. solve_decision. Defined.

(** A C pointer argument: its address (0 is NULL) and the bytes readable at
    it.  [dst] arguments are compared as addresses for DEMUX rules and as
    bytes for FORWARD rules. *)
Record cptr := Ptr { p_addr : Z; p_bytes : list Z }.
Definition NULLPTR : cptr := Ptr 0 [].
Definition is_null (p : cptr) : bool := p_addr p =? 0.

(** [union target_out] is its raw 64-bit value: a socket address, or an
    interface index in the low 32 bits. *)
Abbreviation target_out := Z (only parsing).
Definition oif_of (out : target_out) : Z := u32 out.

Record target := Target {
  t_type : service_rule_type;
  t_weight : Z;
  t_packets_resolved : Z;
  t_bytes_resolved : Z;
  t_bytes_dropped : Z;
  t_packets_dropped : Z;
  t_out : target_out;
  t_dstlen : nat;
  t_dst : list Z;
}.

Record target_set := TargetSet {
  s_list : list target;
  s_normalizer : Z;
  s_priority : Z;
  s_flags : Z;
  s_count : Z;
}.

(** [se_readers] counts the read locks held on the entry's rwlock. *)
Record service_entry := ServiceEntry {
  se_node : option positive;
  se_sets : list target_set;
  se_count : Z;
  se_packets_resolved : Z;
  se_bytes_resolved : Z;
  se_bytes_dropped : Z;
  se_packets_dropped : Z;
  se_refcnt : Z;
  se_readers : Z;
}.

(** What the table sees of a socket. *)
Record sock := Sock { sk_protocol : Z; sk_refcnt : Z }.

(** The heap of entries, the sockets, and the counters of [srvtable]. *)
Record senv := SEnv {
  ses : gmap positive service_entry;
  socks : gmap Z sock;
  next_se : positive;
  services : Z;
  tb_bytes_resolved : Z;
  tb_packets_resolved : Z;
  tb_bytes_dropped : Z;
  tb_packets_dropped : Z;
}.

(** ** Field updates *)
Definition se_with_sets (sets : list target_set) (count : Z)
    (se : service_entry) : service_entry :=
  ServiceEntry (se_node se) sets count (se_packets_resolved se)
    (se_bytes_resolved se) (se_bytes_dropped se) (se_packets_dropped se)
    (se_refcnt se) (se_readers se).
Definition se_with_node (n : option positive) (se : service_entry)
  : service_entry :=
  ServiceEntry n (se_sets se) (se_count se) (se_packets_resolved se)
    (se_bytes_resolved se) (se_bytes_dropped se) (se_packets_dropped se)
    (se_refcnt se) (se_readers se).
Definition se_with_refcnt (r : Z) (se : service_entry) : service_entry :=
  ServiceEntry (se_node se) (se_sets se) (se_count se) (se_packets_resolved se)
    (se_bytes_resolved se) (se_bytes_dropped se) (se_packets_dropped se)
    r (se_readers se).
Definition se_with_readers (r : Z) (se : service_entry) : service_entry :=
  ServiceEntry (se_node se) (se_sets se) (se_count se) (se_packets_resolved se)
    (se_bytes_resolved se) (se_bytes_dropped se) (se_packets_dropped se)
    (se_refcnt se) r.
Definition env_with_ses (m : gmap positive service_entry) (e : senv) : senv :=
  SEnv m (socks e) (next_se e) (services e) (tb_bytes_resolved e)
    (tb_packets_resolved e) (tb_bytes_dropped e) (tb_packets_dropped e).
Definition env_with_socks (m : gmap Z sock) (e : senv) : senv :=
  SEnv (ses e) m (next_se e) (services e) (tb_bytes_resolved e)
    (tb_packets_resolved e) (tb_bytes_dropped e) (tb_packets_dropped e).
Definition env_with_services (n : Z) (e : senv) : senv :=
  SEnv (ses e) (socks e) (next_se e) n (tb_bytes_resolved e)
    (tb_packets_resolved e) (tb_bytes_dropped e) (tb_packets_dropped e).

(** ** Sockets: [sock_hold] and [sock_put]; the last put frees the socket *)
Definition sock_hold (sk : Z) (e : senv) : outcome senv :=
  match socks e !! sk with
  | Some s => Ok (env_with_socks
      (<[sk := Sock (sk_protocol s) (s32 (sk_refcnt s + 1))]> (socks e)) e)
  | None => Fault
  end.
Definition sock_put (sk : Z) (e : senv) : outcome senv :=
  match socks e !! sk with
  | Some s =>
      let r := s32 (sk_refcnt s - 1) in
      Ok (env_with_socks
        (if r =? 0 then delete sk (socks e)
         else <[sk := Sock (sk_protocol s) r]> (socks e)) e)
  | None => Fault
  end.

Definition is_sock_target (t : target) : bool :=
  bool_decide (t_type t = SERVICE_RULE_DEMUX) && (t_dstlen t =? 0)%nat.

(** ** Freeing targets, sets and entries *)
Definition target_free (t : target) (e : senv) : outcome senv :=
  if is_sock_target t && negb (t_out t =? 0) then sock_put (t_out t) e else Ok e.

Fixpoint free_targets (ts : list target) (e : senv) : outcome senv :=
  match ts with
  | [] => Ok e
  | t :: ts => e ← target_free t e; free_targets ts e
  end.
Definition target_set_free (set : target_set) (e : senv) : outcome senv :=
  free_targets (s_list set) e.

Fixpoint free_sets (sets : list target_set) (e : senv) : outcome senv :=
  match sets with
  | [] => Ok e
  | s :: sets => e ← target_set_free s e; free_sets sets e
  end.

(** [__service_entry_free], on the entry at address [l]. *)
Definition service_entry_free (l : positive) (e : senv) : outcome senv :=
  match ses e !! l with
  | Some se =>
      e ← free_sets (se_sets se) e; Ok (env_with_ses (delete l (ses e)) e)
  | None => Fault
  end.

Definition service_entry_hold (l : positive) (e : senv) : outcome senv :=
  match ses e !! l with
  | Some se => Ok (env_with_ses
      (<[l := se_with_refcnt (s32 (se_refcnt se + 1)) se]> (ses e)) e)
  | None => Fault
  end.

Definition service_entry_put (l : positive) (e : senv) : outcome senv :=
  match ses e !! l with
  | Some se =>
      let r := s32 (se_refcnt se - 1) in
      let e := env_with_ses (<[l := se_with_refcnt r se]> (ses e)) e in
      if r =? 0 then service_entry_free l e else Ok e
  | None => Fault
  end.

(** ** The service table is the client of the trie: the private pointer of a
    node is the address of its entry, [init] does nothing and [destroy] drops
    the tree's reference. *)
Definition service_entry_init (l : positive) (e : senv) : Z * senv := (0, e).
Definition service_entry_destroy (l : positive) (e : senv) : outcome senv :=
  service_entry_put l e.

#[export] Instance service_client : BstClient := {
  Ops := unit;
  Priv := positive;
  Env := senv;
  op_init := fun _ => Some service_entry_init;
  op_destroy := fun _ => Some service_entry_destroy;
}.

Abbreviation SM := (M bst).

Definition liftE (f : senv -> outcome senv) : SM unit := fun st =>
  match f (env st) with
  | Ok e => Ok (tt, set_env e st)
  | Fault => Fault
  | NoFuel => NoFuel
  end.
Definition liftO {A} (o : outcome A) : SM A := fun st =>
  match o with Ok a => Ok (a, st) | Fault => Fault | NoFuel => NoFuel end.
Definition modE (f : senv -> senv) : SM unit :=
  modS (fun st => set_env (f (env st)) st).

Definition load_se (l : positive) : SM service_entry := fun st =>
  match ses (env st) !! l with Some se => Ok (se, st) | None => Fault end.
Definition store_se (l : positive) (se : service_entry) : SM unit := fun st =>
  match ses (env st) !! l with
  | Some _ =>
      Ok (tt, set_env (env_with_ses (<[l := se]> (ses (env st))) (env st)) st)
  | None => Fault
  end.
Definition load_sock (sk : Z) : SM sock := fun st =>
  match socks (env st) !! sk with Some s => Ok (s, st) | None => Fault end.
Definition kmalloc : SM bool := fun st => Ok (alloc_ok st).

(** ** Looking for targets *)
Definition ENOMEM : Z := 12.
Definition EEXIST : Z := 17.
Definition EINVAL : Z := 22.
Definition EADDRINUSE : Z := 98.
Definition MATCH_NO_PROTOCOL : Z := -1.
Definition MATCH_ANY_PROTOCOL : Z := 0.

(** [memcmp(a, b, n) == 0]; reading past either object is a fault. *)
Definition memcmp_eq (a b : list Z) (n : nat) : outcome bool :=
  if decide (n <= length a /\ n <= length b)%nat
  then Ok (bool_decide (take n a = take n b)) else Fault.

Definition is_target (t : target) (type : service_rule_type) (dst : cptr)
    (dstlen : nat) : outcome bool :=
  if negb (bool_decide (t_type t = type)) then Ok false
  else
    match type with
    | SERVICE_RULE_DEMUX => Ok (is_null dst || (t_out t =? p_addr dst))
    | SERVICE_RULE_FORWARD =>
        if is_null dst then Ok true else memcmp_eq (t_dst t) (p_bytes dst) dstlen
    | _ => Ok true
    end.

(** The test in the inner loop of [__service_entry_get_target]. *)
Definition target_matches (sks : gmap Z sock) (t : target)
    (type : service_rule_type) (dst : cptr) (dstlen : nat) (protocol : Z)
  : outcome bool :=
  if negb (bool_decide (t_type t = type)) then Ok false
  else
    b ← is_target t type dst dstlen;
    if negb b then Ok false
    else if bool_decide (type = SERVICE_RULE_DEMUX) then
      match sks !! t_out t with
      | Some s => Ok ((sk_protocol s =? protocol)
                      || (protocol =? MATCH_ANY_PROTOCOL))
      | None => Fault
      end
    else Ok true.

(** First position of a list whose element passes a test that may fault. *)
Fixpoint find_first {A} (f : A -> outcome bool) (l : list A) (i : nat)
  : outcome (option nat) :=
  match l with
  | [] => Ok None
  | a :: l => b ← f a; if b : bool then Ok (Some i) else find_first f l (S i)
  end.

(** The two nested loops over sets and targets. *)
Fixpoint find_target (f : target -> outcome bool) (sets : list target_set)
    (si : nat) : outcome (option (nat * nat)) :=
  match sets with
  | [] => Ok None
  | s :: sets =>
      r ← find_first f (s_list s) 0;
      match r with
      | Some ti => Ok (Some (si, ti))
      | None => find_target f sets (S si)
      end
  end.

Definition service_entry_get_target (sks : gmap Z sock)
    (sets : list target_set) (type : service_rule_type) (dst : cptr)
    (dstlen : nat) (protocol : Z) : outcome (option (nat * nat)) :=
  find_target (fun t => target_matches sks t type dst dstlen protocol) sets 0.

Definition target_at (sets : list target_set) (pos : nat * nat)
  : option target :=
  s ← sets !! pos.1; s_list s !! pos.2.

(** [__service_entry_get_dev] with [service_entry_get_dev]: the device table is
    the predicate [dev_exists] on interface indices. *)
Definition entry_get_dev (sets : list target_set) (ifindex : Z)
  : outcome (option (nat * nat)) :=
  find_target (fun t => Ok (negb (is_sock_target t)
                            && (oif_of (t_out t) =? ifindex))) sets 0.

Definition service_entry_get_dev (dev_exists : Z -> bool) (l : positive)
    (ifindex : Z) : SM (option Z) :=
  se ← load_se l;
  r ← liftO (entry_get_dev (se_sets se) ifindex);
  mret (if is_set r then (if dev_exists ifindex then Some ifindex else None) else None).

(** ** Adding *)
Definition target_create (type : service_rule_type) (dst : cptr)
    (dstlen : nat) (out : target_out) (weight : Z) : SM (option target) :=
  if (dstlen =? 0)%nat && (out =? 0) then mret None
  else
    ok ← kmalloc;
    if negb ok then mret None
    else if (0 <? dstlen)%nat then
      if decide (dstlen <= length (p_bytes dst))%nat then
        mret (Some (Target type weight 0 0 0 0 (oif_of out) dstlen
                      (take dstlen (p_bytes dst))))
      else faultM
    else
      liftE (sock_hold out);;
      mret (Some (Target type weight 0 0 0 0 out 0 [])).

Definition target_set_create (flags priority : Z) : SM (option target_set) :=
  ok ← kmalloc;
  mret (if ok : bool then Some (TargetSet [] 0 priority flags 0) else None).

Definition target_set_add_target (t : target) (set : target_set)
  : target_set :=
  TargetSet (s_list set ++ [t]) (u32 (s_normalizer set + t_weight t))
    (s_priority set) (s_flags set) (u16 (s_count set + 1)).

(** Before the first set of lower priority. *)
Fixpoint insert_target_set (set : target_set) (sets : list target_set)
  : list target_set :=
  match sets with
  | [] => [set]
  | pos :: sets =>
      if s_priority pos <? s_priority set then set :: pos :: sets
      else pos :: insert_target_set set sets
  end.

Fixpoint get_target_set (priority : Z) (sets : list target_set)
  : option nat :=
  match sets with
  | [] => None
  | pos :: sets =>
      if s_priority pos =? priority then Some 0%nat
      else S <$> get_target_set priority sets
  end.

(** The set of a priority, created when missing; [None]: no memory. *)
Definition get_or_create_set (sets : list target_set) (flags priority : Z)
  : SM (option (list target_set)) :=
  match get_target_set priority sets with
  | Some _ => mret (Some sets)
  | None =>
      s ← target_set_create flags priority;
      mret (match s with
            | Some s => Some (insert_target_set s sets)
            | None => None
            end)
  end.

(** Apply [f] to the set of a priority. *)
Definition on_priority (f : target_set -> target_set) (priority : Z)
    (sets : list target_set) : list target_set :=
  match get_target_set priority sets with
  | Some i => alter f i sets
  | None => sets
  end.

Definition service_entry_add_target (l : positive) (type : service_rule_type)
    (flags priority weight : Z) (dst : cptr) (dstlen : nat)
    (out : target_out) : SM Z :=
  se ← load_se l;
  protocol ← (if (dstlen =? 0)%nat
              then s ← load_sock out; mret (sk_protocol s)
              else mret MATCH_NO_PROTOCOL);
  st ← getS;
  r ← liftO (service_entry_get_target (socks (env st)) (se_sets se) type dst
               dstlen protocol);
  match r with
  | Some pos =>
      t ← derefM (target_at (se_sets se) pos);
      mret (if is_sock_target t then - EADDRINUSE else 0)
  | None =>
      t ← target_create type dst dstlen out weight;
      match t with
      | None => mret (- ENOMEM)
      | Some t =>
          sets ← get_or_create_set (se_sets se) flags priority;
          match sets with
          | None => liftE (target_free t);; mret (- ENOMEM)
          | Some sets =>
              store_se l (se_with_sets
                (on_priority (target_set_add_target t) priority sets)
                (u32 (se_count se + 1)) se);;
              mret 1
          end
      end
  end.

(** ** Removing *)
Definition target_set_remove_target (ti : nat) (t : target)
    (set : target_set) : target_set :=
  TargetSet (delete ti (s_list set)) (u32 (s_normalizer set - t_weight t))
    (s_priority set) (s_flags set) (u16 (s_count set - 1)).

(** Unlink the target at [pos], and its set too when that becomes empty; what
    is left of the set is freed with it. *)
Definition remove_at (sets : list target_set) (pos : nat * nat)
  : option (target * list target * list target_set) :=
  s ← sets !! pos.1;
  t ← s_list s !! pos.2;
  let s' := target_set_remove_target pos.2 t s in
  if s_count s' =? 0
  then Some (t, s_list s', delete pos.1 sets)
  else Some (t, [], <[pos.1 := s']> sets).

Record target_stats := TargetStats {
  ts_packets_resolved : Z; ts_bytes_resolved : Z;
  ts_packets_dropped : Z; ts_bytes_dropped : Z;
}.
Definition stats_of (t : target) : target_stats :=
  TargetStats (u32 (t_packets_resolved t)) (u32 (t_bytes_resolved t))
    (u32 (t_packets_dropped t)) (u32 (t_bytes_dropped t)).

Definition removal_matches (type : service_rule_type) (dst : cptr)
    (dstlen : nat) (t : target) : outcome bool :=
  if negb (bool_decide (t_type t = type)) then Ok false
  else
    match t_type t with
    | SERVICE_RULE_DEMUX => Ok (dstlen =? 0)%nat
    | SERVICE_RULE_FORWARD => memcmp_eq (t_dst t) (p_bytes dst) dstlen
    | _ => Ok false
    end.

(** [__service_entry_remove_target]; the statistics of the removed target are
    returned in place of the out argument. *)
Definition entry_remove_target (l : positive) (type : service_rule_type)
    (dst : cptr) (dstlen : nat) : SM (Z * option target_stats) :=
  se ← load_se l;
  r ← liftO (find_target (removal_matches type dst dstlen) (se_sets se) 0);
  match r with
  | None => mret (0, None)
  | Some pos =>
      '(t, rest, sets) ← derefM (remove_at (se_sets se) pos);
      liftE (target_free t);;
      liftE (free_targets rest);;
      store_se l (se_with_sets sets (u32 (se_count se - 1)) se);;
      mret (1, Some (stats_of t))
  end.

(** The inner loop of [__service_entry_remove_target_by_dev] on one set: [todo]
    is the part of the list still to visit.  When the set becomes empty it is
    freed, and the [_safe] loop then reads the list head inside it. *)
Fixpoint remove_dev_set (ifindex : Z) (done todo : list target)
    (normalizer count : Z) (removed : nat)
  : outcome (list target * Z * Z * nat) :=
  match todo with
  | [] => Ok (done, normalizer, count, removed)
  | t :: todo =>
      if bool_decide (t_type t = SERVICE_RULE_FORWARD)
         && (oif_of (t_out t) =? ifindex) then
        let count := u16 (count - 1) in
        if count =? 0 then Fault
        else remove_dev_set ifindex done todo (u32 (normalizer - t_weight t))
               count (S removed)
      else remove_dev_set ifindex (done ++ [t]) todo normalizer count removed
  end.

Fixpoint remove_dev_sets (ifindex : Z) (sets : list target_set)
  : outcome (list target_set * nat) :=
  match sets with
  | [] => Ok ([], 0%nat)
  | s :: sets =>
      '(ts, norm, count, k) ← remove_dev_set ifindex [] (s_list s)
                                (s_normalizer s) (s_count s) 0;
      '(sets, k') ← remove_dev_sets ifindex sets;
      Ok (TargetSet ts norm (s_priority s) (s_flags s) count :: sets,
          (k + k')%nat)
  end.

Definition entry_remove_target_by_dev (l : positive) (ifindex : Z) : SM Z :=
  se ← load_se l;
  '(sets, k) ← liftO (remove_dev_sets ifindex (se_sets se));
  store_se l (se_with_sets sets (u32 (se_count se - Z.of_nat k)) se);;
  mret (Z.of_nat k).

(** ** Modifying *)
Definition target_with (weight : Z) (dst : list Z) (t : target) : target :=
  Target (t_type t) weight (t_packets_resolved t) (t_bytes_resolved t)
    (t_bytes_dropped t) (t_packets_dropped t) (t_out t) (t_dstlen t) dst.

Definition set_with_flags (flags : Z) (s : target_set) : target_set :=
  TargetSet (s_list s) (s_normalizer s) (s_priority s) flags (s_count s).

(** [if (new_dstlen == t->dstlen && new_dst) memcpy(...)]. *)
Definition new_dst_of (t : target) (new_dst : cptr) (new_dstlen : nat)
  : outcome (list Z) :=
  if (new_dstlen =? t_dstlen t)%nat && negb (is_null new_dst) then
    if decide (new_dstlen <= length (p_bytes new_dst))%nat
    then Ok (take new_dstlen (p_bytes new_dst)) else Fault
  else Ok (t_dst t).

(** Same priority: the weight and flags change in place. *)
Definition reweigh (ti : nat) (t t' : target) (flags : Z) (s : target_set)
  : target_set :=
  TargetSet (<[ti := t']> (s_list s))
    (u32 (u32 (s_normalizer s - t_weight t) + t_weight t'))
    (s_priority s) flags (s_count s).

Definition service_entry_modify_target (l : positive)
    (type : service_rule_type) (flags priority weight : Z) (dst : cptr)
    (dstlen : nat) (new_dst : cptr) (new_dstlen : nat) : SM Z :=
  if bool_decide (type = SERVICE_RULE_DEMUX) || (dstlen =? 0)%nat
  then mret (-1)
  else
    se ← load_se l;
    st ← getS;
    r ← liftO (service_entry_get_target (socks (env st)) (se_sets se) type dst
                 dstlen MATCH_NO_PROTOCOL);
    match r with
    | None => mret 0
    | Some pos =>
        s ← derefM (se_sets se !! pos.1);
        t ← derefM (s_list s !! pos.2);
        d ← liftO (new_dst_of t new_dst new_dstlen);
        (* the destination is overwritten before the set may fail to be
           allocated *)
        let t1 := target_with (t_weight t) d t in
        let sets1 := <[pos.1 := TargetSet (<[pos.2 := t1]> (s_list s))
                        (s_normalizer s) (s_priority s) (s_flags s)
                        (s_count s)]> (se_sets se) in
        let t' := target_with weight d t in
        if s_priority s =? priority then
          store_se l (se_with_sets
            (alter (reweigh pos.2 t1 t' flags) pos.1 sets1) (se_count se) se);;
          mret 1
        else
          r ← get_or_create_set sets1 flags priority;
          match r with
          | None => store_se l (se_with_sets sets1 (se_count se) se);;
                    mret (- ENOMEM)
          | Some sets2 =>
              i ← derefM (get_target_set (s_priority s) sets2);
              '(_, rest, sets3) ← derefM (remove_at sets2 (i, pos.2));
              liftE (free_targets rest);;
              store_se l (se_with_sets
                (on_priority (fun ns => set_with_flags flags
                                (target_set_add_target t' ns)) priority sets3)
                (se_count se) se);;
              mret 1
          end
    end.

(** ** Statistics *)
Definition target_add_stats (packets bytes : Z) (t : target) : target :=
  if 0 <? packets then
    Target (t_type t) (t_weight t) (s32 (t_packets_resolved t + packets))
      (s32 (t_bytes_resolved t + bytes)) (t_bytes_dropped t)
      (t_packets_dropped t) (t_out t) (t_dstlen t) (t_dst t)
  else
    Target (t_type t) (t_weight t) (t_packets_resolved t) (t_bytes_resolved t)
      (s32 (t_bytes_dropped t - bytes)) (s32 (t_packets_dropped t - packets))
      (t_out t) (t_dstlen t) (t_dst t).
Definition se_add_stats (packets bytes : Z) (se : service_entry)
  : service_entry :=
  if 0 <? packets then
    ServiceEntry (se_node se) (se_sets se) (se_count se)
      (s32 (se_packets_resolved se + packets))
      (s32 (se_bytes_resolved se + bytes)) (se_bytes_dropped se)
      (se_packets_dropped se) (se_refcnt se) (se_readers se)
  else
    ServiceEntry (se_node se) (se_sets se) (se_count se)
      (se_packets_resolved se) (se_bytes_resolved se)
      (s32 (se_bytes_dropped se - bytes)) (s32 (se_packets_dropped se - packets))
      (se_refcnt se) (se_readers se).
Definition tb_add_stats (packets bytes : Z) (e : senv) : senv :=
  if 0 <? packets then
    SEnv (ses e) (socks e) (next_se e) (services e)
      (s32 (tb_bytes_resolved e + bytes)) (s32 (tb_packets_resolved e + packets))
      (tb_bytes_dropped e) (tb_packets_dropped e)
  else
    SEnv (ses e) (socks e) (next_se e) (services e) (tb_bytes_resolved e)
      (tb_packets_resolved e) (s32 (tb_bytes_dropped e - bytes))
      (s32 (tb_packets_dropped e - packets)).

Definition set_update_target (f : target -> target) (ti : nat)
    (s : target_set) : target_set :=
  TargetSet (alter f ti (s_list s)) (s_normalizer s) (s_priority s)
    (s_flags s) (s_count s).
Definition update_target (f : target -> target) (pos : nat * nat)
    (sets : list target_set) : list target_set :=
  alter (set_update_target f pos.2) pos.1 sets.

(** The counters of a target, of its entry and of the table. *)
Definition add_stats_at (l : positive) (pos : nat * nat) (packets bytes : Z)
  : SM unit :=
  se ← load_se l;
  _ ← derefM (target_at (se_sets se) pos);
  store_se l (se_add_stats packets bytes
    (se_with_sets (update_target (target_add_stats packets bytes) pos
                     (se_sets se)) (se_count se) se));;
  modE (tb_add_stats packets bytes).

Definition service_entry_inc_target_stats (l : positive)
    (type : service_rule_type) (dst : cptr) (dstlen : nat)
    (packets bytes : Z) : SM unit :=
  se ← load_se l;
  st ← getS;
  r ← liftO (service_entry_get_target (socks (env st)) (se_sets se) type dst
               dstlen MATCH_NO_PROTOCOL);
  match r with
  | None => mret tt
  | Some pos => add_stats_at l pos packets bytes
  end.

(** ** Iterators

    [it_pos] and [it_last_pos] are positions; a target index equal to the
    length of the list is the list head itself, which is not a target. *)
Inductive iter_mode :=
| SERVICE_ITER_ALL
| SERVICE_ITER_DEMUX
| SERVICE_ITER_FORWARD
| SERVICE_ITER_ANYCAST.
#[export] Instance iter_mode_eq_dec : EqDecision iter_mode.
Proof. solve_decision. Defined.

Record service_iter := ServiceIter {
  i_entry : positive;
  i_mode : iter_mode;
  i_set : option nat;
  i_pos : option (nat * nat);
  i_last_pos : option (nat * nat);
}.

Definition SVSF_MULTICAST : Z := Z.shiftl 1 5.
Definition RAND_MAX : Z := 2147483647.
Definition SAMPLE_SHIFT : Z := 32.

(** The sample drawn from [random()], scaled by the normalizer in 64 bits. *)
Definition draw_sample (random normalizer : Z) : Z :=
  u64 (u64 (Z.shiftl random SAMPLE_SHIFT) / RAND_MAX * normalizer).

Fixpoint pick_sample (sample : Z) (ts : list target) (sumweight : Z)
    (ti : nat) : nat :=
  match ts with
  | [] => ti
  | t :: ts =>
      let sumweight := u64 (sumweight + u64 (Z.shiftl (t_weight t) SAMPLE_SHIFT)) in
      if sample <=? sumweight then ti else pick_sample sample ts sumweight (S ti)
  end.

Definition service_iter_init (l : positive) (mode : iter_mode) (random : Z)
  : SM (Z * service_iter) :=
  se ← load_se l;
  let iter := ServiceIter l mode None None None in
  store_se l (se_with_readers (se_readers se + 1) se);;
  match se_sets se with
  | [] => mret (-1, iter)
  | set :: _ =>
      if se_count se =? 0 then mret (-1, iter)
      else if bool_decide (mode = SERVICE_ITER_ANYCAST)
              && negb (Z.land (s_flags set) SVSF_MULTICAST =? 0)
      then mret (-1, iter)
      else if bool_decide (mode = SERVICE_ITER_ANYCAST) then
        let ti := pick_sample (draw_sample random (s_normalizer set))
                    (s_list set) 0 0 in
        mret (0, ServiceIter l mode None (Some (0%nat, ti)) None)
      else mret (0, ServiceIter l mode (Some 0%nat) (Some (0%nat, 0%nat)) None)
  end.

Definition service_iter_destroy (iter : service_iter) : SM unit :=
  se ← load_se (i_entry iter);
  store_se (i_entry iter) (se_with_readers (se_readers se - 1) se).

Definition mode_accepts (mode : iter_mode) (t : target) : bool :=
  match mode with
  | SERVICE_ITER_ALL => true
  | SERVICE_ITER_DEMUX => bool_decide (t_type t = SERVICE_RULE_DEMUX)
  | SERVICE_ITER_FORWARD => bool_decide (t_type t = SERVICE_RULE_FORWARD)
  | SERVICE_ITER_ANYCAST => false
  end.

(** The loop of [service_iter_next] over the rest of the set: the position of
    the next accepted target, and where the iterator stands afterwards. *)
Fixpoint iter_scan (mode : iter_mode) (ts : list target) (ti : nat)
  : option nat * nat :=
  match ts with
  | [] => (None, ti)
  | t :: ts =>
      if mode_accepts mode t then (Some ti, S ti) else iter_scan mode ts (S ti)
  end.

(** Returns the position of the target. *)
Definition service_iter_next (iter : service_iter)
  : SM (option (nat * nat) * service_iter) :=
  se ← load_se (i_entry iter);
  let upd pos := ServiceIter (i_entry iter) (i_mode iter) (i_set iter) pos
                   (i_pos iter) in
  match i_pos iter with
  | None => mret (None, upd None)
  | Some (si, ti) =>
      match i_set iter with
      | None => mret (Some (si, ti), upd None)
      | Some _ =>
          s ← derefM (se_sets se !! si);
          let '(r, ti') := iter_scan (i_mode iter) (drop ti (s_list s)) ti in
          mret (pair si <$> r, upd (Some (si, ti')))
      end
  end.

Definition service_iter_inc_stats (iter : service_iter) (packets bytes : Z)
  : SM unit :=
  if 0 <? packets then
    match i_last_pos iter with
    | None => mret tt
    | Some pos => add_stats_at (i_entry iter) pos packets bytes
    end
  else
    match i_last_pos iter with
    | Some pos => add_stats_at (i_entry iter) pos packets bytes
    | None =>
        se ← load_se (i_entry iter);
        store_se (i_entry iter) (se_add_stats packets bytes se);;
        modE (tb_add_stats packets bytes)
    end.

Definition iter_set_field (f : target_set -> Z) (iter : service_iter) : SM Z :=
  match i_last_pos iter, i_set iter with
  | Some _, Some si =>
      se ← load_se (i_entry iter);
      s ← derefM (se_sets se !! si);
      mret (f s)
  | _, _ => mret 0
  end.
Definition service_iter_get_priority (iter : service_iter) : SM Z :=
  iter_set_field (fun s => s32 (s_priority s)) iter.
Definition service_iter_get_flags (iter : service_iter) : SM Z :=
  iter_set_field s_flags iter.
