(* ===== verification/ServiceTable.v ===== *)
(** * The service table (src/stack/service.c lines 570-661 and 1097-1681)

    The table is the trie whose private data are service entries, with the
    counters of [srvtable].  Its read-write lock is not represented: every
    operation below runs under it, so operations are atomic steps. *)
From S2P Require Import Prelude Bst ServiceEntry.
Local Open Scope Z_scope.

Definition SERVICE_ID_SIZE : nat := 32.
Definition default_service : list Z := replicate SERVICE_ID_SIZE 0.
Definition is_default (srvid : list Z) : bool :=
  bool_decide (take SERVICE_ID_SIZE srvid = default_service).

(** [get_service(n)]: the entry address at a node. *)
Definition get_service (n : positive) : SM positive :=
  p ← bst_node_get_private n; derefM p.

Definition srv_ops : option Ops := Some tt.

(** ** Lookup *)
Inductive rule_match :=
| RULE_MATCH_LOCAL
| RULE_MATCH_GLOBAL
| RULE_MATCH_ANY
| RULE_MATCH_EXACT.
#[export] Instance rule_match_eq_dec : EqDecision rule_match.
Proof. solve_decision. Defined.

Definition service_entry_local_match (n : positive) : SM bool :=
  l ← get_service n;
  se ← load_se l;
  st ← getS;
  r ← liftO (service_entry_get_target (socks (env st)) (se_sets se)
               SERVICE_RULE_DEMUX NULLPTR 0 MATCH_ANY_PROTOCOL);
  match r with
  | Some pos =>
      t ← derefM (target_at (se_sets se) pos); mret (negb (t_out t =? 0))
  | None => mret false
  end.

Definition service_entry_global_match (n : positive) : SM bool :=
  l ← get_service n;
  se ← load_se l;
  st ← getS;
  r ← liftO (service_entry_get_target (socks (env st)) (se_sets se)
               SERVICE_RULE_FORWARD NULLPTR 0 MATCH_NO_PROTOCOL);
  mret (is_set r).

Definition service_entry_any_match (n : positive) : SM bool := mret true.

Definition match_func (m : rule_match) : positive -> SM bool :=
  match m with
  | RULE_MATCH_LOCAL => service_entry_local_match
  | RULE_MATCH_GLOBAL | RULE_MATCH_EXACT => service_entry_global_match
  | RULE_MATCH_ANY => service_entry_any_match
  end.

(** The entry found is returned with a reference held. *)
Definition service_table_find (srvid : option (list Z)) (prefix : nat)
    (m : rule_match) : SM (option positive) :=
  match srvid with
  | None => mret None
  | Some srvid =>
      n ← bst_find_longest_prefix_match srvid prefix (Some (match_func m));
      match n with
      | None => mret None
      | Some n =>
          bits ← bst_node_get_prefix_bits n;
          if negb (bool_decide (m = RULE_MATCH_EXACT)) || (bits =? prefix)%nat
          then l ← get_service n; liftE (service_entry_hold l);; mret (Some l)
          else mret None
      end
  end.

Definition service_find (srvid : option (list Z)) (prefix : nat)
  : SM (option positive) := service_table_find srvid prefix RULE_MATCH_ANY.
Definition service_find_exact (srvid : option (list Z)) (prefix : nat)
  : SM (option positive) := service_table_find srvid prefix RULE_MATCH_EXACT.

Definition service_table_find_sock (srvid : option (list Z)) (prefix : nat)
    (protocol : Z) : SM (option Z) :=
  l ← service_table_find srvid prefix RULE_MATCH_LOCAL;
  match l with
  | None => mret None
  | Some l =>
      se ← load_se l;
      st ← getS;
      r ← liftO (service_entry_get_target (socks (env st)) (se_sets se)
                   SERVICE_RULE_DEMUX NULLPTR 0 protocol);
      sk ← match r with
           | Some pos =>
               t ← derefM (target_at (se_sets se) pos);
               liftE (sock_hold (t_out t));; mret (Some (t_out t))
           | None => mret None
           end;
      liftE (service_entry_put l);;
      mret sk
  end.

(** ** Identity and counters *)
Definition service_get_id (l : option positive) : SM (Z * list Z) :=
  match l with
  | None => mret (-1, [])
  | Some l =>
      se ← load_se l;
      n ← derefM (se_node se);
      p ← bst_node_get_prefix n;
      size ← bst_node_get_prefix_size n;
      if decide (size <= SERVICE_ID_SIZE /\ size <= length p)%nat then
        mret (0, take size p ++ replicate (SERVICE_ID_SIZE - size) 0)
      else faultM
  end.

Definition service_get_prefix_bits (l : positive) : SM Z :=
  se ← load_se l;
  n ← derefM (se_node se);
  bits ← bst_node_get_prefix_bits n;
  mret (u8 (Z.of_nat bits)).

Record table_stats := TableStats {
  tb_services : Z; st_bytes_resolved : Z; st_packets_resolved : Z;
  st_bytes_dropped : Z; st_packets_dropped : Z;
}.
Definition service_table_get_stats : SM table_stats :=
  e ← gets env;
  mret (TableStats (services e) (u32 (tb_bytes_resolved e))
          (u32 (tb_packets_resolved e)) (u32 (tb_bytes_dropped e))
          (u32 (tb_packets_dropped e))).

Definition service_inc_stats (packets bytes : Z) : SM unit :=
  if packets <? 0 then modE (tb_add_stats packets bytes) else mret tt.

(** ** Modifying and adding *)
Definition table_bits (srvid : list Z) (prefix_bits : nat) : nat :=
  if is_default srvid then 0%nat else prefix_bits.

Definition service_table_modify (srvid : option (list Z)) (prefix_bits : nat)
    (type : service_rule_type) (flags priority weight : Z) (dst : cptr)
    (dstlen : nat) (new_dst : cptr) (new_dstlen : nat) : SM Z :=
  match srvid with
  | None => mret (- EINVAL)
  | Some srvid =>
      let prefix_bits := table_bits srvid prefix_bits in
      n ← bst_find_longest_prefix srvid prefix_bits;
      match n with
      | None => mret (- EINVAL)
      | Some n =>
          bits ← bst_node_get_prefix_bits n;
          if (prefix_bits <=? bits)%nat then
            l ← get_service n;
            service_entry_modify_target l type flags priority weight dst dstlen
              new_dst new_dstlen
          else mret (- EINVAL)
      end
  end.

Definition weight_or_1 (weight : Z) : Z := if weight =? 0 then 1 else weight.

Definition service_modify (srvid : option (list Z)) (prefix_bits : nat)
    (type : service_rule_type) (flags priority weight : Z) (dst : cptr)
    (dstlen : nat) (new_dst : cptr) (new_dstlen : nat) : SM Z :=
  service_table_modify srvid prefix_bits type flags priority
    (weight_or_1 weight) dst dstlen new_dst new_dstlen.

(** The check of the rule's arguments at the head of [service_table_add]. *)
Definition add_args_ok (type : service_rule_type) (dst : cptr) (dstlen : nat)
  : bool :=
  match type with
  | SERVICE_RULE_UNDEFINED => false
  | SERVICE_RULE_FORWARD => negb ((dstlen =? 0)%nat || is_null dst)
  | SERVICE_RULE_DEMUX => negb (0 <? dstlen)%nat
  | SERVICE_RULE_DELAY | SERVICE_RULE_DROP => true
  end.

(** The loop that looks for a duplicate, or a DROP or DELAY target. *)
Fixpoint dup_loop (fuel : nat) (iter : service_iter) (target : option (nat * nat))
    (type : service_rule_type) (dst : cptr) (dstlen : nat)
  : SM (bool * service_iter) :=
  match target with
  | None => mret (false, iter)
  | Some pos =>
      match fuel with
      | O => nofuelM
      | S fuel =>
          se ← load_se (i_entry iter);
          t ← derefM (target_at (se_sets se) pos);
          b ← liftO (is_target t type dst dstlen);
          if b || bool_decide (t_type t = SERVICE_RULE_DROP)
             || bool_decide (t_type t = SERVICE_RULE_DELAY)
          then mret (true, iter)
          else
            '(target, iter) ← service_iter_next iter;
            dup_loop fuel iter target type dst dstlen
      end
  end.

Definition n_targets (sets : list target_set) : nat :=
  sum_list (map (fun s => length (s_list s)) sets).

(** Does the entry already hold such a target (or one that excludes others)? *)
Definition check_dup (l : positive) (type : service_rule_type) (dst : cptr)
    (dstlen : nat) : SM bool :=
  se ← load_se l;
  '(_, iter) ← service_iter_init l SERVICE_ITER_ALL 0;
  '(target, iter) ← service_iter_next iter;
  '(dup, iter) ← dup_loop (S (n_targets (se_sets se))) iter target type dst
                   dstlen;
  service_iter_destroy iter;;
  mret dup.

(** A fresh entry with one reference. *)
Definition service_entry_create : SM (option positive) := fun st =>
  let '(ok, st) := alloc_ok st in
  if ok then
    let e := env st in
    let l := next_se e in
    Ok (Some l, set_env
      (SEnv (<[l := ServiceEntry None [] 0 0 0 0 0 1 0]> (ses e)) (socks e)
         (Pos.succ l) (services e) (tb_bytes_resolved e)
         (tb_packets_resolved e) (tb_bytes_dropped e) (tb_packets_dropped e)) st)
  else Ok (None, st).

(** The branch of [service_table_add] that makes a new entry. *)
Definition add_new_entry (srvid : list Z) (prefix_bits : nat)
    (type : service_rule_type) (flags priority weight : Z) (dst : cptr)
    (dstlen : nat) (out : target_out) : SM Z :=
  se ← service_entry_create;
  match se with
  | None => mret (- ENOMEM)
  | Some l =>
      ret ← service_entry_add_target l type flags priority weight dst dstlen out;
      if ret <? 0 then liftE (service_entry_put l);; mret (- ENOMEM)
      else
        n ← bst_insert_prefix srv_ops (Some l) srvid prefix_bits;
        se ← load_se l;
        store_se l (se_with_node n se);;
        match n with
        | None => liftE (service_entry_put l);; mret (- ENOMEM)
        | Some _ =>
            modE (fun e => env_with_services (u32 (services e + 1)) e);; mret ret
        end
  end.

Definition service_table_add (srvid : option (list Z)) (prefix_bits : nat)
    (type : service_rule_type) (flags priority weight : Z) (dst : cptr)
    (dstlen : nat) (out : target_out) : SM Z :=
  match srvid with
  | None => mret (- EINVAL)
  | Some srvid =>
      if negb (add_args_ok type dst dstlen) then mret (- EINVAL)
      else
        let prefix_bits := table_bits srvid prefix_bits in
        n ← bst_find_longest_prefix srvid prefix_bits;
        exact ← match n with
                | None => mret false
                | Some n => bits ← bst_node_get_prefix_bits n;
                            mret (prefix_bits <=? bits)%nat
                end;
        match n, exact with
        | Some n, true =>
            l ← get_service n;
            dup ← check_dup l type dst dstlen;
            if dup : bool then mret (- EEXIST)
            else if negb (is_null dst) || (dstlen =? 0)%nat then
              service_entry_add_target l type flags priority weight dst dstlen
                out
            else mret 0
        | _, _ => add_new_entry srvid prefix_bits type flags priority weight dst
                    dstlen out
        end
  end.

Definition service_add (srvid : option (list Z)) (prefix_bits : nat)
    (type : service_rule_type) (flags priority weight : Z) (dst : cptr)
    (dstlen : nat) (out : target_out) : SM Z :=
  service_table_add srvid prefix_bits type flags priority (weight_or_1 weight)
    dst dstlen out.

(** ** Deleting *)
Definition service_dec : SM unit :=
  modE (fun e => env_with_services (u32 (services e - 1)) e).

Definition service_table_del (srvid : list Z) (prefix_bits : nat) : SM unit :=
  ret ← bst_remove_prefix srvid prefix_bits;
  if 0 <? ret then service_dec else mret tt.

(** The common body of the functions that drop targets of the entry [l] at
    node [n]: release the node when [test] of the result says so and no set is
    left. *)
Definition drop_targets {A} (l : positive) (n : SM positive)
    (remove : SM (Z * A)) (test : Z -> bool) : SM (Z * A) :=
  liftE (service_entry_hold l);;
  '(ret, a) ← remove;
  se ← load_se l;
  (match se_sets se with
   | [] => if test ret then n ← n; bst_node_release n;; service_dec else mret tt
   | _ :: _ => mret tt
   end);;
  liftE (service_entry_put l);;
  mret (ret, a).

(** [service_entry_remove_target_by_dev] and [service_entry_remove_target]:
    the node is that of the entry. *)
Definition entry_node (l : positive) : SM positive :=
  se ← load_se l; derefM (se_node se).

Definition service_entry_remove_target_by_dev (l : positive) (ifindex : Z)
  : SM Z :=
  '(ret, _) ← drop_targets l (entry_node l)
                (r ← entry_remove_target_by_dev l ifindex; mret (r, tt))
                (fun ret => 0 <? ret);
  mret ret.

Definition service_entry_remove_target (l : positive)
    (type : service_rule_type) (dst : cptr) (dstlen : nat)
  : SM (Z * option target_stats) :=
  drop_targets l (entry_node l) (entry_remove_target l type dst dstlen)
    (fun ret => 0 <? ret).

(** The statistics written through [stats], if any target was removed. *)
Definition service_table_del_target (srvid : list Z) (prefix_bits : nat)
    (type : service_rule_type) (dst : cptr) (dstlen : nat)
  : SM (option target_stats) :=
  n ← bst_find_longest_prefix srvid prefix_bits;
  match n with
  | None => mret None
  | Some n =>
      l ← get_service n;
      '(_, stats) ← drop_targets l (mret n)
                      (entry_remove_target l type dst dstlen)
                      (fun ret => 0 <? ret);
      mret stats
  end.

Definition del_dev_func (ifindex : Z) (n : positive) : SM Z :=
  l ← get_service n;
  '(ret, _) ← drop_targets l (mret n)
                (r ← entry_remove_target_by_dev l ifindex; mret (r, tt))
                (fun ret => ret =? 1);
  mret ret.

Definition service_table_del_dev_all (ifindex : Z) : SM Z :=
  r ← gets root;
  match r with
  | None => mret 0
  | Some r => bst_subtree_func r (del_dev_func ifindex)
  end.

Definition del_target_func (type : service_rule_type) (dst : cptr)
    (dstlen : nat) (n : positive) : SM Z :=
  l ← get_service n;
  '(ret, _) ← drop_targets l (mret n) (entry_remove_target l type dst dstlen)
                (fun ret => ret =? 1);
  mret ret.

Definition service_table_del_target_all (type : service_rule_type)
    (dst : cptr) (dstlen : nat) : SM Z :=
  r ← gets root;
  match r with
  | None => mret 0
  | Some r => bst_subtree_func r (del_target_func type dst dstlen)
  end.

(** ** Initialisation and destruction *)
Definition service_table_destroy : SM unit := bst_destroy.

Definition service_table_init : SM unit :=
  _ ← bst_init;
  modE (fun e => SEnv (ses e) (socks e) (next_se e) 0 0 0 0 0).

Definition service_table_iterator_init : SM bst_iterator := bst_iterator_init.
Definition service_table_iterator_next (iter : bst_iterator)
  : SM (option positive * bst_iterator) :=
  '(n, iter) ← bst_iterator_next iter;
  match n with
  | None => mret (None, iter)
  | Some n => p ← bst_node_get_private n; mret (p, iter)
  end.
