(* ===== verification/ServiceInv.v ===== *)
(** * The invariant of a service entry

    Sets are in strictly decreasing priority, none is empty, and the counters
    of a set are the number and the total weight of its targets.  Seen from
    outside an entry is a bag of prioritised targets ([flat]). *)
From S2P Require Import Prelude Bst ServiceEntry ServiceTable.
Local Open Scope Z_scope.

Definition sum_weights (ts : list target) : Z :=
  foldr (fun t z => t_weight t + z) 0 ts.

Lemma sum_weights_app a b : sum_weights (a ++ b) = sum_weights a + sum_weights b.
Proof. induction a as [|t a IH]; simpl; lia. Qed.

Definition set_ok (s : target_set) : Prop :=
  s_list s <> [] /\ s_count s = u16 (Z.of_nat (length (s_list s))) /\
  s_normalizer s = u32 (sum_weights (s_list s)).

(** Priorities strictly decrease. *)
Definition above (s s' : target_set) : Prop := s_priority s' < s_priority s.
Definition sets_ok (sets : list target_set) : Prop :=
  StronglySorted above sets /\ Forall set_ok sets.

Definition entry_ok (se : service_entry) : Prop :=
  sets_ok (se_sets se) /\
  se_count se = u32 (Z.of_nat (n_targets (se_sets se))).

(** The bag of targets with their priorities. *)
Definition flat_set (s : target_set) : list (Z * target) :=
  pair (s_priority s) <$> s_list s.
Definition flat (sets : list target_set) : list (Z * target) :=
  sets ≫= flat_set.

Lemma flat_cons s sets : flat (s :: sets) = flat_set s ++ flat sets.
Proof. done. Qed.
Lemma flat_app a b : flat (a ++ b) = flat a ++ flat b.
Proof. apply bind_app. Qed.

Lemma length_flat sets : length (flat sets) = n_targets sets.
Proof.
  induction sets as [|s sets IH]; [done|].
  rewrite flat_cons, length_app, IH. unfold flat_set. by rewrite length_fmap.
Qed.

(** Wrap-around arithmetic under the counters. *)
Lemma u16_add z k : u16 (u16 z + k) = u16 (z + k).
Proof. unfold u16. by rewrite Zplus_mod_idemp_l. Qed.
Lemma u16_sub z k : u16 (u16 z - k) = u16 (z - k).
Proof. unfold u16. by rewrite Zminus_mod_idemp_l. Qed.
Lemma u32_add z k : u32 (u32 z + k) = u32 (z + k).
Proof. unfold u32. by rewrite Zplus_mod_idemp_l. Qed.
Lemma u32_sub z k : u32 (u32 z - k) = u32 (z - k).
Proof. unfold u32. by rewrite Zminus_mod_idemp_l. Qed.

(** ** Finding a set by priority *)
Lemma get_target_set_Some p sets i :
  get_target_set p sets = Some i ->
  exists s, sets !! i = Some s /\ s_priority s = p.
Proof.
  revert i. induction sets as [|s sets IH]; intros i; simpl; [done|].
  destruct (Z.eqb_spec (s_priority s) p).
  - intros [= <-]. eauto.
  - destruct (get_target_set p sets); intros [= <-]; simpl. eauto.
Qed.

Lemma get_target_set_None p sets :
  get_target_set p sets = None <-> Forall (fun s => s_priority s <> p) sets.
Proof.
  induction sets as [|s sets IH]; simpl; [split; auto|].
  rewrite Forall_cons, <-IH. destruct (Z.eqb_spec (s_priority s) p).
  - naive_solver.
  - destruct (get_target_set p sets); naive_solver.
Qed.

Lemma get_target_set_split p sets i :
  get_target_set p sets = Some i ->
  exists a s b, sets = a ++ s :: b /\ length a = i /\ s_priority s = p.
Proof.
  intros (s & Hs & Hp)%get_target_set_Some.
  destruct (list_elem_of_split_length _ _ _ Hs) as (a & b & -> & ->).
  exists a, s, b. auto.
Qed.

Lemma alter_split {A} (f : A -> A) a x b :
  alter f (length a) (a ++ x :: b) = a ++ f x :: b.
Proof. induction a; simpl; by f_equal. Qed.

Lemma sorted_mid a s b s' :
  StronglySorted above (a ++ s :: b) -> s_priority s' = s_priority s ->
  StronglySorted above (a ++ s' :: b).
Proof.
  intros Hs Hp. induction a as [|x a IH]; simpl in *.
  - apply StronglySorted_inv in Hs as [Hs Hf]. constructor; [done|].
    eapply Forall_impl; [exact Hf|]. unfold above. by rewrite Hp.
  - apply StronglySorted_inv in Hs as [Hs Hf]. constructor; [by apply IH|].
    apply Forall_app in Hf as [? [? ?]%Forall_cons]. apply Forall_app. split; [done|].
    constructor; [|done]. unfold above in *. by rewrite Hp.
Qed.

Lemma sorted_drop a s b :
  StronglySorted above (a ++ s :: b) -> StronglySorted above (a ++ b).
Proof.
  intros Hs. induction a as [|x a IH]; simpl in *.
  - by apply StronglySorted_inv in Hs as [? _].
  - apply StronglySorted_inv in Hs as [Hs Hf]. constructor; [by apply IH|].
    apply Forall_app in Hf as [? [? ?]%Forall_cons]. by apply Forall_app.
Qed.

(** ** Inserting a set *)
Lemma insert_target_set_perm s sets : insert_target_set s sets ≡ₚ s :: sets.
Proof.
  induction sets as [|x sets IH]; simpl; [done|].
  destruct (s_priority x <? s_priority s); [done|].
  rewrite IH. apply Permutation_swap.
Qed.

Lemma insert_target_set_sorted s sets :
  StronglySorted above sets -> Forall (fun x => s_priority x <> s_priority s) sets ->
  StronglySorted above (insert_target_set s sets).
Proof.
  induction sets as [|x sets IH]; simpl; intros Hs Hf.
  - repeat constructor.
  - apply StronglySorted_inv in Hs as [Hs Hx]. apply Forall_cons in Hf as [Hne Hf].
    destruct (Z.ltb_spec (s_priority x) (s_priority s)).
    + constructor; [by constructor|]. constructor; [done|].
      eapply Forall_impl; [exact Hx|]. unfold above. intros; lia.
    + constructor; [by apply IH|]. rewrite insert_target_set_perm.
      constructor; [unfold above; lia|done].
Qed.

Lemma insert_then_found s sets :
  get_target_set (s_priority s) sets = None ->
  exists a b, insert_target_set s sets = a ++ s :: b /\ sets = a ++ b /\
    get_target_set (s_priority s) (insert_target_set s sets) = Some (length a).
Proof.
  induction sets as [|x sets IH]; simpl.
  - intros _. exists [], []. simpl. by rewrite Z.eqb_refl.
  - destruct (Z.eqb_spec (s_priority x) (s_priority s)) as [|Hne]; [done|].
    destruct (get_target_set (s_priority s) sets) eqn:Hg; [done|]. intros _.
    destruct (s_priority x <? s_priority s); simpl.
    + exists [], (x :: sets). simpl. by rewrite Z.eqb_refl.
    + destruct IH as (a & b & -> & -> & Hf); [done|]. exists (x :: a), b. simpl.
      rewrite (proj2 (Z.eqb_neq _ _)), Hf by done. done.
Qed.

(** ** Adding a target to the set of a priority *)
Lemma add_set_ok t s :
  s_count s = u16 (Z.of_nat (length (s_list s))) ->
  s_normalizer s = u32 (sum_weights (s_list s)) ->
  set_ok (target_set_add_target t s).
Proof.
  intros Hc Hn. unfold set_ok, target_set_add_target; simpl. split_and!.
  - by destruct (s_list s).
  - rewrite Hc, u16_add, length_app. simpl. f_equal. lia.
  - rewrite Hn, u32_add, sum_weights_app. simpl. f_equal. lia.
Qed.

(** The sets after the priority's set was found or made, and [t] appended. *)
Definition add_to (flags priority : Z) (t : target) (sets : list target_set)
  : list target_set :=
  on_priority (target_set_add_target t) priority
    (match get_target_set priority sets with
     | Some _ => sets
     | None => insert_target_set (TargetSet [] 0 priority flags 0) sets
     end).

Lemma add_to_ok flags priority t sets :
  sets_ok sets -> sets_ok (add_to flags priority t sets) /\
  flat (add_to flags priority t sets) ≡ₚ (priority, t) :: flat sets.
Proof.
  intros [Hs Hf]. unfold add_to, on_priority.
  destruct (get_target_set priority sets) as [i|] eqn:Hg.
  - rewrite Hg. destruct (get_target_set_split _ _ _ Hg) as (a & s & b & -> & <- & Hp).
    rewrite alter_split. apply Forall_app in Hf as [Fa [Hok Fb]%Forall_cons].
    split; [split|].
    + by eapply sorted_mid.
    + apply Forall_app. split; [done|]. constructor; [|done].
      apply add_set_ok; apply Hok.
    + rewrite !flat_app, !flat_cons. unfold flat_set. simpl.
      rewrite fmap_app, Hp. simpl. solve_Permutation.
  - set (ns := TargetSet [] 0 priority flags 0).
    destruct (insert_then_found ns sets Hg) as (a & b & He & -> & Hf').
    simpl in Hf'. rewrite Hf', He, alter_split.
    apply Forall_app in Hf as [Fa Fb]. split; [split|].
    + apply (sorted_mid a ns b); [|done]. rewrite <-He. apply insert_target_set_sorted; [done|].
      by apply get_target_set_None.
    + apply Forall_app. split; [done|]. constructor; [|done].
      by apply add_set_ok.
    + rewrite !flat_app, !flat_cons. simpl. solve_Permutation.
Qed.

(** ** Removing a target *)
Lemma remove_at_ok sets pos t :
  sets_ok sets -> Z.of_nat (n_targets sets) < 2 ^ 16 ->
  target_at sets pos = Some t ->
  exists p sets', remove_at sets pos = Some (t, [], sets') /\ sets_ok sets' /\
    (s_priority <$> sets !! pos.1) = Some p /\
    flat sets ≡ₚ (p, t) :: flat sets' /\
    (forall p', p' <> p ->
       Forall (fun s => s_priority s <> p') sets ->
       Forall (fun s => s_priority s <> p') sets').
Proof.
  intros [Hs Hf] Hsz Hat. destruct pos as [si ti]. unfold target_at, remove_at in *.
  simpl in *. destruct (sets !! si) as [s|] eqn:Hsi; [|done]. simpl in *.
  rewrite Hat. simpl.
  destruct (list_elem_of_split_length _ _ _ Hsi) as (a & b & -> & ->).
  destruct (list_elem_of_split_length _ _ _ Hat) as (x & y & Hl & ->).
  pose proof Hf as [Fa [(_ & Hc & Hn) Fb]%Forall_cons]%Forall_app.
  rewrite <-length_flat, flat_app, flat_cons, !length_app in Hsz.
  unfold flat_set in Hsz. rewrite length_fmap in Hsz.
  assert (delete (length x) (s_list s) = x ++ y) as Hdel.
  { rewrite Hl. apply (delete_middle x). }
  assert (Z.of_nat (length (x ++ y)) < 2 ^ 16) as Hxyb.
  { rewrite Hl, length_app in Hsz. simpl in Hsz. rewrite length_app. lia. }
  set (s' := target_set_remove_target (length x) t s).
  assert (s_count s' = Z.of_nat (length (x ++ y))) as Hc'.
  { subst s'. simpl. rewrite Hc, u16_sub, Hl, !length_app. simpl.
    rewrite Hl, length_app in Hsz. simpl in Hsz.
    unfold u16. rewrite Z.mod_small; lia. }
  exists (s_priority s).
  assert (forall l, flat_set (TargetSet (x ++ l ++ y) (s_normalizer s) (s_priority s)
            (s_flags s) (s_count s)) ≡ₚ (pair (s_priority s) <$> l) ++
            (pair (s_priority s) <$> (x ++ y))) as Hp.
  { intros l. unfold flat_set. simpl. rewrite !fmap_app. solve_Permutation. }
  assert (flat_set s ≡ₚ (s_priority s, t) :: (pair (s_priority s) <$> (x ++ y))) as Hfs.
  { unfold flat_set. rewrite Hl, !fmap_app. simpl. solve_Permutation. }
  destruct (Z.eqb_spec (s_count s') 0) as [H0|H0].
  - assert (x ++ y = []) as Hxy by (apply length_zero_iff_nil; lia).
    exists (a ++ b). subst s'. cbn [target_set_remove_target s_list].
    rewrite Hdel, Hxy, (delete_middle a). split_and!; [by simpl in H0; rewrite H0|split|done|..].
    + by eapply sorted_drop.
    + by apply Forall_app.
    + rewrite !flat_app, flat_cons, Hfs, Hxy. simpl. solve_Permutation.
    + intros p' _ [? [_ ?]%Forall_cons]%Forall_app. by apply Forall_app.
  - exists (a ++ s' :: b). rewrite insert_app_r_alt, Nat.sub_diag by lia.
    simpl. split_and!;
      [by rewrite (proj2 (Z.eqb_neq (u16 (s_count s - 1)) 0) H0)|split|done|..].
    + by eapply sorted_mid.
    + apply Forall_app. split; [done|]. constructor; [|done]. subst s'.
      unfold set_ok in *. simpl in *. rewrite Hdel. split_and!.
      * intros Hxy. rewrite Hxy in Hc'. simpl in *. lia.
      * rewrite Hc'. unfold u16. rewrite Z.mod_small; lia.
      * rewrite Hn, u32_sub, Hl, !sum_weights_app. simpl. f_equal. lia.
    + rewrite !flat_app, !flat_cons, Hfs.
      assert (flat_set s' = pair (s_priority s) <$> (x ++ y)) as ->.
      { unfold flat_set. subst s'. simpl. by rewrite Hdel. }
      solve_Permutation.
    + intros p' _ [? [? ?]%Forall_cons]%Forall_app. apply Forall_app. split; [done|].
      by constructor.
Qed.






