(* ===== verification/ServiceRefine.v ===== *)
(** * The service table against an abstract table of target bags

    Under the invariant [table_ok] the trie of entries is a finite map from
    bit prefixes to bags of prioritised targets ([bag]); the operations of
    service.c act on it as insertions and deletions. *)
From S2P Require Import Prelude Bst BstRep BstFind BstInsert BstRemove.
From S2P Require Import ServiceEntry ServiceTable ServiceInv.
Local Open Scope Z_scope.

(** ** Frames *)

(** The trie part of the state is the same. *)
Definition same_tree (st st' : bst) : Prop :=
  heap st' = heap st /\ root st' = root st /\ entries st' = entries st /\
  next_loc st' = next_loc st.

#[export] Instance same_tree_preorder : PreOrder same_tree.
Proof.
  unfold same_tree. split; [intros ?; by split_and!|].
  intros ???. naive_solver congruence.
Qed.

Lemma refines_same_tree st st' m : same_tree st st' -> refines st m -> refines st' m.
Proof.
  intros (Hh & Hr & He & Hn) (t & [R1 R2 R3 R4 R5] & Hm & Hsz).
  exists t. rewrite He. split_and!; try done. split; rewrite ?Hh, ?Hr, ?Hn; done.
Qed.

(** The sockets keep their protocols and stay alive. *)
Definition socks_le (a b : gmap Z sock) : Prop :=
  forall sk s, a !! sk = Some s ->
    exists s', b !! sk = Some s' /\ sk_protocol s' = sk_protocol s.

#[export] Instance socks_le_preorder : PreOrder socks_le.
Proof.
  split; [intros a sk s; eauto|]. intros a b c H1 H2 sk s Hs.
  destruct (H1 _ _ Hs) as (s1 & Hs1 & E1). destruct (H2 _ _ Hs1) as (s2 & Hs2 & E2).
  exists s2. split; [done|congruence].
Qed.

Lemma socks_le_insert a sk s s' :
  a !! sk = Some s -> sk_protocol s' = sk_protocol s -> socks_le a (<[sk := s']> a).
Proof.
  intros Hs Hp k x Hk. destruct (decide (k = sk)) as [->|Hne].
  - exists s'. rewrite lookup_insert_eq. split; [done|congruence].
  - exists x. by rewrite lookup_insert_ne.
Qed.

(** Addresses are only ever taken, and the counter of services kept. *)
Definition same_stats (e e' : senv) : Prop :=
  (next_se e <= next_se e')%positive /\ services e' = services e.

(** What the operations on one entry leave alone; [f] is the new entry map. *)
Record step_env (st st' : bst) (m : gmap positive service_entry) : Prop := {
  step_tree : same_tree st st';
  step_ses : ses (env st') = m;
  step_socks : socks_le (socks (env st)) (socks (env st'));
  step_stats : same_stats (env st) (env st');
}.

(** ** Targets and arguments *)

(** Addresses are IPv4 addresses (4 bytes); a socket target has a live
    socket. *)
Definition ADDR_LEN : nat := 4.
Definition target_ok (sks : gmap Z sock) (t : target) : Prop :=
  (t_type t = SERVICE_RULE_DEMUX ->
     is_Some (sks !! t_out t) /\ t_dstlen t = 0%nat /\ t_out t <> 0) /\
  (t_type t = SERVICE_RULE_FORWARD -> length (t_dst t) = ADDR_LEN) /\
  0 <= t_weight t < 2 ^ 32.
Definition targets_ok (sks : gmap Z sock) (sets : list target_set) : Prop :=
  Forall (fun pt => target_ok sks pt.2) (flat sets).

Lemma targets_ok_le a b sets : socks_le a b -> targets_ok a sets -> targets_ok b sets.
Proof.
  intros Hle H. eapply Forall_impl; [exact H|]. simpl. intros [p t] (H1 & H2 & H3). split; [|done].
  intros Hd. destruct (H1 Hd) as [[s Hs] H0]. destruct (Hle _ _ Hs) as (s' & ? & _).
  eauto.
Qed.

(** The destination argument of a rule: a live socket for [dstlen] 0, else a
    readable address. *)
Definition sock_live (e : senv) (sk : Z) : Prop :=
  exists s, socks e !! sk = Some s /\ 0 < sk_refcnt s < 2 ^ 31 - 1.
Definition args_ok (e : senv) (type : service_rule_type) (dst : cptr)
    (dstlen : nat) (out : target_out) : Prop :=
  match dstlen with
  | O => out <> 0 /\ sock_live e out /\ type <> SERVICE_RULE_FORWARD
  | S _ => dstlen = ADDR_LEN /\ (ADDR_LEN <= length (p_bytes dst))%nat /\
           type <> SERVICE_RULE_DEMUX
  end.

Lemma memcmp_ok sks t dst dstlen :
  target_ok sks t -> t_type t = SERVICE_RULE_FORWARD ->
  (dstlen <= ADDR_LEN)%nat -> (dstlen <= length (p_bytes dst))%nat ->
  exists b, memcmp_eq (t_dst t) (p_bytes dst) dstlen = Ok b.
Proof.
  intros (_ & H & _) Ht ? ?. unfold memcmp_eq. rewrite (H Ht), decide_True; eauto.
Qed.

(** A search terminates at the first position that passes. *)
Lemma find_first_ok {A} (f : A -> outcome bool) l : forall i,
  Forall (fun a => exists b, f a = Ok b) l ->
  exists r, find_first f l i = Ok r /\
    match r with
    | Some j => exists a, (i <= j)%nat /\ l !! (j - i)%nat = Some a /\ f a = Ok true
    | None => Forall (fun a => f a = Ok false) l
    end.
Proof.
  induction l as [|a l IH]; intros i Hf; simpl.
  { exists None. eauto. }
  apply Forall_cons in Hf as [[b Hb] Hf]. rewrite Hb. simpl. destruct b.
  - exists (Some i). split; [done|]. exists a. by rewrite Nat.sub_diag.
  - destruct (IH (S i) Hf) as (r & -> & Hr). exists r. split; [done|].
    destruct r as [j|]; [|by constructor]. destruct Hr as (a' & ? & Hl & ?).
    exists a'. split_and!; [lia| |done].
    by replace (j - i)%nat with (S (j - S i)) by lia.
Qed.

Lemma find_target_ok f sets : forall i,
  Forall (fun pt => exists b, f pt.2 = Ok b) (flat sets) ->
  exists r, find_target f sets i = Ok r /\
    match r with
    | Some (j, ti) => exists s t, (i <= j)%nat /\ sets !! (j - i)%nat = Some s /\
        s_list s !! ti = Some t /\ f t = Ok true
    | None => Forall (fun pt => f pt.2 = Ok false) (flat sets)
    end.
Proof.
  induction sets as [|s sets IH]; intros i Hf; cbn [find_target].
  { exists None. split; [done|]. constructor. }
  rewrite flat_cons in Hf. apply Forall_app in Hf as [Hs Hf].
  unfold flat_set in Hs. rewrite Forall_fmap in Hs.
  destruct (find_first_ok f (s_list s) 0 Hs) as (r & -> & Hr).
  unfold mbind, outcome_bind. destruct r as [ti|].
  - destruct Hr as (t & _ & Hl & Ht). rewrite Nat.sub_0_r in Hl.
    exists (Some (i, ti)). split; [done|]. exists s, t. by rewrite Nat.sub_diag.
  - destruct (IH (S i) Hf) as (r & -> & Hr'). exists r. split; [done|].
    destruct r as [[j ti]|].
    + destruct Hr' as (s' & t & ? & ? & ? & ?). exists s', t. split_and!; try done; [lia|].
      by replace (j - i)%nat with (S (j - S i)) by lia.
    + rewrite flat_cons. apply Forall_app. split; [|done].
      unfold flat_set. by rewrite Forall_fmap.
Qed.

(** Every target test of the table runs without fault on good targets. *)
Lemma target_matches_ok sks t type dst dstlen protocol :
  target_ok sks t ->
  (type = SERVICE_RULE_FORWARD -> is_null dst = false ->
     (dstlen <= ADDR_LEN)%nat /\ (dstlen <= length (p_bytes dst))%nat) ->
  exists b, target_matches sks t type dst dstlen protocol = Ok b.
Proof.
  intros Hok Hargs. unfold target_matches, is_target.
  destruct (decide (t_type t = type)) as [Ht|Ht].
  2: { rewrite bool_decide_false by done. simpl. eauto. }
  rewrite bool_decide_true by done. simpl.
  destruct type; simpl; eauto.
  - destruct (is_null dst) eqn:Hn; simpl; [eauto|].
    destruct Hargs as [H1 H2]; [done..|].
    destruct (memcmp_ok sks t dst dstlen) as [b ->]; try done. simpl.
    destruct b; simpl; eauto.
  - destruct (is_null dst || _); simpl; [|eauto].
    destruct Hok as (H & _). destruct (H Ht) as [[s ->] _]. eauto.
Qed.

Lemma get_target_ok sks sets type dst dstlen protocol :
  targets_ok sks sets ->
  (type = SERVICE_RULE_FORWARD -> is_null dst = false ->
     (dstlen <= ADDR_LEN)%nat /\ (dstlen <= length (p_bytes dst))%nat) ->
  exists r, service_entry_get_target sks sets type dst dstlen protocol = Ok r /\
    match r with
    | Some pos => exists t, target_at sets pos = Some t /\
        target_matches sks t type dst dstlen protocol = Ok true
    | None => Forall (fun pt =>
        target_matches sks pt.2 type dst dstlen protocol = Ok false) (flat sets)
    end.
Proof.
  intros Hok Hargs. unfold service_entry_get_target.
  destruct (find_target_ok (fun t => target_matches sks t type dst dstlen protocol)
              sets 0) as (r & -> & Hr).
  { eapply Forall_impl; [exact Hok|]. intros [p t] Ht. by apply target_matches_ok. }
  exists r. split; [done|]. destruct r as [[j ti]|]; [|done].
  destruct Hr as (s & t & _ & Hs & Ht & ?). exists t. split; [|done].
  unfold target_at. simpl. rewrite Nat.sub_0_r in Hs. by rewrite Hs.
Qed.

(** ** Running the primitives *)
Lemma load_se_Ok st l se : ses (env st) !! l = Some se -> load_se l st = Ok (se, st).
Proof. unfold load_se. by intros ->. Qed.
Lemma store_se_Ok st l se se' :
  ses (env st) !! l = Some se ->
  store_se l se' st =
  Ok (tt, set_env (env_with_ses (<[l := se']> (ses (env st))) (env st)) st).
Proof. unfold store_se. by intros ->. Qed.
Lemma liftE_Ok f st e : f (env st) = Ok e -> liftE f st = Ok (tt, set_env e st).
Proof. unfold liftE. by intros ->. Qed.

Lemma kmalloc_Ok st :
  exists ok st', kmalloc st = Ok (ok, st') /\ step_env st st' (ses (env st)) /\
    env st' = env st.
Proof.
  unfold kmalloc, alloc_ok. destruct (allocs st) as [|b al]; eexists _, _;
    (split; [done|]); (split; [|done]); (split; [by split_and!|done|simpl; reflexivity|done]).
Qed.

Lemma step_env_refl st : step_env st st (ses (env st)).
Proof. by split. Qed.
Lemma step_env_trans st1 st2 st3 m2 m3 :
  step_env st1 st2 m2 -> step_env st2 st3 m3 -> step_env st1 st3 m3.
Proof.
  intros [T1 S1 K1 [N1 V1]] [T2 S2 K2 [N2 V2]]. split; [by etrans|done|by etrans|].
  split; [lia|congruence].
Qed.

Lemma step_store st l se se' :
  ses (env st) !! l = Some se ->
  step_env st (set_env (env_with_ses (<[l := se']> (ses (env st))) (env st)) st)
    (<[l := se']> (ses (env st))).
Proof. intros _. split; [by split_and!|done|simpl; reflexivity|done]. Qed.

Lemma s32_small z : - 2 ^ 31 <= z < 2 ^ 31 -> s32 z = z.
Proof.
  intros H. unfold s32, u32. destruct (decide (0 <= z)).
  - rewrite Z.mod_small by lia. rewrite (proj2 (Z.ltb_lt _ _)); lia.
  - replace (z mod 2 ^ 32) with (z + 2 ^ 32)
      by (apply Z.mod_unique with (-1); lia).
    rewrite (proj2 (Z.ltb_ge _ _)); lia.
Qed.

(** Undoing the creation of a target. *)
Definition free_undoes (st : bst) (t : target) (e : senv) : Prop :=
  exists e', target_free t e = Ok e' /\ ses e' = ses e /\
    socks_le (socks (env st)) (socks e') /\ same_stats e e'.

Lemma hold_step st out s :
  socks (env st) !! out = Some s ->
  let e' := env_with_socks
    (<[out := Sock (sk_protocol s) (s32 (sk_refcnt s + 1))]> (socks (env st)))
    (env st) in
  liftE (sock_hold out) st = Ok (tt, set_env e' st) /\
  step_env st (set_env e' st) (ses (env st)).
Proof.
  intros Hs e'. split.
  - apply liftE_Ok. unfold sock_hold. by rewrite Hs.
  - split; [by split_and!|done| |done]. simpl. by eapply socks_le_insert.
Qed.

Lemma put_after_hold st out s t :
  socks (env st) !! out = Some s -> 0 < sk_refcnt s < 2 ^ 31 - 1 ->
  t_out t = out ->
  free_undoes st t (env_with_socks
    (<[out := Sock (sk_protocol s) (s32 (sk_refcnt s + 1))]> (socks (env st)))
    (env st)).
Proof.
  intros Hs Hr Ho. unfold free_undoes, target_free. rewrite Ho.
  destruct (is_sock_target t && negb (out =? 0)).
  - unfold sock_put. simpl. rewrite lookup_insert_eq. simpl.
    rewrite (s32_small (sk_refcnt s + 1)), s32_small by lia.
    rewrite (proj2 (Z.eqb_neq _ _)) by lia.
    eexists. split; [done|]. split_and!; try done. simpl.
    rewrite insert_insert_eq. by eapply socks_le_insert.
  - eexists. split; [done|]. split_and!; try done. simpl. by eapply socks_le_insert.
Qed.

Lemma target_free_ses t e e' m :
  target_free t e = Ok e' ->
  target_free t (env_with_ses m e) = Ok (env_with_ses m e').
Proof.
  unfold target_free, sock_put. destruct (_ && _); [|by intros [= <-]].
  simpl. destruct (socks e !! t_out t); [|done]. by intros [= <-].
Qed.

Lemma free_undoes_ses st t e m : free_undoes st t e -> free_undoes st t (env_with_ses m e).
Proof.
  intros (e' & Hf & Hs & Hle & [Hn Hv]). exists (env_with_ses m e').
  split; [by apply target_free_ses|]. done.
Qed.

(** The target a rule asks for. *)
Definition is_new_target (t : target) (type : service_rule_type) (weight : Z)
    (dst : cptr) (dstlen : nat) (out : target_out) : Prop :=
  t_type t = type /\ t_weight t = weight /\ t_dstlen t = dstlen /\
  t_dst t = take dstlen (p_bytes dst) /\
  t_out t = (if (dstlen =? 0)%nat then out else oif_of out).

Lemma target_create_ok st type dst dstlen out weight :
  args_ok (env st) type dst dstlen out -> 0 <= weight < 2 ^ 32 ->
  exists r st', target_create type dst dstlen out weight st = Ok (r, st') /\
    step_env st st' (ses (env st)) /\
    match r with
    | Some t => is_new_target t type weight dst dstlen out /\
        target_ok (socks (env st')) t /\ free_undoes st t (env st')
    | None => True
    end.
Proof.
  intros Hargs Hw. unfold target_create. unfold args_ok in Hargs.
  destruct dstlen as [|n].
  - destruct Hargs as (Hne & (s & Hs & Hr) & Ht). simpl.
    rewrite (proj2 (Z.eqb_neq _ _)) by done. simpl.
    destruct (kmalloc_Ok st) as (ok & st1 & Hk & Hstep & He).
    rewrite (bind_Ok _ _ _ _ _ Hk). destruct ok; simpl; [|eexists None, _; eauto].
    rewrite <-He in Hs. destruct (hold_step st1 out s Hs) as [Hrun Hst2].
    rewrite (bind_Ok _ _ _ _ _ Hrun). eexists (Some _), _. split; [done|].
    split; [rewrite <-He; rewrite <-He in Hstep; by eapply step_env_trans|].
    split; [by split_and!|]. split.
    + split; [|done]. simpl. intros _. rewrite lookup_insert_eq. eauto.
    + destruct (put_after_hold st1 out s
        (Target type weight 0 0 0 0 out 0 [])) as (e' & ? & ? & Hle & ?); try done.
      exists e'. split_and!; try done. by rewrite He in Hle.
  - destruct Hargs as (-> & Hl & Ht). simpl.
    destruct (kmalloc_Ok st) as (ok & st1 & Hk & Hstep & He).
    rewrite (bind_Ok _ _ _ _ _ Hk). destruct ok; simpl; [|eexists None, _; eauto].
    rewrite decide_True by done. eexists (Some _), _. split; [done|].
    split; [done|]. split; [by split_and!|]. split.
    + split; [done|]. split; [|done]. simpl. intros _. rewrite length_take.
      unfold ADDR_LEN in *. lia.
    + exists (env st1). unfold target_free, is_sock_target. simpl.
      rewrite andb_false_r. simpl. split_and!; try done. rewrite He. reflexivity.
Qed.

Lemma get_or_create_ok st sets flags priority :
  exists r st', get_or_create_set sets flags priority st = Ok (r, st') /\
    step_env st st' (ses (env st)) /\ env st' = env st /\
    match r with
    | Some sets' => sets' = match get_target_set priority sets with
                   | Some _ => sets
                   | None => insert_target_set (TargetSet [] 0 priority flags 0) sets
                   end
    | None => True
    end.
Proof.
  unfold get_or_create_set. destruct (get_target_set priority sets).
  - eexists (Some _), st. split; [done|]. split; [apply step_env_refl|done].
  - unfold target_set_create. destruct (kmalloc_Ok st) as (ok & st1 & Hk & Hstep & He).
    erewrite (bind_Ok _ _ _ _ _); [|by rewrite (bind_Ok _ _ _ _ _ Hk)].
    destruct ok; eexists _, st1; (split; [done|]); eauto.
Qed.

(** ** Adding a target to an entry *)
Lemma target_at_flat sets pos t :
  target_at sets pos = Some t ->
  (default 0 (s_priority <$> sets !! pos.1), t) ∈ flat sets.
Proof.
  unfold target_at. destruct (sets !! pos.1) as [s|] eqn:Hs; [|done]. simpl. intros Ht.
  unfold flat. apply list_elem_of_bind. exists s. split.
  - unfold flat_set. apply list_elem_of_fmap. eauto using list_elem_of_lookup_2.
  - by eapply list_elem_of_lookup_2.
Qed.

Lemma target_matches_type sks t type dst dstlen protocol :
  target_matches sks t type dst dstlen protocol = Ok true -> t_type t = type.
Proof.
  unfold target_matches. destruct (decide (t_type t = type)); [done|].
  by rewrite bool_decide_false.
Qed.

(** Either the new target joins the bag, or the entry is as before and the
    result says why not. *)
Definition add_outcome (st : bst) (l : positive) (se : service_entry)
    (type : service_rule_type) (priority weight : Z) (dst : cptr)
    (dstlen : nat) (out : target_out) (ret : Z) (st' : bst) : Prop :=
  (ret = 1 /\ exists t sets',
     step_env st st'
       (<[l := se_with_sets sets' (u32 (se_count se + 1)) se]> (ses (env st))) /\
     is_new_target t type weight dst dstlen out /\ sets_ok sets' /\
     flat sets' ≡ₚ (priority, t) :: flat (se_sets se) /\
     targets_ok (socks (env st')) sets' /\ free_undoes st t (env st')) \/
  ((ret = - ENOMEM \/
    ret ∈ [0; - EADDRINUSE] /\
    Exists (fun pt => t_type pt.2 = type) (flat (se_sets se))) /\
   step_env st st' (ses (env st))).

Lemma add_created st st1 l se type flags priority weight dst dstlen out t :
  ses (env st) !! l = Some se -> sets_ok (se_sets se) ->
  targets_ok (socks (env st)) (se_sets se) ->
  step_env st st1 (ses (env st)) ->
  is_new_target t type weight dst dstlen out ->
  target_ok (socks (env st1)) t -> free_undoes st t (env st1) ->
  exists ret st',
    (sets ← get_or_create_set (se_sets se) flags priority;
     match sets with
     | None => liftE (target_free t);; mret (- ENOMEM)
     | Some sets =>
         store_se l (se_with_sets
           (on_priority (target_set_add_target t) priority sets)
           (u32 (se_count se + 1)) se);;
         mret 1
     end) st1 = Ok (ret, st') /\
    add_outcome st l se type priority weight dst dstlen out ret st'.
Proof.
  intros Hl Hs Ht Hstep Hnew Htok Hundo.
  pose proof Hundo as (e' & Hfree & F1 & F2 & F3).
  destruct (get_or_create_ok st1 (se_sets se) flags priority)
    as (r & st2 & Hrun & Hstep2 & He & Hr).
  pose proof (step_ses _ _ _ Hstep) as S1. pose proof (step_socks _ _ _ Hstep) as K1.
  rewrite (bind_Ok _ _ _ _ _ Hrun). destruct r as [sets|].
  - assert (ses (env st2) !! l = Some se) as Hl2 by (by rewrite He, S1).
    subst sets. fold (add_to flags priority t (se_sets se)).
    destruct (add_to_ok flags priority t (se_sets se) Hs) as [Hok Hperm].
    rewrite (bind_Ok _ _ _ _ _ (store_se_Ok _ _ _ _ Hl2)).
    eexists _, _. split; [done|]. left. split; [done|]. eexists t, _.
    split_and!; try done.
    + eapply step_env_trans; [exact Hstep|].
      eapply step_env_trans; [exact Hstep2|]. rewrite <-S1, <-He.
      by apply (step_store st2 _ se).
    + simpl. rewrite He. unfold targets_ok. rewrite Hperm. constructor; [done|].
      by eapply targets_ok_le.
    + cbn [env set_env]. rewrite He. by eapply free_undoes_ses.
  - rewrite (bind_Ok _ _ _ tt (@set_env service_client e' st2)) by (apply liftE_Ok; by rewrite He).
    eexists _, _. split; [done|]. right. split; [by left|].
    destruct (step_env_trans _ _ _ _ _ Hstep Hstep2) as [T S K [N V]], F3.
    rewrite He in *. split; [exact T|simpl; congruence|done|split; simpl; [lia|congruence]].
Qed.

Lemma add_target_ok st l se type flags priority weight dst dstlen out :
  ses (env st) !! l = Some se -> sets_ok (se_sets se) ->
  targets_ok (socks (env st)) (se_sets se) ->
  args_ok (env st) type dst dstlen out -> 0 <= weight < 2 ^ 32 ->
  exists ret st',
    service_entry_add_target l type flags priority weight dst dstlen out st
      = Ok (ret, st') /\
    add_outcome st l se type priority weight dst dstlen out ret st'.
Proof.
  intros Hl Hs Ht Hargs Hw. unfold service_entry_add_target.
  rewrite (bind_Ok _ _ _ _ _ (load_se_Ok _ _ _ Hl)).
  assert (exists protocol, (if (dstlen =? 0)%nat
            then s ← load_sock out; mret (sk_protocol s)
            else mret MATCH_NO_PROTOCOL) st = Ok (protocol, st)) as [protocol Hp].
  { destruct dstlen as [|n]; simpl; [|eauto].
    destruct Hargs as (_ & (s & Hsk & _) & _). exists (sk_protocol s).
    unfold mbind, M_bind, load_sock. by rewrite Hsk. }
  rewrite (bind_Ok _ _ _ _ _ Hp), (bind_Ok _ _ _ st st) by done.
  destruct (get_target_ok (socks (env st)) (se_sets se) type dst dstlen protocol Ht)
    as (r & Hget & Hr).
  { intros -> _. unfold args_ok in Hargs. destruct dstlen; [naive_solver|].
    destruct Hargs as (-> & ? & _). auto. }
  rewrite (bind_Ok _ _ _ r st) by (unfold liftO; by rewrite Hget).
  destruct r as [pos|].
  - destruct Hr as (t & Hat & Hm). rewrite Hat. simpl. rewrite bind_ret.
    eexists _, st. split; [done|]. right. split; [|apply step_env_refl].
    right. split; [destruct (is_sock_target t); set_solver|].
    apply Exists_exists. exists (default 0 (s_priority <$> se_sets se !! pos.1), t).
    split; [by apply target_at_flat|]. by apply target_matches_type in Hm.
  - destruct (target_create_ok st type dst dstlen out weight Hargs Hw)
      as (r & st1 & Hrun & Hstep & Hr').
    rewrite (bind_Ok _ _ _ _ _ Hrun). destruct r as [t|].
    + destruct Hr' as (Hnew & Htok & Hfree). by eapply add_created.
    + eexists _, st1. split; [done|]. right. split; [by left|done].
Qed.
