(* ===== verification/ServiceAdd.v ===== *)
(** * [service_table_add] against the abstract table *)
From S2P Require Import Prelude Bst BstRep BstFind BstInsert BstRemove.
From S2P Require Import BstRemove ServiceEntry ServiceTable ServiceInv ServiceRefine.
Local Open Scope Z_scope.

(** ** The duplicate check *)
Definition ok_true (o : outcome bool) : bool :=
  match o with Ok b => b | _ => false end.

Definition excludes (type : service_rule_type) (dst : cptr) (dstlen : nat)
    (t : target) : bool :=
  ok_true (is_target t type dst dstlen)
  || bool_decide (t_type t = SERVICE_RULE_DROP)
  || bool_decide (t_type t = SERVICE_RULE_DELAY).

(** Arguments whose bytes can be compared with any good target. *)
Definition dst_readable (type : service_rule_type) (dst : cptr) (dstlen : nat)
  : Prop :=
  type = SERVICE_RULE_FORWARD -> is_null dst = false ->
  (dstlen <= ADDR_LEN)%nat /\ (dstlen <= length (p_bytes dst))%nat.

Lemma args_readable e type dst dstlen out :
  args_ok e type dst dstlen out -> dst_readable type dst dstlen.
Proof.
  intros Hargs -> _. unfold args_ok in Hargs. destruct dstlen; [naive_solver|].
  destruct Hargs as (-> & ? & _). auto.
Qed.

Lemma is_target_ok sks t type dst dstlen :
  target_ok sks t -> dst_readable type dst dstlen ->
  exists b, is_target t type dst dstlen = Ok b.
Proof.
  intros Hok Hargs. unfold is_target.
  destruct (decide (t_type t = type)) as [Ht|Ht].
  2: { rewrite bool_decide_false by done. simpl. eauto. }
  rewrite bool_decide_true by done. simpl. destruct type; simpl; eauto.
  destruct (is_null dst) eqn:Hn; [eauto|]. destruct Hargs as [H1 H2]; [done..|].
  by eapply memcmp_ok.
Qed.

Definition iter_all (l : positive) (ti : nat) (last : option (nat * nat))
  : service_iter :=
  ServiceIter l SERVICE_ITER_ALL (Some 0%nat) (Some (0%nat, ti)) last.

Lemma iter_next_all st l se s sets ti last :
  ses (env st) !! l = Some se -> se_sets se = s :: sets ->
  (ti <= length (s_list s))%nat ->
  service_iter_next (iter_all l ti last) st =
  Ok (match s_list s !! ti with
      | Some _ => (Some (0%nat, ti), iter_all l (S ti) (Some (0%nat, ti)))
      | None => (None, iter_all l ti (Some (0%nat, ti)))
      end, st).
Proof.
  intros Hl Hs Hti. unfold service_iter_next.
  rewrite (bind_Ok _ _ _ _ _ (load_se_Ok st l se Hl)). simpl. rewrite Hs. simpl.
  rewrite bind_ret. destruct (s_list s !! ti) as [t|] eqn:Ht.
  - by rewrite (drop_S _ _ _ Ht).
  - apply lookup_ge_None in Ht. by rewrite drop_ge by lia.
Qed.

Lemma dup_loop_ok st l se s sets type dst dstlen :
  ses (env st) !! l = Some se -> se_sets se = s :: sets ->
  targets_ok (socks (env st)) (se_sets se) -> dst_readable type dst dstlen ->
  forall fuel ti last, (ti <= length (s_list s))%nat ->
  (length (s_list s) - ti < fuel)%nat ->
  exists iter, i_entry iter = l /\
    ('(target, iter) ← service_iter_next (iter_all l ti last);
     dup_loop fuel iter target type dst dstlen) st
    = Ok ((existsb (excludes type dst dstlen) (drop ti (s_list s)), iter), st).
Proof.
  intros Hl Hs Hok Hdst fuel.
  induction fuel as [|fuel IH]; intros ti last Hti Hf; [lia|].
  rewrite (bind_Ok _ _ _ _ _ (iter_next_all _ _ _ _ _ _ _ Hl Hs Hti)).
  destruct (s_list s !! ti) as [t|] eqn:Ht.
  2: { apply lookup_ge_None in Ht. rewrite drop_ge by lia. eexists. split; [|done]. done. }
  rewrite (drop_S _ _ _ Ht). cbn [dup_loop existsb]. unfold iter_all at 1. cbn [i_entry].
  rewrite (bind_Ok _ _ _ _ _ (load_se_Ok st l se Hl)). unfold target_at. rewrite Hs.
  simpl. rewrite Ht. simpl. rewrite bind_ret.
  assert (target_ok (socks (env st)) t) as Htok.
  { unfold targets_ok in Hok. rewrite Hs, flat_cons in Hok.
    apply Forall_app in Hok as [Hok _]. unfold flat_set in Hok.
    rewrite Forall_fmap in Hok. by eapply (Forall_lookup_1 _ _ _ _ Hok). }
  destruct (is_target_ok _ _ _ dst dstlen Htok Hdst) as [b Hb].
  rewrite (bind_Ok _ _ _ b st) by (unfold liftO; by rewrite Hb).
  unfold excludes at 1. rewrite Hb. simpl.
  destruct (b || _ || _); simpl; [eexists; split; [|done]; done|].
  apply lookup_lt_Some in Ht. apply IH; lia.
Qed.

Lemma check_dup_ok st l se s sets type dst dstlen :
  ses (env st) !! l = Some se -> se_sets se = s :: sets -> se_count se <> 0 ->
  targets_ok (socks (env st)) (se_sets se) -> dst_readable type dst dstlen ->
  check_dup l type dst dstlen st =
  Ok (existsb (excludes type dst dstlen) (s_list s), st).
Proof.
  intros Hl Hs Hc Hok Hdst. unfold check_dup.
  rewrite (bind_Ok _ _ _ _ _ (load_se_Ok st l se Hl)).
  set (se1 := se_with_readers (se_readers se + 1) se).
  set (st1 := @set_env service_client
    (env_with_ses (<[l := se1]> (ses (env st))) (env st)) st).
  assert (service_iter_init l SERVICE_ITER_ALL 0 st
          = Ok ((0, iter_all l 0 None), st1)) as Hinit.
  { unfold service_iter_init. rewrite (bind_Ok _ _ _ _ _ (load_se_Ok st l se Hl)).
    rewrite (bind_Ok _ _ _ _ _ (store_se_Ok _ _ _ _ Hl)), Hs.
    by rewrite (proj2 (Z.eqb_neq _ _)) by done. }
  rewrite (bind_Ok _ _ _ _ _ Hinit).
  assert (ses (env st1) !! l = Some se1) as Hl1 by apply lookup_insert_eq.
  destruct (dup_loop_ok st1 l se1 s sets type dst dstlen Hl1 Hs Hok Hdst
              (S (n_targets (se_sets se))) 0 None) as (iter & Hi & Hrun); [lia| |].
  { rewrite Hs. unfold n_targets. simpl. lia. }
  apply bind_Ok_inv in Hrun as ([target iter1] & st2 & Hn & Hd).
  rewrite (bind_Ok _ _ _ _ _ Hn), (bind_Ok _ _ _ _ _ Hd), drop_0.
  unfold service_iter_destroy. rewrite Hi.
  assert (forall k : unit -> SM bool,
    ((se ← load_se l; store_se l (se_with_readers (se_readers se - 1) se)) ≫= k) st1
    = k tt st) as Hdes; [|by rewrite Hdes].
  intros k. erewrite (bind_Ok _ k).
  2: { rewrite (bind_Ok _ _ _ _ _ (load_se_Ok st1 l se1 Hl1)).
       by rewrite (store_se_Ok _ _ _ _ Hl1). }
  f_equal. unfold st1, se1, set_env, env_with_ses. simpl.
  rewrite insert_insert_eq, Z.add_simpl_r, insert_id.
  - by destruct st, env.
  - rewrite Hl. by destruct se.
Qed.

(** ** The invariant of the table *)
Definition entry_good (sks : gmap Z sock) (n : positive) (se : service_entry)
  : Prop :=
  se_node se = Some n /\ entry_ok se /\ se_sets se <> [] /\
  targets_ok sks (se_sets se) /\ 0 < se_refcnt se < 2 ^ 31 - 1 /\
  Z.of_nat (n_targets (se_sets se)) < 2 ^ 16.

(** [m] maps the key of each entry to its node and its address. *)
Record table_ok (st : bst) (m : gmap (list bool) (positive * positive))
  : Prop := TableOk {
  tk_refines : refines st m;
  tk_entry : forall k n l, m !! k = Some (n, l) ->
    exists se, ses (env st) !! l = Some se /\ entry_good (socks (env st)) n se;
  tk_inj : forall k k' n n' l,
    m !! k = Some (n, l) -> m !! k' = Some (n', l) -> k = k';
  tk_fresh : forall l, is_Some (ses (env st) !! l) -> (l < next_se (env st))%positive;
  tk_services : services (env st) = Z.of_nat (size m);
  tk_bound : Z.of_nat (size m) + 1 < 2 ^ 32;
}.

(** The abstract table: the bag of prioritised targets of a key. *)
Definition bag (st : bst) (m : gmap (list bool) (positive * positive))
    (key : list bool) : list (Z * target) :=
  match m !! key with
  | Some (_, l) => match ses (env st) !! l with
                   | Some se => flat (se_sets se)
                   | None => []
                   end
  | None => []
  end.

Lemma bag_at st m key n l se :
  m !! key = Some (n, l) -> ses (env st) !! l = Some se ->
  bag st m key = flat (se_sets se).
Proof. unfold bag. by intros -> ->. Qed.

Lemma entry_good_le a b n se : socks_le a b -> entry_good a n se -> entry_good b n se.
Proof.
  intros Hle (? & ? & ? & ? & ? & ?). split_and!; eauto using targets_ok_le; lia.
Qed.

Lemma service_init_trivial l : init_trivial tt l.
Proof. intros st. unfold call_init. simpl. by destruct st. Qed.

(** Steps that keep the entry map keep the table. *)
Lemma table_ok_env st st' m :
  table_ok st m -> refines st' m -> ses (env st') = ses (env st) ->
  socks_le (socks (env st)) (socks (env st')) -> same_stats (env st) (env st') ->
  table_ok st' m /\ forall k, bag st' m k = bag st m k.
Proof.
  intros [T1 T2 T3 T4 T5 T6] Ht Hs Hk [Hn Hv]. split.
  - split; try done.
    + intros k n l Hm. rewrite Hs. destruct (T2 _ _ _ Hm) as (se & ? & ?).
      eauto using entry_good_le.
    + rewrite Hs. intros y Hy. specialize (T4 y Hy). lia.
    + by rewrite Hv.
  - intros k. unfold bag. by rewrite Hs.
Qed.

Lemma table_ok_step st st' m :
  table_ok st m -> step_env st st' (ses (env st)) ->
  table_ok st' m /\ forall k, bag st' m k = bag st m k.
Proof.
  intros Hok []. apply table_ok_env; try done.
  eapply refines_same_tree; [done|]. apply Hok.
Qed.

(** Replacing the sets of one entry. *)
Lemma table_ok_update st st' m key n l se se' :
  table_ok st m -> m !! key = Some (n, l) ->
  step_env st st' (<[l := se']> (ses (env st))) ->
  ses (env st) !! l = Some se -> entry_good (socks (env st')) n se' ->
  table_ok st' m /\ bag st' m key = flat (se_sets se') /\
  forall k, k <> key -> bag st' m k = bag st m k.
Proof.
  intros [T1 T2 T3 T4 T5 T6] Hkey [Ht Hs Hk [Hn Hv]] Hl Hgood. split_and!.
  - split; try done.
    + by eapply refines_same_tree.
    + intros k n' l' Hm. rewrite Hs. destruct (decide (l' = l)) as [->|Hne].
      * assert (k = key) as -> by eauto. rewrite Hkey in Hm. injection Hm as ->.
        exists se'. by rewrite lookup_insert_eq.
      * rewrite lookup_insert_ne by done. destruct (T2 _ _ _ Hm) as (x & ? & ?).
        eauto using entry_good_le.
    + rewrite Hs. intros y. rewrite lookup_insert_is_Some. intros [<-|[_ Hy]].
      * specialize (T4 l ltac:(eauto)). lia.
      * specialize (T4 y Hy). lia.
    + by rewrite Hv.
  - unfold bag. by rewrite Hkey, Hs, lookup_insert_eq.
  - intros k Hne. unfold bag. destruct (m !! k) as [[n' l']|] eqn:Hm; [|done].
    rewrite Hs, lookup_insert_ne; [done|]. intros ->. apply Hne. eauto.
Qed.

Lemma n_targets_perm sets sets' p t :
  flat sets' ≡ₚ (p, t) :: flat sets -> n_targets sets' = S (n_targets sets).
Proof. intros H. by rewrite <-!length_flat, H. Qed.

(** The entry after a target joined it is good. *)
Lemma entry_good_add sks sks' n se sets' p t :
  entry_good sks n se -> sets_ok sets' -> targets_ok sks' sets' ->
  flat sets' ≡ₚ (p, t) :: flat (se_sets se) ->
  Z.of_nat (n_targets (se_sets se)) + 1 < 2 ^ 16 ->
  entry_good sks' n (se_with_sets sets' (u32 (se_count se + 1)) se).
Proof.
  intros (? & [_ Hc] & ? & _ & ? & _) Hs Ht Hp Hb.
  pose proof (n_targets_perm _ _ _ _ Hp) as Hn.
  split_and!; simpl; try done; [split|..]; simpl; try lia.
  - done.
  - rewrite Hc, u32_add, Hn. f_equal. lia.
  - intros ->. by apply Permutation_nil_cons in Hp.
Qed.

(** ** What an addition does to the abstract table *)
Definition add_result (st : bst) (m : gmap (list bool) (positive * positive))
    (key : list bool) (type : service_rule_type) (priority weight : Z)
    (dst : cptr) (dstlen : nat) (out : target_out) (ret : Z) (st' : bst) : Prop :=
  exists m', table_ok st' m' /\
    (forall k, k <> key -> bag st' m' k = bag st m k) /\
    ((ret = 1 /\ exists t, is_new_target t type weight dst dstlen out /\
        bag st' m' key ≡ₚ (priority, t) :: bag st m key) \/
     (ret ∈ [0; - EADDRINUSE; - ENOMEM; - EEXIST] /\ m' = m /\
        bag st' m' key = bag st m key)).

Lemma add_result_same st m key type priority weight dst dstlen out ret st' :
  table_ok st' m -> (forall k, bag st' m k = bag st m k) ->
  ret ∈ [0; - EADDRINUSE; - ENOMEM; - EEXIST] ->
  add_result st m key type priority weight dst dstlen out ret st'.
Proof. intros. exists m. split_and!; auto. Qed.

Lemma get_service_ok st m key n l :
  refines st m -> m !! key = Some (n, l) -> get_service n st = Ok (l, st).
Proof.
  intros Hr Hk. destruct (entry_node_ok _ _ _ _ _ Hr Hk) as (nd & Hn & Hp & _).
  unfold get_service, bst_node_get_private.
  rewrite (bind_Ok _ _ _ (Some l) st); [done|].
  by rewrite (bind_Ok _ _ _ _ _ (load_Ok _ _ _ Hn)), Hp.
Qed.

Definition add_existing (n : positive) (type : service_rule_type)
    (flags priority weight : Z) (dst : cptr) (dstlen : nat) (out : target_out)
  : SM Z :=
  l ← get_service n;
  dup ← check_dup l type dst dstlen;
  if dup : bool then mret (- EEXIST)
  else if negb (is_null dst) || (dstlen =? 0)%nat then
    service_entry_add_target l type flags priority weight dst dstlen out
  else mret 0.

Lemma entry_good_count sks n se : entry_good sks n se -> se_count se <> 0.
Proof.
  intros (_ & [[_ Hf] Hc] & Hne & _ & _ & Hb). rewrite Hc. unfold u32.
  rewrite Z.mod_small by lia. destruct (se_sets se) as [|s sets]; [done|].
  apply Forall_cons in Hf as [(Hl & _) _]. unfold n_targets. simpl.
  destruct (s_list s); simpl; [done|lia].
Qed.

Lemma add_existing_ok st m key n l se type flags priority weight dst dstlen out :
  table_ok st m -> m !! key = Some (n, l) -> ses (env st) !! l = Some se ->
  Z.of_nat (n_targets (se_sets se)) + 1 < 2 ^ 16 ->
  args_ok (env st) type dst dstlen out -> 0 <= weight < 2 ^ 32 ->
  exists ret st',
    add_existing n type flags priority weight dst dstlen out st = Ok (ret, st') /\
    add_result st m key type priority weight dst dstlen out ret st'.
Proof.
  intros Hok Hkey Hl Hb Hargs Hw. unfold add_existing.
  rewrite (bind_Ok _ _ _ _ _ (get_service_ok _ _ _ _ _ (tk_refines _ _ Hok) Hkey)).
  destruct (tk_entry _ _ Hok _ _ _ Hkey) as (se' & Hl' & Hgood).
  rewrite Hl in Hl'. injection Hl' as <-.
  pose proof Hgood as (_ & [Hs _] & Hne & Ht & _).
  destruct (se_sets se) as [|s sets] eqn:Hsets; [done|].
  rewrite (bind_Ok _ _ _ _ _ (check_dup_ok st l se s sets type dst dstlen Hl Hsets
    (entry_good_count _ _ _ Hgood) ltac:(by rewrite Hsets) (args_readable _ _ _ _ _ Hargs))).
  destruct (existsb _ _).
  { eexists _, st. split; [done|]. apply add_result_same; [done..|set_solver]. }
  destruct (negb (is_null dst) || (dstlen =? 0)%nat).
  2: { eexists _, st. split; [done|]. apply add_result_same; [done..|set_solver]. }
  rewrite <-Hsets in *.
  destruct (add_target_ok st l se type flags priority weight dst dstlen out)
    as (ret & st' & Hrun & Hout); try done.
  exists ret, st'. split; [done|].
  destruct Hout as [(-> & t & sets' & Hstep & Hnew & Hs' & Hp & Ht' & _)|[Hret Hstep]].
  - destruct (table_ok_update st st' m key n l se
      (se_with_sets sets' (u32 (se_count se + 1)) se)) as (H1 & H2 & H3); try done.
    { by eapply entry_good_add. }
    exists m. split_and!; try done. left. split; [done|]. exists t. split; [done|].
    by rewrite H2, (bag_at _ _ _ _ _ _ Hkey Hl).
  - destruct (table_ok_step _ _ _ Hok Hstep). apply add_result_same; [done..|].
    destruct Hret as [->|[Hret _]]; set_solver.
Qed.

(** ** A new entry *)
Definition fresh_entry : service_entry := ServiceEntry None [] 0 0 0 0 0 1 0.

Lemma create_ok st :
  (forall l, is_Some (ses (env st) !! l) -> (l < next_se (env st))%positive) ->
  exists r st', service_entry_create st = Ok (r, st') /\
    match r with
    | Some l => l = next_se (env st) /\ ses (env st) !! l = None /\
        step_env st st' (<[l := fresh_entry]> (ses (env st))) /\
        (l < next_se (env st'))%positive
    | None => step_env st st' (ses (env st))
    end.
Proof.
  intros Hfresh. unfold service_entry_create, alloc_ok.
  assert (ses (env st) !! next_se (env st) = None) as Hnone.
  { apply eq_None_not_Some. intros H%Hfresh. lia. }
  destruct (allocs st) as [|[] al]; eexists _, _; (split; [done|]); simpl.
  - split_and!; [done..| |lia].
    split; simpl; [by split_and!|done|reflexivity|split; simpl; [lia|done]].
  - split_and!; [done..| |lia].
    split; simpl; [by split_and!|done|reflexivity|split; simpl; [lia|done]].
  - split; simpl; [by split_and!|done|reflexivity|done].
Qed.

Lemma flat_single sets p t :
  sets_ok sets -> flat sets ≡ₚ [(p, t)] -> exists s, sets = [s] /\ s_list s = [t].
Proof.
  intros [_ Hf] Hp%Permutation_singleton_r. destruct sets as [|s sets]; [done|].
  apply Forall_cons in Hf as [(Hne & _) Hf]. rewrite flat_cons in Hp.
  unfold flat_set in Hp. destruct (s_list s) as [|t' ts] eqn:Hl; [done|].
  simpl in Hp. injection Hp as <- <- [Hts Hfl]%app_eq_nil.
  apply fmap_nil_inv in Hts as ->. exists s. split; [|done].
  destruct sets as [|s' sets]; [done|]. exfalso.
  apply Forall_cons in Hf as [(Hne' & _) _]. rewrite flat_cons in Hfl.
  apply app_eq_nil in Hfl as [Hfl _]. by apply fmap_nil_inv in Hfl.
Qed.

Lemma free_targets_ses m ts : forall e1 e2, free_targets ts e1 = Ok e2 ->
  free_targets ts (env_with_ses m e1) = Ok (env_with_ses m e2).
Proof.
  induction ts as [|t ts IH]; intros e1 e2; simpl; [by intros [= <-]|].
  unfold mbind, outcome_bind. destruct (target_free t e1) as [e3| |] eqn:H3; [|done..].
  rewrite (target_free_ses _ _ _ m H3). apply IH.
Qed.

Lemma free_sets_ses m sets : forall e1 e2, free_sets sets e1 = Ok e2 ->
  free_sets sets (env_with_ses m e1) = Ok (env_with_ses m e2).
Proof.
  induction sets as [|s sets IH]; intros e1 e2; simpl; [by intros [= <-]|].
  unfold mbind, outcome_bind, target_set_free.
  destruct (free_targets (s_list s) e1) as [e3| |] eqn:H3; [|done..].
  rewrite (free_targets_ses _ _ _ _ H3). apply IH.
Qed.

(** Dropping the last reference frees the entry and its targets. *)
Lemma put_last e l se e' :
  ses e !! l = Some se -> se_refcnt se = 1 -> free_sets (se_sets se) e = Ok e' ->
  service_entry_put l e = Ok (env_with_ses (delete l (ses e)) e').
Proof.
  intros Hl Hr Hf. unfold service_entry_put, service_entry_free.
  rewrite Hl, Hr, (s32_small (1 - 1)) by lia. simpl. rewrite lookup_insert_eq.
  cbn [se_sets se_with_refcnt]. rewrite (free_sets_ses _ _ _ _ Hf). simpl.
  unfold env_with_ses. simpl. by rewrite delete_insert_eq.
Qed.

(** Undoing a half-made entry leaves the table as it was. *)
Lemma undo_entry st st2 m l se e' :
  table_ok st m -> refines st2 m -> ses (env st) !! l = None ->
  ses (env st2) = <[l := se]> (ses (env st)) -> se_refcnt se = 1 ->
  free_sets (se_sets se) (env st2) = Ok e' ->
  socks_le (socks (env st)) (socks e') ->
  (next_se (env st) <= next_se e')%positive -> services e' = services (env st) ->
  exists st', (liftE (service_entry_put l);; mret (- ENOMEM)) st2
                = Ok (- ENOMEM, st') /\
    table_ok st' m /\ forall k, bag st' m k = bag st m k.
Proof.
  intros Hok Hr Hl Hs Hrc Hfree Hle Hn Hv.
  assert (service_entry_put l (env st2)
          = Ok (env_with_ses (delete l (ses (env st2))) e')) as Hput
    by (eapply put_last; [rewrite Hs; apply lookup_insert_eq|done..]).
  rewrite (bind_Ok _ _ _ _ _ (liftE_Ok _ _ _ Hput)). eexists. split; [done|].
  apply (table_ok_env st); try done.
  - apply (refines_same_tree st2); [by split_and!|done].
  - simpl. rewrite Hs. by apply delete_insert_id.
Qed.

(** Entering the finished entry [se] at [key]. *)
Lemma link_entry st st3 m key n l se e :
  table_ok st m -> m !! key = None -> ses (env st) !! l = None ->
  refines st3 (<[key := (n, l)]> m) -> env st3 = e ->
  ses e = <[l := se]> (ses (env st)) -> (l < next_se e)%positive ->
  (next_se (env st) <= next_se e)%positive ->
  services e = u32 (services (env st) + 1) ->
  socks_le (socks (env st)) (socks e) -> entry_good (socks e) n se ->
  Z.of_nat (size m) + 2 < 2 ^ 32 ->
  table_ok st3 (<[key := (n, l)]> m) /\
  bag st3 (<[key := (n, l)]> m) key = flat (se_sets se) /\
  forall k, k <> key -> bag st3 (<[key := (n, l)]> m) k = bag st m k.
Proof.
  intros [T1 T2 T3 T4 T5 T6] Hkey Hl Hr He Hs Hln Hn Hv Hle Hgood Hb.
  assert (forall k n', m !! k <> Some (n', l)) as Hnew.
  { intros k n' (x & Hx & _)%T2. congruence. }
  assert (forall k n' l', m !! k = Some (n', l') -> ses e !! l' = ses (env st) !! l')
    as Hold.
  { intros k n' l' Hk. rewrite Hs, lookup_insert_ne; [done|]. intros <-. by eapply Hnew. }
  split_and!.
  - split; rewrite ?He; try done.
    + intros k n' l'. rewrite lookup_insert_Some. intros [[<- [= <- <-]]|[Hne Hk]].
      * exists se. by rewrite Hs, lookup_insert_eq.
      * rewrite (Hold _ _ _ Hk). destruct (T2 _ _ _ Hk) as (x & ? & ?).
        eauto using entry_good_le.
    + intros k k' n1 n2 l'. rewrite !lookup_insert_Some.
      intros [[<- [= <- <-]]|[Hne Hk]] [[<- [= <-]]|[Hne' Hk']]; eauto.
      * by exfalso; eapply Hnew.
      * subst l'. by exfalso; eapply Hnew.
    + intros y. rewrite Hs, lookup_insert_is_Some. intros [<-|[_ Hy]]; [done|].
      specialize (T4 y Hy). lia.
    + rewrite Hv, T5, map_size_insert_None by done. unfold u32.
      rewrite Z.mod_small; lia.
    + rewrite map_size_insert_None by done. lia.
  - unfold bag. by rewrite lookup_insert_eq, He, Hs, lookup_insert_eq.
  - intros k Hne. unfold bag. rewrite lookup_insert_ne, He by done.
    destruct (m !! k) as [[n' l']|] eqn:Hk; [|done]. by rewrite (Hold _ _ _ Hk).
Qed.

(** The rest of [add_new_entry] once the target is in the entry. *)
Definition enter_entry (l : positive) (srvid : list Z) (bits : nat) (ret : Z)
  : SM Z :=
  n ← bst_insert_prefix srv_ops (Some l) srvid bits;
  se ← load_se l;
  store_se l (se_with_node n se);;
  match n with
  | None => liftE (service_entry_put l);; mret (- ENOMEM)
  | Some _ =>
      modE (fun e => env_with_services (u32 (services e + 1)) e);; mret ret
  end.

Lemma enter_entry_ok st st2 m srvid bits l t sets' type priority weight dst dstlen out :
  let se2 := se_with_sets sets' 1 fresh_entry in
  table_ok st m -> m !! bits_of srvid bits = None ->
  ses (env st) !! l = None -> (l < next_se (env st2))%positive ->
  step_env st st2 (<[l := se2]> (ses (env st))) ->
  is_new_target t type weight dst dstlen out -> sets_ok sets' ->
  flat sets' ≡ₚ [(priority, t)] -> targets_ok (socks (env st2)) sets' ->
  free_undoes st t (env st2) -> (PREFIX_SIZE bits <= length srvid)%nat ->
  Z.of_nat (size m) + 2 < 2 ^ 32 ->
  exists ret st', enter_entry l srvid bits 1 st2 = Ok (ret, st') /\
    add_result st m (bits_of srvid bits) type priority weight dst dstlen out ret st'.
Proof.
  intros se2 Hok Hkey Hl Hln [HT HS HK [HN HV]] Hnew Hs Hp Ht Hundo Hlen Hb.
  unfold enter_entry.
  destruct (insert_refines st2 m tt l srvid bits) as (r & st3 & Hrun & [Henv _] & Hr);
    [eapply refines_same_tree, tk_refines; done|apply service_init_trivial|done
    |exact (tk_bound _ _ Hok)|].
  unfold srv_ops. rewrite (bind_Ok _ _ _ _ _ Hrun).
  assert (ses (env st3) !! l = Some se2) as Hl3
    by (rewrite Henv, HS; apply lookup_insert_eq).
  rewrite (bind_Ok _ _ _ _ _ (load_se_Ok _ _ _ Hl3)).
  rewrite (bind_Ok _ _ _ _ _ (store_se_Ok _ _ _ _ Hl3)).
  destruct (flat_single _ _ _ Hs Hp) as (s & -> & Hts).
  destruct r as [n|].
  - destruct Hr as [_ Hr]. eexists _, _. split; [done|].
    match goal with |- add_result _ _ _ _ _ _ _ _ _ _ ?s => set (st4 := s) end.
    set (m' := <[bits_of srvid bits := (n, l)]> m) in *.
    enough (table_ok st4 m' /\ bag st4 m' (bits_of srvid bits) = flat [s] /\
      forall k, k <> bits_of srvid bits -> bag st4 m' k = bag st m k)
      as (H1 & H2 & H3).
    { exists m'.
      split; [exact H1|]. split; [exact H3|].
      left. split; [done|]. exists t. split; [done|].
      assert (bag st m (bits_of srvid bits) = []) as -> by (unfold bag; by rewrite Hkey).
      by rewrite H2, Hp. }
    apply (link_entry st st4 m _ n l (se_with_node (Some n) se2) (env st4));
      unfold st4; cbn; rewrite ?Henv, ?HS; try done.
    + apply (refines_same_tree st3); [by split_and!|done].
    + by rewrite insert_insert_eq.
    + by rewrite HV.
    + assert (n_targets [s] = 1%nat) as H1 by (unfold n_targets; simpl; by rewrite Hts).
      split_and!; try done; [|cbn [se_sets se_with_node se2 se_with_sets]; by rewrite H1].
      split; [done|]. cbn [se_sets se_with_node se2 se_with_sets]. by rewrite H1.
  - destruct Hr as [_ Hr]. destruct Hundo as (e' & Hf & F1 & F2 & [F3 F4]).
    set (st4 := @set_env service_client
      (env_with_ses (<[l := se_with_node None se2]> (ses (env st3))) (env st3)) st3).
    set (e4 := env_with_ses (ses (env st4)) e').
    destruct (undo_entry st st4 m l (se_with_node None se2) e4) as (st' & Hrun' & H1 & H2);
      [done|apply (refines_same_tree st3); [by split_and!|done]|done|..].
    + cbn. by rewrite Henv, HS, insert_insert_eq.
    + done.
    + assert (free_sets [s] (env st3) = Ok e') as Hfs
        by (rewrite Henv; simpl; unfold target_set_free; rewrite Hts; simpl; by rewrite Hf).
      apply (free_sets_ses _ _ _ _ Hfs).
    + done.
    + cbn. lia.
    + cbn. congruence.
    + exists (- ENOMEM), st'. split; [exact Hrun'|]. apply add_result_same; [done..|set_solver].
Qed.

Lemma add_new_ok st m srvid bits type flags priority weight dst dstlen out :
  table_ok st m -> m !! bits_of srvid bits = None ->
  args_ok (env st) type dst dstlen out -> 0 <= weight < 2 ^ 32 ->
  (PREFIX_SIZE bits <= length srvid)%nat -> Z.of_nat (size m) + 2 < 2 ^ 32 ->
  exists ret st',
    add_new_entry srvid bits type flags priority weight dst dstlen out st
      = Ok (ret, st') /\
    add_result st m (bits_of srvid bits) type priority weight dst dstlen out ret st'.
Proof.
  intros Hok Hkey Hargs Hw Hlen Hb. unfold add_new_entry.
  destruct (create_ok st (tk_fresh _ _ Hok)) as (r & st1 & Hrun & Hr).
  rewrite (bind_Ok _ _ _ _ _ Hrun). destruct r as [l|].
  2: { eexists _, st1. split; [done|].
       destruct (table_ok_step _ _ _ Hok Hr). apply add_result_same; [done..|set_solver]. }
  destruct Hr as (_ & Hl & Hstep & Hln).
  pose proof Hstep as [HT HS HK [HN HV]].
  destruct (add_target_ok st1 l fresh_entry type flags priority weight dst dstlen out)
    as (ret & st2 & Hrun2 & Hout).
  { rewrite HS. apply lookup_insert_eq. }
  { by split; constructor. }
  { by constructor. }
  { unfold args_ok in *. destruct dstlen; [|done].
    destruct Hargs as (? & (s & Hs & ?) & ?). split_and!; try done.
    revert Hrun. unfold service_entry_create. destruct (alloc_ok st) as [[] sta] eqn:Ha;
      [|done]. intros [= _ <-]. exists s. split; [|done]. simpl.
    unfold alloc_ok in Ha. destruct (allocs st); simplify_eq; done. }
  { done. }
  rewrite (bind_Ok _ _ _ _ _ Hrun2).
  destruct Hout as [(-> & t & sets' & Hst & Hnew & Hs' & Hp & Ht' & Hundo)|[Hret Hst]].
  - rewrite HS, insert_insert_eq in Hst. destruct (step_stats _ _ _ Hst) as [HN2 HV2].
    destruct Hundo as (e' & U1 & U2 & U3 & U4).
    eapply (enter_entry_ok st st2 m srvid bits l t sets'); try done; [lia| |].
    + eapply step_env_trans; [exact Hstep|]. exact Hst.
    + exists e'. split_and!; try done. by etrans.
  - assert (ret = - ENOMEM) as ->.
    { destruct Hret as [?|[_ He]]; [done|]. by apply Exists_nil in He. }
    destruct Hst as [HT2 HS2 HK2 [HN2 HV2]]. rewrite HS in HS2.
    destruct (undo_entry st st2 m l fresh_entry (env st2)) as (st' & Hrun' & H1 & H2);
      try done; [..|exists (- ENOMEM), st'; split; [exact Hrun'|]].
    + eapply refines_same_tree, tk_refines; [|done]. by etrans.
    + by etrans.
    + lia.
    + congruence.
    + apply add_result_same; [done..|set_solver].
Qed.

(** A lookup of the exact key. *)
Lemma find_exact st m srvid bits :
  table_ok st m -> (PREFIX_SIZE bits <= length srvid)%nat ->
  exists n exact, bst_find_longest_prefix srvid bits st = Ok (n, st) /\
    (match n with
     | None => mret false
     | Some n => b ← bst_node_get_prefix_bits n; mret (bits <=? b)%nat
     end) st = Ok (exact, st) /\
    match m !! bits_of srvid bits with
    | Some (n', _) => n = Some n' /\ exact = true
    | None => exact = false
    end.
Proof.
  intros Hok Hlen. pose proof (tk_refines _ _ Hok) as Hr.
  unfold bst_find_longest_prefix.
  rewrite (find_refines _ _ _ _ None (fun _ => true) Hr ltac:(done) Hlen).
  destruct (m !! bits_of srvid bits) as [[n l]|] eqn:Hk.
  - rewrite (lpm_exact (BC := service_client) _ _ _ Hk). eexists _, true. split; [done|]. simpl.
    rewrite (bind_Ok _ _ _ _ _ (key_size _ _ _ _ _ Hr Hk)), length_bits_of, Nat.leb_refl.
    done.
  - destruct (@lpm service_client m (fun _ => true) (bits_of srvid bits)) as [[k [n l]]|] eqn:Hlpm.
    + pose proof (lpm_sound _ _ _ _ _ Hlpm) as (Hm & _).
      eexists _, false. split; [done|]. simpl. split; [|done].
      rewrite (bind_Ok _ _ _ _ _ (key_size _ _ _ _ _ Hr Hm)).
      destruct (Nat.leb_spec bits (length k)) as [Hle|]; [|done].
      rewrite (lpm_full _ _ _ _ _ Hlpm) in Hm by (by rewrite length_bits_of).
      by pose proof (eq_trans (eq_sym Hk) Hm).
    + eexists None, false. done.
Qed.

(** [service_table_add] puts the new target into the bag of the rule's key, or
    changes nothing and says why. *)
Lemma table_add_ok st m srvid prefix_bits type flags priority weight dst dstlen out :
  let bits := table_bits srvid prefix_bits in
  table_ok st m -> (PREFIX_SIZE bits <= length srvid)%nat ->
  add_args_ok type dst dstlen = true ->
  args_ok (env st) type dst dstlen out -> 0 <= weight < 2 ^ 32 ->
  Z.of_nat (size m) + 2 < 2 ^ 32 ->
  Z.of_nat (length (bag st m (bits_of srvid bits))) + 1 < 2 ^ 16 ->
  exists ret st',
    service_table_add (Some srvid) prefix_bits type flags priority weight dst
      dstlen out st = Ok (ret, st') /\
    add_result st m (bits_of srvid bits) type priority weight dst dstlen out ret st'.
Proof.
  intros bits Hok Hlen Hadd Hargs Hw Hb Hbag. unfold service_table_add. fold bits.
  rewrite Hadd. cbn [negb].
  destruct (find_exact st m srvid bits Hok Hlen) as (n & exact & Hrun & Hrun2 & Hm).
  rewrite (bind_Ok _ _ _ _ _ Hrun), (bind_Ok _ _ _ _ _ Hrun2).
  destruct (m !! bits_of srvid bits) as [[n' l]|] eqn:Hk.
  - destruct Hm as [-> ->]. destruct (tk_entry _ _ Hok _ _ _ Hk) as (se & Hl & _).
    rewrite (bag_at _ _ _ _ _ _ Hk Hl), length_flat in Hbag.
    by eapply add_existing_ok.
  - subst exact. destruct n; by apply add_new_ok.
Qed.
