(* ===== verification/ServiceDel.v ===== *)
(** * Deletions from the service table *)

(** * Lookups in the service table are longest prefix matches *)
From S2P Require Import Prelude Bst BstRep BstFind BstInsert BstRemove.
From S2P Require Import ServiceEntry ServiceTable ServiceInv ServiceRefine ServiceAdd.
Local Open Scope Z_scope.

(** Does the bag hold a target of the type? *)
Definition has_type (type : service_rule_type) (b : list (Z * target)) : bool :=
  existsb (fun pt => bool_decide (t_type pt.2 = type)) b.

(** What the match callbacks decide, read off the entry at address [l]. *)
Definition rule_pred (st : bst) (rm : rule_match) (l : positive) : bool :=
  match ses (env st) !! l with
  | None => false
  | Some se =>
      match rm with
      | RULE_MATCH_LOCAL => has_type SERVICE_RULE_DEMUX (flat (se_sets se))
      | RULE_MATCH_GLOBAL | RULE_MATCH_EXACT =>
          has_type SERVICE_RULE_FORWARD (flat (se_sets se))
      | RULE_MATCH_ANY => true
      end
  end.

(** With a NULL destination the search finds the first target of the type. *)
Lemma match_null sks t type protocol :
  target_ok sks t -> (type = SERVICE_RULE_DEMUX -> protocol = MATCH_ANY_PROTOCOL) ->
  target_matches sks t type NULLPTR 0 protocol = Ok (bool_decide (t_type t = type)).
Proof.
  intros (Hd & _) Hp. unfold target_matches, is_target.
  destruct (decide (t_type t = type)) as [Ht|Ht].
  2: { by rewrite bool_decide_false. }
  rewrite (bool_decide_true (t_type t = type)) by done. destruct type; simpl; try done. destruct (Hd Ht) as [[s ->] _].
  rewrite Hp by done. simpl. by rewrite orb_true_r.
Qed.

Lemma get_null sks sets type protocol :
  targets_ok sks sets ->
  (type = SERVICE_RULE_DEMUX -> protocol = MATCH_ANY_PROTOCOL) ->
  exists r, service_entry_get_target sks sets type NULLPTR 0 protocol = Ok r /\
    match r with
    | Some pos => exists t, target_at sets pos = Some t /\ t_type t = type /\
        has_type type (flat sets) = true /\ target_ok sks t
    | None => has_type type (flat sets) = false
    end.
Proof.
  intros Hok Hp.
  destruct (get_target_ok sks sets type NULLPTR 0 protocol Hok) as (r & Hr & Hspec).
  { intros _. simpl. done. }
  exists r. split; [done|]. destruct r as [pos|].
  - destruct Hspec as (t & Hat & Hm). exists t.
    pose proof (target_at_flat _ _ _ Hat) as Hin.
    apply target_matches_type in Hm. split_and!; try done.
    + apply existsb_exists. eexists. split; [by apply list_elem_of_In|].
      by apply bool_decide_eq_true.
    + unfold targets_ok in Hok. rewrite Forall_forall in Hok. apply (Hok _ Hin).
  - apply not_true_iff_false. intros (pt & Hin & Ht)%existsb_exists.
    apply list_elem_of_In in Hin. unfold targets_ok in Hok.
    rewrite Forall_forall in Hspec, Hok. specialize (Hspec _ Hin). specialize (Hok _ Hin).
    rewrite (match_null sks pt.2 type protocol Hok Hp) in Hspec. congruence.
Qed.

Lemma global_match_ok st n l se :
  get_service n st = Ok (l, st) -> ses (env st) !! l = Some se ->
  targets_ok (socks (env st)) (se_sets se) ->
  service_entry_global_match n st =
  Ok (has_type SERVICE_RULE_FORWARD (flat (se_sets se)), st).
Proof.
  intros Hget Hl Ht. unfold service_entry_global_match.
  rewrite (bind_Ok _ _ _ _ _ Hget).
  rewrite (bind_Ok _ _ _ _ _ (load_se_Ok _ _ _ Hl)), (bind_Ok _ _ _ st st) by done.
  destruct (get_null (socks (env st)) (se_sets se) SERVICE_RULE_FORWARD
    MATCH_NO_PROTOCOL Ht ltac:(done)) as (r & Hg & Hspec).
  rewrite (bind_Ok _ _ _ r st) by (unfold liftO; by rewrite Hg).
  destruct r as [pos|]; [|by rewrite Hspec].
  by destruct Hspec as (t & _ & _ & -> & _).
Qed.

(** The callbacks decide [rule_pred] on the entries of the table. *)
Lemma match_func_ok st m rm key n l :
  table_ok st m -> m !! key = Some (n, l) ->
  match_func rm n st = Ok (rule_pred st rm l, st).
Proof.
  intros Hok Hk. pose proof (tk_refines _ _ Hok) as Hr.
  destruct (tk_entry _ _ Hok _ _ _ Hk) as (se & Hl & (_ & _ & _ & Ht & _)).
  pose proof (get_service_ok _ _ _ _ _ Hr Hk) as Hget.
  unfold rule_pred. rewrite Hl. destruct rm; simpl; try done.
  - unfold service_entry_local_match. rewrite (bind_Ok _ _ _ _ _ Hget).
    rewrite (bind_Ok _ _ _ _ _ (load_se_Ok _ _ _ Hl)), (bind_Ok _ _ _ st st) by done.
    destruct (get_null (socks (env st)) (se_sets se) SERVICE_RULE_DEMUX
      MATCH_ANY_PROTOCOL Ht ltac:(done)) as (r & Hg & Hspec).
    rewrite (bind_Ok _ _ _ r st) by (unfold liftO; by rewrite Hg).
    destruct r as [pos|]; [|by rewrite Hspec].
    destruct Hspec as (t & -> & Htt & -> & (Hd & _)). simpl. rewrite bind_ret.
    destruct (Hd Htt) as (_ & _ & Hne). by rewrite (proj2 (Z.eqb_neq _ _)).
  - by eapply global_match_ok.
  - by eapply global_match_ok.
Qed.

(** The entry a lookup selects in the abstract table. *)
Definition selected (st : bst) (m : gmap (list bool) (positive * positive))
    (rm : rule_match) (key : list bool) : option positive :=
  match @lpm service_client m (rule_pred st rm) key with
  | Some (k, (_, l)) =>
      if negb (bool_decide (rm = RULE_MATCH_EXACT))
         || (length k =? length key)%nat then Some l else None
  | None => None
  end.

Lemma table_find_ok st m srvid prefix rm :
  table_ok st m -> (PREFIX_SIZE prefix <= length srvid)%nat ->
  match selected st m rm (bits_of srvid prefix) with
  | Some l => exists se, ses (env st) !! l = Some se /\
      service_table_find (Some srvid) prefix rm st =
      Ok (Some l, @set_env service_client (env_with_ses
            (<[l := se_with_refcnt (se_refcnt se + 1) se]> (ses (env st)))
            (env st)) st)
  | None => service_table_find (Some srvid) prefix rm st = Ok (None, st)
  end.
Proof.
  intros Hok Hlen. pose proof (tk_refines _ _ Hok) as Hr.
  unfold service_table_find, selected.
  rewrite (bind_Ok _ _ _ _ _ (find_refines _ _ _ _ (Some (match_func rm))
    (rule_pred st rm) Hr
    ltac:(intros; by eapply match_func_ok) Hlen)).
  destruct (@lpm service_client m (rule_pred st rm) (bits_of srvid prefix))
    as [[k [n l]]|] eqn:Hlpm; [|done]. simpl.
  pose proof (lpm_sound _ _ _ _ _ Hlpm) as (Hm & _).
  rewrite (bind_Ok _ _ _ _ _ (key_size _ _ _ _ _ Hr Hm)), length_bits_of.
  destruct (negb _ || _); [|done].
  destruct (tk_entry _ _ Hok _ _ _ Hm) as (se & Hl & (_ & _ & _ & _ & Hrc & _)).
  exists se. split; [done|].
  rewrite (bind_Ok _ _ _ _ _ (get_service_ok _ _ _ _ _ Hr Hm)).
  erewrite (bind_Ok _ _ _ tt).
  2: { apply liftE_Ok. unfold service_entry_hold. by rewrite Hl. }
  by rewrite s32_small by lia.
Qed.

(** Every socket has a holder besides the table. *)
Definition socks_held (sks : gmap Z sock) : Prop :=
  forall sk s, sks !! sk = Some s -> 1 < sk_refcnt s < 2 ^ 31.

Lemma target_free_ok sks t e :
  socks e = sks -> target_ok sks t -> socks_held sks ->
  exists e', target_free t e = Ok e' /\ ses e' = ses e /\
    socks_le (socks e) (socks e') /\ next_se e' = next_se e /\ services e' = services e.
Proof.
  intros <- (Hd & _) Hheld. unfold target_free.
  destruct (is_sock_target t && negb (t_out t =? 0)) eqn:Ht.
  2: { exists e. split_and!; done. }
  apply andb_true_iff in Ht as [[Ht _]%andb_true_iff _].
  apply bool_decide_eq_true in Ht. destruct (Hd Ht) as [[s Hs] _].
  unfold sock_put. rewrite Hs. pose proof (Hheld _ _ Hs).
  rewrite s32_small, (proj2 (Z.eqb_neq _ _)) by lia.
  eexists. split; [done|]. split_and!; try done. by eapply socks_le_insert.
Qed.

(** Reference counting of entries. *)
Lemma hold_ok st l se :
  ses (env st) !! l = Some se -> 0 < se_refcnt se < 2 ^ 31 - 1 ->
  exists st', liftE (service_entry_hold l) st = Ok (tt, st') /\
    socks (env st') = socks (env st) /\
    step_env st st' (<[l := se_with_refcnt (se_refcnt se + 1) se]> (ses (env st))).
Proof.
  intros Hl Hr. eexists. split; [|split].
  - apply liftE_Ok. unfold service_entry_hold. rewrite Hl. by rewrite s32_small by lia.
  - done.
  - split; [by split_and!|done|simpl; reflexivity|done].
Qed.

Lemma put_shared e l se :
  ses e !! l = Some se -> 1 < se_refcnt se < 2 ^ 31 ->
  service_entry_put l e =
  Ok (env_with_ses (<[l := se_with_refcnt (se_refcnt se - 1) se]> (ses e)) e).
Proof.
  intros Hl Hr. unfold service_entry_put. rewrite Hl, s32_small by lia.
  by rewrite (proj2 (Z.eqb_neq _ _)) by lia.
Qed.

(** Dropping a reference to an entry without targets. *)
Lemma put_empty e l se :
  ses e !! l = Some se -> 0 < se_refcnt se < 2 ^ 31 -> se_sets se = [] ->
  exists m, service_entry_put l e = Ok (env_with_ses m e) /\
    (forall y, y <> l -> m !! y = ses e !! y) /\
    (forall y, is_Some (m !! y) -> is_Some (ses e !! y)).
Proof.
  intros Hl Hr Hs. destruct (decide (se_refcnt se = 1)) as [H1|H1].
  - exists (delete l (ses e)). split; [|split].
    + apply (put_last _ _ _ e Hl H1). by rewrite Hs.
    + intros y Hy. by rewrite lookup_delete_ne.
    + intros y. rewrite lookup_delete_is_Some. tauto.
  - eexists. split; [by apply (put_shared _ _ se); [|lia]|split].
    + intros y Hy. by rewrite lookup_insert_ne.
    + intros y. rewrite lookup_insert_is_Some. intros [<-|[_ ?]]; eauto.
Qed.

(** ** Removing one target from an entry *)
Lemma removal_matches_ok sks type dst dstlen t :
  target_ok sks t -> (dstlen <= ADDR_LEN)%nat -> (dstlen <= length (p_bytes dst))%nat ->
  exists b, removal_matches type dst dstlen t = Ok b.
Proof.
  intros Hok H1 H2. unfold removal_matches.
  destruct (negb _); [eauto|]. destruct (t_type t) eqn:Ht; eauto.
  by eapply memcmp_ok.
Qed.

(** The first target that matches leaves the bag. *)
Definition removed (type : service_rule_type) (dst : cptr) (dstlen : nat)
    (b : list (Z * target)) (t : target) (b' : list (Z * target)) : Prop :=
  removal_matches type dst dstlen t = Ok true /\ exists p, b ≡ₚ (p, t) :: b'.

Lemma entry_remove_ok st l se type dst dstlen :
  ses (env st) !! l = Some se -> sets_ok (se_sets se) ->
  Z.of_nat (n_targets (se_sets se)) < 2 ^ 16 ->
  targets_ok (socks (env st)) (se_sets se) -> socks_held (socks (env st)) ->
  (dstlen <= ADDR_LEN)%nat -> (dstlen <= length (p_bytes dst))%nat ->
  exists r st', entry_remove_target l type dst dstlen st = Ok (r, st') /\
    ((r = (0, None) /\ st' = st /\
      Forall (fun pt => removal_matches type dst dstlen pt.2 = Ok false)
        (flat (se_sets se))) \/
     exists t sets', r = (1, Some (stats_of t)) /\ sets_ok sets' /\
       removed type dst dstlen (flat (se_sets se)) t (flat sets') /\
       step_env st st'
         (<[l := se_with_sets sets' (u32 (se_count se - 1)) se]> (ses (env st)))).
Proof.
  intros Hl Hs Hb Ht Hheld H1 H2. unfold entry_remove_target.
  rewrite (bind_Ok _ _ _ _ _ (load_se_Ok _ _ _ Hl)).
  destruct (find_target_ok (removal_matches type dst dstlen) (se_sets se) 0)
    as (r & Hf & Hr).
  { eapply Forall_impl; [exact Ht|]. intros [p t] Hok. by eapply removal_matches_ok. }
  rewrite (bind_Ok _ _ _ r st) by (unfold liftO; by rewrite Hf).
  destruct r as [[j ti]|]; [|eexists _, st; split; [done|]; by left].
  destruct Hr as (s & t & _ & Hsj & Hti & Hm). rewrite Nat.sub_0_r in Hsj.
  assert (target_at (se_sets se) (j, ti) = Some t) as Hat
    by (unfold target_at; simpl; by rewrite Hsj).
  destruct (remove_at_ok _ _ _ Hs Hb Hat) as (p & sets' & Hrem & Hs' & _ & Hp & _).
  rewrite Hrem. simpl. rewrite bind_ret.
  assert (target_ok (socks (env st)) t) as Htok.
  { unfold targets_ok in Ht. rewrite Hp in Ht. by apply Forall_cons in Ht as [? _]. }
  destruct (target_free_ok _ _ (env st) eq_refl Htok Hheld)
    as (e' & Hfree & F1 & F2 & F3 & F4).
  rewrite (bind_Ok _ _ _ _ _ (liftE_Ok _ _ _ Hfree)).
  set (st1 := @set_env service_client e' st).
  rewrite (bind_Ok _ _ _ tt st1) by done.
  rewrite (bind_Ok _ _ _ _ _ (store_se_Ok st1 l se _ ltac:(by rewrite <-F1 in Hl))).
  eexists _, _. split; [done|]. right. exists t, sets'. split_and!; try done.
  { split; [done|]. eauto. }
  split; [by split_and!|by simpl; rewrite F1|done|].
  split; simpl; [rewrite F3; reflexivity|done].
Qed.

Lemma entry_good_remove sks sks' n se sets' p t :
  entry_good sks n se -> sets_ok sets' -> socks_le sks sks' ->
  flat (se_sets se) ≡ₚ (p, t) :: flat sets' -> sets' <> [] ->
  entry_good sks' n (se_with_sets sets' (u32 (se_count se - 1)) se).
Proof.
  intros (? & [_ Hc] & _ & Ht & Hr & Hb) Hs Hle Hp Hne.
  pose proof (n_targets_perm _ _ _ _ Hp) as Hn.
  unfold targets_ok in Ht. rewrite Hp in Ht. apply Forall_cons in Ht as [_ Ht].
  split_and!; simpl; try done; try lia; [split; [done|]|].
  - simpl. rewrite Hc, u32_sub, Hn. f_equal. lia.
  - by eapply targets_ok_le.
Qed.

(** What a deletion of one target does to the abstract table. *)
Definition del_result (st : bst) (m : gmap (list bool) (positive * positive))
    (key : list bool) (type : service_rule_type) (dst : cptr) (dstlen : nat)
    (r : Z * option target_stats) (st' : bst) : Prop :=
  exists m', table_ok st' m' /\
    (forall k, k <> key -> bag st' m' k = bag st m k) /\
    ((r = (0, None) /\ m' = m /\ bag st' m' key = bag st m key /\
      Forall (fun pt => removal_matches type dst dstlen pt.2 = Ok false)
        (bag st m key)) \/
     exists t, r = (1, Some (stats_of t)) /\
       removed type dst dstlen (bag st m key) t (bag st' m' key) /\
       m' = (if decide (bag st' m' key = []) then delete key m else m)).

(** An entry leaves the table with its node. *)
Lemma table_ok_delete st st' m key n l :
  table_ok st m -> m !! key = Some (n, l) -> refines st' (delete key m) ->
  (forall y, y <> l -> ses (env st') !! y = ses (env st) !! y) ->
  (forall y, is_Some (ses (env st') !! y) -> is_Some (ses (env st) !! y)) ->
  socks_le (socks (env st)) (socks (env st')) ->
  (next_se (env st) <= next_se (env st'))%positive ->
  services (env st') = u32 (services (env st) - 1) ->
  table_ok st' (delete key m) /\ bag st' (delete key m) key = [] /\
  forall k, k <> key -> bag st' (delete key m) k = bag st m k.
Proof.
  intros [T1 T2 T3 T4 T5 T6] Hk Hr Hs Hd Hle Hn Hv.
  assert (forall k n' l', k <> key -> m !! k = Some (n', l') -> l' <> l) as Hother.
  { intros k n' l' Hne Hk' ->. apply Hne. eauto. }
  pose proof (map_size_delete_Some key m ltac:(eauto)) as Hsz.
  assert (size m <> 0%nat).
  { intros ->%map_size_empty_iff. by rewrite lookup_empty in Hk. }
  split_and!.
  - split; try done.
    + intros k n' l' [Hne Hk']%lookup_delete_Some. rewrite Hs by eauto.
      destruct (T2 _ _ _ Hk') as (se & ? & ?). eauto using entry_good_le.
    + intros k k' n1 n2 l' [_ ?]%lookup_delete_Some [_ ?]%lookup_delete_Some. eauto.
    + intros y Hy. apply Hd in Hy. specialize (T4 y Hy). lia.
    + rewrite Hv, T5, Hsz. unfold u32. rewrite Z.mod_small; lia.
    + rewrite Hsz. lia.
  - unfold bag. by rewrite lookup_delete_eq.
  - intros k Hne. unfold bag. rewrite lookup_delete_ne by done.
    destruct (m !! k) as [[n' l']|] eqn:Hk'; [|done]. by rewrite Hs by eauto.
Qed.

(** The release of the node of an emptied entry, and the last put. *)
Lemma release_entry st st2 m key n l se :
  table_ok st m -> m !! key = Some (n, l) ->
  step_env st st2 (<[l := se]> (ses (env st))) ->
  se_sets se = [] -> 1 < se_refcnt se < 2 ^ 31 -> (key <> [] \/ 1 < size m)%nat ->
  exists st', ((bst_node_release n;; service_dec);; liftE (service_entry_put l)) st2
                = Ok (tt, st') /\
    table_ok st' (delete key m) /\ bag st' (delete key m) key = [] /\
    forall k, k <> key -> bag st' (delete key m) k = bag st m k.
Proof.
  intros Hok Hk [HT HS HK [HN HV]] Hs Hr Hside.
  assert (ses (env st2) !! l = Some se) as Hl2 by (rewrite HS; apply lookup_insert_eq).
  pose proof (put_shared _ _ _ Hl2 Hr) as Hput.
  set (e2 := env_with_ses (<[l := se_with_refcnt (se_refcnt se - 1) se]>
    (ses (env st2))) (env st2)) in Hput.
  destruct (release_refines st2 m key n l e2
    (refines_same_tree _ _ _ HT (tk_refines _ _ Hok)) Hk) as (st3 & Hrel & He & Hr3 & _).
  { pose proof (tk_bound _ _ Hok) as Hb. eapply Z.lt_trans; [|exact Hb]. apply Z.lt_succ_diag_r. }
  { intros []. exact Hput. }
  { done. }
  unfold service_dec, modE. erewrite (bind_Ok _ _ _ tt).
  2: { rewrite (bind_Ok _ _ _ _ _ Hrel). reflexivity. }
  set (st4 := set_env _ st3).
  destruct (put_empty (env st4) l (se_with_refcnt (se_refcnt se - 1) se))
    as (m4 & Hput4 & Hsame & Hdom); [|simpl; lia|done|].
  { subst st4. cbn. rewrite He. cbn. apply lookup_insert_eq. }
  eexists. split; [by apply liftE_Ok|].
  assert (forall y, y <> l -> ses (env st4) !! y = ses (env st) !! y) as Hold.
  { intros y Hy. subst st4. cbn. rewrite He. cbn.
    by rewrite HS, insert_insert_eq, lookup_insert_ne. }
  apply (table_ok_delete st _ m key n l); try done; subst st4; cbn in *.
  - apply (refines_same_tree st3); [by split_and!|done].
  - intros y Hy. rewrite Hsame by done. by apply Hold.
  - intros y Hy%Hdom. destruct (decide (y = l)) as [->|Hne].
    + destruct (tk_entry _ _ Hok _ _ _ Hk) as (x & -> & _). eauto.
    + rewrite <-(Hold y Hne). done.
  - rewrite He. done.
  - rewrite He. done.
  - rewrite He. simpl. by rewrite HV.
Qed.

(** Hold, remove, release when empty, put: on the abstract table one target
    leaves the bag of the key, and an emptied key disappears. *)
Lemma drop_ok st m key n l (node : SM positive) type dst dstlen test :
  table_ok st m -> m !! key = Some (n, l) -> socks_held (socks (env st)) ->
  (forall st' se, ses (env st') !! l = Some se -> se_node se = Some n ->
     node st' = Ok (n, st')) ->
  test 1 = true -> (dstlen <= ADDR_LEN)%nat -> (dstlen <= length (p_bytes dst))%nat ->
  (key <> [] \/ 1 < size m)%nat ->
  exists r st',
    drop_targets l node (entry_remove_target l type dst dstlen) test st
      = Ok (r, st') /\ del_result st m key type dst dstlen r st'.
Proof.
  intros Hok Hk Hheld Hnode Htest H1 H2 Hside.
  destruct (tk_entry _ _ Hok _ _ _ Hk) as (se & Hl & Hgood).
  pose proof Hgood as (Hn & [Hs _] & Hne & Ht & Hr & Hb).
  unfold drop_targets.
  destruct (hold_ok st l se Hl Hr) as (st1 & Hrun1 & Hsk1 & Hst1).
  rewrite (bind_Ok _ _ _ _ _ Hrun1).
  set (se1 := se_with_refcnt (se_refcnt se + 1) se) in *.
  assert (ses (env st1) !! l = Some se1) as Hl1
    by (rewrite (step_ses _ _ _ Hst1); apply lookup_insert_eq).
  destruct (entry_remove_ok st1 l se1 type dst dstlen)
    as (r & st2 & Hrun2 & Hcase); rewrite ?Hsk1; try done.
  rewrite (bind_Ok _ _ _ _ _ Hrun2).
  destruct Hcase as [(-> & -> & Hnone)|(t & sets' & -> & Hs' & [Hm [p Hp]] & Hst2)].
  - rewrite (bind_Ok _ _ _ _ _ (load_se_Ok _ _ _ Hl1)).
    change (se_sets se1) with (se_sets se) in *.
    destruct (se_sets se) as [|s sets] eqn:Hsets; [done|].
    rewrite (bind_Ok _ _ _ tt st1) by done.
    erewrite (bind_Ok _ _ st1 tt); [|by apply liftE_Ok, (put_shared _ _ _ Hl1); simpl; lia].
    eexists _, _. split; [done|]. destruct (table_ok_step st
      (@set_env service_client (env_with_ses (<[l := se_with_refcnt
         (se_refcnt se1 - 1) se1]> (ses (env st1))) (env st1)) st1) m Hok) as [H3 H4].
    { destruct Hst1 as [? HS1 ? ?]. split; try done. simpl.
      rewrite HS1, insert_insert_eq. subst se1. simpl.
      replace (se_refcnt se + 1 - 1) with (se_refcnt se) by lia.
      apply insert_id. rewrite Hl. by destruct se. }
    exists m. split_and!; auto. left. split_and!; auto.
    by rewrite (bag_at _ _ _ _ _ _ Hk Hl), Hsets.
  - pose proof (step_env_trans _ _ _ _ _ Hst1 Hst2) as Hst.
    rewrite (step_ses _ _ _ Hst1), insert_insert_eq in Hst.
    set (se2 := se_with_sets sets' (u32 (se_count se1 - 1)) se1) in *.
    assert (ses (env st2) !! l = Some se2) as Hl2
      by (rewrite (step_ses _ _ _ Hst); apply lookup_insert_eq).
    rewrite (bind_Ok _ _ _ _ _ (load_se_Ok _ _ _ Hl2)). cbn [se_sets se2 se_with_sets].
    assert (bag st m key = flat (se_sets se)) as Hbag by (by apply (bag_at _ _ _ n l)).
    destruct sets' as [|s sets].
    + rewrite Htest. destruct (release_entry st st2 m key n l se2) as
        (st' & Hrun3 & R1 & R2 & R3); try done; [simpl; lia|].
      apply bind_Ok_inv in Hrun3 as ([] & st3 & Hrun3 & Hrun4).
      erewrite (bind_Ok _ _ _ tt st3).
      2: { by rewrite (bind_Ok _ _ _ _ _ (Hnode st2 se2 Hl2 Hn)). }
      rewrite (bind_Ok _ _ _ _ _ Hrun4). eexists _, st'. split; [done|].
      exists (delete key m). split_and!; try done. right. exists t.
      rewrite decide_True by done. split_and!; try done. rewrite R2, Hbag.
      split; [done|]. by exists p.
    + rewrite (bind_Ok _ _ _ tt st2) by done.
      erewrite (bind_Ok _ _ st2 tt); [|by apply liftE_Ok, (put_shared _ _ _ Hl2); simpl; lia].
      eexists _, _. split; [done|].
      destruct (table_ok_update st
        (@set_env service_client (env_with_ses (<[l := se_with_refcnt
           (se_refcnt se2 - 1) se2]> (ses (env st2))) (env st2)) st2) m key n l se
        (se_with_sets (s :: sets) (u32 (se_count se - 1)) se)) as (U1 & U2 & U3); try done.
      { destruct Hst as [? HS2 ? ?]. split; try done. simpl.
        rewrite HS2, insert_insert_eq. do 2 f_equal. subst se2 se1.
        unfold se_with_refcnt, se_with_sets. simpl. f_equal. lia. }
      { eapply entry_good_remove; try done. apply (step_socks _ _ _ Hst). }
      exists m. split_and!; try done. right. exists t. rewrite U2, Hbag.
      split_and!; try done; [split; [done|]; by exists p|].
      rewrite decide_False; [done|]. cbn [se_sets se_with_sets]. rewrite flat_cons.
      destruct Hs' as [_ [(Hne' & _) _]%Forall_cons]. unfold flat_set.
      by destruct (s_list s).
Qed.

(** C18 (functional): [service_table_del_target] works on the entry of the longest
    prefix of the identifier that has one; it removes one rule that matches the
    arguments, returning its statistics, or changes nothing when there is none;
    an entry left without rules leaves the table; all other prefixes keep their
    rules and the table stays well-formed.  Where no prefix has an entry, nothing
    changes.  Two cases are left out: the entry found is the only one of the table
    and has the empty prefix (removing its last rule would free the root of the
    trie and then read it, bst.c line 361, [release_root_faults]); and a
    destination of more than the four bytes a rule stores.  The sockets of the
    rules are held by more than the table ([socks_held]), so that removing a rule
    frees none. *)
Theorem table_del_target_ok st m srvid bits type dst dstlen :
  table_ok st m -> (PREFIX_SIZE bits <= length srvid)%nat ->
  socks_held (socks (env st)) ->
  (dstlen <= ADDR_LEN)%nat -> (dstlen <= length (p_bytes dst))%nat ->
  match @lpm service_client m (fun _ => true) (bits_of srvid bits) with
  | None => service_table_del_target srvid bits type dst dstlen st = Ok (None, st)
  | Some (key, _) => (key <> [] \/ 1 < size m)%nat ->
      exists r st',
        service_table_del_target srvid bits type dst dstlen st = Ok (r.2, st') /\
        del_result st m key type dst dstlen r st'
  end.
Proof.
  intros Hok Hlen Hheld H1 H2. pose proof (tk_refines _ _ Hok) as Hr.
  unfold service_table_del_target, bst_find_longest_prefix.
  rewrite (bind_Ok _ _ _ _ _ (find_refines _ _ _ _ None (fun _ => true) Hr
    ltac:(done) Hlen)).
  destruct (@lpm service_client m (fun _ => true) (bits_of srvid bits))
    as [[key [n l]]|] eqn:Hlpm; [|done]. simpl. intros Hside.
  pose proof (lpm_sound _ _ _ _ _ Hlpm) as (Hk & _).
  rewrite (bind_Ok _ _ _ _ _ (get_service_ok _ _ _ _ _ Hr Hk)).
  destruct (drop_ok st m key n l (mret n) type dst dstlen (fun ret => 0 <? ret))
    as (r & st' & Hrun & Hres); try done.
  rewrite (bind_Ok _ _ _ _ _ Hrun). exists r, st'. by destruct r.
Qed.

(** ** Deleting a whole entry *)

(** Every socket has more than [k] holders. *)
Definition held_by (k : nat) (sks : gmap Z sock) : Prop :=
  forall sk s, sks !! sk = Some s -> Z.of_nat k < sk_refcnt s < 2 ^ 31.

Lemma target_free_held k t e :
  target_ok (socks e) t -> held_by (S k) (socks e) ->
  exists e', target_free t e = Ok e' /\ ses e' = ses e /\
    socks_le (socks e) (socks e') /\ held_by k (socks e') /\
    next_se e' = next_se e /\ services e' = services e.
Proof.
  intros (Hd & _) Hheld. unfold target_free.
  destruct (is_sock_target t && negb (t_out t =? 0)) eqn:Ht.
  2: { exists e. split_and!; try done. intros sk s Hs. specialize (Hheld _ _ Hs). lia. }
  apply andb_true_iff in Ht as [[Ht _]%andb_true_iff _].
  apply bool_decide_eq_true in Ht. destruct (Hd Ht) as [[s Hs] _].
  unfold sock_put. rewrite Hs. pose proof (Hheld _ _ Hs).
  rewrite s32_small, (proj2 (Z.eqb_neq _ _)) by lia.
  eexists. split; [done|]. split_and!; try done; [by eapply socks_le_insert|].
  intros sk x. simpl. rewrite lookup_insert_Some. intros [[<- <-]|[_ Hx]]; simpl; [lia|].
  specialize (Hheld _ _ Hx). lia.
Qed.

Lemma free_targets_held ts : forall k e,
  Forall (target_ok (socks e)) ts -> held_by (length ts + k) (socks e) ->
  exists e', free_targets ts e = Ok e' /\ ses e' = ses e /\
    socks_le (socks e) (socks e') /\ held_by k (socks e') /\
    next_se e' = next_se e /\ services e' = services e.
Proof.
  induction ts as [|t ts IH]; intros k e Hok Hheld; simpl in *.
  { exists e. split_and!; try done. }
  apply Forall_cons in Hok as [Ht Hok].
  destruct (target_free_held _ _ _ Ht Hheld) as (e1 & -> & S1 & L1 & H1 & N1 & V1).
  simpl. destruct (IH k e1) as (e2 & -> & S2 & L2 & H2 & N2 & V2); try done.
  { eapply Forall_impl; [exact Hok|]. intros x Hx.
    assert (targets_ok (socks e) [TargetSet [x] 0 0 0 0]) as Hx'
      by (constructor; [done|constructor]).
    apply (targets_ok_le _ _ _ L1) in Hx'. by apply Forall_cons in Hx' as [? _]. }
  exists e2. split_and!; try congruence; try done. by etrans.
Qed.

Lemma free_sets_held sets : forall k e,
  targets_ok (socks e) sets -> held_by (n_targets sets + k) (socks e) ->
  exists e', free_sets sets e = Ok e' /\ ses e' = ses e /\
    socks_le (socks e) (socks e') /\ held_by k (socks e') /\
    next_se e' = next_se e /\ services e' = services e.
Proof.
  induction sets as [|s sets IH]; intros k e Hok Hheld; cbn [free_sets].
  { exists e. split_and!; try done. }
  unfold targets_ok in Hok. rewrite flat_cons in Hok.
  apply Forall_app in Hok as [Hs Hok]. unfold flat_set in Hs. rewrite Forall_fmap in Hs.
  change (n_targets (s :: sets)) with (length (s_list s) + n_targets sets)%nat in Hheld.
  rewrite <-Nat.add_assoc in Hheld.
  destruct (free_targets_held _ _ _ Hs Hheld) as (e1 & He & S1 & L1 & H1 & N1 & V1).
  unfold target_set_free. rewrite He. simpl.
  destruct (IH k e1) as (e2 & -> & S2 & L2 & H2 & N2 & V2); try done.
  { by eapply targets_ok_le. }
  exists e2. split_and!; try congruence; try done. by etrans.
Qed.

(** Dropping a reference to any entry. *)
Lemma put_any e l se :
  ses e !! l = Some se -> 0 < se_refcnt se < 2 ^ 31 ->
  targets_ok (socks e) (se_sets se) -> held_by (n_targets (se_sets se)) (socks e) ->
  exists e', service_entry_put l e = Ok e' /\
    (forall y, y <> l -> ses e' !! y = ses e !! y) /\
    (forall y, is_Some (ses e' !! y) -> is_Some (ses e !! y)) /\
    socks_le (socks e) (socks e') /\ next_se e' = next_se e /\ services e' = services e.
Proof.
  intros Hl Hr Ht Hheld. destruct (decide (se_refcnt se = 1)) as [H1|H1].
  - destruct (free_sets_held (se_sets se) 0 e Ht) as (e1 & Hf & S1 & L1 & _ & N1 & V1).
    { by rewrite Nat.add_0_r. }
    eexists. split; [by apply (put_last _ _ _ e1 Hl H1)|]. simpl. split_and!; try done.
    + intros y Hy. by rewrite lookup_delete_ne.
    + intros y. rewrite lookup_delete_is_Some. tauto.
  - eexists. split; [by apply (put_shared _ _ se); [|lia]|]. simpl. split_and!; try done.
    + intros y Hy. by rewrite lookup_insert_ne.
    + intros y. rewrite lookup_insert_is_Some. intros [<-|[_ ?]]; eauto.
Qed.

(** [service_table_del] deletes the entry of exactly this prefix
    with all its rules, if there is one, and leaves every other prefix and the
    well-formedness of the table as they are. *)
Theorem table_del_ok st m srvid bits :
  table_ok st m -> (PREFIX_SIZE bits <= length srvid)%nat ->
  held_by (length (bag st m (bits_of srvid bits))) (socks (env st)) ->
  match m !! bits_of srvid bits with
  | None => service_table_del srvid bits st = Ok (tt, st)
  | Some _ => exists st', service_table_del srvid bits st = Ok (tt, st') /\
      table_ok st' (delete (bits_of srvid bits) m) /\
      bag st' (delete (bits_of srvid bits) m) (bits_of srvid bits) = [] /\
      forall k, k <> bits_of srvid bits ->
        bag st' (delete (bits_of srvid bits) m) k = bag st m k
  end.
Proof.
  intros Hok Hlen Hheld. unfold service_table_del.
  pose proof (remove_refines st m srvid bits (tk_refines _ _ Hok) Hlen) as Hrem.
  pose proof (tk_bound _ _ Hok) as Hb.
  assert (Z.of_nat (size m) < 2 ^ 32) as Hb' by lia. specialize (Hrem Hb'). clear Hb'.
  destruct (m !! bits_of srvid bits) as [[n l]|] eqn:Hk.
  2: { assert (bst_remove_prefix srvid bits st = Ok (0, st)) as Hrun
         by (revert Hrem; change Priv with positive; by rewrite Hk).
       by rewrite (bind_Ok _ _ _ _ _ Hrun). }
  destruct (tk_entry _ _ Hok _ _ _ Hk) as (se & Hl & (_ & _ & _ & Ht & Hr & _)).
  rewrite (bag_at _ _ _ _ _ _ Hk Hl), length_flat in Hheld.
  destruct (put_any (env st) l se Hl ltac:(lia) Ht Hheld)
    as (e' & Hput & Hsame & Hdom & Hle & Hn & Hv).
  assert (exists st1, bst_remove_prefix srvid bits st = Ok (1, st1) /\ env st1 = e' /\
            refines st1 (delete (bits_of srvid bits) m)) as (st1 & Hrun & He & Hr1).
  { revert Hrem. change Priv with positive. rewrite Hk. intros Hrem.
    destruct (Hrem e') as (st1 & ? & [? _] & ?); [intros []; exact Hput|eauto]. }
  rewrite (bind_Ok _ _ _ _ _ Hrun). simpl. eexists. split; [done|].
  apply (table_ok_delete st _ m _ n l); try done; cbn; rewrite ?He.
  - by apply (refines_same_tree st1).
  - done.
  - done.
  - done.
  - rewrite Hn. done.
  - by rewrite Hv.
Qed.
