(* ===== verification/ServiceClaims.v ===== *)
(** * The service table: its main theorems

    Adding a rule and finding it again, longest-prefix search under each match
    rule, and a concrete table on which the theorems about the table are
    used. *)
From S2P Require Import Prelude Bst BstRep BstFind BstInsert BstRemove BstHistory.
From S2P Require Import ServiceEntry ServiceTable ServiceInv ServiceRefine ServiceAdd ServiceDel.
Local Open Scope Z_scope.

(** An entry of the table is found under its own key. *)
Lemma find_own st m srvid bits n l :
  table_ok st m -> (PREFIX_SIZE bits <= length srvid)%nat ->
  m !! bits_of srvid bits = Some (n, l) ->
  exists st', service_table_find (Some srvid) bits RULE_MATCH_ANY st = Ok (Some l, st').
Proof.
  intros Hok Hlen Hk. pose proof (table_find_ok st m srvid bits RULE_MATCH_ANY Hok Hlen) as H.
  unfold selected in H.
  destruct (tk_entry _ _ Hok _ _ _ Hk) as (se & Hl & _).
  pose proof (lpm_exact_match (BC := service_client) m (rule_pred st RULE_MATCH_ANY) _ _ Hk) as E.
  specialize (E ltac:(simpl; unfold rule_pred; by rewrite Hl)).
  rewrite E in H. simpl in H. destruct H as (se' & _ & H). eauto.
Qed.

(** A prefix with a rule has an entry. *)
Lemma bag_cons st m key x b :
  bag st m key ≡ₚ x :: b -> exists n l se, m !! key = Some (n, l) /\
    ses (env st) !! l = Some se /\ bag st m key = flat (se_sets se).
Proof.
  unfold bag. intros H. destruct (m !! key) as [[n l]|]; [|by apply Permutation_nil_l in H].
  destruct (ses (env st) !! l) as [se|] eqn:Hl; [|by apply Permutation_nil_l in H].
  by exists n, l, se.
Qed.

(** C9 (refinement): [service_table_add] with valid arguments runs to completion
    on every well-formed table, keeps it well-formed and leaves the rules of
    every other prefix alone; when it reports success the bag of rules of its
    own prefix gained exactly the new rule, with the given priority, weight and
    destination, and [service_table_find] on that prefix returns the entry that
    holds the bag; when it reports an error (or that the rule was there already) the bag
    is unchanged. *)
Theorem service_add_found st m srvid prefix_bits type flags priority weight dst dstlen out :
  let bits := table_bits srvid prefix_bits in
  let key := bits_of srvid bits in
  table_ok st m -> (PREFIX_SIZE bits <= length srvid)%nat ->
  add_args_ok type dst dstlen = true ->
  args_ok (env st) type dst dstlen out -> 0 <= weight < 2 ^ 32 ->
  Z.of_nat (size m) + 2 < 2 ^ 32 ->
  Z.of_nat (length (bag st m key)) + 1 < 2 ^ 16 ->
  exists ret st' m',
    service_table_add (Some srvid) prefix_bits type flags priority weight dst
      dstlen out st = Ok (ret, st') /\ table_ok st' m' /\
    (forall k, k <> key -> bag st' m' k = bag st m k) /\
    ((ret = 1 /\ exists t l se st2, is_new_target t type weight dst dstlen out /\
        service_table_find (Some srvid) bits RULE_MATCH_ANY st' = Ok (Some l, st2) /\
        ses (env st') !! l = Some se /\
        flat (se_sets se) ≡ₚ (priority, t) :: bag st m key) \/
     (ret ∈ [0; - EADDRINUSE; - ENOMEM; - EEXIST] /\ m' = m /\
        bag st' m' key = bag st m key)).
Proof.
  intros bits key Hok Hlen Hargs Ha Hw Hsz Hb.
  destruct (table_add_ok st m srvid prefix_bits type flags priority weight dst dstlen out
    Hok Hlen Hargs Ha Hw Hsz Hb) as (ret & st' & Hrun & m' & Hok' & Hframe & Hcase).
  exists ret, st', m'. split_and!; try done.
  destruct Hcase as [(-> & t & Ht & Hbag)|Hcase]; [left|by right]. split; [done|].
  fold bits key in Hbag. destruct (bag_cons _ _ _ _ _ Hbag) as (n & l & se & Hk & Hl & Hse).
  rewrite Hse in Hbag.
  destruct (find_own st' m' srvid bits n l Hok' Hlen Hk) as (st2 & Hf).
  exists t, l, se, st2. done.
Qed.

(** C17 (functional): [service_table_find] with a match rule other than the exact
    one returns an entry iff some prefix of the identifier has an entry that
    satisfies the rule, and it is the entry of the longest such prefix. *)
Theorem service_find_longest st m srvid bits rm :
  table_ok st m -> (PREFIX_SIZE bits <= length srvid)%nat -> rm <> RULE_MATCH_EXACT ->
  let hit i l := exists n, m !! take i (bits_of srvid bits) = Some (n, l) /\
                   rule_pred st rm l = true in
  exists r st', service_table_find (Some srvid) bits rm st = Ok (r, st') /\
    match r with
    | Some l => exists i, (i <= bits)%nat /\ hit i l /\
        forall j l', (i < j <= bits)%nat -> ~ hit j l'
    | None => forall j l', (j <= bits)%nat -> ~ hit j l'
    end.
Proof.
  intros Hok Hlen Hrm hit. pose proof (table_find_ok st m srvid bits rm Hok Hlen) as H.
  unfold selected in H. rewrite bool_decide_false in H by done. simpl in H.
  destruct (@lpm service_client m (rule_pred st rm) (bits_of srvid bits))
    as [[k [n l]]|] eqn:Hlpm; unfold lpm in Hlpm; rewrite length_bits_of in Hlpm.
  - destruct H as (se & Hl & H). eexists (Some l), _. split; [exact H|].
    apply lpm_from_longest in Hlpm as (i & Hi & -> & Hm & Hp & Hmax).
    exists i. split; [done|]. split; [by exists n|].
    intros j l' Hj (n' & Hm' & Hp'). apply (Hmax _ _ Hj) in Hm'. simpl in Hm'. congruence.
  - eexists None, _. split; [exact H|]. intros j l' Hj (n' & Hm' & Hp').
    apply (proj1 (lpm_from_None _ _ _ _) Hlpm _ _ Hj) in Hm'. simpl in Hm'. congruence.
Qed.

(** ** A concrete table *)
Lemma Ok_inj {A B} (a a' : A) (b b' : B) : Ok (a, b) = Ok (a', b') -> a' = a /\ b' = b.
Proof. intros H. injection H as -> ->. done. Qed.
Module Demo.
Definition env0 : senv := SEnv ∅ {[77 := Sock 6 5]} 1 0 0 0 0 0.
Definition st0 : @bst service_client := @bst_empty service_client [] env0.
Lemma st0_ok : table_ok st0 ∅.
Proof.
  split; try done.
  - apply (refines_empty (BC := service_client)).
  - intros l [x Hx]. simpl in Hx. by rewrite lookup_empty in Hx.
Qed.

Definition web : list Z := [10; 20; 30; 40].
Definition dst : cptr := Ptr 1 [192; 168; 0; 1].
Definition key : list bool := bits_of web 16.

(** The arguments satisfy what [service_table_add] needs. *)
Lemma args_good : args_ok (env st0) SERVICE_RULE_FORWARD dst 4 2.
Proof. split_and!; [done|simpl; unfold ADDR_LEN; lia|done]. Qed.
Lemma prefix_good : (PREFIX_SIZE (table_bits web 16) <= length web)%nat.
Proof. change (2 <= 4)%nat. lia. Qed.
Lemma size_good : Z.of_nat (size (∅ : gmap (list bool) (positive * positive))) + 2 < 2 ^ 32.
Proof. by rewrite map_size_empty. Qed.
Lemma weight_good : 0 <= 100 < 2 ^ 32.
Proof. lia. Qed.
Lemma bag_good : Z.of_nat (length (bag st0 ∅ (bits_of web (table_bits web 16)))) + 1 < 2 ^ 16.
Proof. unfold bag. rewrite lookup_empty. simpl. lia. Qed.

(** The table after that rule was added. *)
Definition add1 : outcome (Z * @bst service_client) :=
  service_table_add (Some web) 16 SERVICE_RULE_FORWARD 0 1 100 dst 4 2 st0.
Definition st1 : @bst service_client := match add1 with Ok (_, st) => st | _ => st0 end.
Lemma add1_run : add1 = Ok (1, st1).
Proof.
  assert (match add1 with Ok (r, _) => r =? 1 | _ => false end = true) as H
    by (vm_compute; reflexivity).
  unfold st1. destruct add1 as [[r st]| |]; [|done|done]. by apply Z.eqb_eq in H as ->.
Qed.
Lemma se1_known l se :
  ses (env st1) !! l = Some se ->
  l = 1%positive /\ rule_pred st1 RULE_MATCH_GLOBAL 1%positive = true /\
  length (flat (se_sets se)) = 1%nat.
Proof.
  assert (forallb (fun x => (x.1 =? 1)%positive && (length (flat (se_sets x.2)) =? 1)%nat)
    (map_to_list (ses (env st1))) = true) as Hall by (vm_compute; reflexivity).
  intros Hl. rewrite forallb_forall in Hall. specialize (Hall (l, se)).
  rewrite <-list_elem_of_In, elem_of_map_to_list in Hall.
  apply Hall, andb_true_iff in Hl as [Hl%Pos.eqb_eq Hn%Nat.eqb_eq]. simpl in Hl, Hn. subst l.
  split; [done|]. split; [vm_compute; reflexivity|done].
Qed.

Lemma service_add_found_witness : exists ret st' m', add1 = Ok (ret, st') /\
  table_ok st' m' /\ ret = 1.
Proof.
  destruct (service_add_found st0 ∅ web 16 SERVICE_RULE_FORWARD 0 1 100 dst 4 2
      st0_ok prefix_good eq_refl args_good weight_good size_good bag_good)
    as (ret & st' & m' & Hrun & Hok & _ & _).
  exists ret, st', m'. split; [exact Hrun|]. split; [exact Hok|].
  pose proof (eq_trans (eq_sym add1_run) Hrun) as E. exact (proj1 (Ok_inj _ _ _ _ E)).
Defined.

Lemma st1_ok : exists m1 n, table_ok st1 m1 /\ m1 !! key = Some (n, 1%positive) /\
  size m1 = 1%nat /\ length (bag st1 m1 key) = 1%nat.
Proof.
  destruct (table_add_ok st0 ∅ web 16 SERVICE_RULE_FORWARD 0 1 100 dst 4 2
      st0_ok prefix_good eq_refl args_good weight_good size_good bag_good)
    as (ret & st' & Hrun & m' & Hok & _ & Hc).
  pose proof (eq_trans (eq_sym add1_run) Hrun) as E.
  destruct (Ok_inj _ _ _ _ E) as [-> ->].
  assert (services (env st1) = 1) as Hs by (vm_compute; reflexivity).
  rewrite (tk_services _ _ Hok) in Hs.
  destruct Hc as [(_ & t & Ht & Hbag)|(Hc & _)].
  2: { apply list_elem_of_In in Hc. simpl in Hc. unfold EADDRINUSE, ENOMEM, EEXIST in Hc. lia. }
  change (bits_of web (table_bits web 16)) with key in Hbag.
  destruct (bag_cons _ _ _ _ _ Hbag) as (n & l & se & Hk & Hl & Hse).
  destruct (se1_known l se Hl) as (-> & _ & Hlen).
  exists m', n. split; [exact Hok|]. split; [exact Hk|]. split; [lia|].
  rewrite Hse. exact Hlen.
Qed.

Lemma service_find_longest_witness : exists r st',
  service_table_find (Some web) 32 RULE_MATCH_GLOBAL st1 = Ok (r, st') /\ r <> None.
Proof.
  destruct st1_ok as (m1 & n & Hok & Hk & _).
  destruct (service_find_longest st1 m1 web 32 RULE_MATCH_GLOBAL Hok
    ltac:(change (4 <= 4)%nat; lia) ltac:(done)) as (r & st' & Hrun & Hr).
  exists r, st'. split; [exact Hrun|]. intros ->.
  apply (Hr 16%nat 1%positive); [lia|]. exists n. split; [exact Hk|]. vm_compute. reflexivity.
Defined.

Lemma st1_socks k s : socks (env st1) !! k = Some s -> sk_refcnt s = 5.
Proof.
  assert (forallb (fun x => sk_refcnt x.2 =? 5) (map_to_list (socks (env st1))) = true) as Hall
    by (vm_compute; reflexivity).
  rewrite forallb_forall in Hall. specialize (Hall (k, s)).
  rewrite <-list_elem_of_In, elem_of_map_to_list in Hall.
  intros Hs. by apply Hall, Z.eqb_eq in Hs.
Qed.
Lemma key_lpm m n : m !! key = Some (n, 1%positive) ->
  @lpm service_client m (fun _ => true) (bits_of web 16) = Some (key, (n, 1%positive)).
Proof. intros Hk. exact (lpm_exact (BC := service_client) m key _ Hk). Qed.

Lemma table_del_target_ok_witness : exists r st',
  service_table_del_target web 16 SERVICE_RULE_FORWARD dst 4 st1 = Ok (r, st') /\
  exists m', table_ok st' m'.
Proof.
  destruct st1_ok as (m1 & n & Hok & Hk & Hsz & Hb).
  pose proof (table_del_target_ok st1 m1 web 16 SERVICE_RULE_FORWARD dst 4 Hok
    ltac:(change (2 <= 4)%nat; lia)
    ltac:(intros k s Hs; rewrite (st1_socks k s Hs); lia)
    ltac:(unfold ADDR_LEN; lia) ltac:(simpl; lia)) as H.
  rewrite (key_lpm m1 n Hk) in H.
  destruct H as (r & st' & Hrun & m' & Hok' & _); [left; discriminate|].
  exists (r.2), st'. split; [exact Hrun|]. by exists m'.
Defined.

Lemma table_del_ok_witness : exists st' m', service_table_del web 16 st1 = Ok (tt, st') /\
  table_ok st' m' /\ bag st' m' key = [].
Proof.
  destruct st1_ok as (m1 & n & Hok & Hk & Hsz & Hb).
  pose proof (table_del_ok st1 m1 web 16 Hok ltac:(change (2 <= 4)%nat; lia)) as H.
  change (bits_of web 16) with key in H. rewrite Hb, Hk in H.
  destruct H as (st' & Hrun & Hok' & Hbag & _).
  - intros k s Hs. rewrite (st1_socks k s Hs). lia.
  - exists st', (delete key m1). split; [exact Hrun|]. split; [exact Hok'|exact Hbag].
Defined.
End Demo.
