(* ===== verification/Hex.v ===== *)
(** * Hexadecimal presentation of service identifiers
    (include/netinet/serval.h, lines 149-265)

    Strings are lists of byte values that contain their terminating 0; reading
    past the list is a fault.  Destination buffers are described by the bytes
    written to them. *)
From S2P Require Import Prelude.
Local Open Scope Z_scope.

Definition hextobyte (c : Z) : Z :=
  if (48 <=? c) && (c <=? 57) then c - 48
  else
    let d := Z.lor c 32 in
    if (97 <=? d) && (d <=? 102) then d - 97 + 10 else -1.

(** The loop of [serval_hexton].  [src_len] is a [size_t]: the inner test
    [src_len--] wraps it around when it is 0. *)
Fixpoint hexton_loop (dst_len : nat) (src : list Z) (src_len : Z)
    (written : list Z) : outcome (Z * list Z) :=
  match src with
  | [] => Fault
  | c :: src =>
      if c =? 0 then Ok (1, written)
      else
        match dst_len with
        | O => Ok (1, written)
        | S dst_len =>
            if src_len =? 0 then Ok (1, written)
            else
              let src_len := u64 (src_len - 1) in
              let value := hextobyte c in
              if value =? -1 then Ok (0, written)
              else
                match src with
                | [] => Fault
                | c2 :: src2 =>
                    if c2 =? 0 then
                      hexton_loop dst_len src src_len (written ++ [value * 16])
                    else if src_len =? 0 then
                      hexton_loop dst_len src (u64 (src_len - 1))
                        (written ++ [value * 16])
                    else
                      let ret := hextobyte c2 in
                      if ret =? -1 then Ok (0, written)
                      else hexton_loop dst_len src2 (u64 (src_len - 1))
                             (written ++ [value * 16 + ret])
                end
        end
  end.

Definition serval_hexton (src : list Z) (src_len : Z) (dst_len : nat)
  : outcome (Z * list Z) := hexton_loop dst_len src src_len [].

(** The table of digits: '0'-'9' then 'a'-'f'. *)
Definition hexdigit (n : Z) : Z := if n <? 10 then 48 + n else 97 + (n - 10).

(** The loop of [serval_ntohex]: the source pointer only advances when both
    digits fit. *)
Fixpoint ntohex_loop (src_len : nat) (src : list Z) (dst_len : Z)
    (written : list Z) : outcome (Z * list Z) :=
  match src_len with
  | O => Ok (dst_len, written)
  | S src_len =>
      if 1 <? dst_len then
        match src with
        | [] => Fault
        | b :: src' =>
            let written := written ++ [hexdigit (Z.shiftr b 4)] in
            let dst_len := dst_len - 1 in
            if 1 <? dst_len then
              ntohex_loop src_len src' (dst_len - 1)
                (written ++ [hexdigit (Z.land b 15)])
            else ntohex_loop src_len src dst_len written
        end
      else Ok (dst_len, written)
  end.

Definition serval_ntohex (src : list Z) (src_len : nat) (dst_len : Z)
  : outcome (list Z) :=
  '(dst_len, written) ← ntohex_loop src_len src dst_len [];
  Ok (if dst_len =? 0 then written else written ++ [0]).

Definition SERVICE_ID_BYTES : nat := 32.
Definition serval_ntop (src : list Z) (len : Z) : outcome (list Z) :=
  serval_ntohex src SERVICE_ID_BYTES len.
Definition serval_pton (src : list Z) : outcome (Z * list Z) :=
  serval_hexton src 64 SERVICE_ID_BYTES.
(** [service_id_to_str]: two static buffers of 65 characters. *)
Definition service_id_to_str (srvid : list Z) : outcome (list Z) :=
  serval_ntohex srvid SERVICE_ID_BYTES 65.

(** ** Digits *)
Definition byte_ok (b : Z) : Prop := 0 <= b < 256.

Lemma hextobyte_digit n : 0 <= n < 16 -> hextobyte (hexdigit n) = n.
Proof.
  intros Hn. assert (n ∈ [0;1;2;3;4;5;6;7;8;9;10;11;12;13;14;15]) as Hin.
  { rewrite !elem_of_cons. lia. }
  repeat (apply elem_of_cons in Hin as [->|Hin]; [done|]). set_solver.
Qed.

Lemma hexdigit_nonzero n : 0 <= n < 16 -> hexdigit n <> 0.
Proof. unfold hexdigit. intros. destruct (n <? 10); lia. Qed.

(** A result of [hextobyte] is a nibble, or -1. *)
Lemma hextobyte_range c :
  0 <= c < 256 -> hextobyte c = -1 \/ 0 <= hextobyte c < 16.
Proof.
  intros Hc. unfold hextobyte.
  destruct (Z.leb_spec 48 c), (Z.leb_spec c 57); simpl; try lia;
    destruct (Z.leb_spec 97 (Z.lor c 32)), (Z.leb_spec (Z.lor c 32) 102); simpl; lia.
Qed.

Lemma nibbles b : byte_ok b ->
  0 <= Z.shiftr b 4 < 16 /\ 0 <= Z.land b 15 < 16 /\
  Z.shiftr b 4 * 16 + Z.land b 15 = b.
Proof.
  unfold byte_ok. intros Hb. rewrite Z.shiftr_div_pow2 by lia.
  change 15 with (Z.ones 4). rewrite Z.land_ones by lia.
  pose proof (Z.div_mod b (2 ^ 4)). pose proof (Z.mod_pos_bound b (2 ^ 4)).
  split_and!; try lia.
Qed.

(** ** Printing *)
Definition hexstr (bs : list Z) : list Z :=
  bs ≫= fun b => [hexdigit (Z.shiftr b 4); hexdigit (Z.land b 15)].

Lemma length_hexstr bs : length (hexstr bs) = (2 * length bs)%nat.
Proof. induction bs as [|b bs IH]; simpl in *; [done|]. unfold hexstr in *. lia. Qed.

Lemma ntohex_loop_ok bs : forall src n w,
  2 * Z.of_nat (length bs) < n ->
  ntohex_loop (length bs) (bs ++ src) n w =
  Ok (n - 2 * Z.of_nat (length bs), w ++ hexstr bs).
Proof.
  induction bs as [|b bs IH]; intros src n w Hn.
  { simpl. rewrite app_nil_r. do 2 f_equal. lia. }
  cbn [length] in *. cbn [ntohex_loop app].
  rewrite (proj2 (Z.ltb_lt 1 n)), (proj2 (Z.ltb_lt 1 (n - 1))) by lia.
  rewrite IH by lia. rewrite <-!app_assoc. simpl. do 2 f_equal. lia.
Qed.

(** With room for two digits per byte and the terminator the whole source is
    printed. *)
Lemma ntohex_ok bs n :
  2 * Z.of_nat (length bs) < n ->
  serval_ntohex bs (length bs) n = Ok (hexstr bs ++ [0]).
Proof.
  intros Hn. unfold serval_ntohex.
  pose proof (ntohex_loop_ok bs [] n [] Hn) as H. rewrite app_nil_r in H.
  rewrite H. simpl. rewrite (proj2 (Z.eqb_neq _ _)) by lia. done.
Qed.

(** ** Reading back *)
Lemma u64_pred z : 0 < z <= 2 ^ 64 -> u64 (z - 1) = z - 1.
Proof. intros. unfold u64. apply Z.mod_small. lia. Qed.

Lemma hexton_loop_ok bs : forall n w,
  Forall byte_ok bs -> 2 * Z.of_nat (length bs) <= n < 2 ^ 64 ->
  hexton_loop (length bs) (hexstr bs ++ [0]) n w = Ok (1, w ++ bs).
Proof.
  induction bs as [|b bs IH]; intros n w Hb Hn.
  { simpl. by rewrite app_nil_r. }
  apply Forall_cons in Hb as [Hb Hbs]. pose proof (nibbles b Hb) as (H1 & H2 & Hv).
  cbn [length] in *. unfold hexstr. cbn [mbind list_bind app]. fold (hexstr bs).
  cbn [hexton_loop].
  rewrite (proj2 (Z.eqb_neq (hexdigit (Z.shiftr b 4)) 0)) by by apply hexdigit_nonzero.
  rewrite (proj2 (Z.eqb_neq n 0)) by lia.
  rewrite hextobyte_digit by done.
  rewrite (proj2 (Z.eqb_neq (Z.shiftr b 4) (-1))) by lia.
  rewrite (proj2 (Z.eqb_neq (hexdigit (Z.land b 15)) 0)) by by apply hexdigit_nonzero.
  rewrite u64_pred by lia. rewrite (proj2 (Z.eqb_neq (n - 1) 0)) by lia.
  rewrite hextobyte_digit by done.
  rewrite (proj2 (Z.eqb_neq (Z.land b 15) (-1))) by lia.
  rewrite u64_pred by lia. rewrite IH by (done || lia). rewrite <-app_assoc. simpl.
  by rewrite Hv.
Qed.
