(* ===== verification/SalHdr.v ===== *)
(** * SAL headers: building and parsing
    (include/netinet/serval.h lines 267-413, src/stack/serval_sal.c lines
    82-633 and 3905-4012)

    Packets are byte lists.  A buffer has the bytes of its headroom and of its
    data; [skb_push] turns headroom into data without clearing it, so that the
    fields the code does not write keep stale bytes.  Pointers to headers are
    offsets into the data, and reading outside the data is a fault.  The layout
    is the little-endian one. *)
From S2P Require Import Prelude.
Local Open Scope Z_scope.

Record skbuf := Skb { headroom : list Z; data : list Z }.

(** [skb_push]: too little headroom is [skb_under_panic]. *)
Definition skb_push (n : nat) (skb : skbuf) : outcome skbuf :=
  if decide (n <= length (headroom skb))%nat then
    let k := (length (headroom skb) - n)%nat in
    Ok (Skb (take k (headroom skb)) (drop k (headroom skb) ++ data skb))
  else Fault.

(** Store bytes at an offset. *)
Fixpoint put_bytes (off : nat) (bs d : list Z) : list Z :=
  match bs with
  | [] => d
  | b :: bs => put_bytes (S off) bs (<[off := b]> d)
  end.
Definition skb_put_bytes (off : nat) (bs : list Z) (skb : skbuf) : skbuf :=
  Skb (headroom skb) (put_bytes off bs (data skb)).

Definition rd8 (d : list Z) (off : nat) : outcome Z :=
  match d !! off with Some b => Ok b | None => Fault end.
Definition rd_bytes (d : list Z) (off n : nat) : outcome (list Z) :=
  if decide (off + n <= length d)%nat then Ok (take n (drop off d)) else Fault.

(** [htonl] followed by the store of the word, and back. *)
Definition be32 (z : Z) : list Z :=
  [Z.land (Z.shiftr z 24) 255; Z.land (Z.shiftr z 16) 255;
   Z.land (Z.shiftr z 8) 255; Z.land z 255].
Definition of_be32 (bs : list Z) : Z :=
  foldl (fun z b => z * 256 + b) 0 bs.

(** ** Constants *)
Definition SAL_HEADER_LEN : nat := 12.
Definition SAL_CONTROL_EXT_LEN : nat := 20.
Definition SAL_SERVICE_EXT_LEN : nat := 36.
Definition SAL_ADDRESS_EXT_LEN : nat := 12.
Definition SAL_SOURCE_EXT_HDR : nat := 4.
Definition SAL_NONCE_SIZE : nat := 8.
Definition MAX_NUM_SAL_EXTENSIONS : nat := 10.
Definition SAL_PAD_EXT : Z := 0.
Definition SAL_CONTROL_EXT : Z := 1.
Definition SAL_SERVICE_EXT : Z := 2.
Definition SAL_ADDRESS_EXT : Z := 3.
Definition SAL_SOURCE_EXT : Z := 4.
Definition SAL_EXT_TYPE_MAX : Z := 5.

Definition SVH_SYN : Z := 1.
Definition SVH_RSYN : Z := 2.
Definition SVH_ACK : Z := 4.
Definition SVH_NACK : Z := 8.
Definition SVH_RST : Z := 16.
Definition SVH_FIN : Z := 32.
Definition SVH_CONN_ACK : Z := 64.
Definition SVH_RETRANS : Z := 128.

Definition min_ext_length (type : Z) : Z :=
  if type =? SAL_PAD_EXT then 1
  else if type =? SAL_CONTROL_EXT then 20
  else if type =? SAL_SERVICE_EXT then 36
  else if type =? SAL_ADDRESS_EXT then 12
  else 4.
Definition max_ext_length (type : Z) : Z :=
  if type =? SAL_SOURCE_EXT then 84 else min_ext_length type.

(** ** Extension headers

    Byte 0 holds [res] in the low and [type] in the high nibble, byte 1 the
    length.  In byte 2 of a control extension the flags are, from bit 7 down:
    syn, rsyn, ack, nack, rst, fin. *)
Definition ext_type_of (b0 : Z) : Z := Z.shiftr b0 4.
Definition set_ext_type (type b0 : Z) : Z :=
  Z.lor (Z.shiftl type 4) (Z.land b0 15).

Definition flag_set (flags f : Z) : bool := negb (Z.land flags f =? 0).
Definition bit (b : bool) (pos : Z) : Z := if b then Z.shiftl 1 pos else 0.

(** The flag byte written field by field; the two reserved bits stay. *)
Definition ctrl_flag_byte (flags b2 : Z) : Z :=
  Z.lor (Z.land b2 3)
    (Z.lor (bit (flag_set flags SVH_SYN) 7)
    (Z.lor (bit (flag_set flags SVH_RSYN) 6)
    (Z.lor (bit (flag_set flags SVH_ACK) 5)
    (Z.lor (bit (flag_set flags SVH_NACK) 4)
    (Z.lor (bit (flag_set flags SVH_RST) 3)
           (bit (flag_set flags SVH_FIN) 2)))))).

(** ** The socket state the header builder reads, and the packet's control
    block ([struct sal_skb_cb]) *)
Record hdr_sock := HdrSock {
  hs_local_flowid : list Z;
  hs_peer_flowid : list Z;
  hs_protocol : Z;
  hs_local_srvid : list Z;
  hs_peer_srvid : list Z;
  hs_rcv_nxt : Z;
  hs_local_nonce : list Z;
  hs_unconnected_dgram : bool; (* sk_state == SAL_INIT && SOCK_DGRAM *)
}.
Record skb_cb := SkbCb { cb_flags : Z; cb_verno : Z }.

Definition serval_sal_add_ctrl_ext (sk : hdr_sock) (cb : skb_cb) (skb : skbuf)
  : outcome (nat * skbuf) :=
  skb ← skb_push SAL_CONTROL_EXT_LEN skb;
  b0 ← rd8 (data skb) 0;
  b2 ← rd8 (data skb) 2;
  let skb := skb_put_bytes 0
    [set_ext_type SAL_CONTROL_EXT b0; Z.of_nat SAL_CONTROL_EXT_LEN] skb in
  let skb := skb_put_bytes 4 (be32 (cb_verno cb)) skb in
  let skb := skb_put_bytes 8 (be32 (hs_rcv_nxt sk)) skb in
  let skb := skb_put_bytes 12 (take SAL_NONCE_SIZE (hs_local_nonce sk)) skb in
  let skb := skb_put_bytes 2 [ctrl_flag_byte (cb_flags cb) b2] skb in
  Ok (SAL_CONTROL_EXT_LEN, skb).

Definition serval_sal_add_service_ext (srvid : list Z) (skb : skbuf)
  : outcome (nat * skbuf) :=
  skb ← skb_push SAL_SERVICE_EXT_LEN skb;
  b0 ← rd8 (data skb) 0;
  let skb := skb_put_bytes 0
    [set_ext_type SAL_SERVICE_EXT b0; Z.of_nat SAL_SERVICE_EXT_LEN] skb in
  Ok (SAL_SERVICE_EXT_LEN, skb_put_bytes 4 (take 32 srvid) skb).

Definition is_ctrl_packet (flags : Z) : bool :=
  flag_set flags SVH_SYN || flag_set flags SVH_RSYN || flag_set flags SVH_FIN
  || flag_set flags SVH_RST || flag_set flags SVH_ACK.

(** The extensions in front of the payload, and their length. *)
Definition build_exts (sk : hdr_sock) (cb : skb_cb) (skb : skbuf)
  : outcome (nat * skbuf) :=
  if is_ctrl_packet (cb_flags cb) then
    '(n1, skb) ← (if flag_set (cb_flags cb) SVH_SYN
                     || flag_set (cb_flags cb) SVH_CONN_ACK
                  then serval_sal_add_service_ext (hs_peer_srvid sk) skb
                  else Ok (0%nat, skb));
    '(n2, skb) ← serval_sal_add_ctrl_ext sk cb skb;
    Ok ((n1 + n2)%nat, skb)
  else if hs_unconnected_dgram sk then
    '(n1, skb) ← serval_sal_add_service_ext (hs_local_srvid sk) skb;
    '(n2, skb) ← serval_sal_add_service_ext (hs_peer_srvid sk) skb;
    Ok ((n1 + n2)%nat, skb)
  else Ok (0%nat, skb).

(** The base header: flow identifiers, length in words, protocol; the checksum
    field is filled in later by [serval_sal_send_check]. *)
Definition add_base_header (sk : hdr_sock) (ext_len : nat) (skb : skbuf)
  : outcome skbuf :=
  skb ← skb_push SAL_HEADER_LEN skb;
  let hdr_len := u16 (Z.of_nat (ext_len + SAL_HEADER_LEN)) in
  let skb := skb_put_bytes 0 (take 4 (hs_local_flowid sk)) skb in
  let skb := skb_put_bytes 4 (take 4 (hs_peer_flowid sk)) skb in
  let skb := skb_put_bytes 9 [u8 (hs_protocol sk)] skb in
  Ok (skb_put_bytes 8 [u8 (Z.shiftr hdr_len 2)] skb).

Definition serval_sal_build_header (sk : hdr_sock) (cb : skb_cb) (skb : skbuf)
  : outcome skbuf :=
  '(ext_len, skb) ← build_exts sk cb skb;
  add_base_header sk ext_len skb.

(** ** Parsing *)

(** [struct sal_context]: extensions by offset. *)
Record sal_context := SalContext {
  c_length : Z;
  c_flags : Z;
  c_verno : Z;
  c_ackno : Z;
  c_ext : list nat;
  c_ctrl_ext : option nat;
  c_srv_ext0 : option nat;
  c_srv_ext1 : option nat;
  c_src_ext : option nat;
}.
Definition ctx0 (length : Z) : sal_context :=
  SalContext length 0 0 0 [] None None None None.

(** [SAL_EXT_LEN]: a pad is one byte, whatever follows it; the length byte of
    another extension is read. *)
Definition SAL_EXT_LEN (d : list Z) (ext : nat) : outcome Z :=
  b0 ← rd8 d ext;
  if ext_type_of b0 =? SAL_PAD_EXT then Ok 1 else rd8 d (ext + 1).
(** [SAL_EXT_NEXT]. *)
Definition SAL_EXT_NEXT (d : list Z) (ext : nat) : outcome nat :=
  n ← SAL_EXT_LEN d ext; Ok (ext + Z.to_nat n)%nat.

Definition when_bit (b pos f flags : Z) : Z :=
  if Z.testbit b pos then Z.lor flags f else flags.

(** The flags of a control extension, in the order they are parsed. *)
Definition parse_flags (b2 flags : Z) : Z :=
  when_bit b2 3 SVH_RST
    (when_bit b2 2 SVH_FIN
      (when_bit b2 4 SVH_NACK
        (when_bit b2 5 SVH_ACK
          (when_bit b2 6 SVH_RSYN (when_bit b2 7 SVH_SYN flags))))).

(** The parsers return the extension length, or -1. *)
Definition parse_control_ext (d : list Z) (ext : nat) (ext_len : Z)
    (ctx : sal_context) : outcome (Z * sal_context) :=
  match c_ctrl_ext ctx with
  | Some _ => Ok (-1, ctx)
  | None =>
      v ← rd_bytes d (ext + 4) 4;
      a ← rd_bytes d (ext + 8) 4;
      b2 ← rd8 d (ext + 2);
      Ok (ext_len, SalContext (c_length ctx) (parse_flags b2 (c_flags ctx))
                     (of_be32 v) (of_be32 a) (c_ext ctx) (Some ext)
                     (c_srv_ext0 ctx) (c_srv_ext1 ctx) (c_src_ext ctx))
  end.

Definition parse_service_ext (ext : nat) (ext_len : Z) (ctx : sal_context)
  : Z * sal_context :=
  match c_srv_ext0 ctx, c_srv_ext1 ctx with
  | Some _, Some _ => (-1, ctx)
  | None, _ =>
      (ext_len, SalContext (c_length ctx) (c_flags ctx) (c_verno ctx)
                  (c_ackno ctx) (c_ext ctx) (c_ctrl_ext ctx) (Some ext)
                  (c_srv_ext1 ctx) (c_src_ext ctx))
  | Some _, None =>
      (ext_len, SalContext (c_length ctx) (c_flags ctx) (c_verno ctx)
                  (c_ackno ctx) (c_ext ctx) (c_ctrl_ext ctx) (c_srv_ext0 ctx)
                  (Some ext) (c_src_ext ctx))
  end.

(** [SAL_SOURCE_EXT_NUM_ADDRS] of an extension length. *)
Definition num_addrs (ext_length : Z) : Z := u64 (ext_length - 4) / 4.

Definition parse_source_ext (d : list Z) (ext : nat) (ext_len : Z)
    (ctx : sal_context) : outcome (Z * sal_context) :=
  match c_src_ext ctx with
  | Some _ => Ok (-1, ctx)
  | None =>
      len ← rd8 d (ext + 1);
      let ctx := SalContext (c_length ctx) (c_flags ctx) (c_verno ctx)
                   (c_ackno ctx) (c_ext ctx) (c_ctrl_ext ctx) (c_srv_ext0 ctx)
                   (c_srv_ext1 ctx) (Some ext) in
      Ok (if num_addrs len <? 2 then -1 else ext_len, ctx)
  end.

Definition parse_ext (d : list Z) (ext : nat) (ctx : sal_context)
  : outcome (Z * sal_context) :=
  ext_len ← SAL_EXT_LEN d ext;
  b0 ← rd8 d ext;
  let type := ext_type_of b0 in
  if SAL_EXT_TYPE_MAX <=? type then Ok (-1, ctx)
  else if ext_len <? min_ext_length type then Ok (-1, ctx)
  else if type =? SAL_PAD_EXT then Ok (1, ctx)
  else if type =? SAL_CONTROL_EXT then parse_control_ext d ext ext_len ctx
  else if type =? SAL_SERVICE_EXT then Ok (parse_service_ext ext ext_len ctx)
  else if type =? SAL_ADDRESS_EXT then Ok (ext_len, ctx)
  else parse_source_ext d ext ext_len ctx.

Definition add_ext (ext : nat) (ctx : sal_context) : sal_context :=
  SalContext (c_length ctx) (c_flags ctx) (c_verno ctx) (c_ackno ctx)
    (c_ext ctx ++ [ext]) (c_ctrl_ext ctx) (c_srv_ext0 ctx) (c_srv_ext1 ctx)
    (c_src_ext ctx).

(** The loop over extensions: at most [MAX_NUM_SAL_EXTENSIONS] rounds. *)
Fixpoint parse_exts (rounds : nat) (d : list Z) (ext : nat) (hdr_len : Z)
    (ctx : sal_context) : outcome (Z * sal_context) :=
  if hdr_len <=? 0 then Ok (hdr_len, ctx)
  else
    match rounds with
    | O => Ok (hdr_len, ctx)
    | S rounds =>
        '(ext_len, ctx) ← parse_ext d ext ctx;
        if ext_len <=? 0 then Ok (-1, ctx)
        else
          next ← SAL_EXT_NEXT d ext;
          parse_exts rounds d next (hdr_len - ext_len) (add_ext ext ctx)
    end.

Inductive parse_mode := SAL_PARSE_BASE | SAL_PARSE_ALL.

Definition serval_sal_parse_hdr (d : list Z) (mode : parse_mode)
  : outcome (Z * sal_context) :=
  shl ← rd8 d 8;
  let ctx := ctx0 (Z.shiftl shl 2) in
  if c_length ctx <? Z.of_nat SAL_HEADER_LEN then Ok (-1, ctx)
  else
    match mode with
    | SAL_PARSE_BASE => Ok (0, ctx)
    | SAL_PARSE_ALL =>
        parse_exts MAX_NUM_SAL_EXTENSIONS d SAL_HEADER_LEN
          (c_length ctx - Z.of_nat SAL_HEADER_LEN) ctx
    end.

(** ** Predicates on parsed headers *)
Definition has_verno (ctx : sal_context) : bool :=
  match c_ctrl_ext ctx with Some _ => true | None => false end.
Definition is_pure_data (ctx : sal_context) : bool := c_flags ctx =? 0.
Definition is_pure_ack (d : list Z) (ctx : sal_context) : outcome bool :=
  match c_ctrl_ext ctx with
  | None => Ok false
  | Some ext =>
      b2 ← rd8 d (ext + 2);
      Ok (Z.testbit b2 5 && negb (Z.testbit b2 2) && negb (Z.testbit b2 7)
          && negb (Z.testbit b2 6) && negb (Z.testbit b2 3))
  end.

Definition has_service_extension (d : list Z) (ctx : sal_context)
    (srv_ext : option nat) : outcome bool :=
  match srv_ext with
  | None => Ok false
  | Some ext =>
      if c_length ctx <? Z.of_nat (SAL_HEADER_LEN + SAL_SERVICE_EXT_LEN)
      then Ok false
      else
        b0 ← rd8 d ext;
        len ← rd8 d (ext + 1);
        Ok (negb (negb (ext_type_of b0 =? SAL_SERVICE_EXT)
                  || (len <? min_ext_length SAL_SERVICE_EXT)
                  || (max_ext_length SAL_SERVICE_EXT <? len)))
  end.
Definition has_service_extension_src (d : list Z) (ctx : sal_context)
  : outcome bool := has_service_extension d ctx (c_srv_ext0 ctx).
Definition has_service_extension_dst (d : list Z) (ctx : sal_context)
  : outcome bool := has_service_extension d ctx (c_srv_ext1 ctx).

(** Serial number arithmetic on version numbers. *)
Definition before (seq1 seq2 : Z) : bool := s32 (seq1 - seq2) <? 0.
Definition after (seq2 seq1 : Z) : bool := before seq1 seq2.
Definition between (seq1 seq2 seq3 : Z) : bool :=
  u32 (seq1 - seq2) <=? u32 (seq3 - seq2).

(** [listen_or_request]: the socket is in SAL_LISTEN or SAL_REQUEST. *)
Definition has_valid_verno (listen_or_request : bool) (rcv_nxt : Z)
    (ctx : sal_context) : bool :=
  if listen_or_request then true
  else
    negb (before (c_verno ctx) rcv_nxt)
    || (c_flags ctx =? SVH_ACK)
    || (c_flags ctx =? Z.lor SVH_RSYN SVH_ACK).

Definition has_valid_control_extension (d : list Z) (peer_nonce : list Z)
    (ctx : sal_context) : outcome bool :=
  match c_ctrl_ext ctx with
  | None => Ok false
  | Some ext =>
      if c_length ctx <? Z.of_nat (SAL_HEADER_LEN + SAL_CONTROL_EXT_LEN)
      then Ok false
      else
        b0 ← rd8 d ext;
        len ← rd8 d (ext + 1);
        if negb (ext_type_of b0 =? SAL_CONTROL_EXT)
           || negb (len =? min_ext_length SAL_CONTROL_EXT)
        then Ok false
        else
          b2 ← rd8 d (ext + 2);
          if Z.testbit b2 7 then Ok true
          else
            nonce ← rd_bytes d (ext + 12) SAL_NONCE_SIZE;
            Ok (bool_decide (nonce = take SAL_NONCE_SIZE peer_nonce))
  end.
