(* ===== verification/SalHdrProps.v ===== *)
(** * Built headers parse back; parsing stays near its header *)
From S2P Require Import Prelude SalHdr.
Local Open Scope Z_scope.

(** ** Bytes *)
Lemma put_bytes_app off bs pre mid post :
  length pre = off -> length mid = length bs ->
  put_bytes off bs (pre ++ mid ++ post) = pre ++ bs ++ post.
Proof.
  revert off pre mid. induction bs as [|b bs IH]; intros off pre [|x mid] Hp Hm;
    try done; simpl in *.
  rewrite (insert_app_r_alt _ _ off) by lia.
  rewrite Hp, Nat.sub_diag. simpl.
  replace (pre ++ b :: mid ++ post) with ((pre ++ [b]) ++ mid ++ post)
    by (by rewrite <-app_assoc).
  rewrite IH; [by rewrite <-app_assoc|rewrite length_app; simpl; lia|lia].
Qed.

Lemma put_bytes_eq off bs d pre mid post :
  d = pre ++ mid ++ post -> length pre = off -> length mid = length bs ->
  put_bytes off bs d = pre ++ bs ++ post.
Proof. intros ->. apply put_bytes_app. Qed.

Lemma rd8_at0 a l : rd8 (a :: l) 0 = Ok a.
Proof. done. Qed.
Lemma rd8_at2 a b c l : rd8 (a :: b :: c :: l) 2 = Ok c.
Proof. done. Qed.

Lemma rd8_app pre b post : rd8 (pre ++ b :: post) (length pre) = Ok b.
Proof. unfold rd8. by rewrite list_lookup_middle. Qed.

Lemma rd8_off pre l k b : l !! k = Some b -> rd8 (pre ++ l) (length pre + k) = Ok b.
Proof.
  intros Hl. unfold rd8. rewrite lookup_app_r by lia.
  replace (length pre + k - length pre)%nat with k by lia. by rewrite Hl.
Qed.

Lemma rd_bytes_off pre a l post k n :
  length a = k -> length l = n ->
  rd_bytes (pre ++ a ++ l ++ post) (length pre + k) n = Ok l.
Proof.
  intros <- <-. unfold rd_bytes. rewrite decide_True.
  - rewrite (app_assoc pre a), <-length_app, drop_app_length.
    by rewrite take_app_length.
  - rewrite !length_app. lia.
Qed.

Lemma be32_back z : 0 <= z < 2 ^ 32 -> of_be32 (be32 z) = z.
Proof.
  intros Hz. unfold of_be32, be32. simpl.
  change 255 with (Z.ones 8). rewrite !Z.land_ones, !Z.shiftr_div_pow2 by lia.
  change (2 ^ 8) with 256. change (2 ^ 16) with (256 * 256).
  change (2 ^ 24) with (256 * (256 * 256)).
  rewrite <-!Zdiv_Zdiv by lia.
  pose proof (Z.div_mod z 256). pose proof (Z.div_mod (z / 256) 256).
  pose proof (Z.div_mod (z / 256 / 256) 256).
  rewrite (Z.mod_small (z / 256 / 256 / 256) 256); [lia|].
  split; [repeat (apply Z.div_pos; [|lia]); lia|].
  repeat (apply Z.div_lt_upper_bound; [lia|]). lia.
Qed.

Lemma ext_type_set type b0 : 0 <= type < 16 -> ext_type_of (set_ext_type type b0) = type.
Proof.
  intros Ht. unfold ext_type_of, set_ext_type.
  apply Z.bits_inj'. intros n Hn. rewrite Z.shiftr_spec, Z.lor_spec, Z.land_spec by lia.
  rewrite Z.shiftl_spec by lia. replace (n + 4 - 4) with n by lia.
  change 15 with (Z.ones 4). rewrite (Z.ones_spec_high 4) by lia.
  by rewrite andb_false_r, orb_false_r.
Qed.

(** The flags that travel in a control extension. *)
Definition wire_flags (flags : Z) : Z := Z.land flags 63.

Lemma parse_flags_back flags b2 :
  parse_flags (ctrl_flag_byte flags b2) 0 = wire_flags flags.
Proof.
  assert (forall k f, 0 <= k < 6 -> f = 2 ^ k -> flag_set flags f = Z.testbit flags k) as Hf.
  { intros k f Hk ->. unfold flag_set. destruct (Z.testbit flags k) eqn:Hb.
    - apply negb_true_iff, Z.eqb_neq. intros H0.
      apply (f_equal (fun z => Z.testbit z k)) in H0.
      rewrite Z.land_spec, Hb, Z.pow2_bits_true, Z.bits_0 in H0 by lia. done.
    - apply negb_false_iff, Z.eqb_eq, Z.bits_inj'. intros n Hn.
      rewrite Z.land_spec, Z.bits_0. destruct (decide (n = k)) as [->|Hne].
      + by rewrite Hb.
      + by rewrite Z.pow2_bits_false, andb_false_r by lia. }
  assert (forall b, 0 <= Z.land b 3 < 4) as Hlow.
  { intros b. change 3 with (Z.ones 2). rewrite Z.land_ones by lia.
    apply Z.mod_pos_bound. lia. }
  assert (wire_flags flags =
    Z.lor (bit (Z.testbit flags 0) 0) (Z.lor (bit (Z.testbit flags 1) 1)
    (Z.lor (bit (Z.testbit flags 2) 2) (Z.lor (bit (Z.testbit flags 3) 3)
    (Z.lor (bit (Z.testbit flags 4) 4) (bit (Z.testbit flags 5) 5)))))) as ->.
  { unfold wire_flags. apply Z.bits_inj'. intros n Hn.
    rewrite Z.land_spec, !Z.lor_spec.
    assert (n = 0 \/ n = 1 \/ n = 2 \/ n = 3 \/ n = 4 \/ n = 5 \/ 6 <= n) as Hc by lia.
    destruct Hc as [->|[->|[->|[->|[->|[->|Hn6]]]]]];
      try (destruct (Z.testbit flags 0), (Z.testbit flags 1), (Z.testbit flags 2),
        (Z.testbit flags 3), (Z.testbit flags 4), (Z.testbit flags 5); reflexivity).
    change 63 with (Z.ones 6). rewrite Z.ones_spec_high, andb_false_r by lia.
    unfold bit. destruct (Z.testbit flags 0), (Z.testbit flags 1), (Z.testbit flags 2),
        (Z.testbit flags 3), (Z.testbit flags 4), (Z.testbit flags 5);
      rewrite ?Z.bits_0, ?Z.shiftl_1_l, ?Z.pow2_bits_false by lia; reflexivity. }
  unfold ctrl_flag_byte, parse_flags.
  rewrite (Hf 0 SVH_SYN), (Hf 1 SVH_RSYN), (Hf 2 SVH_ACK), (Hf 3 SVH_NACK),
    (Hf 4 SVH_RST), (Hf 5 SVH_FIN) by (lia || done).
  specialize (Hlow b2). set (r := Z.land b2 3) in *. clearbody r. clear Hf.
  assert (r = 0 \/ r = 1 \/ r = 2 \/ r = 3) as Hr by lia.
  destruct (Z.testbit flags 0), (Z.testbit flags 1), (Z.testbit flags 2),
    (Z.testbit flags 3), (Z.testbit flags 4), (Z.testbit flags 5);
    destruct Hr as [->|[->|[->| ->]]]; reflexivity.
Qed.

(** ** Building *)
Lemma push_ok n skb :
  (n <= length (headroom skb))%nat ->
  exists hr junk, skb_push n skb = Ok (Skb hr (junk ++ data skb)) /\
    length junk = n /\ (length hr = length (headroom skb) - n)%nat.
Proof.
  intros Hn. unfold skb_push. rewrite decide_True by done. eexists _, _.
  split; [done|]. rewrite length_drop, length_take. lia.
Qed.

(** The bytes of the extensions, with what is left of the stale bytes. *)
Definition ctrl_bytes (b0 b2 b3 flags verno ackno : Z) (nonce : list Z) : list Z :=
  [set_ext_type SAL_CONTROL_EXT b0; 20; ctrl_flag_byte flags b2; b3]
  ++ be32 verno ++ be32 ackno ++ nonce.
Definition srv_bytes (b0 b2 b3 : Z) (srvid : list Z) : list Z :=
  [set_ext_type SAL_SERVICE_EXT b0; 36; b2; b3] ++ srvid.
Definition base_bytes (lf pf : list Z) (shl proto c0 c1 : Z) : list Z :=
  lf ++ pf ++ [shl; proto; c0; c1].

Lemma take4 (l : list Z) n : length l = (4 + n)%nat ->
  exists a b c d r, l = [a; b; c; d] ++ r /\ length r = n.
Proof.
  destruct l as [|a [|b [|c [|d r]]]]; simpl; try lia. intros H.
  exists a, b, c, d, r. split; [done|lia].
Qed.

Lemma add_service_ok srvid skb :
  (36 <= length (headroom skb))%nat -> length srvid = 32%nat ->
  exists hr b0 b2 b3,
    serval_sal_add_service_ext srvid skb =
      Ok (36%nat, Skb hr (srv_bytes b0 b2 b3 srvid ++ data skb)) /\
    (length hr = length (headroom skb) - 36)%nat.
Proof.
  intros Hr Hs. destruct (push_ok 36 skb Hr) as (hr & junk & Hp & Hj & Hh).
  destruct (take4 junk 32 Hj) as (b0 & b1 & b2 & b3 & r & -> & Hrl).
  exists hr, b0, b2, b3. split; [|done]. unfold serval_sal_add_service_ext.
  unfold SAL_SERVICE_EXT_LEN. rewrite Hp. unfold mbind, outcome_bind. cbn [data app].
  rewrite rd8_at0, ?rd8_at2. cbv beta iota zeta.
  unfold skb_put_bytes. cbn [data headroom]. rewrite take_ge by lia.
  set (t := set_ext_type SAL_SERVICE_EXT b0).
  rewrite (put_bytes_eq 0 [t; _] _ [] [b0; b1] (b2 :: b3 :: r ++ data skb)) by done.
  rewrite (put_bytes_eq 4 srvid _ [t; 36; b2; b3] r (data skb)) by (done || simpl; lia).
  done.
Qed.

Lemma add_ctrl_ok sk cb skb :
  (20 <= length (headroom skb))%nat -> length (hs_local_nonce sk) = 8%nat ->
  exists hr b0 b2 b3,
    serval_sal_add_ctrl_ext sk cb skb =
      Ok (20%nat, Skb hr (ctrl_bytes b0 b2 b3 (cb_flags cb) (cb_verno cb)
                            (hs_rcv_nxt sk) (hs_local_nonce sk) ++ data skb)) /\
    (length hr = length (headroom skb) - 20)%nat.
Proof.
  intros Hr Hs. destruct (push_ok 20 skb Hr) as (hr & junk & Hp & Hj & Hh).
  destruct (take4 junk 16 Hj) as (b0 & b1 & b2 & b3 & r & -> & Hrl).
  destruct (take4 r 12 Hrl) as (v0 & v1 & v2 & v3 & r1 & -> & Hrl1).
  destruct (take4 r1 8 Hrl1) as (a0 & a1 & a2 & a3 & r2 & -> & Hrl2).
  exists hr, b0, b2, b3. split; [|done]. unfold serval_sal_add_ctrl_ext.
  unfold SAL_CONTROL_EXT_LEN. rewrite Hp. unfold mbind, outcome_bind. cbn [data app].
  rewrite rd8_at0, ?rd8_at2. cbv beta iota zeta.
  unfold skb_put_bytes. cbn [data headroom]. rewrite take_ge by (unfold SAL_NONCE_SIZE; lia).
  set (t := set_ext_type SAL_CONTROL_EXT b0). set (d := data skb).
  rewrite (put_bytes_eq 0 [t; _] _ [] [b0; b1]
    ([b2; b3; v0; v1; v2; v3; a0; a1; a2; a3] ++ r2 ++ d)) by done.
  rewrite (put_bytes_eq 4 (be32 (cb_verno cb)) _ [t; 20; b2; b3]
    [v0; v1; v2; v3] ([a0; a1; a2; a3] ++ r2 ++ d)) by done.
  rewrite (put_bytes_eq 8 (be32 (hs_rcv_nxt sk)) _
    ([t; 20; b2; b3] ++ be32 (cb_verno cb)) [a0; a1; a2; a3] (r2 ++ d)) by done.
  rewrite (put_bytes_eq 12 (hs_local_nonce sk) _
    ([t; 20; b2; b3] ++ be32 (cb_verno cb) ++ be32 (hs_rcv_nxt sk)) r2 d)
    by (done || lia).
  rewrite (put_bytes_eq 2 [_] _ [t; 20] [b2] ([b3] ++ be32 (cb_verno cb)
    ++ be32 (hs_rcv_nxt sk) ++ hs_local_nonce sk ++ d)) by done.
  done.
Qed.

(** What the whole header looks like, up to the stale and checksum bytes. *)
Inductive header_of (sk : hdr_sock) (cb : skb_cb) : list Z -> Z -> Prop :=
| header_ctrl b0 b2 b3 :
    is_ctrl_packet (cb_flags cb) = true ->
    flag_set (cb_flags cb) SVH_SYN || flag_set (cb_flags cb) SVH_CONN_ACK = false ->
    header_of sk cb (ctrl_bytes b0 b2 b3 (cb_flags cb) (cb_verno cb)
      (hs_rcv_nxt sk) (hs_local_nonce sk)) 8
| header_ctrl_srv b0 b2 b3 c0 c2 c3 :
    is_ctrl_packet (cb_flags cb) = true ->
    flag_set (cb_flags cb) SVH_SYN || flag_set (cb_flags cb) SVH_CONN_ACK = true ->
    header_of sk cb (ctrl_bytes b0 b2 b3 (cb_flags cb) (cb_verno cb)
      (hs_rcv_nxt sk) (hs_local_nonce sk) ++ srv_bytes c0 c2 c3 (hs_peer_srvid sk)) 17
| header_dgram b0 b2 b3 c0 c2 c3 :
    is_ctrl_packet (cb_flags cb) = false -> hs_unconnected_dgram sk = true ->
    header_of sk cb (srv_bytes b0 b2 b3 (hs_peer_srvid sk)
                     ++ srv_bytes c0 c2 c3 (hs_local_srvid sk)) 21
| header_data :
    is_ctrl_packet (cb_flags cb) = false -> hs_unconnected_dgram sk = false ->
    header_of sk cb [] 3.

Definition hdr_sock_ok (sk : hdr_sock) : Prop :=
  length (hs_local_flowid sk) = 4%nat /\ length (hs_peer_flowid sk) = 4%nat /\
  length (hs_local_srvid sk) = 32%nat /\ length (hs_peer_srvid sk) = 32%nat /\
  length (hs_local_nonce sk) = 8%nat /\ 0 <= hs_rcv_nxt sk < 2 ^ 32.

Lemma push_base sk exts shl skb :
  length (hs_local_flowid sk) = 4%nat -> length (hs_peer_flowid sk) = 4%nat ->
  (12 <= length (headroom skb))%nat ->
  Z.of_nat (exts + 12) = 4 * shl -> 0 <= shl < 64 ->
  exists hr c0 c1, (length hr = length (headroom skb) - 12)%nat /\
    add_base_header sk exts skb =
    Ok (Skb hr (base_bytes (hs_local_flowid sk) (hs_peer_flowid sk) shl
                  (u8 (hs_protocol sk)) c0 c1 ++ data skb)).
Proof.
  intros Hlf Hpf Hr Hlen Hshl. destruct (push_ok 12 skb Hr) as (hr & junk & Hp & Hj & Hhr).
  destruct (take4 junk 8 Hj) as (x0 & x1 & x2 & x3 & r & -> & Hrl).
  destruct (take4 r 4 Hrl) as (y0 & y1 & y2 & y3 & r1 & -> & Hrl1).
  destruct (take4 r1 0 Hrl1) as (z0 & z1 & z2 & z3 & r2 & -> & Hrl2).
  apply length_zero_iff_nil in Hrl2 as ->.
  exists hr, z2, z3. split; [done|]. unfold add_base_header, SAL_HEADER_LEN.
  rewrite (obind_Ok _ _ _ Hp). unfold skb_put_bytes. cbn [data headroom].
  rewrite !take_ge by lia. rewrite <-!app_assoc. cbn [app]. do 2 f_equal.
  assert (u8 (u16 (Z.of_nat (exts + 12)) ≫ 2) = shl) as ->.
  { rewrite Hlen. unfold u8, u16. rewrite Z.shiftr_div_pow2 by lia.
    rewrite (Z.mod_small (4 * shl)) by lia. rewrite (Z.mul_comm 4), Z.div_mul by lia.
    rewrite Z.mod_small; lia. }
  set (lf := hs_local_flowid sk) in *. set (pf := hs_peer_flowid sk) in *.
  rewrite (put_bytes_eq 0 lf _ [] [x0; x1; x2; x3]
    ([y0; y1; y2; y3; z0; z1; z2; z3] ++ data skb)) by (done || simpl; lia).
  rewrite (put_bytes_eq 4 pf _ lf [y0; y1; y2; y3] ([z0; z1; z2; z3] ++ data skb))
    by (done || simpl; lia).
  rewrite (put_bytes_eq 9 [_] _ (lf ++ pf ++ [z0]) [z1] ([z2; z3] ++ data skb))
    by (rewrite ?length_app, <-?app_assoc; simpl; done || lia).
  rewrite (put_bytes_eq 8 [_] _ (lf ++ pf) [z0] ([u8 (hs_protocol sk); z2; z3] ++ data skb))
    by (rewrite ?length_app, <-?app_assoc; simpl; done || lia).
  unfold base_bytes.
  by rewrite <-!app_assoc.
Qed.

Lemma build_ok sk cb skb :
  hdr_sock_ok sk -> (84 <= length (headroom skb))%nat ->
  exists hr exts shl c0 c1, header_of sk cb exts shl /\
    (length (headroom skb) <= length hr + 84)%nat /\
    serval_sal_build_header sk cb skb =
    Ok (Skb hr (base_bytes (hs_local_flowid sk) (hs_peer_flowid sk) shl
                  (u8 (hs_protocol sk)) c0 c1 ++ exts ++ data skb)).
Proof.
  intros (Hlf & Hpf & Hls & Hps & Hn & _) Hr.
  unfold serval_sal_build_header.
  enough (exists hr exts shl, header_of sk cb exts shl /\ 0 <= shl < 64 /\
    (length hr = length (headroom skb) - length exts)%nat /\ (length exts <= 72)%nat /\
    Z.of_nat (length exts + 12) = 4 * shl /\
    build_exts sk cb skb = Ok (length exts, Skb hr (exts ++ data skb)))
    as (hr & exts & shl & Hh & Hshl & Hlen & Hle & Hw & ->).
  { cbn [mbind outcome_bind].
    destruct (push_base sk (length exts) shl (Skb hr (exts ++ data skb)))
      as (hr' & c0 & c1 & Hhr & ->); [done|done|simpl; lia|done|done|].
    exists hr', exts, shl, c0, c1. split_and!; [done| |done]. simpl in Hhr. lia. }
  unfold build_exts. destruct (is_ctrl_packet (cb_flags cb)) eqn:Hc.
  - destruct (flag_set (cb_flags cb) SVH_SYN || flag_set (cb_flags cb) SVH_CONN_ACK)
      eqn:Hs.
    + destruct (add_service_ok (hs_peer_srvid sk) skb) as (hr1 & c0 & c2 & c3 & H1 & L1);
        [lia|done|]. rewrite (obind_Ok _ _ _ H1).
      destruct (add_ctrl_ok sk cb (Skb hr1 (srv_bytes c0 c2 c3 (hs_peer_srvid sk) ++ data skb)))
        as (hr2 & b0 & b2 & b3 & H2 & L2); [simpl; lia|done|]. rewrite (obind_Ok _ _ _ H2).
      eexists hr2, _, 17. split; [by apply header_ctrl_srv|]. cbn [headroom data] in *.
      rewrite <-app_assoc. rewrite !length_app. simpl. rewrite Hps, Hn.
      split_and!; try done; lia.
    + rewrite (obind_Ok _ _ (0%nat, skb) eq_refl).
      destruct (add_ctrl_ok sk cb skb) as (hr2 & b0 & b2 & b3 & H2 & L2); [lia|done|].
      rewrite (obind_Ok _ _ _ H2).
      eexists hr2, _, 8. split; [by apply header_ctrl|].
      simpl. rewrite Hn. split_and!; try done; lia.
  - destruct (hs_unconnected_dgram sk) eqn:Hd.
    + destruct (add_service_ok (hs_local_srvid sk) skb) as (hr1 & c0 & c2 & c3 & H1 & L1);
        [lia|done|]. rewrite (obind_Ok _ _ _ H1).
      destruct (add_service_ok (hs_peer_srvid sk)
        (Skb hr1 (srv_bytes c0 c2 c3 (hs_local_srvid sk) ++ data skb)))
        as (hr2 & b0 & b2 & b3 & H2 & L2); [simpl; lia|done|]. rewrite (obind_Ok _ _ _ H2).
      eexists hr2, _, 21. split; [by apply header_dgram|]. cbn [headroom data] in *.
      rewrite <-app_assoc. rewrite !length_app. simpl. rewrite Hps, Hls.
      split_and!; try done; lia.
    + eexists (headroom skb), _, 3. split; [by apply header_data|]. simpl.
      destruct skb. split_and!; simpl; try done; lia.
Qed.

(** ** Parsing one extension *)
Lemma ext_len_at d pre t n rest :
  d = pre ++ t :: n :: rest -> ext_type_of t <> SAL_PAD_EXT ->
  SAL_EXT_LEN d (length pre) = Ok n /\ rd8 d (length pre) = Ok t /\
  rd8 d (length pre + 1) = Ok n /\
  SAL_EXT_NEXT d (length pre) = Ok (length pre + Z.to_nat n)%nat.
Proof.
  intros -> Ht. pose proof (rd8_app pre t (n :: rest)) as H0.
  pose proof (rd8_off pre (t :: n :: rest) 1 n eq_refl) as H1.
  assert (SAL_EXT_LEN (pre ++ t :: n :: rest) (length pre) = Ok n) as Hl.
  { unfold SAL_EXT_LEN. rewrite H0. simpl. by rewrite (proj2 (Z.eqb_neq _ _)). }
  split_and!; try done. unfold SAL_EXT_NEXT. by rewrite Hl.
Qed.

Lemma parse_ctrl_at pre b0 b2 b3 flags verno ackno nonce post ctx :
  0 <= verno < 2 ^ 32 -> 0 <= ackno < 2 ^ 32 -> c_ctrl_ext ctx = None ->
  c_flags ctx = 0 ->
  let d := pre ++ ctrl_bytes b0 b2 b3 flags verno ackno nonce ++ post in
  parse_ext d (length pre) ctx =
    Ok (20, SalContext (c_length ctx) (wire_flags flags) verno ackno (c_ext ctx)
              (Some (length pre)) (c_srv_ext0 ctx) (c_srv_ext1 ctx) (c_src_ext ctx)) /\
  SAL_EXT_NEXT d (length pre) = Ok (length pre + 20)%nat.
Proof.
  intros Hv Ha Hc Hf d. set (t := set_ext_type SAL_CONTROL_EXT b0).
  assert (ext_type_of t = 1) as Ht by (by apply ext_type_set).
  destruct (ext_len_at d pre t 20 ([ctrl_flag_byte flags b2; b3] ++ be32 verno
    ++ be32 ackno ++ nonce ++ post)) as (H1 & H2 & H3 & H4).
  { unfold d, ctrl_bytes. by rewrite <-!app_assoc. }
  { by rewrite Ht. }
  split; [|done]. unfold parse_ext. rewrite H1, H2. cbn [mbind outcome_bind].
  rewrite Ht. cbn. unfold parse_control_ext. rewrite Hc, Hf.
  assert (rd_bytes d (length pre + 4) 4 = Ok (be32 verno)) as ->.
  { exact (rd_bytes_off pre [t; 20; ctrl_flag_byte flags b2; b3] (be32 verno)
      (be32 ackno ++ nonce ++ post) 4 4 eq_refl eq_refl). }
  assert (rd_bytes d (length pre + 8) 4 = Ok (be32 ackno)) as ->.
  { exact (rd_bytes_off pre ([t; 20; ctrl_flag_byte flags b2; b3] ++ be32 verno)
      (be32 ackno) (nonce ++ post) 8 4 eq_refl eq_refl). }
  assert (rd8 d (length pre + 2) = Ok (ctrl_flag_byte flags b2)) as ->.
  { by apply rd8_off. }
  cbn [mbind outcome_bind]. by rewrite parse_flags_back, !be32_back.
Qed.

Lemma parse_srv_at pre b0 b2 b3 srvid post ctx :
  c_srv_ext1 ctx = None ->
  let d := pre ++ srv_bytes b0 b2 b3 srvid ++ post in
  parse_ext d (length pre) ctx =
    Ok (36, match c_srv_ext0 ctx with
            | None => SalContext (c_length ctx) (c_flags ctx) (c_verno ctx)
                (c_ackno ctx) (c_ext ctx) (c_ctrl_ext ctx) (Some (length pre)) None
                (c_src_ext ctx)
            | Some e => SalContext (c_length ctx) (c_flags ctx) (c_verno ctx)
                (c_ackno ctx) (c_ext ctx) (c_ctrl_ext ctx) (Some e)
                (Some (length pre)) (c_src_ext ctx)
            end) /\
  SAL_EXT_NEXT d (length pre) = Ok (length pre + 36)%nat.
Proof.
  intros Hc d. set (t := set_ext_type SAL_SERVICE_EXT b0).
  assert (ext_type_of t = 2) as Ht by (by apply ext_type_set).
  destruct (ext_len_at d pre t 36 ([b2; b3] ++ srvid ++ post)) as (H1 & H2 & H3 & H4).
  { unfold d, srv_bytes. by rewrite <-!app_assoc. }
  { by rewrite Ht. }
  split; [|done]. unfold parse_ext. rewrite H1, H2. cbn [mbind outcome_bind].
  rewrite Ht. cbn. unfold parse_service_ext. rewrite Hc.
  by destruct (c_srv_ext0 ctx).
Qed.

(** ** The round trip *)
Definition srvid_at (d : list Z) (ext : option nat) : option (list Z) :=
  ext ≫= fun e => match rd_bytes d (e + 4) 32 with Ok s => Some s | _ => None end.

(** What the receiver learns from a header. *)
Record decoded (sk : hdr_sock) (cb : skb_cb) (d : list Z) (ctx : sal_context)
  : Prop := Decoded {
  dec_flags : c_flags ctx =
    if is_ctrl_packet (cb_flags cb) then wire_flags (cb_flags cb) else 0;
  dec_ctrl : is_ctrl_packet (cb_flags cb) = true ->
    c_verno ctx = cb_verno cb /\ c_ackno ctx = hs_rcv_nxt sk /\
    has_verno ctx = true;
  dec_srv0 : srvid_at d (c_srv_ext0 ctx) =
    if is_ctrl_packet (cb_flags cb) then
      if flag_set (cb_flags cb) SVH_SYN || flag_set (cb_flags cb) SVH_CONN_ACK
      then Some (hs_peer_srvid sk) else None
    else if hs_unconnected_dgram sk then Some (hs_peer_srvid sk) else None;
  dec_srv1 : srvid_at d (c_srv_ext1 ctx) =
    if negb (is_ctrl_packet (cb_flags cb)) && hs_unconnected_dgram sk
    then Some (hs_local_srvid sk) else None;
}.

Lemma srvid_back pre b0 b2 b3 srvid post :
  length srvid = 32%nat ->
  srvid_at (pre ++ srv_bytes b0 b2 b3 srvid ++ post) (Some (length pre)) = Some srvid.
Proof.
  intros Hs. unfold srvid_at, srv_bytes. simpl.
  rewrite (rd_bytes_off pre [set_ext_type SAL_SERVICE_EXT b0; 36; b2; b3] srvid post 4 32
    eq_refl Hs : rd_bytes (pre ++ _ :: _ :: _ :: _ :: srvid ++ post) _ _ = _).
  done.
Qed.

Lemma parse_step rounds d ext hdr_len ctx ext_len ctx' next :
  parse_ext d ext ctx = Ok (ext_len, ctx') -> SAL_EXT_NEXT d ext = Ok next ->
  0 < hdr_len -> 0 < ext_len ->
  parse_exts (S rounds) d ext hdr_len ctx =
  parse_exts rounds d next (hdr_len - ext_len) (add_ext ext ctx').
Proof.
  intros Hp Hn H1 H2. cbn [parse_exts].
  rewrite (proj2 (Z.leb_gt _ _)) by done. rewrite (obind_Ok _ _ _ Hp).
  rewrite (proj2 (Z.leb_gt _ _)) by done. by rewrite (obind_Ok _ _ _ Hn).
Qed.

Lemma base_parse lf pf shl proto c0 c1 rest :
  length lf = 4%nat -> length pf = 4%nat -> 3 <= shl < 64 ->
  serval_sal_parse_hdr (base_bytes lf pf shl proto c0 c1 ++ rest) SAL_PARSE_ALL =
  parse_exts 10 (base_bytes lf pf shl proto c0 c1 ++ rest) 12 (4 * shl - 12)
    (ctx0 (4 * shl)).
Proof.
  intros Hl Hp Hs. unfold serval_sal_parse_hdr.
  rewrite (obind_Ok _ _ shl).
  - rewrite Z.shiftl_mul_pow2 by lia. change (2 ^ 2) with 4. rewrite (Z.mul_comm shl).
    cbn [c_length ctx0]. rewrite (proj2 (Z.ltb_ge _ _)) by (unfold SAL_HEADER_LEN; lia).
    done.
  - unfold base_bytes. rewrite <-!app_assoc, (app_assoc lf).
    replace 8%nat with (length (lf ++ pf)) by (rewrite length_app; lia).
    apply rd8_app.
Qed.

Lemma length_base lf pf shl proto c0 c1 :
  length lf = 4%nat -> length pf = 4%nat ->
  length (base_bytes lf pf shl proto c0 c1) = 12%nat.
Proof. intros. unfold base_bytes. rewrite !length_app. simpl. lia. Qed.

Lemma header_parses sk cb exts shl proto c0 c1 payload :
  hdr_sock_ok sk -> 0 <= cb_verno cb < 2 ^ 32 -> header_of sk cb exts shl ->
  let d := base_bytes (hs_local_flowid sk) (hs_peer_flowid sk) shl proto c0 c1
             ++ exts ++ payload in
  exists ctx, serval_sal_parse_hdr d SAL_PARSE_ALL = Ok (0, ctx) /\
    decoded sk cb d ctx.
Proof.
  intros (Hlf & Hpf & Hls & Hps & Hn & Hrcv) Hv Hh d.
  set (base := base_bytes (hs_local_flowid sk) (hs_peer_flowid sk) shl proto c0 c1) in *.
  assert (length base = 12%nat) as Hb by (by apply length_base).
  destruct Hh as [b0 b2 b3 Hc Hs|b0 b2 b3 e0 e2 e3 Hc Hs|b0 b2 b3 e0 e2 e3 Hc Hd|Hc Hd];
    unfold d, base; rewrite base_parse by (done || lia); fold base.
  - destruct (parse_ctrl_at base b0 b2 b3 (cb_flags cb) (cb_verno cb) (hs_rcv_nxt sk)
      (hs_local_nonce sk) payload (ctx0 (4 * 8))) as [P1 P2]; try done.
    rewrite Hb in P1, P2. rewrite (parse_step _ _ _ _ _ _ _ _ P1 P2) by lia.
    eexists. split; [done|]. split; rewrite ?Hc, ?Hs; done.
  - rewrite <-app_assoc.
    set (cbts := ctrl_bytes b0 b2 b3 (cb_flags cb) (cb_verno cb) (hs_rcv_nxt sk)
      (hs_local_nonce sk)). set (sb := srv_bytes e0 e2 e3 (hs_peer_srvid sk)).
    assert (length cbts = 20%nat) as Hcl by (unfold cbts; simpl; lia).
    destruct (parse_ctrl_at base b0 b2 b3 (cb_flags cb) (cb_verno cb) (hs_rcv_nxt sk)
      (hs_local_nonce sk) (sb ++ payload) (ctx0 (4 * 17))) as [P1 P2]; try done.
    fold cbts in P1, P2. rewrite Hb in P1, P2.
    rewrite (parse_step _ _ _ _ _ _ _ _ P1 P2) by lia.
    match goal with |- context [parse_exts _ _ _ _ ?c] => set (cx := c) end.
    destruct (parse_srv_at (base ++ cbts) e0 e2 e3 (hs_peer_srvid sk) payload cx)
      as [Q1 Q2]; [done|]. fold sb in Q1, Q2.
    rewrite <-app_assoc, length_app, Hb, Hcl in Q1, Q2.
    change (12 + 20)%nat with 32%nat in *.
    rewrite (parse_step _ _ _ _ _ _ _ _ Q1 Q2) by lia.
    eexists. split; [done|]. split; rewrite ?Hc, ?Hs; try done.
    change (srvid_at (base ++ cbts ++ sb ++ payload) (Some 32%nat)
            = Some (hs_peer_srvid sk)).
    replace 32%nat with (length (base ++ cbts)) by (rewrite length_app; lia).
    rewrite app_assoc. by apply srvid_back.
  - rewrite <-app_assoc.
    set (sb0 := srv_bytes b0 b2 b3 (hs_peer_srvid sk)).
    set (sb1 := srv_bytes e0 e2 e3 (hs_local_srvid sk)).
    assert (length sb0 = 36%nat) as Hcl by (unfold sb0; simpl; lia).
    destruct (parse_srv_at base b0 b2 b3 (hs_peer_srvid sk) (sb1 ++ payload)
      (ctx0 (4 * 21))) as [P1 P2]; [done|].
    fold sb0 in P1, P2. rewrite Hb in P1, P2.
    rewrite (parse_step _ _ _ _ _ _ _ _ P1 P2) by lia.
    match goal with |- context [parse_exts _ _ _ _ ?c] => set (cx := c) end.
    destruct (parse_srv_at (base ++ sb0) e0 e2 e3 (hs_local_srvid sk) payload cx)
      as [Q1 Q2]; [done|]. fold sb1 in Q1, Q2.
    rewrite <-app_assoc, length_app, Hb, Hcl in Q1, Q2.
    change (12 + 36)%nat with 48%nat in *.
    rewrite (parse_step _ _ _ _ _ _ _ _ Q1 Q2) by lia.
    eexists. split; [done|]. split; rewrite ?Hc, ?Hd; try done.
    + change (srvid_at (base ++ sb0 ++ sb1 ++ payload) (Some 12%nat)
              = Some (hs_peer_srvid sk)).
      rewrite <-Hb. by apply srvid_back.
    + change (srvid_at (base ++ sb0 ++ sb1 ++ payload) (Some 48%nat)
              = Some (hs_local_srvid sk)).
      replace 48%nat with (length (base ++ sb0)) by (rewrite length_app; lia).
      rewrite app_assoc. by apply srvid_back.
  - eexists. split; [done|]. split; rewrite ?Hc, ?Hd; done.
Qed.

(** ** Parsing arbitrary packets *)
Definition bytes_ok (d : list Z) : Prop := Forall (fun b => 0 <= b < 256) d.

Lemma rd8_ok d off :
  bytes_ok d -> (off < length d)%nat -> exists b, rd8 d off = Ok b /\ 0 <= b < 256.
Proof.
  intros Hd Ho. apply lookup_lt_is_Some in Ho as [b Hb]. exists b. unfold rd8.
  rewrite Hb. split; [done|]. by eapply (Forall_lookup_1 _ _ _ _ Hd).
Qed.
Lemma rd_bytes_ok d off n : (off + n <= length d)%nat -> exists l, rd_bytes d off n = Ok l.
Proof. intros. unfold rd_bytes. rewrite decide_True by done. eauto. Qed.

(** All extensions recorded so far start inside the header. *)
Definition ext_below (L : Z) (ext : option nat) : Prop :=
  forall e, ext = Some e -> Z.of_nat e < L.
Definition ctx_below (L : Z) (ctx : sal_context) : Prop :=
  c_length ctx = L /\ Forall (fun e => Z.of_nat e < L) (c_ext ctx) /\
  ext_below L (c_ctrl_ext ctx) /\ ext_below L (c_srv_ext0 ctx) /\
  ext_below L (c_srv_ext1 ctx) /\ ext_below L (c_src_ext ctx).

Lemma ext_below_new L ext e : Z.of_nat ext < L -> e = Some ext -> ext_below L e.
Proof. intros ? -> y Hy. by injection Hy as <-. Qed.

Lemma parse_ext_safe d ext L ctx :
  bytes_ok d -> Z.of_nat ext < L -> L + 11 <= Z.of_nat (length d) ->
  ctx_below L ctx ->
  exists n r ctx', SAL_EXT_LEN d ext = Ok n /\ parse_ext d ext ctx = Ok (r, ctx') /\
    ctx_below L ctx' /\ (r = -1 \/ r = n /\ 0 < r).
Proof.
  intros Hd Hext HL (K1 & K2 & K3 & K4 & K5 & K6).
  destruct (rd8_ok d ext Hd) as (b0 & Hb0 & Hr0); [lia|].
  destruct (rd8_ok d (ext + 1) Hd) as (b1 & Hb1 & Hr1); [lia|].
  destruct (rd8_ok d (ext + 2) Hd) as (b2 & Hb2 & Hr2); [lia|].
  destruct (rd_bytes_ok d (ext + 4) 4) as (v & Hv); [lia|].
  destruct (rd_bytes_ok d (ext + 8) 4) as (a & Ha); [lia|].
  set (n := if ext_type_of b0 =? SAL_PAD_EXT then 1 else b1).
  assert (SAL_EXT_LEN d ext = Ok n) as Hn.
  { unfold SAL_EXT_LEN. rewrite (obind_Ok _ _ _ Hb0). unfold n.
    by destruct (ext_type_of b0 =? SAL_PAD_EXT). }
  unfold parse_ext. rewrite (obind_Ok _ _ _ Hn), (obind_Ok _ _ _ Hb0).
  assert (ctx_below L ctx) as Hbelow by by split_and!.
  destruct (SAL_EXT_TYPE_MAX <=? ext_type_of b0) eqn:E1; [eauto 10|].
  destruct (Z.ltb_spec n (min_ext_length (ext_type_of b0))) as [|Hmin]; [eauto 10|].
  assert (0 < n) as Hpos.
  { eapply Z.lt_le_trans; [|exact Hmin]. unfold min_ext_length.
    repeat case_match; lia. }
  destruct (ext_type_of b0 =? SAL_PAD_EXT) eqn:E2.
  { exists n, 1, ctx. unfold n. auto 10. }
  destruct (ext_type_of b0 =? SAL_CONTROL_EXT).
  { unfold parse_control_ext. destruct (c_ctrl_ext ctx); [eauto 10|].
    rewrite (obind_Ok _ _ _ Hv), (obind_Ok _ _ _ Ha), (obind_Ok _ _ _ Hb2).
    eexists n, n, _. split_and!; try done; [by split_and!; try done; eapply ext_below_new|auto]. }
  destruct (ext_type_of b0 =? SAL_SERVICE_EXT).
  { unfold parse_service_ext. destruct (c_srv_ext0 ctx), (c_srv_ext1 ctx);
      eexists n, _, _; (split; [done|]; split; [done|]; split; [|auto]);
      first [exact Hbelow|split_and!; try done; by eapply ext_below_new]. }
  destruct (ext_type_of b0 =? SAL_ADDRESS_EXT); [exists n, n, ctx; auto 10|].
  unfold parse_source_ext. destruct (c_src_ext ctx); [eauto 10|].
  rewrite (obind_Ok _ _ _ Hb1). eexists n, _, _. split_and!; try done;
    [by split_and!; try done; eapply ext_below_new|]. case_match; auto.
Qed.

Lemma parse_exts_safe rounds d L : forall ext hdr_len ctx,
  bytes_ok d -> Z.of_nat ext + hdr_len = L -> L + 11 <= Z.of_nat (length d) ->
  ctx_below L ctx ->
  exists r ctx', parse_exts rounds d ext hdr_len ctx = Ok (r, ctx') /\
    ctx_below L ctx' /\ (length (c_ext ctx') <= length (c_ext ctx) + rounds)%nat.
Proof.
  induction rounds as [|rounds IH]; intros ext hdr_len ctx Hd Hsum HL Hc; cbn [parse_exts].
  { destruct (hdr_len <=? 0); eexists _, _; (split_and!; [done|done|lia]). }
  destruct (Z.leb_spec hdr_len 0) as [|Hpos];
    [eexists _, _; (split_and!; [done|done|lia])|].
  destruct (parse_ext_safe d ext L ctx) as (n & r & ctx1 & Hn & Hp & Hc1 & Hr);
    [done|lia|done|done|].
  assert (length (c_ext ctx1) = length (c_ext ctx)) as Hlen.
  { revert Hp. unfold parse_ext, parse_control_ext, parse_service_ext, parse_source_ext.
    unfold mbind, outcome_bind. repeat case_match; intros; simplify_eq; done. }
  rewrite (obind_Ok _ _ _ Hp).
  destruct (Z.leb_spec r 0); [eexists _, _; (split_and!; [done|done|lia])|].
  destruct Hr as [->|[-> Hr]]; [lia|].
  rewrite (obind_Ok _ _ (ext + Z.to_nat n)%nat)
    by (unfold SAL_EXT_NEXT; by rewrite (obind_Ok _ _ _ Hn)).
  destruct (IH (ext + Z.to_nat n)%nat (hdr_len - n) (add_ext ext ctx1))
    as (r' & ctx' & Hrun & Hc' & Hl'); [done|lia|done| |].
  { destruct Hc1 as (K1 & K2 & K3). split; [done|]. split; [|done].
    simpl. apply Forall_app. split; [done|]. constructor; [lia|done]. }
  exists r', ctx'. split_and!; [done|done|]. simpl in Hl'. rewrite length_app in Hl'.
  simpl in Hl'. lia.
Qed.

(** C24 (safety): on any bytes with 11 readable bytes behind the header the parser
    terminates without reading outside the packet, and every extension it
    records (at most ten) starts inside the header. *)
Theorem parse_hdr_safe d mode shl :
  bytes_ok d -> d !! 8%nat = Some shl -> 4 * shl + 11 <= Z.of_nat (length d) ->
  exists r ctx, serval_sal_parse_hdr d mode = Ok (r, ctx) /\ ctx_below (4 * shl) ctx /\
    (length (c_ext ctx) <= 10)%nat.
Proof.
  intros Hd Hs HL. pose proof (Forall_lookup_1 _ _ _ _ Hd Hs) as Hr. simpl in Hr.
  unfold serval_sal_parse_hdr. rewrite (obind_Ok _ _ shl) by (unfold rd8; by rewrite Hs).
  assert (Z.shiftl shl 2 = 4 * shl) as -> by (rewrite Z.shiftl_mul_pow2; lia).
  assert (ctx_below (4 * shl) (ctx0 (4 * shl))) as H0 by by split_and!.
  cbn [c_length ctx0]. destruct (Z.ltb_spec (4 * shl) (Z.of_nat SAL_HEADER_LEN)).
  { eexists _, _. split_and!; [done|done|simpl; lia]. }
  destruct mode; [eexists _, _; split_and!; [done|done|simpl; lia]|].
  apply (parse_exts_safe 10); try done. unfold SAL_HEADER_LEN. lia.
Qed.
