(* ===== verification/Checksum.v ===== *)
(** * Internet checksums (src/stack/userlevel/checksum.c,
    include/serval/checksum.h, and serval_sal.c lines 632-641)

    Buffers are byte lists together with the address they start at, because
    the code first aligns its reads.  The length argument is the length of the
    list, so every read is inside the buffer.  Little-endian. *)
From S2P Require Import Prelude.
Local Open Scope Z_scope.

(** ** The code *)
Definition at_ (l : list Z) (i : nat) : Z := nth i l 0.
Definition le16 (l : list Z) : Z := at_ l 0 + 256 * at_ l 1.
Definition le32 (l : list Z) : Z :=
  at_ l 0 + 256 * at_ l 1 + 65536 * at_ l 2 + 16777216 * at_ l 3.

Definition fold16 (x : Z) : Z := u32 (Z.land x 65535 + Z.shiftr x 16).
Definition from32to16 (x : Z) : Z := u16 (fold16 (fold16 x)).

(** The loop over 32-bit words, with its carry; returns the rest. *)
Fixpoint csum_words (count : nat) (buff : list Z) (result carry : Z)
  : Z * Z * list Z :=
  match count with
  | O => (result, carry, buff)
  | S count =>
      let w := le32 buff in
      let result := u32 (u32 (result + carry) + w) in
      csum_words count (drop 4 buff) result (if result <? w then 1 else 0)
  end.

(** Lines 65-97, from the first even address on; [len & 2] and [len & 1] are
    the parities of [len / 2] and [len]. *)
Definition csum_even (addr : Z) (buff : list Z) (result : Z) : Z :=
  let len := length buff in
  let count := (len / 2)%nat in
  let '(result, buff, len) :=
    if (count =? 0)%nat then (result, buff, len)
    else
      let '(result, buff, len, count) :=
        if Z.testbit addr 1
        then (u32 (result + le16 buff), drop 2 buff, (len - 2)%nat, (count - 1)%nat)
        else (result, buff, len, count) in
      let count := (count / 2)%nat in
      let '(result, buff) :=
        if (count =? 0)%nat then (result, buff)
        else
          let '(result, carry, buff) := csum_words count buff result 0 in
          (fold16 (u32 (result + carry)), buff) in
      if Nat.odd (len / 2) then (u32 (result + le16 buff), drop 2 buff, len)
      else (result, buff, len) in
  if Nat.odd len then u32 (result + at_ buff 0) else result.

Definition do_csum (addr : Z) (buff : list Z) : Z :=
  match buff with
  | [] => 0
  | b :: buff' =>
      if Z.odd addr then
        let r := from32to16 (csum_even (addr + 1) buff' (u32 (Z.shiftl b 8))) in
        Z.lor (Z.land (Z.shiftr r 8) 255) (Z.shiftl (Z.land r 255) 8)
      else from32to16 (csum_even addr buff 0)
  end.

Definition ip_compute_csum (addr : Z) (buff : list Z) : Z :=
  u16 (Z.lnot (do_csum addr buff)).
Definition ip_fast_csum (addr : Z) (iph : list Z) (ihl : nat) : Z :=
  u16 (Z.lnot (do_csum addr (take (4 * ihl) iph))).
Definition csum_partial (addr : Z) (buff : list Z) (sum : Z) : Z :=
  let result := u32 (do_csum addr buff + sum) in
  if result <? sum then u32 (result + 1) else result.
Definition csum_fold (csum : Z) : Z := u16 (Z.lnot (fold16 (fold16 csum))).
Definition csum_add (csum addend : Z) : Z :=
  let res := u32 (csum + addend) in u32 (res + (if res <? addend then 1 else 0)).
Definition csum_sub (csum addend : Z) : Z := csum_add csum (u32 (Z.lnot addend)).
Definition csum_tcpudp_nofold (saddr daddr len proto sum : Z) : Z :=
  let s := u64 (sum + saddr + daddr + Z.shiftl (proto + len) 8) in
  u32 (s + Z.shiftr s 32).
Definition csum_tcpudp_magic (saddr daddr len proto sum : Z) : Z :=
  csum_fold (csum_tcpudp_nofold saddr daddr len proto sum).

(** The SAL header checksum, at offset 10 of the header. *)
Definition serval_sal_csum (addr : Z) (sh : list Z) (len : nat) : Z :=
  ip_compute_csum addr (take len sh).
Definition set_check (check : Z) (sh : list Z) : list Z :=
  <[10%nat := Z.land check 255]> (<[11%nat := Z.shiftr check 8]> sh).
Definition serval_sal_send_check (addr : Z) (sh : list Z) : list Z :=
  let sh := set_check 0 sh in
  let shl := at_ sh 8 in
  set_check (serval_sal_csum addr sh (Z.to_nat (Z.shiftl shl 2))) sh.

(** ** The reference: the ones' complement sum of the 16-bit words *)
Fixpoint wsum (l : list Z) : Z :=
  match l with
  | [] => 0
  | [a] => a
  | a :: b :: l => a + 256 * b + wsum l
  end.
(** Its 16-bit representative, 0 only for 0. *)
Definition norm16 (s : Z) : Z := if s =? 0 then 0 else (s - 1) mod 65535 + 1.

(** [x] represents the sum [s]. *)
Definition repr (x s : Z) : Prop :=
  0 <= x /\ 0 <= s /\ x mod 65535 = s mod 65535 /\ (x = 0 <-> s = 0).

Lemma repr_refl s : 0 <= s -> repr s s.
Proof. intros. split_and!; done. Qed.

Lemma repr_add x s y t : repr x s -> repr y t -> repr (x + y) (s + t).
Proof.
  intros (H1 & H2 & H3 & H4) (K1 & K2 & K3 & K4). split_and!; try lia.
  by rewrite Z.add_mod, H3, K3, <-Z.add_mod.
Qed.

Lemma repr_cong x y s :
  repr x s -> 0 <= y -> y mod 65535 = x mod 65535 -> (y = 0 <-> x = 0) -> repr y s.
Proof. intros (H1 & H2 & H3 & H4) K1 K2 K3. split_and!; try lia; congruence. Qed.

Lemma repr_trans x y s : repr x y -> repr y s -> repr x s.
Proof.
  intros (H1 & H2 & H3 & H4) (K1 & K2 & K3 & K4). split_and!; try lia; congruence.
Qed.

Lemma norm16_repr x s : repr x s -> x <= 65535 -> x = norm16 s.
Proof.
  intros (H1 & H2 & H3 & H4) Hx. unfold norm16. destruct (Z.eqb_spec s 0) as [->|Hs]; [lia|].
  assert (x <> 0) by lia. rewrite <-(Zminus_mod_idemp_l s), <-H3, Zminus_mod_idemp_l.
  rewrite Z.mod_small; lia.
Qed.

(** Folding the halves of a 32-bit word. *)
Lemma fold16_split x : 0 <= x < 2 ^ 32 ->
  fold16 x = x mod 65536 + x / 65536 /\ x = 65536 * (x / 65536) + x mod 65536 /\
  0 <= x mod 65536 < 65536 /\ 0 <= x / 65536 < 65536.
Proof.
  intros Hx. unfold fold16. change 65535 with (Z.ones 16).
  rewrite Z.land_ones, Z.shiftr_div_pow2 by lia. change (2 ^ 16) with 65536.
  pose proof (Z.div_mod x 65536). pose proof (Z.mod_pos_bound x 65536).
  assert (0 <= x / 65536 < 65536)
    by (split; [apply Z.div_pos; lia|apply Z.div_lt_upper_bound; lia]).
  split_and!; try lia. unfold u32. rewrite Z.mod_small; lia.
Qed.

Lemma fold16_repr x : 0 <= x < 2 ^ 32 -> repr (fold16 x) x /\ fold16 x <= 131070.
Proof.
  intros Hx. destruct (fold16_split x Hx) as (-> & He & H1 & H2). split; [|lia].
  split_and!; try lia.
  set (q := x / 65536) in *. set (r := x mod 65536) in *. clearbody q r. subst x.
  replace (65536 * q + r) with (r + q + q * 65535) by lia.
  by rewrite Z.mod_add by lia.
Qed.

Lemma from32to16_ok x s : 0 <= x < 2 ^ 32 -> repr x s -> from32to16 x = norm16 s.
Proof.
  intros Hx Hr. destruct (fold16_repr x Hx) as [R1 B1].
  assert (0 <= fold16 x) by (destruct R1; lia).
  destruct (fold16_repr (fold16 x)) as [R2 B2]; [lia|].
  assert (fold16 (fold16 x) <= 65535) as Hle.
  { destruct (fold16_split (fold16 x)) as (He & Hs & Hm & Hd); [lia|]. rewrite He.
    assert (fold16 x / 65536 < 2) by (apply Z.div_lt_upper_bound; lia).
    set (q := fold16 x / 65536) in *. set (r := fold16 x mod 65536) in *.
    clearbody q r. lia. }
  assert (repr (fold16 (fold16 x)) s) as R by eauto using repr_trans.
  unfold from32to16, u16. rewrite Z.mod_small by (destruct R; lia).
  by apply norm16_repr.
Qed.

(** ** The word loop *)
Lemma wsum_nonneg l : Forall (fun b => 0 <= b < 256) l -> 0 <= wsum l.
Proof.
  assert (forall n l, (length l <= n)%nat -> Forall (fun b => 0 <= b < 256) l ->
    0 <= wsum l) as H; [|by eauto].
  induction n as [|n IH]; intros [|a [|b l']] Hn Hf; simpl in *; try lia;
    rewrite ?Forall_cons in Hf; try lia.
  specialize (IH l'). destruct Hf as (? & ? & ?). assert (0 <= wsum l') by (apply IH; [lia|done]).
  lia.
Qed.

Lemma wsum_app_even a b :
  Nat.Even (length a) -> wsum (a ++ b) = wsum a + wsum b.
Proof.
  intros [k Hk]. revert a Hk. induction k as [|k IH]; intros [|x [|y a]] Hk;
    simpl in *; try lia. rewrite IH by lia. lia.
Qed.

Lemma at_byte l i : Forall (fun b => 0 <= b < 256) l -> 0 <= at_ l i < 256.
Proof.
  intros Hf. unfold at_. destruct (nth_in_or_default i l 0) as [Hin| ->]; [|lia].
  rewrite Forall_forall in Hf. apply Hf. by apply list_elem_of_In.
Qed.

Lemma le16_wsum l :
  (2 <= length l)%nat -> wsum l = le16 l + wsum (drop 2 l).
Proof.
  destruct l as [|a [|b l]]; [simpl; lia..|]. intros _. unfold le16, at_.
  change (drop 2 (a :: b :: l)) with l. cbn [wsum nth]. lia.
Qed.

Lemma le16_bound l : Forall (fun b => 0 <= b < 256) l -> 0 <= le16 l < 65536.
Proof.
  intros Hf. pose proof (at_byte l 0 Hf). pose proof (at_byte l 1 Hf).
  unfold le16. lia.
Qed.

(** A 32-bit word represents the sum of its two halves. *)
Lemma le32_repr l :
  Forall (fun b => 0 <= b < 256) l -> (4 <= length l)%nat ->
  0 <= le32 l < 2 ^ 32 /\ repr (le32 l) (wsum l - wsum (drop 4 l)).
Proof.
  intros Hf Hl. destruct l as [|a [|b [|c [|d l]]]]; simpl in Hl; try lia.
  rewrite !Forall_cons in Hf. destruct Hf as (Ha & Hb & Hc & Hd & _).
  change (drop 4 (a :: b :: c :: d :: l)) with l. unfold le32, at_. cbn [nth wsum].
  split; [lia|]. split_and!; try lia.
  replace (a + 256 * b + (c + 256 * d + wsum l) - wsum l)
    with (a + 256 * b + c + 256 * d) by lia.
  replace (a + 256 * b + 65536 * c + 16777216 * d)
    with (a + 256 * b + c + 256 * d + (c + 256 * d) * 65535) by lia.
  by rewrite Z.mod_add by lia.
Qed.

Lemma csum_words_ok count : forall buff result carry s,
  Forall (fun b => 0 <= b < 256) buff -> (4 * count <= length buff)%nat ->
  0 <= result < 2 ^ 32 -> (carry = 0 \/ carry = 1 /\ result < 2 ^ 32 - 1) ->
  repr (result + carry) s ->
  exists result' carry',
    csum_words count buff result carry = (result', carry', drop (4 * count) buff) /\
    0 <= result' + carry' < 2 ^ 32 /\ 0 <= result' /\ 0 <= carry' /\
    repr (result' + carry') (s + (wsum buff - wsum (drop (4 * count) buff))).
Proof.
  induction count as [|count IH]; intros buff result carry s Hf Hl Hr Hc Hs.
  { exists result, carry. rewrite Nat.mul_0_r, drop_0. split_and!; try done; try lia.
    by replace (s + (wsum buff - wsum buff)) with s by lia. }
  destruct (le32_repr buff Hf) as [Hw Rw]; [lia|]. cbn [csum_words].
  set (w := le32 buff) in *.
  assert (u32 (u32 (result + carry) + w) = (result + carry + w) mod 2 ^ 32) as ->.
  { unfold u32. by rewrite Zplus_mod_idemp_l. }
  set (r' := (result + carry + w) mod 2 ^ 32). set (c' := if r' <? w then 1 else 0).
  assert (r' + c' = result + carry + w /\ c' = 0 \/
          r' + c' = result + carry + w - (2 ^ 32 - 1) /\ c' = 1 /\ r' < 2 ^ 32 - 1) as Hcase.
  { subst r' c'. destruct (decide (result + carry + w < 2 ^ 32)) as [Hlt|Hge].
    - left. rewrite Z.mod_small by lia. rewrite (proj2 (Z.ltb_ge _ _)); lia.
    - right. assert ((result + carry + w) mod 2 ^ 32 = result + carry + w - 2 ^ 32) as ->
        by (symmetry; apply (Z.mod_unique _ _ 1); lia).
      rewrite (proj2 (Z.ltb_lt _ _)); lia. }
  assert (0 <= r' < 2 ^ 32) as Hr' by (apply Z.mod_pos_bound; lia).
  assert (repr (r' + c') (s + (wsum buff - wsum (drop 4 buff)))) as Hs'.
  { eapply repr_cong; [exact (repr_add _ _ _ _ Hs Rw)|..].
    - lia.
    - destruct Hcase as [[-> _]|[-> _]]; [done|].
      replace (result + carry + w - (2 ^ 32 - 1))
        with (result + carry + w + (-65537) * 65535) by lia.
      by rewrite Z.mod_add by lia.
    - lia. }
  destruct (IH (drop 4 buff) r' c' (s + (wsum buff - wsum (drop 4 buff))))
    as (result' & carry' & Hrun & ? & ? & ? & Hrep).
  - by apply Forall_drop.
  - rewrite length_drop. lia.
  - done.
  - destruct Hcase as [[_ ->]|(_ & -> & ?)]; auto.
  - done.
  - exists result', carry'. rewrite Hrun, drop_drop in *.
    replace (4 + 4 * count)%nat with (4 * S count)%nat in * by lia.
    split_and!; try done; try lia.
    match goal with H : repr _ ?x |- repr _ ?y => by replace y with x by lia end.
Qed.

(** ** The whole sum *)

Lemma add_small result s x :
  0 <= result <= 200000 -> repr result s -> 0 <= x < 65536 ->
  0 <= u32 (result + x) <= 200000 + 65535 /\ repr (u32 (result + x)) (s + x).
Proof.
  intros Hr Hs Hx. rewrite u32_id by lia. split; [lia|].
  apply repr_add; [done|apply repr_refl; lia].
Qed.

(** The last byte, when the length is odd. *)
Lemma last_byte l result s :
  Forall (fun b => 0 <= b < 256) l -> (length l <= 1)%nat ->
  0 <= result <= 200000 + 65535 -> repr result s ->
  let r := if Nat.odd (length l) then u32 (result + at_ l 0) else result in
  0 <= r < 2 ^ 32 /\ repr r (s + wsum l).
Proof.
  intros Hf Hl Hr Hs. destruct l as [|b [|c l]]; simpl in *; [| |lia].
  - rewrite Z.add_0_r. split; [lia|done].
  - apply Forall_cons in Hf as [Hb _]. unfold at_. simpl. rewrite u32_id by lia.
    split; [lia|]. apply repr_add; [done|]. apply repr_refl. lia.
Qed.

(** A trailing 16-bit word, when one is left, and the last byte. *)
Lemma last_word l result s :
  Forall (fun b => 0 <= b < 256) l -> (length l < 4)%nat ->
  0 <= result <= 200000 -> repr result s ->
  let '(r, l') := if Nat.odd (length l / 2) then (u32 (result + le16 l), drop 2 l)
                  else (result, l) in
  let r' := if Nat.odd (length l) then u32 (r + at_ l' 0) else r in
  0 <= r' < 2 ^ 32 /\ repr r' (s + wsum l).
Proof.
  intros Hf Hl Hr Hs.
  assert ((length l = 0 \/ length l = 1) \/ (length l = 2 \/ length l = 3))%nat as Hc
    by lia.
  destruct Hc as [Hc|Hc].
  { assert (Nat.odd (length l / 2) = false) as -> by (by destruct Hc as [-> | ->]).
    apply last_byte; (done || lia). }
  assert (Nat.odd (length l / 2) = true) as -> by (by destruct Hc as [-> | ->]).
  destruct (add_small result s (le16 l)) as [B R]; [done|done|by apply le16_bound|].
  rewrite (le16_wsum l) by lia. rewrite Z.add_assoc.
  assert (Nat.odd (length l) = Nat.odd (length (drop 2 l))) as ->.
  { rewrite length_drop. by destruct Hc as [-> | ->]. }
  apply last_byte; [by apply Forall_drop|rewrite length_drop; lia|done|done].
Qed.

(** The loop over 32-bit words with the fold that follows it. *)
Lemma words_ok l count result s :
  Forall (fun b => 0 <= b < 256) l -> (length l / 4 = count)%nat ->
  0 <= result <= 200000 -> repr result s ->
  exists r, (if (count =? 0)%nat then (result, l)
             else let '(result, carry, buff) := csum_words count l result 0 in
                  (fold16 (u32 (result + carry)), buff)) = (r, drop (4 * count) l) /\
    0 <= r <= 200000 /\ repr r (s + (wsum l - wsum (drop (4 * count) l))).
Proof.
  intros Hf Hc Hr Hs. pose proof (Nat.div_mod_eq (length l) 4) as Hd. rewrite Hc in Hd.
  destruct (Nat.eqb_spec count 0) as [->|Hne].
  { exists result. rewrite Nat.mul_0_r, drop_0, Z.sub_diag, Z.add_0_r. done. }
  destruct (csum_words_ok count l result 0 s) as (r' & c' & -> & B & _ & _ & R);
    [done|lia|lia|by left|by rewrite Z.add_0_r|].
  rewrite u32_id by lia. destruct (fold16_repr (r' + c')) as [F FB]; [lia|].
  eexists. split; [done|]. split; [destruct F; lia|]. by eapply repr_trans.
Qed.

Lemma even_parts_ok l result s :
  Forall (fun b => 0 <= b < 256) l -> 0 <= result <= 200000 -> repr result s ->
  let count := (length l / 4)%nat in
  let '(r, l1) := (if (count =? 0)%nat then (result, l)
             else let '(result, carry, buff) := csum_words count l result 0 in
                  (fold16 (u32 (result + carry)), buff)) in
  let '(r, l2) := (if Nat.odd (length l / 2) then (u32 (r + le16 l1), drop 2 l1)
                   else (r, l1)) in
  let r' := if Nat.odd (length l) then u32 (r + at_ l2 0) else r in
  0 <= r' < 2 ^ 32 /\ repr r' (s + wsum l).
Proof.
  intros Hf Hr Hs count.
  destruct (words_ok l count result s Hf eq_refl Hr Hs) as (r & -> & B & R).
  pose proof (Nat.div_mod_eq (length l) 4) as Hd. fold count in Hd.
  pose proof (Nat.mod_upper_bound (length l) 4 ltac:(lia)).
  set (l1 := drop (4 * count) l) in *.
  assert (length l1 = length l mod 4)%nat as Hl1 by (unfold l1; rewrite length_drop; lia).
  assert (Nat.odd (length l) = Nat.odd (length l1)) as ->.
  { rewrite Hl1, Hd at 1. rewrite Nat.odd_add, Nat.odd_mul. done. }
  assert (Nat.odd (length l / 2) = Nat.odd (length l1 / 2)) as ->.
  { rewrite Hl1. replace (length l / 2)%nat with (2 * count + length l mod 4 / 2)%nat.
    - by rewrite Nat.odd_add, Nat.odd_mul.
    - symmetry. rewrite Hd at 1. replace (4 * count)%nat with ((2 * count) * 2)%nat by lia.
      by rewrite Nat.div_add_l by lia. }
  pose proof (last_word l1 r (s + (wsum l - wsum l1))) as Hlast.
  replace (s + (wsum l - wsum l1) + wsum l1) with (s + wsum l) in Hlast by lia.
  apply Hlast; [by apply Forall_drop|lia|done|done].
Qed.

Lemma csum_even_ok addr l result s :
  Forall (fun b => 0 <= b < 256) l -> 0 <= result <= 65535 -> repr result s ->
  0 <= csum_even addr l result < 2 ^ 32 /\ repr (csum_even addr l result) (s + wsum l).
Proof.
  intros Hf Hr Hs. unfold csum_even.
  destruct (Nat.eqb_spec (length l / 2) 0) as [H0|Hne].
  { apply last_byte; try done; [|lia].
    pose proof (Nat.div_mod_eq (length l) 2). pose proof (Nat.mod_upper_bound (length l) 2).
    lia. }
  assert (2 <= length l)%nat as Hl2.
  { destruct (decide (length l < 2)%nat); [|lia]. rewrite Nat.div_small in Hne; lia. }
  destruct (Z.testbit addr 1).
  - assert (length l - 2 = length (drop 2 l))%nat as Hl by (by rewrite length_drop).
    assert ((length l / 2 - 1) / 2 = length (drop 2 l) / 4)%nat as Hc.
    { rewrite <-Hl. replace (length l / 2 - 1)%nat with ((length l - 2) / 2)%nat.
      - by rewrite Nat.Div0.div_div.
      - replace (length l) with (1 * 2 + (length l - 2))%nat at 2 by lia.
        rewrite Nat.div_add_l by lia. lia. }
    rewrite Hc, Hl.
    destruct (add_small result s (le16 l)) as [B R]; [lia|done|by apply le16_bound|].
    pose proof (even_parts_ok (drop 2 l) (u32 (result + le16 l)) (s + le16 l)) as H.
    rewrite <-Z.add_assoc, <-le16_wsum in H by done.
    pose proof (le16_bound l Hf).
    specialize (H ltac:(by apply Forall_drop) ltac:(rewrite u32_id in * by lia; lia) R).
    cbn beta zeta iota in H |- *.
    destruct (length (drop 2 l) / 4 =? 0)%nat.
    + by destruct (Nat.odd (length (drop 2 l) / 2)).
    + destruct (csum_words (length (drop 2 l) / 4) (drop 2 l) (u32 (result + le16 l)) 0)
        as [[r c] l1]. by destruct (Nat.odd (length (drop 2 l) / 2)).
  - rewrite Nat.Div0.div_div. change (2 * 2)%nat with 4%nat.
    pose proof (even_parts_ok l result s Hf ltac:(lia) Hs) as H.
    cbn beta zeta iota in H |- *. destruct (length l / 4 =? 0)%nat.
    + by destruct (Nat.odd (length l / 2)).
    + destruct (csum_words (length l / 4) l result 0) as [[r c] l1].
      by destruct (Nat.odd (length l / 2)).
Qed.

(** Swapping the bytes of a sum is multiplication by 256. *)
Lemma swap_ok r : 0 <= r <= 65535 ->
  let x := Z.lor (Z.land (Z.shiftr r 8) 255) (Z.shiftl (Z.land r 255) 8) in
  0 <= x <= 65535 /\ x mod 65535 = (256 * r) mod 65535 /\ (x = 0 <-> r = 0).
Proof.
  intros Hr x. subst x. change 255 with (Z.ones 8). rewrite !Z.land_ones by lia.
  rewrite Z.shiftr_div_pow2, Z.shiftl_mul_pow2 by lia. change (2 ^ 8) with 256.
  pose proof (Z.div_mod r 256 ltac:(lia)) as He. pose proof (Z.mod_pos_bound r 256).
  assert (0 <= r / 256 < 256)
    by (split; [apply Z.div_pos; lia|apply Z.div_lt_upper_bound; lia]).
  rewrite (Z.mod_small (r / 256)) by lia.
  set (q := r / 256) in *. set (m := r mod 256) in *. clearbody q m.
  assert (Z.lor q (m * 256) = q + m * 256) as ->.
  { rewrite Z.add_nocarry_lxor; [symmetry; apply Z.lxor_lor|];
    apply Z.bits_inj'; intros n Hn;
    rewrite Z.land_spec, Z.bits_0; change 256 with (2 ^ 8);
    (destruct (decide (n < 8));
     [by rewrite Z.mul_pow2_bits_low, andb_false_r by lia|]);
    (replace (Z.testbit q n) with false; [done|]); symmetry;
    (apply Z.bits_above_log2; [lia|]); (destruct (decide (q = 0)) as [->|]; [simpl; lia|]);
    (apply Z.lt_le_trans with 8; [|lia]); apply Z.log2_lt_pow2; lia. }
  subst r. split; [lia|]. split; [|lia].
  replace (256 * (256 * q + m)) with (q + m * 256 + q * 65535) by lia.
  by rewrite Z.mod_add by lia.
Qed.

Lemma wsum_cons b l :
  Forall (fun b => 0 <= b < 256) (b :: l) ->
  (256 * (256 * b + wsum l)) mod 65535 = wsum (b :: l) mod 65535 /\
  (256 * b + wsum l = 0 <-> wsum (b :: l) = 0).
Proof.
  assert (forall n l b, (length l <= n)%nat -> Forall (fun b => 0 <= b < 256) (b :: l) ->
    exists k, 256 * (256 * b + wsum l) = wsum (b :: l) + k * 65535 /\
    (256 * b + wsum l = 0 <-> wsum (b :: l) = 0)) as H.
  { clear. induction n as [|n IH]; intros l b Hn Hf.
    - destruct l; [|simpl in Hn; lia]. exists b. cbn [wsum]. lia.
    - destruct l as [|c [|d l]].
      + exists b. cbn [wsum]. lia.
      + exists b. apply Forall_cons in Hf as [? [? _]%Forall_cons]. cbn [wsum]. lia.
      + destruct (IH l d) as (k & Hk & Hz).
        * simpl in Hn. lia.
        * by apply Forall_cons in Hf as [_ [_ ?]%Forall_cons].
        * assert (0 <= wsum l) as Hl.
          { apply wsum_nonneg. by apply Forall_cons in Hf as
              [_ [_ [_ ?]%Forall_cons]%Forall_cons]. }
          assert (0 <= wsum (d :: l)) as Hdl.
          { apply wsum_nonneg. by apply Forall_cons in Hf as [_ [_ ?]%Forall_cons]. }
          apply Forall_cons in Hf as [? [? [? _]%Forall_cons]%Forall_cons].
          exists (k + b). cbn [wsum] in *. fold (wsum (d :: l)). lia. }
  intros Hf. destruct (H (length l) l b ltac:(lia) Hf) as (k & Hk & Hz).
  split; [|done]. by rewrite Hk, Z.mod_add by lia.
Qed.

(** [do_csum] is the ones' complement sum, whatever the alignment. *)
Lemma do_csum_ok addr l :
  Forall (fun b => 0 <= b < 256) l -> do_csum addr l = norm16 (wsum l).
Proof.
  intros Hf. unfold do_csum. destruct l as [|b l]; [done|]. destruct (Z.odd addr).
  - pose proof Hf as [Hb Hl]%Forall_cons.
    rewrite Z.shiftl_mul_pow2, u32_id by lia. change (2 ^ 8) with 256.
    rewrite (Z.mul_comm b).
    destruct (csum_even_ok (addr + 1) l (256 * b) (256 * b)) as [B R];
      [done|lia|apply repr_refl; lia|].
    rewrite (from32to16_ok _ _ B R).
    assert (0 <= norm16 (256 * b + wsum l) <= 65535) as Hn.
    { unfold norm16. destruct (_ =? 0); [lia|].
      pose proof (Z.mod_pos_bound (256 * b + wsum l - 1) 65535). lia. }
    destruct (swap_ok _ Hn) as (S1 & S2 & S3). apply norm16_repr; [|lia].
    destruct (wsum_cons b l Hf) as [W1 W2].
    pose proof (wsum_nonneg _ Hf). pose proof (wsum_nonneg _ Hl).
    split_and!; try lia.
    + rewrite S2, <-W1, <-Z.mul_mod_idemp_r, <-(Z.mul_mod_idemp_r 256 (_ + _)) by lia.
      do 2 f_equal. destruct R as (_ & _ & R3 & _).
      unfold norm16. destruct (Z.eqb_spec (256 * b + wsum l) 0) as [->|]; [done|].
      rewrite Zplus_mod_idemp_l. f_equal. lia.
    + rewrite S3, <-W2. unfold norm16. destruct (Z.eqb_spec (256 * b + wsum l) 0); [lia|].
      pose proof (Z.mod_pos_bound (256 * b + wsum l - 1) 65535). lia.
  - destruct (csum_even_ok addr (b :: l) 0 0) as [B R]; [done|lia|by apply repr_refl|].
    by apply from32to16_ok.
Qed.

(** ** Checksums of buffers *)
Abbreviation byte z := (0 <= z < 256).

Lemma norm16_bound s : 0 <= norm16 s <= 65535.
Proof.
  unfold norm16. destruct (_ =? 0); [lia|]. pose proof (Z.mod_pos_bound (s - 1) 65535). lia.
Qed.

Lemma u16_lnot x : 0 <= x <= 65535 -> u16 (Z.lnot x) = 65535 - x.
Proof.
  intros Hx. unfold u16, Z.lnot. symmetry. apply (Z.mod_unique _ _ (-1)); lia.
Qed.

Lemma ip_compute_csum_ok addr l :
  Forall (fun b => byte b) l -> ip_compute_csum addr l = 65535 - norm16 (wsum l).
Proof.
  intros Hf. unfold ip_compute_csum. rewrite do_csum_ok by done.
  apply u16_lnot, norm16_bound.
Qed.

(** A positive sum is a multiple of 65535 exactly when it is represented by
    65535. *)
Lemma norm16_ones s : 0 <= s -> norm16 s = 65535 <-> 0 < s /\ s mod 65535 = 0.
Proof.
  intros Hs. unfold norm16. destruct (Z.eqb_spec s 0) as [->|Hne]; [lia|].
  pose proof (Z.div_mod (s - 1) 65535 ltac:(lia)) as He.
  pose proof (Z.mod_pos_bound (s - 1) 65535 ltac:(lia)) as Hb.
  set (q := (s - 1) / 65535) in *. set (r := (s - 1) mod 65535) in *. clearbody q r.
  assert (s = q * 65535 + (r + 1)) as -> by lia.
  rewrite (Z.add_comm (q * 65535)), Z.mod_add by lia. split.
  - intros Hr. split; [lia|]. by replace (r + 1) with 65535 by lia.
  - intros [_ Hr]. destruct (decide (r + 1 = 65535)); [done|].
    rewrite Z.mod_small in Hr; lia.
Qed.

Lemma norm16_sub s : 0 <= s -> exists k, 0 <= k /\ s = norm16 s + k * 65535.
Proof.
  intros Hs. unfold norm16. destruct (Z.eqb_spec s 0) as [->|Hne].
  { exists 0. lia. }
  pose proof (Z.div_mod (s - 1) 65535 ltac:(lia)).
  exists ((s - 1) / 65535). split; [apply Z.div_pos; lia|]. lia.
Qed.

(** Replacing one byte changes the sum by that byte's weight. *)
Fixpoint weight (i : nat) : Z :=
  match i with O => 1 | 1%nat => 256 | S (S i) => weight i end.

Lemma weight_cases i : weight i = 1 \/ weight i = 256.
Proof.
  assert (forall n i, (i <= n)%nat -> weight i = 1 \/ weight i = 256) as H; [|by eauto].
  induction n as [|n IH]; intros [|[|j]] Hj; simpl; auto; try lia. apply IH. lia.
Qed.

Lemma wsum_insert i : forall l x, (i < length l)%nat ->
  wsum (<[i := x]> l) = wsum l + weight i * (x - at_ l i).
Proof.
  assert (forall n i l x, (i <= n)%nat -> (i < length l)%nat ->
    wsum (<[i := x]> l) = wsum l + weight i * (x - at_ l i)) as H; [|by eauto].
  clear i. induction n as [|n IH]; intros i l x Hi Hl.
  - replace i with 0%nat by lia. destruct l as [|a [|b l]]; unfold at_; simpl in *; lia.
  - destruct i as [|[|i]]; destruct l as [|a [|b l]]; unfold at_; simpl in *; try lia.
    rewrite IH by lia. unfold at_. lia.
Qed.

(** ** The header checksum verifies *)
Lemma set_check_wsum c sh :
  (12 <= length sh)%nat -> 0 <= c < 65536 ->
  wsum (set_check c sh) = wsum (set_check 0 sh) + c.
Proof.
  intros Hl Hc. do 12 (destruct sh as [|? sh]; [simpl in Hl; lia|]).
  unfold set_check. cbn [insert list_insert wsum].
  change 255 with (Z.ones 8). rewrite !Z.land_ones, !Z.shiftr_div_pow2 by lia.
  change (2 ^ 8) with 256. pose proof (Z.div_mod c 256). rewrite Z.mod_0_l, Z.div_0_l by lia.
  lia.
Qed.

Lemma set_check_take c sh n :
  (12 <= n)%nat -> take n (set_check c sh) = set_check c (take n sh).
Proof. intros Hn. unfold set_check. by rewrite !take_insert_lt by lia. Qed.

Lemma set_check_twice c d sh : set_check c (set_check d sh) = set_check c sh.
Proof.
  unfold set_check. rewrite (list_insert_insert_ne _ 11 10) by lia.
  by rewrite list_insert_insert_eq, list_insert_insert_eq.
Qed.

Lemma set_check_bytes c sh :
  0 <= c < 65536 -> Forall (fun b => byte b) sh ->
  Forall (fun b => byte b) (set_check c sh).
Proof.
  intros Hc Hf. unfold set_check. change 255 with (Z.ones 8).
  rewrite Z.land_ones, Z.shiftr_div_pow2 by lia. change (2 ^ 8) with 256.
  apply Forall_insert; [apply Forall_insert; [done|]|].
  - split; [apply Z.div_pos; lia|apply Z.div_lt_upper_bound; lia].
  - apply Z.mod_pos_bound. lia.
Qed.

Lemma send_check_take addr sh :
  let n := Z.to_nat (Z.shiftl (at_ sh 8) 2) in
  (12 <= n <= length sh)%nat -> Forall (fun b => byte b) sh ->
  let z := set_check 0 (take n sh) in
  take n (serval_sal_send_check addr sh) = set_check (65535 - norm16 (wsum z)) z.
Proof.
  intros n Hn Hf z. unfold serval_sal_send_check, serval_sal_csum.
  assert (at_ (set_check 0 sh) 8 = at_ sh 8) as ->.
  { unfold at_, set_check. rewrite !nth_lookup, !list_lookup_insert_ne by lia. done. }
  fold n. rewrite !set_check_take by lia. fold z.
  rewrite ip_compute_csum_ok; [done|]. apply set_check_bytes; [lia|]. by apply Forall_take.
Qed.

(** After [serval_sal_send_check] the header sums to a positive multiple of
    65535, whatever it contained. *)
Lemma send_check_sum addr sh :
  let n := Z.to_nat (Z.shiftl (at_ sh 8) 2) in
  (12 <= n <= length sh)%nat -> Forall (fun b => byte b) sh ->
  let l := take n (serval_sal_send_check addr sh) in
  Forall (fun b => byte b) l /\ length l = n /\ 0 < wsum l /\ wsum l mod 65535 = 0.
Proof.
  intros n Hn Hf l. pose proof (send_check_take addr sh Hn Hf) as Ht. cbv zeta in Ht.
  fold n in Ht. subst l. rewrite Ht. clear Ht.
  set (z := set_check 0 (take n sh)). pose proof (norm16_bound (wsum z)).
  assert (Forall (fun b => byte b) z) as Hz
    by (apply set_check_bytes; [lia|by apply Forall_take]).
  assert (length z = n) as Hlz
    by (unfold z, set_check; rewrite !length_insert, length_take; lia).
  split; [apply set_check_bytes; [lia|done]|].
  split; [unfold set_check; by rewrite !length_insert|].
  rewrite set_check_wsum by lia.
  assert (set_check 0 z = z) as -> by (unfold z; by rewrite set_check_twice).
  destruct (norm16_sub (wsum z)) as (k & Hk & He); [by apply wsum_nonneg|].
  split.
  - unfold norm16 in *. destruct (Z.eqb_spec (wsum z) 0); lia.
  - replace (wsum z + (65535 - norm16 (wsum z))) with ((k + 1) * 65535) by lia.
    by apply Z.mod_mul.
Qed.

(** C25 (functional): the receiver accepts the header that [serval_sal_send_check]
    completed, at any alignment of either buffer, and rejects it when any single
    byte was altered. *)
Theorem send_check_verifies addr addr' sh :
  let n := Z.to_nat (Z.shiftl (at_ sh 8) 2) in
  (12 <= n <= length sh)%nat -> Forall (fun b => byte b) sh ->
  let sh' := serval_sal_send_check addr sh in
  serval_sal_csum addr' sh' n = 0 /\
  (forall i x, (i < n)%nat -> byte x -> x <> at_ sh' i ->
   serval_sal_csum addr' (<[i := x]> sh') n <> 0).
Proof.
  intros n Hn Hf sh'. unfold serval_sal_csum.
  destruct (send_check_sum addr sh Hn Hf) as (Hb & Hl & Hp & Hm). fold n sh' in Hb, Hl, Hp, Hm.
  split.
  - rewrite ip_compute_csum_ok by done.
    assert (norm16 (wsum (take n sh')) = 65535) as -> by (apply norm16_ones; lia). done.
  - intros i x Hi Hx Hne. rewrite take_insert_lt by done.
    assert (at_ sh' i = at_ (take n sh') i) as Hat.
    { unfold at_. rewrite !nth_lookup, lookup_take_lt by done. done. }
    rewrite Hat in Hne. set (l := take n sh') in *.
    assert (Forall (fun b => byte b) (<[i:=x]> l)) as Hb' by (by apply Forall_insert).
    rewrite ip_compute_csum_ok by done. pose proof (wsum_nonneg _ Hb').
    enough (norm16 (wsum (<[i := x]> l)) <> 65535) by lia.
    rewrite norm16_ones by done. intros [_ Hm'].
    rewrite wsum_insert in Hm' by lia. pose proof (at_byte l i Hb).
    apply Z.mod_divide in Hm as [k Hk]; [|done]. apply Z.mod_divide in Hm' as [k' Hk']; [|done].
    destruct (weight_cases i) as [Hw|Hw]; rewrite Hw in Hk'; lia.
Qed.

(** ** Partial sums *)
Lemma csum_add_ok x y s t :
  0 <= x < 2 ^ 32 -> 0 <= y < 2 ^ 32 -> repr x s -> repr y t ->
  0 <= csum_add x y < 2 ^ 32 /\ repr (csum_add x y) (s + t).
Proof.
  intros Hx Hy Rx Ry. unfold csum_add.
  destruct (decide (x + y < 2 ^ 32)) as [Hlt|Hge].
  - rewrite (u32_id (x + y)) by lia.
    rewrite (proj2 (Z.ltb_ge _ _)), Z.add_0_r, u32_id by lia.
    split; [lia|by apply repr_add].
  - assert (u32 (x + y) = x + y - 2 ^ 32) as ->
      by (symmetry; apply (Z.mod_unique _ _ 1); lia).
    rewrite (proj2 (Z.ltb_lt _ _)), u32_id by lia. split; [lia|].
    eapply repr_cong; [exact (repr_add _ _ _ _ Rx Ry)|lia|..|lia].
    replace (x + y - 2 ^ 32 + 1) with (x + y + (-65537) * 65535) by lia.
    by rewrite Z.mod_add by lia.
Qed.

Lemma norm16_self s : 0 <= s -> repr (norm16 s) s.
Proof.
  intros Hs. destruct (norm16_sub s Hs) as (k & Hk & He). pose proof (norm16_bound s).
  split_and!; try lia.
  - rewrite He at 2. by rewrite Z.mod_add by lia.
  - unfold norm16 in *. destruct (Z.eqb_spec s 0) as [->|]; [done|].
    pose proof (Z.mod_pos_bound (s - 1) 65535). lia.
Qed.

Lemma csum_partial_ok addr l sum s :
  Forall (fun b => byte b) l -> 0 <= sum < 2 ^ 32 -> repr sum s ->
  0 <= csum_partial addr l sum < 2 ^ 32 /\ repr (csum_partial addr l sum) (s + wsum l).
Proof.
  intros Hf Hs Hr. pose proof (norm16_self (wsum l) (wsum_nonneg l Hf)) as Hn.
  pose proof (norm16_bound (wsum l)).
  assert (csum_partial addr l sum = csum_add (norm16 (wsum l)) sum) as ->.
  { unfold csum_partial, csum_add. rewrite do_csum_ok by done.
    destruct (_ <? _); [done|]. rewrite Z.add_0_r. unfold u32. by rewrite Zmod_mod. }
  rewrite (Z.add_comm s). apply csum_add_ok; (done || lia).
Qed.

Lemma csum_fold_ok x s :
  0 <= x < 2 ^ 32 -> repr x s -> csum_fold x = 65535 - norm16 s.
Proof.
  intros Hx Hr. rewrite <-(from32to16_ok x s Hx Hr). unfold csum_fold, from32to16, u16.
  symmetry. rewrite <-Z.add_opp_l. unfold Z.lnot.
  set (y := fold16 (fold16 x)). pose proof (Z.mod_pos_bound y (2 ^ 16) ltac:(lia)).
  pose proof (Z.div_mod y (2 ^ 16) ltac:(lia)).
  apply (Z.mod_unique _ _ (- (y / 2 ^ 16) - 1)); lia.
Qed.

(** Summing a buffer in pieces, as the code does with skb fragments, folds to
    the checksum of the whole; every piece but the last has even length. *)
Fixpoint csum_pieces (ls : list (Z * list Z)) (sum : Z) : Z :=
  match ls with
  | [] => sum
  | (addr, l) :: ls => csum_pieces ls (csum_partial addr l sum)
  end.

Lemma csum_pieces_ok ls : forall sum s,
  Forall (fun p => Forall (fun b => byte b) p.2) ls ->
  Forall (fun p => Nat.Even (length p.2)) (take (length ls - 1) ls) ->
  0 <= sum < 2 ^ 32 -> repr sum s ->
  0 <= csum_pieces ls sum < 2 ^ 32 /\
  repr (csum_pieces ls sum) (s + wsum (concat (map snd ls))).
Proof.
  induction ls as [|[addr l] ls IH]; intros sum s Hf He Hs Hr.
  - simpl. by rewrite Z.add_0_r.
  - apply Forall_cons in Hf as [Hl Hf]. simpl in Hl.
    destruct (csum_partial_ok addr l sum s Hl Hs Hr) as [B R].
    cbn [csum_pieces map concat snd]. change (fst (addr, l)) with addr.
    destruct ls as [|p ls].
    + cbn [csum_pieces map concat]. by rewrite app_nil_r.
    + replace (length ((addr, l) :: p :: ls) - 1)%nat with (S (length (p :: ls) - 1))%nat in He
        by (simpl; lia).
      rewrite firstn_cons in He. apply Forall_cons in He as [He1 He].
      rewrite wsum_app_even by done. rewrite Z.add_assoc. by apply IH.
Qed.

(** Summing a packet piece by piece with [csum_partial] (all
    pieces but the last of even length, at any alignment) and folding gives the
    checksum [ip_compute_csum] computes of the whole. *)
Theorem csum_pieces_fold ls addr :
  Forall (fun p => Forall (fun b => byte b) p.2) ls ->
  Forall (fun p => Nat.Even (length p.2)) (take (length ls - 1) ls) ->
  csum_fold (csum_pieces ls 0) = ip_compute_csum addr (concat (map snd ls)).
Proof.
  intros Hf He. destruct (csum_pieces_ok ls 0 0 Hf He) as [B R]; [lia|by apply repr_refl|].
  rewrite (csum_fold_ok _ _ B R), ip_compute_csum_ok; [done|].
  apply Forall_concat, Forall_map. exact Hf.
Qed.
