(* ===== verification/WireClaims.v ===== *)
(** * Formats on the wire: the main theorems

    Round trips of service identifiers through their printed form and of SAL
    headers through the wire, and how far the parser reads. *)
From S2P Require Import Prelude Hex SalHdr SalHdrProps Checksum.
Local Open Scope Z_scope.

(** C32 (roundtrip): a 32-byte service identifier printed by [serval_ntop] into a
    buffer of at least 65 characters is read back unchanged by [serval_pton]. *)
Theorem pton_ntop bs n :
  length bs = SERVICE_ID_BYTES -> Forall byte_ok bs -> 64 < n ->
  exists str, serval_ntop bs n = Ok str /\ serval_pton str = Ok (1, bs).
Proof.
  intros Hl Hb Hn. exists (hexstr bs ++ [0]). unfold serval_ntop, serval_pton, serval_hexton.
  rewrite <-Hl. unfold SERVICE_ID_BYTES in Hl.
  split; [by apply ntohex_ok; lia|]. rewrite hexton_loop_ok; [done|done|lia].
Qed.
Lemma pton_ntop_witness : exists str,
  serval_ntop (replicate 31 0 ++ [175]) 65 = Ok str /\
  serval_pton str = Ok (1, replicate 31 0 ++ [175]).
Proof.
  apply (pton_ntop (replicate 31 0 ++ [175]) 65); [reflexivity| |lia].
  apply Forall_app. split; [apply Forall_replicate; unfold byte_ok; lia|].
  constructor; [unfold byte_ok; lia|done].
Defined.

(** Storing a checksum in a header. *)
Lemma set_check_base c lf pf shl proto c0 c1 rest :
  length lf = 4%nat -> length pf = 4%nat ->
  exists d0 d1, set_check c (base_bytes lf pf shl proto c0 c1 ++ rest)
                = base_bytes lf pf shl proto d0 d1 ++ rest.
Proof.
  intros H1 H2. destruct (take4 lf 0 H1) as (a & b & cc & d & [|] & -> & E1); [|done].
  destruct (take4 pf 0 H2) as (a' & b' & cc' & d' & [|] & -> & E2); [|done].
  eexists _, _. reflexivity.
Qed.

Lemma check_base addr lf pf shl proto c0 c1 rest :
  length lf = 4%nat -> length pf = 4%nat ->
  exists d0 d1, serval_sal_send_check addr (base_bytes lf pf shl proto c0 c1 ++ rest)
                = base_bytes lf pf shl proto d0 d1 ++ rest.
Proof.
  intros H1 H2. unfold serval_sal_send_check.
  destruct (set_check_base 0 lf pf shl proto c0 c1 rest H1 H2) as (d0 & d1 & ->).
  by apply set_check_base.
Qed.

Lemma build_parses addr sk cb skb :
  hdr_sock_ok sk -> (84 <= length (headroom skb))%nat -> 0 <= cb_verno cb < 2 ^ 32 ->
  exists skb' ctx, serval_sal_build_header sk cb skb = Ok skb' /\
    let d := serval_sal_send_check addr (data skb') in
    serval_sal_parse_hdr d SAL_PARSE_ALL = Ok (0, ctx) /\ decoded sk cb d ctx.
Proof.
  intros Hs Hr Hv. destruct (build_ok sk cb skb Hs Hr) as (hr & exts & shl & c0 & c1 & Hh & _ & He).
  destruct (check_base addr (hs_local_flowid sk) (hs_peer_flowid sk) shl (u8 (hs_protocol sk))
    c0 c1 (exts ++ data skb)) as (d0 & d1 & Hd); [apply Hs|apply Hs|].
  destruct (header_parses sk cb exts shl (u8 (hs_protocol sk)) d0 d1 (data skb) Hs Hv Hh)
    as (ctx & Hp & Hdec).
  exists (Skb hr (base_bytes (hs_local_flowid sk) (hs_peer_flowid sk) shl
    (u8 (hs_protocol sk)) c0 c1 ++ exts ++ data skb)), ctx.
  split; [exact He|]. cbv zeta. cbn [data]. rewrite Hd. done.
Qed.

(** C23 (roundtrip): for every socket and packet, the header that
    [serval_sal_build_header] puts in front of the payload and
    [serval_sal_send_check] completes is parsed by the receiver's
    [serval_sal_parse_hdr] back to the flags, sequence numbers and service
    identifiers of the sender. *)
Theorem header_roundtrip addr sk cb skb :
  hdr_sock_ok sk -> (84 <= length (headroom skb))%nat -> 0 <= cb_verno cb < 2 ^ 32 ->
  exists skb' ctx, serval_sal_build_header sk cb skb = Ok skb' /\
    let d := serval_sal_send_check addr (data skb') in
    serval_sal_parse_hdr d SAL_PARSE_ALL = Ok (0, ctx) /\ decoded sk cb d ctx.
Proof. apply build_parses. Qed.

(** A connected socket that sends a SYN with a payload. *)
Definition demo_sock : hdr_sock :=
  HdrSock [0; 0; 0; 1] [0; 0; 0; 2] 6 (replicate 32 7) (replicate 32 9) 1000
    (replicate 8 5) false.
Lemma demo_sock_ok : hdr_sock_ok demo_sock.
Proof. unfold hdr_sock_ok. simpl. split_and!; lia. Qed.
Lemma header_roundtrip_witness : exists skb' ctx,
  serval_sal_build_header demo_sock (SkbCb SVH_SYN 77) (Skb (replicate 100 0) [1; 2; 3]) = Ok skb' /\
  serval_sal_parse_hdr (serval_sal_send_check 0 (data skb')) SAL_PARSE_ALL = Ok (0, ctx) /\
  c_verno ctx = 77 /\ c_ackno ctx = 1000.
Proof.
  destruct (header_roundtrip 0 demo_sock (SkbCb SVH_SYN 77) (Skb (replicate 100 0) [1; 2; 3])
    demo_sock_ok ltac:(simpl; lia) ltac:(simpl; lia)) as (skb' & ctx & H1 & H2 & H3).
  exists skb', ctx. split; [exact H1|]. split; [exact H2|].
  destruct (dec_ctrl _ _ _ _ H3 eq_refl) as (-> & -> & _). done.
Defined.

Lemma parse_hdr_safe_witness : exists r ctx,
  serval_sal_parse_hdr (replicate 8 0 ++ [3] ++ replicate 14 0) SAL_PARSE_ALL = Ok (r, ctx) /\
  ctx_below 12 ctx.
Proof.
  destruct (parse_hdr_safe (replicate 8 0 ++ [3] ++ replicate 14 0) SAL_PARSE_ALL 3)
    as (r & ctx & H1 & H2 & _); [|reflexivity|simpl; lia|by exists r, ctx].
  apply Forall_app. split; [apply Forall_replicate; lia|].
  constructor; [lia|apply Forall_replicate; lia].
Defined.

(** [parse_ext] has no bound on the length of an extension, and
    reads the fields of an extension before comparing its length with what is
    left of the header: a packet of exactly the length its header announces,
    whose last four bytes announce a control extension, makes the parser read
    past the end of the packet. *)
Theorem parse_hdr_overread lf pf check proto b2 b3 :
  length lf = 4%nat -> length pf = 4%nat -> length check = 2%nat ->
  let d := lf ++ pf ++ [4; proto] ++ check ++ [16; 20; b2; b3] in
  length d = Z.to_nat (4 * 4) /\ serval_sal_parse_hdr d SAL_PARSE_ALL = Fault.
Proof.
  intros H1 H2 H3. destruct lf as [|? [|? [|? [|? [|]]]]]; try done.
  destruct pf as [|? [|? [|? [|? [|]]]]]; try done.
  destruct check as [|? [|? [|]]]; try done.
Qed.
Lemma parse_hdr_overread_witness :
  serval_sal_parse_hdr
    ([1; 2; 3; 4] ++ [5; 6; 7; 8] ++ [4; 6] ++ [0; 0] ++ [16; 20; 0; 0]) SAL_PARSE_ALL = Fault.
Proof.
  apply (parse_hdr_overread [1; 2; 3; 4] [5; 6; 7; 8] [0; 0] 6 0 0 eq_refl eq_refl eq_refl).
Defined.

(** ** Uses of the theorems about checksums *)
Lemma send_check_verifies_witness :
  let sh := replicate 8 1 ++ [3; 6; 9; 9] in
  serval_sal_csum 0 (serval_sal_send_check 0 sh) 12 = 0.
Proof.
  apply (send_check_verifies 0 0 (replicate 8 1 ++ [3; 6; 9; 9])); [vm_compute; lia|].
  repeat constructor; lia.
Defined.
Lemma csum_pieces_fold_witness :
  csum_fold (csum_pieces [(0, [1; 2]); (1, [3])] 0) = ip_compute_csum 0 [1; 2; 3].
Proof.
  apply (csum_pieces_fold [(0, [1; 2]); (1, [3])] 0).
  - repeat constructor; simpl; lia.
  - repeat constructor. exists 1%nat. done.
Defined.
