(* ===== verification/SalSock.v ===== *)
(** * The SAL socket (src/stack/serval_sock.h, serval_sal.h lines 39-196,
    include/serval/sock.h)

    One [struct serval_sock] with the [struct sock] fields the SAL uses, the
    packet buffers it owns, and the environment it runs in.  Packet buffers are
    heap objects: freeing one twice or touching a freed one is a fault.
    Allocation failures, results of the network device and random numbers are
    consumed from lists; an exhausted list is success (or 0). *)
From S2P Require Import Prelude Bst ServiceEntry ServiceTable SalHdr Checksum.
From coqutil Require Export Datatypes.RecordSetters.
Export DoubleBraceUpdate.
Local Open Scope Z_scope.

(** ** Data *)
Inductive sock_state :=
| SAL_INIT | SAL_CONNECTED | SAL_REQUEST | SAL_RESPOND | SAL_FINWAIT1
| SAL_FINWAIT2 | SAL_TIMEWAIT | SAL_CLOSED | SAL_CLOSEWAIT | SAL_LASTACK
| SAL_LISTEN | SAL_CLOSING.
#[export] Instance sock_state_eq_dec : EqDecision sock_state.
Proof. solve_decision. Defined.

Inductive rsyn_state :=
| SAL_RSYN_INITIAL | SAL_RSYN_SENT | SAL_RSYN_RECV | SAL_RSYN_SENT_RECV.
#[export] Instance rsyn_state_eq_dec : EqDecision rsyn_state.
Proof. solve_decision. Defined.

(** A buffer with its control block ([struct sal_skb_cb]); [skb_owned] says
    that it holds a reference on the socket, [skb_dev] is 0 for no device. *)
Record sal_skb := SalSkb {
  skb_flags : Z;
  skb_verno : Z;
  skb_when : Z;
  skb_buf : skbuf;
  skb_owned : bool;
  skb_dev : Z;
}.

(** A connection request ([struct serval_request_sock] with the fields of the
    [inet_request_sock] it starts with); [r_sk] is the socket created for it. *)
Record request_sock := RequestSock {
  r_peer_srvid : list Z; r_target_srvid : list Z;
  r_local_flowid : list Z; r_peer_flowid : list Z;
  r_reply_saddr : Z; r_rmt_addr : Z; r_loc_addr : Z;
  r_rcv_seq : Z; r_iss_seq : Z;
  r_local_nonce : list Z; r_peer_nonce : list Z;
  r_udp_encap_sport : Z; r_udp_encap_dport : Z;
  r_expires : Z;
  r_sk : option nat;
}.

Record ssock := SSock {
  sk_state : sock_state;
  sal_state : rsyn_state;
  ssk_flags : Z;
  is_dgram : bool; (* sk_type == SOCK_DGRAM *)
  ip_protocol : Z; (* sk_protocol *)
  (* snd_seq and rcv_seq *)
  snd_una : Z; snd_nxt : Z; snd_wnd : Z; snd_iss : Z;
  rcv_nxt : Z; rcv_iss : Z;
  (* round trip times *)
  rto : Z; srtt : Z; mdev : Z; mdev_max : Z; rttvar : Z; rtt_seq : Z;
  (* timers, with their expiry when pending *)
  retransmits : Z; backoff : Z; pending : Z; timeout : Z;
  retransmit_timer : option Z; tw_timer : option Z; sk_timer : option Z;
  ctrl_queue : option positive; ctrl_send_head : option positive;
  (* identifiers *)
  local_flowid : list Z; peer_flowid : list Z;
  local_srvid : list Z; peer_srvid : list Z;
  local_nonce : list Z; peer_nonce : list Z;
  srvid_prefix_bits : nat; srvid_flags : Z;
  hash_key : bool; (* not NULL *) hash_key_len : Z;
  in_table : bool; (* sk_node is on a chain of the established table *)
  (* addresses and devices *)
  inet_saddr : Z; inet_daddr : Z; sk_bound_dev_if : Z;
  mig_dev_if : Z; mig_daddr : Z;
  udp_encap_sport : Z; udp_encap_dport : Z; udp_encap_migration_dport : Z;
  (* listening sockets *)
  syn_queue : list request_sock; accept_queue : list request_sock;
  request_qlen : Z; max_request_qlen : Z;
  sk_ack_backlog : Z; sk_max_ack_backlog : Z;
  (* struct sock *)
  sk_err : Z; sk_err_soft : Z; sk_shutdown : Z;
  sock_dead : bool; sock_done : bool; sk_refs : Z;
  ack_rcv_tstamp : Z; last_rcv_tstamp : Z;
  tot_pkts_sent : Z; tot_bytes_sent : Z; tot_pkts_recv : Z; tot_bytes_recv : Z;
}.

(** A packet handed to the network device: the addresses it was sent with, its
    device, its bytes from the SAL header on, and the IP header in front. *)
Record frame := Frame {
  f_saddr : Z; f_daddr : Z; f_dev : Z; f_bytes : list Z; f_ip : list Z;
}.

(** Packets waiting for a verdict of the resolver daemon (delay_queue.c). *)
Record delay_entry := DelayEntry {
  de_id : Z;
  de_skb : positive;
  de_sk : bool; (* holds a reference on the socket *)
}.
Record delay_queue := DelayQueue {
  dq_entries : list delay_entry;
  queue_id : Z;
  queue_total : Z;
  queue_dropped : Z;
  queue_maxlen : Z;
  peer_pid : Z;
  queue_locked : bool;
}.

Section World.
Context {TP : Type}.

(** The state of the stack as seen from one socket; [tp] is the state of the
    transport protocol. *)
Record salw := SalW {
  sk : ssock;
  skbs : gmap positive sal_skb;
  next_skb : positive;
  now : Z; (* jiffies *)
  skb_allocs : list bool;
  net_results : list Z;
  ctrl_results : list Z;
  rands : list Z;
  sent : list frame;
  children : list ssock; (* sockets created by a listening socket *)
  serval_flow_id : Z; (* last flow identifier given out *)
  wakeups : nat; (* calls of sk_state_change and sk_error_report *)
  svc : @bst service_client;
  dq : delay_queue;
  tp : TP;
}.
End World.
Arguments salw : clear implicits.

Section Ops.
Context {TP : Type}.
Abbreviation W := (salw TP).
Abbreviation SALM := (M W).

Definition the_sk : SALM ssock := gets sk.
Definition upd_sk (f : ssock -> ssock) : SALM unit :=
  modS (fun w : W => w {{ sk ::= f }}).

(** ** References on the socket *)
Definition sk_hold : SALM unit := upd_sk (fun s => s {{ sk_refs ::= Z.add 1 }}).
Definition sk_put : SALM unit :=
  upd_sk (fun s => s {{ sk_refs := sk_refs s - 1 }}).

(** ** Packet buffers *)
Definition skb_load (i : positive) : SALM sal_skb := fun w =>
  match skbs w !! i with Some b => Ok (b, w) | None => Fault end.
Definition skb_store (i : positive) (b : sal_skb) : SALM unit := fun w =>
  match skbs w !! i with
  | Some _ => Ok (tt, w {{ skbs ::= <[i := b]> }})
  | None => Fault
  end.
(** [kfree_skb]: the destructor [serval_sock_wfree] drops the reference of
    an owned buffer. *)
Definition kfree_skb (i : positive) : SALM unit :=
  b ← skb_load i;
  modS (fun w : W => w {{ skbs ::= delete i }});;
  if skb_owned b then sk_put else mret tt.

Definition alloc_result : SALM bool := fun w =>
  match skb_allocs w with
  | [] => Ok (true, w)
  | b :: bs => Ok (b, w {{ skb_allocs := bs }})
  end.
Definition new_skb (b : sal_skb) : SALM positive := fun w =>
  Ok (next_skb w,
      w {{ skbs ::= <[next_skb w := b]>; next_skb ::= Pos.succ }}).

(** ** Timers: a pending timer holds a reference *)
Definition sk_reset_timer (get : ssock -> option Z)
    (set : option Z -> ssock -> ssock) (expires : Z) : SALM unit :=
  s ← the_sk;
  upd_sk (set (Some expires));;
  match get s with Some _ => mret tt | None => sk_hold end.
Definition sk_stop_timer (get : ssock -> option Z)
    (set : option Z -> ssock -> ssock) : SALM unit :=
  s ← the_sk;
  match get s with
  | Some _ => upd_sk (set None);; sk_put
  | None => mret tt
  end.
Definition set_retransmit_timer (t : option Z) (s : ssock) : ssock :=
  s {{ retransmit_timer := t }}.
Definition set_tw_timer (t : option Z) (s : ssock) : ssock :=
  s {{ tw_timer := t }}.
Definition set_sk_timer (t : option Z) (s : ssock) : ssock :=
  s {{ sk_timer := t }}.

Definition serval_sock_clear_xmit_timer : SALM unit :=
  upd_sk (fun s => s {{ pending := 0 }});;
  sk_stop_timer retransmit_timer set_retransmit_timer.
Definition serval_sock_reset_xmit_timer (when max_when : Z) : SALM unit :=
  let when := if max_when <? when then max_when else when in
  w ← getS;
  let t := u64 (now w + when) in
  upd_sk (fun s => s {{ pending := 1; timeout := t }});;
  sk_reset_timer retransmit_timer set_retransmit_timer t.
Definition serval_sock_clear_xmit_timers : SALM unit :=
  sk_stop_timer retransmit_timer set_retransmit_timer;;
  sk_stop_timer sk_timer set_sk_timer.

(** ** Flags of the Serval socket *)
Definition SSK_FLAG_BOUND : Z := 0.
Definition SSK_FLAG_AUTOBOUND : Z := 1.
Definition SSK_FLAG_HASHED : Z := 2.
Definition SSK_FLAG_CHILD : Z := 3.
Definition SSK_FLAG_FIN_SENT : Z := 4.
Definition serval_sock_set_flag (flag : Z) (s : ssock) : ssock :=
  s {{ ssk_flags := u8 (Z.lor (ssk_flags s) (Z.shiftl 1 flag)) }}.
Definition serval_sock_reset_flag (flag : Z) (s : ssock) : ssock :=
  s {{ ssk_flags := u8 (Z.land (ssk_flags s) (Z.lxor flag (2 ^ 64 - 1))) }}.
Definition serval_sock_flag (s : ssock) (flag : Z) : bool :=
  negb (Z.land (ssk_flags s) (Z.shiftl 1 flag) =? 0).

(** ** Control queue: one slot *)
Definition serval_sal_ctrl_queue_purge : SALM unit :=
  s ← the_sk;
  match ctrl_queue s with
  | Some i => kfree_skb i;; upd_sk (fun s => s {{ ctrl_queue := None }})
  | None => mret tt
  end.
Definition serval_sal_ctrl_queue_head : SALM (option positive) :=
  s ← the_sk; mret (ctrl_queue s).
Definition serval_sal_send_head : SALM (option positive) :=
  s ← the_sk; mret (ctrl_send_head s).
Definition serval_sal_skb_is_last (i : positive) (s : ssock) : bool :=
  bool_decide (ctrl_queue s = Some i).
Definition serval_sal_advance_send_head (i : positive) : SALM unit :=
  upd_sk (fun s =>
    if serval_sal_skb_is_last i s then s {{ ctrl_send_head := None }}
    else s {{ ctrl_send_head := ctrl_queue s }}).
Definition serval_sal_init_ctrl_queue : SALM unit :=
  upd_sk (fun s => s {{ ctrl_queue := None; ctrl_send_head := None }}).
Definition serval_sal_add_ctrl_queue_tail (i : positive) : SALM unit :=
  upd_sk (fun s =>
    let s := s {{ ctrl_queue := Some i }} in
    match ctrl_send_head s with
    | None => s {{ ctrl_send_head := Some i }}
    | Some _ => s
    end).
Definition serval_sal_unlink_ctrl_queue (i : positive) : SALM unit :=
  upd_sk (fun s =>
    if bool_decide (ctrl_queue s = Some i) then s {{ ctrl_queue := None }} else s).
End Ops.
Abbreviation SALM := (fun TP => M (salw TP)).
