(* ===== verification/Rto.v ===== *)
(** * Retransmission timeouts (src/stack/serval_sal.c lines 643-790)

    The round-trip estimator of the SAL, taken from TCP, on the 32-bit fields
    of the socket; [m] is a 64-bit [long].  The proofs show that the estimator
    keeps the timeout between its bounds without clamping it from below, as the
    code's comment claims. *)
From S2P Require Import Prelude SalHdr SalSock.
Local Open Scope Z_scope.

Definition HZ : Z := 100.
Definition SAL_RTO_MAX : Z := 120 * HZ.
Definition SAL_RTO_MIN : Z := HZ / 5.
Definition SAL_TIMEOUT_INIT : Z := 3 * HZ.
Definition SAL_RETRANSMITS_MAX : Z := 15.

(** ** The code *)
Definition serval_sal_rto_min : Z := SAL_RTO_MIN.

(** The first half of the update: the new [srtt] and [mdev]. *)
Definition rtt_update (m : Z) (s : ssock) : ssock :=
  let m := m - Z.shiftr (srtt s) 3 in
  let s := s {{ srtt := u32 (srtt s + m) }} in
  let m :=
    if m <? 0 then
      let m := - m - Z.shiftr (mdev s) 2 in
      if 0 <? m then Z.shiftr m 3 else m
    else m - Z.shiftr (mdev s) 2 in
  s {{ mdev := u32 (mdev s + m) }}.

(** The variance for this window of packets. *)
Definition rttvar_update (s : ssock) : ssock :=
  let s :=
    if mdev_max s <? mdev s then
      let s := s {{ mdev_max := mdev s }} in
      if rttvar s <? mdev_max s then s {{ rttvar := mdev_max s }} else s
    else s in
  if after (snd_una s) (rtt_seq s) then
    let s :=
      if mdev_max s <? rttvar s
      then s {{ rttvar := u32 (rttvar s - Z.shiftr (u32 (rttvar s - mdev_max s)) 2) }}
      else s in
    s {{ rtt_seq := snd_nxt s; mdev_max := serval_sal_rto_min }}
  else s.

Definition serval_sal_rtt_estimator (mrtt : Z) (s : ssock) : ssock :=
  let m := if mrtt =? 0 then 1 else mrtt in
  if negb (srtt s =? 0) then rttvar_update (rtt_update m s)
  else
    let s := s {{ srtt := u32 (Z.shiftl m 3); mdev := u32 (Z.shiftl m 1) }} in
    let v := Z.max (mdev s) serval_sal_rto_min in
    s {{ mdev_max := v; rttvar := v; rtt_seq := snd_nxt s }}.

Definition serval_sal_bound_rto (s : ssock) : ssock :=
  if SAL_RTO_MAX <? rto s then s {{ rto := SAL_RTO_MAX }} else s.
Definition serval_sal_calc_rto (s : ssock) : Z :=
  u32 (Z.shiftr (srtt s) 3 + rttvar s).
Definition serval_sal_set_rto (s : ssock) : ssock :=
  serval_sal_bound_rto (s {{ rto := serval_sal_calc_rto s }}).

(** [seq_rtt] is signed; the estimator takes it as a 32-bit unsigned. *)
Definition serval_sal_update_rtt (seq_rtt : Z) (s : ssock) : ssock :=
  (serval_sal_set_rto (serval_sal_rtt_estimator (u32 seq_rtt) s)) {{ backoff := 0 }}.

(** ** The estimator's invariant

    All samples are at most [b].  Then the smoothed round trip is at most [8b]
    and the mean deviation at most [4b + 3]; the variance is never below
    [SAL_RTO_MIN], because [mdev_max] restarts there.  Before the first sample
    ([srtt = 0]) the other fields are arbitrary. *)
Record rtt_ok (b : Z) (s : ssock) : Prop := RttOk {
  ro_srtt : 0 <= srtt s <= 8 * b;
  ro_mdev : 0 <= mdev s <= 4 * b + 3;
  ro_max : SAL_RTO_MIN <= mdev_max s <= Z.max SAL_RTO_MIN (4 * b + 3);
  ro_var : SAL_RTO_MIN <= rttvar s <= Z.max SAL_RTO_MIN (4 * b + 3);
}.
Definition est_ok (b : Z) (s : ssock) : Prop := srtt s = 0 \/ rtt_ok b s.

Lemma shiftr_split z n : 0 <= n -> 
  z = 2 ^ n * Z.shiftr z n + z mod 2 ^ n /\ 0 <= z mod 2 ^ n < 2 ^ n.
Proof.
  intros Hn. rewrite Z.shiftr_div_pow2 by done.
  assert (0 < 2 ^ n) by (apply Z.pow_pos_nonneg; lia).
  split; [apply Z.div_mod; lia|apply Z.mod_pos_bound; lia].
Qed.

(** Name the quotient of a shift and its defining (in)equations. *)
Ltac split_shift z n :=
  let H1 := fresh in let H2 := fresh in
  destruct (shiftr_split z n ltac:(lia)) as [H1 H2];
  set (Z.shiftr z n) in *; set (z mod 2 ^ n) in *;
  change (2 ^ 2) with 4 in *; change (2 ^ 3) with 8 in *.

Lemma rtt_update_bounds b m s :
  0 < b < 2 ^ 28 -> 1 <= m <= b ->
  0 < srtt s <= 8 * b -> 0 <= mdev s <= 4 * b + 3 ->
  0 <= srtt (rtt_update m s) <= 8 * b /\
  0 <= mdev (rtt_update m s) <= 4 * b + 3.
Proof.
  intros Hb Hm Hs Hd. unfold rtt_update. record.simp.
  set (d := mdev s) in *. set (r := srtt s) in *.
  split_shift r 3. split_shift d 2.
  assert (0 <= u32 (r + (m - z)) <= 8 * b).
  { rewrite u32_id; lia. }
  split; [done|].
  destruct (Z.ltb_spec (m - z) 0).
  - destruct (Z.ltb_spec 0 (- (m - z) - z1)).
    + split_shift (- (m - z) - z1) 3. rewrite u32_id; lia.
    + rewrite u32_id; lia.
  - rewrite u32_id; lia.
Qed.

Ltac rto_lia :=
  unfold serval_sal_rto_min, SAL_RTO_MIN, HZ in *; change (100 / 5) with 20 in *; lia.

Lemma rttvar_update_bounds b s :
  0 < b < 2 ^ 28 -> rtt_ok b s -> rtt_ok b (rttvar_update s).
Proof.
  intros Hb [H1 H2 H3 H4]. unfold rttvar_update.
  assert (forall s, rtt_ok b s -> rtt_ok b
    (let s := if mdev_max s <? rttvar s
      then s {{ rttvar := u32 (rttvar s - Z.shiftr (u32 (rttvar s - mdev_max s)) 2) }}
      else s in s {{ rtt_seq := snd_nxt s; mdev_max := serval_sal_rto_min }})) as Hw.
  { clear -Hb. intros s [H1 H2 H3 H4]. unfold serval_sal_rto_min, SAL_RTO_MIN, HZ in *.
    cbv zeta. destruct (Z.ltb_spec (mdev_max s) (rttvar s)); [|split; record.simp; rto_lia].
    rewrite (u32_id (rttvar s - mdev_max s)) by rto_lia.
    split; record.simp; try rto_lia. split_shift (rttvar s - mdev_max s) 2. rewrite u32_id; rto_lia. }
  set (s' := if mdev_max s <? mdev s then _ else s).
  assert (rtt_ok b s') as Hs'.
  { subst s'. destruct (Z.ltb_spec (mdev_max s) (mdev s)); [|done].
    cbv zeta. destruct (rttvar _ <? mdev_max _) eqn:He; record.simp; split; record.simp; rto_lia. }
  destruct (after _ _); [by apply Hw|done].
Qed.

Lemma shiftl_times z n : 0 <= n -> Z.shiftl z n = z * 2 ^ n.
Proof. apply Z.shiftl_mul_pow2. Qed.

(** One sample keeps the invariant and establishes it when it is the first. *)
Lemma estimator_ok b mrtt s :
  0 < b < 2 ^ 28 -> 0 <= mrtt <= b -> est_ok b s ->
  rtt_ok b (serval_sal_rtt_estimator mrtt s).
Proof.
  intros Hb Hm Hs. unfold serval_sal_rtt_estimator.
  set (m := if mrtt =? 0 then 1 else mrtt).
  assert (1 <= m <= b) as Hm' by (subst m; destruct (Z.eqb_spec mrtt 0); lia).
  destruct (Z.eqb_spec (srtt s) 0) as [H0|H0]; cbn [negb].
  - record.simp. rewrite !shiftl_times, !u32_id by lia. unfold serval_sal_rto_min.
    split; record.simp; rto_lia.
  - destruct Hs as [?|[H1 H2 H3 H4]]; [done|].
    apply rttvar_update_bounds; [done|].
    destruct (rtt_update_bounds b m s) as [? ?]; try lia.
    split; try done; unfold rtt_update; record.simp; rto_lia.
Qed.

(** ** The timeout *)
Lemma set_rto_ok b s :
  0 < b < 2 ^ 28 -> rtt_ok b s ->
  SAL_RTO_MIN <= rto (serval_sal_set_rto s) <= SAL_RTO_MAX /\
  rtt_ok b (serval_sal_set_rto s).
Proof.
  intros Hb [H1 H2 H3 H4]. unfold serval_sal_set_rto, serval_sal_bound_rto.
  record.simp. unfold serval_sal_calc_rto.
  assert (SAL_RTO_MIN <= u32 (Z.shiftr (srtt s) 3 + rttvar s)) as Hlow.
  { split_shift (srtt s) 3. rewrite u32_id; rto_lia. }
  destruct (Z.ltb_spec SAL_RTO_MAX (u32 (Z.shiftr (srtt s) 3 + rttvar s))); record.simp;
    (split; [unfold SAL_RTO_MAX in *; rto_lia|]); by split; record.simp.
Qed.

Lemma update_rtt_ok b m s :
  0 < b < 2 ^ 28 -> 0 <= m <= b -> est_ok b s ->
  let s' := serval_sal_update_rtt m s in
  rtt_ok b s' /\ SAL_RTO_MIN <= rto s' <= SAL_RTO_MAX /\ backoff s' = 0.
Proof.
  intros Hb Hm Hs s'. unfold s', serval_sal_update_rtt. rewrite u32_id by lia.
  pose proof (estimator_ok b m s Hb Hm Hs) as He.
  destruct (set_rto_ok b _ Hb He) as [Hr [? ? ? ?]]. record.simp.
  split_and!; try done; try lia.
Qed.

(** Feeding the estimator a sequence of samples. *)
Definition feed (ms : list Z) (s : ssock) : ssock :=
  foldl (fun s m => serval_sal_update_rtt m s) s ms.

(** The round-trip estimator of the SAL, from a socket that has no
    sample yet or whose estimate lies within the bounds for [b]: after any
    non-empty sequence of samples of at most [b] ticks, where [b] is below 2^28
    (31 days), the fields are within the bounds for [b], so that none of their 32
    bits overflows, and the retransmission timeout is between [SAL_RTO_MIN] and
    [SAL_RTO_MAX], although it is never clamped from below.  The samples are
    differences of the host's own clock; the estimator of TCP, which takes
    timestamps echoed by the peer, is another one ([TcpCong.v]). *)
Theorem feed_ok b ms : forall s,
  0 < b < 2 ^ 28 -> Forall (fun m => 0 <= m <= b) ms -> ms <> [] -> est_ok b s ->
  rtt_ok b (feed ms s) /\ SAL_RTO_MIN <= rto (feed ms s) <= SAL_RTO_MAX.
Proof.
  induction ms as [|m ms IH]; intros s Hb Hf Hne Hs; [done|].
  apply Forall_cons in Hf as [Hm Hf]. destruct (update_rtt_ok b m s Hb Hm Hs) as (H1 & H2 & _).
  change (feed (m :: ms) s) with (feed ms (serval_sal_update_rtt m s)).
  destruct ms as [|m' ms]; [done|]. apply IH; try done. by right.
Qed.
