(* ===== verification/DelayQueue.v ===== *)
(** * The delay queue (src/stack/delay_queue.c)

    Packets that resolve to a DELAY rule wait in a bounded FIFO until the
    resolver daemon gives a verdict for their identifier.  Taking the queue's
    spin lock while it is held is a deadlock, represented as a fault. *)
From S2P Require Import Prelude SalSock.
Local Open Scope Z_scope.

Definition ENOSPC : Z := 28.
Definition ENOMEM : Z := 12.
Definition EBUSY : Z := 16.
Definition EHOSTUNREACH : Z := 113.

Section Queue.
Context {TP : Type}.
Implicit Types (w : salw TP).

Definition the_dq : SALM TP delay_queue := gets dq.
Definition upd_dq (f : delay_queue -> delay_queue) : SALM TP unit :=
  modS (fun w => w {{ dq ::= f }}).

Definition queue_lock : SALM TP unit :=
  q ← the_dq;
  if queue_locked q then faultM else upd_dq (fun q => q {{ queue_locked := true }}).
Definition queue_unlock : SALM TP unit :=
  upd_dq (fun q => q {{ queue_locked := false }}).

Definition delay_queue_add (de : delay_entry) : SALM TP unit :=
  upd_dq (fun q => q {{ dq_entries := dq_entries q ++ [de];
                        queue_total := u32 (queue_total q + 1) }}).
Fixpoint find_entry (id : Z) (l : list delay_entry) : option delay_entry :=
  match l with
  | [] => None
  | de :: l => if id =? de_id de then Some de else find_entry id l
  end.
Definition delay_queue_find (id : Z) (q : delay_queue) : option delay_entry :=
  find_entry id (dq_entries q).
Fixpoint remove_entry (id : Z) (l : list delay_entry) : list delay_entry :=
  match l with
  | [] => []
  | de :: l => if id =? de_id de then l else de :: remove_entry id l
  end.
(** [list_del] of the entry found under [id], and the count. *)
Definition delay_queue_remove (id : Z) : SALM TP unit :=
  upd_dq (fun q => q {{ dq_entries := remove_entry id (dq_entries q);
                        queue_total := u32 (queue_total q - 1) }}).

Definition delay_entry_free (de : delay_entry) : SALM TP unit :=
  if de_sk de then sk_put else mret tt.
Definition count_dropped : SALM TP unit :=
  upd_dq (fun q => q {{ queue_dropped := u32 (queue_dropped q + 1) }}).

(** The purge loop; [all]: the argument is NULL. *)
Fixpoint purge_loop (all : bool) (l kept : list delay_entry) : SALM TP unit :=
  match l with
  | [] => mret tt
  | de :: l =>
      if all || de_sk de then
        upd_dq (fun q => q {{ dq_entries := kept ++ l;
                              queue_total := u32 (queue_total q - 1) }});;
        kfree_skb (de_skb de);;
        delay_entry_free de;;
        count_dropped;;
        purge_loop all l kept
      else purge_loop all l (kept ++ [de])
  end.
Definition delay_queue_purge_locked (all : bool) : SALM TP unit :=
  q ← the_dq; purge_loop all (dq_entries q) [].
Definition delay_queue_purge_sock (all : bool) : SALM TP unit :=
  queue_lock;; delay_queue_purge_locked all;; queue_unlock.
Definition delay_queue_reset : SALM TP unit :=
  delay_queue_purge_locked true;; upd_dq (fun q => q {{ peer_pid := 0 }}).
Definition delay_queue_fini : SALM TP unit := delay_queue_reset.

(** [ctrl_sendmsg] of the notification: its result. *)
Definition ctrl_result : SALM TP Z := fun w =>
  match ctrl_results w with
  | [] => Ok (0, w)
  | r :: rs => Ok (r, w {{ ctrl_results := rs }})
  end.

Definition delay_queue_skb (i : positive) : SALM TP Z :=
  ok ← alloc_result;
  if negb ok then kfree_skb i;; mret (- ENOMEM)
  else
    b ← skb_load i;
    q ← the_dq;
    let de := DelayEntry (queue_id q) i (skb_owned b) in
    upd_dq (fun q => q {{ queue_id := u32 (queue_id q + 1) }});;
    (if de_sk de then sk_hold else mret tt);;
    queue_lock;;
    q ← the_dq;
    ret ← (if queue_maxlen q <=? queue_total q then mret (- ENOSPC)
           else ret ← ctrl_result; mret (if ret =? 0 then 0 else - EHOSTUNREACH));
    if ret =? 0 then delay_queue_add de;; queue_unlock;; mret 0
    else
      queue_unlock;;
      kfree_skb i;;
      delay_entry_free de;;
      count_dropped;;
      mret ret.

Inductive delay_verdict := DELAY_RELEASE | DELAY_DROP.

(** [xmit] is [serval_sal_xmit_skb], [reresolve] is [serval_sal_reresolve]. *)
Definition delay_queue_set_verdict (xmit reresolve : positive -> SALM TP Z)
    (pkt_id : Z) (verdict : delay_verdict) (pid : Z) : SALM TP Z :=
  queue_lock;;
  q ← the_dq;
  if negb (peer_pid q =? 0) && negb (peer_pid q =? pid)
  then queue_unlock;; mret (- EBUSY)
  else
    (if peer_pid q =? 0 then upd_dq (fun q => q {{ peer_pid := pid }}) else mret tt);;
    match delay_queue_find pkt_id q with
    | None => queue_unlock;; mret 0
    | Some de =>
        delay_queue_remove pkt_id;;
        ret ← match verdict with
              | DELAY_DROP => kfree_skb (de_skb de);; count_dropped;; mret 0
              | DELAY_RELEASE =>
                  if de_sk de then
                    s ← the_sk;
                    if sock_dead s
                    then kfree_skb (de_skb de);; count_dropped;; mret 0
                    else xmit (de_skb de);; mret 1
                  else reresolve (de_skb de);; mret 1
              end;
        queue_unlock;;
        delay_entry_free de;;
        mret ret
    end.
End Queue.
