(* ===== verification/Sal.v ===== *)
(** * The service access layer: transmission
    (src/stack/serval_sal.c lines 756-1330, 3600-3700, 3802-3905, 4014-4315,
    serval_sock.c lines 560-620 and 760-980, serval_ipv4.c lines 379-566)

    The code is the user-level build: no kernel routing, no UDP encapsulation.
    A buffer given to the network device is freed by it (packet_raw.c line 203).
    [serval_sal_do_xmit] still reads the length of the buffer after that
    (serval_sal.c line 3896): [freed_len] is what such a read gives, and where
    it gives nothing the read is a fault. *)
From S2P Require Import Prelude Bst ServiceEntry ServiceTable SalHdr Checksum.
From S2P Require Import SalSock Rto DelayQueue.
Local Open Scope Z_scope.

Definition EADDRNOTAVAIL : Z := 99.
Definition ENOBUFS : Z := 105.
Definition ENODEV : Z := 19.
Definition ETIMEDOUT : Z := 110.
Definition ECONNREFUSED : Z := 111.
Definition ECONNRESET : Z := 104.
Definition EPIPE : Z := 32.
Definition RCV_SHUTDOWN : Z := 1.
Definition SHUTDOWN_MASK : Z := 3.
Definition SAL_TIMEWAIT_LEN : Z := 60 * HZ.
Definition SAL_FIN_TIMEOUT : Z := SAL_TIMEWAIT_LEN.
Definition SERVICE_ID_MAX_PREFIX_BITS : nat := 256.

(** ** The environment

    [dev_addr] is the interface table: the IPv4 address of an interface index,
    which every interface has (the [dev_get_ipv4_addr] of userlevel/dev.c always
    succeeds); [lo_dev] the loopback interface.  [inet_tos] and [inet_ttl] are
    the type of service and the time to live of the socket.  The rest are
    configuration values. *)
Class SalEnv := {
  dev_addr : Z -> option Z;
  lo_dev : option Z;
  local_addr : Z; (* 127.0.0.1 *)
  resolution_mode : iter_mode;
  max_header : nat; (* of the transport protocol *)
  max_sal_hdr : nat; (* MAX_SAL_HDR *)
  sysctl_sal_max_retransmits : Z;
  inet_tos : Z;
  inet_ttl : Z;
  freed_len : option Z; (* a read of the length of a buffer that was freed *)
  sk_addr : Z; (* the address of the socket *)
}.

(** Reading the length of a freed buffer gives some number.  The C language does
    not promise that; the theorems that assume it say so. *)
Class StaleRead `{SalEnv} : Prop := stale_read : is_Some freed_len.

(** ** The transport protocol's callbacks ([struct serval_sock_af_ops] and the
    [destroy] of [struct proto]); [None] is a NULL callback.  [kill_queues] is
    [sk_stream_kill_queues], whose queues are the transport's. *)
Record af_ops {TP : Type} := AfOps {
  conn_build_syn : option (positive -> SALM TP Z);
  conn_build_ack : option (positive -> SALM TP Z);
  conn_build_synack : option (positive -> SALM TP Z);
  conn_request : option (positive -> SALM TP Z);
  conn_child_sock : nat -> SALM TP Z; (* of the child created last *)
  conn_close : option (SALM TP Z);
  request_state_process : option (positive -> SALM TP Z);
  respond_state_process : option (positive -> SALM TP Z);
  receive : positive -> SALM TP Z;
  send_check : option (positive -> SALM TP unit);
  migration_completed : option (SALM TP Z);
  freeze_flow : option (SALM TP Z);
  af_done : option (SALM TP unit);
  prot_destroy : option (SALM TP unit);
  kill_queues : SALM TP unit;
}.
Arguments af_ops : clear implicits.

(** ** The IP header *)
Definition IPPROTO_SERVAL : Z := 144.
Definition SERVAL_DEFTTL : Z := 64.
Definition IP_HLEN : nat := 20.
(** The bytes of a network-order address. *)
Definition addr_bytes (a : Z) : list Z :=
  [Z.land a 255; Z.land (Z.shiftr a 8) 255; Z.land (Z.shiftr a 16) 255;
   Z.land (Z.shiftr a 24) 255].
Definition serval_ipv4_fill_in_hdr (tos ttl saddr daddr : Z) (buf : skbuf) : outcome skbuf :=
  buf ← skb_push IP_HLEN buf;
  let len := u16 (Z.of_nat (length (data buf))) in
  Ok (skb_put_bytes 0
        ([69; tos; Z.shiftr len 8; Z.land len 255; 0; 0; 0; 0; ttl; IPPROTO_SERVAL; 0; 0]
         ++ addr_bytes saddr ++ addr_bytes daddr) buf).
Definition ip_set_check (c : Z) (ip : list Z) : list Z :=
  put_bytes 10 [Z.land c 255; Z.shiftr c 8] ip.
Definition ip_send_check (ip : list Z) : list Z :=
  let ip := ip_set_check 0 ip in
  ip_set_check (ip_fast_csum 0 ip (Z.to_nat (Z.land (at_ ip 0) 15))) ip.
(** What [serval_ip_local_out] gives to the device. *)
Definition local_out_frame (saddr daddr dev : Z) (buf : skbuf) : frame :=
  Frame saddr daddr dev (drop IP_HLEN (data buf)) (ip_send_check (take IP_HLEN (data buf))).

Section Sal.
Context {TP : Type} `{SalEnv} (ops : af_ops TP).
Implicit Types (w : salw TP) (i : positive).

Definition call {A} (f : option (SALM TP A)) (default : A) : SALM TP A :=
  match f with Some m => m | None => mret default end.
Definition call1 {A} (f : option (positive -> SALM TP A)) i (default : A)
  : SALM TP A :=
  match f with Some m => m i | None => mret default end.

Definition liftS {A} (m : SM A) : SALM TP A := fun w =>
  match m (svc w) with
  | Ok (a, t) => Ok (a, w {{ svc := t }})
  | Fault => Fault
  | NoFuel => NoFuel
  end.
Definition liftR {A} (o : outcome A) : SALM TP A := fun w =>
  match o with Ok a => Ok (a, w) | Fault => Fault | NoFuel => NoFuel end.

(** ** Allocation *)
Definition set_owner_w i : SALM TP unit :=
  b ← skb_load i; skb_store i (b {{ skb_owned := true }});; sk_hold.

(** [alloc_skb], [skb_reserve] of the whole buffer and [skb_serval_set_owner_w]. *)
Definition alloc_owned (size : nat) : SALM TP (option positive) :=
  ok ← alloc_result;
  if (ok : bool) then
    i ← new_skb (SalSkb 0 0 0 (Skb (replicate size 0) []) false 0);
    set_owner_w i;;
    mret (Some i)
  else mret None.
Definition sk_sal_alloc_skb : SALM TP (option positive) := alloc_owned max_header.
(** [for (;;)]: retry until memory is available. *)
Fixpoint alloc_retry (allocs : list bool) : SALM TP positive :=
  o ← sk_sal_alloc_skb;
  match o with
  | Some i => mret i
  | None => match allocs with [] => nofuelM | _ :: bs => alloc_retry bs end
  end.
Definition sk_sal_alloc_retry : SALM TP positive :=
  w ← getS; alloc_retry (skb_allocs w).

Definition pskb_copy i : SALM TP (option positive) :=
  b ← skb_load i;
  ok ← alloc_result;
  if (ok : bool) then
    c ← new_skb (b {{ skb_owned := false;
                      skb_buf := Skb (replicate (length (headroom (skb_buf b))) 0)
                                   (data (skb_buf b)) }});
    mret (Some c)
  else mret None.

(** ** The network device *)
Definition net_result : SALM TP Z := fun w =>
  match net_results w with
  | [] => Ok (0, w)
  | r :: rs => Ok (r, w {{ net_results := rs }})
  end.

Definition serval_ipv4_xmit i : SALM TP Z :=
  b ← skb_load i;
  s ← the_sk;
  let dev := if negb (skb_dev b =? 0) then Some (skb_dev b)
             else (fun _ => sk_bound_dev_if s) <$> dev_addr (sk_bound_dev_if s) in
  match dev with
  | None => kfree_skb i;; mret (- ENODEV)
  | Some dev =>
      buf ← liftR (serval_ipv4_fill_in_hdr inet_tos inet_ttl (inet_saddr s) (inet_daddr s)
                     (skb_buf b));
      err ← net_result;
      (if err <? 0 then mret tt
       else modS (fun w => w {{ sent := sent w ++
              [local_out_frame (inet_saddr s) (inet_daddr s) dev buf] }}));;
      kfree_skb i;;
      mret err
  end.

(** ** The SAL header of an outgoing packet *)
Definition hdr_of (s : ssock) : hdr_sock :=
  HdrSock (local_flowid s) (peer_flowid s) (ip_protocol s) (local_srvid s)
    (peer_srvid s) (rcv_nxt s) (local_nonce s)
    (bool_decide (sk_state s = SAL_INIT) && is_dgram s).

Definition build_and_check i : SALM TP unit :=
  b ← skb_load i;
  s ← the_sk;
  buf ← liftR (serval_sal_build_header (hdr_of s)
                 (SkbCb (skb_flags b) (skb_verno b)) (skb_buf b));
  skb_store i (b {{ skb_buf := Skb (headroom buf)
                                 (serval_sal_send_check 0 (data buf)) }}).

(** ** Sending a packet of a connected socket *)
Definition dev_get_ipv4_addr (dev : Z) : SALM TP unit :=
  match dev_addr dev with
  | Some a => upd_sk (fun s => s {{ inet_saddr := a }})
  | None => mret tt
  end.

Definition serval_sal_do_xmit i : SALM TP Z :=
  b ← skb_load i;
  s ← the_sk;
  let rsyn := flag_set (skb_flags b) SVH_RSYN in
  let mig_dev := dev_addr (mig_dev_if s) in
  let temp_daddr := if rsyn && bool_decide (sal_state s = SAL_RSYN_RECV)
                    then inet_daddr s else 0 in
  (if rsyn then
     match mig_dev with
     | Some a =>
         upd_sk (fun s => s {{ inet_saddr := a }});;
         skb_store i (b {{ skb_dev := mig_dev_if s }})
     | None => mret tt
     end;;
     if bool_decide (sal_state s = SAL_RSYN_RECV)
     then upd_sk (fun s => s {{ inet_daddr := mig_daddr s }}) else mret tt
   else mret tt);;
  err ← serval_ipv4_xmit i;
  (if rsyn then
     match mig_dev with
     | Some _ => s ← the_sk; dev_get_ipv4_addr (sk_bound_dev_if s)
     | None => mret tt
     end;;
     s ← the_sk;
     if bool_decide (sal_state s = SAL_RSYN_RECV)
     then upd_sk (fun s => s {{ inet_daddr := temp_daddr }}) else mret tt
   else mret tt);;
  (if err <? 0 then mret tt
   else
     upd_sk (fun s => s {{ tot_pkts_sent := u64 (tot_pkts_sent s + 1) }});;
     len ← derefM freed_len;
     upd_sk (fun s => s {{ tot_bytes_sent := u64 (tot_bytes_sent s + len) }}));;
  mret err.

(** ** Resolution on transmission *)
(** [memcpy] of at most four bytes over a network-order address. *)
Definition overlay (a : Z) (bs : list Z) : Z :=
  le32 (take 4 bs ++ drop (length (take 4 bs)) (addr_bytes a)).

(** Send one copy to a resolved address: the tail of the loop body. *)
Definition xmit_resolved (c : positive) (dev addr err : Z) : SALM TP Z :=
  b ← skb_load c;
  skb_store c (b {{ skb_dev := dev }});;
  upd_sk (fun s => s {{ inet_saddr := addr }});;
  (if (0 <? length (data (skb_buf b)))%nat then call1 (send_check ops) c tt
   else mret tt);;
  build_and_check c;;
  local_err ← serval_ipv4_xmit c;
  mret (if local_err <? 0 then (if negb (err =? 0) then local_err else err) else 0).

(** The loop over the targets.  A FORWARD target whose interface does not exist
    is tried again: [continue] leaves [target] unchanged. *)
Fixpoint xmit_loop (fuel : nat) i (dlen : Z) (iter : service_iter)
    (target : option (nat * nat)) (cskb_null : bool) (err : Z)
  : SALM TP (Z * service_iter)%type :=
  match target with
  | None => mret (err, iter)
  | Some pos =>
      match fuel with
      | O => nofuelM
      | S fuel =>
          (if cskb_null then liftS (service_iter_inc_stats iter 1 dlen)
           else mret tt);;
          '(next, iter) ← liftS (service_iter_next iter);
          cskb ← match next with
                 | None => mret (Some i)
                 | Some _ =>
                     c ← pskb_copy i;
                     match c with
                     | Some c => set_owner_w c;; mret (Some c)
                     | None => mret None
                     end
                 end;
          match cskb with
          | None => kfree_skb i;; mret (- ENOBUFS, iter)
          | Some c =>
              se ← liftS (load_se (i_entry iter));
              t ← derefM (target_at (se_sets se) pos);
              if bool_decide (t_type t = SERVICE_RULE_DELAY) then
                err ← delay_queue_skb c;
                xmit_loop fuel i dlen iter next false err
              else if bool_decide (t_type t = SERVICE_RULE_DROP) then
                kfree_skb c;;
                xmit_loop fuel i dlen iter next false (- EHOSTUNREACH)
              else if is_sock_target t then
                upd_sk (fun s => s {{ inet_daddr := local_addr }});;
                match lo_dev with
                | None =>
                    kfree_skb c;; xmit_loop fuel i dlen iter next false (- ENODEV)
                | Some dev =>
                    addr ← derefM (dev_addr dev);
                    err ← xmit_resolved c dev addr err;
                    xmit_loop fuel i dlen iter next false err
                end
              else
                upd_sk (fun s => s {{ inet_daddr :=
                  overlay (inet_daddr s) (take (t_dstlen t) (t_dst t)) }});;
                match dev_addr (oif_of (t_out t)) with
                | None =>
                    kfree_skb c;;
                    xmit_loop fuel i dlen iter target false (- ENODEV)
                | Some addr =>
                    err ← xmit_resolved c (oif_of (t_out t)) addr err;
                    xmit_loop fuel i dlen iter next false err
                end
          end
      end
  end.

Definition pop_rand : SALM TP Z := fun w =>
  match rands w with
  | [] => Ok (0, w)
  | r :: rs => Ok (r, w {{ rands := rs }})
  end.

Definition resolve_and_xmit i (dlen : Z) : SALM TP Z :=
  s ← the_sk;
  se ← liftS (service_find (Some (peer_srvid s)) SERVICE_ID_MAX_PREFIX_BITS);
  match se with
  | None =>
      liftS (service_inc_stats (-1) (- dlen));;
      kfree_skb i;;
      mret (- EADDRNOTAVAIL)
  | Some l =>
      r ← pop_rand;
      '(ret, iter) ← liftS (service_iter_init l resolution_mode r);
      if ret <? 0 then kfree_skb i;; mret (-1)
      else
        '(target, iter) ← liftS (service_iter_next iter);
        match target with
        | None =>
            liftS (service_iter_inc_stats iter (-1) (- dlen));;
            kfree_skb i;;
            liftS (service_iter_destroy iter);;
            liftS (liftE (service_entry_put l));;
            mret (- EHOSTUNREACH)
        | Some _ =>
            se ← liftS (load_se l);
            '(err, iter) ← xmit_loop (n_targets (se_sets se) + 2) i dlen iter
                             target true (-1);
            upd_sk (fun s => s {{ inet_daddr := 0 }});;
            liftS (service_iter_destroy iter);;
            liftS (liftE (service_entry_put l));;
            mret err
        end
  end.

Definition sends_directly (st : sock_state) : bool :=
  match st with
  | SAL_CONNECTED | SAL_FINWAIT1 | SAL_FINWAIT2 | SAL_CLOSING | SAL_CLOSEWAIT => true
  | _ => false
  end.

Definition serval_sal_transmit_skb i (use_copy : bool) : SALM TP Z :=
  b ← skb_load i;
  let dlen := Z.of_nat (length (data (skb_buf b))) - 8 in
  c ← (if use_copy then
         c ← pskb_copy i;
         match c with
         | Some c => set_owner_w c;; mret (Some c)
         | None => mret None
         end
       else mret (Some i));
  match c with
  | None => mret (- ENOBUFS)
  | Some i =>
      s ← the_sk;
      if sends_directly (sk_state s) || negb (inet_daddr s =? 0)
      then build_and_check i;; serval_sal_do_xmit i
      else resolve_and_xmit i dlen
  end.

Definition serval_sal_xmit_skb i : SALM TP Z := serval_sal_transmit_skb i false.
End Sal.
