(* ===== verification/SalCtrl.v ===== *)
(** * The service access layer: control packets and their retransmission
    (src/stack/serval_sal.c lines 756-1290, 1625-1650, 3610-3700;
    serval_sock.c lines 555-620, 717-810, 870-900) *)
From S2P Require Import Prelude Bst ServiceEntry ServiceTable SalHdr Checksum.
From S2P Require Import SalSock Rto DelayQueue Sal.
Local Open Scope Z_scope.

Section Ctrl.
Context {TP : Type} `{SalEnv} (ops : af_ops TP).
Implicit Types (w : salw TP) (i : positive).

(** ** The life of the socket *)
Definition wake : SALM TP unit := modS (fun w => w {{ wakeups ::= S }}).

Definition unhash_established : ssock -> ssock := fun s =>
  if in_table s
  then (serval_sock_reset_flag SSK_FLAG_HASHED s) {{ in_table := false; hash_key_len := 0 }}
  else s.
Definition serval_sock_unhash : SALM TP unit :=
  s ← the_sk;
  if hash_key_len s =? 0 then mret tt
  else if bool_decide (sk_state s = SAL_LISTEN \/ sk_state s = SAL_INIT) then
    liftS (service_table_del_target (local_srvid s)
             (if (srvid_prefix_bits s =? 0)%nat then SERVICE_ID_MAX_PREFIX_BITS
              else srvid_prefix_bits s)
             SERVICE_RULE_DEMUX NULLPTR 0);;
    upd_sk (fun s => (serval_sock_reset_flag SSK_FLAG_HASHED s) {{ hash_key_len := 0 }})
  else upd_sk unhash_established.

(** [serval_sock_hash]: connections go to the established table, other sockets
    become the DEMUX rule of their service. *)
Definition LOCAL_SERVICE_DEFAULT_PRIORITY : Z := 32000.
Definition LOCAL_SERVICE_DEFAULT_WEIGHT : Z := 1024.
Definition hash_established (s : ssock) : ssock :=
  serval_sock_set_flag SSK_FLAG_HASHED
    (s {{ hash_key := true; hash_key_len := 4; in_table := true }}).
Definition serval_sock_hash : SALM TP unit :=
  s ← the_sk;
  if bool_decide (sk_state s = SAL_CLOSED) || (0 <? hash_key_len s) then mret tt
  else if bool_decide (sk_state s = SAL_REQUEST \/ sk_state s = SAL_RESPOND)
  then upd_sk hash_established
  else
    let bits := if (srvid_prefix_bits s =? 0)%nat then SERVICE_ID_MAX_PREFIX_BITS
                else srvid_prefix_bits s in
    upd_sk (fun s => s {{ hash_key := true; hash_key_len := Z.of_nat bits }});;
    err ← liftS (service_add (Some (local_srvid s)) bits SERVICE_RULE_DEMUX
                   (srvid_flags s) LOCAL_SERVICE_DEFAULT_PRIORITY
                   LOCAL_SERVICE_DEFAULT_WEIGHT NULLPTR 0 sk_addr);
    if err <? 0 then mret tt else upd_sk (serval_sock_set_flag SSK_FLAG_HASHED).

(** [SAL_INIT] is refused as a new state. *)
Definition serval_sock_set_state (st : sock_state) : SALM TP unit :=
  if bool_decide (st = SAL_INIT) then mret tt
  else
    (if bool_decide (st = SAL_CLOSED) then serval_sock_unhash else mret tt);;
    upd_sk (fun s => s {{ sk_state := st }}).
Definition serval_sock_set_sal_state (st : rsyn_state) : SALM TP unit :=
  upd_sk (fun s => s {{ sal_state := st }}).

(** [old_sk] is set by the kernel build only (linux/inet_to_serval.c); here it is
    NULL. *)
Definition serval_sock_destroy : SALM TP unit :=
  s ← the_sk;
  if negb (sock_dead s) then mret tt
  else
    sk_stop_timer retransmit_timer set_retransmit_timer;;
    sk_stop_timer tw_timer set_tw_timer;;
    serval_sal_ctrl_queue_purge;;
    call (prot_destroy ops) tt;;
    kill_queues ops;;
    sk_put.
Definition serval_sock_done : SALM TP unit :=
  serval_sock_set_state SAL_CLOSED;;
  serval_sock_clear_xmit_timers;;
  upd_sk (fun s => s {{ sk_shutdown := SHUTDOWN_MASK }});;
  s ← the_sk;
  if negb (sock_dead s) then wake else serval_sock_destroy.
Definition serval_sal_done : SALM TP unit :=
  call (af_done ops) tt;; serval_sock_done.

Definition serval_sal_timewait (st : sock_state) (timeo : Z) : SALM TP unit :=
  s ← the_sk;
  w ← getS;
  let rto' := s32 (Z.shiftl (rto s) 2 - Z.shiftr (rto s) 1) in
  serval_sock_set_state st;;
  sk_reset_timer tw_timer set_tw_timer
    (u64 (now w + (if timeo <? rto' then rto' else timeo))).

(** ** The retransmission queue *)
Definition serval_sal_rearm_rto : SALM TP unit :=
  s ← the_sk;
  match ctrl_queue s with
  | None => serval_sock_clear_xmit_timer
  | Some _ => serval_sock_reset_xmit_timer (rto s) SAL_RTO_MAX
  end.

(** The loop; [cb_flags] accumulates the flags of the packets removed. *)
Fixpoint clean_loop (fuel : nat) (ackno : Z) (all : bool) (flags : Z)
  : SALM TP Z :=
  head ← serval_sal_ctrl_queue_head;
  match head with
  | None => mret flags
  | Some i =>
      b ← skb_load i;
      if after ackno (skb_verno b) || all then
        match fuel with
        | O => nofuelM
        | S fuel =>
            serval_sal_unlink_ctrl_queue i;;
            w ← getS;
            (if flag_set (skb_flags b) SVH_RETRANS then mret tt
             else if negb all then
               upd_sk (serval_sal_update_rtt (s32 (u32 (now w) - skb_when b)));;
               serval_sal_rearm_rto
             else mret tt);;
            s ← the_sk;
            (if bool_decide (ctrl_send_head s = Some i)
             then serval_sal_advance_send_head i else mret tt);;
            kfree_skb i;;
            head ← serval_sal_ctrl_queue_head;
            (match head with
             | Some j =>
                 b' ← skb_load j; upd_sk (fun s => s {{ snd_una := skb_verno b' }})
             | None => mret tt
             end);;
            clean_loop fuel ackno all (u8 (Z.lor flags (skb_flags b)))
        end
      else mret flags
  end.

(** Returns the merged flags ([cb_out]). *)
Definition serval_sal_clean_rtx_queue (ackno : Z) (all : bool) : SALM TP Z :=
  fskb ← serval_sal_ctrl_queue_head;
  flags ← clean_loop 2 ackno all 0;
  head ← serval_sal_ctrl_queue_head;
  (if bool_decide (head <> fskb) then
     serval_sock_clear_xmit_timer;;
     upd_sk (fun s => s {{ retransmits := 0 }})
   else mret tt);;
  s ← the_sk;
  (match head with
   | Some _ => serval_sock_reset_xmit_timer (rto s) SAL_RTO_MAX
   | None => mret tt
   end);;
  mret flags.

Definition serval_sal_queue_ctrl_skb i : SALM TP unit :=
  serval_sal_add_ctrl_queue_tail i;;
  b ← skb_load i;
  head ← serval_sal_ctrl_queue_head;
  if bool_decide (head = Some i)
  then upd_sk (fun s => s {{ snd_una := skb_verno b }}) else mret tt.

(** The loop of [serval_sal_write_xmit]; [limit] 0 is no limit. *)
Fixpoint write_loop (fuel : nat) (limit num : nat) (err : Z) : SALM TP Z :=
  s ← the_sk;
  match ctrl_send_head s with
  | None => mret err
  | Some i =>
      if negb (u32 (snd_nxt s - snd_una s) <=? snd_wnd s)
         || negb (limit =? 0)%nat && (num =? limit)%nat
      then mret err
      else
        match fuel with
        | O => nofuelM
        | S fuel =>
            w ← getS;
            b ← skb_load i;
            skb_store i (b {{ skb_when := u32 (now w) }});;
            err ← serval_sal_transmit_skb ops i true;
            if err <? 0 then mret err
            else serval_sal_advance_send_head i;; write_loop fuel limit (S num) err
        end
  end.
Definition serval_sal_write_xmit (limit : nat) : SALM TP Z := write_loop 2 limit 0 0.

Definition serval_sal_queue_and_push i : SALM TP Z :=
  flags ← serval_sal_clean_rtx_queue 0 true;
  b ← skb_load i;
  skb_store i (b {{ skb_flags := u8 (Z.lor (skb_flags b) flags) }});;
  serval_sal_queue_ctrl_skb i;;
  s ← the_sk;
  (if bool_decide (ctrl_queue s = Some i)
   then serval_sock_reset_xmit_timer (rto s) SAL_RTO_MAX else mret tt);;
  serval_sal_write_xmit 1.

(** Fill in the control block of a new packet. *)
Definition set_cb i (flags verno : Z) : SALM TP unit :=
  b ← skb_load i; skb_store i (b {{ skb_flags := flags; skb_verno := verno }}).

Definition stamp i : SALM TP unit :=
  w ← getS; b ← skb_load i; skb_store i (b {{ skb_when := u32 (now w) }}).

(** ** Sending control packets *)
Definition serval_sal_send_syn (verno : Z) : SALM TP Z :=
  o ← sk_sal_alloc_skb;
  match o with
  | None => mret (- ENOMEM)
  | Some i =>
      err ← call1 (conn_build_syn ops) i 0;
      if negb (err =? 0) then kfree_skb i;; mret err
      else
        set_cb i SVH_SYN verno;;
        upd_sk (fun s => s {{ snd_nxt := u32 (verno + 1) }});;
        serval_sal_queue_and_push i
  end.

(** [uaddr]: the service identifier and, when the address is long enough and of
    family AF_INET, an IP address. *)
Definition serval_sal_connect (long_enough : bool) (srvid : list Z)
    (addr : option Z) : SALM TP Z :=
  if negb long_enough then mret (- EINVAL)
  else
    upd_sk (fun s => s {{ peer_srvid := srvid }});;
    (match addr with
     | Some a => upd_sk (fun s => s {{ inet_daddr := a }})
     | None => mret tt
     end);;
    s ← the_sk;
    serval_sal_send_syn (snd_iss s).

Definition fin_unacked (st : sock_state) : bool :=
  match st with SAL_FINWAIT1 | SAL_CLOSING | SAL_LASTACK => true | _ => false end.

Definition serval_sal_send_rsyn (verno : Z) : SALM TP Z :=
  s ← the_sk;
  match sk_state s with
  | SAL_REQUEST | SAL_LISTEN | SAL_CLOSED => mret (-1)
  | _ =>
      (match sal_state s with
       | SAL_RSYN_INITIAL => serval_sock_set_sal_state SAL_RSYN_SENT
       | SAL_RSYN_RECV => serval_sock_set_sal_state SAL_RSYN_SENT_RECV
       | _ => mret tt
       end);;
      i ← sk_sal_alloc_retry;
      set_cb i (if fin_unacked (sk_state s) then Z.lor SVH_RSYN SVH_FIN else SVH_RSYN)
        verno;;
      serval_sal_queue_and_push i
  end.

Definition serval_sal_migrate : SALM TP Z :=
  s ← the_sk;
  upd_sk (fun s => s {{ snd_nxt := u32 (snd_nxt s + 1) }});;
  serval_sal_send_rsyn (snd_nxt s).

Definition serval_sal_send_fin : SALM TP Z :=
  i ← sk_sal_alloc_retry;
  s ← the_sk;
  let flags :=
    match sal_state s with
    | SAL_RSYN_SENT => Z.lor SVH_FIN SVH_RSYN
    | SAL_RSYN_RECV => Z.lor SVH_FIN (Z.lor SVH_RSYN SVH_ACK)
    | _ => SVH_FIN
    end in
  set_cb i flags (snd_nxt s);;
  upd_sk (fun s => s {{ snd_nxt := u32 (snd_nxt s + 1) }});;
  upd_sk (serval_sock_set_flag SSK_FLAG_FIN_SENT);;
  serval_sal_queue_and_push i.

Definition serval_sal_send_ack : SALM TP Z :=
  o ← sk_sal_alloc_skb;
  match o with
  | None => mret (- ENOMEM)
  | Some i =>
      s ← the_sk;
      set_cb i SVH_ACK (snd_nxt s);;
      serval_sal_transmit_skb ops i false
  end.

Definition serval_sal_send_active_reset : SALM TP unit :=
  o ← alloc_owned max_sal_hdr;
  match o with
  | None => mret tt
  | Some i =>
      s ← the_sk;
      set_cb i (Z.lor SVH_RST SVH_ACK) (snd_nxt s);;
      stamp i;;
      serval_sal_transmit_skb ops i false;;
      mret tt
  end.

(** Called as a result of the application's close(). *)
Definition serval_sal_close : SALM TP unit :=
  s ← the_sk;
  match sk_state s with
  | SAL_FINWAIT1 | SAL_FINWAIT2 | SAL_CLOSING | SAL_TIMEWAIT => mret tt
  | SAL_CLOSEWAIT | SAL_CONNECTED | SAL_RESPOND =>
      serval_sock_set_state
        (if bool_decide (sk_state s = SAL_CLOSEWAIT) then SAL_LASTACK else SAL_FINWAIT1);;
      match conn_close ops with
      | Some f =>
          err ← f;
          if 0 <? err
          then serval_sock_set_state SAL_CLOSED;; serval_sal_send_active_reset
          else mret tt
      | None => serval_sal_send_fin;; mret tt
      end
  | _ => serval_sal_done
  end.

(** ** Timeouts *)
Definition serval_sal_rexmit : SALM TP Z :=
  head ← serval_sal_ctrl_queue_head;
  match head with
  | None => mret (-1)
  | Some i =>
      b ← skb_load i;
      skb_store i (b {{ skb_flags := u8 (Z.lor (skb_flags b) SVH_RETRANS) }});;
      serval_sal_transmit_skb ops i true
  end.

Definition serval_sal_write_err : SALM TP unit :=
  upd_sk (fun s => s {{ sk_err := if sk_err_soft s =? 0 then ETIMEDOUT else sk_err_soft s }});;
  wake;;
  serval_sal_done.

(** A shift of a 32-bit value by 32 or more is undefined. *)
Definition shl32 (x n : Z) : outcome Z :=
  if n <? 32 then Ok (u32 (Z.shiftl x n)) else Fault.

(** The timer that expired is no longer pending; its reference is put at the
    end. *)
Definition serval_sal_rexmit_timeout : SALM TP unit :=
  upd_sk (set_retransmit_timer None);;
  s ← the_sk;
  (if retransmits s =? sysctl_sal_max_retransmits then serval_sal_write_err
   else
     serval_sal_rexmit;;
     upd_sk (fun s => s {{ backoff := u8 (backoff s + 1);
                           retransmits := u8 (retransmits s + 1) }});;
     s ← the_sk;
     t ← liftR (shl32 (rto s) (backoff s));
     serval_sock_reset_xmit_timer (Z.min t SAL_RTO_MAX) SAL_RTO_MAX);;
  sk_put.

Definition serval_sal_timewait_timeout : SALM TP unit :=
  upd_sk (set_tw_timer None);; serval_sal_done;; sk_put.
End Ctrl.
