(* ===== verification/SalState.v ===== *)
(** * The service access layer: the connection state machine
    (src/stack/serval_sal.c lines 1478-1505, 2150-2345, 2345-2985)

    One function per state, and [serval_sal_state_process], which dispatches
    on it.  The incoming packet is a buffer whose SAL header was pulled
    already; [inpkt] is its parsed header, the header's bytes, the addresses of
    its IP header and its device. *)
From S2P Require Import Prelude Bst ServiceEntry ServiceTable SalHdr Checksum.
From S2P Require Import SalSock Rto DelayQueue Sal SalCtrl.
Local Open Scope Z_scope.

Record inpkt := InPkt {
  in_ctx : sal_context;
  in_hdr : list Z;
  in_saddr : Z;
  in_daddr : Z;
  in_dev : Z;
}.
Definition in_flag (p : inpkt) (f : Z) : bool := flag_set (c_flags (in_ctx p)) f.

Section Receive.
Context {TP : Type} `{SalEnv} (ops : af_ops TP).
Implicit Types (w : salw TP) (i : positive) (p : inpkt).

(** ** Checks *)
Definition valid_control_extension p : SALM TP bool :=
  s ← the_sk;
  liftR (has_valid_control_extension (in_hdr p) (peer_nonce s) (in_ctx p)).
(** The SAL header has been pulled, so the transport header is what is left. *)
Definition packet_has_transport_hdr i : SALM TP bool :=
  b ← skb_load i; mret (0 <? length (data (skb_buf b)))%nat.
(** A bit of the control extension's flag byte. *)
Definition ctrl_bit p (bit : Z) : SALM TP bool :=
  match c_ctrl_ext (in_ctx p) with
  | None => faultM
  | Some ext => b2 ← liftR (rd8 (in_hdr p) (ext + 2)); mret (Z.testbit b2 bit)
  end.
Definition RST_BIT : Z := 3.
Definition RSYN_BIT : Z := 6.
Definition ACK_BIT : Z := 5.
Definition FIN_BIT : Z := 2.

(** ** Resets *)
Definition serval_sal_rcv_reset : SALM TP unit :=
  s ← the_sk;
  if bool_decide (sk_state s = SAL_CLOSED) then mret tt
  else
    upd_sk (fun s => s {{ sk_err :=
      match sk_state s with
      | SAL_REQUEST => ECONNREFUSED
      | SAL_CLOSEWAIT => EPIPE
      | _ => ECONNRESET
      end }});;
    (if negb (sock_dead s) then wake else mret tt);;
    serval_sal_done ops.

(** ** Acknowledgements *)
Definition rsyn_recv (st : rsyn_state) : bool :=
  match st with SAL_RSYN_RECV | SAL_RSYN_SENT_RECV => true | _ => false end.

(** The end of a migration of the peer. *)
Definition complete_migration : SALM TP unit :=
  upd_sk (fun s => s {{ inet_daddr := mig_daddr s; mig_daddr := 0;
                        udp_encap_dport := udp_encap_migration_dport s }});;
  call (migration_completed ops) 0;; mret tt.

Definition serval_sal_ack_process p : SALM TP Z :=
  if negb (in_flag p SVH_ACK) then mret (-1)
  else
    s ← the_sk;
    let ackno := c_ackno (in_ctx p) in
    if before ackno (snd_una s) then mret (-1)
    else if after ackno (snd_nxt s) && negb (rsyn_recv (sal_state s)) then mret (-1)
    else
      serval_sal_clean_rtx_queue ackno (rsyn_recv (sal_state s));;
      w ← getS;
      upd_sk (fun s => s {{ snd_una := ackno; ack_rcv_tstamp := u32 (now w) }});;
      s ← the_sk;
      match sal_state s with
      | SAL_RSYN_RECV | SAL_RSYN_SENT_RECV =>
          if in_flag p SVH_RSYN then mret 0
          else
            serval_sock_set_sal_state
              (if bool_decide (sal_state s = SAL_RSYN_RECV)
               then SAL_RSYN_INITIAL else SAL_RSYN_SENT);;
            complete_migration;;
            mret 0
      | _ => mret 0
      end.

(** ** Migration *)
Definition serval_sal_rcv_rsynack p : SALM TP Z :=
  s ← the_sk;
  match sal_state s with
  | SAL_RSYN_SENT =>
      match dev_addr (mig_dev_if s) with
      | None => mret (-1)
      | Some addr =>
          if negb (c_ackno (in_ctx p) =? u32 (snd_una s + 1)) then mret (-1)
          else
            serval_sock_set_sal_state SAL_RSYN_INITIAL;;
            upd_sk (fun s => s {{ inet_saddr := addr; sk_bound_dev_if := mig_dev_if s;
                                  mig_dev_if := 0 }});;
            call (migration_completed ops) 0;;
            serval_sal_send_ack ops
      end
  | SAL_RSYN_SENT_RECV =>
      serval_sock_set_sal_state SAL_RSYN_RECV;;
      upd_sk (fun s => s {{ mig_daddr := in_saddr p }});;
      serval_sal_send_ack ops
  | _ => serval_sal_send_ack ops
  end.

Definition serval_sal_rcv_rsyn p : SALM TP Z :=
  ok ← valid_control_extension p;
  s ← the_sk;
  if negb ok then mret (-1)
  else
    match sk_state s with
    | SAL_CLOSED | SAL_LISTEN | SAL_REQUEST => mret (-1)
    | _ =>
        (match sal_state s with
         | SAL_RSYN_INITIAL => serval_sock_set_sal_state SAL_RSYN_RECV
         | SAL_RSYN_SENT => serval_sock_set_sal_state SAL_RSYN_SENT_RECV
         | _ => mret tt
         end);;
        call (freeze_flow ops) 0;;
        upd_sk (fun s => s {{ rcv_nxt := u32 (c_verno (in_ctx p) + 1);
                              mig_daddr := in_saddr p }});;
        o ← sk_sal_alloc_skb;
        match o with
        | None => mret (- ENOMEM)
        | Some r =>
            s ← the_sk;
            set_cb r (Z.lor SVH_RSYN SVH_ACK) (snd_nxt s);;
            stamp r;;
            serval_sal_queue_and_push ops r
        end
    end.

(** ** Closing *)
Definition serval_sal_rcv_fin p : SALM TP Z :=
  ok ← valid_control_extension p;
  if negb ok then mret (-1)
  else
    upd_sk (fun s => s {{ sk_shutdown := Z.lor (sk_shutdown s) RCV_SHUTDOWN;
                          sock_done := true;
                          rcv_nxt := u32 (c_verno (in_ctx p) + 1) }});;
    s ← the_sk;
    (if negb (sock_dead s) then wake else mret tt);;
    serval_sal_send_ack ops.

Definition stamp_rcv : SALM TP unit :=
  w ← getS; upd_sk (fun s => s {{ last_rcv_tstamp := u32 (now w) }}).

(** ** One function per state *)
Definition serval_sal_connected_state_process i p : SALM TP Z :=
  serval_sal_ack_process p;;
  should_close ← (if in_flag p SVH_FIN then
                    err ← serval_sal_rcv_fin p; mret (err =? 0)
                  else mret false);
  has ← packet_has_transport_hdr i;
  if has || in_flag p SVH_FIN then
    stamp_rcv;;
    err ← receive ops i;
    (if (should_close : bool) then serval_sock_set_state SAL_CLOSEWAIT else mret tt);;
    mret err
  else kfree_skb i;; mret 0.

Definition serval_sal_closewait_state_process i p : SALM TP Z :=
  (if in_flag p SVH_FIN then serval_sal_send_ack ops;; mret tt else mret tt);;
  serval_sal_ack_process p;;
  has ← packet_has_transport_hdr i;
  if (has : bool) then receive ops i else kfree_skb i;; mret 0.

(** The last address of a source extension. *)
Definition last_addr p (ext : nat) : outcome Z :=
  len ← rd8 (in_hdr p) (ext + 1);
  bs ← rd_bytes (in_hdr p) (ext + 4 + 4 * Z.to_nat (num_addrs len - 1)) 4;
  Ok (le32 bs).
Definition response_addr p : SALM TP Z :=
  match c_src_ext (in_ctx p) with
  | Some ext => liftR (last_addr p ext)
  | None => mret (in_saddr p)
  end.

(** Allocate and send the ACK of a SYN-ACK. *)
Definition send_conn_ack i : SALM TP Z :=
  o ← sk_sal_alloc_skb;
  match o with
  | None => mret (- ENOMEM)
  | Some r =>
      err ← call1 (conn_build_ack ops) r 0;
      if negb (err =? 0) then mret err
      else
        s ← the_sk;
        set_cb r (Z.lor SVH_ACK SVH_CONN_ACK) (snd_nxt s);;
        serval_sal_transmit_skb ops r false;;
        kfree_skb i;;
        mret 0
  end.

Definition serval_sal_request_state_process i p : SALM TP Z :=
  ok ← valid_control_extension p;
  if negb ok || negb (in_flag p SVH_SYN && in_flag p SVH_ACK)
  then kfree_skb i;; mret 0
  else
    ack ← serval_sal_ack_process p;
    if negb (ack =? 0) then kfree_skb i;; mret 0
    else
      daddr ← response_addr p;
      nonce ← match c_ctrl_ext (in_ctx p) with
              | Some ext => liftR (rd_bytes (in_hdr p) (ext + 12) SAL_NONCE_SIZE)
              | None => faultM
              end;
      flow ← liftR (rd_bytes (in_hdr p) 0 4);
      upd_sk (fun s => s {{ sk_bound_dev_if := in_dev p; inet_daddr := daddr;
                            inet_saddr := in_daddr p; peer_nonce := nonce;
                            peer_flowid := flow;
                            rcv_nxt := u32 (c_verno (in_ctx p) + 1) }});;
      err ← call1 (request_state_process ops) i 0;
      if negb (err =? 0) then mret err
      else
        serval_sock_set_state SAL_CONNECTED;;
        s ← the_sk;
        (if negb (sock_dead s) then wake else mret tt);;
        send_conn_ack i.

Definition serval_sal_respond_state_process i p : SALM TP Z :=
  ok ← valid_control_extension p;
  if negb ok then kfree_skb i;; mret 0
  else
    ack ← serval_sal_ack_process p;
    if negb (ack =? 0) then kfree_skb i;; mret 0
    else
      upd_sk (fun s => s {{ sk_bound_dev_if := in_dev p; inet_daddr := in_saddr p }});;
      err ← call1 (respond_state_process ops) i 0;
      if negb (err =? 0) then mret 0
      else
        serval_sock_set_state SAL_CONNECTED;;
        wake;;
        kfree_skb i;;
        mret 0.

Definition serval_sal_finwait1_state_process i p : SALM TP Z :=
  ack_ok ← (if in_flag p SVH_ACK then
              r ← serval_sal_ack_process p; mret (r =? 0)
            else mret false);
  (if in_flag p SVH_FIN then
     r ← serval_sal_rcv_fin p;
     if r =? 0 then
       if (ack_ok : bool) then serval_sal_timewait SAL_TIMEWAIT SAL_TIMEWAIT_LEN
       else serval_sock_set_state SAL_CLOSING
     else mret tt
   else if (ack_ok : bool) then serval_sal_timewait SAL_FINWAIT2 SAL_FIN_TIMEOUT
   else mret tt);;
  has ← packet_has_transport_hdr i;
  if has || in_flag p SVH_FIN then receive ops i else kfree_skb i;; mret 0.

Definition serval_sal_finwait2_state_process i p : SALM TP Z :=
  (if in_flag p SVH_FIN then
     err ← serval_sal_rcv_fin p;
     if err =? 0 then serval_sal_timewait SAL_TIMEWAIT SAL_TIMEWAIT_LEN else mret tt
   else mret tt);;
  has ← packet_has_transport_hdr i;
  if has || in_flag p SVH_FIN then receive ops i else kfree_skb i;; mret 0.

Definition serval_sal_closing_state_process i p : SALM TP Z :=
  (if in_flag p SVH_ACK then
     r ← serval_sal_ack_process p;
     if r =? 0 then serval_sal_timewait SAL_TIMEWAIT SAL_TIMEWAIT_LEN else mret tt
   else mret tt);;
  (if in_flag p SVH_FIN then serval_sal_send_ack ops;; mret tt else mret tt);;
  has ← packet_has_transport_hdr i;
  if (has : bool) then receive ops i else kfree_skb i;; mret 0.

Definition serval_sal_lastack_state_process i p : SALM TP Z :=
  (if in_flag p SVH_FIN then serval_sal_send_ack ops;; mret tt else mret tt);;
  ack ← serval_sal_ack_process p;
  has ← packet_has_transport_hdr i;
  err ← (if (has : bool) then receive ops i else kfree_skb i;; mret 0);
  (if ack =? 0 then serval_sal_done ops else mret tt);;
  mret err.

(** Receive for datagram sockets that are not connected; a packet that does not
    match is not freed. *)
Definition serval_sal_init_state_process i p : SALM TP Z :=
  s ← the_sk;
  match c_srv_ext0 (in_ctx p), c_srv_ext1 (in_ctx p) with
  | Some _, Some _ =>
      if negb (hash_key s) then mret (-1)
      else
        has ← packet_has_transport_hdr i;
        if (has : bool) then receive ops i else kfree_skb i;; mret 0
  | _, _ => mret (-1)
  end.

(** ** The dispatcher; [listen] is [serval_sal_listen_state_process], [reset]
    is [serval_sal_send_reset] *)
Definition state_process_with (listen : positive -> inpkt -> SALM TP Z)
    (reset : positive -> inpkt -> SALM TP unit) i p : SALM TP Z :=
  s ← the_sk;
  let lr := bool_decide (sk_state s = SAL_LISTEN \/ sk_state s = SAL_REQUEST) in
  drop ←
    match c_ctrl_ext (in_ctx p) with
    | None => mret false
    | Some _ =>
        if negb (has_valid_verno lr (rcv_nxt s) (in_ctx p))
        then serval_sal_send_ack ops;; mret true
        else
          rst ← ctrl_bit p RST_BIT;
          if (rst : bool) then serval_sal_rcv_reset;; mret true
          else
            rsyn ← ctrl_bit p RSYN_BIT;
            if (rsyn : bool) then
              ack ← ctrl_bit p ACK_BIT;
              (if (ack : bool) then serval_sal_rcv_rsynack p else serval_sal_rcv_rsyn p);;
              mret false
            else mret false
    end;
  if (drop : bool) then kfree_skb i;; mret 0
  else
    b ← skb_load i;
    upd_sk (fun s => s {{ tot_pkts_recv := u64 (tot_pkts_recv s + 1);
      tot_bytes_recv := u64 (tot_bytes_recv s +
                             Z.of_nat (length (data (skb_buf b)))) }});;
    s ← the_sk;
    match sk_state s with
    | SAL_INIT =>
        if is_dgram s then serval_sal_init_state_process i p;; mret 0
        else kfree_skb i;; mret 0
    | SAL_CONNECTED => serval_sal_connected_state_process i p;; mret 0
    | SAL_REQUEST => serval_sal_request_state_process i p;; mret 0
    | SAL_RESPOND => serval_sal_respond_state_process i p;; mret 0
    | SAL_LISTEN => listen i p;; mret 0
    | SAL_FINWAIT1 => serval_sal_finwait1_state_process i p;; mret 0
    | SAL_FINWAIT2 => serval_sal_finwait2_state_process i p;; mret 0
    | SAL_CLOSING => serval_sal_closing_state_process i p;; mret 0
    | SAL_LASTACK => serval_sal_lastack_state_process i p;; mret 0
    | SAL_TIMEWAIT =>
        (match c_ctrl_ext (in_ctx p) with
         | Some _ =>
             fin ← ctrl_bit p FIN_BIT;
             if (fin : bool) then serval_sal_send_ack ops;; mret tt else mret tt
         | None => mret tt
         end);;
        kfree_skb i;; mret 0
    | SAL_CLOSEWAIT => serval_sal_closewait_state_process i p;; mret 0
    | SAL_CLOSED => reset i p;; kfree_skb i;; mret 0
    end.
End Receive.
