(* ===== verification/SalListen.v ===== *)
(** * The service access layer: listening sockets
    (src/stack/serval_sal.c lines 1505-2135, 2475-2600, 3025-3055;
    serval_request_sock.h; serval_sock.c lines 335-375 and 640-715)

    SYNs create request socks, which wait on the SYN queue; the ACK of the
    SYN-ACK turns one into a child socket in RESPOND state.  The child is kept
    in [children]; the code that runs on it runs with it as the current
    socket. *)
From S2P Require Import Prelude Bst ServiceEntry ServiceTable SalHdr Checksum.
From S2P Require Import SalSock Rto DelayQueue Sal SalCtrl SalState.
Local Open Scope Z_scope.

Definition DEFAULT_MAX_REQUEST_QLEN : Z := 500.

Section Listen.
Context {TP : Type} `{SalEnv} (ops : af_ops TP).
Implicit Types (w : salw TP) (i : positive) (p : inpkt).

(** ** Request queues *)
Definition serval_sock_request_queue_is_full (s : ssock) : bool :=
  max_request_qlen s <? request_qlen s.
Definition sk_acceptq_is_full (s : ssock) : bool :=
  sk_max_ack_backlog s <? sk_ack_backlog s.

Definition serval_sock_request_queue_added (timeout : Z) : SALM TP unit :=
  s ← the_sk;
  w ← getS;
  (if request_qlen s =? 0
   then sk_reset_timer sk_timer set_sk_timer (u64 (now w + timeout)) else mret tt);;
  upd_sk (fun s => s {{ request_qlen := u64 (request_qlen s + 1) }}).
Definition serval_sock_request_queue_removed : SALM TP unit :=
  upd_sk (fun s => s {{ request_qlen := u64 (request_qlen s - 1) }});;
  s ← the_sk;
  if request_qlen s =? 0 then sk_stop_timer sk_timer set_sk_timer else mret tt.

Definition serval_sock_reqsk_queue_add (r : request_sock) (timeout : Z)
  : SALM TP unit :=
  w ← getS;
  upd_sk (fun s => s {{ syn_queue ::= cons (r {{ r_expires := u64 (now w + timeout) }}) }});;
  serval_sock_request_queue_added timeout.

(** [time_after_eq(a, b)] on 64-bit jiffies. *)
Definition time_after_eq (a b : Z) : bool := u64 (a - b) <? 2 ^ 63.

Fixpoint prune_loop (t : Z) (l kept : list request_sock) : SALM TP unit :=
  match l with
  | [] => mret tt
  | r :: l =>
      if time_after_eq t (r_expires r) then
        upd_sk (fun s => s {{ syn_queue := kept ++ l }});;
        serval_sock_request_queue_removed;;
        prune_loop t l kept
      else prune_loop t l (kept ++ [r])
  end.
Definition serval_sock_request_queue_prune (interval : Z) : SALM TP unit :=
  s ← the_sk;
  w ← getS;
  if request_qlen s =? 0 then mret tt
  else
    prune_loop (now w) (syn_queue s) [];;
    s ← the_sk;
    if negb (request_qlen s =? 0)
    then sk_reset_timer sk_timer set_sk_timer (u64 (now w + interval)) else mret tt.

(** ** Random bytes and flow identifiers *)
Fixpoint rand_bytes (n : nat) : SALM TP (list Z) :=
  match n with
  | O => mret []
  | S n => r ← pop_rand; bs ← rand_bytes n; mret (Z.land r 255 :: bs)
  end.
Definition serval_sock_get_flowid : SALM TP (list Z) := fun w =>
  let id := u32 (serval_flow_id w + 1) in
  Ok (be32 id, w {{ serval_flow_id := id }}).

Definition serval_reqsk_alloc : SALM TP (option request_sock) :=
  ok ← alloc_result;
  if (ok : bool) then
    flow ← serval_sock_get_flowid;
    nonce ← rand_bytes SAL_NONCE_SIZE;
    iss ← rand_bytes 4;
    mret (Some (RequestSock (replicate 32 0) (replicate 32 0) flow (replicate 4 0)
                  0 0 0 0 (le32 iss) nonce (replicate 8 0) 0 0 0 None))
  else mret None.

(** ** Packets sent without a connection: RESET and SYN-ACK *)

(** The control extension these packets carry. *)
Definition ctrl_ext_bytes (flags verno ackno : Z) (nonce : list Z) : list Z :=
  [set_ext_type SAL_CONTROL_EXT 0; Z.of_nat SAL_CONTROL_EXT_LEN;
   ctrl_flag_byte flags 0; 0] ++ be32 verno ++ be32 ackno ++ nonce.
(** The base header in front of [exts]. *)
Definition base_header (src_flow dst_flow : list Z) (protocol : Z) (exts : list Z)
  : list Z :=
  src_flow ++ dst_flow ++
  [u8 (Z.shiftr (Z.of_nat (SAL_HEADER_LEN + length exts)) 2); protocol; 0; 0].

(** Without a socket ([has_sk]) the type of service and the time to live are the
    defaults. *)
Definition serval_ipv4_build_and_send_pkt (has_sk : bool) (saddr daddr dev : Z) (buf : skbuf)
  : SALM TP Z :=
  let saddr := if saddr =? 0 then default 0 (dev_addr dev) else saddr in
  buf ← liftR (serval_ipv4_fill_in_hdr (if has_sk then inet_tos else 0)
                 (if has_sk then inet_ttl else SERVAL_DEFTTL) saddr daddr buf);
  err ← net_result;
  (if err <? 0 then mret tt
   else modS (fun w => w {{ sent := sent w ++ [local_out_frame saddr daddr dev buf] }}));;
  mret err.

Definition in_nonce p : outcome (list Z) :=
  match c_ctrl_ext (in_ctx p) with
  | Some ext => rd_bytes (in_hdr p) (ext + 12) SAL_NONCE_SIZE
  | None => Ok (replicate SAL_NONCE_SIZE 0)
  end.

(** The reply to a packet for which there is no connection. *)
Definition serval_sal_send_reset (has_sk : bool) i p : SALM TP unit :=
  rst ← match c_ctrl_ext (in_ctx p) with
        | Some _ => ctrl_bit p RST_BIT
        | None => mret false
        end;
  if (rst : bool) then mret tt
  else
    ok ← alloc_result;
    if negb ok then mret tt
    else
      nonce ← liftR (in_nonce p);
      sf ← liftR (rd_bytes (in_hdr p) 0 4);
      df ← liftR (rd_bytes (in_hdr p) 4 4);
      proto ← liftR (rd8 (in_hdr p) 9);
      let ctx := in_ctx p in
      let ext :=
        if in_flag p SVH_ACK
        then ctrl_ext_bytes SVH_RST (c_ackno ctx) 0 nonce
        else ctrl_ext_bytes (Z.lor SVH_RST SVH_ACK) 0
               (u32 (c_verno ctx + Z.land (c_flags ctx) SVH_SYN
                     + Z.land (c_flags ctx) SVH_FIN)) nonce in
      let hdr := base_header df sf proto ext ++ ext in
      buf ← liftR (skb_push (length hdr) (Skb (replicate max_sal_hdr 0) []));
      serval_ipv4_build_and_send_pkt has_sk (in_daddr p) (in_saddr p) (in_dev p)
        (Skb (headroom buf) (serval_sal_send_check 0 hdr));;
      mret tt.

(** The SYN-ACK to a request; the transport adds its header to the reply. *)
Definition serval_sal_send_synack (r : request_sock) i p : SALM TP Z :=
  o ← sk_sal_alloc_skb;
  match o with
  | None => mret (- ENOMEM)
  | Some rskb =>
      err ← call1 (conn_build_synack ops) rskb 0;
      if negb (err =? 0) then kfree_skb rskb;; mret 0
      else
        b ← skb_load rskb;
        src ← liftR match c_src_ext (in_ctx p) with
              | None => Ok []
              | Some ext =>
                  len ← rd8 (in_hdr p) (ext + 1);
                  bs ← rd_bytes (in_hdr p) ext (Z.to_nat len);
                  Ok (put_bytes 0 [set_ext_type SAL_SOURCE_EXT (nth 0 bs 0); u8 (len + 4)] bs
                      ++ addr_bytes (r_loc_addr r))
              end;
        proto ← liftR (rd8 (in_hdr p) 9);
        let exts := ctrl_ext_bytes (Z.lor SVH_SYN SVH_ACK) (r_iss_seq r)
                      (u32 (r_rcv_seq r + 1)) (r_local_nonce r) ++ src in
        let hdr := base_header (r_local_flowid r) (r_peer_flowid r) proto exts ++ exts in
        buf ← liftR (skb_push (length hdr) (skb_buf b));
        serval_ipv4_build_and_send_pkt true (r_reply_saddr r) (r_rmt_addr r) (in_dev p)
          (Skb (headroom buf) (serval_sal_send_check 0 (hdr ++ data (skb_buf b))));;
        kfree_skb rskb;;
        mret 0
  end.

(** ** SYNs *)
Definition IPPROTO_UDP : Z := 17.

(** The n-th address of a source extension. *)
Definition source_addr p (ext n : nat) : outcome Z :=
  bs ← rd_bytes (in_hdr p) (ext + 4 + 4 * n) 4; Ok (le32 bs).

(** The remote address and the source address of the reply; [encap] says that
    the packet came in a UDP packet, [broadcast] that it was broadcast. *)
Definition request_addrs (encap broadcast : bool) (myaddr : Z) p : outcome (Z * Z) :=
  match c_src_ext (in_ctx p) with
  | Some ext =>
      rmt ← source_addr p ext 0;
      if encap then reply ← source_addr p ext 1; Ok (rmt, reply)
      else Ok (rmt, myaddr)
  | None => Ok (in_saddr p, if broadcast then myaddr else in_daddr p)
  end.

Definition serval_sal_rcv_syn (encap broadcast : bool) i p : SALM TP Z :=
  ok ← valid_control_extension p;
  srv ← liftR (has_service_extension_src (in_hdr p) (in_ctx p));
  s ← the_sk;
  if negb ok || negb srv || serval_sock_request_queue_is_full s
     || sk_acceptq_is_full s
  then kfree_skb i;; mret 0
  else
    match dev_addr (in_dev p) with
    | None => kfree_skb i;; mret 0
    | Some myaddr =>
        o ← serval_reqsk_alloc;
        match o with
        | None => kfree_skb i;; mret 0
        | Some r =>
            peer_flow ← liftR (rd_bytes (in_hdr p) 0 4);
            srvid ← liftR match c_srv_ext0 (in_ctx p) with
                    | Some ext => rd_bytes (in_hdr p) (ext + 4) 32
                    | None => Fault
                    end;
            nonce ← liftR (in_nonce p);
            '(rmt, reply) ← liftR (request_addrs encap broadcast myaddr p);
            let r := r {{ r_peer_flowid := peer_flow; r_target_srvid := srvid;
                          r_peer_nonce := nonce; r_rcv_seq := c_verno (in_ctx p);
                          r_loc_addr := myaddr; r_rmt_addr := rmt;
                          r_reply_saddr := reply }} in
            err ← call1 (conn_request ops) i 0;
            if negb (err =? 0) then mret err
            else
              serval_sock_reqsk_queue_add r SAL_TIMEOUT_INIT;;
              err ← serval_sal_send_synack r i p;
              kfree_skb i;;
              mret err
        end
    end.

(** ** Child sockets *)

(** [serval_sock_init]; the random nonce and sequence number are given. *)
Definition serval_sock_init (nonce iss : list Z) (s : ssock) : ssock :=
  s {{ sk_state := SAL_INIT; sal_state := SAL_RSYN_INITIAL;
       udp_encap_sport := 0; udp_encap_dport := 0;
       request_qlen := 0; max_request_qlen := DEFAULT_MAX_REQUEST_QLEN;
       accept_queue := []; syn_queue := [];
       retransmit_timer := None; tw_timer := None; sk_timer := None;
       ctrl_queue := None; ctrl_send_head := None;
       local_nonce := nonce; snd_iss := le32 iss;
       hash_key := false; hash_key_len := 0;
       rcv_nxt := 0; snd_una := 0; snd_nxt := 0; snd_wnd := 1;
       retransmits := 0; backoff := 0; srtt := 0;
       mdev := SAL_TIMEOUT_INIT; mdev_max := SAL_TIMEOUT_INIT;
       rttvar := SAL_TIMEOUT_INIT; rto := SAL_TIMEOUT_INIT }}.

(** What [sk_clone] resets in the copy. *)
Definition sk_clone (s : ssock) : ssock :=
  s {{ in_table := false; sock_done := false; sk_err := 0; sk_refs := 2 }}.

(** Returns the index of the child, [None] on failure. *)
Definition serval_sal_create_respond_sock : SALM TP (option nat) :=
  ok ← alloc_result;
  if (ok : bool) then
    s ← the_sk;
    nonce ← rand_bytes SAL_NONCE_SIZE;
    iss ← rand_bytes 4;
    w ← getS;
    let k := length (children w) in
    modS (fun w => w {{ children := children w ++
      [serval_sock_set_flag SSK_FLAG_CHILD (serval_sock_init nonce iss (sk_clone s))] }});;
    ret ← conn_child_sock ops k;
    if ret <? 0 then modS (fun w => w {{ children ::= take k }});; mret None
    else mret (Some k)
  else mret None.

Definition same_flow (a b : list Z) : bool := bool_decide (a = b).

Definition serval_sal_find_rsk p : SALM TP (option request_sock) :=
  s ← the_sk;
  flow ← liftR (rd_bytes (in_hdr p) 0 4);
  mret (match find (fun r => same_flow (r_peer_flowid r) flow) (syn_queue s) with
        | Some r => Some r
        | None => find (fun r => same_flow (r_peer_flowid r) flow) (accept_queue s)
        end).

(** The first request with the given local flow identifier, and the rest. *)
Fixpoint take_request (flow : list Z) (l : list request_sock)
  : option (request_sock * list request_sock) :=
  match l with
  | [] => None
  | r :: l =>
      if same_flow (r_local_flowid r) flow then Some (r, l)
      else
        match take_request flow l with
        | Some (r', l') => Some (r', r :: l')
        | None => None
        end
  end.

(** The child takes the identity of the request. *)
Definition child_of (r : request_sock) (s : ssock) : ssock :=
  s {{ local_flowid := r_local_flowid r; peer_flowid := r_peer_flowid r;
       peer_srvid := r_peer_srvid r; local_srvid := r_target_srvid r;
       inet_daddr := r_rmt_addr r; inet_saddr := r_loc_addr r;
       local_nonce := r_local_nonce r; peer_nonce := r_peer_nonce r;
       snd_iss := r_iss_seq r; snd_una := r_iss_seq r;
       snd_nxt := u32 (r_iss_seq r + 1);
       rcv_iss := r_rcv_seq r; rcv_nxt := u32 (r_rcv_seq r + 1);
       udp_encap_sport := r_udp_encap_sport r;
       udp_encap_dport := r_udp_encap_dport r }}.

(** Run [m] on the k-th child. *)
Definition with_child {A} (k : nat) (m : SALM TP A) : SALM TP A := fun w =>
  match children w !! k with
  | None => Fault
  | Some c =>
      match m (w {{ sk := c }}) with
      | Ok (a, w') => Ok (a, w' {{ children ::= <[k := sk w']>; sk := sk w }})
      | Fault => Fault
      | NoFuel => NoFuel
      end
  end.

(** Does the ACK fit the request? *)
Definition request_matches (nonce : list Z) (ctx : sal_context) (r : request_sock)
  : bool :=
  bool_decide (r_peer_nonce r = nonce)
  && (c_verno ctx =? u32 (r_rcv_seq r + 1))
  && (c_ackno ctx =? u32 (r_iss_seq r + 1)).

Definition serval_sal_request_sock_handle p : SALM TP (option nat) :=
  s ← the_sk;
  flow ← liftR (rd_bytes (in_hdr p) 4 4);
  match take_request flow (syn_queue s) with
  | None => mret None
  | Some (r, rest) =>
      nonce ← match c_ctrl_ext (in_ctx p) with
              | Some ext => liftR (rd_bytes (in_hdr p) (ext + 12) SAL_NONCE_SIZE)
              | None => faultM
              end;
      if negb (request_matches nonce (in_ctx p) r) then mret None
      else
        c ← serval_sal_create_respond_sock;
        match c with
        | None => mret None
        | Some k =>
            upd_sk (fun s => s {{ syn_queue := rest;
              accept_queue := accept_queue s ++ [r {{ r_sk := Some k }}] }});;
            serval_sock_request_queue_removed;;
            upd_sk (fun s => s {{ sk_ack_backlog := u32 (sk_ack_backlog s + 1) }});;
            with_child k (upd_sk (fun s => s {{ sk_ack_backlog := 0 }});;
                          serval_sock_set_state SAL_RESPOND;;
                          upd_sk (child_of r);;
                          serval_sock_hash);;
            mret (Some k)
        end
  end.

(** The child runs the state machine on the packet that created it; it is in
    RESPOND state, so the listen handler is not reached. *)
Definition serval_sal_child_process (k : nat) i p : SALM TP Z :=
  ret ← with_child k
    (ret ← state_process_with ops (fun _ _ => faultM) (serval_sal_send_reset true) i p;
     sk_put;; mret ret);
  w ← getS;
  (match children w !! k with
   | Some c => if (ret =? 0) && negb (bool_decide (sk_state c = SAL_RESPOND))
               then wake else mret tt
   | None => mret tt
   end);;
  mret ret.

Definition serval_sal_listen_state_process (encap broadcast : bool) i p : SALM TP Z :=
  if in_flag p SVH_SYN && negb (in_flag p SVH_ACK) then
    r ← serval_sal_find_rsk p;
    match r with
    | Some r => serval_sal_send_synack r i p;; kfree_skb i;; mret 0
    | None => serval_sal_rcv_syn encap broadcast i p
    end
  else if in_flag p SVH_ACK then
    c ← serval_sal_request_sock_handle p;
    match c with
    | Some k => serval_sal_child_process k i p
    | None => kfree_skb i;; mret 0
    end
  else serval_sal_send_reset true i p;; kfree_skb i;; mret 0.

Definition serval_sal_state_process (encap broadcast : bool) i p : SALM TP Z :=
  state_process_with ops (serval_sal_listen_state_process encap broadcast)
    (serval_sal_send_reset true) i p.

(** ** Entry points: a packet with its SAL header still in place *)
Definition serval_sal_do_rcv_ctx (encap broadcast : bool) i p : SALM TP Z :=
  b ← skb_load i;
  let n := Z.to_nat (c_length (in_ctx p)) in
  if decide (n <= length (data (skb_buf b)))%nat then
    skb_store i (b {{ skb_buf := Skb (headroom (skb_buf b) ++ take n (data (skb_buf b)))
                                   (drop n (data (skb_buf b)));
                      skb_flags := c_flags (in_ctx p) }});;
    serval_sal_state_process encap broadcast i p
  else faultM.

Definition serval_sal_do_rcv (encap broadcast : bool) i (saddr daddr dev : Z)
  : SALM TP Z :=
  b ← skb_load i;
  '(ret, ctx) ← liftR (serval_sal_parse_hdr (data (skb_buf b)) SAL_PARSE_ALL);
  if negb (ret =? 0) then kfree_skb i;; mret (-1)
  else serval_sal_do_rcv_ctx encap broadcast i
         (InPkt ctx (data (skb_buf b)) saddr daddr dev).
End Listen.
