(* ===== verification/SalInv.v ===== *)
(** * Buffer ownership and socket references

    The invariant of a socket that talks to a known peer: every live buffer is
    either held by the code that runs, owned by the transport, or it is the one
    in the slot of the control queue; and the socket's reference count is the
    number of its timers and owned buffers, on top of a constant.  So buffers
    are neither leaked nor freed twice, and references balance. *)
From S2P Require Import Prelude Bst ServiceEntry ServiceTable SalHdr SalHdrProps.
From S2P Require Import Checksum SalSock Rto DelayQueue Sal SalCtrl SalState.
Local Open Scope Z_scope.

Definition slot (o : option positive) : gset positive :=
  match o with Some i => {[ i ]} | None => ∅ end.
Definition pend (o : option Z) : Z := match o with Some _ => 1 | None => 0 end.
Definition timers (s : ssock) : Z :=
  pend (retransmit_timer s) + pend (tw_timer s) + pend (sk_timer s).
Definition owned_count (m : gmap positive sal_skb) : Z :=
  Z.of_nat (size (filter (fun kb => skb_owned kb.2 = true) m)).
(** Room for the SAL header with its extensions, and for the IP header. *)
Definition HDR_ROOM : nat := 84 + IP_HLEN.
(** What [pskb_copy] and [skb_serval_set_owner_w] make of a buffer. *)
Definition copy_of (b : sal_skb) : sal_skb :=
  b {{ skb_buf := Skb (replicate (length (headroom (skb_buf b))) 0) (data (skb_buf b));
       skb_owned := true }}.

(** The socket fields a transmission does not change. *)
Definition proto (s : ssock) : ssock :=
  s {{ sk_refs := 0; retransmit_timer := None; tw_timer := None; sk_timer := None;
       tot_pkts_sent := 0; tot_bytes_sent := 0; inet_saddr := 0; pending := 0;
       timeout := 0 }}.

(** The peer is known. *)
Definition peer_ok (s : ssock) : Prop :=
  hdr_sock_ok (hdr_of s) /\ inet_daddr s <> 0 /\
  (rsyn_recv (sal_state s) = true -> mig_daddr s <> 0).

Lemma peer_ok_proto s s' : proto s = proto s' -> peer_ok s -> peer_ok s'.
Proof.
  intros Hp [H1 [H2 H3]].
  assert (hdr_of s' = hdr_of s) as He.
  { symmetry. exact (f_equal hdr_of Hp : hdr_of (proto s) = hdr_of (proto s')). }
  split; [by rewrite He|].
  change (inet_daddr (proto s') <> 0 /\
    (rsyn_recv (sal_state (proto s')) = true -> mig_daddr (proto s') <> 0)).
  rewrite <-Hp. by split.
Qed.

Ltac rsimp := try record.simp.
Lemma wp_queue_head {TP} (w : salw TP) Q :
  Q (ctrl_queue (sk w)) w -> wp serval_sal_ctrl_queue_head w Q.
Proof. done. Qed.
(** Symbolic execution of the socket's primitives. *)
Ltac sal_step :=
  lazymatch goal with
  | |- wp (upd_sk _) _ _ => apply wp_modS
  | |- wp sk_put _ _ => apply wp_modS
  | |- wp sk_hold _ _ => apply wp_modS
  | |- wp the_sk _ _ => apply wp_gets
  | |- wp serval_sal_ctrl_queue_head _ _ => apply wp_queue_head
  | |- wp (serval_sal_unlink_ctrl_queue _) _ _ => apply wp_modS
  | |- wp (serval_sal_advance_send_head _) _ _ => apply wp_modS
  | |- wp (serval_sal_add_ctrl_queue_tail _) _ _ => apply wp_modS
  | |- wp (serval_sock_set_sal_state _) _ _ => apply wp_modS
  | |- wp wake _ _ => apply wp_modS
  | _ => wp_step
  end.
Ltac sal_steps := repeat sal_step.

(** What the state of a transport protocol has to satisfy. *)
Class TpWf (TP : Type) := tp_wf : TP -> Prop.

Section Inv.
Context {TP : Type} `{TpWf TP} (tp_held : TP -> gset positive).
Implicit Types (w : salw TP) (i : positive) (held : gset positive).

Record inv held (base : Z) w : Prop := Inv {
  iv_dom : dom (skbs w) = held ∪ tp_held (tp w) ∪ slot (ctrl_queue (sk w));
  iv_disj : held ## tp_held (tp w) ∪ slot (ctrl_queue (sk w));
  iv_disj_tp : tp_held (tp w) ## slot (ctrl_queue (sk w));
  iv_fresh : forall i, i ∈ dom (skbs w) -> (i < next_skb w)%positive;
  iv_head : ctrl_send_head (sk w) = None \/ ctrl_send_head (sk w) = ctrl_queue (sk w) \/
    (* a destroyed socket *) ctrl_queue (sk w) = None /\ sk_state (sk w) = SAL_CLOSED;
  iv_slot : forall i b, ctrl_queue (sk w) = Some i -> skbs w !! i = Some b ->
    skb_owned b = true /\ (HDR_ROOM <= length (headroom (skb_buf b)))%nat;
  iv_refs : sk_refs (sk w) = base + timers (sk w) + owned_count (skbs w);
  iv_peer : peer_ok (sk w);
  iv_tp : tp_wf (tp w);
}.

(** ** Reference counting of buffers *)
Lemma owned_insert m i b :
  m !! i = None ->
  owned_count (<[i := b]> m) = owned_count m + (if skb_owned b then 1 else 0).
Proof.
  intros Hi. unfold owned_count. destruct (skb_owned b) eqn:Hb.
  - rewrite map_filter_insert_True by done. rewrite map_size_insert_None; [lia|].
    apply map_lookup_filter_None. by left.
  - rewrite map_filter_insert_False by (simpl; congruence).
    rewrite delete_id by done. lia.
Qed.

Lemma owned_delete m i b :
  m !! i = Some b ->
  owned_count (delete i m) = owned_count m - (if skb_owned b then 1 else 0).
Proof.
  intros Hi. rewrite <-(insert_delete_id m i b Hi) at 2.
  rewrite owned_insert by apply lookup_delete_eq. lia.
Qed.

Lemma owned_update m i b b' :
  m !! i = Some b -> skb_owned b' = skb_owned b ->
  owned_count (<[i := b']> m) = owned_count m.
Proof.
  intros Hi Hb. rewrite <-insert_delete_eq, owned_insert by apply lookup_delete_eq.
  rewrite (owned_delete m i b Hi), Hb. lia.
Qed.

(** ** Changing the socket only *)
Lemma inv_upd_sk held base w f :
  inv held base w ->
  ctrl_queue (f (sk w)) = ctrl_queue (sk w) ->
  ctrl_send_head (f (sk w)) = ctrl_send_head (sk w) ->
  sk_refs (f (sk w)) - timers (f (sk w)) = sk_refs (sk w) - timers (sk w) ->
  (sk_state (sk w) = SAL_CLOSED -> sk_state (f (sk w)) = SAL_CLOSED) -> peer_ok (f (sk w)) ->
  inv held base (w {{ sk ::= f }}).
Proof.
  intros [H1 H2 H3 H4 H5 H6 H7 H8] E1 E2 E3 E4 E5.
  split; rsimp; rewrite ?E1, ?E2; try done; [tauto|lia].
Qed.

(** Changing the outside: results, log, table. *)
Lemma inv_ext held base w w' :
  inv held base w -> sk w' = sk w -> skbs w' = skbs w -> next_skb w' = next_skb w ->
  tp w' = tp w -> inv held base w'.
Proof. intros [] E1 E2 E3 E4. split; rewrite ?E1, ?E2, ?E3, ?E4; done. Qed.

(** Buffers held by the running code. *)
Lemma inv_held held base w i :
  inv held base w -> i ∈ held -> exists b, skbs w !! i = Some b.
Proof.
  intros Hw Hi. apply elem_of_dom. rewrite (iv_dom _ _ _ Hw). set_solver.
Qed.
Lemma inv_not_slot held base w i :
  inv held base w -> i ∈ held -> ctrl_queue (sk w) <> Some i.
Proof.
  intros Hw Hi Hq. pose proof (iv_disj _ _ _ Hw) as Hd. rewrite Hq in Hd.
  unfold slot in Hd. set_solver.
Qed.

(** ** Buffers *)
Lemma load_ok w i b Q : skbs w !! i = Some b -> Q b w -> wp (skb_load i) w Q.
Proof. intros Hi HQ. unfold wp, skb_load. by rewrite Hi. Qed.

Lemma store_ok w i b b' (Q : unit -> salw TP -> Prop) :
  skbs w !! i = Some b -> Q tt (w {{ skbs ::= <[i := b']> }}) ->
  wp (skb_store i b') w Q.
Proof. intros Hi HQ. unfold wp, skb_store. by rewrite Hi. Qed.

(** A store keeps the invariant when it keeps the owner and the headroom. *)
Lemma inv_store held base w i b b' :
  inv held base w -> skbs w !! i = Some b -> skb_owned b' = skb_owned b ->
  (i ∈ held \/ headroom (skb_buf b') = headroom (skb_buf b)) ->
  inv held base (w {{ skbs ::= <[i := b']> }}).
Proof.
  intros Hw Hi Ho Hr. pose proof Hw as [H1 H2 H3 H4 H5 H6 H7 H8].
  split; rsimp; try done.
  - rewrite dom_insert_lookup_L; [done|]. by eexists.
  - intros j Hj. apply H4. rewrite dom_insert_lookup_L in Hj; [done|by eexists].
  - intros j c Hq Hj. destruct (decide (i = j)) as [<-|Hne].
    + rewrite lookup_insert_eq in Hj. injection Hj as <-.
      destruct Hr as [Hr|Hr]; [by destruct (inv_not_slot _ _ _ _ Hw Hr)|].
      rewrite Hr, Ho. by apply (H6 i b).
    + rewrite lookup_insert_ne in Hj by done. by apply (H6 j c).
  - by rewrite (owned_update _ _ b).
Qed.

(** What the primitives below leave alone. *)
Definition outside w w' : Prop :=
  now w' = now w /\ (skb_allocs w = [] -> skb_allocs w' = []) /\
  (net_results w = [] -> net_results w' = []).
Definition kept w w' : Prop :=
  proto (sk w') = proto (sk w) /\ tp w' = tp w /\ outside w w'.
Lemma outside_trans w1 w2 w3 : outside w1 w2 -> outside w2 w3 -> outside w1 w3.
Proof. unfold outside. intuition congruence. Qed.
Lemma kept_refl w : kept w w.
Proof. done. Qed.
Lemma kept_trans w1 w2 w3 : kept w1 w2 -> kept w2 w3 -> kept w1 w3.
Proof. intros (P1 & T1 & O1) (P2 & T2 & O2). split_and!; [congruence..|by eapply outside_trans]. Qed.

Lemma kfree_ok held base w i :
  inv held base w -> i ∈ held ->
  wp (kfree_skb i) w (fun _ w' => inv (held ∖ {[ i ]}) base w' /\
    kept w w' /\ sent w' = sent w /\ skbs w' = delete i (skbs w)).
Proof.
  intros Hw Hi. destruct (inv_held _ _ _ _ Hw Hi) as [b Hb].
  pose proof Hw as [H1 H2 H3 H4 H5 H6 H7 H8].
  unfold kfree_skb. sal_step. eapply load_ok; [done|]. sal_step. sal_step.
  assert (forall r, sk_refs (sk w) + r = base + timers (sk w) + owned_count (delete i (skbs w)) ->
    inv (held ∖ {[i]}) base
      (w {{ skbs ::= delete i; sk ::= (fun s => s {{ sk_refs := sk_refs s + r }}) }})) as HI.
  { intros r Hr. split; rsimp; try done.
    - rewrite dom_delete_L, H1. set_solver.
    - set_solver.
    - intros j Hj. apply H4. rewrite dom_delete_L in Hj. set_solver.
    - intros j c Hq Hj. apply lookup_delete_Some in Hj as [_ Hj]. by apply (H6 j c). }
  rewrite (owned_delete _ _ _ Hb) in HI.
  destruct (skb_owned b).
  - sal_step. specialize (HI (-1) ltac:(lia)). split_and!; try done.
  - sal_step. split_and!; try done. specialize (HI 0 ltac:(lia)).
    destruct HI as [K1 K2 K3 K4 K5 K6 K7 K8]. split; try done.
    record.simp_hyp K7. rewrite Z.add_0_r in K7. done.
Qed.

(** ** New buffers *)
Lemma inv_new held base w b :
  inv held base w -> skb_owned b = true ->
  inv ({[ next_skb w ]} ∪ held) base
    (w {{ skbs ::= <[next_skb w := b]>; next_skb ::= Pos.succ;
          sk ::= (fun s => s {{ sk_refs ::= Z.add 1 }}) }}) /\
  next_skb w ∉ held /\ skbs w !! next_skb w = None.
Proof.
  intros [H1 H2 H3 H4 H5 H6 H7 H8] Hb.
  assert (next_skb w ∉ dom (skbs w)) as Hn.
  { intros Hi%H4. lia. }
  assert (skbs w !! next_skb w = None) as Hn' by (by apply not_elem_of_dom).
  split; [|split; [rewrite H1 in Hn; set_solver|done]].
  split; rsimp; try done.
  - rewrite dom_insert_L, H1. set_solver.
  - rewrite H1 in Hn. set_solver.
  - intros i Hi. rewrite dom_insert_L in Hi. apply elem_of_union in Hi as [Hi|Hi].
    + apply elem_of_singleton in Hi as ->. lia.
    + apply H4 in Hi. lia.
  - intros i c Hq Hi. rewrite lookup_insert_ne in Hi; [by apply (H6 i c)|].
    intros <-. apply Hn. rewrite H1, Hq. unfold slot. set_solver.
  - rewrite owned_insert, Hb by done.
    change (timers _) with (timers (sk w)). lia.
Qed.

Lemma alloc_result_ok w (Q : bool -> salw TP -> Prop) :
  (forall r bs, skb_allocs w <> [] -> Q r (w {{ skb_allocs := bs }})) ->
  (skb_allocs w = [] -> Q true w) -> wp alloc_result w Q.
Proof.
  intros H1 H2. unfold wp, alloc_result. destruct (skb_allocs w) as [|r bs]; auto.
Qed.
Lemma outside_allocs w bs : skb_allocs w <> [] -> outside w (w {{ skb_allocs := bs }}).
Proof. by intros Hne. Qed.

(** The result of an allocation: nothing, or a new buffer [b] owned by the
    socket. *)
Definition got_skb held base w (b : sal_skb) (o : option positive) w' : Prop :=
  kept w w' /\ sent w' = sent w /\
  match o with
  | None => inv held base w' /\ skbs w' = skbs w /\ skb_allocs w <> []
  | Some i => inv ({[ i ]} ∪ held) base w' /\ i ∉ held /\ skbs w !! i = None /\
      skbs w' = <[i := b]> (skbs w)
  end.

Lemma new_owned_ok held base w b :
  inv held base w ->
  wp (i ← new_skb b; (set_owner_w i;; mret (Some i))) w
    (got_skb held base w (b {{ skb_owned := true }})).
Proof.
  intros Hw. set (b' := b {{ skb_owned := true }}).
  destruct (inv_new held base w b' Hw eq_refl) as (HI & Hn & Hf). apply wp_bind.
  change (wp (set_owner_w (next_skb w);; mret (Some (next_skb w)))
    (w {{ skbs ::= <[next_skb w := b]>; next_skb ::= Pos.succ }}) (got_skb held base w b')).
  sal_step. unfold set_owner_w. sal_step. eapply load_ok; [by apply lookup_insert_eq|].
  sal_step. eapply store_ok; [by apply lookup_insert_eq|]. sal_step. sal_step.
  unfold got_skb. split_and!; try done.
  - eapply inv_ext; [exact HI|..]; try done. rsimp. by rewrite insert_insert_eq.
  - rsimp. by rewrite insert_insert_eq.
Qed.

Lemma got_skb_ext held base w w1 b o w' :
  sk w1 = sk w -> skbs w1 = skbs w -> tp w1 = tp w -> outside w w1 -> sent w1 = sent w ->
  skb_allocs w <> [] -> got_skb held base w1 b o w' -> got_skb held base w b o w'.
Proof.
  unfold got_skb, kept. intros -> -> -> O -> Hne ((P & T & O1) & S & G).
  split_and!; [done..|by eapply outside_trans|done|]. destruct o; [done|]. by destruct G as (? & ? & _).
Qed.

Lemma alloc_owned_ok held base w size :
  inv held base w ->
  wp (alloc_owned size) w
    (got_skb held base w (SalSkb 0 0 0 (Skb (replicate size 0) []) true 0)).
Proof.
  intros Hw. unfold alloc_owned. sal_step. apply alloc_result_ok.
  - intros [] bs Hne.
    + eapply wp_mono; [apply (new_owned_ok held base); by eapply inv_ext|].
      intros o w'. by apply got_skb_ext.
    + sal_step. split_and!; try done. by eapply inv_ext.
  - intros _. by apply new_owned_ok.
Qed.

(** A private copy owned by the socket. *)
Lemma copy_owned_ok held base w i b :
  inv held base w -> skbs w !! i = Some b ->
  wp (c ← pskb_copy i;
      match c with
      | Some c => set_owner_w c;; mret (Some c)
      | None => mret None
      end) w
    (got_skb held base w (copy_of b)).
Proof.
  intros Hw Hb. set (b' := copy_of b).
  unfold pskb_copy. sal_step. sal_step. eapply load_ok; [done|]. sal_step.
  assert (forall w1, inv held base w1 -> 
    wp (c ← new_skb (b {{ skb_owned := false;
      skb_buf := Skb (replicate (length (headroom (skb_buf b))) 0) (data (skb_buf b)) }});
      mret (Some c)) w1 (fun a st' => wp match a with
        | Some c => set_owner_w c;; mret (Some c)
        | None => mret None end st' (got_skb held base w1 b'))) as Hgo.
  { intros w1 Hw1. apply wp_bind.
    pose proof (new_owned_ok held base w1 (b {{ skb_owned := false;
      skb_buf := Skb (replicate (length (headroom (skb_buf b))) 0) (data (skb_buf b)) }}) Hw1)
      as HN. unfold wp at 1, mbind, M_bind in HN. exact HN. }
  apply alloc_result_ok.
  - intros [] bs Hne.
    + eapply wp_mono; [apply Hgo; by eapply inv_ext|]. intros o w1 H1.
      eapply wp_mono; [exact H1|]. intros o' w'. by apply got_skb_ext.
    + sal_step. sal_step. split_and!; try done. by eapply inv_ext.
  - intros _. by apply Hgo.
Qed.
End Inv.

(** * Transmission to a known peer

    Sending a packet of a connected socket consumes exactly its buffer, leaves
    the protocol state alone, and puts on the wire the header built from the
    socket, with its checksum. *)

(** The IP header of an outgoing packet of [n] bytes from the SAL header on. *)
Definition out_ip (tos ttl saddr daddr : Z) (n : nat) : list Z :=
  let len := u16 (Z.of_nat (IP_HLEN + n)) in
  ip_send_check
    ([69; tos; Z.shiftr len 8; Z.land len 255; 0; 0; 0; 0; ttl; IPPROTO_SERVAL; 0; 0]
     ++ addr_bytes saddr ++ addr_bytes daddr).
Lemma fill_ok tos ttl saddr daddr dev buf :
  (IP_HLEN <= length (headroom buf))%nat ->
  exists buf', serval_ipv4_fill_in_hdr tos ttl saddr daddr buf = Ok buf' /\
    local_out_frame saddr daddr dev buf' =
    Frame saddr daddr dev (data buf) (out_ip tos ttl saddr daddr (length (data buf))).
Proof.
  intros Hr. destruct (push_ok IP_HLEN buf Hr) as (hr & junk & Hp & Hj & _).
  unfold serval_ipv4_fill_in_hdr. rewrite (obind_Ok _ _ _ Hp). eexists. split; [done|].
  unfold local_out_frame, skb_put_bytes. cbn [data headroom].
  rewrite (put_bytes_eq 0 _ _ [] junk (data buf)) by done.
  cbn [app]. rewrite length_app, Hj. done.
Qed.

Section Xmit.
Context {TP : Type} `{TpWf TP} (tp_held : TP -> gset positive) `{HE : SalEnv} `{!StaleRead} (ops : af_ops TP).
Implicit Types (w : salw TP) (i : positive) (held : gset positive).
Abbreviation inv := (inv tp_held).

(** The bytes sent for a buffer, from the SAL header on. *)
Definition wire_bytes (s : ssock) (b : sal_skb) : list Z :=
  match serval_sal_build_header (hdr_of s) (SkbCb (skb_flags b) (skb_verno b)) (skb_buf b) with
  | Ok buf => serval_sal_send_check 0 (data buf)
  | _ => []
  end.
(** Migration packets go to the address the peer migrates to. *)
Definition wire_daddr (s : ssock) (b : sal_skb) : Z :=
  if flag_set (skb_flags b) SVH_RSYN && bool_decide (sal_state s = SAL_RSYN_RECV)
  then mig_daddr s else inet_daddr s.

(** The frame for [bytes], with a checked IP header in front. *)
Definition out_frame (saddr daddr dev : Z) (bytes : list Z) : frame :=
  Frame saddr daddr dev bytes (out_ip inet_tos inet_ttl saddr daddr (length bytes)).
(** Allocations succeed, the device takes what it is given, and the socket has
    one. *)
Definition willing w : Prop :=
  skb_allocs w = [] /\ net_results w = [] /\ dev_addr (sk_bound_dev_if (sk w)) <> None.
(** At most one packet was added to the log, and one if [r] is not an error; it
    is none if nothing fails. *)
Definition logged (r : Z) (daddr : Z) (bytes : list Z) w w' : Prop :=
  (r < 0 -> sent w' = sent w) /\
  (0 <= r -> exists saddr dev, sent w' = sent w ++ [out_frame saddr daddr dev bytes]) /\
  (willing w -> 0 <= r).
Lemma willing_kept w w' : kept w w' -> willing w -> willing w'.
Proof.
  intros (P & _ & _ & A & N) (W1 & W2 & W3). split_and!; [auto..|].
  intros E. apply W3. rewrite <-E. f_equal. symmetry. exact (f_equal sk_bound_dev_if P).
Qed.

Lemma net_result_ok w (Q : Z -> salw TP -> Prop) :
  (forall r w1, sk w1 = sk w -> skbs w1 = skbs w -> next_skb w1 = next_skb w ->
     tp w1 = tp w -> outside w w1 -> sent w1 = sent w -> (net_results w = [] -> r = 0) -> Q r w1) ->
  wp net_result w Q.
Proof.
  intros HQ. unfold wp, net_result. destruct (net_results w) eqn:E; apply HQ; try done.
  unfold outside. by rewrite E.
Qed.

Lemma liftR_ok {A} (o : outcome A) a w (Q : A -> salw TP -> Prop) :
  o = Ok a -> Q a w -> wp (liftR o) w Q.
Proof. by intros -> ?. Qed.

(** [kept] through states that differ only outside the socket. *)
Lemma kept_ext w w1 w' :
  sk w1 = sk w -> tp w1 = tp w -> outside w w1 -> kept w1 w' -> kept w w'.
Proof. unfold kept. intros -> -> O (P & T & O1). split_and!; [done..|]. by eapply outside_trans. Qed.

Lemma ipv4_xmit_ok held base w i b :
  inv held base w -> i ∈ held -> skbs w !! i = Some b ->
  (IP_HLEN <= length (headroom (skb_buf b)))%nat ->
  wp (serval_ipv4_xmit i) w (fun r w' => inv (held ∖ {[ i ]}) base w' /\ kept w w' /\
    skbs w' = delete i (skbs w) /\
    logged r (inet_daddr (sk w)) (data (skb_buf b)) w w').
Proof.
  intros Hw Hi Hb Hr. unfold serval_ipv4_xmit. sal_step. eapply load_ok; [done|].
  sal_step. sal_step.
  destruct (if negb (skb_dev b =? 0) then _ else _) as [dev|] eqn:Hdev.
  2: { destruct (negb _); [done|]. destruct (dev_addr _) eqn:Hd; [done|]. clear Hdev. rename Hd into Hdev.
    sal_step. eapply wp_mono; [by apply (kfree_ok tp_held held base)|].
    intros _ w' (I & K & S & D). sal_step. split_and!; try done. split_and!; [done|done|].
    intros (_ & _ & Hd). by rewrite Hdev in Hd. }
  clear Hdev. destruct (fill_ok inet_tos inet_ttl (inet_saddr (sk w)) (inet_daddr (sk w)) dev (skb_buf b) Hr)
      as (buf & Hf & Hfr).
    sal_step. eapply liftR_ok; [exact Hf|]. sal_step. apply net_result_ok. intros r w1 E1 E2 E3 E4 E5 E6 E7. sal_step.
    destruct (Z.ltb_spec r 0); sal_step; sal_step;
      (eapply wp_mono; [eapply (kfree_ok tp_held held base)|]);
      [by eapply inv_ext|done| |by eapply inv_ext|done|];
      intros _ w' (I & K & S & D); sal_step; rsimp; rewrite <-E2;
      (split_and!; [done|by eapply kept_ext; [..|exact K]|done|]);
      (split_and!; [intros; try lia; congruence|intros; try lia|intros (_ & Hn & _); rewrite E7 in *; done]).
    eexists _, dev. rewrite S. rsimp. rewrite E6. by rewrite Hfr.
Qed.

Lemma build_ok' held base w i b :
  inv held base w -> i ∈ held -> skbs w !! i = Some b ->
  (HDR_ROOM <= length (headroom (skb_buf b)))%nat ->
  wp (build_and_check i) w (fun _ w' => inv held base w' /\ kept w w' /\
    sent w' = sent w /\
    exists hr, (IP_HLEN <= length hr)%nat /\
      skbs w' = <[i := b {{ skb_buf := Skb hr (wire_bytes (sk w) b) }}]> (skbs w)).
Proof.
  intros Hw Hi Hb Hr. destruct (iv_peer _ _ _ _ Hw) as [Hh _]. unfold HDR_ROOM in Hr.
  destruct (build_ok _ (SkbCb (skb_flags b) (skb_verno b)) (skb_buf b) Hh ltac:(lia))
    as (hr & exts & shl & c0 & c1 & _ & Hhr & He).
  unfold build_and_check. sal_step. eapply load_ok; [done|]. sal_step. sal_step. sal_step.
  eapply liftR_ok; [exact He|]. eapply store_ok; [done|].
  split; [by eapply inv_store; eauto|]. split; [done|]. split; [done|].
  exists hr. split; [lia|]. rsimp. unfold wire_bytes. by rewrite He.
Qed.

(** Updates that [proto] hides. *)
Lemma inv_upd_proto held base w f :
  inv held base w -> proto (f (sk w)) = proto (sk w) ->
  sk_refs (f (sk w)) - timers (f (sk w)) = sk_refs (sk w) - timers (sk w) ->
  inv held base (w {{ sk ::= f }}).
Proof.
  intros Hw Hp Hr. apply inv_upd_sk; try done.
  - exact (f_equal ctrl_queue Hp).
  - exact (f_equal ctrl_send_head Hp).
  - pose proof (f_equal sk_state Hp : sk_state (f (sk w)) = sk_state (sk w)) as E. congruence.
  - eapply peer_ok_proto; [symmetry; exact Hp|]. by apply (iv_peer _ _ _ _ Hw).
Qed.

Lemma count_sent_ok held base w (err : Z) :
  inv held base w ->
  wp (if err <? 0 then mret tt
      else
        upd_sk (fun s => s {{ tot_pkts_sent := u64 (tot_pkts_sent s + 1) }});;
        len ← derefM freed_len;
        upd_sk (fun s => s {{ tot_bytes_sent := u64 (tot_bytes_sent s + len) }})) w
    (fun _ w' => inv held base w' /\ kept w w' /\ skbs w' = skbs w /\ sent w' = sent w).
Proof.
  intros Hw. destruct (err <? 0); sal_step; [done|]. sal_step. sal_step.
  destruct stale_read as [len Hlen]. eapply wp_derefM; [exact Hlen|]. sal_step.
  split; [|done]. apply inv_upd_proto; [by apply inv_upd_proto|done..].
Qed.

Lemma dev_addr_ok held base w dev :
  inv held base w ->
  wp (dev_get_ipv4_addr dev) w (fun _ w' => inv held base w' /\ kept w w' /\
    skbs w' = skbs w /\ sent w' = sent w).
Proof.
  intros Hw. unfold dev_get_ipv4_addr. destruct (dev_addr dev); sal_step; [|done].
  split; [by apply inv_upd_proto|done].
Qed.

Lemma kept_upd w f w' :
  proto (f (sk w)) = proto (sk w) -> kept (w {{ sk ::= f }}) w' -> kept w w'.
Proof. intros Hf (K1 & K2 & K3). split; [|done]. rewrite K1. exact Hf. Qed.

(** Everything but migration packets. *)
Lemma do_xmit_plain held base w i b :
  inv held base w -> i ∈ held -> skbs w !! i = Some b ->
  (IP_HLEN <= length (headroom (skb_buf b)))%nat -> flag_set (skb_flags b) SVH_RSYN = false ->
  wp (serval_sal_do_xmit i) w (fun r w' => inv (held ∖ {[ i ]}) base w' /\ kept w w' /\
    skbs w' = delete i (skbs w) /\
    logged r (wire_daddr (sk w) b) (data (skb_buf b)) w w').
Proof.
  intros Hw Hi Hb Hr Hf. unfold serval_sal_do_xmit, wire_daddr. rewrite Hf. cbn [andb].
  sal_step. eapply load_ok; [done|]. rewrite Hf. sal_step. sal_step. sal_step. sal_step. sal_step.
  eapply wp_mono; [by apply (ipv4_xmit_ok held base)|].
  intros r w1 (I & K & D & L). sal_step. sal_step. sal_step.
  eapply wp_mono; [by apply (count_sent_ok (held ∖ {[ i ]}) base)|]. intros _ w2 (I2 & K2 & D2 & S2).
  sal_step. split_and!; [done|by eapply kept_trans|congruence|].
  destruct L as (L1 & L2 & L3). split_and!; [rewrite S2; done..|done].
Qed.

Lemma proto_daddr (s : ssock) a : proto (s {{ inet_daddr := a }}) = (proto s) {{ inet_daddr := a }}.
Proof. reflexivity. Qed.

(** A migration packet: the socket's addresses are changed around the
    transmission and restored. *)
Lemma mig_before held base w i b (a : option Z) :
  let recv := bool_decide (sal_state (sk w) = SAL_RSYN_RECV) in
  inv held base w -> i ∈ held -> skbs w !! i = Some b ->
  wp (match a with
      | Some a => upd_sk (fun s => s {{ inet_saddr := a }});;
                  skb_store i (b {{ skb_dev := mig_dev_if (sk w) }})
      | None => mret tt
      end;;
      if recv then upd_sk (fun s => s {{ inet_daddr := mig_daddr s }}) else mret tt) w
  (fun _ w1 => exists b1,
    inv held base w1 /\ skbs w1 = <[i := b1]> (skbs w) /\
    skb_buf b1 = skb_buf b /\
    proto (sk w1) = proto (if recv then (sk w) {{ inet_daddr := mig_daddr (sk w) }} else sk w) /\
    tp w1 = tp w /\ outside w w1 /\ sent w1 = sent w).
Proof.
  intros recv Hw Hi Hb. sal_step.
  eapply (wp_mono _ _ (fun _ w1 => exists b1,
    inv held base w1 /\ skbs w1 = <[i := b1]> (skbs w) /\
    skb_buf b1 = skb_buf b /\
    proto (sk w1) = proto (sk w) /\ tp w1 = tp w /\ outside w w1 /\ sent w1 = sent w)).
  - destruct a as [a|].
    + sal_step. sal_step. eapply store_ok; [done|]. exists (b {{ skb_dev := mig_dev_if (sk w) }}).
      split; [|done]. eapply inv_store; [by apply inv_upd_proto|done|done|by left].
    + sal_step. exists b. rewrite insert_id by done. done.
  - intros _ w1 (b1 & I & D & B & P & T & N & S). subst recv.
    destruct (decide (sal_state (sk w) = SAL_RSYN_RECV)) as [Hst|Hst].
    + rewrite !bool_decide_eq_true_2 by done. sal_step. exists b1.
      assert (peer_ok (sk w1)) as (P1 & P2 & P3) by apply I.
      assert (sal_state (sk w1) = SAL_RSYN_RECV) as Hs1
        by (rewrite <-Hst; exact (f_equal sal_state P)).
      split_and!; try done.
      * apply inv_upd_sk; try done. split; [done|]. rsimp. rewrite Hs1 in P3. split; auto.
      * rsimp. rewrite !proto_daddr, P. do 3 f_equal. exact (f_equal mig_daddr P).
    + rewrite !bool_decide_eq_false_2 by done. sal_step. by exists b1.
Qed.

Lemma mig_after held base w w0 (a : option Z) :
  let recv := bool_decide (sal_state (sk w0) = SAL_RSYN_RECV) in
  inv held base w -> inet_daddr (sk w0) <> 0 ->
  proto (sk w) = proto (if recv then (sk w0) {{ inet_daddr := mig_daddr (sk w0) }} else sk w0) ->
  wp (match a with
      | Some _ => s ← the_sk; dev_get_ipv4_addr (sk_bound_dev_if s)
      | None => mret tt
      end;;
      s ← the_sk;
      if bool_decide (sal_state s = SAL_RSYN_RECV)
      then upd_sk (fun s => s {{ inet_daddr := if recv then inet_daddr (sk w0) else 0 }})
      else mret tt) w
  (fun _ w' => inv held base w' /\ proto (sk w') = proto (sk w0) /\ tp w' = tp w /\
     outside w w' /\ skbs w' = skbs w /\ sent w' = sent w).
Proof.
  intros recv Hw Hd Hp. sal_step.
  eapply (wp_mono _ _ (fun _ w1 => inv held base w1 /\ kept w w1 /\ skbs w1 = skbs w /\
    sent w1 = sent w)).
  - destruct a; [|by sal_step]. sal_step. sal_step. by apply dev_addr_ok.
  - intros _ w1 (I & (K1 & K2 & K3) & D & S). sal_step. sal_step.
    rewrite Hp in K1.
    assert (sal_state (sk w1) = sal_state (sk w0)) as Hst.
    { pose proof (f_equal sal_state K1) as E. subst recv.
      by destruct (bool_decide (sal_state (sk w0) = SAL_RSYN_RECV)). }
    rewrite Hst. fold recv. destruct recv eqn:Hr; sal_step; split_and!; try done.
    + destruct (iv_peer _ _ _ _ I) as (P1 & P2 & P3). by apply inv_upd_sk.
    + rsimp. by rewrite !proto_daddr, K1.
Qed.

Lemma do_xmit_rsyn held base w i b :
  inv held base w -> i ∈ held -> skbs w !! i = Some b ->
  (IP_HLEN <= length (headroom (skb_buf b)))%nat -> flag_set (skb_flags b) SVH_RSYN = true ->
  wp (serval_sal_do_xmit i) w (fun r w' => inv (held ∖ {[ i ]}) base w' /\ kept w w' /\
    skbs w' = delete i (skbs w) /\
    logged r (wire_daddr (sk w) b) (data (skb_buf b)) w w').
Proof.
  intros Hw Hi Hb Hr Hf. unfold serval_sal_do_xmit, wire_daddr. rewrite Hf. cbn [andb].
  sal_step. eapply load_ok; [done|]. rewrite Hf. cbn [andb]. sal_step. sal_step.
  sal_step. eapply wp_mono; [by apply (mig_before held base)|]. cbv beta.
  intros _ w1 (b1 & I1 & D1 & B1 & P1 & T1 & N1 & S1).
  sal_step. eapply wp_mono; [eapply (ipv4_xmit_ok held base w1 i b1)|]; [done|done| | |].
  { rewrite D1. apply lookup_insert_eq. }
  { by rewrite B1. }
  intros r w2 (I2 & (K2 & T2 & N2) & D2 & L2). sal_step.
  eapply wp_mono; [apply (mig_after (held ∖ {[ i ]}) base w2 w)|]; [done|apply Hw| |].
  { by rewrite K2. }
  intros _ w3 (I3 & P3 & T3 & N3 & D3 & S3). sal_step.
  eapply wp_mono; [by apply (count_sent_ok (held ∖ {[ i ]}) base)|].
  intros _ w4 (I4 & (K4 & T4 & N4) & D4 & S4). sal_step.
  assert (inet_daddr (sk w1) = if bool_decide (sal_state (sk w) = SAL_RSYN_RECV)
    then mig_daddr (sk w) else inet_daddr (sk w)) as Hda.
  { pose proof (f_equal inet_daddr P1) as E.
    by destruct (bool_decide (sal_state (sk w) = SAL_RSYN_RECV)). }
  split_and!; [done| | |].
  - split_and!; [congruence..|]. do 3 (eapply outside_trans; [eassumption|]). done.
  - rewrite D4, D3, D2, D1. apply delete_insert_eq.
  - rewrite Hda, B1 in L2. destruct L2 as (L1 & L2 & L3). split_and!; [rewrite S4, S3, <-S1; done..|].
    intros (W1 & W2 & W3). apply L3. destruct N1 as (_ & A & N). split_and!; [auto..|].
    pose proof (f_equal sk_bound_dev_if P1 : sk_bound_dev_if (sk w1) = _) as E. rewrite E.
    by destruct (bool_decide _).
Qed.

Lemma do_xmit_ok held base w i b :
  inv held base w -> i ∈ held -> skbs w !! i = Some b ->
  (IP_HLEN <= length (headroom (skb_buf b)))%nat ->
  wp (serval_sal_do_xmit i) w (fun r w' => inv (held ∖ {[ i ]}) base w' /\ kept w w' /\
    skbs w' = delete i (skbs w) /\
    logged r (wire_daddr (sk w) b) (data (skb_buf b)) w w').
Proof.
  intros. destruct (flag_set (skb_flags b) SVH_RSYN) eqn:Hf;
    [by apply do_xmit_rsyn|by apply do_xmit_plain].
Qed.

Lemma direct_ok held base w :
  inv held base w ->
  sends_directly (sk_state (sk w)) || negb (inet_daddr (sk w) =? 0) = true.
Proof.
  intros Hw. destruct (iv_peer _ _ _ _ Hw) as (_ & Hd & _).
  rewrite (proj2 (Z.eqb_neq _ _) Hd). apply orb_true_r.
Qed.

Lemma wire_kept w w1 b :
  kept w w1 ->
  wire_daddr (sk w1) b = wire_daddr (sk w) b /\ wire_bytes (sk w1) b = wire_bytes (sk w) b.
Proof.
  intros [P _]. split.
  - exact (f_equal (fun s => wire_daddr s b) P).
  - exact (f_equal (fun s => wire_bytes s b) P).
Qed.

(** Build the header and hand the packet to the device. *)
Lemma push_ok' held base w i b :
  inv held base w -> i ∈ held -> skbs w !! i = Some b ->
  (HDR_ROOM <= length (headroom (skb_buf b)))%nat ->
  wp (build_and_check i;; serval_sal_do_xmit i) w (fun r w' =>
    inv (held ∖ {[ i ]}) base w' /\ kept w w' /\ skbs w' = delete i (skbs w) /\
    logged r (wire_daddr (sk w) b) (wire_bytes (sk w) b) w w').
Proof.
  intros Hw Hi Hb Hr. sal_step. eapply wp_mono; [by apply (build_ok' held base)|].
  intros _ w1 (I1 & K1 & S1 & hr & Hhr & D1).
  set (b1 := b {{ skb_buf := Skb hr (wire_bytes (sk w) b) }}) in *.
  eapply wp_mono; [apply (do_xmit_ok held base w1 i b1); try done|].
  { rewrite D1. apply lookup_insert_eq. }
  intros r w2 (I2 & K2 & D2 & L2). split_and!; [done|by eapply kept_trans| |].
  - rewrite D2, D1. apply delete_insert_eq.
  - change (wire_daddr (sk w1) b1) with (wire_daddr (sk w1) b) in L2.
    rewrite (proj1 (wire_kept _ _ b K1)) in L2. destruct L2 as (L1 & L2 & L3).
    split_and!; [rewrite <-S1; done..|]. intros Hwl. by apply L3, (willing_kept _ _ K1).
Qed.


(** [serval_sal_transmit_skb] without a copy consumes the buffer. *)
Lemma transmit_ok held base w i b :
  inv held base w -> i ∈ held -> skbs w !! i = Some b ->
  (HDR_ROOM <= length (headroom (skb_buf b)))%nat ->
  wp (serval_sal_transmit_skb ops i false) w (fun r w' =>
    inv (held ∖ {[ i ]}) base w' /\ kept w w' /\ skbs w' = delete i (skbs w) /\
    logged r (wire_daddr (sk w) b) (wire_bytes (sk w) b) w w').
Proof.
  intros Hw Hi Hb Hr. unfold serval_sal_transmit_skb. sal_step. eapply load_ok; [done|].
  sal_step. sal_step. sal_step. sal_step. rewrite (direct_ok held base w Hw).
  by apply push_ok'.
Qed.

(** With a copy the buffer stays where it is. *)
Lemma transmit_copy_ok held base w i b :
  inv held base w -> skbs w !! i = Some b ->
  (HDR_ROOM <= length (headroom (skb_buf b)))%nat ->
  wp (serval_sal_transmit_skb ops i true) w (fun r w' =>
    inv held base w' /\ kept w w' /\ skbs w' = skbs w /\
    logged r (wire_daddr (sk w) b) (wire_bytes (sk w) (copy_of b)) w w').
Proof.
  intros Hw Hb Hr. unfold serval_sal_transmit_skb. sal_step. eapply load_ok; [done|].
  apply wp_bind. eapply wp_mono; [by apply (copy_owned_ok tp_held held base)|].
  intros o w1 (K1 & S1 & Ho). destruct o as [c|].
  - destruct Ho as (I1 & Hn & Hf & D1). set (b1 := copy_of b) in *.
    sal_step. sal_step. rewrite (direct_ok ({[c]} ∪ held) base w1 I1).
    eapply wp_mono; [apply (push_ok' ({[c]} ∪ held) base w1 c b1); try done|].
    + set_solver.
    + rewrite D1. apply lookup_insert_eq.
    + unfold b1, copy_of. rsimp. by rewrite length_replicate.
    + intros r w2 (I2 & K2 & D2 & L2). split_and!.
      * by replace held with (({[c]} ∪ held) ∖ {[c]}) by set_solver.
      * by eapply kept_trans.
      * rewrite D2, D1. by apply delete_insert_id.
      * destruct (wire_kept _ _ b1 K1) as [E1 E2]. rewrite E1, E2 in L2.
        destruct L2 as (L1 & L2 & L3). split_and!; [rewrite <-S1; done..|].
        intros Hwl. by apply L3, (willing_kept _ _ K1).
  - destruct Ho as (I1 & D1 & Hne). sal_step. split_and!; try done. split_and!; [done|done|].
    by intros [? _].
Qed.
End Xmit.
