(* ===== verification/SalQueue.v ===== *)
(** * The control queue keeps the invariant

    Acknowledgements empty the one slot of the queue, new control packets
    replace what is in it, and retransmissions send a copy of it.  None of this
    faults or leaks a buffer. *)
From S2P Require Import Prelude Bst ServiceEntry ServiceTable SalHdr SalHdrProps.
From S2P Require Import Checksum SalSock Rto DelayQueue Sal SalCtrl SalState SalInv.
Local Open Scope Z_scope.

(** ** Timers as functions on the socket *)
Definition clear_xmit (s : ssock) : ssock :=
  match retransmit_timer s with
  | Some _ => s {{ pending := 0; retransmit_timer := None; sk_refs := sk_refs s - 1 }}
  | None => s {{ pending := 0 }}
  end.
Definition reset_xmit (t : Z) (s : ssock) : ssock :=
  let s := s {{ pending := 1; timeout := t; retransmit_timer := Some t;
                sk_refs := match retransmit_timer s with
                           | Some _ => sk_refs s | None => 1 + sk_refs s end }} in s.

(** [f] changes nothing but what [proto] hides, and keeps the balance of
    references and timers. *)
Definition balanced (f : ssock -> ssock) : Prop := forall s,
  proto (f s) = proto s /\ sk_refs (f s) - timers (f s) = sk_refs s - timers s.

Lemma clear_xmit_balanced : balanced clear_xmit.
Proof.
  intros s. unfold clear_xmit, timers. destruct (retransmit_timer s) eqn:E; split;
    try done; rsimp; rewrite ?E; unfold pend; lia.
Qed.
Lemma reset_xmit_balanced t : balanced (reset_xmit t).
Proof.
  intros s. unfold reset_xmit, timers. destruct (retransmit_timer s) eqn:E; split;
    try done; rsimp; unfold pend; lia.
Qed.

(** The estimator changes only round-trip fields. *)
Definition norm_rtt (s : ssock) : ssock :=
  s {{ rto := 0; srtt := 0; mdev := 0; mdev_max := 0; rttvar := 0; rtt_seq := 0;
       backoff := 0 }}.
Lemma rtt_update_norm m s : norm_rtt (rtt_update m s) = norm_rtt s.
Proof. destruct s. reflexivity. Qed.
Lemma rttvar_update_norm s : norm_rtt (rttvar_update s) = norm_rtt s.
Proof.
  unfold rttvar_update. destruct s. cbv zeta.
  repeat match goal with |- context [if ?b then _ else _] => destruct b end; reflexivity.
Qed.
Lemma estimator_norm m s : norm_rtt (serval_sal_rtt_estimator m s) = norm_rtt s.
Proof.
  unfold serval_sal_rtt_estimator. destruct (negb _).
  - by rewrite rttvar_update_norm, rtt_update_norm.
  - by destruct s.
Qed.
Lemma update_rtt_norm m s : norm_rtt (serval_sal_update_rtt m s) = norm_rtt s.
Proof.
  unfold serval_sal_update_rtt. rewrite <-(estimator_norm (u32 m) s).
  set (s' := serval_sal_rtt_estimator _ _). clearbody s'.
  unfold serval_sal_set_rto, serval_sal_bound_rto. destruct s'.
  destruct (_ <? _); reflexivity.
Qed.

Section Queue.
Context {TP : Type} {Hwf : TpWf TP} (tp_held : TP -> gset positive) `{SalEnv} {Hstale : StaleRead} (ops : af_ops TP).
Implicit Types (w : salw TP) (i : positive) (held : gset positive).
Abbreviation inv := (inv tp_held).

(** Updates of the socket compose. *)
Lemma upd_upd w f g :
  w {{ sk ::= f; sk ::= g }} = w {{ sk ::= (fun s => g (f s)) }}.
Proof. reflexivity. Qed.
Lemma upd_eq w f g : f (sk w) = g (sk w) -> w {{ sk ::= f }} = w {{ sk ::= g }}.
Proof. destruct w. cbn. by intros ->. Qed.

Lemma clear_xmit_run w (Q : unit -> salw TP -> Prop) :
  Q tt (w {{ sk ::= clear_xmit }}) -> wp serval_sock_clear_xmit_timer w Q.
Proof.
  intros HQ. unfold serval_sock_clear_xmit_timer, sk_stop_timer. sal_steps.
  assert (retransmit_timer (sk w{{sk ::= fun s => s {{pending := 0}}}}) =
          retransmit_timer (sk w)) as -> by done.
  destruct (retransmit_timer (sk w)) as [t|] eqn:Ht; sal_steps;
    match goal with |- Q tt ?x => replace x with (w {{ sk ::= clear_xmit }}); [done|] end;
    rewrite ?upd_upd; apply upd_eq; unfold clear_xmit; rewrite Ht; reflexivity.
Qed.

Lemma reset_xmit_run w when max (Q : unit -> salw TP -> Prop) :
  let t := u64 (now w + (if max <? when then max else when)) in
  Q tt (w {{ sk ::= reset_xmit t }}) -> wp (serval_sock_reset_xmit_timer when max) w Q.
Proof.
  intros t HQ. unfold serval_sock_reset_xmit_timer, sk_reset_timer. sal_steps.
  match goal with |- wp (match ?x with Some _ => _ | None => _ end) _ _ =>
    change x with (retransmit_timer (sk w)) end.
  destruct (retransmit_timer (sk w)) as [t'|] eqn:Ht; sal_steps;
    match goal with |- Q tt ?x => replace x with (w {{ sk ::= reset_xmit t }}); [done|] end;
    rewrite ?upd_upd; apply upd_eq; unfold reset_xmit; rewrite Ht; reflexivity.
Qed.

Lemma inv_balanced held base w f :
  inv held base w -> balanced f -> inv held base (w {{ sk ::= f }}) /\ kept w (w {{ sk ::= f }}).
Proof.
  intros Hw Hf. destruct (Hf (sk w)) as [Hp Hr]. split; [by apply inv_upd_proto|].
  split; [|done]. exact Hp.
Qed.

(** ** Emptying the slot *)

(** The fields the queue operations do not change. *)
Definition proto_q (s : ssock) : ssock :=
  (proto s) {{ ctrl_queue := None; ctrl_send_head := None; rto := 0; srtt := 0; mdev := 0;
     mdev_max := 0; rttvar := 0; rtt_seq := 0; backoff := 0; retransmits := 0 }}.

Lemma hdr_of_q s : hdr_of (proto_q s) = hdr_of s.
Proof. by destruct s. Qed.
Lemma peer_fields_q s :
  (inet_daddr (proto_q s), sal_state (proto_q s), mig_daddr (proto_q s), sock_dead (proto_q s))
  = (inet_daddr s, sal_state s, mig_daddr s, sock_dead s).
Proof. by destruct s. Qed.

Lemma peer_ok_q s s' : proto_q s = proto_q s' -> peer_ok s -> peer_ok s'.
Proof.
  intros Hp. unfold peer_ok. pose proof (peer_fields_q s) as E.
  pose proof (peer_fields_q s') as E'. rewrite Hp in E. rewrite E in E'.
  injection E' as E1 E2 E3 E4. rewrite <-(hdr_of_q s), Hp, (hdr_of_q s'), E1, E2, E3. done.
Qed.

Lemma inv_unlink held base w f i :
  inv held base w -> ctrl_queue (sk w) = Some i ->
  ctrl_queue (f (sk w)) = None -> ctrl_send_head (f (sk w)) = None ->
  sk_refs (f (sk w)) - timers (f (sk w)) = sk_refs (sk w) - timers (sk w) ->
  proto_q (f (sk w)) = proto_q (sk w) ->
  inv ({[ i ]} ∪ held) base (w {{ sk ::= f }}).
Proof.
  intros Hw Hq E1 E2 E3 E4. pose proof Hw as [H1 H2 H3 H4 H5 H6 H7 H8].
  rewrite Hq in *. unfold slot in H1, H2, H3.
  split; rsimp; rewrite ?E1, ?E2; unfold slot; [..|by eapply peer_ok_q|done].
  - rewrite H1. clear. set_solver.
  - clear -H2 H3. set_solver.
  - clear. set_solver.
  - done.
  - by left.
  - done.
  - lia.
Qed.

(** The socket after the slot was emptied of [b]. *)
Definition unlinked (t : Z) (all : bool) (b : sal_skb) (s : ssock) : ssock :=
  let s := s {{ ctrl_queue := None }} in
  let s := if flag_set (skb_flags b) SVH_RETRANS then s
           else if negb all
           then clear_xmit (serval_sal_update_rtt (s32 (u32 t - skb_when b)) s) else s in
  s {{ ctrl_send_head := None }}.

Lemma proto_queue s : ctrl_queue (proto s) = ctrl_queue s.
Proof. by destruct s. Qed.
Lemma norm_queue s : ctrl_queue (norm_rtt s) = ctrl_queue s.
Proof. by destruct s. Qed.
Lemma norm_refs s :
  sk_refs (norm_rtt s) - timers (norm_rtt s) = sk_refs s - timers s.
Proof. by destruct s. Qed.
Lemma proto_q_proto s : proto_q (proto s) = proto_q s.
Proof. by destruct s. Qed.
Lemma proto_q_norm s : proto_q (norm_rtt s) = proto_q s.
Proof. by destruct s. Qed.
Lemma queue_fields (s : ssock) o h :
  let s' := s {{ ctrl_queue := o; ctrl_send_head := h }} in
  ctrl_queue s' = o /\ ctrl_send_head s' = h /\
  sk_refs s' - timers s' = sk_refs s - timers s /\ proto_q s' = proto_q s.
Proof. by destruct s. Qed.
Lemma head_fields (s : ssock) h :
  let s' := s {{ ctrl_send_head := h }} in
  ctrl_queue s' = ctrl_queue s /\ ctrl_send_head s' = h /\
  sk_refs s' - timers s' = sk_refs s - timers s /\ proto_q s' = proto_q s.
Proof. by destruct s. Qed.
Lemma slot_fields (s : ssock) o :
  let s' := s {{ ctrl_queue := o }} in
  ctrl_queue s' = o /\ sk_refs s' - timers s' = sk_refs s - timers s /\
  proto_q s' = proto_q s.
Proof. by destruct s. Qed.

Lemma unlinked_ok t all b s :
  ctrl_queue (unlinked t all b s) = None /\ ctrl_send_head (unlinked t all b s) = None /\
  sk_refs (unlinked t all b s) - timers (unlinked t all b s) = sk_refs s - timers s /\
  proto_q (unlinked t all b s) = proto_q s.
Proof.
  unfold unlinked. cbv zeta. destruct (slot_fields s None) as (S1 & S2 & S3).
  set (s0 := s {{ ctrl_queue := None }}) in *. clearbody s0.
  assert (forall s1, ctrl_queue s1 = None -> sk_refs s1 - timers s1 = sk_refs s - timers s ->
    proto_q s1 = proto_q s -> let s2 := s1 {{ ctrl_send_head := None }} in
    ctrl_queue s2 = None /\ ctrl_send_head s2 = None /\
    sk_refs s2 - timers s2 = sk_refs s - timers s /\ proto_q s2 = proto_q s) as Hh.
  { intros s1 E1 E2 E3 s2. destruct (head_fields s1 None) as (F1 & F2 & F3 & F4).
    fold s2 in F1, F2, F3, F4. clearbody s2. split_and!; congruence. }
  destruct (flag_set _ _); [by apply Hh|]. destruct (negb all); [|by apply Hh].
  set (s1 := serval_sal_update_rtt _ _).
  assert (norm_rtt s1 = norm_rtt s0) as Hn by apply update_rtt_norm. clearbody s1.
  destruct (clear_xmit_balanced s1) as [Hp Hr]. apply Hh.
  - by rewrite <-proto_queue, Hp, proto_queue, <-norm_queue, Hn, norm_queue.
  - by rewrite Hr, <-norm_refs, Hn, norm_refs.
  - by rewrite <-proto_q_proto, Hp, proto_q_proto, <-proto_q_norm, Hn, proto_q_norm.
Qed.

Lemma clean_loop_none fuel ackno all flags w (Q : Z -> salw TP -> Prop) :
  ctrl_queue (sk w) = None -> Q flags w -> wp (clean_loop fuel ackno all flags) w Q.
Proof.
  intros Hq HQ. destruct fuel; cbn [clean_loop]; sal_steps;
    rewrite Hq; by sal_step.
Qed.

Lemma clean_loop_keep fuel ackno all flags w i b (Q : Z -> salw TP -> Prop) :
  ctrl_queue (sk w) = Some i -> skbs w !! i = Some b ->
  after ackno (skb_verno b) || all = false -> Q flags w ->
  wp (clean_loop fuel ackno all flags) w Q.
Proof.
  intros Hq Hb Ha HQ. destruct fuel; cbn [clean_loop]; sal_steps; rewrite Hq; sal_step; (eapply load_ok; [done|]); rewrite Ha; by sal_step.
Qed.

Lemma sample_run all b w (Q : unit -> salw TP -> Prop) :
  let f s := if flag_set (skb_flags b) SVH_RETRANS then s
             else if negb all
             then clear_xmit (serval_sal_update_rtt (s32 (u32 (now w) - skb_when b)) s)
             else s in
  ctrl_queue (sk w) = None -> Q tt (w {{ sk ::= f }}) ->
  wp (if flag_set (skb_flags b) SVH_RETRANS then mret tt
      else if negb all then
        upd_sk (serval_sal_update_rtt (s32 (u32 (now w) - skb_when b)));;
        serval_sal_rearm_rto
      else mret tt) w Q.
Proof.
  intros f Hq HQ. subst f.
  assert (w {{ sk ::= (fun s => s) }} = w) as Hid by (by destruct w).
  destruct (flag_set _ _); [sal_step; by rewrite Hid in HQ|].
  destruct (negb all); [|sal_step; by rewrite Hid in HQ].
  set (m := s32 _) in *. unfold serval_sal_rearm_rto. sal_steps.
  assert (ctrl_queue (sk (w {{ sk ::= serval_sal_update_rtt m }})) = None) as ->.
  { rsimp. by rewrite <-norm_queue, update_rtt_norm, norm_queue. }
  apply clear_xmit_run. rewrite upd_upd. exact HQ.
Qed.

Lemma advance_run i w (Q : unit -> salw TP -> Prop) :
  ctrl_queue (sk w) = None -> ctrl_send_head (sk w) = None \/ ctrl_send_head (sk w) = Some i ->
  Q tt (w {{ sk ::= (fun s => s {{ ctrl_send_head := None }}) }}) ->
  wp (if bool_decide (ctrl_send_head (sk w) = Some i) then serval_sal_advance_send_head i
      else mret tt) w Q.
Proof.
  intros Hq Hh HQ. destruct Hh as [Hh|Hh]; rewrite Hh.
  - rewrite bool_decide_eq_false_2 by done. sal_step.
    replace w with (w {{ sk ::= (fun s => s {{ ctrl_send_head := None }}) }}); [done|].
    destruct w as [s0]. cbn in *. f_equal. destruct s0. cbn in *. by subst.
  - rewrite bool_decide_eq_true_2 by done. sal_step.
    match goal with |- Q tt ?x =>
      replace x with (w {{ sk ::= (fun s => s {{ ctrl_send_head := None }}) }}); [done|] end.
    apply upd_eq. unfold serval_sal_skb_is_last. rewrite Hq.
    by rewrite bool_decide_eq_false_2.
Qed.

Lemma unlinked_head t all b s :
  ctrl_send_head (if flag_set (skb_flags b) SVH_RETRANS then s
     else if negb all
     then clear_xmit (serval_sal_update_rtt (s32 (u32 t - skb_when b)) s) else s)
  = ctrl_send_head s /\
  ctrl_queue (if flag_set (skb_flags b) SVH_RETRANS then s
     else if negb all
     then clear_xmit (serval_sal_update_rtt (s32 (u32 t - skb_when b)) s) else s)
  = ctrl_queue s.
Proof.
  destruct (flag_set _ _); [done|]. destruct (negb all); [|done].
  set (s1 := serval_sal_update_rtt _ _).
  assert (norm_rtt s1 = norm_rtt s) as Hn by apply update_rtt_norm. clearbody s1.
  destruct (clear_xmit_balanced s1) as [Hp _].
  assert (forall s, (ctrl_send_head (proto s), ctrl_queue (proto s)) =
    (ctrl_send_head s, ctrl_queue s)) as E1 by (clear; intros s; by destruct s).
  assert (forall s, (ctrl_send_head (norm_rtt s), ctrl_queue (norm_rtt s)) =
    (ctrl_send_head s, ctrl_queue s)) as E2 by (clear; intros s; by destruct s).
  enough ((ctrl_send_head (clear_xmit s1), ctrl_queue (clear_xmit s1)) =
    (ctrl_send_head s, ctrl_queue s)) as E by by injection E.
  by rewrite <-E1, Hp, E1, <-E2, Hn, E2.
Qed.

(** One round empties the slot. *)
Lemma clean_loop_take fuel ackno all w i b (Q : Z -> salw TP -> Prop) :
  ctrl_queue (sk w) = Some i -> skbs w !! i = Some b ->
  ctrl_send_head (sk w) = None \/ ctrl_send_head (sk w) = Some i ->
  after ackno (skb_verno b) || all = true ->
  wp (kfree_skb i) (w {{ sk ::= unlinked (now w) all b }})
    (fun _ w' => ctrl_queue (sk w') = None /\ Q (u8 (skb_flags b)) w') ->
  wp (clean_loop (S fuel) ackno all 0) w Q.
Proof.
  intros Hq Hb Hh Ha HQ.
  assert (forall f, f (sk w) = unlinked (now w) all b (sk w) ->
    wp (kfree_skb i;;
        head ← serval_sal_ctrl_queue_head;
        (match head with
         | Some j => b' ← skb_load j; upd_sk (fun s => s {{ snd_una := skb_verno b' }})
         | None => mret tt
         end);;
        clean_loop fuel ackno all (u8 (Z.lor 0 (skb_flags b))))
      (w {{ sk ::= f }}) Q) as Hend.
  { intros f E. rewrite (upd_eq w f _ E). sal_step. eapply wp_mono; [exact HQ|].
    intros _ w' [Hq' HQ']. sal_steps. rewrite Hq'. sal_step.
    by apply clean_loop_none. }
  cbn [clean_loop]. sal_steps. rewrite Hq.
  sal_step. eapply load_ok; [done|]. rewrite Ha. sal_step. sal_step. sal_step. sal_step. sal_step.
  rewrite (upd_eq w _ (fun s => s {{ ctrl_queue := None }}))
    by (by rewrite Hq, bool_decide_eq_true_2).
  set (w1 := w {{ sk ::= (fun s => s {{ ctrl_queue := None }}) }}).
  apply (sample_run all b w1); [done|]. sal_step. sal_step. sal_step.
  destruct (unlinked_head (now w1) all b (sk w1)) as [E1 E2].
  apply advance_run; [rsimp; by rewrite E2|rsimp; by rewrite E1|].
  unfold w1. rewrite !upd_upd. by apply Hend.
Qed.

(** What cleaning the queue does. *)
Definition cleaned (ackno : Z) (all : bool) (flags : Z) w w' : Prop :=
  proto_q (sk w') = proto_q (sk w) /\ tp w' = tp w /\ outside w w' /\ sent w' = sent w /\
  match ctrl_queue (sk w) with
  | Some i =>
      exists b, skbs w !! i = Some b /\
      if after ackno (skb_verno b) || all
      then ctrl_queue (sk w') = None /\ flags = u8 (skb_flags b) /\
           skbs w' = delete i (skbs w)
      else ctrl_queue (sk w') = Some i /\ flags = 0 /\ skbs w' = skbs w
  | None => ctrl_queue (sk w') = None /\ flags = 0 /\ skbs w' = skbs w
  end.

Lemma inv_slot held base w i :
  inv held base w -> ctrl_queue (sk w) = Some i -> exists b, skbs w !! i = Some b /\
    skb_owned b = true /\ (HDR_ROOM <= length (headroom (skb_buf b)))%nat.
Proof.
  intros Hw Hq. assert (i ∈ dom (skbs w)) as [b Hb]%elem_of_dom.
  { rewrite (iv_dom _ _ _ _ Hw), Hq. unfold slot. clear. set_solver. }
  exists b. split; [done|]. by apply (iv_slot _ _ _ _ Hw i b).
Qed.

Lemma proto_q_kept w w' : kept w w' -> proto_q (sk w') = proto_q (sk w).
Proof. intros [Hp _]. by rewrite <-proto_q_proto, Hp, proto_q_proto. Qed.
Lemma queue_kept w w' : kept w w' -> ctrl_queue (sk w') = ctrl_queue (sk w).
Proof. intros [Hp _]. by rewrite <-proto_queue, Hp, proto_queue. Qed.

Lemma clean_loop_ok held base w ackno all :
  inv held base w ->
  wp (clean_loop 2 ackno all 0) w (fun flags w' => inv held base w' /\
    cleaned ackno all flags w w').
Proof.
  intros Hw. destruct (ctrl_queue (sk w)) as [i|] eqn:Hq.
  - destruct (inv_slot _ _ _ _ Hw Hq) as (b & Hb & Ho & Hr).
    destruct (after ackno (skb_verno b) || all) eqn:Ha.
    + destruct (unlinked_ok (now w) all b (sk w)) as (U1 & U2 & U3 & U4).
      assert (inv ({[ i ]} ∪ held) base (w {{ sk ::= unlinked (now w) all b }})) as HI
        by (by apply inv_unlink).
      eapply clean_loop_take; [done|done| |done|].
      { destruct (iv_head _ _ _ _ Hw) as [->|[->|[E _]]]; [by left|by right|congruence]. }
      eapply wp_mono; [apply (kfree_ok tp_held ({[ i ]} ∪ held) base); [exact HI|clear; set_solver]|].
      intros _ w' (I & K & S & D). pose proof (queue_kept _ _ K) as Kq.
      pose proof (proto_q_kept _ _ K) as Kp. destruct K as (_ & Kt & Kn).
      record.simp_hyp Kq. record.simp_hyp Kp. rewrite U1 in Kq. rewrite U4 in Kp.
      assert (({[i]} ∪ held) ∖ {[i]} = held) as Hset.
      { pose proof (fun H => inv_not_slot _ _ _ _ i Hw H Hq) as Hni. clear -Hni. set_solver. }
      rewrite Hset in I. unfold cleaned. rewrite Hq. split_and!; try done.
      exists b. rewrite Ha. done.
    + eapply clean_loop_keep; [done|done|done|]. split; [done|]. unfold cleaned.
      rewrite Hq. split_and!; try done. exists b. rewrite Ha. done.
  - apply clean_loop_none; [done|]. split; [done|]. unfold cleaned. rewrite Hq. done.
Qed.

Lemma clear_xmit_ok held base w :
  inv held base w ->
  wp serval_sock_clear_xmit_timer w (fun _ w' => inv held base w' /\ kept w w' /\
    skbs w' = skbs w /\ sent w' = sent w).
Proof.
  intros Hw. apply clear_xmit_run.
  destruct (inv_balanced held base w clear_xmit Hw clear_xmit_balanced). done.
Qed.
Lemma reset_xmit_ok held base w when max :
  inv held base w ->
  wp (serval_sock_reset_xmit_timer when max) w (fun _ w' => inv held base w' /\ kept w w' /\
    skbs w' = skbs w /\ sent w' = sent w /\ retransmit_timer (sk w') <> None).
Proof.
  intros Hw. apply reset_xmit_run. set (t := u64 _).
  destruct (inv_balanced held base w (reset_xmit t) Hw (reset_xmit_balanced t)). done.
Qed.

Lemma cleaned_kept ackno all flags w w1 w' :
  cleaned ackno all flags w w1 -> kept w1 w' -> skbs w' = skbs w1 -> sent w' = sent w1 ->
  cleaned ackno all flags w w'.
Proof.
  intros (C1 & C2 & C3 & C4 & C5) K D S. pose proof (proto_q_kept _ _ K) as Kp.
  pose proof (queue_kept _ _ K) as Kq. destruct K as (_ & K2 & K3).
  unfold cleaned. rewrite Kp, Kq, K2, S, D. split_and!; try done. by eapply outside_trans.
Qed.

Lemma clean_rtx_ok held base w ackno all :
  inv held base w ->
  wp (serval_sal_clean_rtx_queue ackno all) w (fun flags w' => inv held base w' /\
    cleaned ackno all flags w w').
Proof.
  intros Hw. unfold serval_sal_clean_rtx_queue. sal_steps.
  eapply wp_mono; [by apply (clean_loop_ok held base)|]. intros flags w1 [I1 C1]. sal_steps.
  eapply (wp_mono _ _ (fun _ w2 => inv held base w2 /\ cleaned ackno all flags w w2)).
  - destruct (bool_decide _); [|by sal_step]. sal_step.
    eapply wp_mono; [by apply (clear_xmit_ok held base)|]. intros _ w2 (I2 & K2 & D2 & S2).
    pose proof (cleaned_kept _ _ _ _ _ _ C1 K2 D2 S2) as (C & C' & C'' & C3 & C4).
    sal_step. split.
    + destruct (iv_peer _ _ _ _ I2) as (P1 & P2 & P3). by apply inv_upd_sk.
    + unfold cleaned. rsimp. split_and!; try done.
  - intros _ w2 [I2 C2]. sal_steps. 
    eapply (wp_mono _ _ (fun _ w3 => inv held base w3 /\ cleaned ackno all flags w w3)).
    + destruct (ctrl_queue (sk w1)); [|by sal_step].
      eapply wp_mono; [by apply (reset_xmit_ok held base)|]. intros _ w3 (I3 & K3 & D3 & S3 & _).
      split; [done|]. by eapply cleaned_kept.
    + intros _ w3 HH. by sal_step.
Qed.

(** ** Filling the slot *)
Definition proto_u (s : ssock) : ssock := (proto_q s) {{ snd_una := 0 }}.

Lemma write_none fuel limit num err w (Q : Z -> salw TP -> Prop) :
  ctrl_send_head (sk w) = None -> Q err w -> wp (write_loop ops fuel limit num err) w Q.
Proof.
  intros Hh HQ. destruct fuel; cbn [write_loop]; sal_steps; rewrite Hh; by sal_step.
Qed.

(** Sending what was queued: a copy goes out when the window allows. *)
Lemma write_loop_ok fuel held base w i b :
  inv held base w -> ctrl_queue (sk w) = Some i -> ctrl_send_head (sk w) = Some i ->
  skbs w !! i = Some b ->
  wp (write_loop ops (S fuel) 1 0 0) w (fun r w' => inv held base w' /\
    ctrl_queue (sk w') = Some i /\ proto_q (sk w') = proto_q (sk w) /\ tp w' = tp w /\
    outside w w' /\
    (exists b', skbs w' = <[i := b']> (skbs w) /\ skb_flags b' = skb_flags b /\
       skb_verno b' = skb_verno b) /\
    if u32 (snd_nxt (sk w) - snd_una (sk w)) <=? snd_wnd (sk w)
    then logged r (wire_daddr (sk w) b) (wire_bytes (sk w) (copy_of b)) w w'
    else r = 0 /\ sent w' = sent w).
Proof.
  intros Hw Hq Hh Hb. destruct (inv_slot _ _ _ _ Hw Hq) as (b0 & Hb0 & Ho & Hr).
  rewrite Hb in Hb0. injection Hb0 as <-.
  cbn [write_loop]. sal_steps. rewrite Hh.
  destruct (u32 _ <=? snd_wnd (sk w)) eqn:Hwnd; cbn [negb orb andb Nat.eqb].
  2: { sal_step. split_and!; try done. exists b. by rewrite insert_id. }
  sal_steps. eapply load_ok; [done|]. sal_step. eapply store_ok; [done|].
  set (b1 := b {{ skb_when := u32 (now w) }}). set (w1 := w {{ skbs ::= <[i := b1]> }}).
  assert (inv held base w1) as I1 by (eapply inv_store; eauto).
  sal_step. eapply wp_mono; [apply (transmit_copy_ok tp_held ops held base w1 i b1); [done| |done]|].
  { apply lookup_insert_eq. }
  intros r w2 (I2 & K2 & D2 & L2). change (sk w1) with (sk w) in L2.
  change (wire_daddr (sk w) b1) with (wire_daddr (sk w) b) in L2.
  change (wire_bytes (sk w) (copy_of b1)) with (wire_bytes (sk w) (copy_of b)) in L2.
  assert (logged r (wire_daddr (sk w) b) (wire_bytes (sk w) (copy_of b)) w w2) as L by exact L2.
  pose proof (queue_kept _ _ K2) as Kq. change (sk w1) with (sk w) in Kq. rewrite Hq in Kq.
  pose proof (proto_q_kept _ _ K2) as Kp. change (sk w1) with (sk w) in Kp.
  destruct K2 as (P2 & T2 & N2).
  destruct (r <? 0).
  - sal_step. split_and!; try done. by exists b1.
  - sal_steps. apply write_none.
    + rsimp. unfold serval_sal_skb_is_last. by rewrite Kq, bool_decide_eq_true_2.
    + assert (forall s, ctrl_queue s = Some i ->
        (if serval_sal_skb_is_last i s then s {{ ctrl_send_head := None }}
         else s {{ ctrl_send_head := ctrl_queue s }}) = s {{ ctrl_send_head := None }}) as E.
      { intros s Hs. unfold serval_sal_skb_is_last. by rewrite Hs, bool_decide_eq_true_2. }
      rewrite (upd_eq w2 _ (fun s => s {{ ctrl_send_head := None }})) by (by apply E).
      destruct (head_fields (sk w2) None) as (F1 & F2 & F3 & F4).
      rsimp. split_and!; try done.
      * destruct I2 as [H1 H2 H3 H4 H5 H6 H7 H8]. split; try done. by left.
      * by exists b1.
Qed.

(** A held buffer moves into the empty slot. *)
Lemma inv_enqueue held base w i b f :
  inv held base w -> i ∈ held -> skbs w !! i = Some b -> skb_owned b = true ->
  (HDR_ROOM <= length (headroom (skb_buf b)))%nat -> ctrl_queue (sk w) = None ->
  ctrl_queue (f (sk w)) = Some i -> ctrl_send_head (f (sk w)) = Some i ->
  sk_refs (f (sk w)) - timers (f (sk w)) = sk_refs (sk w) - timers (sk w) ->
  proto_u (f (sk w)) = proto_u (sk w) ->
  inv (held ∖ {[ i ]}) base (w {{ sk ::= f }}).
Proof.
  intros Hw Hi Hb Ho Hr Hq E1 E2 E3 E4. pose proof Hw as [H1 H2 H3 H4 H5 H6 H7 H8].
  rewrite Hq in *. unfold slot in H1, H2, H3.
  assert (forall s, peer_ok (proto_u s) <-> peer_ok s) as Hu by (clear; intros s; by destruct s).
  split; rsimp; rewrite ?E1, ?E2; unfold slot.
  - rewrite H1. clear -Hi. intros. apply set_eq. intros j.
    rewrite !elem_of_union, elem_of_difference, elem_of_singleton, elem_of_empty.
    destruct (decide (j = i)) as [->|]; tauto.
  - clear -H2. set_solver.
  - clear -H2 Hi. set_solver.
  - done.
  - right. by left.
  - intros j c [= <-] Hj. rewrite Hb in Hj. by injection Hj as <-.
  - lia.
  - apply (proj1 (Hu (f (sk w)))). rewrite E4. by apply (proj2 (Hu (sk w))).
  - done.
Qed.

Lemma proto_u_q s : proto_u s = (proto_q s) {{ snd_una := 0 }}.
Proof. done. Qed.

(** The socket after [i] was put into the empty slot. *)
Definition enqueued i (verno : Z) (s : ssock) : ssock :=
  s {{ ctrl_queue := Some i; ctrl_send_head := Some i; snd_una := verno }}.
Lemma enqueued_ok i verno s :
  let s' := enqueued i verno s in
  ctrl_queue s' = Some i /\ ctrl_send_head s' = Some i /\ snd_una s' = verno /\
  sk_refs s' - timers s' = sk_refs s - timers s /\ proto_u s' = proto_u s /\
  snd_nxt s' = snd_nxt s /\ snd_wnd s' = snd_wnd s.
Proof. by destruct s. Qed.

Lemma queue_ctrl_run w i b (Q : unit -> salw TP -> Prop) :
  ctrl_send_head (sk w) = None -> skbs w !! i = Some b ->
  Q tt (w {{ sk ::= enqueued i (skb_verno b) }}) -> wp (serval_sal_queue_ctrl_skb i) w Q.
Proof.
  intros Hh Hb HQ. unfold serval_sal_queue_ctrl_skb. sal_step. sal_step. sal_step.
  rewrite (upd_eq w _ (fun s => s {{ ctrl_queue := Some i; ctrl_send_head := Some i }}))
    by (cbv zeta; rsimp; by rewrite Hh).
  eapply load_ok; [done|]. sal_steps. rewrite bool_decide_eq_true_2 by done. sal_step. exact HQ.
Qed.

(** What queueing and pushing a control packet does: the slot holds it, with the
    flags of the packet it replaces, and a copy is sent if the window allows. *)
Definition pushed i (b : sal_skb) (flags r : Z) w w' : Prop :=
  let b1 := b {{ skb_flags := u8 (Z.lor (skb_flags b) flags) }} in
  ctrl_queue (sk w') = Some i /\ proto_u (sk w') = proto_u (sk w) /\
  snd_una (sk w') = skb_verno b /\ tp w' = tp w /\ outside w w' /\
  (exists b', skbs w' !! i = Some b' /\ skb_flags b' = skb_flags b1 /\
     skb_verno b' = skb_verno b) /\
  if u32 (snd_nxt (sk w) - skb_verno b) <=? snd_wnd (sk w)
  then logged r (wire_daddr (sk w) b1) (wire_bytes (sk w) (copy_of b1)) w w'
  else r = 0 /\ sent w' = sent w.

(** The flags of the packet in the slot. *)
Definition slot_flags w : Z :=
  match ctrl_queue (sk w) with
  | Some i => match skbs w !! i with Some b => u8 (skb_flags b) | None => 0 end
  | None => 0
  end.

Lemma cleaned_all ackno flags w w1 :
  cleaned ackno true flags w w1 ->
  ctrl_queue (sk w1) = None /\ flags = slot_flags w /\
  forall i, ctrl_queue (sk w) <> Some i -> skbs w1 !! i = skbs w !! i.
Proof.
  intros (_ & _ & _ & _ & C). unfold slot_flags. destruct (ctrl_queue (sk w)) as [j|].
  - destruct C as (b & Hb & C). rewrite orb_true_r in C. destruct C as (C1 & C2 & C3).
    rewrite Hb. split_and!; try done. intros i Hi. rewrite C3, lookup_delete_ne; congruence.
  - destruct C as (C1 & C2 & C3). split_and!; try done. intros. by rewrite C3.
Qed.

Lemma u_of_q s s' : proto_q s = proto_q s' -> proto_u s = proto_u s'.
Proof. intros E. unfold proto_u. by rewrite E. Qed.
Lemma wire_u s s' b :
  proto_u s = proto_u s' ->
  wire_daddr s b = wire_daddr s' b /\ wire_bytes s b = wire_bytes s' b /\
  snd_nxt s = snd_nxt s' /\ snd_wnd s = snd_wnd s'.
Proof.
  assert (forall s, wire_daddr (proto_u s) b = wire_daddr s b /\
    wire_bytes (proto_u s) b = wire_bytes s b /\ snd_nxt (proto_u s) = snd_nxt s /\
    snd_wnd (proto_u s) = snd_wnd s) as Hu by (clear; intros s; by destruct s).
  intros E. destruct (Hu s) as (<- & <- & <- & <-), (Hu s') as (<- & <- & <- & <-).
  by rewrite E.
Qed.

Lemma state_q s s' : proto_q s = proto_q s' -> sk_state s = sk_state s'.
Proof.
  assert (forall s, sk_state (proto_q s) = sk_state s) as Hv by (clear; intros s; by destruct s).
  intros E. by rewrite <-(Hv s), <-(Hv s'), E.
Qed.

Lemma queue_and_push_ok held base w i b :
  inv held base w -> sk_state (sk w) <> SAL_CLOSED -> i ∈ held -> skbs w !! i = Some b -> skb_owned b = true ->
  (HDR_ROOM <= length (headroom (skb_buf b)))%nat ->
  wp (serval_sal_queue_and_push ops i) w (fun r w' => inv (held ∖ {[ i ]}) base w' /\
    pushed i b (slot_flags w) r w w').
Proof.
  intros Hw Hst Hi Hb Ho Hr. unfold serval_sal_queue_and_push. sal_step.
  eapply wp_mono; [by apply (clean_rtx_ok held base)|]. intros flags w1 [I1 C1].
  destruct (cleaned_all _ _ _ _ C1) as (Hq1 & -> & Hsame).
  destruct C1 as (P1 & T1 & N1 & S1 & _). set (fl := slot_flags w).
  assert (skbs w1 !! i = Some b) as Hb1.
  { rewrite Hsame; [done|]. by eapply inv_not_slot. }
  assert (ctrl_send_head (sk w1) = None) as Hh1.
  { destruct (iv_head _ _ _ _ I1) as [->|[->|[_ E]]]; [done|done|].
    by rewrite (state_q _ _ P1) in E. }
  sal_step. eapply load_ok; [done|]. sal_step. eapply store_ok; [done|].
  set (b1 := b {{ skb_flags := u8 (Z.lor (skb_flags b) fl) }}).
  set (w2 := w1 {{ skbs ::= <[i := b1]> }}).
  assert (inv held base w2) as I2 by (eapply inv_store; eauto).
  assert (skbs w2 !! i = Some b1) as Hb2 by apply lookup_insert_eq.
  sal_step. eapply (queue_ctrl_run w2 i b1); [done|done|].
  destruct (enqueued_ok i (skb_verno b1) (sk w2)) as (Q1 & Q2 & Q3 & Q4 & Q5 & Q6 & Q7).
  assert (inv (held ∖ {[ i ]}) base (w2 {{ sk ::= enqueued i (skb_verno b1) }})) as I3
    by (by eapply inv_enqueue).
  set (w3 := w2 {{ sk ::= enqueued i (skb_verno b1) }}) in *.
  change (enqueued i (skb_verno b1) (sk w2)) with (sk w3) in Q1, Q2, Q3, Q4, Q5, Q6, Q7.
  change (sk w2) with (sk w1) in Q5, Q6, Q7.
  sal_steps. rewrite Q1, bool_decide_eq_true_2 by done.
  eapply wp_mono; [by apply (reset_xmit_ok (held ∖ {[ i ]}) base)|].
  intros _ w4 (I4 & K4 & D4 & S4 & _).
  pose proof (queue_kept _ _ K4) as Kq. pose proof (proto_q_kept _ _ K4) as Kp.
  pose proof (wire_u _ _ b1 (u_of_q _ _ Kp)) as (_ & _ & Kn & Kw).
  assert (ctrl_send_head (sk w4) = Some i /\ snd_una (sk w4) = skb_verno b) as [Kh Ku].
  { assert (forall s, (ctrl_send_head (proto s), snd_una (proto s)) =
      (ctrl_send_head s, snd_una s)) as E by (clear; intros s; by destruct s).
    destruct K4 as [K4 _]. pose proof (E (sk w4)) as E4. rewrite K4, E, Q2, Q3 in E4.
    by injection E4. }
  rewrite Q1 in Kq.
  assert (proto_u (sk w4) = proto_u (sk w)) as Hu.
  { rewrite (u_of_q _ _ Kp), Q5. by apply u_of_q. }
  destruct (wire_u _ _ b1 Hu) as (U1 & _ & U3 & U4).
  destruct (wire_u _ _ (copy_of b1) Hu) as (_ & U2 & _).
  assert (skbs w4 !! i = Some b1) as Hb4 by (by rewrite D4).
  eapply wp_mono; [by apply (write_loop_ok 1 (held ∖ {[ i ]}) base w4 i b1)|].
  intros r w5 (I5 & Hq5 & P5 & T5 & N5 & (b' & D5 & F5 & V5) & L5).
  split; [done|]. unfold pushed.
  destruct K4 as (_ & T4 & N4).
  split_and!; try done.
  - by rewrite (u_of_q _ _ P5).
  - assert (forall s, snd_una (proto_q s) = snd_una s) as E by (clear; intros s; by destruct s).
    by rewrite <-E, P5, E.
  - rewrite T5, T4. exact T1.
  - eapply outside_trans; [exact N1|]. by eapply outside_trans; [exact N4|].
  - exists b'. by rewrite D5, lookup_insert_eq.
  - fold fl. fold b1. rewrite Ku, U3, U4, U1, U2 in L5. destruct (_ <=? _).
    + destruct L5 as (L1 & L2 & L3). split_and!;
        [rewrite <-S1; change (sent w1) with (sent w3); rewrite <-S4; done..|].
      intros (W1 & W2 & W3). apply L3. destruct N1 as (_ & A1 & B1), N4 as (_ & A4 & B4).
      split_and!; [auto..|]. assert (forall s, sk_bound_dev_if (proto_u s) = sk_bound_dev_if s) as E
        by (clear; intros s; by destruct s).
      by rewrite <-E, Hu, E.
    + destruct L5 as [-> L5]. split; [done|]. rewrite L5, S4. exact S1.
Qed.
End Queue.
