(* ===== verification/SalStep.v ===== *)
(** * Steps of an established connection

    Receiving any packet in a state of an established connection runs to
    completion, consumes the packet, keeps the invariant of [SalInv], and moves
    the connection along the protocol's transition relation [sal_trans]. *)

(** * The connection state machine keeps the invariant

    What a transport protocol promises the SAL, what the senders and the
    acknowledgement processing do, and that processing any packet in any state
    of an established connection neither faults nor leaks the packet. *)
From S2P Require Import Prelude Bst ServiceEntry ServiceTable SalHdr SalHdrProps.
From S2P Require Import Checksum SalSock Rto DelayQueue Sal SalCtrl SalState SalInv SalQueue.
Local Open Scope Z_scope.

Definition with_mig {TP} (a : Z) (w : salw TP) : salw TP :=
  w {{ sk ::= (fun s => s {{ mig_daddr := a }}) }}.

(** ** The transport's promise: its callbacks keep the invariant, consume the
    packets they receive, and do not touch the protocol state of the SAL. *)
Class TransportOk {TP : Type} `{TpWf TP} (tp_held : TP -> gset positive) (ops : af_ops TP) : Prop := {
  to_receive : forall held base w i, inv tp_held held base w -> i ∈ held ->
    wp (receive ops i) w (fun _ w' => inv tp_held (held ∖ {[ i ]}) base w' /\
      proto (sk w') = proto (sk w) /\ sent w' = sent w);
  to_respond : forall f held base w i, respond_state_process ops = Some f ->
    inv tp_held held base w -> i ∈ held ->
    wp (f i) w (fun r w' => inv tp_held (if r =? 0 then held else held ∖ {[ i ]}) base w' /\
      proto (sk w') = proto (sk w) /\ sent w' = sent w);
  to_plain : forall f held base w,
    migration_completed ops = Some f -> inv tp_held held base w ->
    wp f w (fun _ w' => inv tp_held held base w' /\ proto (sk w') = proto (sk w) /\
      sent w' = sent w);
  (* called before the address of the migrating peer is stored *)
  to_freeze : forall f held base w a,
    freeze_flow ops = Some f -> inv tp_held held base (with_mig a w) ->
    wp f w (fun _ w' => inv tp_held held base (with_mig a w') /\
      proto (sk w') = proto (sk w) /\ sent w' = sent w);
  to_done : forall f held base w,
    af_done ops = Some f \/ prot_destroy ops = Some f \/ Some (kill_queues ops) = Some f ->
    inv tp_held held base w ->
    wp f w (fun _ w' => inv tp_held held base w' /\ proto (sk w') = proto (sk w) /\
      sent w' = sent w);
}.

(** The header bytes the code reads are there, and the packet has a source. *)
Definition pkt_ok (p : inpkt) : Prop :=
  (forall e, c_ctrl_ext (in_ctx p) = Some e -> (e + 20 <= length (in_hdr p))%nat) /\
  in_saddr p <> 0.

(** A timer of the socket: stopping and resetting it moves one reference. *)
Class IsTimer (get : ssock -> option Z) (set : option Z -> ssock -> ssock) : Prop := {
  timer_set : forall o s, get (set o s) = o /\ proto (set o s) = proto s /\
    sk_refs (set o s) = sk_refs s /\ timers (set o s) = timers s - pend (get s) + pend o;
  timer_refs : forall r s, get (s {{ sk_refs := r }}) = get s;
}.
#[export] Instance retransmit_is_timer : IsTimer retransmit_timer set_retransmit_timer.
Proof. split; [|done]. intros o s. unfold timers, set_retransmit_timer. rsimp. split_and!; try done; lia. Qed.
#[export] Instance tw_is_timer : IsTimer tw_timer set_tw_timer.
Proof. split; [|done]. intros o s. unfold timers, set_tw_timer. rsimp. split_and!; try done; lia. Qed.
#[export] Instance sk_is_timer : IsTimer sk_timer set_sk_timer.
Proof. split; [|done]. intros o s. unfold timers, set_sk_timer. rsimp. split_and!; try done; lia. Qed.

Section Conn.
Context {TP : Type} {Hwf : TpWf TP} (tp_held : TP -> gset positive) `{SalEnv} {Hstale : StaleRead} (ops : af_ops TP).
Context (Hops : TransportOk tp_held ops) (Hroom : (HDR_ROOM <= max_header)%nat).
Implicit Types (w : salw TP) (i : positive) (held : gset positive) (p : inpkt).
Abbreviation inv := (inv tp_held).

(** ** ACKs *)
Definition ctrl_skb (flags verno : Z) : sal_skb :=
  SalSkb flags verno 0 (Skb (replicate max_header 0) []) true 0.
(** A pure ACK was sent, unless an error is returned. *)
Definition ack_sent (r : Z) w w' : Prop :=
  logged r (inet_daddr (sk w)) (wire_bytes (sk w) (ctrl_skb SVH_ACK (snd_nxt (sk w)))) w w'.

Lemma set_cb_ok w i b flags verno (Q : unit -> salw TP -> Prop) :
  skbs w !! i = Some b ->
  Q tt (w {{ skbs ::= <[i := b {{ skb_flags := flags; skb_verno := verno }}]> }}) ->
  wp (set_cb i flags verno) w Q.
Proof.
  intros Hb HQ. unfold set_cb. sal_step. eapply load_ok; [done|]. by eapply store_ok.
Qed.

(** A buffer that was allocated is gone again. *)
Lemma held_back held i : i ∉ held -> ({[ i ]} ∪ held) ∖ {[ i ]} = held.
Proof using. clear. set_solver. Qed.

Lemma send_ack_ok held base w :
  inv held base w ->
  wp (serval_sal_send_ack ops) w (fun r w' => inv held base w' /\ kept w w' /\
    skbs w' = skbs w /\ ack_sent r w w').
Proof.
  intros Hw. unfold serval_sal_send_ack, sk_sal_alloc_skb. sal_step.
  eapply wp_mono; [by apply (alloc_owned_ok tp_held held base)|].
  intros [i|] w1 (K1 & S1 & Ho).
  - destruct Ho as (I1 & Hn & Hf & D1).
    assert (skbs w1 !! i = Some (ctrl_skb 0 0)) as Hb1 by (rewrite D1; apply lookup_insert_eq).
    sal_steps. eapply set_cb_ok; [done|].
    assert (snd_nxt (sk w1) = snd_nxt (sk w)) as Hnxt
      by (destruct K1 as [K1 _]; exact (f_equal snd_nxt K1)).
    rewrite Hnxt.
    set (b := (ctrl_skb 0 0) {{ skb_flags := SVH_ACK; skb_verno := snd_nxt (sk w) }}).
    set (w2 := w1 {{ skbs ::= <[i := b]> }}).
    assert (inv ({[ i ]} ∪ held) base w2) as I2.
    { eapply inv_store; [done|done|done|]. left. clear. set_solver. }
    assert (skbs w2 !! i = Some b) as Hb2 by apply lookup_insert_eq.
    eapply wp_mono; [eapply (transmit_ok tp_held ops ({[ i ]} ∪ held) base w2 i b)|].
    + done.
    + clear. set_solver.
    + done.
    + unfold b, ctrl_skb. rsimp. simpl. by rewrite length_replicate.
    + intros r w3 (I3 & K3 & D3 & L3). rewrite held_back in I3 by done.
      split_and!; try done.
      * eapply kept_trans; [exact K1|exact K3].
      * rewrite D3. unfold w2. rsimp. rewrite D1, insert_insert_eq. by apply delete_insert_id.
      * unfold ack_sent. destruct (wire_kept _ _ b K1) as [E1 E2].
        change (sk w2) with (sk w1) in L3. rewrite E1, E2 in L3.
        destruct L3 as (L1 & L2 & L3). split_and!; [rewrite <-S1; done..|].
        intros Hwl. by apply L3, (willing_kept _ _ K1).
  - destruct Ho as (I1 & D1 & Hne). sal_step. split_and!; try done. split_and!; [done|done|].
    by intros [? _].
Qed.

(** ** Acknowledgements *)

(** The fields that decide about packets. *)
Definition view (s : ssock) :=
  (sk_state s, rcv_nxt s, snd_nxt s, peer_nonce s, sock_dead s).

Lemma view_proto s s' : proto s = proto s' -> view s = view s'.
Proof. intros E. exact (f_equal view E). Qed.
Lemma view_q s s' : proto_q s = proto_q s' -> view s = view s'.
Proof.
  assert (forall s, view (proto_q s) = view s) as Hv by (clear; intros s; by destruct s).
  intros E. by rewrite <-(Hv s), <-(Hv s'), E.
Qed.
Lemma sal_state_q s s' :
  proto_q s = proto_q s' -> sal_state s = sal_state s' /\ mig_daddr s = mig_daddr s'.
Proof.
  assert (forall s, (sal_state (proto_q s), mig_daddr (proto_q s)) = (sal_state s, mig_daddr s))
    as Hv by (clear; intros s; by destruct s).
  intros E. pose proof (Hv s) as H1. rewrite E, (Hv s') in H1. by injection H1.
Qed.

(** A valid acknowledgement: it is for something sent, or part of a migration
    handshake; it empties the slot when it covers the packet there. *)
Definition acked p w w' : Prop :=
  in_flag p SVH_ACK = true /\
  before (c_ackno (in_ctx p)) (snd_una (sk w)) = false /\
  (after (c_ackno (in_ctx p)) (snd_nxt (sk w)) = false \/ rsyn_recv (sal_state (sk w)) = true) /\
  snd_una (sk w') = c_ackno (in_ctx p) /\
  (forall i b, ctrl_queue (sk w) = Some i -> skbs w !! i = Some b ->
     ctrl_queue (sk w') =
     if after (c_ackno (in_ctx p)) (skb_verno b) || rsyn_recv (sal_state (sk w))
     then None else Some i).

Lemma plain_ok f held base w :
  migration_completed ops = f -> inv held base w ->
  wp (call f 0) w (fun _ w' => inv held base w' /\ proto (sk w') = proto (sk w) /\
    sent w' = sent w).
Proof.
  intros Hf Hw. destruct f as [f|]; cbn [call]; [by eapply to_plain|by sal_step].
Qed.

Lemma complete_migration_ok held base w st :
  inv held base w -> rsyn_recv (sal_state (sk w)) = true -> rsyn_recv st = false ->
  wp (serval_sock_set_sal_state st;; complete_migration ops) w (fun _ w' =>
    inv held base w' /\ view (sk w') = view (sk w) /\ sent w' = sent w /\
    snd_una (sk w') = snd_una (sk w) /\ ctrl_queue (sk w') = ctrl_queue (sk w)).
Proof.
  intros Hw Hr Hst. destruct (iv_peer _ _ _ _ Hw) as (P1 & P2 & P3).
  unfold complete_migration. sal_step. sal_step. sal_step. sal_step. rewrite upd_upd.
  set (w1 := w {{ sk ::= _ }}).
  assert (inv held base w1) as I1.
  { apply inv_upd_sk; try done. split; [exact P1|]. rsimp. split; [by apply P3|].
    rewrite Hst. done. }
  sal_step. eapply wp_mono; [by apply (plain_ok _ held base w1)|].
  intros _ w2 (I2 & E2 & S2). sal_step. split_and!; try done.
  - rewrite (view_proto _ _ E2). reflexivity.
  - exact (f_equal snd_una E2).
  - exact (f_equal ctrl_queue E2).
Qed.

Lemma ack_process_ok held base w p :
  inv held base w ->
  wp (serval_sal_ack_process ops p) w (fun r w' => inv held base w' /\
    view (sk w') = view (sk w) /\ sent w' = sent w /\
    (r = -1 /\ w' = w \/ r = 0 /\ acked p w w')).
Proof.
  intros Hw. unfold serval_sal_ack_process.
  destruct (in_flag p SVH_ACK) eqn:Hack; cbn [negb]; [|sal_step; split_and!; try done; auto].
  sal_steps. destruct (before _ _) eqn:Hbef; [sal_step; split_and!; try done; auto|].
  destruct (after (c_ackno (in_ctx p)) (snd_nxt (sk w)) && negb (rsyn_recv (sal_state (sk w))))
    eqn:Haft; [sal_step; split_and!; try done; auto|].
  assert (after (c_ackno (in_ctx p)) (snd_nxt (sk w)) = false \/
          rsyn_recv (sal_state (sk w)) = true) as Hwin.
  { destruct (after _ _); [|by left]. right. by destruct (rsyn_recv _). }
  sal_step. eapply wp_mono; [by apply (clean_rtx_ok tp_held held base)|].
  intros fl w1 (I1 & (P1 & T1 & N1 & S1 & C1)). sal_steps.
  set (f := fun s : ssock => s {{ snd_una := _; ack_rcv_tstamp := _ }}).
  set (w2 := w1 {{ sk ::= f }}).
  destruct (sal_state_q _ _ P1) as [E1 E2].
  assert (inv held base w2) as I2.
  { destruct (iv_peer _ _ _ _ I1) as (Q1 & Q2 & Q3). by apply inv_upd_sk. }
  assert (view (sk w2) = view (sk w)) as V2.
  { rewrite <-(view_q _ _ P1). reflexivity. }
  assert (forall w', snd_una (sk w') = c_ackno (in_ctx p) ->
    ctrl_queue (sk w') = ctrl_queue (sk w1) -> acked p w w') as Hacked.
  { intros w' U1 U2. unfold acked. split_and!; try done. intros i b Hq Hb.
    rewrite U2. rewrite Hq in C1. destruct C1 as (b' & Hb' & C1). rewrite Hb in Hb'.
    injection Hb' as <-. destruct (_ || _); tauto. }
  change (sal_state (sk w2)) with (sal_state (sk w1)). rewrite E1.
  assert (forall st, rsyn_recv (sal_state (sk w)) = true -> rsyn_recv st = false ->
    wp (serval_sock_set_sal_state st;; complete_migration ops;; mret 0) w2
      (fun r w' => inv held base w' /\ view (sk w') = view (sk w) /\ sent w' = sent w /\
       (r = -1 /\ w' = w \/ r = 0 /\ acked p w w'))) as Hmig.
  { intros st Hr Hst.
    pose proof (complete_migration_ok held base w2 st I2 ltac:(by rewrite <-E1 in Hr) Hst) as HC.
    apply wp_run in HC as (a & w3 & Hrun & I3 & V3 & S3 & U3 & Q3).
    apply wp_run. exists 0, w3. split.
    - revert Hrun. unfold mbind, M_bind. destruct (serval_sock_set_sal_state _ _) as [[? ?]| |]; [|done|done].
      by destruct (complete_migration _ _) as [[? ?]| |]; intros; simplify_eq.
    - split_and!; [done|congruence|by rewrite S3|]. right. split; [done|]. by apply Hacked. }
  destruct (sal_state (sk w)) eqn:Hst; cbn [rsyn_recv] in *.
  all: try (sal_step; split_and!; try done; right; split; [done|by apply Hacked]).
  all: destruct (in_flag p SVH_RSYN);
    [sal_step; split_and!; try done; right; split; [done|by apply Hacked]|].
  - rewrite bool_decide_eq_true_2 by done. by apply Hmig.
  - rewrite bool_decide_eq_false_2 by done. by apply Hmig.
Qed.

(** ** Socket updates that do not concern buffers *)
Definition benign (f : ssock -> ssock) : Prop := forall s,
  ctrl_queue (f s) = ctrl_queue s /\ ctrl_send_head (f s) = ctrl_send_head s /\
  sk_refs (f s) - timers (f s) = sk_refs s - timers s /\
  (sk_state s = SAL_CLOSED -> sk_state (f s) = SAL_CLOSED) /\ (peer_ok s -> peer_ok (f s)).
Lemma inv_benign held base w f :
  inv held base w -> benign f -> inv held base (w {{ sk ::= f }}).
Proof using Type.
  clear Hroom Hops.
  intros Hw Hf. destruct (Hf (sk w)) as (E1 & E2 & E3 & E4 & E5).
  apply inv_upd_sk; try done. apply E5, Hw.
Qed.

Lemma refs_fields (s : ssock) r :
  proto (s {{ sk_refs := r }}) = proto s /\ timers (s {{ sk_refs := r }}) = timers s.
Proof. done. Qed.

Lemma stop_timer_ok get set `{!IsTimer get set} held base w :
  inv held base w ->
  wp (sk_stop_timer get set) w (fun _ w' => inv held base w' /\ kept w w' /\
    sent w' = sent w /\ skbs w' = skbs w).
Proof using Type.
  clear Hroom Hops.
  intros Hw. unfold sk_stop_timer. sal_steps. destruct (get (sk w)) as [t|] eqn:Hg; sal_steps; [|done].
  rewrite upd_upd. destruct (timer_set None (sk w)) as (_ & T2 & T3 & T4).
  rewrite Hg in T4. cbn [pend] in T4.
  destruct (refs_fields (set None (sk w)) (sk_refs (set None (sk w)) - 1)) as [R1 R2].
  split; [apply inv_upd_proto; try done|].
  - change (sk_refs (set None (sk w)) - 1 -
      timers ((set None (sk w)) {{ sk_refs := sk_refs (set None (sk w)) - 1 }})
      = sk_refs (sk w) - timers (sk w)). rewrite R2. lia.
  - split; [|done]. split; [exact (eq_trans R1 T2)|done].
Qed.

Lemma reset_timer_ok get set `{!IsTimer get set} held base w t :
  inv held base w ->
  wp (sk_reset_timer get set t) w (fun _ w' => inv held base w' /\ kept w w' /\
    sent w' = sent w /\ skbs w' = skbs w /\ get (sk w') = Some t).
Proof using Type.
  clear Hroom Hops.
  intros Hw. unfold sk_reset_timer. sal_steps.
  destruct (timer_set (Some t) (sk w)) as (T1 & T2 & T3 & T4). cbn [pend] in T4.
  destruct (get (sk w)) as [t'|] eqn:Hg; sal_steps; cbn [pend] in T4.
  - split; [apply inv_upd_proto; try done; lia|]. split; [|done]. by split.
  - rewrite upd_upd.
    destruct (refs_fields (set (Some t) (sk w)) (1 + sk_refs (set (Some t) (sk w)))) as [R1 R2].
    split; [apply inv_upd_proto; try done|].
    + change (1 + sk_refs (set (Some t) (sk w)) - 
        timers ((set (Some t) (sk w)) {{ sk_refs := 1 + sk_refs (set (Some t) (sk w)) }})
        = sk_refs (sk w) - timers (sk w)). rewrite R2. lia.
    + split; [split; [exact (eq_trans R1 T2)|done]|]. split; [done|]. split; [done|].
      exact (eq_trans (timer_refs _ _) T1).
Qed.

Lemma unhash_benign : benign unhash_established.
Proof using Type.
  clear Hroom Hops.
  intros s. unfold unhash_established, serval_sock_reset_flag. destruct (in_table s); [|done].
  split_and!; done.
Qed.

(** A new state, for a socket that is neither listening nor new. *)
Definition new_state (st : sock_state) (s : ssock) : ssock :=
  (if bool_decide (st = SAL_CLOSED) && negb (hash_key_len s =? 0)
   then unhash_established s else s) {{ sk_state := st }}.
Lemma set_state_run st w (Q : unit -> salw TP -> Prop) :
  sk_state (sk w) <> SAL_LISTEN -> sk_state (sk w) <> SAL_INIT -> st <> SAL_INIT ->
  Q tt (w {{ sk ::= new_state st }}) -> wp (serval_sock_set_state st) w Q.
Proof using Type.
  clear Hroom Hops.
  intros H1 H2 H3 HQ. unfold serval_sock_set_state. rewrite bool_decide_eq_false_2 by done.
  unfold new_state in HQ.
  destruct (bool_decide (st = SAL_CLOSED)); cbn [andb] in HQ; [|sal_steps; exact HQ].
  unfold serval_sock_unhash. sal_steps. destruct (hash_key_len (sk w) =? 0) eqn:Hk;
    cbn [negb] in HQ; sal_steps.
  - rewrite (upd_eq w _ (fun s => s {{ sk_state := st }})) in HQ; [exact HQ|]. by rewrite Hk.
  - rewrite bool_decide_eq_false_2 by (intros [?|?]; done). sal_steps. rewrite upd_upd.
    rewrite (upd_eq w _ (fun s => (unhash_established s) {{ sk_state := st }})) in HQ;
      [exact HQ|]. by rewrite Hk.
Qed.
Lemma new_state_fields st s :
  let s' := new_state st s in
  ctrl_queue s' = ctrl_queue s /\ ctrl_send_head s' = ctrl_send_head s /\
  sk_refs s' = sk_refs s /\ timers s' = timers s /\ sk_state s' = st /\
  (peer_ok s -> peer_ok s') /\ sock_dead s' = sock_dead s /\ peer_nonce s' = peer_nonce s /\
  rto s' = rto s.
Proof using Type.
  clear Hroom Hops.
  unfold new_state, unhash_established. destruct (_ && _), (in_table s); done.
Qed.

Lemma set_state_ok held base w st :
  inv held base w -> sk_state (sk w) <> SAL_LISTEN -> sk_state (sk w) <> SAL_INIT ->
  sk_state (sk w) <> SAL_CLOSED -> st <> SAL_INIT ->
  wp (serval_sock_set_state st) w (fun _ w' => inv held base w' /\ sk_state (sk w') = st /\
    sent w' = sent w /\ skbs w' = skbs w /\ sock_dead (sk w') = sock_dead (sk w) /\
    peer_nonce (sk w') = peer_nonce (sk w) /\ ctrl_queue (sk w') = ctrl_queue (sk w)).
Proof using Type.
  clear Hroom Hops.
  intros Hw H1 H2 H3 H4. apply set_state_run; [done..|].
  destruct (new_state_fields st (sk w)) as (E1 & E2 & E3 & E4 & E5 & E6 & E7 & E8 & _).
  split; [|done]. apply inv_upd_sk; try done; [congruence|apply E6, Hw].
Qed.
End Conn.

(** The states of a connection whose peer is known. *)
Definition established (st : sock_state) : bool :=
  match st with
  | SAL_CONNECTED | SAL_RESPOND | SAL_FINWAIT1 | SAL_FINWAIT2 | SAL_TIMEWAIT
  | SAL_CLOSEWAIT | SAL_LASTACK | SAL_CLOSING => true
  | SAL_INIT | SAL_REQUEST | SAL_CLOSED | SAL_LISTEN => false
  end.
Lemma established_not st :
  established st = true ->
  st <> SAL_INIT /\ st <> SAL_REQUEST /\ st <> SAL_CLOSED /\ st <> SAL_LISTEN.
Proof. by destruct st. Qed.

Section Step.
Context {TP : Type} {Hwf : TpWf TP} (tp_held : TP -> gset positive) `{SalEnv} {Hstale : StaleRead} (ops : af_ops TP).
Context (Hops : TransportOk tp_held ops) (Hroom : (HDR_ROOM <= max_header)%nat).
Implicit Types (w : salw TP) (i : positive) (held : gset positive) (p : inpkt).
Abbreviation inv := (inv tp_held).

(** What the handlers before a change of state keep. *)
Definition core (s : ssock) := (sk_state s, peer_nonce s, sock_dead s).
Lemma core_view s s' : view s = view s' -> core s = core s'.
Proof. unfold view, core. congruence. Qed.
Lemma core_proto s s' : proto s = proto s' -> core s = core s'.
Proof. intros E. exact (f_equal core E). Qed.
Lemma core_u s s' : proto_u s = proto_u s' -> core s = core s'.
Proof.
  assert (forall s, core (proto_u s) = core s) as Hv by (clear; intros s; by destruct s).
  intros E. by rewrite <-(Hv s), <-(Hv s'), E.
Qed.
Lemma core_state s s' : core s = core s' -> sk_state s = sk_state s'.
Proof. unfold core. congruence. Qed.

(** ** The end of a connection *)
Lemma timewait_ok held base w st t :
  inv held base w -> established (sk_state (sk w)) = true -> st <> SAL_INIT ->
  wp (serval_sal_timewait st t) w (fun _ w' => inv held base w' /\ sk_state (sk w') = st /\
    sent w' = sent w /\ tw_timer (sk w') <> None).
Proof.
  intros Hw (E1 & E2 & E3 & E4)%established_not Hst. unfold serval_sal_timewait. sal_steps.
  eapply wp_mono; [by apply (set_state_ok tp_held held base)|].
  intros _ w1 (I1 & S1 & F1 & _).
  eapply wp_mono; [exact (reset_timer_ok tp_held tw_timer set_tw_timer held base w1 _ I1)|].
  intros _ w2 (I2 & K2 & F2 & _ & T2). split_and!; [done| |congruence|by rewrite T2].
  destruct K2 as [K2 _]. rewrite <-S1. exact (f_equal sk_state K2).
Qed.

(** What is left of the constant part of the reference count: destroying a
    socket that the application has given up drops one reference. *)
Definition base_after (s : ssock) (base : Z) : Z := if sock_dead s then base - 1 else base.

Lemma inv_put held base w :
  inv held base w -> inv held (base - 1) (w {{ sk ::= (fun s => s {{ sk_refs := sk_refs s - 1 }}) }}).
Proof using Type.
  clear Hops Hroom.
  intros [H1 H2 H3 H4 H5 H6 H7 H8]. split; rsimp; try done.
  change (timers _) with (timers (sk w)). lia.
Qed.

Lemma tp_unit_ok f held base w :
  af_done ops = f \/ prot_destroy ops = f \/ Some (kill_queues ops) = f -> inv held base w ->
  wp (call f tt) w (fun _ w' => inv held base w' /\ core (sk w') = core (sk w) /\
    sent w' = sent w).
Proof.
  intros Hf Hw. destruct f as [f|]; cbn [call]; [|by sal_step].
  eapply wp_mono; [exact (to_done f held base w Hf Hw)|].
  intros _ w1 (I1 & P1 & S1). split_and!; [done|by apply core_proto|done].
Qed.

Lemma stop_ok get set `{!IsTimer get set} held base w :
  inv held base w ->
  wp (sk_stop_timer get set) w (fun _ w' => inv held base w' /\ core (sk w') = core (sk w) /\
    sent w' = sent w).
Proof.
  intros Hw. eapply wp_mono; [exact (stop_timer_ok tp_held get set held base w Hw)|].
  intros _ w1 (I1 & [K1 _] & S1 & _). split_and!; [done|by apply core_proto|done].
Qed.

(** Purging the slot of a closed socket leaves [ctrl_send_head] behind. *)
Lemma purge_ok held base w :
  inv held base w -> sk_state (sk w) = SAL_CLOSED ->
  wp serval_sal_ctrl_queue_purge w (fun _ w' => inv held base w' /\ core (sk w') = core (sk w) /\
    sent w' = sent w /\ ctrl_queue (sk w') = None).
Proof.
  intros Hw Hst. unfold serval_sal_ctrl_queue_purge. sal_steps.
  destruct (ctrl_queue (sk w)) as [i|] eqn:Hq; sal_steps; [|done].
  destruct (inv_slot tp_held _ _ _ _ Hw Hq) as (b & Hb & Ho & _).
  pose proof Hw as [H1 H2 H3 H4 H5 H6 H7 H8].
  unfold kfree_skb. sal_step. eapply load_ok; [done|]. rewrite Ho. sal_steps.
  split; [|done]. rewrite Hq in *. unfold slot in *.
  assert (i ∉ held /\ i ∉ tp_held (tp w)) as [Hi1 Hi2] by (clear -H2 H3; set_solver).
  split; rsimp; unfold slot.
  - rewrite dom_delete_L, H1. clear -Hi1 Hi2. set_solver.
  - clear -H2. set_solver.
  - clear. set_solver.
  - intros j Hj. apply H4. rewrite dom_delete_L in Hj. clear -Hj. set_solver.
  - right. right. done.
  - done.
  - rewrite (owned_delete _ _ _ Hb), Ho. change (timers _) with (timers (sk w)). lia.
  - exact H8.
  - done.
Qed.

Lemma destroy_ok held base w :
  inv held base w -> sk_state (sk w) = SAL_CLOSED -> sock_dead (sk w) = true ->
  wp (serval_sock_destroy ops) w (fun _ w' => inv held (base - 1) w' /\
    sk_state (sk w') = SAL_CLOSED /\ sent w' = sent w).
Proof.
  intros Hw Hst Hd. unfold serval_sock_destroy. sal_steps. rewrite Hd. cbn [negb].
  sal_step. eapply wp_mono; [exact (stop_ok retransmit_timer set_retransmit_timer _ _ _ Hw)|].
  intros _ w1 (I1 & C1 & S1).
  sal_step. eapply wp_mono; [exact (stop_ok tw_timer set_tw_timer _ _ _ I1)|].
  intros _ w2 (I2 & C2 & S2). pose proof (core_state _ _ C1) as E1.
  pose proof (core_state _ _ C2) as E2.
  sal_step. eapply wp_mono; [apply (purge_ok held base w2 I2); congruence|].
  intros _ w3 (I3 & C3 & S3 & _). pose proof (core_state _ _ C3) as E3.
  sal_step. eapply wp_mono; [apply (tp_unit_ok _ held base w3 (or_intror (or_introl eq_refl)) I3)|].
  intros _ w4 (I4 & C4 & S4). pose proof (core_state _ _ C4) as E4.
  sal_step. eapply wp_mono; [apply (tp_unit_ok (Some (kill_queues ops)) held base w4 (or_intror (or_intror eq_refl)) I4)|].
  intros _ w5 (I5 & C5 & S5). pose proof (core_state _ _ C5) as E5. sal_step.
  split; [by apply inv_put|]. split; [|change (sent w5 = sent w); congruence].
  change (sk_state (sk w5) = SAL_CLOSED). congruence.
Qed.

(** [serval_sal_done] closes the connection; an orphaned socket is destroyed. *)
Lemma done_ok held base w :
  inv held base w -> established (sk_state (sk w)) = true ->
  wp (serval_sal_done ops) w (fun _ w' => inv held (base_after (sk w) base) w' /\
    sk_state (sk w') = SAL_CLOSED /\ sent w' = sent w).
Proof.
  intros Hw Hest. unfold serval_sal_done, serval_sock_done.
  sal_step. eapply wp_mono; [apply (tp_unit_ok _ held base w (or_introl eq_refl) Hw)|].
  intros _ w1 (I1 & C1 & S1). pose proof (core_state _ _ C1) as E1.
  assert (sock_dead (sk w1) = sock_dead (sk w)) as D1 by (unfold core in C1; congruence).
  rewrite <-E1 in Hest. apply established_not in Hest as (N1 & N2 & N3 & N4).
  sal_step. eapply wp_mono; [by apply (set_state_ok tp_held held base w1)|].
  intros _ w2 (I2 & St2 & S2 & _ & D2 & _). unfold serval_sock_clear_xmit_timers.
  sal_step. sal_step.
  eapply wp_mono; [exact (stop_ok retransmit_timer set_retransmit_timer _ _ _ I2)|].
  intros _ w3 (I3 & C3 & S3).
  eapply wp_mono; [exact (stop_ok sk_timer set_sk_timer _ _ _ I3)|].
  intros _ w4 (I4 & C4 & S4). sal_steps.
  assert (core (sk w4) = core (sk w2)) as C by congruence.
  set (w5 := w4 {{ sk ::= _ }}).
  assert (inv held base w5) as I5.
  { apply inv_upd_sk; try done. exact (iv_peer _ _ _ _ I4). }
  assert (core (sk w5) = core (sk w2)) as C5 by (rewrite <-C; reflexivity).
  assert (sk_state (sk w5) = SAL_CLOSED) as St5 by (unfold core in C5; congruence).
  assert (sock_dead (sk w5) = sock_dead (sk w)) as D5 by (unfold core in C5; congruence).
  assert (sent w5 = sent w) as S5 by (change (sent w4 = sent w); congruence).
  unfold base_after. rewrite D5. destruct (sock_dead (sk w)) eqn:Hd; cbn [negb].
  - eapply wp_mono; [by apply (destroy_ok held base w5)|].
    intros _ w6 (I6 & St6 & S6). split_and!; [done|done|congruence].
  - sal_step. split_and!; try done. by eapply inv_ext.
Qed.

(** Waking the application changes nothing else. *)
Lemma wake_if_ok (b : bool) held base w :
  inv held base w ->
  wp (if b then wake else mret tt) w (fun _ w' => inv held base w' /\ sk w' = sk w /\
    sent w' = sent w).
Proof.
  intros Hw. destruct b; sal_step; [|done]. split_and!; try done. by eapply inv_ext.
Qed.

Lemma rcv_reset_ok held base w :
  inv held base w -> established (sk_state (sk w)) = true ->
  wp (serval_sal_rcv_reset ops) w (fun _ w' => inv held (base_after (sk w) base) w' /\
    sk_state (sk w') = SAL_CLOSED /\ sent w' = sent w).
Proof.
  intros Hw Hest. pose proof (established_not _ Hest) as (N1 & N2 & N3 & N4).
  unfold serval_sal_rcv_reset. sal_steps. rewrite bool_decide_eq_false_2 by done. sal_step. sal_step.
  set (w1 := w {{ sk ::= _ }}).
  assert (inv held base w1) as I1.
  { apply inv_upd_sk; try done. exact (iv_peer _ _ _ _ Hw). }
  sal_step. eapply wp_mono; [apply (wake_if_ok _ held base w1 I1)|].
  intros _ w2 (I2 & E2 & S2).
  assert (core (sk w2) = core (sk w)) as C by (rewrite E2; reflexivity).
  eapply wp_mono; [apply (done_ok held base w2 I2)|].
  - rewrite (core_state _ _ C). done.
  - intros _ w3 (I3 & St3 & S3). unfold base_after in *.
    assert (sock_dead (sk w2) = sock_dead (sk w)) as Hd by (unfold core in C; congruence).
    rewrite Hd in I3. split_and!; [done|done|]. rewrite S3, S2. done.
Qed.

(** ** Handlers that do not change the state *)
Lemma rd8_in (d : list Z) off : (off < length d)%nat -> exists b, rd8 d off = Ok b.
Proof. intros H1. unfold rd8. destruct (lookup_lt_is_Some_2 d off H1) as [b ->]. eauto. Qed.

(** The packet carries a control extension with the peer's nonce. *)
Definition valid_ext p (s : ssock) : bool :=
  match has_valid_control_extension (in_hdr p) (peer_nonce s) (in_ctx p) with
  | Ok b => b
  | _ => false
  end.
Lemma valid_ext_ok p w (Q : bool -> salw TP -> Prop) :
  pkt_ok p -> Q (valid_ext p (sk w)) w -> wp (valid_control_extension p) w Q.
Proof using Type.
  clear Hops Hroom. intros [Hp _] HQ. unfold valid_control_extension. sal_steps. unfold valid_ext in HQ.
  assert (exists b, has_valid_control_extension (in_hdr p) (peer_nonce (sk w)) (in_ctx p) = Ok b)
    as [b Hb].
  { unfold has_valid_control_extension. destruct (c_ctrl_ext (in_ctx p)) as [e|]; [|by eexists].
    specialize (Hp e eq_refl). destruct (_ <? _); [by eexists|].
    destruct (rd8_in (in_hdr p) e) as [b0 E0]; [lia|].
    destruct (rd8_in (in_hdr p) (e + 1)) as [b1 E1]; [lia|].
    destruct (rd8_in (in_hdr p) (e + 2)) as [b2 E2]; [lia|].
    destruct (rd_bytes_ok (in_hdr p) (e + 12) 8) as [l E3]; [lia|].
    rewrite E0. cbn [mbind outcome_bind]. rewrite E1. cbn [mbind outcome_bind].
    destruct (_ || _); [by eexists|]. rewrite E2. cbn [mbind outcome_bind].
    destruct (Z.testbit b2 7); [by eexists|]. change SAL_NONCE_SIZE with 8%nat.
    rewrite E3. by eexists. }
  rewrite Hb in *. exact HQ.
Qed.

Lemma ack_core held base w :
  inv held base w ->
  wp (serval_sal_send_ack ops) w (fun _ w' => inv held base w' /\ core (sk w') = core (sk w)).
Proof.
  intros Hw. eapply wp_mono; [by apply (send_ack_ok tp_held ops Hroom held base)|].
  intros r w1 (I1 & [K1 _] & _). split; [done|by apply core_proto].
Qed.

Lemma rcv_fin_ok held base w p :
  inv held base w -> pkt_ok p ->
  wp (serval_sal_rcv_fin ops p) w (fun r w' => inv held base w' /\ core (sk w') = core (sk w) /\
    (r = 0 -> valid_ext p (sk w) = true)).
Proof.
  intros Hw Hp. unfold serval_sal_rcv_fin. sal_step. apply valid_ext_ok; [done|].
  destruct (valid_ext p (sk w)) eqn:Hv; cbn [negb]; [|by sal_step]. sal_step. sal_step.
  set (w1 := w {{ sk ::= _ }}).
  assert (inv held base w1) as I1.
  { destruct (iv_peer _ _ _ _ Hw) as (P1 & P2 & P3). apply inv_upd_sk; try done.
    split; [|done]. destruct P1 as (Q1 & Q2 & Q3 & Q4 & Q5 & Q6). split_and!; try done.
    all: unfold u32; simpl; apply Z.mod_pos_bound; lia. }
  sal_steps. eapply wp_mono; [apply (wake_if_ok _ held base w1 I1)|].
  intros _ w2 (I2 & E2 & S2). eapply wp_mono; [exact (ack_core held base w2 I2)|].
  intros r w3 (I3 & C3). split; [done|]. split; [|done]. rewrite C3, E2. reflexivity.
Qed.

Lemma rcv_rsynack_ok held base w p :
  inv held base w -> pkt_ok p ->
  wp (serval_sal_rcv_rsynack ops p) w (fun _ w' => inv held base w' /\
    core (sk w') = core (sk w)).
Proof.
  intros Hw [_ Hp]. unfold serval_sal_rcv_rsynack. sal_steps.
  pose proof (iv_peer _ _ _ _ Hw) as (P1 & P2 & P3).
  destruct (sal_state (sk w)) eqn:Hs; try by apply ack_core.
  - destruct (dev_addr _) as [addr|]; [|by sal_step]. destruct (negb _); [by sal_step|].
    sal_steps. rewrite upd_upd. set (w1 := w {{ sk ::= _ }}).
    assert (inv held base w1) as I1 by (apply inv_upd_sk; try done; by split_and!).
    eapply wp_mono; [by apply (plain_ok tp_held ops Hops _ held base w1)|].
    intros _ w2 (I2 & E2 & S2). eapply wp_mono; [exact (ack_core held base w2 I2)|].
    intros _ w3 (I3 & C3). split; [done|]. rewrite C3, (core_proto _ _ E2). reflexivity.
  - sal_steps. rewrite upd_upd. set (w1 := w {{ sk ::= _ }}).
    assert (inv held base w1) as I1 by (apply inv_upd_sk; try done; by split_and!).
    eapply wp_mono; [exact (ack_core held base w1 I1)|].
    intros _ w3 (I3 & C3). split; [done|]. rewrite C3. reflexivity.
Qed.

(** A new control packet is queued and pushed. *)
Lemma push_new_ok held base w flags verno :
  inv held base w -> sk_state (sk w) <> SAL_CLOSED ->
  wp (o ← sk_sal_alloc_skb;
      match o with
      | None => mret (- ENOMEM)
      | Some r =>
          s ← the_sk;
          set_cb r flags (verno s);; stamp r;; serval_sal_queue_and_push ops r
      end) w
    (fun _ w' => inv held base w' /\ core (sk w') = core (sk w)).
Proof.
  intros Hw Hst. unfold sk_sal_alloc_skb. sal_step.
  eapply wp_mono; [by apply (alloc_owned_ok tp_held held base)|].
  intros [i|] w1 (K1 & S1 & Ho).
  2: { destruct Ho as [I1 _]. sal_step. split; [done|]. by apply core_proto, K1. }
  destruct Ho as (I1 & Hn & _ & D1). sal_steps.
  assert (skbs w1 !! i = Some (ctrl_skb 0 0)) as Hb1 by (rewrite D1; apply lookup_insert_eq).
  eapply set_cb_ok; [done|]. set (b := (ctrl_skb 0 0) {{ skb_flags := _; skb_verno := _ }}).
  set (w2 := w1 {{ skbs ::= <[i := b]> }}). unfold stamp. sal_steps.
  assert (skbs w2 !! i = Some b) as Hb2 by apply lookup_insert_eq.
  eapply load_ok; [done|]. eapply store_ok; [done|].
  set (b3 := b {{ skb_when := _ }}). set (w3 := w2 {{ skbs ::= <[i := b3]> }}).
  assert (i ∈ {[ i ]} ∪ held) as Hi by (clear; set_solver).
  assert (inv ({[ i ]} ∪ held) base w2) as I2 by (eapply inv_store; [done|done|done|by left]).
  assert (inv ({[ i ]} ∪ held) base w3) as I3 by (eapply inv_store; [done|done|done|by left]).
  assert (core (sk w3) = core (sk w)) as C3 by (by apply core_proto, K1).
  eapply wp_mono; [apply (queue_and_push_ok tp_held ops ({[ i ]} ∪ held) base w3 i b3)|].
  - done.
  - rewrite (core_state _ _ C3). done.
  - done.
  - apply lookup_insert_eq.
  - done.
  - unfold b3, b, ctrl_skb. rsimp. simpl. by rewrite length_replicate.
  - intros r w4 (I4 & P4). rewrite held_back in I4 by done. split; [done|].
    destruct P4 as (_ & P4 & _). rewrite <-C3. by apply core_u.
Qed.

Lemma freeze_ok held base w a :
  inv held base (with_mig a w) ->
  wp (call (freeze_flow ops) 0) w (fun _ w' => inv held base (with_mig a w') /\
    core (sk w') = core (sk w)).
Proof.
  intros Hw. destruct (freeze_flow ops) as [f|] eqn:Hf; cbn [call]; [|by sal_step].
  eapply wp_mono; [exact (to_freeze f held base w a Hf Hw)|].
  intros _ w1 (I1 & E1 & _). split; [done|by apply core_proto].
Qed.

(** The migration state after a RSYN. *)
Definition after_rsyn (st : rsyn_state) : rsyn_state :=
  match st with
  | SAL_RSYN_INITIAL => SAL_RSYN_RECV
  | SAL_RSYN_SENT => SAL_RSYN_SENT_RECV
  | _ => st
  end.
Lemma after_rsyn_run w (Q : unit -> salw TP -> Prop) :
  Q tt (w {{ sk ::= (fun s => s {{ sal_state := after_rsyn (sal_state s) }}) }}) ->
  wp (match sal_state (sk w) with
      | SAL_RSYN_INITIAL => serval_sock_set_sal_state SAL_RSYN_RECV
      | SAL_RSYN_SENT => serval_sock_set_sal_state SAL_RSYN_SENT_RECV
      | _ => mret tt
      end) w Q.
Proof.
  assert (forall st, sal_state (sk w) = st ->
    w {{ sk ::= (fun s => s {{ sal_state := st }}) }} = w) as Hid.
  { intros st <-. destruct w as [s]. by destruct s. }
  intros HQ. destruct (sal_state (sk w)) eqn:Hs; sal_step; rewrite (upd_eq w _ (fun s => s
    {{ sal_state := after_rsyn (sal_state (sk w)) }})) in HQ by done; rewrite Hs in HQ;
    try exact HQ; cbn [after_rsyn] in HQ; by rewrite Hid in HQ.
Qed.

Lemma rcv_rsyn_ok held base w p :
  inv held base w -> established (sk_state (sk w)) = true -> pkt_ok p ->
  wp (serval_sal_rcv_rsyn ops p) w (fun _ w' => inv held base w' /\
    core (sk w') = core (sk w)).
Proof.
  intros Hw Hest Hp. unfold serval_sal_rcv_rsyn. sal_step. apply valid_ext_ok; [done|].
  destruct Hp as [_ Hsrc]. pose proof (established_not _ Hest) as (N1 & N2 & N3 & N4).
  sal_steps. destruct (negb _); [by sal_step|].
  assert (forall A (x y : A), match sk_state (sk w) with
    | SAL_CLOSED | SAL_LISTEN | SAL_REQUEST => x | _ => y end = y) as Hm
    by (intros; by destruct (sk_state (sk w))).
  rewrite Hm. sal_step. apply after_rsyn_run. set (w1 := w {{ sk ::= _ }}).
  assert (inv held base (with_mig (in_saddr p) w1)) as I1.
  { unfold with_mig, w1. rewrite upd_upd. destruct (iv_peer _ _ _ _ Hw) as (P1 & P2 & P3).
    apply inv_upd_sk; try done. }
  sal_step. eapply wp_mono; [exact (freeze_ok held base w1 _ I1)|].
  intros _ w2 (I2 & C2). sal_step. sal_step.
  match goal with |- wp _ ?x _ => set (w3 := x) end.
  assert (inv held base w3) as I3.
  { set (f := fun s : ssock => s {{ rcv_nxt := u32 (c_verno (in_ctx p) + 1) }}).
    assert (w3 = (with_mig (in_saddr p) w2) {{ sk ::= f }}) as -> by (unfold with_mig; by rewrite upd_upd).
    destruct (iv_peer _ _ _ _ I2) as ((Q1 & Q2 & Q3 & Q4 & Q5 & Q6) & P2 & P3).
    apply inv_upd_sk; try done. split; [|done]. split_and!; try done.
    all: unfold u32; simpl; apply Z.mod_pos_bound; lia. }
  assert (core (sk w3) = core (sk w)) as C3 by exact C2.
  eapply wp_mono; [apply (push_new_ok held base w3 _ snd_nxt I3)|].
  - rewrite (core_state _ _ C3). done.
  - intros _ w4 (I4 & C4). split; [done|congruence].
Qed.
End Step.
