(* ===== verification/SalMachine.v ===== *)
(** * The connection state machine

    The transition relation of a connection whose peer is known, and that
    processing a packet follows it, runs to completion and consumes the
    packet. *)
From S2P Require Import Prelude Bst ServiceEntry ServiceTable SalHdr SalHdrProps.
From S2P Require Import Checksum SalSock Rto DelayQueue Sal SalCtrl SalState SalInv SalQueue SalStep.
Local Open Scope Z_scope.

(** An acknowledgement number in the window, or part of a migration. *)
Definition acceptable (p : inpkt) (s : ssock) : Prop :=
  before (c_ackno (in_ctx p)) (snd_una s) = false /\
  (after (c_ackno (in_ctx p)) (snd_nxt s) = false \/ rsyn_recv (sal_state s) = true).

(** The bit of the control extension, false without one. *)
Definition bit_of (p : inpkt) (bit : Z) : bool :=
  match c_ctrl_ext (in_ctx p) with
  | Some e => match rd8 (in_hdr p) (e + 2) with Ok b => Z.testbit b bit | _ => false end
  | None => false
  end.

(** The states a connection may be in after a packet; [acked] says that the
    packet's acknowledgement was accepted. *)
Inductive sal_trans (acked : Prop) (p : inpkt) (s : ssock) : sock_state -> Prop :=
| tr_stay : sal_trans acked p s (sk_state s)
| tr_reset : bit_of p RST_BIT = true -> sal_trans acked p s SAL_CLOSED
| tr_respond : sk_state s = SAL_RESPOND -> valid_ext p s = true -> acked ->
    sal_trans acked p s SAL_CONNECTED
| tr_close : sk_state s = SAL_CONNECTED -> in_flag p SVH_FIN = true -> valid_ext p s = true ->
    sal_trans acked p s SAL_CLOSEWAIT
| tr_fin_acked : sk_state s = SAL_FINWAIT1 -> in_flag p SVH_FIN = false -> acked ->
    sal_trans acked p s SAL_FINWAIT2
| tr_fin_both : sk_state s = SAL_FINWAIT1 -> in_flag p SVH_FIN = true ->
    valid_ext p s = true -> acked -> sal_trans acked p s SAL_TIMEWAIT
| tr_fin_cross : sk_state s = SAL_FINWAIT1 -> in_flag p SVH_FIN = true ->
    valid_ext p s = true -> sal_trans acked p s SAL_CLOSING
| tr_fin_fin : sk_state s = SAL_FINWAIT2 -> in_flag p SVH_FIN = true -> valid_ext p s = true ->
    sal_trans acked p s SAL_TIMEWAIT
| tr_closing : sk_state s = SAL_CLOSING -> acked -> sal_trans acked p s SAL_TIMEWAIT
| tr_lastack : sk_state s = SAL_LASTACK -> acked -> sal_trans acked p s SAL_CLOSED.

Section Machine.
Context {TP : Type} {Hwf : TpWf TP} (tp_held : TP -> gset positive) `{SalEnv} {Hstale : StaleRead} (ops : af_ops TP).
Context (Hops : TransportOk tp_held ops) (Hroom : (HDR_ROOM <= max_header)%nat).
Implicit Types (w : salw TP) (i : positive) (held : gset positive) (p : inpkt).
Abbreviation inv := (inv tp_held).

Lemma valid_core p s s' : core s = core s' -> valid_ext p s = valid_ext p s'.
Proof. unfold core, valid_ext. intros E. by injection E as _ -> _. Qed.

(** The references left after a step. *)
Definition base_of (s' s : ssock) (base : Z) : Z :=
  if bool_decide (sk_state s' = SAL_CLOSED) then base_after s base else base.
(** The packet was consumed, and the state changed along the relation. *)
Definition stepped (acked : Prop) i p held base w w' : Prop :=
  inv (held ∖ {[ i ]}) (base_of (sk w') (sk w) base) w' /\
  sal_trans acked p (sk w) (sk_state (sk w')).

Lemma stepped_core acked i p held base w0 w w' :
  core (sk w) = core (sk w0) -> stepped acked i p held base w w' ->
  stepped acked i p held base w0 w'.
Proof.
  intros E. unfold stepped, base_of, base_after.
  assert (sk_state (sk w) = sk_state (sk w0) /\ sock_dead (sk w) = sock_dead (sk w0) /\
    valid_ext p (sk w) = valid_ext p (sk w0)) as (E1 & E2 & E3).
  { split; [by apply core_state|]. split; [unfold core in E; congruence|by apply valid_core]. }
  rewrite E2. intros [I T]. split; [exact I|]. revert T. generalize (sk_state (sk w')). intros st T.
  destruct T; rewrite ?E1, ?E3 in *; by econstructor.
Qed.

(** The packet goes to the transport, or is freed. *)
Lemma has_hdr_ok i w held base (Q : bool -> salw TP -> Prop) :
  inv held base w -> i ∈ held -> (forall b, Q b w) -> wp (packet_has_transport_hdr i) w Q.
Proof.
  intros Hw Hi HQ. destruct (inv_held _ _ _ _ _ Hw Hi) as [b Hb].
  unfold packet_has_transport_hdr. sal_step. eapply load_ok; [done|]. sal_step. apply HQ.
Qed.
Lemma deliver_ok (has : bool) held base w i :
  inv held base w -> i ∈ held ->
  wp (if has then receive ops i else kfree_skb i;; mret 0) w
    (fun _ w' => inv (held ∖ {[ i ]}) base w' /\ core (sk w') = core (sk w)).
Proof.
  intros Hw Hi. destruct has.
  - eapply wp_mono; [by apply (to_receive held base)|].
    intros _ w1 (I1 & E1 & _). split; [done|by apply core_proto].
  - sal_step. eapply wp_mono; [by apply (kfree_ok tp_held held base)|].
    intros _ w1 (I1 & [E1 _] & _). sal_step. split; [done|by apply core_proto].
Qed.

Lemma ack_step_ok held base w p :
  inv held base w ->
  wp (serval_sal_ack_process ops p) w (fun r w' => inv held base w' /\
    core (sk w') = core (sk w) /\
    (r = -1 \/ r = 0 /\ in_flag p SVH_ACK = true /\ acceptable p (sk w))).
Proof.
  intros Hw. eapply wp_mono; [by apply (ack_process_ok tp_held ops Hops held base)|].
  intros r w1 (I1 & V1 & _ & Hr). split; [done|]. split; [by apply core_view|].
  destruct Hr as [[-> _]|[-> (A1 & A2 & A3 & _)]]; [by left|]. right. done.
Qed.

(** When the state did not become CLOSED. *)
Lemma stepped_open acked i p held base w w' :
  inv (held ∖ {[ i ]}) base w' -> sk_state (sk w') <> SAL_CLOSED ->
  sal_trans acked p (sk w) (sk_state (sk w')) -> stepped acked i p held base w w'.
Proof.
  intros I Hst T. split; [|done]. unfold base_of. by rewrite bool_decide_eq_false_2.
Qed.
Lemma stepped_stay acked i p held base w w' :
  inv (held ∖ {[ i ]}) base w' -> established (sk_state (sk w)) = true ->
  core (sk w') = core (sk w) -> stepped acked i p held base w w'.
Proof.
  intros I (N1 & N2 & N3 & N4)%established_not C. pose proof (core_state _ _ C) as E.
  apply stepped_open; [done|congruence|]. rewrite E. constructor.
Qed.

Definition ack_of p w : Prop := in_flag p SVH_ACK = true /\ acceptable p (sk w).

Lemma connected_ok held base w i p :
  inv held base w -> i ∈ held -> sk_state (sk w) = SAL_CONNECTED -> pkt_ok p ->
  wp (serval_sal_connected_state_process ops i p) w
    (fun _ w' => stepped (ack_of p w) i p held base w w').
Proof.
  intros Hw Hi Hst Hp. unfold serval_sal_connected_state_process.
  sal_step. eapply wp_mono; [by apply (ack_step_ok held base)|].
  intros _ w1 (I1 & C1 & _). sal_step.
  apply (wp_mono _ _ (fun close w2 => inv held base w2 /\ core (sk w2) = core (sk w) /\
    (close = true -> in_flag p SVH_FIN = true /\ valid_ext p (sk w) = true))).
  { destruct (in_flag p SVH_FIN) eqn:Hf; [|by sal_step].
    sal_step. eapply wp_mono; [by apply (rcv_fin_ok tp_held ops Hroom held base w1 p)|].
    intros r w2 (I2 & C2 & V2). sal_step. split; [done|]. split; [congruence|].
    intros ->%Z.eqb_eq. split; [done|]. rewrite <-(valid_core p _ _ C1). by apply V2. }
  intros close w2 (I2 & C2 & Hcl). sal_step. eapply has_hdr_ok; [done|done|]. intros has.
  destruct (has || in_flag p SVH_FIN) eqn:Hor.
  2: { apply orb_false_iff in Hor as [-> Hf].
       eapply wp_mono; [exact (deliver_ok false held base w2 i I2 Hi)|].
       intros _ w3 (I3 & C3). apply stepped_stay; [done|by rewrite Hst|congruence]. }
  sal_step. unfold stamp_rcv. sal_steps. set (w3 := w2 {{ sk ::= _ }}).
  assert (inv held base w3) as I3.
  { apply inv_upd_sk; try done. exact (iv_peer _ _ _ _ I2). }
  eapply wp_mono; [exact (deliver_ok true held base w3 i I3 Hi)|].
  intros err w4 (I4 & C4). assert (core (sk w4) = core (sk w)) as C by (rewrite C4; exact C2).
  sal_step. pose proof (core_state _ _ C) as E4. rewrite Hst in E4. destruct close.
  - eapply wp_mono; [apply (set_state_ok tp_held (held ∖ {[ i ]}) base w4 SAL_CLOSEWAIT I4); congruence|].
    intros _ w5 (I5 & St5 & _). sal_step. destruct (Hcl eq_refl) as [Hf Hv].
    apply stepped_open; [done|congruence|]. rewrite St5. by apply tr_close.
  - sal_steps. apply stepped_stay; [done|by rewrite Hst|done].
Qed.

(** An ACK in reply to a FIN, or nothing. *)
Lemma fin_ack_ok (fin : bool) held base w :
  inv held base w ->
  wp (if fin then serval_sal_send_ack ops;; mret tt else mret tt) w
    (fun _ w' => inv held base w' /\ proto (sk w') = proto (sk w)).
Proof.
  intros Hw. destruct fin; sal_step; [|done].
  eapply wp_mono; [exact (send_ack_ok tp_held ops Hroom held base w Hw)|].
  intros ? w1 (I1 & [K1 _] & _). by sal_step.
Qed.
Lemma ack_of_proto p w w' : proto (sk w) = proto (sk w') -> ack_of p w -> ack_of p w'.
Proof.
  intros E [H1 H2]. split; [done|].
  exact (eq_ind (proto (sk w)) (acceptable p) H2 (proto (sk w')) E).
Qed.

Lemma closewait_ok held base w i p :
  inv held base w -> i ∈ held -> sk_state (sk w) = SAL_CLOSEWAIT ->
  wp (serval_sal_closewait_state_process ops i p) w
    (fun _ w' => stepped (ack_of p w) i p held base w w').
Proof.
  intros Hw Hi Hst. unfold serval_sal_closewait_state_process.
  sal_step. eapply wp_mono; [exact (fin_ack_ok _ held base w Hw)|]. intros _ w1 (I1 & C1%core_proto).
  sal_step. eapply wp_mono; [exact (ack_step_ok held base w1 p I1)|]. intros _ w2 (I2 & C2 & _).
  sal_step. eapply has_hdr_ok; [done|done|]. intros has.
  eapply wp_mono; [exact (deliver_ok has held base w2 i I2 Hi)|].
  intros _ w3 (I3 & C3). apply stepped_stay; [done|by rewrite Hst|congruence].
Qed.

Lemma lastack_ok held base w i p :
  inv held base w -> i ∈ held -> sk_state (sk w) = SAL_LASTACK ->
  wp (serval_sal_lastack_state_process ops i p) w
    (fun _ w' => stepped (ack_of p w) i p held base w w').
Proof.
  intros Hw Hi Hst. unfold serval_sal_lastack_state_process.
  sal_step. eapply wp_mono; [exact (fin_ack_ok _ held base w Hw)|]. intros _ w1 (I1 & P1).
  sal_step. eapply wp_mono; [exact (ack_step_ok held base w1 p I1)|]. intros ack w2 (I2 & C2 & Hr).
  sal_step. eapply has_hdr_ok; [done|done|]. intros has.
  sal_step. eapply wp_mono; [exact (deliver_ok has held base w2 i I2 Hi)|].
  intros err w3 (I3 & C3).
  assert (core (sk w3) = core (sk w)) as C by (rewrite C3, C2; by apply core_proto).
  sal_step. destruct (ack =? 0) eqn:Ha.
  - destruct Hr as [->|(-> & Hr)]; [done|]. pose proof (ack_of_proto p w1 w P1 Hr) as Hack.
    eapply wp_mono; [apply (done_ok tp_held ops Hops Hroom (held ∖ {[ i ]}) base w3 I3)|].
    { by rewrite (core_state _ _ C), Hst. }
    intros _ w4 (I4 & St4 & _). sal_step. split.
    + unfold base_of. rewrite bool_decide_eq_true_2 by done.
      unfold base_after in *. unfold core in C. injection C as _ _ <-. exact I4.
    + rewrite St4. by apply tr_lastack.
  - sal_steps. apply stepped_stay; [done|by rewrite Hst|done].
Qed.

(** The end of most handlers. *)
Lemma deliver_stepped (g : bool -> bool) acked held base w w1 i p :
  inv held base w1 -> i ∈ held -> sk_state (sk w1) <> SAL_CLOSED ->
  sal_trans acked p (sk w) (sk_state (sk w1)) ->
  wp (has ← packet_has_transport_hdr i;
      if g has then receive ops i else kfree_skb i;; mret 0) w1
    (fun _ w' => stepped acked i p held base w w').
Proof.
  intros I1 Hi N1 T1. sal_step. eapply has_hdr_ok; [done|done|]. intros has.
  eapply wp_mono; [exact (deliver_ok _ held base w1 i I1 Hi)|].
  intros _ w2 (I2 & C2). pose proof (core_state _ _ C2) as E2.
  apply stepped_open; [done|congruence|]. by rewrite E2.
Qed.

Lemma finwait2_ok held base w i p :
  inv held base w -> i ∈ held -> sk_state (sk w) = SAL_FINWAIT2 -> pkt_ok p ->
  wp (serval_sal_finwait2_state_process ops i p) w
    (fun _ w' => stepped (ack_of p w) i p held base w w').
Proof.
  intros Hw Hi Hst Hp. unfold serval_sal_finwait2_state_process. sal_step.
  apply (wp_mono _ _ (fun _ w1 => inv held base w1 /\ sk_state (sk w1) <> SAL_CLOSED /\
    sal_trans (ack_of p w) p (sk w) (sk_state (sk w1)))).
  { destruct (in_flag p SVH_FIN) eqn:Hf.
    2: { sal_step. split; [done|]. split; [congruence|constructor]. }
    sal_step. eapply wp_mono; [exact (rcv_fin_ok tp_held ops Hroom held base w p Hw Hp)|].
    intros r w1 (I1 & C1 & V1). pose proof (core_state _ _ C1) as E1. destruct (r =? 0) eqn:Hr.
    - eapply wp_mono; [apply (timewait_ok tp_held held base w1 SAL_TIMEWAIT _ I1);
        [by rewrite E1, Hst|done]|].
      intros _ w2 (I2 & St2 & _). rewrite St2. split_and!; [done|done|].
      apply tr_fin_fin; [done|done|]. apply V1. by apply Z.eqb_eq.
    - sal_step. rewrite E1. split_and!; [done|congruence|constructor]. }
  intros _ w1 (I1 & N1 & T1). by apply (deliver_stepped (fun has => has || in_flag p SVH_FIN)).
Qed.

(** Time-wait, under a condition. *)
Lemma timewait_step st t (b : bool) acked held base w w1 p :
  inv held base w1 -> core (sk w1) = core (sk w) -> established (sk_state (sk w)) = true ->
  st <> SAL_INIT -> st <> SAL_CLOSED -> (b = true -> sal_trans acked p (sk w) st) ->
  wp (if b then serval_sal_timewait st t else mret tt) w1
    (fun _ w2 => inv held base w2 /\ sk_state (sk w2) <> SAL_CLOSED /\
       sal_trans acked p (sk w) (sk_state (sk w2))).
Proof.
  intros I1 C1 Hest H1 H2 HT. pose proof (core_state _ _ C1) as E1. destruct b.
  - eapply wp_mono; [apply (timewait_ok tp_held held base w1 st t I1); [by rewrite E1|done]|].
    intros _ w2 (I2 & St2 & _). rewrite St2. split_and!; [done|done|by apply HT].
  - destruct (established_not _ Hest) as (_ & _ & N & _). sal_step. rewrite E1.
    split_and!; [done|done|constructor].
Qed.

Lemma closing_ok held base w i p :
  inv held base w -> i ∈ held -> sk_state (sk w) = SAL_CLOSING ->
  wp (serval_sal_closing_state_process ops i p) w
    (fun _ w' => stepped (ack_of p w) i p held base w w').
Proof.
  intros Hw Hi Hst. unfold serval_sal_closing_state_process. sal_step.
  apply (wp_mono _ _ (fun _ w1 => inv held base w1 /\ sk_state (sk w1) <> SAL_CLOSED /\
    sal_trans (ack_of p w) p (sk w) (sk_state (sk w1)))).
  { destruct (in_flag p SVH_ACK).
    2: { sal_step. split; [done|]. split; [congruence|constructor]. }
    sal_step. eapply wp_mono; [exact (ack_step_ok held base w p Hw)|].
    intros r w1 (I1 & C1 & Hr). eapply timewait_step; try done; [by rewrite Hst|].
    intros ->%Z.eqb_eq. destruct Hr as [?|[_ Hr]]; [done|]. by apply tr_closing. }
  intros _ w1 (I1 & N1 & T1). sal_step. eapply wp_mono; [exact (fin_ack_ok _ held base w1 I1)|].
  intros _ w2 (I2 & C2%core_proto%core_state). rewrite <-C2 in N1, T1.
  by apply (deliver_stepped (fun has => has)).
Qed.

(** The FIN of a FINWAIT1 socket may be acknowledged by the packet. *)
Lemma finwait1_fin_ok (ack : bool) held base w w1 p :
  inv held base w1 -> core (sk w1) = core (sk w) -> sk_state (sk w) = SAL_FINWAIT1 -> pkt_ok p ->
  (ack = true -> ack_of p w) ->
  wp (if in_flag p SVH_FIN then
        r ← serval_sal_rcv_fin ops p;
        if r =? 0 then
          if ack then serval_sal_timewait SAL_TIMEWAIT SAL_TIMEWAIT_LEN
          else serval_sock_set_state SAL_CLOSING
        else mret tt
      else if ack then serval_sal_timewait SAL_FINWAIT2 SAL_FIN_TIMEOUT
      else mret tt) w1
    (fun _ w2 => inv held base w2 /\ sk_state (sk w2) <> SAL_CLOSED /\
       sal_trans (ack_of p w) p (sk w) (sk_state (sk w2))).
Proof.
  intros I1 C1 Hst Hp Hack. destruct (in_flag p SVH_FIN) eqn:Hf.
  2: { eapply timewait_step; try done; [by rewrite Hst|]. intros Ha. by apply tr_fin_acked; auto. }
  sal_step. eapply wp_mono; [exact (rcv_fin_ok tp_held ops Hroom held base w1 p I1 Hp)|].
  intros r w2 (I2 & C2 & V2). rewrite C1 in C2. rewrite (valid_core p _ _ C1) in V2.
  pose proof (core_state _ _ C2) as E2. destruct (r =? 0) eqn:Hr.
  2: { sal_step. rewrite E2. split_and!; [done|congruence|constructor]. }
  apply Z.eqb_eq in Hr. specialize (V2 Hr). destruct ack.
  - eapply (timewait_step SAL_TIMEWAIT SAL_TIMEWAIT_LEN true); try done; [by rewrite Hst|].
    intros _. by apply tr_fin_both; auto.
  - eapply wp_mono; [apply (set_state_ok tp_held held base w2 SAL_CLOSING I2); congruence|].
    intros _ w3 (I3 & St3 & _). rewrite St3. split_and!; [done|done|by apply tr_fin_cross].
Qed.

Lemma finwait1_ok held base w i p :
  inv held base w -> i ∈ held -> sk_state (sk w) = SAL_FINWAIT1 -> pkt_ok p ->
  wp (serval_sal_finwait1_state_process ops i p) w
    (fun _ w' => stepped (ack_of p w) i p held base w w').
Proof.
  intros Hw Hi Hst Hp. unfold serval_sal_finwait1_state_process. sal_step.
  apply (wp_mono _ _ (fun (ack : bool) w1 => inv held base w1 /\ core (sk w1) = core (sk w) /\
    (ack = true -> ack_of p w))).
  { destruct (in_flag p SVH_ACK); [|by sal_step]. sal_step.
    eapply wp_mono; [exact (ack_step_ok held base w p Hw)|].
    intros r w1 (I1 & C1 & Hr). sal_step. split_and!; [done|done|].
    intros ->%Z.eqb_eq. by destruct Hr as [?|[_ Hr]]. }
  intros ack w1 (I1 & C1 & Ha). sal_step.
  eapply wp_mono; [by apply (finwait1_fin_ok ack held base w w1)|].
  intros _ w2 (I2 & N2 & T2). by apply (deliver_stepped (fun has => has || in_flag p SVH_FIN)).
Qed.

Lemma respond_ok held base w i p :
  inv held base w -> i ∈ held -> sk_state (sk w) = SAL_RESPOND -> pkt_ok p ->
  wp (serval_sal_respond_state_process ops i p) w
    (fun _ w' => stepped (ack_of p w) i p held base w w').
Proof.
  intros Hw Hi Hst Hp. unfold serval_sal_respond_state_process. sal_step.
  apply valid_ext_ok; [done|]. assert (forall w1, inv held base w1 -> core (sk w1) = core (sk w) ->
    wp (kfree_skb i;; mret 0) w1 (fun _ w' => stepped (ack_of p w) i p held base w w')) as Hdrop.
  { intros w1 I1 C1. eapply wp_mono; [exact (deliver_ok false held base w1 i I1 Hi)|].
    intros _ w2 (I2 & C2). apply stepped_stay; [done|by rewrite Hst|congruence]. }
  destruct (valid_ext p (sk w)) eqn:Hv; cbn [negb]; [|by apply Hdrop].
  sal_step. eapply wp_mono; [exact (ack_step_ok held base w p Hw)|].
  intros r w1 (I1 & C1 & Hr). destruct (r =? 0) eqn:Hr0; cbn [negb]; [|by apply Hdrop].
  destruct Hr as [->|[-> Hack]]; [done|]. sal_step. sal_step. set (w2 := w1 {{ sk ::= _ }}).
  assert (inv held base w2) as I2.
  { destruct (iv_peer _ _ _ _ I1) as (P1 & P2 & P3). destruct Hp as [_ Hp]. by apply inv_upd_sk. }
  assert (core (sk w2) = core (sk w)) as C2 by exact C1.
  sal_step. apply (wp_mono _ _ (fun r w3 => inv (if r =? 0 then held else held ∖ {[ i ]}) base w3 /\
    core (sk w3) = core (sk w))).
  { destruct (respond_state_process ops) as [f|] eqn:Hf; cbn [call1];
      [|sal_step; split; [exact I2|exact C2]].
    eapply wp_mono; [exact (to_respond f held base w2 i Hf I2 Hi)|].
    intros r w3 (I3 & E3 & _). split; [done|]. rewrite <-C2. by apply core_proto. }
  intros err w3 (I3 & C3). pose proof (core_state _ _ C3) as E3. rewrite Hst in E3.
  destruct (err =? 0) eqn:He; cbn [negb].
  2: { sal_step. apply stepped_stay; [done|by rewrite Hst|done]. }
  sal_step. eapply wp_mono; [apply (set_state_ok tp_held held base w3 SAL_CONNECTED I3); congruence|].
  intros _ w4 (I4 & St4 & _). sal_step. sal_step. set (w5 := w4 {{ wakeups ::= S }}).
  assert (inv held base w5) as I5 by (by eapply inv_ext).
  eapply wp_mono; [exact (deliver_ok false held base w5 i I5 Hi)|].
  intros _ w6 (I6 & C6). pose proof (core_state _ _ C6) as E6.
  change (sk_state (sk w5)) with (sk_state (sk w4)) in E6. rewrite St4 in E6.
  apply stepped_open; [done|congruence|]. rewrite E6. by apply tr_respond.
Qed.

(** ** The dispatcher *)
Lemma ctrl_bit_ok p bit w (Q : bool -> salw TP -> Prop) :
  pkt_ok p -> c_ctrl_ext (in_ctx p) <> None -> Q (bit_of p bit) w -> wp (ctrl_bit p bit) w Q.
Proof using Type.
  clear Hops Hroom. intros [Hp _] Hc HQ. unfold ctrl_bit. unfold bit_of in HQ.
  destruct (c_ctrl_ext (in_ctx p)) as [e|]; [|done].
  destruct (rd8_in (in_hdr p) (e + 2)) as [b Hb]; [specialize (Hp e eq_refl); lia|].
  rewrite Hb in HQ. sal_step. eapply liftR_ok; [exact Hb|]. by sal_step.
Qed.

Lemma trans_mono (A B : Prop) p s st : (A -> B) -> sal_trans A p s st -> sal_trans B p s st.
Proof. intros HAB []; constructor; solve [auto]. Qed.
Lemma stepped_mono (A B : Prop) i p held base w w' :
  (A -> B) -> stepped A i p held base w w' -> stepped B i p held base w w'.
Proof. intros HAB [I T]. split; [done|]. by eapply trans_mono. Qed.

(** Each state's handler. *)
Definition handler (st : sock_state) i p : SALM TP Z :=
  match st with
  | SAL_CONNECTED => serval_sal_connected_state_process ops i p
  | SAL_RESPOND => serval_sal_respond_state_process ops i p
  | SAL_FINWAIT1 => serval_sal_finwait1_state_process ops i p
  | SAL_FINWAIT2 => serval_sal_finwait2_state_process ops i p
  | SAL_CLOSING => serval_sal_closing_state_process ops i p
  | SAL_LASTACK => serval_sal_lastack_state_process ops i p
  | SAL_CLOSEWAIT => serval_sal_closewait_state_process ops i p
  | _ =>
      (match c_ctrl_ext (in_ctx p) with
       | Some _ =>
           fin ← ctrl_bit p FIN_BIT;
           if (fin : bool) then serval_sal_send_ack ops;; mret tt else mret tt
       | None => mret tt
       end);;
      kfree_skb i;; mret 0
  end.

Lemma handler_ok held base w i p :
  inv held base w -> i ∈ held -> established (sk_state (sk w)) = true -> pkt_ok p ->
  wp (handler (sk_state (sk w)) i p) w (fun _ w' => stepped (ack_of p w) i p held base w w').
Proof.
  intros Hw Hi Hest Hp. destruct (sk_state (sk w)) eqn:Hst; try done; cbn [handler].
  - by apply connected_ok.
  - by apply respond_ok.
  - by apply finwait1_ok.
  - by apply finwait2_ok.
  - sal_step. apply (wp_mono _ _ (fun _ w1 => inv held base w1 /\ core (sk w1) = core (sk w))).
    { destruct (c_ctrl_ext (in_ctx p)) eqn:Hc; [|by sal_step]. sal_step.
      apply ctrl_bit_ok; [done|congruence|].
      eapply wp_mono; [exact (fin_ack_ok _ held base w Hw)|].
      intros _ w1 (I1 & P1). split; [done|by apply core_proto]. }
    intros _ w1 (I1 & C1). eapply wp_mono; [exact (deliver_ok false held base w1 i I1 Hi)|].
    intros _ w2 (I2 & C2). apply stepped_stay; [done|by rewrite Hst|congruence].
  - by apply closewait_ok.
  - by apply lastack_ok.
  - by apply closing_ok.
Qed.

(** What happens before the state's handler: true when the packet is dropped. *)
Definition control (p : inpkt) : SALM TP bool :=
  s ← the_sk;
  match c_ctrl_ext (in_ctx p) with
  | None => mret false
  | Some _ =>
      if negb (has_valid_verno (bool_decide (sk_state s = SAL_LISTEN \/ sk_state s = SAL_REQUEST))
                 (rcv_nxt s) (in_ctx p))
      then serval_sal_send_ack ops;; mret true
      else
        rst ← ctrl_bit p RST_BIT;
        if (rst : bool) then serval_sal_rcv_reset ops;; mret true
        else
          rsyn ← ctrl_bit p RSYN_BIT;
          if (rsyn : bool) then
            ack ← ctrl_bit p ACK_BIT;
            (if (ack : bool) then serval_sal_rcv_rsynack ops p else serval_sal_rcv_rsyn ops p);;
            mret false
          else mret false
  end.

Lemma control_ok held base w p :
  inv held base w -> established (sk_state (sk w)) = true -> pkt_ok p ->
  wp (control p) w (fun drop w' =>
    if drop : bool
    then inv held (base_of (sk w') (sk w) base) w' /\
         sal_trans False p (sk w) (sk_state (sk w'))
    else inv held base w' /\ core (sk w') = core (sk w) /\
         (bit_of p RSYN_BIT = false -> w' = w)).
Proof.
  intros Hw Hest Hp. destruct (established_not _ Hest) as (N1 & N2 & N3 & N4).
  unfold control. sal_steps. destruct (c_ctrl_ext (in_ctx p)) eqn:Hc; [|by sal_step].
  destruct (negb _).
  - sal_step. eapply wp_mono; [exact (ack_core tp_held ops Hroom held base w Hw)|].
    intros ? w1 (I1 & C1). sal_step. pose proof (core_state _ _ C1) as E1.
    unfold base_of. rewrite E1, bool_decide_eq_false_2 by done. split; [done|constructor].
  - sal_step. apply ctrl_bit_ok; [done|congruence|]. destruct (bit_of p RST_BIT) eqn:Hrst.
    + sal_step. eapply wp_mono; [exact (rcv_reset_ok tp_held ops Hops Hroom held base w Hw Hest)|].
      intros _ w1 (I1 & St1 & _). sal_step. unfold base_of.
      rewrite St1, bool_decide_eq_true_2 by done. split; [done|by constructor].
    + sal_step. apply ctrl_bit_ok; [done|congruence|]. destruct (bit_of p RSYN_BIT) eqn:Hr.
      * sal_step. apply ctrl_bit_ok; [done|congruence|]. sal_step.
        destruct (bit_of p ACK_BIT);
          (eapply wp_mono;
             [first [exact (rcv_rsynack_ok tp_held ops Hops Hroom held base w p Hw Hp)
                    |exact (rcv_rsyn_ok tp_held ops Hops Hroom held base w p Hw Hest Hp)]|]);
          intros ? w1 (I1 & C1); by sal_step.
      * by sal_step.
Qed.

(** The acknowledgement of the packet counts: it has the ACK flag and, unless the
    packet is also part of a migration, an acceptable number. *)
Definition packet_acks p (s : ssock) : Prop :=
  in_flag p SVH_ACK = true /\ (bit_of p RSYN_BIT = false -> acceptable p s).

Lemma state_process_ok listen reset held base w i p :
  inv held base w -> i ∈ held -> established (sk_state (sk w)) = true -> pkt_ok p ->
  wp (state_process_with ops listen reset i p) w
    (fun r w' => r = 0 /\ stepped (packet_acks p (sk w)) i p held base w w').
Proof.
  intros Hw Hi Hest Hp. unfold state_process_with. sal_step. sal_step. sal_step.
  eapply wp_mono; [exact (control_ok held base w p Hw Hest Hp)|].
  intros [] w1 H1.
  - destruct H1 as (I1 & T1). sal_step.
    eapply wp_mono; [exact (kfree_ok tp_held _ _ _ _ I1 Hi)|].
    intros _ w2 (I2 & [K2 _] & _). sal_step. split; [done|].
    pose proof (core_state _ _ (core_proto _ _ K2)) as E2. split.
    + unfold base_of in *. by rewrite E2.
    + rewrite E2. by eapply trans_mono; [|exact T1].
  - destruct H1 as (I1 & C1 & Hsame). destruct (inv_held _ _ _ _ _ I1 Hi) as [b Hb].
    sal_step. eapply load_ok; [done|]. sal_step. sal_step. set (w2 := w1 {{ sk ::= _ }}).
    assert (inv held base w2) as I2.
    { apply inv_upd_sk; try done. exact (iv_peer _ _ _ _ I1). }
    assert (core (sk w2) = core (sk w)) as C2 by exact C1.
    pose proof (core_state _ _ C2) as E2. rewrite <-E2 in Hest. sal_step. sal_step.
    assert (wp (handler (sk_state (sk w2)) i p;; mret 0) w2 (fun r w' => r = 0 /\
      stepped (packet_acks p (sk w)) i p held base w w')) as HH.
    { sal_step. eapply wp_mono; [exact (handler_ok held base w2 i p I2 Hi Hest Hp)|].
      intros ? w3 S3. sal_step. split; [done|].
      eapply stepped_mono; [|exact (stepped_core _ _ _ _ _ _ _ _ C2 S3)].
      intros [A1 A2]. split; [done|]. intros Hr.
      assert (acceptable p (sk w1)) as A3 by exact A2. by rewrite (Hsame Hr) in A3. }
    destruct (sk_state (sk w2)); try done; try exact HH.
    revert HH. cbn [handler]. unfold wp, mbind, M_bind.
    destruct ((match c_ctrl_ext _ with _ => _ end) w2) as [[? w3]| |]; try done.
    by destruct (kfree_skb i w3) as [[? ?]| |].
Qed.
End Machine.
