(* ===== verification/SalSession.v ===== *)
(** * Sessions: every interleaving of packets, calls and timeouts

    An established connection is driven by packets from the network, by the
    application ([close], migration to another interface) and by its timers,
    in any order.  The steps are the handlers of the code; the theorems are
    that no order makes a handler fault, run for ever, leak a buffer or lose a
    reference, and that the state follows the protocol. *)
From S2P Require Import Prelude Bst ServiceEntry ServiceTable SalHdr SalHdrProps.
From S2P Require Import Checksum SalSock Rto DelayQueue Sal SalCtrl SalState SalListen.
From S2P Require Import WireClaims SalInv SalQueue SalStep SalMachine.
Local Open Scope Z_scope.

(** Merging flags keeps those of the new packet. *)
Lemma merged_flags a fl f :
  0 <= f < 256 -> Z.land a f = f -> Z.land (u8 (Z.lor a fl)) f = f.
Proof.
  intros Hf Ha. apply Z.bits_inj'. intros n Hn. rewrite Z.land_spec. unfold u8.
  destruct (Z.testbit f n) eqn:Hb; [|by rewrite andb_false_r].
  assert (n < 8).
  { destruct (Z.lt_ge_cases n 8); [done|]. rewrite Z.bits_above_log2 in Hb; [done|lia|].
    destruct (Z.eq_dec f 0) as [->|]; [simpl; lia|].
    pose proof (Z.log2_lt_pow2 f 8 ltac:(lia)). lia. }
  rewrite Z.mod_pow2_bits_low, Z.lor_spec by done.
  assert (Z.testbit a n = true) as ->; [|done].
  assert (Z.testbit (Z.land a f) n = Z.testbit f n) as E by (by rewrite Ha).
  rewrite Z.land_spec, Hb, andb_true_r in E. done.
Qed.

Lemma wire_fin f : flag_set (wire_flags f) SVH_FIN = flag_set f SVH_FIN.
Proof. unfold wire_flags, flag_set. by rewrite <-Z.land_assoc. Qed.
Lemma fin_is_ctrl f : Z.land f SVH_FIN = SVH_FIN -> flag_set f SVH_FIN = true /\ is_ctrl_packet f = true.
Proof.
  intros E. assert (flag_set f SVH_FIN = true) as H by (unfold flag_set; by rewrite E).
  split; [done|]. unfold is_ctrl_packet. rewrite H. by rewrite !orb_true_r.
Qed.

Section Session.
Context {TP : Type} {Hwf : TpWf TP} (tp_held : TP -> gset positive) `{SalEnv} {Hstale : StaleRead} (ops : af_ops TP).
Context (Hops : TransportOk tp_held ops) (Hroom : (HDR_ROOM <= max_header)%nat).
(** The transport leaves closing to the SAL, as UDP does. *)
Context (Hclose : conn_close ops = None).
Implicit Types (w : salw TP) (i : positive) (held : gset positive) (p : inpkt).
Abbreviation inv := (inv tp_held).

(** ** Sending from the slot *)
Lemma wp_bind_inv {A B} (m : SALM TP A) (k : A -> SALM TP B) w Q :
  wp (m ≫= k) w Q -> wp m w (fun a w' => wp (k a) w' Q).
Proof using Type. unfold wp, mbind, M_bind. by destruct (m w) as [[]| |]. Qed.

Lemma new_owned_some held base w b :
  inv held base w ->
  wp (i ← new_skb b; (set_owner_w i;; mret (Some i))) w
    (fun o w' => exists i, o = Some i /\ got_skb tp_held held base w (b {{ skb_owned := true }}) o w').
Proof using Type.
  clear Hops Hroom Hclose. intros Hw.
  pose proof (new_owned_ok tp_held held base w b Hw) as HP.
  apply wp_run in HP as (o & w' & Hrun & Hg). apply wp_run. exists o, w'. split; [done|].
  apply bind_Ok_inv in Hrun as (i & w1 & _ & Hrun).
  apply bind_Ok_inv in Hrun as (u & w2 & _ & Hrun). injection Hrun as <- <-. by exists i.
Qed.

Lemma alloc_retry_ok allocs held base w :
  inv held base w -> (length (skb_allocs w) <= length allocs)%nat ->
  wp (alloc_retry allocs) w (fun i w' => got_skb tp_held held base w (ctrl_skb 0 0) (Some i) w').
Proof using Type.
  clear Hops Hroom Hclose. revert w.
  assert (forall k (Q : positive -> salw TP -> Prop) w, inv held base w ->
    (forall i w', got_skb tp_held held base w (ctrl_skb 0 0) (Some i) w' -> Q i w') ->
    wp (o ← (i ← new_skb (SalSkb 0 0 0 (Skb (replicate max_header 0) []) false 0);
             set_owner_w i;; mret (Some i));
        match o with Some i => mret i | None => k end) w Q) as Hnew.
  { intros k Q w Hw HQ. sal_step. eapply wp_mono; [by apply (new_owned_some held base)|].
    intros ? w1 (i & -> & Hg). sal_step. by apply HQ. }
  assert (forall k (Q : positive -> salw TP -> Prop) w, inv held base w ->
    (forall i w', got_skb tp_held held base w (ctrl_skb 0 0) (Some i) w' -> Q i w') ->
    (forall bs, skb_allocs w = false :: bs -> wp k (w {{ skb_allocs := bs }}) Q) ->
    wp (o ← sk_sal_alloc_skb; match o with Some i => mret i | None => k end) w Q) as Hone.
  { intros k Q w Hw HQ Hk. unfold sk_sal_alloc_skb, alloc_owned.
    destruct (skb_allocs w) as [|[] bs] eqn:Ha.
    - sal_step. sal_step. unfold wp at 1, alloc_result. rewrite Ha.
      apply wp_bind_inv. by apply Hnew.
    - sal_step. sal_step. unfold wp at 1, alloc_result. rewrite Ha.
      set (w0 := w {{ skb_allocs := bs }}).
      assert (inv held base w0) as Hw0 by (by eapply inv_ext).
      apply wp_bind_inv, (Hnew k Q w0 Hw0). intros i w' Hg. apply HQ.
      assert (skb_allocs w <> []) by (by rewrite Ha).
      eapply got_skb_ext; [..|exact Hg]; done.
    - sal_step. sal_step. unfold wp at 1, alloc_result. rewrite Ha. sal_step. by apply Hk. }
  induction allocs as [|a allocs IH]; intros w Hw Hl; cbn [alloc_retry]; (apply Hone; [done|done|]);
    intros bs Ha; rewrite Ha in Hl; simpl in Hl; [lia|].
  eapply wp_mono; [apply IH; [by eapply inv_ext|rsimp; simpl; lia]|].
  assert (skb_allocs w <> []) by (by rewrite Ha).
  intros i w'. by apply got_skb_ext.
Qed.

(** A new control packet replaces what is in the slot and is pushed. *)
Lemma push_slot_ok held base w i b :
  inv ({[ i ]} ∪ held) base w -> i ∉ held -> sk_state (sk w) <> SAL_CLOSED ->
  skbs w !! i = Some b -> skb_owned b = true -> length (headroom (skb_buf b)) = max_header ->
  wp (serval_sal_queue_and_push ops i) w (fun r w' => inv held base w' /\
    core (sk w') = core (sk w) /\ pushed i b (slot_flags w) r w w').
Proof using Hstale Hroom.
  intros Hw Hn Hst Hb Ho Hl.
  eapply wp_mono; [apply (queue_and_push_ok tp_held ops ({[ i ]} ∪ held) base w i b); try done|].
  - clear. set_solver.
  - by rewrite Hl.
  - intros r w' (I & P). rewrite held_back in I by done. split; [done|]. split; [|done].
    destruct P as (_ & P & _). by apply core_u.
Qed.

(** The packet in the slot. *)
Definition in_slot w (flags verno : Z) : Prop :=
  exists i b, ctrl_queue (sk w) = Some i /\ skbs w !! i = Some b /\
    skb_verno b = verno /\ Z.land (skb_flags b) flags = flags.

Definition fin_flags (st : rsyn_state) : Z :=
  match st with
  | SAL_RSYN_SENT => Z.lor SVH_FIN SVH_RSYN
  | SAL_RSYN_RECV => Z.lor SVH_FIN (Z.lor SVH_RSYN SVH_ACK)
  | _ => SVH_FIN
  end.

(** A frame that its receiver parses to a FIN with version number [verno]. *)
Definition carries_fin (verno : Z) (f : frame) : Prop :=
  exists ctx, serval_sal_parse_hdr (f_bytes f) SAL_PARSE_ALL = Ok (0, ctx) /\
    flag_set (c_flags ctx) SVH_FIN = true /\ c_verno ctx = verno.
Lemma wire_fin_ok (s : ssock) b saddr daddr dev :
  hdr_sock_ok (hdr_of s) -> (HDR_ROOM <= length (headroom (skb_buf b)))%nat ->
  0 <= skb_verno b < 2 ^ 32 -> Z.land (skb_flags b) SVH_FIN = SVH_FIN ->
  carries_fin (skb_verno b) (out_frame saddr daddr dev (wire_bytes s b)).
Proof using Type.
  clear Hops Hroom Hclose. intros Hs Hr Hv Hf. destruct (fin_is_ctrl _ Hf) as [F1 F2]. unfold HDR_ROOM in Hr.
  destruct (build_parses 0 (hdr_of s) (SkbCb (skb_flags b) (skb_verno b)) (skb_buf b) Hs ltac:(lia) Hv)
    as (buf & ctx & Hb & Hp & D). unfold carries_fin, out_frame, wire_bytes. rewrite Hb.
  exists ctx. split; [exact Hp|]. rewrite (dec_flags _ _ _ _ D). cbn [cb_flags]. rewrite F2, wire_fin.
  split; [done|]. by apply (dec_ctrl _ _ _ _ D).
Qed.
(** Unless an allocation or the device fails, the FIN goes out. *)
Definition fin_sent w w' : Prop :=
  let out := exists f, sent w' = sent w ++ [f] /\ carries_fin (snd_nxt (sk w)) f in
  (sent w' = sent w \/ out) /\ (willing w -> out).

Lemma send_fin_ok held base w :
  inv held base w -> sk_state (sk w) <> SAL_CLOSED ->
  wp (serval_sal_send_fin ops) w (fun _ w' => inv held base w' /\ core (sk w') = core (sk w) /\
    in_slot w' SVH_FIN (snd_nxt (sk w)) /\ snd_nxt (sk w') = u32 (snd_nxt (sk w) + 1) /\
    snd_una (sk w') = snd_nxt (sk w) /\
    (0 <= snd_nxt (sk w) < 2 ^ 32 -> 1 <= snd_wnd (sk w) -> fin_sent w w')).
Proof using Hstale Hroom.
  intros Hw Hst. unfold serval_sal_send_fin, sk_sal_alloc_retry. sal_steps.
  eapply wp_mono; [by apply (alloc_retry_ok _ held base w Hw)|].
  intros i w1 (K1 & S1 & I1 & Hn & _ & D1). sal_steps.
  assert (skbs w1 !! i = Some (ctrl_skb 0 0)) as Hb1 by (rewrite D1; apply lookup_insert_eq).
  fold (fin_flags (sal_state (sk w1))). eapply set_cb_ok; [done|].
  set (b := (ctrl_skb 0 0) {{ skb_flags := _; skb_verno := _ }}).
  set (w2 := w1 {{ skbs ::= <[i := b]> }}). sal_steps. rewrite upd_upd. set (w3 := w2 {{ sk ::= _ }}).
  assert (i ∈ {[ i ]} ∪ held) as Hi by (clear; set_solver).
  assert (inv ({[ i ]} ∪ held) base w2) as I2 by (eapply inv_store; [done|done|done|by left]).
  assert (inv ({[ i ]} ∪ held) base w3) as I3.
  { apply inv_upd_sk; try done. exact (iv_peer _ _ _ _ I2). }
  assert (core (sk w3) = core (sk w)) as C3.
  { change (core (sk w1) = core (sk w)). by apply core_proto, K1. }
  assert (snd_nxt (sk w1) = snd_nxt (sk w)) as E1 by (destruct K1 as [K1 _]; exact (f_equal snd_nxt K1)).
  eapply wp_mono.
  { apply (push_slot_ok held base w3 i b); [done|done| |apply lookup_insert_eq|done|].
    - rewrite (core_state _ _ C3). done.
    - unfold b, ctrl_skb. rsimp. simpl. apply length_replicate. }
  intros r w4 (I4 & C4 & P4). split; [done|]. split; [congruence|].
  destruct P4 as (Q4 & U4 & V4 & _ & _ & (b' & Hb' & F' & N') & L4).
  assert (Z.land (u8 (Z.lor (skb_flags b) (slot_flags w3))) SVH_FIN = SVH_FIN) as Hfl.
  { apply merged_flags; [done|]. unfold b. rsimp. by destruct (sal_state (sk w1)). }
  split_and!.
  - exists i, b'. split_and!; [done|done|by rewrite N', <-E1|]. by rewrite F'.
  - rewrite <-E1. exact (f_equal snd_nxt U4).
  - by rewrite V4, <-E1.
  - intros Hnx Hwnd. set (b1 := b {{ skb_flags := _ }}) in L4.
    assert (snd_wnd (sk w3) = snd_wnd (sk w)) as Ew by (destruct K1 as [K1 _]; exact (f_equal snd_wnd K1)).
    assert (u32 (snd_nxt (sk w3) - skb_verno b) = 1) as Eu.
    { change (u32 (u32 (snd_nxt (sk w1) + 1) - snd_nxt (sk w1)) = 1). rewrite E1. unfold u32.
      rewrite Zminus_mod_idemp_l. by replace (snd_nxt (sk w) + 1 - snd_nxt (sk w)) with 1 by lia. }
    rewrite Eu, Ew, (proj2 (Z.leb_le _ _) Hwnd) in L4. destruct L4 as (L1 & L2 & L3).
    change (sent w3) with (sent w1) in L1, L2. rewrite S1 in L1, L2.
    assert (0 <= r -> exists f, sent w4 = sent w ++ [f] /\ carries_fin (snd_nxt (sk w)) f) as Hout.
    { intros Hr. destruct (L2 Hr) as (saddr & dev & ->). eexists. split; [done|]. rewrite <-E1.
      apply (wire_fin_ok (sk w3) (copy_of b1)); [by apply I3| |by rewrite <-E1 in Hnx|exact Hfl].
      unfold copy_of, b1, b, ctrl_skb. rsimp. cbn [headroom]. by rewrite !length_replicate. }
    split.
    + destruct (Z.lt_ge_cases r 0); [left; by apply L1|right; by apply Hout].
    + intros Hwl. apply Hout, L3. by apply (willing_kept _ _ K1).
Qed.

(** ** Migration *)
Definition sent_rsyn (st : rsyn_state) : rsyn_state :=
  match st with
  | SAL_RSYN_INITIAL => SAL_RSYN_SENT
  | SAL_RSYN_RECV => SAL_RSYN_SENT_RECV
  | _ => st
  end.
Lemma sent_rsyn_run w (Q : unit -> salw TP -> Prop) :
  Q tt (w {{ sk ::= (fun s => s {{ sal_state := sent_rsyn (sal_state s) }}) }}) ->
  wp (match sal_state (sk w) with
      | SAL_RSYN_INITIAL => serval_sock_set_sal_state SAL_RSYN_SENT
      | SAL_RSYN_RECV => serval_sock_set_sal_state SAL_RSYN_SENT_RECV
      | _ => mret tt
      end) w Q.
Proof using Type.
  clear Hops Hroom Hclose.
  assert (forall st, sal_state (sk w) = st ->
    w {{ sk ::= (fun s => s {{ sal_state := st }}) }} = w) as Hid.
  { intros st <-. destruct w as [s]. by destruct s. }
  intros HQ. destruct (sal_state (sk w)) eqn:Hs; sal_step; rewrite (upd_eq w _ (fun s => s
    {{ sal_state := sent_rsyn (sal_state (sk w)) }})) in HQ by done; rewrite Hs in HQ;
    try exact HQ; cbn [sent_rsyn] in HQ; by rewrite Hid in HQ.
Qed.

(** Migration queues an RSYN with the next version number. *)
Lemma migrate_ok held base w :
  inv held base w -> established (sk_state (sk w)) = true ->
  wp (serval_sal_migrate ops) w (fun _ w' => inv held base w' /\ core (sk w') = core (sk w) /\
    in_slot w' SVH_RSYN (snd_nxt (sk w)) /\ snd_nxt (sk w') = u32 (snd_nxt (sk w) + 1)).
Proof using Hstale Hroom.
  intros Hw Hest. pose proof (established_not _ Hest) as (N1 & N2 & N3 & N4).
  unfold serval_sal_migrate, serval_sal_send_rsyn. sal_steps. set (w0 := w {{ sk ::= _ }}).
  assert (forall A (x y : A), match sk_state (sk w0) with
    | SAL_CLOSED | SAL_LISTEN | SAL_REQUEST => x | _ => y end = y) as Hm
    by (intros; change (sk_state (sk w0)) with (sk_state (sk w)); by destruct (sk_state (sk w))).
  rewrite Hm. sal_step. apply sent_rsyn_run. set (w1 := w0 {{ sk ::= _ }}).
  assert (inv held base w1) as I1.
  { unfold w1, w0. rewrite upd_upd. destruct (iv_peer _ _ _ _ Hw) as (P1 & P2 & P3).
    apply inv_upd_sk; try done. split; [exact P1|]. split; [exact P2|]. rsimp.
    intros Hr. apply P3. by destruct (sal_state (sk w)). }
  unfold sk_sal_alloc_retry. sal_steps. eapply wp_mono; [by apply (alloc_retry_ok _ held base w1 I1)|].
  intros i w2 (K2 & _ & I2 & Hn & _ & D2).
  assert (skbs w2 !! i = Some (ctrl_skb 0 0)) as Hb2 by (rewrite D2; apply lookup_insert_eq).
  sal_step. eapply set_cb_ok; [done|]. set (b := (ctrl_skb 0 0) {{ skb_flags := _; skb_verno := _ }}).
  set (w3 := w2 {{ skbs ::= <[i := b]> }}).
  assert (i ∈ {[ i ]} ∪ held) as Hi by (clear; set_solver).
  assert (inv ({[ i ]} ∪ held) base w3) as I3 by (eapply inv_store; [done|done|done|by left]).
  assert (core (sk w3) = core (sk w)) as C3.
  { change (core (sk w2) = core (sk w1)). by apply core_proto, K2. }
  eapply wp_mono.
  { apply (push_slot_ok held base w3 i b); [done|done| |apply lookup_insert_eq|done|].
    - rewrite (core_state _ _ C3). done.
    - unfold b, ctrl_skb. rsimp. simpl. apply length_replicate. }
  intros r w4 (I4 & C4 & P4). split; [done|]. split; [congruence|].
  destruct P4 as (Q4 & U4 & V4 & _ & _ & (b' & Hb' & F' & N') & _). split.
  - exists i, b'. split_and!; [done|done|by rewrite N'|]. rewrite F'.
    apply merged_flags; [done|]. unfold b. rsimp. by destruct (fin_unacked _).
  - transitivity (snd_nxt (sk w3)); [exact (f_equal snd_nxt U4)|].
    destruct K2 as [K2 _]. exact (f_equal snd_nxt K2).
Qed.

(** ** Close *)
(** The state after [close]. *)
Definition closing (st : sock_state) : sock_state :=
  match st with
  | SAL_CONNECTED | SAL_RESPOND => SAL_FINWAIT1
  | SAL_CLOSEWAIT => SAL_LASTACK
  | SAL_LASTACK => SAL_CLOSED
  | st => st
  end.
Lemma close_ok held base w :
  inv held base w -> established (sk_state (sk w)) = true ->
  wp (serval_sal_close ops) w (fun _ w' =>
    inv held (base_of (sk w') (sk w) base) w' /\
    sk_state (sk w') = closing (sk_state (sk w)) /\
    (sk_state (sk w) = SAL_CONNECTED \/ sk_state (sk w) = SAL_CLOSEWAIT ->
       in_slot w' SVH_FIN (snd_nxt (sk w)) /\ snd_nxt (sk w') = u32 (snd_nxt (sk w) + 1) /\
       (0 <= snd_nxt (sk w) < 2 ^ 32 -> 1 <= snd_wnd (sk w) -> fin_sent w w'))).
Proof using Hstale Hops Hroom Hclose.
  intros Hw Hest. pose proof (established_not _ Hest) as (N1 & N2 & N3 & N4).
  unfold serval_sal_close. rewrite Hclose. sal_steps.
  assert (forall st, st <> SAL_INIT -> st <> SAL_CLOSED ->
    wp (serval_sock_set_state st;; (serval_sal_send_fin ops;; mret tt)) w (fun _ w' =>
      inv held base w' /\ sk_state (sk w') = st /\
      in_slot w' SVH_FIN (snd_nxt (sk w)) /\ snd_nxt (sk w') = u32 (snd_nxt (sk w) + 1) /\
      (0 <= snd_nxt (sk w) < 2 ^ 32 -> 1 <= snd_wnd (sk w) -> fin_sent w w'))) as Hfin.
  { intros st H1 H2. sal_step. apply set_state_run; [done..|]. set (w1 := w {{ sk ::= _ }}).
    destruct (new_state_fields st (sk w)) as (E1 & E2 & E3 & E4 & E5 & E6 & E7 & E8 & _).
    assert (inv held base w1) as I1 by (apply inv_upd_sk; try done; [congruence|apply E6, Hw]).
    assert (snd_nxt (sk w1) = snd_nxt (sk w)) as Hnx.
    { change (snd_nxt (new_state st (sk w)) = snd_nxt (sk w)). unfold new_state, unhash_established.
      destruct (_ && _), (in_table (sk w)); done. }
    sal_step. eapply wp_mono.
    { apply (send_fin_ok held base w1 I1). change (sk_state (new_state st (sk w)) <> SAL_CLOSED). congruence. }
    assert (snd_wnd (sk w1) = snd_wnd (sk w) /\ sk_bound_dev_if (sk w1) = sk_bound_dev_if (sk w)) as [Hwn Hbd].
    { change (snd_wnd (new_state st (sk w)) = snd_wnd (sk w) /\
        sk_bound_dev_if (new_state st (sk w)) = sk_bound_dev_if (sk w)). unfold new_state, unhash_established.
      destruct (_ && _), (in_table (sk w)); done. }
    intros r w2 (I2 & C2 & S2 & X2 & _ & F2). sal_step. rewrite Hnx in S2, X2.
    split_and!; [done| |done|done|]. { rewrite (core_state _ _ C2). exact E5. }
    intros Hn Hw1. unfold fin_sent in *. rewrite Hnx, Hwn in F2. destruct (F2 Hn Hw1) as [F3 F4].
    split; [exact F3|]. intros (W1 & W2 & W3). apply F4. split_and!; [done|done|by rewrite Hbd]. }
  unfold base_of.
  destruct (sk_state (sk w)) eqn:Hst; cbn [established closing] in *; try done.
  all: try (eapply wp_mono; [apply Hfin; done|]; cbn beta; intros _ w1 (I1 & S1 & F1 & X1 & Y1);
            rewrite S1, bool_decide_eq_false_2 by done; done).
  all: try (sal_step; rewrite Hst, bool_decide_eq_false_2 by done; split_and!; try done; by intros [?|?]).
  all: eapply wp_mono; [apply (done_ok tp_held ops Hops Hroom held base w Hw); by rewrite Hst|];
    intros _ w1 (I1 & S1 & _); rewrite S1, bool_decide_eq_true_2 by done;
    split_and!; try done; by intros [?|?].
Qed.

(** ** Timeouts *)
(** A timer that expires keeps its reference until the handler puts it. *)
Lemma fire_ok get set `{!IsTimer get set} held base w :
  inv held base w -> get (sk w) <> None ->
  inv held (base + 1) (w {{ sk ::= set None }}) /\ proto (set None (sk w)) = proto (sk w).
Proof using Type.
  clear Hops Hroom Hclose. intros [H1 H2 H3 H4 H5 H6 H7 H8] Hg.
  destruct (timer_set None (sk w)) as (_ & T2 & T3 & T4). split; [|done].
  assert (pend (get (sk w)) = 1) as Hp by (by destruct (get (sk w))). rewrite Hp in T4.
  assert (ctrl_queue (set None (sk w)) = ctrl_queue (sk w)) as E1 by exact (f_equal ctrl_queue T2).
  assert (ctrl_send_head (set None (sk w)) = ctrl_send_head (sk w)) as E2
    by exact (f_equal ctrl_send_head T2).
  assert (sk_state (set None (sk w)) = sk_state (sk w)) as E3 by exact (f_equal sk_state T2).
  split; rsimp; rewrite ?E1, ?E2, ?E3; try done.
  - cbn [pend] in T4. lia.
  - by eapply peer_ok_proto.
Qed.

Lemma base_after_put s base : base_after s (base + 1) - 1 = base_after s base.
Proof. unfold base_after. destruct (sock_dead s); lia. Qed.

Lemma timewait_timeout_ok held base w :
  inv held base w -> established (sk_state (sk w)) = true -> tw_timer (sk w) <> None ->
  wp (serval_sal_timewait_timeout ops) w (fun _ w' =>
    inv held (base_after (sk w) base) w' /\ sk_state (sk w') = SAL_CLOSED).
Proof using Hstale Hops Hroom.
  intros Hw Hest Ht. unfold serval_sal_timewait_timeout.
  destruct (fire_ok tw_timer set_tw_timer held base w Hw Ht) as [I1 P1].
  sal_step. sal_step. set (w1 := w {{ sk ::= set_tw_timer None }}) in *.
  assert (core (sk w1) = core (sk w)) as C1 by exact (core_proto _ _ P1).
  sal_step. eapply wp_mono.
  { apply (done_ok tp_held ops Hops Hroom held (base + 1) w1 I1). by rewrite (core_state _ _ C1). }
  intros _ w2 (I2 & S2 & _). sal_step. split; [|exact S2].
  assert (base_after (sk w1) (base + 1) = base_after (sk w) (base + 1)) as E by done.
  rewrite E in I2. rewrite <-base_after_put. by apply inv_put.
Qed.

(** Retransmission of the packet in the slot. *)
Definition marked (b : sal_skb) : sal_skb :=
  b {{ skb_flags := u8 (Z.lor (skb_flags b) SVH_RETRANS) }}.
Definition resent (r : Z) w w' : Prop :=
  match ctrl_queue (sk w) with
  | Some i => exists b, skbs w !! i = Some b /\ skbs w' !! i = Some (marked b) /\
      logged r (wire_daddr (sk w) (marked b)) (wire_bytes (sk w) (copy_of (marked b))) w w'
  | None => sent w' = sent w
  end.
Lemma rexmit_ok held base w :
  inv held base w ->
  wp (serval_sal_rexmit ops) w (fun r w' => inv held base w' /\ proto (sk w') = proto (sk w) /\
    outside w w' /\ resent r w w').
Proof using Hstale.
  clear Hops Hroom Hclose. intros Hw. unfold serval_sal_rexmit, resent. sal_steps.
  destruct (ctrl_queue (sk w)) as [i|] eqn:Hq; [|by sal_step].
  destruct (inv_slot tp_held _ _ _ _ Hw Hq) as (b & Hb & Ho & Hr).
  sal_step. eapply load_ok; [done|]. sal_step. eapply store_ok; [done|].
  set (b1 := b {{ skb_flags := _ }}). set (w1 := w {{ skbs ::= _ }}).
  assert (inv held base w1) as I1 by (eapply inv_store; [done|done|done|by right]).
  eapply wp_mono; [apply (transmit_copy_ok tp_held ops held base w1 i b1 I1)|].
  - apply lookup_insert_eq.
  - done.
  - intros r w2 (I2 & (K2 & _ & O2) & D2 & L2). split_and!; [done..|]. exists b. split_and!; [done| |done].
    rewrite D2. apply lookup_insert_eq.
Qed.

(** The retransmission timer: the packet is sent again and the timer restarted,
    until the limit is reached and the connection given up. *)
Lemma rexmit_timeout_ok held base w :
  inv held base w -> established (sk_state (sk w)) = true -> retransmit_timer (sk w) <> None ->
  0 <= backoff (sk w) < 31 ->
  wp (serval_sal_rexmit_timeout ops) w (fun _ w' =>
    if retransmits (sk w) =? sysctl_sal_max_retransmits
    then inv held (base_after (sk w) base) w' /\ sk_state (sk w') = SAL_CLOSED
    else inv held base w' /\ core (sk w') = core (sk w) /\
      retransmit_timer (sk w') <> None /\ ctrl_queue (sk w') = ctrl_queue (sk w) /\
      backoff (sk w') = backoff (sk w) + 1 /\ retransmits (sk w') = u8 (retransmits (sk w) + 1) /\
      proto_q (sk w') = proto_q (sk w) /\ outside w w' /\ exists r, resent r w w').
Proof using Hstale Hops Hroom.
  intros Hw Hest Ht Hb. unfold serval_sal_rexmit_timeout.
  destruct (fire_ok retransmit_timer set_retransmit_timer held base w Hw Ht) as [I1 P1].
  sal_step. sal_step. set (w1 := w {{ sk ::= set_retransmit_timer None }}) in *. sal_steps.
  assert (core (sk w1) = core (sk w)) as C1 by exact (core_proto _ _ P1).
  change (retransmits (sk w1)) with (retransmits (sk w)).
  destruct (retransmits (sk w) =? sysctl_sal_max_retransmits).
  - unfold serval_sal_write_err. sal_step. sal_step. sal_step. sal_step.
    match goal with |- wp _ ?x _ => set (w2 := x) end.
    assert (inv held (base + 1) w2) as I2.
    { eapply inv_ext; [apply (inv_upd_sk tp_held held (base + 1) w1
        (fun s => s {{ sk_err := if sk_err_soft s =? 0 then ETIMEDOUT else sk_err_soft s }})); try done|done..].
      exact (iv_peer _ _ _ _ I1). }
    eapply wp_mono.
    { apply (done_ok tp_held ops Hops Hroom held (base + 1) w2 I2).
      change (established (sk_state (sk w1)) = true). by rewrite (core_state _ _ C1). }
    intros _ w3 (I3 & S3 & _). sal_step. split; [|exact S3].
    rewrite <-base_after_put. apply inv_put. exact I3.
  - sal_step. eapply wp_mono; [apply (rexmit_ok held (base + 1) w1 I1)|].
    intros r2 w2 (I2 & P2 & O2 & L2). sal_steps. set (w3 := w2 {{ sk ::= _ }}).
    assert (inv held (base + 1) w3) as I3.
    { apply inv_upd_sk; try done. exact (iv_peer _ _ _ _ I2). }
    assert (backoff (sk w2) = backoff (sk w)) as B2 by exact (f_equal backoff P2).
    assert (retransmits (sk w2) = retransmits (sk w)) as R2 by exact (f_equal retransmits P2).
    assert (backoff (sk w3) = backoff (sk w) + 1) as B3.
    { change (u8 (backoff (sk w2) + 1) = backoff (sk w) + 1). rewrite B2. unfold u8.
      apply Z.mod_small. lia. }
    unfold liftR at 1, shl32. rewrite B3, (proj2 (Z.ltb_lt _ _)) by lia. unfold wp at 1.
    eapply wp_mono; [by apply (reset_xmit_ok tp_held held (base + 1) w3)|].
    intros _ w4 (I4 & (K4 & _ & O4) & D4 & S4 & T4). sal_step.
    set (w5 := w4 {{ sk ::= _ }}).
    assert (inv held base w5) as I5.
    { replace base with (base + 1 - 1) by lia. by apply inv_put. }
    split_and!; [done| |exact T4| | | | | |].
    + transitivity (core (sk w3)); [exact (core_proto _ _ K4)|].
      transitivity (core (sk w1)); [exact (core_proto _ _ P2)|done].
    + transitivity (ctrl_queue (sk w3)); [exact (f_equal ctrl_queue K4)|exact (f_equal ctrl_queue P2)].
    + rewrite <-B3. exact (f_equal backoff K4).
    + transitivity (retransmits (sk w3)); [exact (f_equal retransmits K4)|].
      change (u8 (retransmits (sk w2) + 1) = u8 (retransmits (sk w) + 1)). by rewrite R2.
    + assert (forall s s', proto s = proto s' -> proto_q s = proto_q s') as E
        by (clear; intros s s' E; by rewrite <-proto_q_proto, E, proto_q_proto).
      change (proto_q (sk w4) = proto_q (sk w)). rewrite (E _ _ K4).
      change (proto_q (sk w2) = proto_q (sk w)). by rewrite (E _ _ P2).
    + apply (outside_trans _ w2); [exact O2|exact O4].
    + exists r2. unfold resent in *. change (ctrl_queue (sk w1)) with (ctrl_queue (sk w)) in L2.
      change (skbs w1) with (skbs w) in L2. change (sent w5) with (sent w4).
      change (skbs w5) with (skbs w4). rewrite D4, S4.
      change (skbs w3) with (skbs w2). change (sent w3) with (sent w2).
      destruct (ctrl_queue (sk w)); [|exact L2].
      destruct L2 as (b & Hb1 & Hb2 & L1 & L2 & L3). exists b. split_and!; [done|done|]. split_and!.
      * change (r2 < 0 -> sent w4 = sent w). rewrite S4. exact L1.
      * intros Hr. destruct (L2 Hr) as (sa & dv & E). exists sa, dv.
        change (sent w4 = sent w ++ [out_frame sa (wire_daddr (sk w1) (marked b)) dv
          (wire_bytes (sk w1) (copy_of (marked b)))]). rewrite S4. exact E.
      * exact L3.
Qed.

(** ** Events *)
(** A packet with its buffer, the application's calls, the timers, and the
    passing of time. *)
Inductive sal_event :=
| EvPacket (b : sal_skb) (p : inpkt)
| EvClose
| EvMigrate
| EvRexmit
| EvTimewait
| EvTick (d : Z).

Definition handle (encap broadcast : bool) (e : sal_event) : SALM TP unit :=
  match e with
  | EvPacket b p =>
      i ← new_skb b; serval_sal_state_process ops encap broadcast i p;; mret tt
  | EvClose => serval_sal_close ops
  | EvMigrate => serval_sal_migrate ops;; mret tt
  | EvRexmit => serval_sal_rexmit_timeout ops
  | EvTimewait => serval_sal_timewait_timeout ops
  | EvTick d => modS (fun w => w {{ now := u64 (now w + d) }})
  end.

(** When the event can happen: a packet was parsed and its buffer belongs to
    no socket, a timer is pending.  The bound on the back-off is needed:
    [rexmit_overflow] below. *)
Definition enabled (e : sal_event) (s : ssock) : Prop :=
  match e with
  | EvPacket b p => skb_owned b = false /\ pkt_ok p
  | EvRexmit => retransmit_timer s <> None /\ 0 <= backoff s < 31
  | EvTimewait => tw_timer s <> None
  | _ => True
  end.

(** The states an event may lead to. *)
Definition moves (e : sal_event) (s : ssock) (st : sock_state) : Prop :=
  match e with
  | EvPacket _ p => sal_trans (packet_acks p s) p s st
  | EvClose => st = closing (sk_state s)
  | EvRexmit => st = if retransmits s =? sysctl_sal_max_retransmits then SAL_CLOSED else sk_state s
  | EvTimewait => st = SAL_CLOSED
  | EvMigrate | EvTick _ => st = sk_state s
  end.

Lemma arrive_ok held base w b (Q : positive -> salw TP -> Prop) :
  inv held base w -> skb_owned b = false ->
  (forall i w', inv ({[ i ]} ∪ held) base w' -> i ∉ held -> sk w' = sk w -> Q i w') ->
  wp (new_skb b) w Q.
Proof using Type.
  clear Hops Hroom Hclose. intros Hw Hb HQ.
  destruct (inv_new tp_held held base w (b {{ skb_owned := true }}) Hw ltac:(by destruct b)) as (_ & Hn & Hf).
  destruct Hw as [H1 H2 H3 H4 H5 H6 H7 H8]. unfold wp, new_skb.
  assert (next_skb w ∉ dom (skbs w)) as Hd by (by apply not_elem_of_dom).
  apply HQ; [|done|done]. split; rsimp; try done.
  - rewrite dom_insert_L, H1. clear. set_solver.
  - rewrite H1 in Hd. clear -Hd H2. set_solver.
  - intros i Hi. rewrite dom_insert_L in Hi. apply elem_of_union in Hi as [Hi|Hi].
    + apply elem_of_singleton in Hi as ->. lia.
    + apply H4 in Hi. lia.
  - intros i c Hq Hi. rewrite lookup_insert_ne in Hi; [by apply (H6 i c)|].
    intros <-. apply Hd. rewrite H1, Hq. unfold slot. clear. set_solver.
  - rewrite owned_insert, Hb by done. lia.
Qed.

Lemma event_ok encap broadcast e base w :
  inv ∅ base w -> established (sk_state (sk w)) = true -> enabled e (sk w) ->
  wp (handle encap broadcast e) w (fun _ w' =>
    inv ∅ (base_of (sk w') (sk w) base) w' /\ moves e (sk w) (sk_state (sk w'))).
Proof using Hstale Hops Hroom Hclose.
  intros Hw Hest Hen. pose proof (established_not _ Hest) as (N1 & N2 & N3 & N4).
  assert (forall w', core (sk w') = core (sk w) -> inv ∅ base w' ->
    inv ∅ (base_of (sk w') (sk w) base) w' /\ sk_state (sk w') = sk_state (sk w)) as Hstay.
  { intros w' C I. rewrite (core_state _ _ C). split; [|done]. unfold base_of.
    by rewrite (core_state _ _ C), bool_decide_eq_false_2. }
  assert (forall w', sk_state (sk w') = SAL_CLOSED -> inv ∅ (base_after (sk w) base) w' ->
    inv ∅ (base_of (sk w') (sk w) base) w') as Hdone.
  { intros w' C I. unfold base_of. by rewrite bool_decide_eq_true_2. }
  destruct e as [b p| | | | |d]; cbn [handle enabled moves] in *.
  - destruct Hen as [Hb Hp]. sal_step. apply (arrive_ok ∅ base); [done|done|].
    intros i w1 I1 _ E1. sal_step. eapply wp_mono.
    { apply (state_process_ok tp_held ops Hops Hroom _ _ ({[ i ]} ∪ ∅) base w1 i p I1).
      - clear. set_solver.
      - by rewrite E1.
      - done. }
    intros r w2 (_ & I2 & T2). sal_step. rewrite E1 in I2, T2.
    by replace (({[ i ]} ∪ ∅) ∖ {[ i ]}) with (∅ : gset positive) in I2 by (clear; set_solver).
  - eapply wp_mono; [apply (close_ok ∅ base w Hw Hest)|]. by intros _ w1 (I1 & S1 & _).
  - sal_step. eapply wp_mono; [apply (migrate_ok ∅ base w Hw Hest)|].
    intros _ w1 (I1 & C1 & _). sal_step. by apply Hstay.
  - destruct Hen as [Ht Hb].
    eapply wp_mono; [apply (rexmit_timeout_ok ∅ base w Hw Hest Ht Hb)|]. intros ? w1.
    destruct (_ =? _); [intros [I1 S1]|intros (I1 & C1 & _)].
    + split; [by apply Hdone|done].
    + by apply Hstay.
  - eapply wp_mono; [apply (timewait_timeout_ok ∅ base w Hw Hest Hen)|].
    intros _ w1 [I1 S1]. split; [by apply Hdone|done].
  - sal_step. apply Hstay; [done|]. by eapply inv_ext.
Qed.

(** The steps of a connection, until it is closed. *)
Inductive sal_step (encap broadcast : bool) w w' : Prop :=
| sal_step_event e :
    established (sk_state (sk w)) = true -> enabled e (sk w) ->
    handle encap broadcast e w = Ok (tt, w') -> sal_step encap broadcast w w'.

Lemma moves_state e s st :
  established (sk_state s) = true -> moves e s st -> established st = true \/ st = SAL_CLOSED.
Proof using Type.
  clear Hops Hroom Hclose. intros Hest. destruct e; cbn [moves].
  - intros []; auto.
  - intros ->. by destruct (sk_state s); auto.
  - intros ->. by left.
  - intros ->. destruct (_ =? _); auto.
  - intros ->. by right.
  - intros ->. by left.
Qed.

(** What is known in every state a session reaches. *)
Definition session_inv base w : Prop :=
  (established (sk_state (sk w)) = true /\ inv ∅ base w) \/
  (sk_state (sk w) = SAL_CLOSED /\ exists base', base - 1 <= base' <= base /\ inv ∅ base' w).

Lemma session_inv_ok encap broadcast base w0 w :
  inv ∅ base w0 -> established (sk_state (sk w0)) = true ->
  rtc (sal_step encap broadcast) w0 w -> session_inv base w.
Proof using Hstale Hops Hroom Hclose.
  intros Hw Hest Hr. assert (session_inv base w0) as Hi by (by left). clear Hw Hest.
  induction Hr as [|w0 w1 w2 [e He Hen Hrun] _ IH]; [done|]. apply IH. clear IH.
  destruct Hi as [[_ Hw]|[Hc _]]; [|by rewrite Hc in He].
  pose proof (event_ok encap broadcast e base w0 Hw He Hen) as HP. unfold wp in HP.
  rewrite Hrun in HP. destruct HP as [I1 M1]. unfold base_of in I1.
  destruct (moves_state _ _ _ He M1) as [E1|E1].
  - left. split; [done|]. rewrite bool_decide_eq_false_2 in I1; [done|]. by apply established_not.
  - right. split; [done|]. rewrite bool_decide_eq_true_2 in I1 by done. eexists. split; [|exact I1].
    unfold base_after. destruct (sock_dead (sk w0)); lia.
Qed.

(** ** A silent peer *)
(** [n] retransmission timeouts in a row. *)
Fixpoint timeouts (n : nat) : SALM TP unit :=
  match n with
  | O => mret tt
  | S n => serval_sal_rexmit_timeout ops;; timeouts n
  end.

Lemma marked_twice b : marked (marked b) = marked b.
Proof using Type.
  clear Hops Hroom Hclose. assert (forall a r, u8 (Z.lor (u8 (Z.lor a r)) r) = u8 (Z.lor a r)) as E.
  { intros a r. unfold u8. apply Z.bits_inj'. intros k Hk.
    destruct (Z.lt_ge_cases k 8); [|by rewrite !Z.mod_pow2_bits_high by lia].
    rewrite !Z.mod_pow2_bits_low, !Z.lor_spec, Z.mod_pow2_bits_low, Z.lor_spec by lia.
    by rewrite <-orb_assoc, orb_diag. }
  unfold marked. rsimp. by rewrite E.
Qed.
(** What was sent: copies of the packet in the slot, [n] of them if nothing
    fails. *)
Definition slot_frame w b (f : frame) : Prop :=
  f_daddr f = wire_daddr (sk w) (marked b) /\ f_bytes f = wire_bytes (sk w) (copy_of (marked b)).
Definition repeats (n : nat) w w' : Prop :=
  exists fs, sent w' = sent w ++ fs /\
    match ctrl_queue (sk w) with
    | Some i => exists b, skbs w !! i = Some b /\ Forall (slot_frame w b) fs /\
        (willing w -> length fs = n)
    | None => fs = []
    end.
Lemma repeats_cons r n w w1 w2 :
  resent r w w1 -> repeats n w1 w2 -> ctrl_queue (sk w1) = ctrl_queue (sk w) ->
  proto_q (sk w1) = proto_q (sk w) -> outside w w1 -> repeats (S n) w w2.
Proof using Type.
  clear Hops Hroom Hclose. unfold resent, repeats. intros Hr (fs & Hs & Hb) Hq Hp Ho. rewrite Hq in Hb.
  destruct (ctrl_queue (sk w)) as [i|]; [|exists []; subst fs; by rewrite Hs, Hr].
  destruct Hr as (b & Hb1 & Hb2 & L1 & L2 & L3), Hb as (b' & Hb' & Hfs & Hl).
  rewrite Hb2 in Hb'. injection Hb' as <-.
  assert (Forall (slot_frame w b) fs) as Hfs'.
  { eapply Forall_impl; [exact Hfs|]. intros f [F1 F2]. rewrite marked_twice in F1, F2.
    destruct (wire_u _ _ (marked b) (u_of_q _ _ Hp)) as (E1 & _), (wire_u _ _ (copy_of (marked b)) (u_of_q _ _ Hp))
      as (_ & E2 & _). by rewrite E1 in F1; rewrite E2 in F2. }
  assert (willing w -> willing w1) as Hwl.
  { intros (W1 & W2 & W3). destruct Ho as (_ & A & N). split_and!; [auto..|].
    assert (forall s, sk_bound_dev_if (proto_q s) = sk_bound_dev_if s) as E by (clear; intros s; by destruct s).
    by rewrite <-E, Hp, E. }
  destruct (Z.lt_ge_cases r 0) as [Hr|Hr].
  - exists fs. rewrite Hs, L1 by done. split; [done|]. exists b. split_and!; [done..|]. intros W. specialize (L3 W). lia.
  - destruct (L2 Hr) as (sa & dv & E). exists (out_frame sa (wire_daddr (sk w) (marked b)) dv
      (wire_bytes (sk w) (copy_of (marked b))) :: fs).
    rewrite Hs, E, <-app_assoc. split; [done|]. exists b. split_and!; [done|by constructor|].
    intros W. simpl. f_equal. auto.
Qed.

Lemma timeouts_ok n held base w :
  inv held base w -> established (sk_state (sk w)) = true -> retransmit_timer (sk w) <> None ->
  0 <= backoff (sk w) -> backoff (sk w) + Z.of_nat n < 31 ->
  0 <= retransmits (sk w) -> retransmits (sk w) + Z.of_nat n = sysctl_sal_max_retransmits ->
  sysctl_sal_max_retransmits < 256 ->
  wp (timeouts n) w (fun _ w' => inv held base w' /\ core (sk w') = core (sk w) /\
    retransmit_timer (sk w') <> None /\ ctrl_queue (sk w') = ctrl_queue (sk w) /\
    backoff (sk w') = backoff (sk w) + Z.of_nat n /\
    retransmits (sk w') = sysctl_sal_max_retransmits /\ repeats n w w').
Proof using Hstale Hops Hroom.
  revert w. induction n as [|n IH]; intros w Hw Hest Ht Hb0 Hb Hr0 Hr Hm; cbn [timeouts].
  { sal_step. split_and!; try done; try lia. exists []. rewrite app_nil_r. split; [done|].
    destruct (ctrl_queue (sk w)) as [i|] eqn:Hq; [|done].
    destruct (inv_slot tp_held _ _ _ _ Hw Hq) as (b & Hsb & _). by exists b. }
  sal_step. eapply wp_mono; [apply (rexmit_timeout_ok held base w Hw Hest Ht); lia|].
  rewrite (proj2 (Z.eqb_neq _ _)) by lia. intros _ w1 (I1 & C1 & T1 & Q1 & B1 & R1 & P1 & O1 & r & L1).
  assert (retransmits (sk w1) = retransmits (sk w) + 1) as R1'.
  { rewrite R1. unfold u8. apply Z.mod_small. lia. }
  eapply wp_mono; [apply (IH w1 I1); try done; [by rewrite (core_state _ _ C1)|lia..]|].
  intros _ w2 (I2 & C2 & T2 & Q2 & B2 & R2 & F2). split_and!; [done|congruence|done|congruence|lia|done|].
  by eapply repeats_cons.
Qed.

Lemma silent_close_ok n held base w :
  inv held base w -> established (sk_state (sk w)) = true -> retransmit_timer (sk w) <> None ->
  0 <= backoff (sk w) -> backoff (sk w) + Z.of_nat n < 31 ->
  0 <= retransmits (sk w) -> retransmits (sk w) + Z.of_nat n = sysctl_sal_max_retransmits ->
  sysctl_sal_max_retransmits < 256 ->
  wp (timeouts n) w (fun _ w1 => core (sk w1) = core (sk w) /\
    ctrl_queue (sk w1) = ctrl_queue (sk w) /\ repeats n w w1 /\
    wp (serval_sal_rexmit_timeout ops) w1 (fun _ w2 =>
      sk_state (sk w2) = SAL_CLOSED /\ inv held (base_after (sk w) base) w2)).
Proof using Hstale Hops Hroom.
  intros Hw Hest Ht Hb0 Hb Hr0 Hr Hm.
  eapply wp_mono; [by apply (timeouts_ok n held base w)|].
  intros _ w1 (I1 & C1 & T1 & Q1 & B1 & R1 & F1). split_and!; [done..|].
  assert (established (sk_state (sk w1)) = true) as E1 by (by rewrite (core_state _ _ C1)).
  eapply wp_mono; [apply (rexmit_timeout_ok held base w1 I1 E1 T1); lia|].
  rewrite R1, Z.eqb_refl. intros _ w2 [I2 S2]. split; [done|].
  unfold base_after in *. by injection C1 as _ _ <-.
Qed.

(** A back-off exponent of 31 or more shifts a 32-bit value by its width. *)
Lemma rexmit_overflow held base w :
  inv held base w -> retransmit_timer (sk w) <> None ->
  retransmits (sk w) <> sysctl_sal_max_retransmits -> 31 <= backoff (sk w) <= 254 ->
  serval_sal_rexmit_timeout ops w = Fault.
Proof using Hstale.
  clear Hops Hroom Hclose. intros Hw Ht Hr Hb.
  destruct (fire_ok retransmit_timer set_retransmit_timer held base w Hw Ht) as [I1 P1].
  set (w1 := w {{ sk ::= set_retransmit_timer None }}) in *.
  destruct (proj1 (wp_run _ _ _) (rexmit_ok held (base + 1) w1 I1)) as (r & w2 & Hrun & I2 & P2 & _).
  assert (backoff (sk w2) = backoff (sk w)) as B2 by exact (f_equal backoff P2).
  unfold serval_sal_rexmit_timeout.
  rewrite (bind_Ok _ _ _ tt w1) by done. rewrite (bind_Ok _ _ _ (sk w1) w1) by done.
  change (retransmits (sk w1)) with (retransmits (sk w)). rewrite (proj2 (Z.eqb_neq _ _)) by done.
  unfold mbind, M_bind. rewrite Hrun. unfold upd_sk, modS, the_sk, gets, liftR, shl32. rsimp.
  assert (u8 (backoff (sk w2) + 1) = backoff (sk w) + 1) as ->.
  { rewrite B2. unfold u8. apply Z.mod_small. lia. }
  by rewrite (proj2 (Z.ltb_ge _ _)) by lia.
Qed.
End Session.
