(* ===== verification/Udp.v ===== *)
(** * The UDP transport (src/stack/serval_udp.c, serval_udp.h,
    src/stack/userlevel/sock.c lines 611-659, include/serval/sock.h lines
    406-410, 485-492, 799-815, userlevel/skbuff.c lines 791-809, 1038-1054)

    The user-level build.  Packets arrive with [ip_summed] = CHECKSUM_NONE
    (packet_raw.c).  [serval_udp_rcv] looks at the UDP header before it knows
    that there is one; what lies behind a packet is [stale]. *)
From S2P Require Import Prelude Bst ServiceEntry ServiceTable SalHdr Checksum.
From S2P Require Import SalSock Rto DelayQueue Sal SalCtrl SalState.
Local Open Scope Z_scope.

Definition IPPROTO_UDP : Z := 17.
Definition UDP_HLEN : nat := 8.

(** The receive side of [struct sock]: the receive queue with the length each
    buffer has, the backlog with the checksum state computed before the packet
    was put there, and what the environment decides: the IP header in front of
    a buffer, its size, and the bytes behind it. *)
Record udp_sock := UdpSock {
  receive_queue : list (positive * Z);
  sk_backlog : list (positive * (bool * Z));
  backlog_len : Z;
  rmem_alloc : Z;
  sk_rcvbuf : Z;
  sk_drops : Z;
  owned_by_user : bool;
  ip_addrs : positive -> Z * Z;
  truesize : positive -> Z;
  stale : list Z;
}.

Section Udp.
Context `{SalEnv}.
Abbreviation UM := (SALM udp_sock).
Implicit Types (i : positive).

Definition the_tp : UM udp_sock := gets tp.
Definition upd_tp (f : udp_sock -> udp_sock) : UM unit :=
  modS (fun w => w {{ tp ::= f }}).

(** ** Sending *)
Definition udp_header (len : Z) : list Z :=
  [0; 0; 0; 0; Z.land (Z.shiftr len 8) 255; Z.land len 255; 0; 0].

(** Push the header; there is always room for it or the buffer code panics. *)
Definition serval_udp_build_syn i : UM Z :=
  b ← skb_load i;
  buf ← liftR (skb_push UDP_HLEN (skb_buf b));
  skb_store i (b {{ skb_buf :=
    skb_put_bytes 0 (udp_header (u16 (Z.of_nat (length (data buf))))) buf }});;
  mret 0.
Definition serval_udp_build_synack i : UM Z := serval_udp_build_syn i.
Definition serval_udp_build_ack i : UM Z := serval_udp_build_syn i.

(** The checksum goes to bytes 6 and 7. *)
Definition udp_set_check (c : Z) (d : list Z) : list Z :=
  put_bytes 6 [Z.land c 255; Z.shiftr c 8] d.
Definition udp_checked (saddr daddr : Z) (d : list Z) : list Z :=
  let d := udp_set_check 0 d in
  udp_set_check (csum_tcpudp_magic saddr daddr (u16 (Z.of_nat (length d))) IPPROTO_UDP
                   (csum_partial 0 d 0)) d.
Definition serval_udp_v4_send_check i : UM unit :=
  b ← skb_load i;
  s ← the_sk;
  skb_store i (b {{ skb_buf := Skb (headroom (skb_buf b))
    (udp_checked (inet_saddr s) (inet_daddr s) (data (skb_buf b))) }}).

(** ** Receiving *)
Definition skb_orphan i : UM unit :=
  b ← skb_load i;
  if skb_owned b then skb_store i (b {{ skb_owned := false }});; sk_put else mret tt.
Definition rcvqueues_full (u : udp_sock) i : bool :=
  u32 (sk_rcvbuf u) <? u32 (u32 (backlog_len u + rmem_alloc u) + truesize u i).

(** [sock_queue_rcv_skb] for a buffer of length [len].  [sk_rmem_schedule] always
    succeeds: the protocol has no [memory_allocated] and is not accounted
    (include/serval/sock.h lines 725-745). *)
Definition sock_queue_rcv_skb i (len : Z) : UM Z :=
  u ← the_tp;
  if u32 (sk_rcvbuf u) <=? u32 (rmem_alloc u + truesize u i) then
    upd_tp (fun u => u {{ sk_drops := s32 (sk_drops u + 1) }});; mret (- ENOMEM)
  else
    b ← skb_load i;
    skb_store i (b {{ skb_dev := 0 }});;
    skb_orphan i;;
    upd_tp (fun u => u {{ rmem_alloc := s32 (rmem_alloc u + truesize u i);
                          receive_queue := receive_queue u ++ [(i, len)] }});;
    s ← the_sk;
    (if negb (sock_dead s) then wake else mret tt);;
    mret 0.

(** [unnecessary] and [csum] are what [serval_udp_csum_init] left in the
    buffer.  Pulling the header of a buffer that has none wraps its length. *)
Definition serval_udp_do_rcv i (unnecessary : bool) (csum : Z) : UM Z :=
  b ← skb_load i;
  let d := data (skb_buf b) in
  if negb unnecessary && negb (csum_fold (csum_partial 0 d csum) =? 0)
  then kfree_skb i;; mret 0
  else
    skb_store i (b {{ skb_buf := Skb (headroom (skb_buf b) ++ take UDP_HLEN d)
                                     (drop UDP_HLEN d) }});;
    err ← sock_queue_rcv_skb i (u32 (Z.of_nat (length d) - Z.of_nat UDP_HLEN));
    (if err <? 0 then kfree_skb i else mret tt);;
    mret err.

Definition udp_byte (u : udp_sock) (d : list Z) (k : nat) : Z := nth k (d ++ stale u) 0.

Definition serval_udp_csum_init (u : udp_sock) i (d : list Z) : bool * Z :=
  let unnecessary := (udp_byte u d 6 =? 0) && (udp_byte u d 7 =? 0) in
  let '(saddr, daddr) := ip_addrs u i in
  (unnecessary,
   if unnecessary then 0
   else csum_tcpudp_nofold saddr daddr (u16 (Z.of_nat (length d))) IPPROTO_UDP 0).

Definition drop_packet i : UM Z := kfree_skb i;; mret (-1).

Definition serval_udp_rcv i : UM Z :=
  b ← skb_load i;
  u ← the_tp;
  let d := data (skb_buf b) in
  let datalen := u16 (256 * udp_byte u d 4 + udp_byte u d 5 - Z.of_nat UDP_HLEN) in
  if negb (flag_set (skb_flags b) SVH_FIN)
     && (negb (UDP_HLEN <=? length d)%nat || (datalen =? 0))
  then drop_packet i
  else
    let '(unnecessary, csum) := serval_udp_csum_init u i d in
    if rcvqueues_full u i then drop_packet i
    else if negb (owned_by_user u) then serval_udp_do_rcv i unnecessary csum
    else if rcvqueues_full u i then drop_packet i (* sk_add_backlog *)
    else
      upd_tp (fun u => u {{ sk_backlog := sk_backlog u ++ [(i, (unnecessary, csum))];
                            backlog_len := u32 (backlog_len u + truesize u i) }});;
      mret 0.

(** [__release_sock] hands the backlog to [serval_udp_do_rcv]; the user-level
    [release_sock] does not call it. *)
Fixpoint drain (l : list (positive * (bool * Z))) : UM unit :=
  match l with
  | [] => mret tt
  | (i, (un, csum)) :: l => serval_udp_do_rcv i un csum;; drain l
  end.
Definition release_backlog : UM unit :=
  u ← the_tp;
  upd_tp (fun u => u {{ sk_backlog := [] }});;
  drain (sk_backlog u);;
  upd_tp (fun u => u {{ backlog_len := 0 }}).
Definition release_sock : UM unit := upd_tp (fun u => u {{ owned_by_user := false }}).

(** ** Reading, without blocking *)
Definition ENOTCONN : Z := 107.
Definition EAGAIN : Z := 11.
Definition eat_skb i : UM unit :=
  upd_tp (fun u => u {{ receive_queue := tail (receive_queue u);
                        rmem_alloc := s32 (rmem_alloc u - truesize u i) }});;
  kfree_skb i.
(** [sk_stream_kill_queues]: nothing is put into the error queue or the write
    queue of a UDP socket. *)
Fixpoint queue_purge (q : list (positive * Z)) : UM unit :=
  match q with
  | [] => mret tt
  | (i, _) :: q => eat_skb i;; queue_purge q
  end.
Definition sk_stream_kill_queues : UM unit := u ← the_tp; queue_purge (receive_queue u).
(** The bytes copied to the user, and the result. *)
Definition serval_udp_recvmsg (namelen_ok : bool) (len : Z) (peek : bool)
  : UM (Z * list Z)%type :=
  s ← the_sk;
  if bool_decide (sk_state s = SAL_CLOSED) then mret (- ENOTCONN, [])
  else if negb namelen_ok then mret (- EINVAL, [])
  else
    u ← the_tp;
    match receive_queue u with
    | [] =>
        if negb (sk_err s =? 0) then
          upd_sk (fun s => s {{ sk_err := 0 }});; mret (- sk_err s, [])
        else if negb (Z.land (sk_shutdown s) RCV_SHUTDOWN =? 0) then mret (0, [])
        else mret (- EAGAIN, [])
    | (i, skb_len) :: _ =>
        b ← skb_load i;
        let fin := flag_set (skb_flags b) SVH_FIN in
        let n := if skb_len <=? len then skb_len else len in
        r ← (if fin then mret (0, [])
             else
               bs ← liftR (rd_bytes (data (skb_buf b)) 0 (Z.to_nat n));
               mret (n, bs));
        (if peek then mret tt else eat_skb i);;
        mret r
    end.
End Udp.

(** ** The callbacks *)
Definition udp_af_ops `{SalEnv} : af_ops udp_sock := {|
  conn_build_syn := Some serval_udp_build_syn;
  conn_build_ack := Some serval_udp_build_ack;
  conn_build_synack := Some serval_udp_build_synack;
  conn_request := Some (fun _ => mret 0);
  conn_child_sock := fun _ => mret 0;
  conn_close := None;
  request_state_process := None;
  respond_state_process := None;
  receive := serval_udp_rcv;
  send_check := Some serval_udp_v4_send_check;
  migration_completed := None;
  freeze_flow := None;
  af_done := None;
  prot_destroy := Some (mret tt);
  kill_queues := sk_stream_kill_queues;
|}.
Definition serval_udp_transmit_skb `{SalEnv} (i : positive) : SALM udp_sock Z :=
  serval_udp_build_syn i;; serval_udp_v4_send_check i;; serval_sal_xmit_skb udp_af_ops i.
