(* ===== verification/UdpSession.v ===== *)
(** * Sessions of UDP sockets

    The session theorems of [SalSession.v] for the UDP transport, on concrete
    connections as well, and two ways in which the handlers accept too much. *)

(** * The UDP transport keeps its promise to the SAL

    The instance of [TransportOk] for the callbacks of serval_udp.c: every
    packet handed to [serval_udp_rcv] is freed or ends up in the receive queue
    or the backlog, whose buffers UDP owns. *)
From S2P Require Import Prelude Bst BstHistory ServiceEntry ServiceTable SalHdr SalHdrProps.
From S2P Require Import Checksum SalSock Rto DelayQueue Sal SalCtrl SalState SalListen SalInv SalQueue SalStep.
From S2P Require Import SalMachine Udp.
Local Open Scope Z_scope.

(** The buffers UDP owns; none is in its queues twice. *)
Definition udp_ids (u : udp_sock) : list positive :=
  (fst <$> receive_queue u) ++ (fst <$> sk_backlog u).
Definition udp_held (u : udp_sock) : gset positive := list_to_set (udp_ids u).
#[export] Instance udp_wf : TpWf udp_sock := fun u => NoDup (udp_ids u).

Section UdpOk.
Context `{SalEnv}.
Implicit Types (w : salw udp_sock) (i : positive) (held : gset positive).
Abbreviation inv := (inv udp_held).

(** Updates of the transport that do not concern buffers, or that take one. *)
Lemma inv_upd_tp held base w f :
  inv held base w -> udp_ids (f (tp w)) = udp_ids (tp w) -> inv held base (w {{ tp ::= f }}).
Proof.
  intros [H1 H2 H3 H4 H5 H6 H7 H8 H9] E. unfold udp_held in *.
  split; rsimp; unfold tp_wf, udp_wf; rewrite ?E; done.
Qed.
Lemma inv_to_tp held base w f i :
  inv held base w -> i ∈ held -> udp_ids (f (tp w)) ≡ₚ i :: udp_ids (tp w) ->
  inv (held ∖ {[ i ]}) base (w {{ tp ::= f }}).
Proof.
  intros [H1 H2 H3 H4 H5 H6 H7 H8 H9] Hi Ep.
  assert (udp_held (f (tp w)) = {[ i ]} ∪ udp_held (tp w)) as E
    by (unfold udp_held; by rewrite Ep).
  split; rsimp; rewrite ?E; try done.
  - rewrite H1. apply set_eq. intros j. rewrite !elem_of_union, elem_of_difference, elem_of_singleton.
    destruct (decide (j = i)) as [->|]; tauto.
  - clear -H2. set_solver.
  - clear -H2 H3 Hi. set_solver.
  - unfold tp_wf, udp_wf. rewrite Ep. constructor; [|done].
    intros Hin. apply (elem_of_list_to_set (C := gset positive)) in Hin. fold (udp_held (tp w)) in Hin.
    clear -H2 Hi Hin. set_solver.
Qed.
(** A buffer leaves the queues. *)
Lemma inv_from_tp held base w f i :
  inv held base w -> udp_ids (tp w) ≡ₚ i :: udp_ids (f (tp w)) ->
  inv ({[ i ]} ∪ held) base (w {{ tp ::= f }}).
Proof.
  intros [H1 H2 H3 H4 H5 H6 H7 H8 H9] Ep.
  assert (udp_held (tp w) = {[ i ]} ∪ udp_held (f (tp w))) as E by (unfold udp_held; by rewrite Ep).
  unfold tp_wf, udp_wf in H9. rewrite Ep in H9. apply NoDup_cons in H9 as [Hn H9].
  assert (i ∉ udp_held (f (tp w))) as Hn'.
  { intros Hin. apply Hn. by apply (elem_of_list_to_set (C := gset positive)). }
  rewrite E in H1, H2, H3. split; rsimp; try done.
  - rewrite H1. clear. set_solver.
  - clear -H2 H3 Hn'. set_solver.
  - clear -H3. set_solver.
Qed.

Lemma orphan_ok held base w i :
  inv held base w -> i ∈ held ->
  wp (skb_orphan i) w (fun _ w' => inv held base w' /\ proto (sk w') = proto (sk w) /\
    tp w' = tp w /\ sent w' = sent w).
Proof.
  intros Hw Hi. destruct (inv_held _ _ _ _ _ Hw Hi) as [b Hb]. unfold skb_orphan.
  sal_step. eapply load_ok; [done|]. destruct (skb_owned b) eqn:Ho; sal_step; [|done].
  eapply store_ok; [done|]. sal_step. split; [|done].
  pose proof Hw as [H1 H2 H3 H4 H5 H6 H7 H8]. split; rsimp; try done.
  - rewrite dom_insert_lookup_L; [done|by eexists].
  - intros j Hj. apply H4. rewrite dom_insert_lookup_L in Hj; [done|by eexists].
  - intros j c Hq Hj. destruct (decide (i = j)) as [<-|Hne].
    + by destruct (inv_not_slot _ _ _ _ _ Hw Hi).
    + rewrite lookup_insert_ne in Hj by done. by apply (H6 j c).
  - rewrite <-insert_delete_eq, owned_insert by apply lookup_delete_eq.
    rewrite (owned_delete _ _ _ Hb), Ho. change (timers _) with (timers (sk w)).
    cbn. lia.
Qed.

Lemma queue_rcv_ok held base w i len :
  inv held base w -> i ∈ held ->
  wp (sock_queue_rcv_skb i len) w (fun r w' =>
    inv (if r <? 0 then held else held ∖ {[ i ]}) base w' /\ proto (sk w') = proto (sk w) /\
    sent w' = sent w).
Proof.
  intros Hw Hi. unfold sock_queue_rcv_skb, the_tp, upd_tp. sal_steps.
  destruct (_ <=? _); sal_steps.
  - split; [by apply inv_upd_tp|done].
  - destruct (inv_held _ _ _ _ _ Hw Hi) as [b Hb]. eapply load_ok; [done|]. sal_step.
    eapply store_ok; [done|]. set (w1 := w {{ skbs ::= _ }}).
    assert (inv held base w1) as I1 by (eapply inv_store; [done|done|done|by left]).
    sal_step. eapply wp_mono; [exact (orphan_ok held base w1 i I1 Hi)|].
    intros _ w2 (I2 & E2 & T2 & S2). sal_steps.
    match goal with |- wp _ ?x _ => set (w3 := x) end.
    assert (inv (held ∖ {[ i ]}) base w3) as I3.
    { apply inv_to_tp; [done|done|]. unfold udp_ids. rsimp. rewrite fmap_app. simpl. clear. solve_Permutation. }
    eapply wp_mono; [exact (wake_if_ok udp_held _ (held ∖ {[ i ]}) base w3 I3)|].
    intros _ w4 (I4 & E4 & S4). sal_step. split; [exact I4|]. rewrite E4, S4. done.
Qed.

Lemma udp_free_ok held base w i (r : Z) :
  inv held base w -> i ∈ held ->
  wp (kfree_skb i;; mret r) w (fun _ w' => inv (held ∖ {[ i ]}) base w' /\
    proto (sk w') = proto (sk w) /\ sent w' = sent w).
Proof.
  intros Hw Hi. sal_step. eapply wp_mono; [exact (kfree_ok udp_held held base w i Hw Hi)|].
  intros _ w1 (I1 & [K1 _] & S1 & _). by sal_step.
Qed.

Lemma udp_do_rcv_ok held base w i un csum :
  inv held base w -> i ∈ held ->
  wp (serval_udp_do_rcv i un csum) w (fun _ w' => inv (held ∖ {[ i ]}) base w' /\
    proto (sk w') = proto (sk w) /\ sent w' = sent w).
Proof.
  intros Hw Hi. destruct (inv_held _ _ _ _ _ Hw Hi) as [b Hb]. unfold serval_udp_do_rcv.
  sal_step. eapply load_ok; [done|]. destruct (_ && _); [by apply udp_free_ok|].
  sal_step. eapply store_ok; [done|]. set (w1 := w {{ skbs ::= _ }}).
  assert (inv held base w1) as I1 by (eapply inv_store; [done|done|done|by left]).
  sal_step. eapply wp_mono; [exact (queue_rcv_ok held base w1 i _ I1 Hi)|].
  intros r w2 (I2 & E2 & S2). destruct (r <? 0).
  - eapply wp_mono; [exact (udp_free_ok held base w2 i r I2 Hi)|].
    intros _ w3 (I3 & E3 & S3). split; [done|]. rewrite E3, E2, S3, S2. done.
  - sal_steps. done.
Qed.

Lemma udp_rcv_ok held base w i :
  inv held base w -> i ∈ held ->
  wp (serval_udp_rcv i) w (fun _ w' => inv (held ∖ {[ i ]}) base w' /\
    proto (sk w') = proto (sk w) /\ sent w' = sent w).
Proof.
  intros Hw Hi. destruct (inv_held _ _ _ _ _ Hw Hi) as [b Hb].
  unfold serval_udp_rcv, the_tp, upd_tp, drop_packet. sal_step. eapply load_ok; [done|]. sal_steps.
  destruct (_ && _); [by apply udp_free_ok|]. destruct (serval_udp_csum_init _ _ _) as [un csum].
  destruct (rcvqueues_full _ _); [by apply udp_free_ok|].
  destruct (owned_by_user _); cbn [negb]; [|by apply udp_do_rcv_ok]. sal_steps.
  split; [|done]. apply inv_to_tp; [done|done|]. unfold udp_ids. rsimp.
  rewrite fmap_app. simpl. clear. solve_Permutation.
Qed.

Lemma eat_ok held base w i len q :
  inv held base w -> receive_queue (tp w) = (i, len) :: q ->
  wp (eat_skb i) w (fun _ w' => inv held base w' /\ proto (sk w') = proto (sk w) /\
    sent w' = sent w /\ receive_queue (tp w') = q).
Proof.
  intros Hw Hq. unfold eat_skb, upd_tp. sal_steps. set (f := fun u => _ : udp_sock).
  assert (inv ({[ i ]} ∪ held) base (w {{ tp ::= f }})) as I1.
  { apply inv_from_tp; [done|]. unfold udp_ids, f. rsimp. by rewrite Hq. }
  assert (i ∉ held) as Hn.
  { pose proof (iv_disj _ _ _ _ Hw) as Hd. unfold udp_held, udp_ids in Hd. rewrite Hq in Hd.
    simpl in Hd. clear -Hd. set_solver. }
  eapply wp_mono; [exact (kfree_ok udp_held _ base _ i I1 ltac:(clear; set_solver))|].
  intros _ w1 (I2 & (P2 & T2 & _) & S2 & _).
  replace (({[ i ]} ∪ held) ∖ {[ i ]}) with held in I2 by (clear -Hn; set_solver).
  split_and!; [done..|]. rewrite T2. unfold f. rsimp. by rewrite Hq.
Qed.
Lemma queue_purge_ok q held base w :
  inv held base w -> receive_queue (tp w) = q ->
  wp (queue_purge q) w (fun _ w' => inv held base w' /\ proto (sk w') = proto (sk w) /\ sent w' = sent w).
Proof.
  revert w. induction q as [|[i len] q IH]; intros w Hw Hq; cbn [queue_purge]; [by sal_step|].
  sal_step. eapply wp_mono; [by eapply eat_ok|]. intros _ w1 (I1 & P1 & S1 & Q1).
  eapply wp_mono; [by apply (IH w1)|]. intros _ w2 (I2 & P2 & S2). split_and!; [done|congruence..].
Qed.

#[export] Instance udp_transport_ok : TransportOk udp_held udp_af_ops.
Proof.
  split; try done.
  - intros held base w i Hw Hi. by apply udp_rcv_ok.
  - intros f held base w [Hf|[Hf|Hf]] Hw; [done|injection Hf as <-; by sal_step|].
    injection Hf as <-. cbn [kill_queues udp_af_ops]. unfold sk_stream_kill_queues. sal_steps.
    by apply queue_purge_ok.
Qed.
End UdpOk.

(** C2 (safety): processing any packet in any state of an established UDP
    connection (RESPOND, CONNECTED, CLOSEWAIT and the closing states), live or
    orphaned, runs to completion, whatever allocations and transmissions fail on
    the way: it consumes the packet, keeps the invariant that every buffer has
    exactly one owner and that the socket's reference count is the number of its
    timers and buffers (less the one that destroying an orphaned socket drops),
    and moves the connection along the transition relation [sal_trans].  The
    one access to freed memory on these paths, the read of the length of a
    buffer that the device has freed ([transmit_reads_freed]), is assumed to
    give some number ([StaleRead]); nothing else touches freed memory.  The
    packet is one whose parser left its control extension inside the header and
    that has a source address ([pkt_ok]), and the buffers the socket allocates
    have room for the headers. *)
Theorem connection_step `{SalEnv} `{!StaleRead} (w : salw udp_sock) held base i p encap broadcast :
  (HDR_ROOM <= max_header)%nat ->
  inv udp_held held base w -> i ∈ held -> established (sk_state (sk w)) = true -> pkt_ok p ->
  exists w', serval_sal_state_process udp_af_ops encap broadcast i p w = Ok (0, w') /\
    inv udp_held (held ∖ {[ i ]}) (base_of (sk w') (sk w) base) w' /\
    sal_trans (packet_acks p (sk w)) p (sk w) (sk_state (sk w')).
Proof.
  intros Hroom Hw Hi Hest Hp.
  pose proof (state_process_ok udp_held udp_af_ops _ Hroom
    (serval_sal_listen_state_process udp_af_ops encap broadcast) (serval_sal_send_reset true)
    held base w i p Hw Hi Hest Hp) as HP.
  apply wp_run in HP as (r & w' & Hrun & -> & HS). by exists w'.
Qed.

(** ** A concrete connection *)
Module StepDemo.
#[export] Instance demo_env : SalEnv := {|
  dev_addr i := if i =? 2 then Some 100 else None; lo_dev := Some 1; local_addr := 127;
  resolution_mode := SERVICE_ITER_DEMUX; max_header := 150; max_sal_hdr := 100;
  sysctl_sal_max_retransmits := 10; inet_tos := 0; inet_ttl := 64; freed_len := Some 0;
  sk_addr := 77 |}.
#[export] Instance demo_stale : StaleRead.
Proof. by eexists. Qed.
Definition sock (st : sock_state) (refs : Z) : ssock := {|
  sk_state := st; sal_state := SAL_RSYN_INITIAL; ssk_flags := 4; is_dgram := true;
  ip_protocol := 17; snd_una := 10; snd_nxt := 11; snd_wnd := 1; snd_iss := 9;
  rcv_nxt := 20; rcv_iss := 19; rto := 100; srtt := 0; mdev := 100; mdev_max := 0;
  rttvar := 0; rtt_seq := 0; retransmits := 0; backoff := 0; pending := 0; timeout := 0;
  retransmit_timer := None; tw_timer := None; sk_timer := None; ctrl_queue := None;
  ctrl_send_head := None; local_flowid := [0; 0; 0; 1]; peer_flowid := [0; 0; 0; 2];
  local_srvid := replicate 32 3; peer_srvid := replicate 32 4; local_nonce := replicate 8 5;
  peer_nonce := replicate 8 6; srvid_prefix_bits := 0; srvid_flags := 0; hash_key := true;
  hash_key_len := 4; in_table := true; inet_saddr := 100; inet_daddr := 200;
  sk_bound_dev_if := 2; mig_dev_if := 0; mig_daddr := 0; udp_encap_sport := 0;
  udp_encap_dport := 0; udp_encap_migration_dport := 0; syn_queue := []; accept_queue := [];
  request_qlen := 0; max_request_qlen := 0; sk_ack_backlog := 0; sk_max_ack_backlog := 0;
  sk_err := 0; sk_err_soft := 0; sk_shutdown := 0; sock_dead := false; sock_done := false;
  sk_refs := refs; ack_rcv_tstamp := 0; last_rcv_tstamp := 0; tot_pkts_sent := 0;
  tot_bytes_sent := 0; tot_pkts_recv := 0; tot_bytes_recv := 0 |}.
Definition udp0 : udp_sock := UdpSock [] [] 0 0 100000 0 false (fun _ => (200, 100)) (fun _ => 500) [].
(** One buffer, the packet being received: a FIN with a UDP header. *)
Definition pkt_skb : sal_skb := SalSkb SVH_FIN 0 0 (Skb (replicate 40 0) (replicate 8 0)) false 2.
Definition world (st : sock_state) : salw udp_sock := {|
  sk := sock st 1; skbs := {[ 1%positive := pkt_skb ]}; next_skb := 2; now := 1000;
  skb_allocs := []; net_results := []; ctrl_results := []; rands := []; sent := [];
  children := []; serval_flow_id := 5; wakeups := 0;
  svc := @bst_empty service_client [] (SEnv ∅ ∅ 1 0 0 0 0 0);
  dq := SalSock.DelayQueue [] 0 0 0 10 0 false; tp := udp0 |}.
(** A control extension at offset 12: FIN and ACK with the peer's nonce. *)
Definition fin_hdr : list Z :=
  replicate 8 0 ++ [8; 17; 0; 0] ++ [16; 20; 36; 0; 0; 0; 0; 20; 0; 0; 0; 11] ++ replicate 8 6.
Definition fin_pkt : inpkt :=
  match serval_sal_parse_hdr fin_hdr SAL_PARSE_ALL with
  | Ok (_, ctx) => InPkt ctx fin_hdr 200 100 2
  | _ => InPkt (ctx0 0) [] 0 0 0
  end.
Lemma fin_pkt_ok : pkt_ok fin_pkt.
Proof. split; [|done]. intros e He. vm_compute in He. injection He as <-. vm_compute. lia. Qed.

Lemma world_inv st : inv udp_held {[ 1%positive ]} 1 (world st).
Proof.
  split; simpl; try done.
  - intros i Hi. rewrite dom_singleton_L in Hi. apply elem_of_singleton in Hi as ->. done.
  - by left.
  - by constructor.
Qed.

Lemma feed_ok_witness :
  let s := feed [30; 50; 40] (sock SAL_CONNECTED 1) in
  rtt_ok 100 s /\ SAL_RTO_MIN <= rto s <= SAL_RTO_MAX.
Proof.
  apply (feed_ok 100 [30; 50; 40] (sock SAL_CONNECTED 1)).
  - lia.
  - repeat constructor; lia.
  - done.
  - by left.
Defined.

Lemma connection_step_witness : exists w',
  serval_sal_state_process udp_af_ops false false 1 fin_pkt (world SAL_CONNECTED) = Ok (0, w') /\
  inv udp_held ∅ 1 w'.
Proof.
  destruct (connection_step (world SAL_CONNECTED) {[ 1%positive ]} 1 1%positive fin_pkt false false)
    as (w' & H1 & H2 & H3).
  - unfold HDR_ROOM, IP_HLEN. simpl. lia.
  - apply world_inv.
  - set_solver.
  - reflexivity.
  - exact fin_pkt_ok.
  - exists w'. split; [exact H1|]. rewrite difference_diag_L in H2. unfold base_of, base_after in H2.
    simpl in H2. by destruct (bool_decide _).
Defined.
End StepDemo.

From S2P Require Import SalSession.

Section Udp.
Context `{SalEnv} {Hstale : StaleRead}.
Context (Hroom : (HDR_ROOM <= max_header)%nat).
Implicit Types (w : salw udp_sock).

Lemma event_run encap broadcast e base w :
  inv udp_held ∅ base w -> established (sk_state (sk w)) = true -> enabled e (sk w) ->
  exists w', handle udp_af_ops encap broadcast e w = Ok (tt, w') /\
    moves e (sk w) (sk_state (sk w')).
Proof using Hstale Hroom.
  intros I He Hen.
  pose proof (event_ok udp_held udp_af_ops _ Hroom eq_refl encap broadcast e base w I He Hen) as HP.
  apply wp_run in HP as ([] & w' & Hrun & _ & M). by exists w'.
Qed.

(** C1 (safety): for a UDP connection, in every state reachable by any
    interleaving of received packets, [close], migrations, retransmission and
    time-wait timeouts, whatever allocations and transmissions fail: every
    buffer has exactly one owner, no reference of the socket is lost, and every
    event that can happen next runs to completion and changes the state as the
    protocol prescribes ([moves]).  Two things are assumed, because the code
    fails without them: the read of the length of a buffer that the device has
    freed gives some number ([StaleRead]; [transmit_reads_freed] is the fault),
    and a retransmission timeout comes while the back-off is below 31 (part of
    [enabled]; from there on the shift of the timeout is undefined,
    [rexmit_backoff_faults]).  Packets are as in [pkt_ok], and allocated buffers
    have room for the headers. *)
Theorem session_safe encap broadcast base w0 w e :
  inv udp_held ∅ base w0 -> established (sk_state (sk w0)) = true ->
  rtc (sal_step udp_af_ops encap broadcast) w0 w ->
  session_inv udp_held base w /\
  (established (sk_state (sk w)) = true -> enabled e (sk w) ->
   exists w', handle udp_af_ops encap broadcast e w = Ok (tt, w') /\
     moves e (sk w) (sk_state (sk w'))).
Proof using Hstale Hroom.
  intros Hw Hest Hr.
  pose proof (session_inv_ok udp_held udp_af_ops _ Hroom eq_refl encap broadcast base w0 w
    Hw Hest Hr) as Hi.
  split; [done|]. intros He Hen. destruct Hi as [[_ I]|[Hc _]]; [|by rewrite Hc in He].
  by apply (event_run encap broadcast e base).
Qed.

(** C19 (liveness): a connection whose peer is silent is given up.  With the
    packet [b] in the slot, the retransmission timer running and [n] more
    retransmissions to the limit, [n] timeouts leave the connection as it is and
    send nothing but copies of [b] to the peer's address, [n] of them if no
    allocation and no transmission fails; the next timeout closes the connection
    and releases what it holds.  The back-off does not reach 31 on the way (the
    shift of the timeout is undefined from there on), the limit fits its 8-bit
    counter, and reading the length of a buffer that the device has freed gives
    some number ([StaleRead]). *)
Theorem silent_peer_closes n base w i b :
  inv udp_held ∅ base w -> established (sk_state (sk w)) = true ->
  ctrl_queue (sk w) = Some i -> skbs w !! i = Some b ->
  retransmit_timer (sk w) <> None ->
  0 <= backoff (sk w) -> backoff (sk w) + Z.of_nat n < 31 ->
  0 <= retransmits (sk w) -> retransmits (sk w) + Z.of_nat n = sysctl_sal_max_retransmits ->
  sysctl_sal_max_retransmits < 256 ->
  exists w1 w2, timeouts udp_af_ops n w = Ok (tt, w1) /\
    sk_state (sk w1) = sk_state (sk w) /\ ctrl_queue (sk w1) = Some i /\
    (exists fs, sent w1 = sent w ++ fs /\
       Forall (fun f => f_daddr f = wire_daddr (sk w) (marked b) /\
                        f_bytes f = wire_bytes (sk w) (copy_of (marked b))) fs /\
       (willing w -> length fs = n)) /\
    serval_sal_rexmit_timeout udp_af_ops w1 = Ok (tt, w2) /\
    sk_state (sk w2) = SAL_CLOSED /\ inv udp_held ∅ (base_after (sk w) base) w2.
Proof using Hstale Hroom.
  intros Hw He Hq Hib Ht Hb0 Hb Hr0 Hr Hm.
  pose proof (silent_close_ok udp_held udp_af_ops _ Hroom n ∅ base w Hw He Ht Hb0 Hb Hr0 Hr Hm) as HP.
  apply wp_run in HP as ([] & w1 & Hrun & C1 & Q1 & (fs & F1 & F2) & HP).
  apply wp_run in HP as ([] & w2 & Hrun2 & S2 & I2). rewrite Hq in F2.
  destruct F2 as (b' & Hb' & F2 & F3). rewrite Hib in Hb'. injection Hb' as <-.
  exists w1, w2. split_and!; try done; [by apply core_state|congruence|]. by exists fs.
Qed.

(** C20 (functional): [close] on an open connection queues a FIN with the next
    version number in the slot, from which it is retransmitted, and sends it:
    unless an allocation or the device fails, one frame goes out, which the
    parser of the peer reads as a FIN with that number; if something fails,
    nothing else goes out.  From CONNECTED the connection goes to FINWAIT1, from
    CLOSEWAIT to LASTACK.  The window of the SAL is at least one packet, as the
    code sets it, and reading the length of a buffer that the device has freed
    gives some number ([StaleRead]). *)
Theorem close_sends_fin base w :
  inv udp_held ∅ base w ->
  sk_state (sk w) = SAL_CONNECTED \/ sk_state (sk w) = SAL_CLOSEWAIT ->
  0 <= snd_nxt (sk w) < 2 ^ 32 -> 1 <= snd_wnd (sk w) ->
  exists w', serval_sal_close udp_af_ops w = Ok (tt, w') /\ inv udp_held ∅ base w' /\
    sk_state (sk w') = closing (sk_state (sk w)) /\
    in_slot w' SVH_FIN (snd_nxt (sk w)) /\ snd_nxt (sk w') = u32 (snd_nxt (sk w) + 1) /\
    (sent w' = sent w \/ exists f, sent w' = sent w ++ [f] /\ carries_fin (snd_nxt (sk w)) f) /\
    (willing w -> exists f, sent w' = sent w ++ [f] /\ carries_fin (snd_nxt (sk w)) f).
Proof using Hstale Hroom.
  intros Hw Hst Hnx Hwnd.
  assert (established (sk_state (sk w)) = true) as He by (by destruct Hst as [->| ->]).
  pose proof (close_ok udp_held udp_af_ops _ Hroom eq_refl ∅ base w Hw He) as HP.
  apply wp_run in HP as ([] & w' & Hrun & I & S & F). exists w'.
  split; [done|]. unfold base_of in I. rewrite bool_decide_eq_false_2 in I.
  2: { rewrite S. by destruct Hst as [->| ->]. }
  split; [done|]. split; [done|]. destruct (F Hst) as (F1 & F2 & F3).
  split; [done|]. split; [done|]. by apply F3.
Qed.

(** The back-off exponent is not bounded.  It grows with every
    retransmission and is reset only by a round-trip sample, which retransmitted
    packets do not give; at 31 or more, a timeout shifts the 32-bit timeout by
    its width, which is undefined. *)
Theorem rexmit_backoff_faults base w :
  inv udp_held ∅ base w -> retransmit_timer (sk w) <> None ->
  retransmits (sk w) <> sysctl_sal_max_retransmits -> 31 <= backoff (sk w) <= 254 ->
  serval_sal_rexmit_timeout udp_af_ops w = Fault.
Proof using Hstale. clear Hroom. by apply rexmit_overflow. Qed.
End Udp.

Module Demo.
Import StepDemo.

(** The connection of [StepDemo] with no packet in hand. *)
Definition idle (st : sock_state) : salw udp_sock := (world st) {{ skbs := ∅ }}.
Lemma idle_inv st : inv udp_held ∅ 1 (idle st).
Proof. split; simpl; try done; [by left|by constructor]. Qed.
Lemma demo_room : (HDR_ROOM <= max_header)%nat.
Proof. unfold HDR_ROOM, IP_HLEN. simpl. lia. Qed.

(** A packet with the control flags [flags], acknowledgement [ack] and nonce. *)
Definition ctrl_pkt (flags ack nonce : Z) : inpkt :=
  let hdr := replicate 8 0 ++ [8; 17; 0; 0] ++ [16; 20; flags; 0; 0; 0; 0; 20; 0; 0; 0; ack]
             ++ replicate 8 nonce in
  match serval_sal_parse_hdr hdr SAL_PARSE_ALL with
  | Ok (_, ctx) => InPkt ctx hdr 200 100 2
  | _ => InPkt (ctx0 0) [] 0 0 0
  end.
Definition bare : sal_skb := SalSkb 0 0 0 (Skb (replicate 40 0) []) false 2.
Definition run (es : list sal_event) (w : salw udp_sock) : outcome (unit * salw udp_sock) :=
  foldr (fun e m => handle udp_af_ops false false e;; m) (mret tt) es w.
Definition holds_of (o : outcome (unit * salw udp_sock)) (f : ssock -> bool) : bool :=
  match o with Ok (_, w) => f (sk w) | _ => false end.

(** An acknowledgement that does not cover the FIN ends FINWAIT1.
    After [close], an ACK of what the peer had already acknowledged (version 11,
    the number of the FIN itself) moves the connection to FINWAIT2 although the
    FIN is still waiting in the slot. *)
Theorem stale_ack_ends_finwait1 :
  holds_of (run [EvClose] (idle SAL_CONNECTED))
    (fun s => bool_decide (sk_state s = SAL_FINWAIT1 /\ ctrl_queue s <> None /\ snd_una s = 11)) = true /\
  holds_of (run [EvClose; EvPacket bare (ctrl_pkt 32 11 6)] (idle SAL_CONNECTED))
    (fun s => bool_decide (sk_state s = SAL_FINWAIT2 /\ ctrl_queue s <> None)) = true.
Proof. vm_compute. done. Qed.

(** A reset is not authenticated.  FIN and RSYN are accepted only
    with the nonce of the peer; a RST with any nonce and a current version
    number closes the connection. *)
Theorem reset_needs_no_nonce :
  valid_ext (ctrl_pkt 8 0 99) (sock SAL_CONNECTED 1) = false /\
  holds_of (run [EvPacket bare (ctrl_pkt 8 0 99)] (idle SAL_CONNECTED))
    (fun s => bool_decide (sk_state s = SAL_CLOSED /\ sk_err s = ECONNRESET)) = true.
Proof. vm_compute. done. Qed.

Lemma close_sends_fin_witness :
  exists w', serval_sal_close udp_af_ops (idle SAL_CONNECTED) = Ok (tt, w') /\
    inv udp_held ∅ 1 w' /\ sk_state (sk w') = SAL_FINWAIT1 /\ in_slot w' SVH_FIN 11 /\
    exists f, sent w' = [f] /\ carries_fin 11 f.
Proof.
  destruct (close_sends_fin demo_room 1 (idle SAL_CONNECTED) (idle_inv _) (or_introl eq_refl))
    as (w' & ? & ? & ? & ? & _ & _ & Hs); [split; reflexivity || discriminate|discriminate|].
  exists w'. split; [assumption|]. split; [assumption|]. split; [assumption|]. split; [assumption|].
  apply Hs. split; [reflexivity|]. split; [reflexivity|]. discriminate.
Defined.

Lemma closed_run : exists w1,
  handle udp_af_ops false false EvClose (idle SAL_CONNECTED) = Ok (tt, w1) /\
  sk_state (sk w1) = SAL_FINWAIT1.
Proof.
  destruct (event_run demo_room false false EvClose 1 (idle SAL_CONNECTED) (idle_inv _) eq_refl I)
    as (w1 & Hrun & M). exists w1. split; [exact Hrun|exact M].
Qed.

Lemma session_safe_witness :
  exists w1 w2, handle udp_af_ops false false EvClose (idle SAL_CONNECTED) = Ok (tt, w1) /\
    handle udp_af_ops false false EvMigrate w1 = Ok (tt, w2) /\ sk_state (sk w2) = sk_state (sk w1).
Proof.
  destruct closed_run as (w1 & H1 & S1).
  assert (rtc (sal_step udp_af_ops false false) (idle SAL_CONNECTED) w1) as Hr.
  { apply rtc_once. exact (sal_step_event udp_af_ops false false (idle SAL_CONNECTED) w1 EvClose eq_refl I H1). }
  destruct (session_safe demo_room false false 1 (idle SAL_CONNECTED) w1 EvMigrate (idle_inv _)
    eq_refl Hr) as [_ HS].
  destruct HS as (w2 & H2 & M2).
  - rewrite S1. reflexivity.
  - exact I.
  - exists w1, w2. split; [exact H1|]. split; [exact H2|exact M2].
Defined.

(** A connection one timeout from its limit, and one with a large back-off. *)
Definition waiting (n b : Z) : salw udp_sock :=
  (idle SAL_CONNECTED) {{ sk ::= (fun s => s {{ retransmit_timer := Some 1100; retransmits := n;
                                                backoff := b; sk_refs := 2 }}) }}.
Lemma waiting_inv n b : inv udp_held ∅ 1 (waiting n b).
Proof. split; simpl; try done; [by left|by constructor]. Qed.

(** A FIN waits for its acknowledgement. *)
Definition fin_skb : sal_skb := SalSkb SVH_FIN 11 0 (Skb (replicate 150 0) []) true 0.
Definition fin_waits : salw udp_sock :=
  (idle SAL_FINWAIT1) {{ skbs := {[ 1%positive := fin_skb ]};
    sk ::= (fun s => s {{ retransmit_timer := Some 1100; ctrl_queue := Some 1%positive; sk_refs := 3 }}) }}.
Lemma fin_waits_inv : inv udp_held ∅ 1 fin_waits.
Proof.
  split; simpl; try done; unfold constant.
  - intros i Hi. rewrite dom_singleton_L in Hi. apply elem_of_singleton in Hi as ->. done.
  - by left.
  - intros i b [= <-] Hb. rewrite lookup_singleton_eq in Hb. injection Hb as <-.
    split; [done|]. simpl. unfold HDR_ROOM, IP_HLEN. lia.
  - by constructor.
Qed.
Lemma silent_peer_closes_witness :
  exists w1 w2 fs, timeouts udp_af_ops 10 fin_waits = Ok (tt, w1) /\
    sent w1 = fs /\ length fs = 10%nat /\
    serval_sal_rexmit_timeout udp_af_ops w1 = Ok (tt, w2) /\ sk_state (sk w2) = SAL_CLOSED.
Proof.
  destruct (silent_peer_closes demo_room 10 1 fin_waits 1%positive fin_skb fin_waits_inv)
    as (w1 & w2 & H1 & _ & _ & (fs & Hs & _ & Hl) & H2 & H3 & _);
    [reflexivity|reflexivity|reflexivity|discriminate|apply Z.leb_le; reflexivity|apply Z.ltb_lt; reflexivity
    |apply Z.leb_le; reflexivity|reflexivity|apply Z.ltb_lt; reflexivity|].
  exists w1, w2, fs. split; [exact H1|]. split; [exact Hs|]. split; [|split; assumption].
  apply Hl. split; [reflexivity|]. split; [reflexivity|discriminate].
Defined.

Lemma rexmit_backoff_faults_witness :
  serval_sal_rexmit_timeout udp_af_ops (waiting 1 31) = Fault.
Proof.
  apply (rexmit_backoff_faults 1 (waiting 1 31) (waiting_inv 1 31));
    [discriminate|discriminate|split; apply Z.leb_le; reflexivity].
Defined.
End Demo.
