(* ===== verification/SalFwd.v ===== *)
(** * Forwarding of packets: source extensions and the IP header
    (src/stack/serval_sal.c lines 1287-1450 and 3060-3105, serval_ipv4.c lines
    36-40 and 91-167, userlevel/skbuff.c lines 224-249 and 390-436)

    A packet that resolves to a FORWARD rule is sent on with the addresses it
    has passed in a source extension of its SAL header.  The IP header lies in
    the last [size] bytes of the headroom, in front of the SAL header.  Making
    room for the extension moves the bytes in front of it and leaves a gap of
    old bytes, of which the code overwrites the fields it means to set. *)
From S2P Require Import Prelude Bst ServiceEntry ServiceTable SalHdr Checksum.
From S2P Require Import SalSock Rto DelayQueue Sal SalCtrl SalState Udp.
Local Open Scope Z_scope.

Inductive source_ext_res :=
| SOURCE_EXT_IP_EXISTS | SOURCE_EXT_IP_NONE | SOURCE_EXT_NONE.

(** [memcmp] of [n] addresses from offset [off] with [ip]. *)
Fixpoint addr_listed (d : list Z) (off n : nat) (ip : list Z) : outcome bool :=
  match n with
  | O => Ok false
  | S n =>
      a ← rd_bytes d off 4;
      if bool_decide (a = ip) then Ok true else addr_listed d (off + 4) n ip
  end.

Definition serval_sal_source_ext_check (d : list Z) (ctx : sal_context)
    (ipaddr : list Z) : outcome source_ext_res :=
  match c_src_ext ctx with
  | None => Ok SOURCE_EXT_NONE
  | Some e =>
      len ← rd8 d (e + 1);
      b ← addr_listed d (e + 4) (Z.to_nat (num_addrs len)) ipaddr;
      Ok (if (b : bool) then SOURCE_EXT_IP_EXISTS else SOURCE_EXT_IP_NONE)
  end.

(** ** The IP header in front of the data *)
Definition ip_hdr (size : nat) (buf : skbuf) : outcome (list Z) :=
  if decide (size <= length (headroom buf))%nat
  then Ok (drop (length (headroom buf) - size) (headroom buf)) else Fault.
Definition ip_saddr (ip : list Z) : list Z := take 4 (drop 12 ip).
Definition ip_daddr (ip : list Z) : list Z := take 4 (drop 16 ip).
(** [ihl << 2] *)
Definition ip_hdr_len (b0 : Z) : nat := Z.to_nat (Z.shiftl (Z.land b0 15) 2).

(** [pskb_pull]: a length that is too large is ignored. *)
Definition pskb_pull (n : nat) (buf : skbuf) : skbuf :=
  if decide (n <= length (data buf))%nat
  then Skb (headroom buf ++ take n (data buf)) (drop n (data buf)) else buf.

(** [memmove(skb_push(skb, extra), skb->data, n)]. *)
Definition move_back (n extra : nat) (buf : skbuf) : outcome skbuf :=
  bs ← rd_bytes (data buf) 0 n;
  buf ← skb_push extra buf;
  Ok (skb_put_bytes 0 bs buf).

(** A store of bytes inside the packet. *)
Definition wr_bytes (off : nat) (bs d : list Z) : outcome (list Z) :=
  if decide (off + length bs <= length d)%nat then Ok (put_bytes off bs d) else Fault.

(** Offset of the address [SAL_SOURCE_EXT_GET_LAST_ADDR] in an extension at
    [e] whose length byte is [len]; pointer arithmetic of 64 bits. *)
Definition last_addr_off (e : nat) (len : Z) : nat :=
  Z.to_nat (u64 (Z.of_nat e + 4 + 4 * (num_addrs len - 1))).

(** The addresses written to the extension at [e] of length [ext_len]. *)
Definition write_addrs (ctx : sal_context) (e : nat) (ext_len : Z) (ip d : list Z)
  : outcome (list Z) :=
  match c_src_ext ctx with
  | Some _ => wr_bytes (last_addr_off e ext_len) (ip_daddr ip) d
  | None =>
      d ← wr_bytes (e + 4) (ip_saddr ip) d;
      wr_bytes (e + 8) (ip_daddr ip) d
  end.

(** From the check of the headroom on: [buf] starts with the IP header and has
    room for [extra] bytes; [d0] is the packet [ctx] was parsed from. *)
Definition place_source_ext (size : nat) (ctx : sal_context) (d0 : list Z)
    (extra : nat) (ext_len : Z) (buf : skbuf) : outcome skbuf :=
  off ← match c_src_ext ctx with
        | Some e => len ← rd8 d0 (e + 1); Ok (last_addr_off e len + 4)%nat
        | None => Ok (Z.to_nat (c_length ctx))
        end;
  buf ← move_back (size + off) extra buf;
  let ip := take size (data buf) in
  let buf := pskb_pull size buf in
  let e := match c_src_ext ctx with
           | Some e => e
           | None => Z.to_nat (c_length ctx)
           end in
  b0 ← rd8 (data buf) e;
  d ← wr_bytes e [set_ext_type SAL_SOURCE_EXT b0; u8 ext_len] (data buf);
  d ← write_addrs ctx e (u8 ext_len) ip d;
  d ← wr_bytes 10 [0; 0] d;
  d ← wr_bytes 8 [u8 (Z.shiftr (c_length ctx + Z.of_nat extra) 2)] d;
  Ok (Skb (headroom buf) d).

(** ** Transport checksums *)
Definition SERVAL_PROTO_TCP : Z := 6.
Definition SERVAL_PROTO_UDP : Z := 17.
Definition IPPROTO_TCP : Z := 6.
(** The checksum of a transport header whose field is at [at_check]. *)
Definition transport_checked (at_check : nat) (proto saddr daddr : Z) (d : list Z)
  : outcome (list Z) :=
  d ← wr_bytes at_check [0; 0] d;
  let c := csum_tcpudp_magic saddr daddr (u16 (Z.of_nat (length d))) proto
             (csum_partial 0 d 0) in
  wr_bytes at_check [Z.land c 255; Z.shiftr c 8] d.
Definition serval_sal_update_transport_csum (protocol : Z) (ip d : list Z)
  : outcome (list Z) :=
  let saddr := le32 (ip_saddr ip) in
  let daddr := le32 (ip_daddr ip) in
  if protocol =? SERVAL_PROTO_TCP
  then transport_checked 16 IPPROTO_TCP saddr daddr d
  else if protocol =? SERVAL_PROTO_UDP
  then transport_checked 6 IPPROTO_UDP saddr daddr d
  else Ok d.

(** ** The IP header of a forwarded packet *)
(** The user-level part of [serval_ipv4_forward_out]: one hop less, the length
    of the packet, the checksum. *)
Definition forward_ip (len : nat) (ip : list Z) : list Z :=
  let ip := <[8%nat := u8 (at_ ip 8 - 1)]> ip in
  let len := u16 (Z.of_nat len) in
  ip_send_check (put_bytes 2 [Z.shiftr len 8; Z.land len 255] ip).

Section Forward.
Context {TP : Type} `{SalEnv}.
(** [hard_header_len] of an interface, if it exists. *)
Context (hard_header_len : Z -> option nat).
Implicit Types (w : salw TP) (i c : positive).

(** User-level [skb_copy] allocates a buffer of the same size, but the copy of
    the contents is commented out; fresh buffers are zero. *)
Definition skb_copy i : SALM TP (option positive) :=
  b ← skb_load i;
  ok ← alloc_result;
  if (ok : bool) then
    c ← new_skb (b {{ skb_owned := false;
          skb_buf := Skb (replicate (length (headroom (skb_buf b))) 0)
                         (replicate (length (data (skb_buf b))) 0) }});
    mret (Some c)
  else mret None.

(** [skb_copy_expand] with [extra] more bytes of headroom. *)
Definition skb_copy_expand i (extra : nat) : SALM TP (option positive) :=
  b ← skb_load i;
  ok ← alloc_result;
  if (ok : bool) then
    c ← new_skb (b {{ skb_owned := false;
          skb_buf := Skb (replicate extra 0 ++ headroom (skb_buf b))
                         (data (skb_buf b)) }});
    mret (Some c)
  else mret None.

(** The second half of [serval_sal_add_source_ext], from the push back to the IP
    header on: make room for [extra] bytes and write the extension.  [ctx] was
    parsed from the buffer [orig], in which its pointers lie; [d0] is what that
    buffer contains.  Returns the result and the buffer that [*in_skb] points to
    afterwards. *)
Definition insert_source_ext (orig : positive) (size : nat) i (ctx : sal_context)
    (d0 : list Z) (extra : nat) (ext_len : Z) : SALM TP (Z * positive)%type :=
  b ← skb_load i;
  buf ← liftR (skb_push size (skb_buf b));
  skb_store i (b {{ skb_buf := buf }});;
  hlen ← derefM (hard_header_len (skb_dev b));
  c ← (if (length (headroom buf) <? extra + size + hlen)%nat then
         c ← skb_copy_expand i extra;
         match c with
         | Some c => kfree_skb i;; mret (Some c)
         | None => mret None
         end
       else mret (Some i));
  match c with
  | None => mret (- ENOMEM, i)
  | Some c =>
      (* the pointers of [ctx] are read after the buffer was freed *)
      (match c_src_ext ctx with
       | Some _ => skb_load orig;; mret tt
       | None => mret tt
       end);;
      b ← skb_load c;
      buf ← liftR (place_source_ext size ctx d0 extra ext_len (skb_buf b));
      skb_store c (b {{ skb_buf := buf }});;
      mret (Z.of_nat extra, c)
  end.

Definition serval_sal_add_source_ext (orig : positive) (size : nat) i
    (ctx : sal_context) (d0 : list Z) : SALM TP (Z * positive)%type :=
  b ← skb_load i;
  ip ← liftR (ip_hdr size (skb_buf b));
  res ← liftR (serval_sal_source_ext_check d0 ctx (ip_daddr ip));
  match res, c_src_ext ctx with
  | SOURCE_EXT_IP_EXISTS, _ => mret (-1, i)
  | SOURCE_EXT_IP_NONE, Some e =>
      len ← liftR (rd8 d0 (e + 1));
      insert_source_ext orig size i ctx d0 4 (len + 4)
  | SOURCE_EXT_IP_NONE, None => faultM
  | SOURCE_EXT_NONE, _ => insert_source_ext orig size i ctx d0 12 12
  end.

(** [serval_ipv4_forward_out] on a buffer that starts with its IP header of
    [size] bytes; the device takes the buffer. *)
Definition serval_ipv4_forward_out (size : nat) c : SALM TP Z :=
  b ← skb_load c;
  let d := data (skb_buf b) in
  let ip := forward_ip (length d) (take size d) in
  err ← net_result;
  (if err <? 0 then mret tt
   else modS (fun w => w {{ sent := sent w ++
          [Frame (le32 (ip_saddr ip)) (le32 (ip_daddr ip)) (skb_dev b)
                 (drop size d) ip] }}));;
  kfree_skb c;;
  mret err.

(** New destination, checksums, and off: the rest of the loop body of
    [serval_sal_resolve_service] once the extension is in place; [hdr_len] is
    the length of the SAL header. *)
Definition forward_skb (size : nat) (hdr_len : nat) (protocol : Z) (dst : list Z) c
  : SALM TP Z :=
  b ← skb_load c;
  let buf := skb_buf b in
  ip ← liftR (ip_hdr size buf);
  dst4 ← liftR (rd_bytes dst 0 4);
  ip ← liftR (wr_bytes 16 dst4 ip);
  let buf := Skb (take (length (headroom buf) - size) (headroom buf) ++ ip)
                 (data buf) in
  let buf := pskb_pull hdr_len buf in
  d ← liftR (serval_sal_update_transport_csum protocol ip (data buf));
  buf ← liftR (skb_push hdr_len (Skb (headroom buf) d));
  let buf := Skb (headroom buf) (serval_sal_send_check 0 (data buf)) in
  buf ← liftR (skb_push size buf);
  skb_store c (b {{ skb_buf := buf }});;
  serval_ipv4_forward_out size c.

(** The part of the loop body of [serval_sal_resolve_service] from the source
    extension on, for the copy [c] of the packet [i].  Returns the header length
    for the next round and the number of packets forwarded. *)
Definition forward_copy (size : nat) i c (ctx : sal_context) (d0 : list Z)
    (protocol : Z) (dst : list Z) (hdr_len : Z) : SALM TP (Z * Z)%type :=
  '(ret, c) ← serval_sal_add_source_ext i size c ctx d0;
  if ret <? 0 then
    (if bool_decide (c = i) then mret tt else kfree_skb c);;
    mret (hdr_len, 0)
  else
    let hdr_len := u32 (hdr_len + ret) in
    ret ← forward_skb size (Z.to_nat hdr_len) protocol dst c;
    mret (hdr_len, if ret =? 0 then 1 else 0).
End Forward.
