(* ===== verification/SalFwdOk.v ===== *)
(** * Forwarded packets carry the route they took

    A relay that forwards a packet adds addresses to the source extension of
    its SAL header and recomputes the checksums.  What the receiver parses is
    the header that was sent plus the list of addresses passed, in order; a
    relay that is in the list already refuses the packet. *)
From S2P Require Import Prelude Bst ServiceEntry ServiceTable SalHdr Checksum.
From S2P Require Import SalSock Rto DelayQueue Sal SalCtrl SalState Udp.
From S2P Require Import SalHdrProps SalFwd.
Local Open Scope Z_scope.

(** ** Parsing depends on the bytes of the extensions only *)
Definition agree (a b : nat) (d d' : list Z) : Prop :=
  forall k, (a <= k < b)%nat -> d !! k = d' !! k.
Definition set_len (L : Z) (ctx : sal_context) : sal_context :=
  SalContext L (c_flags ctx) (c_verno ctx) (c_ackno ctx) (c_ext ctx)
    (c_ctrl_ext ctx) (c_srv_ext0 ctx) (c_srv_ext1 ctx) (c_src_ext ctx).

Lemma rd8_agree a b d d' k : agree a b d d' -> (a <= k < b)%nat -> rd8 d' k = rd8 d k.
Proof. intros Ha Hk. unfold rd8. by rewrite (Ha k). Qed.

Lemma rd_bytes_lookup d off n l :
  rd_bytes d off n = Ok l -> (off + n <= length d)%nat /\ l = take n (drop off d).
Proof. unfold rd_bytes. case_decide; [|done]. intros [= <-]. done. Qed.

Lemma rd_bytes_agree a b d d' off n l :
  agree a b d d' -> (a <= off)%nat -> (off + S n <= b)%nat ->
  rd_bytes d off (S n) = Ok l -> rd_bytes d' off (S n) = Ok l.
Proof.
  intros Ha H1 H2 [Hl ->]%rd_bytes_lookup. unfold rd_bytes.
  assert (off + S n <= length d')%nat as Hl'.
  { destruct (decide (off + S n <= length d')%nat); [done|].
    assert (d' !! (off + n)%nat = None) as Hn by (apply lookup_ge_None; lia).
    rewrite <-(Ha (off + n)%nat), lookup_ge_None in Hn by lia. lia. }
  rewrite decide_True by done. f_equal. apply list_eq. intros k.
  destruct (decide (k < S n)%nat).
  - rewrite !lookup_take_lt, !lookup_drop by lia. symmetry. apply Ha. lia.
  - by rewrite !lookup_take_ge by lia.
Qed.

Lemma obind_inv {A B} (m : outcome A) (k : A -> outcome B) b :
  (m ≫= k) = Ok b -> exists a, m = Ok a /\ k a = Ok b.
Proof. destruct m; naive_solver. Qed.

Lemma ext_len_agree d d' e n :
  SAL_EXT_LEN d e = Ok n -> 0 < n -> (ext_type_of <$> (d !! e) <> Some SAL_PAD_EXT -> 2 <= n) ->
  agree e (e + Z.to_nat n) d d' -> SAL_EXT_LEN d' e = Ok n.
Proof.
  unfold SAL_EXT_LEN. intros (b0 & Hb & Hn)%obind_inv H0 H2 Ha.
  rewrite (obind_Ok _ _ b0) by (rewrite <-Hb; eapply rd8_agree; [done|lia]).
  destruct (Z.eqb_spec (ext_type_of b0) SAL_PAD_EXT) as [|Ht]; [done|].
  rewrite <-Hn. eapply rd8_agree; [done|]. 
  unfold rd8 in Hb. destruct (d !! e); [|done]. injection Hb as ->.
  assert (2 <= n) by (apply H2; naive_solver). lia.
Qed.

Lemma min_ext_nonpad t : t <> SAL_PAD_EXT -> 4 <= min_ext_length t.
Proof. unfold min_ext_length, SAL_PAD_EXT. intros. repeat case_match; lia. Qed.

Ltac outcome_inv H := apply obind_inv in H as (? & ? & H).

(** What an extension that parses says of its length. *)
Lemma parse_ext_len d e ctx r ctx' :
  parse_ext d e ctx = Ok (r, ctx') -> 0 < r ->
  exists b0, rd8 d e = Ok b0 /\ SAL_EXT_LEN d e = Ok r /\
    min_ext_length (ext_type_of b0) <= r.
Proof.
  intros Hp Hr. unfold parse_ext in Hp.
  apply obind_inv in Hp as (n & Hn & Hp). apply obind_inv in Hp as (b0 & Hb & Hp).
  exists b0. split; [done|].
  destruct (SAL_EXT_TYPE_MAX <=? _); [injection Hp as; lia|].
  destruct (Z.ltb_spec n (min_ext_length (ext_type_of b0))); [injection Hp as; lia|].
  enough (r = n) as -> by done. unfold SAL_EXT_LEN in Hn. rewrite (obind_Ok _ _ _ Hb) in Hn.
  destruct (ext_type_of b0 =? SAL_PAD_EXT); [congruence|].
  unfold parse_control_ext, parse_service_ext, parse_source_ext in Hp.
  repeat case_match; simplify_eq; try lia; try done;
    repeat outcome_inv Hp; injection Hp as Hp _; [done|case_match; lia].
Qed.

(** An extension that parses lies within its length, whatever the length of
    the header around it. *)
Lemma parse_ext_frame d d' e ctx r ctx' L :
  parse_ext d e ctx = Ok (r, ctx') -> 0 < r -> agree e (e + Z.to_nat r) d d' ->
  SAL_EXT_LEN d' e = Ok r /\ c_ext ctx' = c_ext ctx /\
  parse_ext d' e (set_len L ctx) = Ok (r, set_len L ctx').
Proof.
  intros Hp Hr Ha. destruct (parse_ext_len _ _ _ _ _ Hp Hr) as (b0 & Hb & Hlen & Hmin).
  assert (rd8 d' e = Ok b0) as Hb' by (rewrite <-Hb; eapply rd8_agree; [done|lia]).
  assert (SAL_EXT_LEN d' e = Ok r) as Hlen'.
  { eapply ext_len_agree; [done|done| |done]. unfold rd8 in Hb.
    destruct (d !! e) as [b|]; [|done]. injection Hb as ->. intros Ht.
    pose proof (min_ext_nonpad (ext_type_of b0)) as Hm.
    enough (ext_type_of b0 <> SAL_PAD_EXT) by (specialize (Hm ltac:(done)); lia).
    intros He. apply Ht. simpl. by rewrite He. }
  split; [done|]. unfold parse_ext in *.
  rewrite (obind_Ok _ _ _ Hlen'), (obind_Ok _ _ _ Hb').
  rewrite (obind_Ok _ _ _ Hlen), (obind_Ok _ _ _ Hb) in Hp.
  unfold min_ext_length in *. unfold parse_control_ext, parse_service_ext, parse_source_ext in *.
  simpl c_ctrl_ext. simpl c_srv_ext0. simpl c_srv_ext1. simpl c_src_ext.
  repeat (case_match; simplify_eq; try lia; try done).
  - outcome_inv Hp. outcome_inv Hp. outcome_inv Hp. injection Hp as <-. split; [done|].
    rewrite (obind_Ok _ _ x) by (eapply rd_bytes_agree; [done|lia|lia|done]).
    rewrite (obind_Ok _ _ x0) by (eapply rd_bytes_agree; [done|lia|lia|done]).
    rewrite (rd8_agree _ _ _ _ _ Ha) by lia. by rewrite (obind_Ok _ _ x1).
  - outcome_inv Hp. rewrite (rd8_agree _ _ _ _ _ Ha) by lia. rewrite (obind_Ok _ _ x) by done.
    case_match; simplify_eq; done || lia.
Qed.

Lemma ext_next_len d e r : SAL_EXT_LEN d e = Ok r -> SAL_EXT_NEXT d e = Ok (e + Z.to_nat r)%nat.
Proof. intros H. unfold SAL_EXT_NEXT. by rewrite (obind_Ok _ _ _ H). Qed.

(** Extensions that fill [n] bytes are parsed the same in any header that
    continues behind them. *)
Lemma parse_exts_frame rounds d d' L : forall e n ctx ctx' more,
  parse_exts rounds d e n ctx = Ok (0, ctx') -> 0 <= n -> 0 <= more ->
  agree e (e + Z.to_nat n) d d' ->
  exists used, (used <= rounds)%nat /\
    (length (c_ext ctx') = length (c_ext ctx) + used)%nat /\
    parse_exts rounds d' e (n + more) (set_len L ctx) =
    parse_exts (rounds - used) d' (e + Z.to_nat n) more (set_len L ctx').
Proof.
  induction rounds as [|rounds IH]; intros e n ctx ctx' more Hp Hn Hm Ha.
  { cbn in Hp. exists 0%nat. destruct (Z.leb_spec n 0); injection Hp as ? <-;
      (split; [lia|]); (split; [lia|]); f_equal; lia. }
  cbn [parse_exts] in Hp. destruct (Z.leb_spec n 0).
  { injection Hp as -> <-. exists 0%nat. split; [lia|]. split; [lia|].
    simpl Z.to_nat. by rewrite Nat.add_0_r, Nat.sub_0_r. }
  apply obind_inv in Hp as ([r ctx1] & He & Hp). destruct (Z.leb_spec r 0); [done|].
  destruct (parse_ext_len _ _ _ _ _ He) as (_ & _ & Hlen & _); [lia|].
  rewrite (obind_Ok _ _ _ (ext_next_len _ _ _ Hlen)) in Hp.
  destruct (decide (r <= n)) as [Hr|Hr].
  2:{ destruct rounds; cbn in Hp; rewrite (proj2 (Z.leb_le _ _)) in Hp by lia;
        injection Hp as; lia. }
  destruct (parse_ext_frame d d' e ctx r ctx1 L He) as (Hlen' & Hx & He'); [lia| |].
  { intros k Hk. apply Ha. lia. }
  destruct (IH (e + Z.to_nat r)%nat (n - r) (add_ext e ctx1) ctx' more Hp)
    as (used & Hu & Hl & Hrest); [lia|lia| |].
  { intros k Hk. apply Ha. lia. }
  exists (S used). split; [lia|]. split.
  { rewrite Hl. cbn. rewrite length_app, Hx. simpl. lia. }
  rewrite (parse_step _ _ _ _ _ _ _ _ He' (ext_next_len _ _ _ Hlen')) by lia.
  replace (n + more - r) with (n - r + more) by lia. 
  replace (e + Z.to_nat n)%nat with (e + Z.to_nat r + Z.to_nat (n - r))%nat by lia.
  exact Hrest.
Qed.

(** ** Packets with the route they took

    [exts] are the extensions the sender wrote; [addrs] the addresses in the
    source extension behind them, in which the reserved bits are arbitrary. *)
Definition source_ext (b0 r2 r3 : Z) (addrs : list (list Z)) : list Z :=
  [set_ext_type SAL_SOURCE_EXT b0; Z.of_nat (4 + 4 * length addrs); r2; r3]
  ++ concat addrs.
Definition exts_ok (exts : list Z) (ctx : sal_context) : Prop :=
  parse_exts MAX_NUM_SAL_EXTENSIONS (replicate 12 0 ++ exts) 12
    (Z.of_nat (length exts)) (ctx0 0) = Ok (0, ctx) /\
  c_src_ext ctx = None /\ (length (c_ext ctx) < MAX_NUM_SAL_EXTENSIONS)%nat.
Definition source_part (addrs : list (list Z)) (src : list Z) : Prop :=
  Forall (fun a => length a = 4%nat) addrs /\
  match addrs with
  | [] => src = []
  | [_] => False
  | _ => exists b0 r2 r3, src = source_ext b0 r2 r3 addrs
  end.
Definition routed (lf pf : list Z) (proto : Z) (exts : list Z) (addrs : list (list Z))
    (payload d : list Z) : Prop :=
  exists shl c0 c1 src,
    d = base_bytes lf pf shl proto c0 c1 ++ exts ++ src ++ payload /\
    length lf = 4%nat /\ length pf = 4%nat /\ source_part addrs src /\
    4 * shl = Z.of_nat (12 + length exts + length src) /\ shl < 256.

(** What such a packet parses to. *)
Definition routed_ctx (exts : list Z) (addrs : list (list Z)) (ctx : sal_context)
  : sal_context :=
  let e := (12 + length exts)%nat in
  match addrs with
  | [] => set_len (Z.of_nat e) ctx
  | _ =>
      SalContext (Z.of_nat (e + 4 + 4 * length addrs)) (c_flags ctx) (c_verno ctx)
        (c_ackno ctx) (c_ext ctx ++ [e]) (c_ctrl_ext ctx) (c_srv_ext0 ctx)
        (c_srv_ext1 ctx) (Some e)
  end.

Lemma length_concat4 (addrs : list (list Z)) :
  Forall (fun a => length a = 4%nat) addrs -> length (concat addrs) = (4 * length addrs)%nat.
Proof. induction 1 as [|a l Ha _ IH]; simpl; [done|]. rewrite length_app, Ha, IH. lia. Qed.

Lemma length_source_ext b0 r2 r3 addrs :
  Forall (fun a => length a = 4%nat) addrs ->
  length (source_ext b0 r2 r3 addrs) = (4 + 4 * length addrs)%nat.
Proof. intros H. unfold source_ext. rewrite length_app, length_concat4 by done. done. Qed.

Lemma length_source_part addrs src :
  source_part addrs src ->
  length src = match addrs with [] => 0 | _ => 4 + 4 * length addrs end%nat.
Proof.
  intros [Hf Hs]. destruct addrs as [|a [|b l]]; [by subst|done|].
  destruct Hs as (b0 & r2 & r3 & ->). by rewrite length_source_ext.
Qed.

Lemma parse_hdr_at d shl :
  d !! 8%nat = Some shl -> 3 <= shl ->
  serval_sal_parse_hdr d SAL_PARSE_ALL =
  parse_exts MAX_NUM_SAL_EXTENSIONS d 12 (4 * shl - 12) (ctx0 (4 * shl)).
Proof.
  intros Hd Hs. unfold serval_sal_parse_hdr. rewrite (obind_Ok _ _ shl) by (unfold rd8; by rewrite Hd).
  assert (Z.shiftl shl 2 = 4 * shl) as -> by (rewrite Z.shiftl_mul_pow2; lia).
  simpl. rewrite (proj2 (Z.ltb_ge _ _)); [done|]. unfold SAL_HEADER_LEN. lia.
Qed.

Lemma base_lookup8 lf pf shl proto c0 c1 rest :
  length lf = 4%nat -> length pf = 4%nat ->
  (base_bytes lf pf shl proto c0 c1 ++ rest) !! 8%nat = Some shl.
Proof.
  intros Hl Hp. unfold base_bytes.
  destruct lf as [|? [|? [|? [|? []]]]]; try done.
  by destruct pf as [|? [|? [|? [|? []]]]].
Qed.

Lemma num_addrs_of n : (n <= 62)%nat -> num_addrs (Z.of_nat (4 + 4 * n)) = Z.of_nat n.
Proof.
  intros Hn. unfold num_addrs, u64. rewrite Z.mod_small by lia.
  replace (Z.of_nat (4 + 4 * n) - 4) with (Z.of_nat n * 4) by lia. apply Z.div_mul. lia.
Qed.

Lemma parse_source_at pre b0 r2 r3 addrs post ctx :
  (2 <= length addrs <= 62)%nat -> c_src_ext ctx = None ->
  let d := pre ++ source_ext b0 r2 r3 addrs ++ post in
  parse_ext d (length pre) ctx =
    Ok (Z.of_nat (4 + 4 * length addrs),
        SalContext (c_length ctx) (c_flags ctx) (c_verno ctx) (c_ackno ctx) (c_ext ctx)
          (c_ctrl_ext ctx) (c_srv_ext0 ctx) (c_srv_ext1 ctx) (Some (length pre))) /\
  SAL_EXT_NEXT d (length pre) = Ok (length pre + (4 + 4 * length addrs))%nat.
Proof.
  intros Ha Hc d. set (n := Z.of_nat (4 + 4 * length addrs)).
  assert (ext_type_of (set_ext_type SAL_SOURCE_EXT b0) = SAL_SOURCE_EXT) as Ht
    by (apply ext_type_set; unfold SAL_SOURCE_EXT; lia).
  destruct (ext_len_at d pre (set_ext_type SAL_SOURCE_EXT b0) n
    (r2 :: r3 :: concat addrs ++ post)) as (H1 & H2 & H3 & H4); [done|by rewrite Ht|].
  rewrite H4, (Nat2Z.id _ : Z.to_nat n = _). split; [|done]. unfold parse_ext.
  rewrite (obind_Ok _ _ _ H1), (obind_Ok _ _ _ H2), Ht.
  change (SAL_EXT_TYPE_MAX <=? SAL_SOURCE_EXT) with false. cbv iota.
  change (min_ext_length SAL_SOURCE_EXT) with 4.
  rewrite (proj2 (Z.ltb_ge _ _)) by lia.
  change (SAL_SOURCE_EXT =? SAL_PAD_EXT) with false.
  change (SAL_SOURCE_EXT =? SAL_CONTROL_EXT) with false.
  change (SAL_SOURCE_EXT =? SAL_SERVICE_EXT) with false.
  change (SAL_SOURCE_EXT =? SAL_ADDRESS_EXT) with false. cbv iota.
  unfold parse_source_ext. rewrite Hc, (obind_Ok _ _ _ H3). subst n.
  rewrite num_addrs_of by lia. by rewrite (proj2 (Z.ltb_ge _ _)) by lia.
Qed.

Lemma routed_exts_agree lf pf shl proto c0 c1 exts rest :
  length lf = 4%nat -> length pf = 4%nat ->
  agree 12 (12 + length exts) (replicate 12 0 ++ exts)
    (base_bytes lf pf shl proto c0 c1 ++ exts ++ rest).
Proof.
  intros Hl Hp k Hk. pose proof (length_base lf pf shl proto c0 c1 Hl Hp) as Hb.
  rewrite (lookup_app_r (replicate 12 0)), lookup_app_r
    by (rewrite ?length_replicate, ?Hb; lia).
  rewrite length_replicate, Hb. rewrite lookup_app_l by lia. done.
Qed.

(** The packet parses to what the sender wrote, with the route. *)
Lemma routed_parses lf pf proto exts addrs payload d ctx :
  exts_ok exts ctx -> routed lf pf proto exts addrs payload d ->
  (length addrs <= 62)%nat ->
  serval_sal_parse_hdr d SAL_PARSE_ALL = Ok (0, routed_ctx exts addrs ctx).
Proof.
  intros (He & Hsrc & Hn) (shl & c0 & c1 & src & -> & Hlf & Hpf & Hs & Hshl & Hlt) Ha.
  pose proof (length_source_part _ _ Hs) as Hls.
  rewrite (parse_hdr_at _ shl) by (apply base_lookup8 || lia; done).
  destruct (parse_exts_frame _ _
    (base_bytes lf pf shl proto c0 c1 ++ exts ++ src ++ payload)
    (4 * shl) _ _ _ _ (Z.of_nat (length src)) He)
    as (used & Hu & Hl & Hp); [lia|lia| |].
  { rewrite Nat2Z.id. by apply routed_exts_agree. }
  simpl in Hl. change (set_len (4 * shl) (ctx0 0)) with (ctx0 (4 * shl)) in Hp.
  replace (4 * shl - 12) with (Z.of_nat (length exts) + Z.of_nat (length src)) by lia.
  rewrite Hp. clear Hp. rewrite Nat2Z.id.
  destruct Hs as [Hf Hs]. destruct addrs as [|a [|b l]]; [|done|].
  - subst src. simpl length in *. unfold routed_ctx.
    replace (Z.of_nat (12 + length exts)) with (4 * shl) by lia.
    by destruct (MAX_NUM_SAL_EXTENSIONS - used)%nat.
  - destruct Hs as (b0 & r2 & r3 & ->). 
    assert (exists k, (MAX_NUM_SAL_EXTENSIONS - used = S k)%nat) as [k ->]
      by (exists (MAX_NUM_SAL_EXTENSIONS - used - 1)%nat; lia).
    set (pre := base_bytes lf pf shl proto c0 c1 ++ exts).
    assert (length pre = 12 + length exts)%nat as Hpre
      by (unfold pre; rewrite length_app, length_base by done; done).
    destruct (parse_source_at pre b0 r2 r3 (a :: b :: l) payload (set_len (4 * shl) ctx))
      as [Hpe Hnx]; [simpl in *; lia|done|].
    rewrite app_assoc. fold pre. rewrite <-Hpre.
    rewrite (parse_step _ _ _ _ _ _ _ _ Hpe Hnx) by (rewrite ?Hls; simpl; lia).
    rewrite Hls, Z.sub_diag, Hpre.
    assert (4 * shl = Z.of_nat (12 + length exts + 4 + 4 * length (a :: b :: l))) as ->
      by (rewrite Hshl, Hls; lia).
    by destruct k.
Qed.

(** The addresses are where [SAL_SOURCE_EXT_GET_ADDR] looks for them. *)
Lemma concat_lookup (addrs : list (list Z)) k a :
  Forall (fun a => length a = 4%nat) addrs -> addrs !! k = Some a ->
  exists l r, concat addrs = l ++ a ++ r /\ length l = (4 * k)%nat /\ length a = 4%nat.
Proof.
  intros Hf Hk. rewrite <-(take_drop_middle addrs k a Hk), concat_app. simpl.
  exists (concat (take k addrs)), (concat (drop (S k) addrs)). split; [done|].
  split; [|by eapply (Forall_lookup_1 _ _ _ _ Hf)].
  rewrite length_concat4 by (by apply Forall_take).
  rewrite length_take_le; [done|]. apply lookup_lt_Some in Hk. lia.
Qed.

Lemma routed_addrs lf pf proto exts addrs payload d k a :
  routed lf pf proto exts addrs payload d -> addrs !! k = Some a ->
  rd_bytes d (12 + length exts + 4 + 4 * k) 4 = Ok a.
Proof.
  intros (shl & c0 & c1 & src & -> & Hlf & Hpf & [Hf Hs] & _) Hk.
  destruct (concat_lookup _ _ _ Hf Hk) as (l & r & Hc & Hll & Hla).
  assert (exists b0 r2 r3, src = source_ext b0 r2 r3 addrs) as (b0 & r2 & r3 & ->)
    by (by destruct addrs as [|? [|??]]).
  unfold source_ext. rewrite Hc.
  pose proof (rd_bytes_off (base_bytes lf pf shl proto c0 c1 ++ exts)
    ([set_ext_type SAL_SOURCE_EXT b0; Z.of_nat (4 + 4 * length addrs); r2; r3] ++ l)
    a (r ++ payload) (4 + 4 * k) 4) as Hr.
  rewrite (length_app (base_bytes _ _ _ _ _ _) exts), length_base in Hr by done.
  rewrite <-Hr by (rewrite ?length_app; simpl; lia). clear Hr. f_equal; [|lia].
  by rewrite <-!app_assoc.
Qed.

(** ** The check for loops *)
Lemma addr_listed_ok d off l ip :
  (forall k a, l !! k = Some a -> rd_bytes d (off + 4 * k) 4 = Ok a) ->
  addr_listed d off (length l) ip = Ok (bool_decide (ip ∈ l)).
Proof.
  revert off. induction l as [|a l IH]; intros off Hd;
    cbn [addr_listed length].
  { done. }
  pose proof (Hd 0%nat a eq_refl) as H0. rewrite Nat.mul_0_r, Nat.add_0_r in H0.
  rewrite (obind_Ok _ _ _ H0). destruct (decide (a = ip)) as [->|Hne].
  - rewrite bool_decide_eq_true_2 by done. by rewrite bool_decide_eq_true_2 by (apply elem_of_cons; by left).
  - rewrite bool_decide_eq_false_2 by done. rewrite IH.
    + f_equal. apply bool_decide_ext. rewrite elem_of_cons. naive_solver.
    + intros k b Hb. rewrite <-(Hd (S k) b Hb). f_equal. lia.
Qed.

Lemma routed_len_byte lf pf proto exts addrs payload d :
  routed lf pf proto exts addrs payload d -> addrs <> [] ->
  rd8 d (12 + length exts + 1) = Ok (Z.of_nat (4 + 4 * length addrs)).
Proof.
  intros (shl & c0 & c1 & src & -> & Hlf & Hpf & [Hf Hs] & _) Ha.
  assert (exists b0 r2 r3, src = source_ext b0 r2 r3 addrs) as (b0 & r2 & r3 & ->)
    by (by destruct addrs as [|? [|??]]).
  pose proof (rd8_off (base_bytes lf pf shl proto c0 c1 ++ exts)
    (source_ext b0 r2 r3 addrs ++ payload) 1 _ eq_refl) as Hr.
  rewrite (length_app (base_bytes _ _ _ _ _ _) exts), length_base in Hr by done.
  rewrite <-Hr. by rewrite <-app_assoc.
Qed.

Lemma routed_src_ext exts addrs ctx :
  c_src_ext ctx = None ->
  c_src_ext (routed_ctx exts addrs ctx) =
  match addrs with [] => None | _ => Some (12 + length exts)%nat end.
Proof. by destruct addrs. Qed.

Lemma source_check_routed lf pf proto exts addrs payload d ctx ip :
  routed lf pf proto exts addrs payload d -> c_src_ext ctx = None ->
  (length addrs <= 62)%nat ->
  serval_sal_source_ext_check d (routed_ctx exts addrs ctx) ip =
  Ok (match addrs with
      | [] => SOURCE_EXT_NONE
      | _ => if bool_decide (ip ∈ addrs) then SOURCE_EXT_IP_EXISTS else SOURCE_EXT_IP_NONE
      end).
Proof.
  intros Hd Hc Hl. unfold serval_sal_source_ext_check. rewrite routed_src_ext by done.
  destruct (decide (addrs = [])) as [->|Ha]; [done|].
  pose proof (routed_len_byte _ _ _ _ _ _ _ Hd Ha) as Hb.
  pose proof (addr_listed_ok d (12 + length exts + 4) addrs ip) as Hx.
  destruct addrs as [|a l]; [done|]. rewrite (obind_Ok _ _ _ Hb).
  rewrite num_addrs_of, Nat2Z.id by done.
  rewrite (obind_Ok _ _ _ (Hx ltac:(intros k b Hk; by eapply routed_addrs))). done.
Qed.

(** ** Putting the extension in place *)
Lemma wr_bytes_eq off bs d pre mid post :
  d = pre ++ mid ++ post -> length pre = off -> length mid = length bs ->
  wr_bytes off bs d = Ok (pre ++ bs ++ post).
Proof.
  intros Hd Hp Hm. unfold wr_bytes. rewrite decide_True.
  - f_equal. by eapply put_bytes_eq.
  - rewrite Hd, !length_app. lia.
Qed.

(** Moving the first [n] bytes back opens a gap of old bytes behind them. *)
Lemma move_back_ok extra hr A B :
  (extra <= length hr)%nat ->
  exists hr' G, move_back (length A) extra (Skb hr (A ++ B)) = Ok (Skb hr' (A ++ G ++ B)) /\
    length G = extra /\ (length hr' = length hr - extra)%nat.
Proof.
  intros Hr. unfold move_back. simpl data.
  assert (rd_bytes (A ++ B) 0 (length A) = Ok A) as HA.
  { unfold rd_bytes. rewrite decide_True by (rewrite length_app; lia).
    by rewrite drop_0, take_app_length. }
  rewrite (obind_Ok _ _ _ HA).
  destruct (push_ok extra (Skb hr (A ++ B)) Hr) as (hr' & junk & Hp & Hj & Hh).
  rewrite (obind_Ok _ _ _ Hp). simpl data in *. simpl in Hh.
  exists hr', (drop (length A) (junk ++ A)). split_and!; [|rewrite length_drop, length_app; lia|done].
  unfold skb_put_bytes. simpl. do 2 f_equal.
  rewrite (put_bytes_eq 0 A _ [] (take (length A) (junk ++ A))
    (drop (length A) (junk ++ A) ++ B)); [done| |done|].
  - simpl. by rewrite (app_assoc (take _ _)), take_drop, <-app_assoc.
  - rewrite length_take, length_app. lia.
Qed.

Lemma pull_ok hr A B : pskb_pull (length A) (Skb hr (A ++ B)) = Skb (hr ++ A) B.
Proof.
  unfold pskb_pull. simpl. rewrite decide_True by (rewrite length_app; lia).
  by rewrite take_app_length, drop_app_length.
Qed.

(** The addresses listed after one more relay. *)
Definition passed (saddr daddr : list Z) (addrs : list (list Z)) : list (list Z) :=
  match addrs with [] => [saddr; daddr] | _ => addrs ++ [daddr] end.
Definition room (addrs : list (list Z)) : nat :=
  match addrs with [] => 12 | _ => 4 end.

Lemma ip_addrs4 (ip : list Z) :
  (20 <= length ip)%nat -> length (ip_saddr ip) = 4%nat /\ length (ip_daddr ip) = 4%nat.
Proof. intros. unfold ip_saddr, ip_daddr. rewrite !length_take, !length_drop. lia. Qed.

Lemma last_addr_off_ok e n :
  (0 < n <= 62)%nat -> (e <= 1020)%nat ->
  last_addr_off e (Z.of_nat (4 + 4 * n)) = (e + 4 * n)%nat.
Proof.
  intros Hn He. unfold last_addr_off. rewrite num_addrs_of by lia.
  unfold u64. rewrite Z.mod_small by lia. lia.
Qed.

(** The extension of the first relay is new; the others append to it.  [P] is
    the header with the gap behind it. *)
Lemma write_new ctx P G payload ip :
  c_src_ext ctx = None -> length G = 12%nat -> (20 <= length ip)%nat ->
  exists b0 r2 r3, rd8 (P ++ G ++ payload) (length P) = Ok b0 /\
    forall t n, exists d1, wr_bytes (length P) [t; n] (P ++ G ++ payload) = Ok d1 /\
      write_addrs ctx (length P) n ip d1 =
      Ok (P ++ ([t; n; r2; r3] ++ concat [ip_saddr ip; ip_daddr ip]) ++ payload).
Proof.
  intros Hc HG Hip. destruct (ip_addrs4 ip Hip) as [Hs Hd].
  destruct G as [|g0 [|g1 [|g2 [|g3 G]]]]; try done. simpl in HG.
  exists g0, g2, g3. split; [by apply rd8_app|]. intros t n. eexists. split.
  { by apply (wr_bytes_eq _ _ _ P [g0; g1] (g2 :: g3 :: G ++ payload)). }
  unfold write_addrs. rewrite Hc.
  rewrite (obind_Ok _ _ (P ++ [t; n; g2; g3] ++ ip_saddr ip ++ drop 4 G ++ payload)).
  - rewrite (wr_bytes_eq _ _ _ (P ++ [t; n; g2; g3] ++ ip_saddr ip) (drop 4 G) payload).
    + rewrite !concat_cons, concat_nil, app_nil_r. by rewrite <-!app_assoc.
    + by rewrite <-!app_assoc.
    + rewrite !length_app. simpl. lia.
    + rewrite length_drop. lia.
  - rewrite (wr_bytes_eq _ _ _ (P ++ [t; n; g2; g3]) (take 4 G) (drop 4 G ++ payload)).
    + by rewrite <-!app_assoc.
    + rewrite <-!app_assoc. simpl. by rewrite (app_assoc (take 4 G)), take_drop.
    + rewrite length_app. simpl. lia.
    + rewrite length_take. lia.
Qed.

Lemma write_append ctx e P b0 r2 r3 addrs G payload ip :
  c_src_ext ctx = Some e -> Forall (fun a => length a = 4%nat) addrs ->
  length G = 4%nat -> (20 <= length ip)%nat -> (length addrs <= 61)%nat ->
  (length P <= 1020)%nat ->
  let d := P ++ source_ext b0 r2 r3 addrs ++ G ++ payload in
  let n := Z.of_nat (4 + 4 * (length addrs + 1)) in
  rd8 d (length P) = Ok (set_ext_type SAL_SOURCE_EXT b0) /\
  forall t, exists d1, wr_bytes (length P) [t; n] d = Ok d1 /\
    write_addrs ctx (length P) n ip d1 =
    Ok (P ++ ([t; n; r2; r3] ++ concat (addrs ++ [ip_daddr ip])) ++ payload).
Proof.
  intros Hc Hf HG Hip Ha HP d n. destruct (ip_addrs4 ip Hip) as [_ Hd].
  split; [by apply rd8_app|]. intros t. eexists. split.
  { by apply (wr_bytes_eq _ _ _ P
      [set_ext_type SAL_SOURCE_EXT b0; Z.of_nat (4 + 4 * length addrs)] (r2 :: r3 :: concat addrs ++ G ++ payload)). }
  unfold write_addrs. rewrite Hc. unfold n. rewrite last_addr_off_ok by lia.
  rewrite (wr_bytes_eq _ _ _ (P ++ [t; n; r2; r3] ++ concat addrs) G payload).
  - rewrite concat_app, concat_cons, concat_nil, app_nil_r. by rewrite <-!app_assoc.
  - by rewrite <-!app_assoc.
  - rewrite !length_app, length_concat4 by done. simpl. lia.
  - by rewrite HG.
Qed.

Lemma base_set_check lf pf shl proto c0 c1 x y rest :
  length lf = 4%nat -> length pf = 4%nat ->
  wr_bytes 10 [x; y] (base_bytes lf pf shl proto c0 c1 ++ rest) =
  Ok (base_bytes lf pf shl proto x y ++ rest).
Proof.
  intros Hl Hp. rewrite (wr_bytes_eq _ _ _ (lf ++ pf ++ [shl; proto]) [c0; c1] rest);
    unfold base_bytes; rewrite ?length_app; simpl; rewrite <-?app_assoc; simpl;
    rewrite <-?app_assoc; done || lia.
Qed.
Lemma base_set_shl lf pf shl proto c0 c1 x rest :
  length lf = 4%nat -> length pf = 4%nat ->
  wr_bytes 8 [x] (base_bytes lf pf shl proto c0 c1 ++ rest) =
  Ok (base_bytes lf pf x proto c0 c1 ++ rest).
Proof.
  intros Hl Hp. rewrite (wr_bytes_eq _ _ _ (lf ++ pf) [shl] ([proto; c0; c1] ++ rest));
    unfold base_bytes; rewrite ?length_app; simpl; rewrite <-?app_assoc; simpl;
    rewrite <-?app_assoc; done || lia.
Qed.

Lemma routed_ctx_length exts addrs ctx src :
  source_part addrs src ->
  c_length (routed_ctx exts addrs ctx) = Z.of_nat (12 + length exts + length src).
Proof.
  intros Hs. rewrite (length_source_part _ _ Hs). destruct addrs; simpl; lia.
Qed.

Lemma passed_part saddr daddr addrs src b0 r2 r3 :
  source_part addrs src -> length saddr = 4%nat -> length daddr = 4%nat ->
  source_part (passed saddr daddr addrs)
    (source_ext b0 r2 r3 (passed saddr daddr addrs)).
Proof.
  intros [Hf Hs] H1 H2. destruct addrs as [|a [|b l]]; simpl in *; [|done|].
  - split; [by repeat constructor|]. by eexists _, _, _.
  - split; [|by eexists _, _, _]. rewrite !Forall_cons in *.
    rewrite Forall_app, Forall_singleton. naive_solver.
Qed.

Lemma passed_length saddr daddr addrs src src' :
  source_part addrs src -> source_part (passed saddr daddr addrs) src' ->
  length src' = (length src + room addrs)%nat.
Proof.
  intros Hs Hp. rewrite (length_source_part _ _ Hs), (length_source_part _ _ Hp).
  destruct addrs as [|a l]; simpl; [done|]. rewrite length_app. simpl. lia.
Qed.

Lemma source_ext_write lf pf shl proto c0 c1 exts addrs src payload ctx G ip :
  length lf = 4%nat -> length pf = 4%nat -> source_part addrs src ->
  c_src_ext ctx = None -> length G = room addrs -> (20 <= length ip)%nat ->
  (length addrs <= 61)%nat -> (12 + length exts + length src <= 1020)%nat ->
  let ext_len := Z.of_nat (4 + 4 * length (passed (ip_saddr ip) (ip_daddr ip) addrs)) in
  let d := base_bytes lf pf shl proto c0 c1 ++ exts ++ src ++ G ++ payload in
  exists b0 r2 r3 d1, rd8 d (12 + length exts) = Ok b0 /\
    wr_bytes (12 + length exts) [set_ext_type SAL_SOURCE_EXT b0; ext_len] d = Ok d1 /\
    write_addrs (routed_ctx exts addrs ctx) (12 + length exts) ext_len ip d1 =
    Ok (base_bytes lf pf shl proto c0 c1 ++ exts ++
        source_ext b0 r2 r3 (passed (ip_saddr ip) (ip_daddr ip) addrs) ++ payload).
Proof.
  intros Hl Hp [Hf Hs] Hc HG Hip Ha Hfit ext_len d.
  set (P := base_bytes lf pf shl proto c0 c1 ++ exts).
  assert (length P = 12 + length exts)%nat as HP
    by (unfold P; by rewrite length_app, length_base by done).
  rewrite <-HP. destruct addrs as [|a [|b l]]; [|done|]; simpl room in HG.
  - subst src. destruct (write_new (routed_ctx exts [] ctx) P G payload ip Hc HG Hip)
      as (b0 & r2 & r3 & H1 & H2).
    destruct (H2 (set_ext_type SAL_SOURCE_EXT b0) ext_len) as (d1 & H3 & H4).
    exists b0, r2, r3, d1. unfold d. rewrite (app_assoc (base_bytes _ _ _ _ _ _)).
    split_and!; [done|done|]. fold P. rewrite H4. unfold P. by rewrite <-!app_assoc.
  - destruct Hs as (b0 & r2 & r3 & ->). rewrite length_source_ext in Hfit by done.
    destruct (write_append (routed_ctx exts (a :: b :: l) ctx) (12 + length exts) P b0 r2 r3
      (a :: b :: l) G payload ip) as [H1 H2]; [done..|lia|].
    destruct (H2 (set_ext_type SAL_SOURCE_EXT (set_ext_type SAL_SOURCE_EXT b0)))
      as (d1 & H3 & H4).
    exists (set_ext_type SAL_SOURCE_EXT b0), r2, r3, d1. unfold d, ext_len.
    rewrite (app_assoc (base_bytes _ _ _ _ _ _)). fold P.
    change (passed _ _ (a :: b :: l)) with ((a :: b :: l) ++ [ip_daddr ip]).
    rewrite length_app. simpl (length [ip_daddr ip]).
    split_and!; [done|done|]. rewrite H4. unfold P, source_ext.
    rewrite length_app. simpl (length [ip_daddr ip]). by rewrite <-!app_assoc.
Qed.

Lemma place_off_ok lf pf proto exts addrs payload d ctx src :
  routed lf pf proto exts addrs payload d -> source_part addrs src ->
  c_src_ext ctx = None -> (length addrs <= 61)%nat ->
  (12 + length exts + length src <= 1020)%nat ->
  (match c_src_ext (routed_ctx exts addrs ctx) with
   | Some e => len ← rd8 d (e + 1); Ok (last_addr_off e len + 4)%nat
   | None => Ok (Z.to_nat (c_length (routed_ctx exts addrs ctx)))
   end) = Ok (12 + length exts + length src)%nat.
Proof.
  intros Hd Hs Hc Ha Hfit. rewrite routed_src_ext by done.
  rewrite (routed_ctx_length _ _ _ _ Hs), Nat2Z.id.
  pose proof (length_source_part _ _ Hs) as Hls.
  destruct addrs as [|a l]; [done|].
  rewrite (obind_Ok _ _ _ (routed_len_byte _ _ _ _ _ _ _ Hd ltac:(done))).
  rewrite last_addr_off_ok by (simpl in *; lia). f_equal. simpl in *. lia.
Qed.

Lemma shl_fits n :
  Z.of_nat n <= 1020 -> (4 | Z.of_nat n) ->
  4 * u8 (Z.shiftr (Z.of_nat n) 2) = Z.of_nat n /\ u8 (Z.shiftr (Z.of_nat n) 2) < 256.
Proof.
  intros Hn [q Hq]. rewrite Z.shiftr_div_pow2, Hq by lia. change (2 ^ 2) with 4.
  rewrite Z.div_mul by lia. unfold u8. rewrite Z.mod_small by lia. lia.
Qed.

(** Where there is room, the address of this relay is added to the packet and
    nothing else changes. *)
Lemma place_ok lf pf proto exts addrs payload d ctx hr ip :
  routed lf pf proto exts addrs payload d -> c_src_ext ctx = None ->
  (20 <= length ip)%nat -> (length addrs <= 61)%nat ->
  c_length (routed_ctx exts addrs ctx) + Z.of_nat (room addrs) <= 1020 ->
  (room addrs <= length hr)%nat ->
  exists hr' d', place_source_ext (length ip) (routed_ctx exts addrs ctx) d (room addrs)
      (Z.of_nat (4 + 4 * length (passed (ip_saddr ip) (ip_daddr ip) addrs)))
      (Skb hr (ip ++ d)) = Ok (Skb (hr' ++ ip) d') /\
    routed lf pf proto exts (passed (ip_saddr ip) (ip_daddr ip) addrs) payload d' /\
    (length hr' = length hr - room addrs)%nat.
Proof.
  intros Hd Hc Hip Ha Hfit Hr. pose proof Hd as Hd0.
  destruct Hd as (shl & c0 & c1 & src & Hd & Hlf & Hpf & Hs & Hshl & Hlt).
  destruct (ip_addrs4 ip Hip) as [Hsa Hda].
  rewrite (routed_ctx_length _ _ _ _ Hs) in Hfit.
  unfold place_source_ext. rewrite (obind_Ok _ _ _ (place_off_ok _ _ _ _ _ _ _ _ _ Hd0 Hs Hc Ha
    ltac:(lia))).
  set (P := base_bytes lf pf shl proto c0 c1 ++ exts ++ src).
  assert (length P = 12 + length exts + length src)%nat as HP
    by (unfold P; rewrite !length_app, length_base by done; lia).
  assert (d = P ++ payload) as HdP by (rewrite Hd; unfold P; by rewrite <-!app_assoc).
  destruct (move_back_ok (room addrs) hr (ip ++ P) payload Hr) as (hr' & G & Hm & HG & Hh).
  rewrite length_app, HP, <-app_assoc, <-HdP in Hm.
  rewrite (obind_Ok _ _ _ Hm). rewrite <-app_assoc.
  simpl data. rewrite take_app_length, pull_ok. simpl data. simpl headroom.
  assert (match c_src_ext (routed_ctx exts addrs ctx) with
          | Some e => e | None => Z.to_nat (c_length (routed_ctx exts addrs ctx)) end
          = 12 + length exts)%nat as ->.
  { rewrite routed_src_ext by done. destruct addrs; [|done]. simpl. lia. }
  assert (u8 (Z.of_nat (4 + 4 * length (passed (ip_saddr ip) (ip_daddr ip) addrs))) =
          Z.of_nat (4 + 4 * length (passed (ip_saddr ip) (ip_daddr ip) addrs))) as ->.
  { unfold u8. rewrite Z.mod_small; [done|].
    destruct addrs; simpl in *; rewrite ?length_app; simpl; lia. }
  destruct (source_ext_write lf pf shl proto c0 c1 exts addrs src payload ctx G ip)
    as (b0 & r2 & r3 & d1 & H1 & H2 & H3); [done..|lia|].
  replace (P ++ G ++ payload) with
    (base_bytes lf pf shl proto c0 c1 ++ exts ++ src ++ G ++ payload)
    by (unfold P; by rewrite <-!app_assoc).
  rewrite (obind_Ok _ _ _ H1), (obind_Ok _ _ _ H2), (obind_Ok _ _ _ H3).
  rewrite (obind_Ok _ _ _ (base_set_check _ _ _ _ _ _ _ _ _ Hlf Hpf)).
  rewrite (obind_Ok _ _ _ (base_set_shl _ _ _ _ _ _ _ _ Hlf Hpf)).
  eexists _, _. split; [done|]. split; [|done].
  pose proof (passed_part _ _ _ _ b0 r2 r3 Hs Hsa Hda) as Hpart.
  pose proof (passed_length _ _ _ _ _ Hs Hpart) as Hlp.
  rewrite (routed_ctx_length _ _ _ _ Hs), <-Nat2Z.inj_add.
  destruct (shl_fits (12 + length exts + length src + room addrs)) as [Hq1 Hq2]; [lia| |].
  { rewrite Nat2Z.inj_add, <-Hshl. apply Z.divide_add_r; [by exists shl; lia|].
    destruct addrs; [by exists 3|by exists 1]. }
  eexists _, _, _, _. split; [done|]. split_and!; [done..| |done].
  rewrite Hq1, Hlp. lia.
Qed.
