(* ===== verification/TransportCsum.v ===== *)
(** * Checksums of transport headers

    The sender's checksum over the pseudo header and the packet verifies at the
    receiver, unless [csum_tcpudp_nofold] loses a carry: it adds the upper half
    of its 64-bit sum once and drops what overflows 32 bits. *)
From S2P Require Import Prelude Bst ServiceEntry ServiceTable SalHdr Checksum.
From S2P Require Import SalSock Rto DelayQueue Sal SalCtrl SalState Udp.
From S2P Require Import SalHdrProps SalFwd.
Local Open Scope Z_scope.

(** The sum of the pseudo header, and the condition that no carry is lost. *)
Definition pseudo (saddr daddr len proto : Z) : Z := saddr + daddr + (proto + len) * 256.
Definition carry_fits (s : Z) : Prop := s mod 2 ^ 32 + s / 2 ^ 32 < 2 ^ 32.

Lemma shiftl_8 x : Z.shiftl x 8 = x * 256.
Proof. by rewrite Z.shiftl_mul_pow2. Qed.

Lemma nofold_ok saddr daddr len proto sum t :
  0 <= saddr < 2 ^ 32 -> 0 <= daddr < 2 ^ 32 -> 0 <= len < 2 ^ 16 -> 0 <= proto < 256 ->
  0 <= sum < 2 ^ 32 -> repr sum t -> carry_fits (sum + pseudo saddr daddr len proto) ->
  0 <= csum_tcpudp_nofold saddr daddr len proto sum < 2 ^ 32 /\
  repr (csum_tcpudp_nofold saddr daddr len proto sum) (t + pseudo saddr daddr len proto).
Proof.
  intros Hs Hd Hl Hp Hsum Hr Hc. set (s := sum + pseudo saddr daddr len proto) in *.
  assert (0 <= s < 2 ^ 35) as Hb by (unfold s, pseudo; lia).
  assert (csum_tcpudp_nofold saddr daddr len proto sum = s mod 2 ^ 32 + s / 2 ^ 32) as ->.
  { unfold csum_tcpudp_nofold. rewrite shiftl_8.
    replace (sum + saddr + daddr + (proto + len) * 256) with s by (unfold s, pseudo; lia).
    unfold u64. rewrite Z.mod_small by lia. rewrite Z.shiftr_div_pow2 by lia.
    unfold carry_fits in Hc. unfold u32.
    pose proof (Z.div_mod s (2 ^ 32) ltac:(lia)) as Hdm.
    pose proof (Z.mod_pos_bound s (2 ^ 32) ltac:(lia)).
    pose proof (Z.div_pos s (2 ^ 32) ltac:(lia) ltac:(lia)).
    symmetry. apply (Z.mod_unique _ _ (s / 2 ^ 32)); lia. }
  pose proof (Z.div_mod s (2 ^ 32) ltac:(lia)) as Hdm.
  pose proof (Z.mod_pos_bound s (2 ^ 32) ltac:(lia)).
  pose proof (Z.div_pos s (2 ^ 32) ltac:(lia) ltac:(lia)).
  unfold carry_fits in Hc. split; [lia|].
  apply (repr_trans _ s).
  - split_and!; [lia|lia| |].
    + set (q := s / 2 ^ 32) in *. set (r := s mod 2 ^ 32) in *.
      rewrite Hdm. replace (2 ^ 32 * q + r) with (r + q + (65537 * q) * 65535) by lia.
      by rewrite Z.mod_add by lia.
    + lia.
  - unfold s. apply repr_add; [done|]. apply repr_refl. unfold pseudo. lia.
Qed.

(** ** A 16-bit field at an even offset *)
Definition field16 (c : Z) : list Z := [Z.land c 255; Z.shiftr c 8].

Lemma field16_sum c : 0 <= c < 65536 ->
  Z.land c 255 + 256 * Z.shiftr c 8 = c /\ 0 <= Z.land c 255 < 256 /\ 0 <= Z.shiftr c 8 < 256.
Proof.
  intros Hc. change 255 with (Z.ones 8). rewrite Z.land_ones, Z.shiftr_div_pow2 by lia.
  change (2 ^ 8) with 256. pose proof (Z.div_mod c 256 ltac:(lia)).
  pose proof (Z.mod_pos_bound c 256 ltac:(lia)).
  split_and!; lia.
Qed.

Lemma at_default (d : list Z) j : at_ d j = default 0 (d !! j).
Proof. unfold at_. rewrite nth_lookup. done. Qed.

Lemma wsum_field k c d :
  weight k = 1 -> weight (S k) = 256 -> (k + 2 <= length d)%nat -> 0 <= c < 65536 ->
  wsum (put_bytes k (field16 c) d) = wsum (put_bytes k [0; 0] d) + c.
Proof.
  intros W1 W2 Hk Hc. destruct (field16_sum c Hc) as [Hs _]. unfold field16. cbn [put_bytes].
  rewrite !wsum_insert by (rewrite ?length_insert; lia). rewrite W1, W2.
  rewrite !at_default, !list_lookup_insert_ne by lia. lia.
Qed.

Lemma field_length k a b d : length (put_bytes k [a; b] d) = length d.
Proof. cbn [put_bytes]. by rewrite !length_insert. Qed.
Lemma field_twice k a b x y d : put_bytes k [a; b] (put_bytes k [x; y] d) = put_bytes k [a; b] d.
Proof.
  cbn [put_bytes]. rewrite (list_insert_insert_ne _ k (S k)) by lia.
  by rewrite !list_insert_insert_eq.
Qed.
Lemma field_bytes k a b d :
  Forall (fun b => 0 <= b < 256) d -> 0 <= a < 256 -> 0 <= b < 256 ->
  Forall (fun b => 0 <= b < 256) (put_bytes k [a; b] d).
Proof. intros. cbn [put_bytes]. by repeat apply Forall_insert. Qed.

Lemma wsum_pos l : Forall (fun b => 0 <= b < 256) l -> 0 <= wsum l.
Proof. apply wsum_nonneg. Qed.

(** Complementing the sum makes it vanish. *)
Lemma complement_verifies s t :
  0 <= t -> 0 < s -> t = 65535 - norm16 s -> norm16 (s + t) = 65535.
Proof.
  intros Ht Hs ->. apply norm16_ones; [lia|]. split; [lia|].
  destruct (norm16_sub s) as (k & _ & He); [lia|].
  replace (s + (65535 - norm16 s)) with ((k + 1) * 65535) by lia. by rewrite Z.mod_mul by lia.
Qed.

Section Transport.
Context (k : nat) (proto saddr daddr : Z) (d : list Z).
Let len := u16 (Z.of_nat (length d)).
Context (Hproto : 0 < proto < 256) (Hs : 0 <= saddr < 2 ^ 32) (Hd : 0 <= daddr < 2 ^ 32)
  (Hk : (k + 2 <= length d)%nat) (W1 : weight k = 1) (W2 : weight (S k) = 256)
  (Hbytes : Forall (fun b => 0 <= b < 256) d).
Let z := put_bytes k [0; 0] d.
Context (Hc1 : carry_fits (csum_partial 0 z 0 + pseudo saddr daddr len proto))
  (Hc2 : carry_fits (pseudo saddr daddr len proto)).

Lemma transport_checked_ok :
  exists c, 0 <= c < 65536 /\
    transport_checked k proto saddr daddr d = Ok (put_bytes k (field16 c) d) /\
    csum_fold (csum_partial 0 (put_bytes k (field16 c) d)
      (csum_tcpudp_nofold saddr daddr len proto 0)) = 0.
Proof.
  assert (0 <= len < 2 ^ 16) as Hl by (unfold len, u16; apply Z.mod_pos_bound; lia).
  set (c := csum_tcpudp_magic saddr daddr len proto (csum_partial 0 z 0)).
  assert (Forall (fun b => 0 <= b < 256) z) as Hz by (apply field_bytes; done || lia).
  destruct (csum_partial_ok 0 z 0 0 Hz) as [B1 R1]; [lia|by apply repr_refl|].
  destruct (nofold_ok saddr daddr len proto _ _ Hs Hd Hl ltac:(lia) B1 R1 Hc1) as [B2 R2].
  assert (c = 65535 - norm16 (wsum z + pseudo saddr daddr len proto)) as Hc.
  { unfold c, csum_tcpudp_magic. by rewrite (csum_fold_ok _ _ B2 R2), Z.add_0_l. }
  pose proof (norm16_bound (wsum z + pseudo saddr daddr len proto)) as Hnb.
  exists c. split; [lia|]. split.
  - unfold transport_checked, wr_bytes. rewrite decide_True by (simpl; lia). 
    change (put_bytes k [0; 0] d) with z. cbn [mbind outcome_bind].
    assert (length z = length d) as Hlz by apply field_length. rewrite Hlz. fold len. fold c.
    rewrite decide_True by (simpl; lia). unfold z, field16. by rewrite field_twice.
  - destruct (field16_sum c) as (_ & Hf1 & Hf2); [lia|].
    destruct (nofold_ok saddr daddr len proto 0 0 Hs Hd Hl ltac:(lia)) as [B3 R3];
      [lia|by apply repr_refl|done|].
    destruct (csum_partial_ok 0 (put_bytes k (field16 c) d) _ _
      ltac:(by apply field_bytes) B3 R3) as [B4 R4].
    rewrite (csum_fold_ok _ _ B4 R4), wsum_field by (done || lia). fold z.
    pose proof (wsum_pos z Hz).
    replace (0 + pseudo saddr daddr len proto + (wsum z + c)) with
      (wsum z + pseudo saddr daddr len proto + c) by lia.
    rewrite (complement_verifies _ c); [lia|lia| |done]. unfold pseudo. lia.
Qed.
End Transport.

(** C37 (roundtrip): the UDP checksum a sender computes is accepted by the
    receiver that sees the same addresses, for every packet with a UDP header,
    when neither side's pseudo-header sum loses a carry. *)
Theorem udp_checksum_accepted u i saddr daddr d :
  ip_addrs u i = (saddr, daddr) -> 0 <= saddr < 2 ^ 32 -> 0 <= daddr < 2 ^ 32 ->
  (UDP_HLEN <= length d)%nat -> Forall (fun b => 0 <= b < 256) d ->
  let ps := pseudo saddr daddr (u16 (Z.of_nat (length d))) IPPROTO_UDP in
  carry_fits (csum_partial 0 (udp_set_check 0 d) 0 + ps) -> carry_fits ps ->
  let d' := udp_checked saddr daddr d in
  let '(unnecessary, csum) := serval_udp_csum_init u i d' in
  length d' = length d /\ take 6 d' = take 6 d /\ drop 8 d' = drop 8 d /\
  (unnecessary = true \/ csum_fold (csum_partial 0 d' csum) = 0).
Proof.
  intros Hip Hs Hd Hl Hb ps Hc1 Hc2 d'. unfold UDP_HLEN in Hl.
  destruct (transport_checked_ok 6 IPPROTO_UDP saddr daddr d) as (c & Hc & Ht & Hv);
    [done|done|done|lia|done|done|done|done|done|].
  assert (d' = put_bytes 6 (field16 c) d) as ->.
  { unfold transport_checked, wr_bytes in Ht. rewrite decide_True in Ht by (simpl; lia).
    cbn [mbind outcome_bind] in Ht.
    rewrite decide_True in Ht by (rewrite field_length; simpl; lia).
    exact (f_equal (fun o => match o with Ok x => x | _ => [] end) Ht). }
  unfold serval_udp_csum_init. rewrite Hip. unfold field16 in *. rewrite !field_length in *.
  split; [done|]. cbn [put_bytes]. split_and!.
  - by rewrite !take_insert_ge by lia.
  - by rewrite !drop_insert_lt by lia.
  - destruct (_ && _); [by left|right; exact Hv].
Qed.

Module Demo.
Definition u0 : udp_sock :=
  UdpSock [] [] 0 0 65536 0 false (fun _ => (16777226, 33554442)) (fun _ => 256) [].
Definition d0 : list Z := [0; 0; 0; 0; 0; 11; 0; 0; 1; 2; 3].

Lemma udp_checksum_accepted_witness :
  let '(unnecessary, csum) := serval_udp_csum_init u0 1 (udp_checked 16777226 33554442 d0) in
  length (udp_checked 16777226 33554442 d0) = length d0 /\
  take 6 (udp_checked 16777226 33554442 d0) = take 6 d0 /\
  drop 8 (udp_checked 16777226 33554442 d0) = drop 8 d0 /\
  (unnecessary = true \/
   csum_fold (csum_partial 0 (udp_checked 16777226 33554442 d0) csum) = 0).
Proof.
  apply (udp_checksum_accepted u0 1 16777226 33554442 d0).
  - reflexivity.
  - lia.
  - lia.
  - simpl. unfold UDP_HLEN. lia.
  - unfold d0. rewrite !Forall_cons. split_and!; (lia || by apply Forall_nil).
  - vm_compute. reflexivity.
  - vm_compute. reflexivity.
Defined.

(** Between 255.255.255.255 and 0.231.255.255 the carry is lost and the
    receiver refuses what the sender computed. *)
Example carry_is_lost :
  let d := [0; 0; 0; 0; 0; 8; 0; 0] in
  let saddr := 2 ^ 32 - 1 in let daddr := 2 ^ 32 - 6400 in
  csum_fold (csum_partial 0 (udp_checked saddr daddr d)
    (csum_tcpudp_nofold saddr daddr 8 IPPROTO_UDP 0)) <> 0.
Proof. vm_compute. discriminate. Qed.
End Demo.
