(* ===== verification/SalRelay.v ===== *)
(** * Relays: forwarding along a route

    What one relay does to a packet it forwards, and what a packet carries
    after any number of relays. *)
From S2P Require Import Prelude Bst ServiceEntry ServiceTable SalHdr Checksum.
From S2P Require Import SalSock Rto DelayQueue Sal SalCtrl SalState Udp.
From S2P Require Import SalInv SalHdrProps SalFwd SalFwdOk TransportCsum.
Local Open Scope Z_scope.

(** ** The header checksum *)
Lemma send_check_base lf pf shl proto c0 c1 rest :
  length lf = 4%nat -> length pf = 4%nat ->
  exists x y, serval_sal_send_check 0 (base_bytes lf pf shl proto c0 c1 ++ rest) =
    base_bytes lf pf shl proto x y ++ rest.
Proof.
  intros Hl Hp. unfold base_bytes.
  destruct lf as [|? [|? [|? [|? []]]]]; try done.
  destruct pf as [|? [|? [|? [|? []]]]]; try done.
  unfold serval_sal_send_check. set (c := serval_sal_csum _ _ _). clearbody c.
  by eexists _, _.
Qed.

Lemma send_check_routed lf pf proto exts addrs payload d :
  routed lf pf proto exts addrs payload d -> bytes_ok d ->
  routed lf pf proto exts addrs payload (serval_sal_send_check 0 d) /\
  forall addr, serval_sal_csum addr (serval_sal_send_check 0 d)
    (length d - length payload) = 0.
Proof.
  intros (shl & c0 & c1 & src & -> & Hlf & Hpf & Hs & Hshl & Hlt) Hb. split.
  - destruct (send_check_base lf pf shl proto c0 c1 (exts ++ src ++ payload) Hlf Hpf)
      as (x & y & ->). by exists shl, x, y, src.
  - intros addr. set (d := base_bytes _ _ _ _ _ _ ++ _) in *.
    assert (at_ d 8 = shl) as H8.
    { rewrite at_default. unfold d. by rewrite base_lookup8. }
    assert (Z.to_nat (Z.shiftl (at_ d 8) 2) = length d - length payload)%nat as Hn.
    { rewrite H8, Z.shiftl_mul_pow2 by lia. unfold d.
      rewrite !length_app, length_base by done. lia. }
    destruct (send_check_sum 0 d) as (Hf & _ & Hp & Hm).
    { rewrite Hn. unfold d. rewrite !length_app, length_base by done. lia. }
    { done. }
    rewrite Hn in *. unfold serval_sal_csum. rewrite ip_compute_csum_ok by done.
    rewrite (proj2 (norm16_ones (wsum _) (Z.lt_le_incl _ _ Hp))) by done. lia.
Qed.

(** ** The IP header *)
Lemma put_bytes_lookup_lt off bs d k :
  (k < off)%nat -> put_bytes off bs d !! k = d !! k.
Proof.
  revert off d. induction bs as [|b bs IH]; intros off d Hk; [done|]. cbn [put_bytes].
  rewrite IH by lia. by rewrite list_lookup_insert_ne by lia.
Qed.
Lemma put_bytes_lookup_ge off bs d k :
  (off + length bs <= k)%nat -> put_bytes off bs d !! k = d !! k.
Proof.
  revert off d. induction bs as [|b bs IH]; intros off d Hk; [done|]. cbn [put_bytes].
  simpl in Hk. rewrite IH by lia. by rewrite list_lookup_insert_ne by lia.
Qed.
Lemma length_put_bytes off bs d : length (put_bytes off bs d) = length d.
Proof.
  revert off d. induction bs as [|b bs IH]; intros; [done|]. cbn [put_bytes].
  by rewrite IH, length_insert.
Qed.
Lemma put_bytes_ok off bs d : bytes_ok bs -> bytes_ok d -> bytes_ok (put_bytes off bs d).
Proof.
  revert off d. induction bs as [|b bs IH]; intros off d Hb Hd; [done|]. cbn [put_bytes].
  apply Forall_cons in Hb as [? ?]. apply IH; [done|]. by apply Forall_insert.
Qed.

Lemma forward_ip_addrs n ip :
  ip_saddr (forward_ip n ip) = ip_saddr ip /\ ip_daddr (forward_ip n ip) = ip_daddr ip.
Proof.
  assert (drop 12 (forward_ip n ip) = drop 12 ip) as H12.
  { apply list_eq. intros k. rewrite !lookup_drop. unfold forward_ip, ip_send_check, ip_set_check.
    rewrite !put_bytes_lookup_ge by (simpl; lia). by rewrite list_lookup_insert_ne by lia. }
  unfold ip_saddr, ip_daddr. split; [by rewrite H12|].
  change 16%nat with (12 + 4)%nat. by rewrite <-!drop_drop, H12.
Qed.

Lemma put_daddr (ip dst4 : list Z) :
  (20 <= length ip)%nat -> length dst4 = 4%nat ->
  ip_saddr (put_bytes 16 dst4 ip) = ip_saddr ip /\ ip_daddr (put_bytes 16 dst4 ip) = dst4.
Proof.
  intros Hl Hd. split.
  - unfold ip_saddr. apply list_eq. intros k. destruct (decide (k < 4)%nat).
    + rewrite !lookup_take_lt, !lookup_drop by done. by apply put_bytes_lookup_lt; lia.
    + by rewrite !lookup_take_ge by lia.
  - unfold ip_daddr.
    rewrite (put_bytes_eq 16 dst4 ip (take 16 ip) (take 4 (drop 16 ip)) (drop 20 ip)).
    + rewrite drop_app_length' by (rewrite length_take; lia).
      by rewrite take_app_length' by done.
    + rewrite <-(take_drop 16 ip) at 1. f_equal. rewrite <-(take_drop 4 (drop 16 ip)) at 1.
      by rewrite drop_drop.
    + rewrite length_take. lia.
    + rewrite length_take, length_drop. lia.
Qed.

(** ** Everything written is a byte *)
Lemma wr_bytes_inv off bs d d' :
  wr_bytes off bs d = Ok d' -> d' = put_bytes off bs d /\ (off + length bs <= length d)%nat.
Proof. unfold wr_bytes. case_decide; [|done]. by intros [= <-]. Qed.
Lemma wr_bytes_bytes off bs d d' :
  wr_bytes off bs d = Ok d' -> bytes_ok bs -> bytes_ok d ->
  bytes_ok d' /\ length d' = length d.
Proof.
  intros [-> _]%wr_bytes_inv ??. split; [by apply put_bytes_ok|apply length_put_bytes].
Qed.

Lemma source_type_byte b0 : 0 <= set_ext_type SAL_SOURCE_EXT b0 < 256.
Proof.
  unfold set_ext_type. change 15 with (Z.ones 4). rewrite Z.land_ones by lia.
  pose proof (Z.mod_pos_bound b0 (2 ^ 4) ltac:(lia)). set (r := b0 mod 2 ^ 4) in *.
  clearbody r. change (2 ^ 4) with 16 in *.
  assert (r = 0 \/ r = 1 \/ r = 2 \/ r = 3 \/ r = 4 \/ r = 5 \/ r = 6 \/ r = 7 \/ r = 8 \/
          r = 9 \/ r = 10 \/ r = 11 \/ r = 12 \/ r = 13 \/ r = 14 \/ r = 15) as Hr by lia.
  by repeat (destruct Hr as [->|Hr]; [done|]); subst.
Qed.
Lemma u8_byte z : 0 <= u8 z < 256.
Proof. apply Z.mod_pos_bound. lia. Qed.

Lemma bytes_take n d : bytes_ok d -> bytes_ok (take n d).
Proof. apply Forall_take. Qed.
Lemma bytes_drop n d : bytes_ok d -> bytes_ok (drop n d).
Proof. apply Forall_drop. Qed.

Lemma move_back_bytes n extra buf buf' :
  move_back n extra buf = Ok buf' -> bytes_ok (headroom buf) -> bytes_ok (data buf) ->
  bytes_ok (headroom buf') /\ bytes_ok (data buf').
Proof.
  unfold move_back. intros (bs & Hb & H)%obind_inv Hh Hd.
  apply obind_inv in H as (buf1 & Hp & [= <-]). apply rd_bytes_lookup in Hb as [_ ->].
  unfold skb_push in Hp. case_decide; [|done]. injection Hp as <-. simpl.
  split; [by apply bytes_take|]. apply put_bytes_ok; [by apply bytes_take, bytes_drop|].
  apply Forall_app. split; [by apply bytes_drop|done].
Qed.

Lemma write_addrs_bytes ctx e n ip d d' :
  write_addrs ctx e n ip d = Ok d' -> bytes_ok ip -> bytes_ok d -> bytes_ok d'.
Proof.
  intros H Hi Hd. unfold write_addrs in H.
  assert (bytes_ok (ip_saddr ip)) by (by apply bytes_take, bytes_drop).
  assert (bytes_ok (ip_daddr ip)) by (by apply bytes_take, bytes_drop).
  destruct (c_src_ext ctx).
  - by eapply wr_bytes_bytes in H as [? _].
  - apply obind_inv in H as (d1 & Hw & H). eapply wr_bytes_bytes in Hw as [? _]; [|done..].
    by eapply wr_bytes_bytes in H as [? _].
Qed.

Lemma place_bytes size ctx d0 extra ext_len buf buf' :
  place_source_ext size ctx d0 extra ext_len buf = Ok buf' ->
  bytes_ok (headroom buf) -> bytes_ok (data buf) -> bytes_ok (data buf').
Proof.
  unfold place_source_ext. intros (off & _ & H)%obind_inv Hh Hd.
  apply obind_inv in H as (buf1 & Hm & H).
  destruct (move_back_bytes _ _ _ _ Hm Hh Hd) as [Hh1 Hd1].
  assert (bytes_ok (data (pskb_pull size buf1))) as Hd2.
  { unfold pskb_pull. case_decide; [by apply bytes_drop|done]. }
  apply obind_inv in H as (b0 & _ & H). apply obind_inv in H as (d1 & H1 & H).
  eapply wr_bytes_bytes in H1 as [Hb1 _]; [| |exact Hd2].
  2:{ repeat constructor; apply source_type_byte || apply u8_byte. }
  apply obind_inv in H as (d2 & H2 & H).
  eapply write_addrs_bytes in H2; [|by apply bytes_take|done].
  apply obind_inv in H as (d3 & H3 & H).
  eapply wr_bytes_bytes in H3 as [Hb3 _]; [|by repeat constructor|done].
  apply obind_inv in H as (d4 & H4 & H).
  eapply wr_bytes_bytes in H4 as [Hb4 _]; [|repeat constructor; apply u8_byte|done].
  by injection H as <-.
Qed.

Lemma update_csum_bytes protocol ip d d' :
  serval_sal_update_transport_csum protocol ip d = Ok d' -> bytes_ok d ->
  bytes_ok d' /\ length d' = length d.
Proof.
  assert (forall k proto s t, transport_checked k proto s t d = Ok d' -> bytes_ok d ->
    bytes_ok d' /\ length d' = length d) as Ht.
  { intros k proto s t (d1 & H1 & H)%obind_inv Hd.
    eapply wr_bytes_bytes in H1 as [Hb1 Hl1]; [|by repeat constructor|done].
    rewrite <-Hl1. eapply wr_bytes_bytes in H as [Hb2 Hl2]; [done| |done].
    set (c := csum_tcpudp_magic _ _ _ _ _).
    destruct (field16_sum c) as (_ & ? & ?).
    { unfold c, csum_tcpudp_magic, csum_fold, u16. apply Z.mod_pos_bound. lia. }
    unfold bytes_ok. rewrite !Forall_cons, Forall_nil. split_and!; done || lia. }
  unfold serval_sal_update_transport_csum. repeat case_match; eauto. by intros [= <-].
Qed.

(** ** One relay *)
Section Relay.
Context {TP : Type} `{SalEnv} (hard_header_len : Z -> option nat).
Implicit Types (w : salw TP) (i c : positive).

Lemma push_back hr (A B : list Z) :
  skb_push (length A) (Skb (hr ++ A) B) = Ok (Skb hr (A ++ B)).
Proof.
  unfold skb_push. simpl. rewrite decide_True by (rewrite length_app; lia).
  rewrite length_app, Nat.add_sub. by rewrite take_app_length, drop_app_length.
Qed.

Lemma ip_hdr_ok hr ip d : ip_hdr (length ip) (Skb (hr ++ ip) d) = Ok ip.
Proof.
  unfold ip_hdr. simpl. rewrite decide_True by (rewrite length_app; lia).
  by rewrite length_app, Nat.add_sub, drop_app_length.
Qed.

Lemma liftR_Ok {A} (o : outcome A) a w : o = Ok a -> liftR (TP := TP) o w = Ok (a, w).
Proof. by intros ->. Qed.

(** What the device is given, and the world after it took the packet. *)
Definition after_send w w1 c (err : Z) (f : frame) : salw TP :=
  w1 {{ sent := if err <? 0 then sent w else sent w ++ [f]; skbs := delete c (skbs w) }}.

Lemma net_result_frame w err w1 :
  net_result w = Ok (err, w1) ->
  sent w1 = sent w /\ skbs w1 = skbs w /\ (sk w1 = sk w /\ svc w1 = svc w) /\
  forall f, net_result (w {{ skbs ::= f }}) = Ok (err, w1 {{ skbs ::= f }}).
Proof.
  destruct w as [??????????????? ]. unfold net_result. cbn.
  destruct net_results; intros [= <- <-]; done.
Qed.

Lemma forward_out_run w w1 c b hr ip d err :
  skb_owned b = false -> skb_buf b = Skb hr (ip ++ d) -> net_result w = Ok (err, w1) ->
  serval_ipv4_forward_out (length ip) c (w {{ skbs ::= <[c := b]> }}) =
  Ok (err, after_send w w1 c err
        (Frame (le32 (ip_saddr ip)) (le32 (ip_daddr ip)) (skb_dev b) d
           (forward_ip (length (ip ++ d)) ip))).
Proof.
  intros Ho Hb Hnet. destruct (net_result_frame _ _ _ Hnet) as (Hsent & Hskbs & _ & Hf).
  unfold serval_ipv4_forward_out.
  rewrite (bind_Ok _ _ _ b (w {{ skbs ::= <[c := b]> }}))
    by (unfold skb_load; simpl; by rewrite lookup_insert_eq).
  rewrite Hb. simpl data. rewrite take_app_length, drop_app_length.
  destruct (forward_ip_addrs (length (ip ++ d)) ip) as [-> ->].
  rewrite (bind_Ok _ _ _ _ _ (Hf _)). unfold after_send. rewrite <-Hsent, <-Hskbs.
  clear Hf Hnet Hsent Hskbs. destruct w1 as [??????????????? ]. cbn.
  assert (delete c (<[c := b]> skbs) = delete c skbs) as Hdel by apply delete_insert_eq.
  destruct (err <? 0); unfold kfree_skb, skb_load, mbind, M_bind; cbn;
    rewrite lookup_insert_eq; cbn; rewrite Hdel, Ho; done.
Qed.

Lemma forward_skb_run w c b hr ip hdr payload dst protocol :
  skbs w !! c = Some b -> skb_owned b = false ->
  skb_buf b = Skb (hr ++ ip) (hdr ++ payload) ->
  (20 <= length ip)%nat -> (4 <= length dst)%nat ->
  exists err w1, net_result w = Ok (err, w1) /\
    forward_skb (length ip) (length hdr) protocol dst c w =
    match serval_sal_update_transport_csum protocol (put_bytes 16 (take 4 dst) ip) payload with
    | Ok payload' =>
        Ok (err, after_send w w1 c err
          (Frame (le32 (ip_saddr ip)) (le32 (take 4 dst)) (skb_dev b)
             (serval_sal_send_check 0 (hdr ++ payload'))
             (let ip' := put_bytes 16 (take 4 dst) ip in
              forward_ip (length (ip' ++ serval_sal_send_check 0 (hdr ++ payload'))) ip')))
    | Fault => Fault
    | NoFuel => NoFuel
    end.
Proof.
  intros Hc Ho Hbuf Hip Hdst. set (ip' := put_bytes 16 (take 4 dst) ip).
  assert (exists err w1, net_result w = Ok (err, w1)) as (err & w1 & Hnet).
  { unfold net_result. destruct (net_results w); by eexists _, _. }
  exists err, w1. split; [done|].
  assert (length ip' = length ip) as Hip' by apply length_put_bytes.
  unfold forward_skb.
  rewrite (bind_Ok _ _ _ b w) by (unfold skb_load; by rewrite Hc). rewrite Hbuf.
  rewrite (bind_Ok _ _ _ ip w) by (apply liftR_Ok, ip_hdr_ok).
  rewrite (bind_Ok _ _ _ (take 4 dst) w).
  2:{ apply liftR_Ok. unfold rd_bytes. rewrite decide_True by lia. by rewrite drop_0. }
  rewrite (bind_Ok _ _ _ ip' w).
  2:{ apply liftR_Ok. unfold wr_bytes. rewrite decide_True; [done|].
      rewrite length_take. lia. }
  cbv beta. simpl headroom. simpl data. cbv zeta.
  rewrite length_app, Nat.add_sub, take_app_length, pull_ok. simpl data. simpl headroom.
  destruct (serval_sal_update_transport_csum protocol ip' payload) as [payload'| |]; [|done..].
  rewrite (bind_Ok _ _ _ payload' w) by (by apply liftR_Ok).
  rewrite (bind_Ok _ _ _ (Skb (hr ++ ip') (hdr ++ payload')) w)
    by (apply liftR_Ok, push_back).
  simpl headroom. simpl data. rewrite <-Hip'.
  rewrite (bind_Ok _ _ _ (Skb hr (ip' ++ serval_sal_send_check 0 (hdr ++ payload'))) w)
    by (apply liftR_Ok, push_back).
  set (b' := b {{ skb_buf := _ }}).
  rewrite (bind_Ok _ _ _ tt (w {{ skbs ::= <[c := b']> }}))
    by (unfold skb_store; by rewrite Hc).
  rewrite (forward_out_run w w1 c b' hr ip' _ err) by (done || rsimp; done).
  destruct (put_daddr ip (take 4 dst)) as [Hs Hd]; [done|rewrite length_take; lia|].
  fold ip' in Hs, Hd. by rewrite Hs, Hd.
Qed.

(** The outcome of a packet that was sent on: the payload with its new
    checksum, and the frame. *)
Record relayed_to (lf pf : list Z) (proto : Z) (exts : list Z) (addrs : list (list Z))
    (payload ip dst : list Z) (dev : Z) (f : frame) : Prop := RelayedTo {
  rt_bytes : exists payload',
    serval_sal_update_transport_csum proto (put_bytes 16 (take 4 dst) ip) payload
      = Ok payload' /\
    routed lf pf proto exts addrs payload' (f_bytes f) /\
    length payload' = length payload /\ bytes_ok payload' /\
    serval_sal_csum 0 (f_bytes f) (length (f_bytes f) - length payload') = 0;
  rt_ok : bytes_ok (f_bytes f);
  rt_saddr : f_saddr f = le32 (ip_saddr ip);
  rt_daddr : f_daddr f = le32 (take 4 dst);
  rt_dev : f_dev f = dev;
  rt_ip : f_ip f = forward_ip (length ip + length (f_bytes f))
                     (put_bytes 16 (take 4 dst) ip);
}.

Lemma routed_split lf pf proto exts addrs payload d :
  routed lf pf proto exts addrs payload d ->
  exists hdr, d = hdr ++ payload /\
    forall payload', routed lf pf proto exts addrs payload' (hdr ++ payload').
Proof.
  intros (shl & c0 & c1 & src & -> & Hr).
  exists (base_bytes lf pf shl proto c0 c1 ++ exts ++ src). split; [by rewrite <-!app_assoc|].
  intros payload'. exists shl, c0, c1, src. by rewrite <-!app_assoc.
Qed.

Lemma send_check_bytes d : bytes_ok d -> bytes_ok (serval_sal_send_check 0 d).
Proof.
  intros Hd. unfold serval_sal_send_check. apply set_check_bytes; [|by apply set_check_bytes].
  unfold serval_sal_csum, ip_compute_csum, u16. apply Z.mod_pos_bound. lia.
Qed.

(** Sending on a packet whose extension is in place. *)
Lemma forward_routed w c b hr lf pf proto exts addrs payload d ip dst err w' :
  skbs w !! c = Some b -> skb_owned b = false -> skb_buf b = Skb (hr ++ ip) d ->
  routed lf pf proto exts addrs payload d -> bytes_ok d ->
  (20 <= length ip)%nat -> (4 <= length dst)%nat ->
  forward_skb (length ip) (length d - length payload) proto dst c w = Ok (err, w') ->
  err = 0 ->
  exists f, sent w' = sent w ++ [f] /\ skbs w' = delete c (skbs w) /\
    (sk w' = sk w /\ svc w' = svc w) /\
    relayed_to lf pf proto exts addrs payload ip dst (skb_dev b) f.
Proof.
  intros Hc Ho Hbuf Hd Hb Hip Hdst Hrun ->.
  destruct (routed_split _ _ _ _ _ _ _ Hd) as (hdr & -> & Hsplit).
  rewrite length_app, Nat.add_sub in Hrun.
  destruct (forward_skb_run w c b hr ip hdr payload dst proto Hc Ho Hbuf Hip Hdst)
    as (err & w1 & Hnet & Hfwd). rewrite Hfwd in Hrun.
  destruct (serval_sal_update_transport_csum _ _ _) as [payload'| |] eqn:Hsum; [|done..].
  injection Hrun as -> <-. eexists. split; [done|]. split; [done|].
  split; [apply (net_result_frame _ _ _ Hnet)|].
  apply Forall_app in Hb as [Hbh Hbp].
  destruct (update_csum_bytes _ _ _ _ Hsum Hbp) as [Hb' Hl'].
  assert (bytes_ok (hdr ++ payload')) as Hbb by (by apply Forall_app).
  destruct (send_check_routed _ _ _ _ _ _ _ (Hsplit payload') Hbb) as [Hr Hcs].
  split; simpl; try done;
    [|by apply send_check_bytes|by rewrite length_app, length_put_bytes].
  assert (length (serval_sal_send_check 0 (hdr ++ payload')) = length (hdr ++ payload'))
    as Hlen by (unfold serval_sal_send_check, set_check; by rewrite !length_insert).
  exists payload'. split_and!; try done. rewrite Hlen. apply Hcs.
Qed.

(** ** Adding the extension

    The packet [i], as a relay receives it: [ip] in front of the SAL header
    [d], [hr] bytes of headroom in front of [ip]. *)
Section AddExt.
Context (w : salw TP) (i : positive) (b : sal_skb) (hr ip d : list Z) (hlen : nat)
  (lf pf : list Z) (proto : Z) (exts : list Z) (addrs : list (list Z))
  (payload : list Z) (ctx : sal_context).
Context (Hi : skbs w !! i = Some b) (Hown : skb_owned b = false)
  (Hbuf : skb_buf b = Skb (hr ++ ip) d) (Hip : (20 <= length ip)%nat)
  (Hdev : hard_header_len (skb_dev b) = Some hlen)
  (Hd : routed lf pf proto exts addrs payload d) (Hctx : c_src_ext ctx = None)
  (Ha : (length addrs <= 61)%nat)
  (Hfit : c_length (routed_ctx exts addrs ctx) + Z.of_nat (room addrs) <= 1020).
Let rctx := routed_ctx exts addrs ctx.
Let addrs' := passed (ip_saddr ip) (ip_daddr ip) addrs.
Let ext_len := Z.of_nat (4 + 4 * length addrs').

(** A relay that is listed already refuses the packet and leaves it alone. *)
Lemma add_source_loop :
  ip_daddr ip ∈ addrs ->
  serval_sal_add_source_ext hard_header_len i (length ip) i rctx d w = Ok ((-1, i), w).
Proof.
  intros Hin. unfold serval_sal_add_source_ext.
  rewrite (bind_Ok _ _ _ b w) by (unfold skb_load; by rewrite Hi). rewrite Hbuf.
  rewrite (bind_Ok _ _ _ ip w) by (apply liftR_Ok, ip_hdr_ok).
  rewrite (bind_Ok _ _ _ SOURCE_EXT_IP_EXISTS w); [done|]. apply liftR_Ok.
  unfold rctx. erewrite source_check_routed by (done || lia).
  destruct addrs; [by apply elem_of_nil in Hin|]. by rewrite bool_decide_eq_true_2.
Qed.

Lemma add_source_insert :
  ip_daddr ip ∉ addrs ->
  serval_sal_add_source_ext hard_header_len i (length ip) i rctx d w =
  insert_source_ext hard_header_len i (length ip) i rctx d (room addrs) ext_len w.
Proof.
  intros Hin. unfold serval_sal_add_source_ext.
  rewrite (bind_Ok _ _ _ b w) by (unfold skb_load; by rewrite Hi). rewrite Hbuf.
  rewrite (bind_Ok _ _ _ ip w) by (apply liftR_Ok, ip_hdr_ok).
  rewrite (bind_Ok _ _ _ (match addrs with [] => SOURCE_EXT_NONE | _ => SOURCE_EXT_IP_NONE end) w).
  2:{ apply liftR_Ok. unfold rctx. erewrite source_check_routed by (done || lia).
      destruct addrs; [done|]. by rewrite bool_decide_eq_false_2. }
  unfold rctx at 1. rewrite routed_src_ext by done.
  unfold ext_len, addrs'. pose proof (routed_len_byte _ _ _ _ _ _ _ Hd) as Hlen.
  destruct addrs as [|a l]; [done|].
  rewrite (bind_Ok _ _ _ _ w (liftR_Ok _ _ _ (Hlen ltac:(done)))).
  f_equal. simpl passed. simpl length. rewrite length_app. simpl. lia.
Qed.

Lemma pushed : skb_push (length ip) (skb_buf b) = Ok (Skb hr (ip ++ d)).
Proof. rewrite Hbuf. apply push_back. Qed.

(** With enough headroom the extension goes into the packet itself. *)
Lemma placed hr0 :
  (room addrs <= length hr0)%nat -> bytes_ok hr0 -> bytes_ok ip -> bytes_ok d ->
  exists hr' d', place_source_ext (length ip) rctx d (room addrs) ext_len
      (Skb hr0 (ip ++ d)) = Ok (Skb (hr' ++ ip) d') /\
    routed lf pf proto exts addrs' payload d' /\ bytes_ok d'.
Proof.
  intros Hr Hb1 Hb2 Hb3.
  destruct (place_ok lf pf proto exts addrs payload d ctx hr0 ip)
    as (hr' & d' & Hp & Hr' & _); [done..|].
  exists hr', d'. split_and!; [done|done|].
  apply place_bytes in Hp; [done|done|by apply Forall_app].
Qed.

Lemma insert_room :
  bytes_ok hr -> bytes_ok ip -> bytes_ok d ->
  (room addrs + length ip + hlen <= length hr)%nat ->
  exists hr' d',
    insert_source_ext hard_header_len i (length ip) i rctx d (room addrs) ext_len w =
    Ok ((Z.of_nat (room addrs), i),
        w {{ skbs ::= <[i := b {{ skb_buf := Skb (hr' ++ ip) d' }}]> }}) /\
    routed lf pf proto exts addrs' payload d' /\ bytes_ok d'.
Proof.
  intros Hb1 Hb2 Hb3 Hroom. destruct (placed hr) as (hr' & d' & Hp & Hr'); [lia|done..|].
  exists hr', d'. split; [|done]. unfold insert_source_ext.
  rewrite (bind_Ok _ _ _ b w) by (unfold skb_load; by rewrite Hi).
  rewrite (bind_Ok _ _ _ _ w (liftR_Ok _ _ _ pushed)).
  rewrite (bind_Ok _ _ _ tt (w {{ skbs ::= <[i := b {{ skb_buf := Skb hr (ip ++ d) }}]> }}))
    by (unfold skb_store; by rewrite Hi).
  set (w1 := w {{ skbs ::= _ }}).
  assert (skbs w1 !! i = Some (b {{ skb_buf := Skb hr (ip ++ d) }})) as H1
    by apply lookup_insert_eq.
  rewrite (bind_Ok _ _ _ hlen w1) by (by rewrite Hdev). simpl headroom.
  rewrite (proj2 (Nat.ltb_ge _ _)) by lia. rewrite bind_ret.
  rewrite (bind_Ok _ _ _ tt w1).
  2:{ destruct (c_src_ext rctx); [|done].
      rewrite (bind_Ok _ _ _ _ w1) by (unfold skb_load; by rewrite H1). done. }
  rewrite (bind_Ok _ _ _ _ w1) by (unfold skb_load; by rewrite H1). rsimp.
  rewrite (bind_Ok _ _ _ _ w1 (liftR_Ok _ _ _ Hp)).
  unfold skb_store, mbind, M_bind. rewrite H1. unfold w1.
  destruct w as [??????????????? ], b as [??????]. cbn. by rewrite insert_insert_eq.
Qed.

(** Without it the packet is copied to a larger buffer and freed. *)
Lemma insert_expands ok w1 :
  (length hr < room addrs + length ip + hlen)%nat -> next_skb w <> i ->
  alloc_result w = Ok (ok, w1) ->
  insert_source_ext hard_header_len i (length ip) i rctx d (room addrs) ext_len w =
  if ok then
    match addrs with
    | [] =>
        match place_source_ext (length ip) rctx d (room addrs) ext_len
                (Skb (replicate (room addrs) 0 ++ hr) (ip ++ d)) with
        | Ok buf =>
            Ok ((Z.of_nat (room addrs), next_skb w),
                w1 {{ skbs := <[next_skb w := b {{ skb_buf := buf }}]> (delete i (skbs w));
                      next_skb ::= Pos.succ }})
        | Fault => Fault
        | NoFuel => NoFuel
        end
    | _ => Fault
    end
  else Ok ((- ENOMEM, i),
           w1 {{ skbs ::= <[i := b {{ skb_buf := Skb hr (ip ++ d) }}]> }}).
Proof.
  intros Hroom Hfresh Halloc. unfold insert_source_ext.
  rewrite (bind_Ok _ _ _ b w) by (unfold skb_load; by rewrite Hi).
  rewrite (bind_Ok _ _ _ _ w (liftR_Ok _ _ _ pushed)).
  rewrite (bind_Ok _ _ _ tt (w {{ skbs ::= <[i := b {{ skb_buf := Skb hr (ip ++ d) }}]> }}))
    by (unfold skb_store; by rewrite Hi).
  rewrite (bind_Ok _ _ _ hlen (w {{ skbs ::= <[i := b {{ skb_buf := Skb hr (ip ++ d) }}]> }}))
    by (by rewrite Hdev). simpl headroom.
  rewrite (proj2 (Nat.ltb_lt _ _)) by lia.
  assert (rctx = routed_ctx exts addrs ctx) as Hrctx by done. clearbody rctx.
  assert (c_src_ext rctx = match addrs with [] => None | _ => Some (12 + length exts)%nat end)
    as Hsrc by (rewrite Hrctx; by apply routed_src_ext).
  clear Hdev Hd Hfit Hrctx Hbuf. 
  destruct w as [? skbs0 n ? allocs ???????????], b as [?????dev]. cbn in *. subst.
  unfold skb_copy_expand, kfree_skb, skb_load, skb_store, alloc_result, new_skb, mbind, M_bind in *.
  cbn in *. rewrite lookup_insert_eq. cbn.
  destruct allocs as [|[] bs]; injection Halloc as <- <-; cbn; [| |done].
  all: rewrite (lookup_insert_ne _ n i), lookup_insert_eq by done; cbn.
  all: rewrite (delete_insert_ne _ i n), delete_insert_eq by done.
  all: destruct addrs; cbn in Hsrc |- *; rewrite Hsrc; cbn;
    rewrite ?lookup_insert_ne, ?lookup_delete_eq, ?lookup_insert_eq by done; cbn; try done.
  all: unfold liftR, constant; destruct (place_source_ext _ _ _ _ _ _); cbn; try done.
  all: rewrite lookup_insert_eq; cbn; by rewrite insert_insert_eq.
Qed.

Lemma insert_expand_new w1 :
  (length hr < room addrs + length ip + hlen)%nat -> next_skb w <> i ->
  alloc_result w = Ok (true, w1) -> addrs = [] ->
  insert_source_ext hard_header_len i (length ip) i rctx d (room addrs) ext_len w =
  match place_source_ext (length ip) rctx d (room addrs) ext_len
          (Skb (replicate (room addrs) 0 ++ hr) (ip ++ d)) with
  | Ok buf =>
      Ok ((Z.of_nat (room addrs), next_skb w),
          w1 {{ skbs := <[next_skb w := b {{ skb_buf := buf }}]> (delete i (skbs w));
                next_skb ::= Pos.succ }})
  | Fault => Fault
  | NoFuel => NoFuel
  end.
Proof. intros Hr Hn Hal Hnil. rewrite (insert_expands true w1) by done. by destruct addrs. Qed.

(** The pointers of [ctx] are followed after that: with a source extension in
    the packet this is a use after free. *)
Lemma insert_expand_dangling w1 :
  (length hr < room addrs + length ip + hlen)%nat -> next_skb w <> i ->
  alloc_result w = Ok (true, w1) -> addrs <> [] ->
  insert_source_ext hard_header_len i (length ip) i rctx d (room addrs) ext_len w = Fault.
Proof. intros Hr Hn Hal Hne. rewrite (insert_expands true w1) by done. by destruct addrs. Qed.

Lemma relay_length d' :
  routed lf pf proto exts addrs' payload d' ->
  Z.to_nat (u32 (c_length rctx + Z.of_nat (room addrs))) = (length d' - length payload)%nat.
Proof.
  intros (shl' & c0' & c1' & src' & -> & Hlf' & Hpf' & Hs' & _).
  destruct Hd as (shl & c0 & c1 & src & _ & _ & _ & Hs & Hshl & Hlt).
  unfold rctx in *. rewrite (routed_ctx_length _ _ _ _ Hs) in *.
  pose proof (passed_length _ _ _ _ _ Hs Hs') as Hl.
  rewrite u32_id by lia. rewrite !length_app, length_base by done. lia.
Qed.

(** A packet that the relay reports as forwarded carries its address, and its
    buffer is gone. *)
Lemma relay_forwards dst h w' :
  next_skb w <> i -> skbs w !! next_skb w = None -> (4 <= length dst)%nat ->
  bytes_ok hr -> bytes_ok ip -> bytes_ok d ->
  forward_copy hard_header_len (length ip) i i rctx d proto dst (c_length rctx) w
    = Ok ((h, 1), w') ->
  ip_daddr ip ∉ addrs /\
  exists f, sent w' = sent w ++ [f] /\ skbs w' = delete i (skbs w) /\
    (sk w' = sk w /\ svc w' = svc w) /\
    relayed_to lf pf proto exts addrs' payload ip dst (skb_dev b) f.
Proof.
  intros Hne Hfresh Hdst Hbhr Hbip Hbd Hrun. unfold forward_copy in Hrun.
  destruct (decide (ip_daddr ip ∈ addrs)) as [Hin|Hin].
  { rewrite (bind_Ok _ _ _ _ _ (add_source_loop Hin)) in Hrun. simpl in Hrun.
    rewrite bool_decide_eq_true_2 in Hrun by done. done. }
  split; [done|].
  assert (exists ok w1, alloc_result w = Ok (ok, w1) /\ sent w1 = sent w /\ sk w1 = sk w /\
    svc w1 = svc w) as (ok & w1 & Hal & Hsent & Hsk & Hsvc).
  { unfold alloc_result. destruct (skb_allocs w); by eexists _, _. }
  pose proof (add_source_insert Hin) as Hins.
  destruct (decide (room addrs + length ip + hlen <= length hr)%nat) as [Hroom|Hroom].
  - destruct (insert_room Hbhr Hbip Hbd Hroom) as (hr' & d' & Hrr & Hd' & Hb').
    rewrite Hrr in Hins. rewrite (bind_Ok _ _ _ _ _ Hins) in Hrun. cbv beta iota in Hrun.
    rewrite (proj2 (Z.ltb_ge _ _)) in Hrun by lia. cbv zeta in Hrun.
    rewrite (relay_length d' Hd') in Hrun.
    apply bind_Ok_inv in Hrun as (err & w2 & Hfwd & Hret).
    destruct (Z.eqb_spec err 0) as [He|]; [|done]. injection Hret as _ <-.
    eapply forward_routed in Hfwd as (f & H1 & H2 & H3 & H4);
      [|rsimp; by apply lookup_insert_eq|done|done|done|done|done|done|done].
    exists f. rsimp. revert H1 H2 H3. rsimp. rewrite delete_insert_eq. done.
  - destruct ok.
    2:{ rewrite (insert_expands false w1) in Hins by (done || lia).
        rewrite (bind_Ok _ _ _ _ _ Hins) in Hrun. cbv beta iota in Hrun. simpl in Hrun.
        by rewrite bool_decide_eq_true_2 in Hrun. }
    destruct (decide (addrs = [])) as [Hnil|Hcons].
    2:{ rewrite (insert_expand_dangling w1) in Hins by (done || lia).
        unfold mbind, M_bind in Hrun. by rewrite Hins in Hrun. }
    destruct (placed (replicate (room addrs) 0 ++ hr)) as (hr' & d' & Hp & Hd' & Hb');
      [rewrite length_app, length_replicate; lia| |done|done|].
    { apply Forall_app. split; [by apply Forall_replicate|done]. }
    rewrite (insert_expand_new w1), Hp in Hins by (done || lia).
    rewrite (bind_Ok _ _ _ _ _ Hins) in Hrun. cbv beta iota in Hrun.
    rewrite (proj2 (Z.ltb_ge _ _)) in Hrun by lia. cbv zeta in Hrun.
    rewrite (relay_length d' Hd') in Hrun.
    apply bind_Ok_inv in Hrun as (err & w2 & Hfwd & Hret).
    destruct (Z.eqb_spec err 0) as [He|]; [|done]. injection Hret as _ <-.
    eapply forward_routed in Hfwd as (f & H1 & H2 & H3 & H4);
      [|rsimp; by apply lookup_insert_eq|done|done|done|done|done|done|done].
    exists f. revert H1 H2 H3. rsimp.
    rewrite delete_insert_id, Hsent, Hsk, Hsvc by (rewrite lookup_delete_ne; done). done.
Qed.

(** With room for the extension, or memory for a larger buffer where the packet
    has none yet, the packet is sent when the device takes it. *)
Lemma relay_delivers dst payload' w1 :
  next_skb w <> i -> (4 <= length dst)%nat -> bytes_ok hr -> bytes_ok ip -> bytes_ok d ->
  ip_daddr ip ∉ addrs ->
  ((room addrs + length ip + hlen <= length hr)%nat \/
   addrs = [] /\ head (skb_allocs w) <> Some false) ->
  net_result w = Ok (0, w1) ->
  serval_sal_update_transport_csum proto (put_bytes 16 (take 4 dst) ip) payload
    = Ok payload' ->
  exists h w', forward_copy hard_header_len (length ip) i i rctx d proto dst
                 (c_length rctx) w = Ok ((h, 1), w').
Proof.
  intros Hne Hdst Hb1 Hb2 Hb3 Hin Hmem Hnet Hsum. unfold forward_copy.
  assert (exists c w2 hr' d' b', insert_source_ext hard_header_len i (length ip) i rctx d
      (room addrs) ext_len w = Ok ((Z.of_nat (room addrs), c), w2) /\
    skbs w2 !! c = Some b' /\ skb_owned b' = false /\ skb_buf b' = Skb (hr' ++ ip) d' /\
    routed lf pf proto exts addrs' payload d' /\ net_results w2 = net_results w)
    as (c & w2 & hr' & d' & b' & Hins & Hc & Ho & Hbuf' & Hd' & Hnr).
  { destruct (decide (room addrs + length ip + hlen <= length hr)%nat) as [Hroom|Hroom].
    - destruct (insert_room Hb1 Hb2 Hb3 Hroom) as (hr' & d' & Hrr & Hd' & _).
      eexists i, _, hr', d', _. split; [exact Hrr|]. rsimp.
      split; [apply lookup_insert_eq|]. rsimp. done.
    - destruct Hmem as [?|[Hnil Hal]]; [lia|].
      assert (exists w3, alloc_result w = Ok (true, w3) /\ net_results w3 = net_results w)
        as (w3 & Hal3 & Hn3).
      { unfold alloc_result. destruct (skb_allocs w) as [|[] ?]; [by eexists|by eexists|done]. }
      destruct (placed (replicate (room addrs) 0 ++ hr)) as (hr' & d' & Hp & Hd' & _);
        [rewrite length_app, length_replicate; lia| |done|done|].
      { apply Forall_app. split; [by apply Forall_replicate|done]. }
      eexists (next_skb w), _, hr', d', _. split.
      { rewrite (insert_expand_new w3), Hp by (done || lia). done. }
      rsimp. split; [apply lookup_insert_eq|]. rsimp. done. }
  rewrite (bind_Ok _ _ _ _ _ (eq_trans (add_source_insert Hin) Hins)). cbv beta iota.
  rewrite (proj2 (Z.ltb_ge _ _)) by lia. rewrite (relay_length d' Hd').
  destruct (routed_split _ _ _ _ _ _ _ Hd') as (hdr & -> & _).
  rewrite length_app, Nat.add_sub.
  destruct (forward_skb_run w2 c b' hr' ip hdr payload dst proto Hc Ho Hbuf' Hip Hdst)
    as (err & w4 & Hn4 & Hfwd). rewrite Hsum in Hfwd.
  assert (err = 0) as ->.
  { unfold net_result in Hnet, Hn4. rewrite Hnr in Hn4.
    destruct (net_results w); [injection Hn4; done|]. injection Hnet as -> _.
    by injection Hn4. }
  rewrite (bind_Ok _ _ _ _ _ Hfwd). eauto.
Qed.
End AddExt.
End Relay.

(** ** Routes *)

(** Payloads that differ in the transport checksum at most. *)
Definition csum_at (proto : Z) : option nat :=
  if proto =? SERVAL_PROTO_TCP then Some 16%nat
  else if proto =? SERVAL_PROTO_UDP then Some 6%nat else None.
Definition same_but_csum (proto : Z) (p p' : list Z) : Prop :=
  length p = length p' /\
  forall k, (match csum_at proto with Some c => ~ (c <= k < c + 2)%nat | None => True end) ->
    p !! k = p' !! k.

Lemma same_but_csum_trans proto p p' p'' :
  same_but_csum proto p p' -> same_but_csum proto p' p'' -> same_but_csum proto p p''.
Proof.
  intros [L1 S1] [L2 S2]. split; [congruence|]. intros k Hk. by rewrite S1, S2.
Qed.

Lemma field_lookup k a b d j :
  ~ (k <= j < k + 2)%nat -> put_bytes k [a; b] d !! j = d !! j.
Proof. intros Hj. cbn [put_bytes]. by rewrite !list_lookup_insert_ne by lia. Qed.

Lemma update_csum_same proto ip d d' :
  serval_sal_update_transport_csum proto ip d = Ok d' -> same_but_csum proto d d'.
Proof.
  assert (forall k pr s t, transport_checked k pr s t d = Ok d' ->
    length d = length d' /\ forall j, ~ (k <= j < k + 2)%nat -> d !! j = d' !! j) as Ht.
  { intros k pr s t (d1 & [-> _]%wr_bytes_inv & [-> _]%wr_bytes_inv)%obind_inv.
    split; [by rewrite !field_length|]. intros j Hj. by rewrite !field_lookup. }
  unfold serval_sal_update_transport_csum, same_but_csum, csum_at.
  repeat case_match; eauto. by intros [= <-].
Qed.

(** The checksum is written where the payload holds the field; a shorter payload
    is written beyond its end. *)
Definition holds_csum (proto : Z) (p : list Z) : Prop :=
  match csum_at proto with Some c => (c + 2 <= length p)%nat | None => True end.

Lemma transport_checked_run k pr s t d :
  (k + 2 <= length d)%nat -> exists d', transport_checked k pr s t d = Ok d'.
Proof.
  intros Hk. unfold transport_checked, wr_bytes.
  rewrite decide_True by (simpl; lia). cbn [mbind outcome_bind].
  rewrite decide_True by (rewrite length_put_bytes; simpl; lia). eauto.
Qed.
Lemma update_csum_run proto ip d :
  holds_csum proto d -> exists d', serval_sal_update_transport_csum proto ip d = Ok d'.
Proof.
  unfold holds_csum, csum_at, serval_sal_update_transport_csum.
  repeat case_match; intros; simplify_eq; eauto using transport_checked_run.
Qed.
Lemma update_csum_short proto ip d :
  ~ holds_csum proto d -> serval_sal_update_transport_csum proto ip d = Fault.
Proof.
  unfold holds_csum, csum_at, serval_sal_update_transport_csum, transport_checked, wr_bytes.
  repeat case_match; intros Hd; simplify_eq; try done; exfalso; simpl in *; by apply Hd; lia.
Qed.

Lemma le32_addr_bytes a : 0 <= a < 2 ^ 32 -> le32 (addr_bytes a) = a.
Proof.
  intros Ha. unfold le32, addr_bytes, at_. simpl. change 255 with (Z.ones 8).
  rewrite !Z.land_ones, !Z.shiftr_div_pow2 by lia.
  change (2 ^ 8) with 256. change (2 ^ 16) with (256 * 256).
  change (2 ^ 24) with (256 * (256 * 256)).
  rewrite <-!Zdiv_Zdiv by lia.
  pose proof (Z.div_mod a 256). pose proof (Z.div_mod (a / 256) 256).
  pose proof (Z.div_mod (a / 256 / 256) 256).
  assert (a / 256 / 256 / 256 < 256).
  { rewrite !Zdiv_Zdiv by lia. apply Z.div_lt_upper_bound; lia. }
  assert (0 <= a / 256 / 256 / 256) by (repeat apply Z.div_pos; lia).
  rewrite (Z.mod_small (a / 256 / 256 / 256)) by lia. lia.
Qed.

Section Routes.
Context {TP : Type} `{SalEnv} (hard_header_len : Z -> option nat).

(** One relay: a world that received the frame [f], parsed it and reports that
    it forwarded it, having sent [f']. *)
Definition hop (f f' : frame) : Prop :=
  exists (w w' : salw TP) i b hr ip hlen ctx proto dst h,
    skbs w !! i = Some b /\ skb_owned b = false /\
    skb_buf b = Skb (hr ++ ip) (f_bytes f) /\ (20 <= length ip)%nat /\
    bytes_ok hr /\ bytes_ok ip /\
    ip_saddr ip = addr_bytes (f_saddr f) /\ ip_daddr ip = addr_bytes (f_daddr f) /\
    hard_header_len (skb_dev b) = Some hlen /\
    next_skb w <> i /\ skbs w !! next_skb w = None /\ (4 <= length dst)%nat /\
    serval_sal_parse_hdr (f_bytes f) SAL_PARSE_ALL = Ok (0, ctx) /\
    rd8 (f_bytes f) 9 = Ok proto /\
    forward_copy hard_header_len (length ip) i i ctx (f_bytes f) proto dst (c_length ctx) w
      = Ok ((h, 1), w') /\
    sent w' = sent w ++ [f'].

(** [route f0 l f]: [f] is what became of [f0] after the relays [l]. *)
Inductive route (f0 : frame) : list Z -> frame -> Prop :=
| route_start : route f0 [] f0
| route_hop l f f' : route f0 l f -> hop f f' -> route f0 (l ++ [f_daddr f]) f'.

Definition route_addrs (s : Z) (l : list Z) : list (list Z) :=
  match l with [] => [] | _ => addr_bytes <$> (s :: l) end.

Lemma route_addrs_snoc s l a :
  passed (addr_bytes s) (addr_bytes a) (route_addrs s l) = route_addrs s (l ++ [a]).
Proof. destruct l as [|b l]; [done|]. simpl. by rewrite fmap_app. Qed.

Lemma routed_proto lf pf proto exts addrs payload d :
  routed lf pf proto exts addrs payload d -> rd8 d 9 = Ok proto.
Proof.
  intros (shl & c0 & c1 & src & -> & Hl & Hp & _). unfold base_bytes.
  destruct lf as [|? [|? [|? [|? []]]]]; try done.
  by destruct pf as [|? [|? [|? [|? []]]]].
Qed.

Lemma route_ctx_length exts l s ctx :
  c_length (routed_ctx exts (route_addrs s l) ctx) =
  Z.of_nat (12 + length exts + match l with [] => 0 | _ => 8 + 4 * length l end) /\
  length (route_addrs s l) = match l with [] => 0 | _ => S (length l) end%nat.
Proof. destruct l; simpl; rewrite ?length_fmap; split; lia. Qed.

Section Invariant.
Context (lf pf : list Z) (proto : Z) (exts payload : list Z) (ctx : sal_context) (f0 : frame).
Context (Hexts : exts_ok exts ctx) (Hf0 : routed lf pf proto exts [] payload (f_bytes f0))
  (Hbytes : bytes_ok (f_bytes f0)) (Hs0 : 0 <= f_saddr f0 < 2 ^ 32).

Definition carried (l : list Z) (f : frame) : Prop :=
  f_saddr f = f_saddr f0 /\ NoDup l /\ bytes_ok (f_bytes f) /\
  exists payload', same_but_csum proto payload payload' /\
    routed lf pf proto exts (route_addrs (f_saddr f0) l) payload' (f_bytes f) /\
    (l <> [] -> serval_sal_csum 0 (f_bytes f) (length (f_bytes f) - length payload') = 0).

Lemma carried_hop l f f' :
  carried l f -> hop f f' -> (length l < 60)%nat -> (length exts + 4 * length l <= 980)%nat ->
  carried (l ++ [f_daddr f]) f'.
Proof.
  intros (Hs & Hnd & Hb & p & Hp & Hr & _)
    (w & w' & i & b & hr & ip & hlen & ctx' & proto' & dst & h & Hi & Ho & Hbuf & Hip & Hbh &
     Hbi & Hsa & Hda & Hdev & Hne & Hfr & Hdst & Hparse & Hpro & Hrun & Hsent) Hl Hlen.
  destruct (route_ctx_length exts l (f_saddr f0) ctx) as [Hcl Hal].
  assert (length (route_addrs (f_saddr f0) l) <= 61)%nat as Ha61
    by (rewrite Hal; destruct l; simpl in *; lia).
  rewrite (routed_parses _ _ _ _ _ _ _ ctx Hexts Hr) in Hparse by lia. injection Hparse as <-.
  rewrite (routed_proto _ _ _ _ _ _ _ Hr) in Hpro. injection Hpro as <-.
  eapply relay_forwards in Hrun as [Hin (g & Hg & _ & _ & Hrel)];
    [|exact Hi|done|exact Hbuf|done|exact Hdev|exact Hr|apply Hexts|done| |done..].
  2:{ rewrite Hcl. destruct l; simpl in *; lia. }
  rewrite Hg in Hsent. apply app_inv_head in Hsent. injection Hsent as ->.
  rewrite Hsa, Hda, Hs, route_addrs_snoc in Hrel. rewrite Hda in Hin.
  destruct Hrel as [(p' & Hsum & Hr' & _ & _ & Hcs) Hbb Hsf _ _ _].
  split; [by rewrite Hsf, Hsa, Hs, le32_addr_bytes|]. split.
  { apply NoDup_app. split; [done|]. split; [|apply NoDup_singleton].
    intros x Hx ->%list_elem_of_singleton. apply Hin. destruct l; [by apply elem_of_nil in Hx|].
    apply list_elem_of_fmap. exists (f_daddr f). split; [done|]. by apply elem_of_cons; right. }
  split; [done|]. exists p'. split_and!; [|done|done].
  eapply same_but_csum_trans; [done|]. by eapply update_csum_same.
Qed.

Lemma route_carried l f :
  route f0 l f -> (length l <= 60)%nat -> (length exts + 4 * length l <= 980)%nat ->
  carried l f.
Proof.
  induction 1 as [|l f f' Hrt IH Hhop]; intros Hl Hlen.
  { split; [done|]. split; [constructor|]. split; [done|]. exists payload. by split_and!. }
  rewrite length_app in Hl, Hlen. simpl in Hl, Hlen. apply carried_hop; [|done|lia|lia].
  apply IH; lia.
Qed.
End Invariant.
End Routes.
