(* ===== verification/RelayClaims.v ===== *)
(** * Relays: the main theorems

    What a relay does with a packet that resolves to a FORWARD rule, what a
    packet carries after any number of relays, and where the code goes wrong. *)
From S2P Require Import Prelude Bst ServiceEntry ServiceTable SalHdr Checksum.
From S2P Require Import SalSock Rto DelayQueue Sal SalCtrl SalState Udp.
From S2P Require Import SalInv SalHdrProps SalFwd SalFwdOk TransportCsum SalRelay UdpSession.
Local Open Scope Z_scope.

Section Claims.
Context {TP : Type} `{SalEnv} (hard_header_len : Z -> option nat).

(** A packet as a relay has it when it decides to forward it: the buffer [i],
    unowned, with the IP header [ip] in front of a SAL packet that carries
    [exts] and the route [addrs], and parses to [ctx]; the source extension has
    room for one more address. *)
Record to_forward (w : salw TP) (i : positive) (b : sal_skb) (hr ip d : list Z) (hlen : nat)
    (lf pf : list Z) (proto : Z) (exts : list Z) (addrs : list (list Z))
    (payload : list Z) (ctx : sal_context) : Prop := ToForward {
  tf_skb : skbs w !! i = Some b;
  tf_own : skb_owned b = false;
  tf_buf : skb_buf b = Skb (hr ++ ip) d;
  tf_ip : (20 <= length ip)%nat;
  tf_dev : hard_header_len (skb_dev b) = Some hlen;
  tf_routed : routed lf pf proto exts addrs payload d;
  tf_exts : exts_ok exts ctx;
  tf_addrs : (length addrs <= 61)%nat;
  tf_fits : c_length (routed_ctx exts addrs ctx) + Z.of_nat (room addrs) <= 1020;
  tf_bytes : bytes_ok hr /\ bytes_ok ip /\ bytes_ok d;
  tf_fresh : next_skb w <> i /\ skbs w !! next_skb w = None;
}.

(** C36 (functional): a relay sends on a packet whose route it is not part of.
    The packet has a well-formed SAL header whose source extension, if there is
    one, comes last; it lists at most 61 addresses, and the header with one more
    is at most 1020 bytes long, as both lengths are kept in a byte; the payload
    reaches the end of its transport checksum (for a shorter one the code writes
    beyond the packet); and the device takes the packet.  There is room in front
    of the packet for the new address, the IP header and the link header, or the
    packet has no source extension yet and there is memory for a larger buffer
    (with an extension it is read after it was freed).  Then one frame is sent: to
    the new destination, from the old source, on the same device, with the IP
    header the packet came with, changed in destination, hop count, length and
    checksum only; its SAL header parses to the one the packet came with and the
    route extended by the relay's address, and has a valid checksum; its payload
    differs in the transport checksum at most.  The packet's buffer is the only
    one freed. *)
Theorem relay_forwards_packet w i b hr ip d hlen lf pf proto exts addrs payload ctx dst w1 :
  to_forward w i b hr ip d hlen lf pf proto exts addrs payload ctx ->
  (4 <= length dst)%nat -> ip_daddr ip ∉ addrs -> holds_csum proto payload ->
  ((room addrs + length ip + hlen <= length hr)%nat \/
   addrs = [] /\ head (skb_allocs w) <> Some false) ->
  net_result w = Ok (0, w1) ->
  let ctx0 := routed_ctx exts addrs ctx in
  let ctx' := routed_ctx exts (passed (ip_saddr ip) (ip_daddr ip) addrs) ctx in
  let ip' := put_bytes 16 (take 4 dst) ip in
  exists h w' f payload',
    forward_copy hard_header_len (length ip) i i ctx0 d proto dst (c_length ctx0) w
      = Ok ((h, 1), w') /\
    sent w' = sent w ++ [f] /\ skbs w' = delete i (skbs w) /\
    f_saddr f = le32 (ip_saddr ip) /\ f_daddr f = le32 (take 4 dst) /\
    f_dev f = skb_dev b /\ f_ip f = forward_ip (length ip + length (f_bytes f)) ip' /\
    serval_sal_parse_hdr (f_bytes f) SAL_PARSE_ALL = Ok (0, ctx') /\
    drop (Z.to_nat (c_length ctx')) (f_bytes f) = payload' /\
    serval_sal_update_transport_csum proto ip' payload = Ok payload' /\
    same_but_csum proto payload payload' /\
    serval_sal_csum 0 (f_bytes f) (Z.to_nat (c_length ctx')) = 0.
Proof.
  intros [T1 T2 T3 T4 T5 T6 T7 T8 T9 (T10 & T11 & T12) (T13 & T14)] Hdst Hin Hp Hmem Hnet c0 c1 ip'.
  destruct (update_csum_run proto ip' payload Hp) as [payload' Hsum].
  destruct (relay_delivers hard_header_len w i b hr ip d hlen lf pf proto exts addrs payload ctx
    T1 T2 T3 T4 T5 T6 (proj1 (proj2 T7)) T8 T9 dst payload' w1) as (h & w' & Hrun); [done..|].
  destruct (relay_forwards hard_header_len w i b hr ip d hlen lf pf proto exts addrs payload ctx
    T1 T2 T3 T4 T5 T6 (proj1 (proj2 T7)) T8 T9 dst h w') as [_ (f & H1 & H2 & _ & H3)]; [done..|].
  exists h, w', f, payload'. destruct H3 as [(p' & Hsum' & Hr & Hl & _ & Hcs) _ Hsa Hda Hdv Hfip].
  fold ip' in Hsum'. rewrite Hsum in Hsum'. injection Hsum' as <-.
  pose proof Hr as (shl & x & y & src & Hf & Hlf & Hpf & Hs & Hshl & _).
  assert (Z.to_nat (c_length c1) = length (f_bytes f) - length payload')%nat as Hlen.
  { unfold c1. rewrite (routed_ctx_length _ _ _ _ Hs), Nat2Z.id, Hf, !length_app, length_base
      by done. lia. }
  rewrite Hlen. split_and!; try done.
  - apply (routed_parses lf pf proto exts _ payload'); [done|done|].
    unfold passed. destruct addrs; simpl in *; rewrite ?length_app; simpl; lia.
  - destruct (routed_split _ _ _ _ _ _ _ Hr) as (hdr & -> & _).
    by rewrite length_app, Nat.add_sub, drop_app_length.
  - by eapply update_csum_same.
Qed.

(** A packet that has passed a relay before is not forwarded by
    it again: nothing is sent and nothing changes. *)
Theorem relay_refuses_loop w i b hr ip d hlen lf pf proto exts addrs payload ctx dst :
  to_forward w i b hr ip d hlen lf pf proto exts addrs payload ctx ->
  ip_daddr ip ∈ addrs ->
  let ctx0 := routed_ctx exts addrs ctx in
  forward_copy hard_header_len (length ip) i i ctx0 d proto dst (c_length ctx0) w
  = Ok ((c_length ctx0, 0), w).
Proof.
  intros [T1 T2 T3 T4 T5 T6 T7 T8 T9 _ _] Hin c0. unfold forward_copy.
  rewrite (bind_Ok _ _ _ (-1, i) w) by (eapply add_source_loop; done || apply T7).
  simpl. by rewrite bool_decide_eq_true_2.
Qed.

(** A packet that has a source extension already and has no room
    in front for one more address is copied to a larger buffer and freed, and
    the extension is then read in the freed buffer.  Packets from the raw
    device have no room beyond their IP header. *)
Theorem relay_use_after_free w i b hr ip d hlen lf pf proto exts addrs payload ctx dst :
  to_forward w i b hr ip d hlen lf pf proto exts addrs payload ctx ->
  ip_daddr ip ∉ addrs -> addrs <> [] -> (length hr < room addrs + length ip + hlen)%nat ->
  head (skb_allocs w) <> Some false ->
  let ctx0 := routed_ctx exts addrs ctx in
  forward_copy hard_header_len (length ip) i i ctx0 d proto dst (c_length ctx0) w = Fault.
Proof.
  intros [T1 T2 T3 T4 T5 T6 T7 T8 T9 _ (T13 & _)] Hin Hne Hroom Hal c0.
  assert (exists w3, alloc_result w = Ok (true, w3)) as [w3 Hal3].
  { unfold alloc_result. destruct (skb_allocs w) as [|[] ?]; [by eexists|by eexists|done]. }
  unfold forward_copy, mbind, M_bind, c0.
  erewrite add_source_insert by (done || apply T7).
  erewrite insert_expand_dangling by (done || apply T7). done.
Qed.

(** C35 (invariant): after any number of relays (up to sixty, and while the
    header fits its length field) a packet still has its source, its
    extensions and its payload, up to the transport checksum; its source
    extension lists the sender and then the relays in the order it passed them,
    none of them twice; and its header checksum is right. *)
Theorem relay_path lf pf proto exts payload ctx f0 l f :
  exts_ok exts ctx -> routed lf pf proto exts [] payload (f_bytes f0) ->
  bytes_ok (f_bytes f0) -> 0 <= f_saddr f0 < 2 ^ 32 ->
  route (TP := TP) hard_header_len f0 l f -> l <> [] -> (length l <= 60)%nat ->
  (length exts + 4 * length l <= 980)%nat ->
  let ctx' := routed_ctx exts (addr_bytes <$> f_saddr f0 :: l) ctx in
  f_saddr f = f_saddr f0 /\ NoDup l /\
  serval_sal_parse_hdr (f_bytes f) SAL_PARSE_ALL = Ok (0, ctx') /\
  (forall k a, (f_saddr f0 :: l) !! k = Some a ->
   rd_bytes (f_bytes f) (12 + length exts + 4 + 4 * k) 4 = Ok (addr_bytes a)) /\
  same_but_csum proto payload (drop (Z.to_nat (c_length ctx')) (f_bytes f)) /\
  serval_sal_csum 0 (f_bytes f) (Z.to_nat (c_length ctx')) = 0.
Proof.
  intros Hx H0 Hb Hs Hrt Hne Hl Hfit ctx'.
  destruct (route_carried hard_header_len lf pf proto exts payload ctx f0 Hx H0 Hb Hs l f Hrt Hl Hfit)
    as (H1 & H2 & H3 & p & H4 & H5 & H6). specialize (H6 Hne).
  assert (route_addrs (f_saddr f0) l = addr_bytes <$> f_saddr f0 :: l) as Hra
    by (by destruct l). rewrite Hra in H5.
  pose proof H5 as (shl & x & y & src & Hf & Hlf & Hpf & Hsp & Hshl & _).
  assert (Z.to_nat (c_length ctx') = length (f_bytes f) - length p)%nat as Hlen.
  { unfold ctx'. rewrite (routed_ctx_length _ _ _ _ Hsp), Nat2Z.id, Hf, !length_app, length_base
      by done. lia. }
  rewrite Hlen. split_and!; try done.
  - eapply routed_parses; [done|done|]. rewrite length_fmap. simpl. lia.
  - intros k a Hk. eapply routed_addrs; [exact H5|]. by rewrite list_lookup_fmap, Hk.
  - destruct (routed_split _ _ _ _ _ _ _ H5) as (hdr & -> & _).
    by rewrite length_app, Nat.add_sub, drop_app_length.
Qed.
End Claims.

(** ** A concrete packet *)
Module Demo.
Import UdpSession.StepDemo.
Definition hlen (dev : Z) : option nat := Some 14%nat.
Definition sender : list Z := [10; 0; 0; 1].
Definition relay : list Z := [10; 0; 0; 2].
Definition other : list Z := [10; 0; 0; 3].
Definition ip : list Z :=
  [69; 0; 0; 78; 0; 0; 0; 0; 64; 144; 0; 0] ++ sender ++ relay.
Definition exts : list Z := [32; 36; 0; 0] ++ replicate 32 7.
Definition payload : list Z := [0; 0; 0; 0; 0; 10; 0; 0; 1; 2].
Definition ctx : sal_context :=
  match parse_exts MAX_NUM_SAL_EXTENSIONS (replicate 12 0 ++ exts) 12 36 (ctx0 0) with
  | Ok (_, ctx) => ctx
  | _ => ctx0 0
  end.
Definition lf : list Z := [0; 0; 0; 9].
Definition pf : list Z := [0; 0; 0; 0].
(** The packet as it was sent, and with a route of two addresses. *)
Definition packet : list Z := base_bytes lf pf 12 17 0 0 ++ exts ++ payload.
Definition packet_from (addrs : list (list Z)) : list Z :=
  base_bytes lf pf 15 17 0 0 ++ exts ++ source_ext 0 0 0 addrs ++ payload.
Definition skb_of (hr d : list Z) : sal_skb := SalSkb 0 0 0 (Skb (hr ++ ip) d) false 2.
Definition at_relay (hr d : list Z) : salw udp_sock :=
  (world SAL_CONNECTED) {{ skbs := {[ 1%positive := skb_of hr d ]} }}.

Lemma exts_good : exts_ok exts ctx.
Proof. split; [vm_compute; reflexivity|]. split; [reflexivity|]. vm_compute. lia. Qed.

Lemma bytes_bool d : forallb (fun b => (0 <=? b) && (b <? 256)) d = true -> bytes_ok d.
Proof.
  intros Hd. apply Forall_forall. intros b Hb.
  rewrite forallb_forall in Hd. specialize (Hd b). rewrite <-list_elem_of_In in Hd.
  specialize (Hd Hb). lia.
Qed.

Lemma packet_routed : routed lf pf 17 exts [] payload packet.
Proof. exists 12, 0, 0, []. split; [reflexivity|]. split_and!; try reflexivity. by split. Qed.
Lemma packet_from_routed a b :
  length a = 4%nat -> length b = 4%nat ->
  routed lf pf 17 exts [a; b] payload (packet_from [a; b]).
Proof.
  intros Ha Hb. exists 15, 0, 0, (source_ext 0 0 0 [a; b]).
  split; [reflexivity|]. split_and!; try reflexivity.
  - split; [by repeat constructor|]. by exists 0, 0, 0.
  - rewrite length_source_ext by (by repeat constructor). reflexivity.
Qed.

Lemma new_packet : to_forward hlen (at_relay [] packet) 1 (skb_of [] packet) [] ip packet 14
  lf pf 17 exts [] payload ctx.
Proof.
  split.
  - reflexivity.
  - reflexivity.
  - reflexivity.
  - simpl. lia.
  - reflexivity.
  - exact packet_routed.
  - exact exts_good.
  - simpl. lia.
  - vm_compute. discriminate.
  - split_and!; apply bytes_bool; reflexivity.
  - by split.
Qed.
Lemma old_packet a b :
  length a = 4%nat -> length b = 4%nat -> bytes_ok (packet_from [a; b]) ->
  to_forward hlen (at_relay [] (packet_from [a; b])) 1 (skb_of [] (packet_from [a; b]))
    [] ip (packet_from [a; b]) 14 lf pf 17 exts [a; b] payload ctx.
Proof.
  intros Ha Hb Hbytes. split.
  - reflexivity.
  - reflexivity.
  - reflexivity.
  - simpl. lia.
  - reflexivity.
  - by apply packet_from_routed.
  - exact exts_good.
  - simpl. lia.
  - vm_compute. discriminate.
  - split_and!; [by apply bytes_bool..|done].
  - by split.
Qed.

Definition payload_sum : list Z :=
  match serval_sal_update_transport_csum 17 (put_bytes 16 (take 4 other) ip) payload with
  | Ok p => p
  | _ => []
  end.

Lemma relay_forwards_packet_witness : exists h w' f,
  forward_copy hlen 20 1 1 (routed_ctx exts [] ctx) packet 17 other 48 (at_relay [] packet)
    = Ok ((h, 1), w') /\ sent w' = [f] /\ f_daddr f = le32 other /\ at_ (f_ip f) 8 = 63 /\
  drop 60 (f_bytes f) = payload_sum.
Proof.
  destruct (relay_forwards_packet hlen (at_relay [] packet) 1 (skb_of [] packet) [] ip packet 14
    lf pf 17 exts [] payload ctx other (at_relay [] packet))
    as (h & w' & f & p & H1 & H2 & _ & _ & H4 & _ & H5 & _ & H6 & H7 & _).
  - exact new_packet.
  - simpl. lia.
  - by apply not_elem_of_nil.
  - vm_compute. lia.
  - by right.
  - reflexivity.
  - exists h, w', f. refine (conj H1 (conj H2 (conj H4 (conj _ _)))).
    + rewrite H5. reflexivity.
    + unfold payload_sum. rewrite H7. exact H6.
Defined.

Lemma relay_refuses_loop_witness :
  let d := packet_from [sender; relay] in
  forward_copy hlen 20 1 1 (routed_ctx exts [sender; relay] ctx) d 17 other 60 (at_relay [] d)
    = Ok ((60, 0), at_relay [] d).
Proof.
  apply (relay_refuses_loop hlen (at_relay [] (packet_from [sender; relay])) 1
    (skb_of [] (packet_from [sender; relay])) [] ip (packet_from [sender; relay]) 14
    lf pf 17 exts [sender; relay] payload ctx other).
  - by apply old_packet; [| |apply bytes_bool].
  - apply elem_of_cons. right. by apply list_elem_of_singleton.
Defined.

Lemma relay_use_after_free_witness :
  let d := packet_from [sender; other] in
  forward_copy hlen 20 1 1 (routed_ctx exts [sender; other] ctx) d 17 other 60 (at_relay [] d)
    = Fault.
Proof.
  apply (relay_use_after_free hlen (at_relay [] (packet_from [sender; other])) 1
    (skb_of [] (packet_from [sender; other])) [] ip (packet_from [sender; other]) 14
    lf pf 17 exts [sender; other] payload ctx other).
  - by apply old_packet; [| |apply bytes_bool].
  - change (ip_daddr ip) with relay. rewrite !not_elem_of_cons. split_and!; [done|done|].
    apply not_elem_of_nil.
  - done.
  - simpl. lia.
  - done.
Defined.

Definition first_frame : frame := Frame (le32 sender) (le32 relay) 2 packet ip.
Lemma one_hop : exists f, route (TP := udp_sock) hlen first_frame [le32 relay] f.
Proof.
  destruct new_packet as [T1 T2 T3 T4 T5 T6 T7 T8 T9 (T10 & T11 & T12) (T13 & T14)].
  destruct (relay_delivers hlen _ _ _ _ _ _ _ _ _ _ _ _ _ _ T1 T2 T3 T4 T5 T6
    (proj1 (proj2 T7)) T8 T9 other payload_sum (at_relay [] packet)) as (h & w' & Hrun);
    [done|simpl; lia|done|done|done|by apply not_elem_of_nil|by right|reflexivity|
     vm_compute; reflexivity|].
  destruct (relay_forwards hlen _ _ _ _ _ _ _ _ _ _ _ _ _ _ T1 T2 T3 T4 T5 T6
    (proj1 (proj2 T7)) T8 T9 other h w') as [_ (f & H1 & _)];
    [done|done|simpl; lia|done|done|done|exact Hrun|].
  exists f. apply (route_hop hlen first_frame [] first_frame f); [constructor|].
  exists (at_relay [] packet), w', 1%positive, (skb_of [] packet), [], ip, 14%nat,
    (routed_ctx exts [] ctx), 17, other, h.
  by split_and!.
Qed.

Lemma relay_path_witness : exists f,
  route (TP := udp_sock) hlen first_frame [le32 relay] f /\
  rd_bytes (f_bytes f) 52 4 = Ok sender /\ rd_bytes (f_bytes f) 56 4 = Ok relay /\
  serval_sal_csum 0 (f_bytes f) 60 = 0.
Proof.
  destruct one_hop as [f Hf]. exists f. split; [exact Hf|].
  destruct (relay_path (TP := udp_sock) hlen lf pf 17 exts payload ctx first_frame [le32 relay] f)
    as (_ & _ & _ & H1 & _ & H2).
  - exact exts_good.
  - exact packet_routed.
  - by apply bytes_bool.
  - vm_compute. by split.
  - exact Hf.
  - done.
  - simpl. lia.
  - simpl. lia.
  - split; [exact (H1 0%nat _ eq_refl)|]. split; [exact (H1 1%nat _ eq_refl)|exact H2].
Defined.
End Demo.
