(* ===== verification/SalRcv.v ===== *)
(** * Reception: resolution and demultiplexing
    (src/stack/serval_sal.c lines 3035-3600, serval_sock.c lines 374-415,
    serval_ipv4.c lines 42-89, userlevel/packet_raw.c lines 108-170)

    What happens to a packet from the network device: its header is checked and
    parsed, the packet goes to the socket of its flow, or is resolved on its
    service identifier, and is then delivered, forwarded, answered with a reset
    or dropped.

    The world is that of one socket.  The other sockets are arguments:
    [other_flow] is their part of the established table, [other_rcv] what
    [serval_sal_do_rcv_ctx] does with a packet given to one of them.  The
    references of this socket that the service table hands out are counted
    there, those of the established table in the socket. *)
From S2P Require Import Prelude Bst ServiceEntry ServiceTable SalHdr Checksum.
From S2P Require Import SalSock Rto DelayQueue Sal SalCtrl SalState SalListen Udp.
From S2P Require Import SalFwd.
Local Open Scope Z_scope.

Inductive packet_type := PACKET_HOST | PACKET_BROADCAST | PACKET_OTHERHOST.
Definition is_broadcast (pt : packet_type) : bool :=
  match pt with PACKET_BROADCAST => true | _ => false end.

Inductive sal_resolution :=
| SAL_RESOLVE_ERROR | SAL_RESOLVE_NO_MATCH | SAL_RESOLVE_DEMUX
| SAL_RESOLVE_FORWARD | SAL_RESOLVE_DELAY | SAL_RESOLVE_DROP.

Definition NET_RX_SUCCESS : Z := 0.
Definition NET_RX_DROP : Z := 1.

Class RcvEnv {TP : Type} := {
  hard_header_len : Z -> option nat;
  sysctl_sal_forward : bool;
  other_flow : list Z -> option Z;
  other_rcv : Z -> positive -> inpkt -> SALM TP Z;
  uninit : Z; (* the value of a variable that was never set *)
}.
Arguments RcvEnv : clear implicits.

Section Rcv.
Context {TP : Type} `{SalEnv} `{RcvEnv TP} (ops : af_ops TP).
Implicit Types (w : salw TP) (i c : positive) (p : inpkt).

(** [delay_queue_skb(NULL)]: both the failure path, [kfree_skb], and the entry
    that records [skb->sk] dereference the NULL buffer. *)
Definition delay_queue_null : SALM TP unit := alloc_result;; faultM.

(** The loop over the targets of the entry.  Returns the resolution, the number
    of deliveries, the socket found (0 for none) and the iterator. *)
Fixpoint resolve_loop (fuel : nat) (pt : packet_type) (size : nat) i
    (ctx : sal_context) (iter : service_iter) (target : option (nat * nat))
    (hdr_len : Z) (num_forward : Z) (err : sal_resolution)
  : SALM TP (sal_resolution * Z * Z * service_iter)%type :=
  match target with
  | None => mret (err, num_forward, 0, iter)
  | Some pos =>
      match fuel with
      | O => nofuelM
      | S fuel =>
          b ← skb_load i;
          let d0 := data (skb_buf b) in
          protocol ← liftR (rd8 d0 9);
          '(next, iter) ← liftS (service_iter_next iter);
          se ← liftS (load_se (i_entry iter));
          t ← derefM (target_at (se_sets se) pos);
          match t_type t with
          | SERVICE_RULE_DEMUX =>
              liftS (liftE (sock_hold (t_out t)));;
              mret (SAL_RESOLVE_DEMUX, num_forward + 1, t_out t, iter)
          | SERVICE_RULE_DELAY =>
              delay_queue_null;;
              mret (SAL_RESOLVE_DELAY, num_forward + 1, 0, iter)
          | SERVICE_RULE_DROP =>
              mret (SAL_RESOLVE_DROP, num_forward + 1, 0, iter)
          | _ =>
              if is_broadcast pt then mret (SAL_RESOLVE_DROP, num_forward, 0, iter)
              else
                cskb ← match next with
                       | None => mret (Some i)
                       | Some _ => skb_copy i
                       end;
                match cskb, dev_addr (oif_of (t_out t)) with
                | None, _ | _, None => mret (SAL_RESOLVE_DROP, num_forward, 0, iter)
                | Some c, Some _ =>
                    cb ← skb_load c;
                    skb_store c (cb {{ skb_dev := oif_of (t_out t) }});;
                    '(hdr_len, n) ← forward_copy hard_header_len size i c ctx d0
                                      protocol (t_dst t) hdr_len;
                    resolve_loop fuel pt size i ctx iter next hdr_len
                      (num_forward + n) SAL_RESOLVE_FORWARD
                end
          end
      end
  end.

Definition serval_sal_resolve_service (pt : packet_type) (size : nat) i
    (ctx : sal_context) (srvid : list Z) : SALM TP (sal_resolution * Z)%type :=
  b ← skb_load i;
  let data_len := u32 (Z.of_nat (length (data (skb_buf b))) - c_length ctx) in
  se ← liftS (service_find (Some srvid) SERVICE_ID_MAX_PREFIX_BITS);
  match se with
  | None => mret (SAL_RESOLVE_NO_MATCH, 0)
  | Some l =>
      r ← pop_rand;
      '(ret, iter) ← liftS (service_iter_init l SERVICE_ITER_ANYCAST r);
      if ret <? 0 then mret (SAL_RESOLVE_ERROR, 0)
      else
        '(target, iter) ← liftS (service_iter_next iter);
        match target with
        | None =>
            liftS (service_iter_inc_stats iter (-1) (s32 data_len));;
            liftS (service_iter_destroy iter);;
            liftS (liftE (service_entry_put l));;
            mret (SAL_RESOLVE_NO_MATCH, 0)
        | Some _ =>
            liftS (service_iter_inc_stats iter 1 (s32 data_len));;
            se ← liftS (load_se l);
            '(err, num_forward, sk, iter) ←
              resolve_loop (n_targets (se_sets se) + 1) pt size i ctx iter target
                (c_length ctx) 0 SAL_RESOLVE_NO_MATCH;
            (if num_forward =? 0
             then liftS (service_iter_inc_stats iter (-1) (s32 (- data_len)))
             else mret tt);;
            liftS (service_iter_destroy iter);;
            liftS (liftE (service_entry_put l));;
            mret (err, sk)
        end
  end.

(** ** Demultiplexing *)
Definition serval_sal_demux_service (srvid : list Z) (protocol : Z)
  : SALM TP (option Z) :=
  liftS (service_table_find_sock (Some srvid) SERVICE_ID_MAX_PREFIX_BITS protocol).

(** The socket of a flow: [Some None] is the socket of this world. *)
Definition serval_sock_lookup_flow (flow : list Z) : SALM TP (option (option Z)) :=
  s ← the_sk;
  if in_table s && bool_decide (local_flowid s = flow)
  then sk_hold;; mret (Some None)
  else mret (Some <$> other_flow flow).

Definition serval_sal_demux_flow (d : list Z) (ctx : sal_context)
  : SALM TP (option (option Z)) :=
  syn ← match c_ctrl_ext ctx with
        | None => mret false
        | Some e =>
            b2 ← liftR (rd8 d (e + 2));
            mret (Z.testbit b2 7 && negb (Z.testbit b2 5))
        end;
  if (syn : bool) then mret None
  else
    flow ← liftR (rd_bytes d 4 4);
    serval_sock_lookup_flow flow.

(** Returns the resolution and the value of [*sk]; [sk0] is what it was. *)
Definition serval_sal_resolve (pt : packet_type) (size : nat) i (d : list Z)
    (ctx : sal_context) (sk0 : Z) : SALM TP (sal_resolution * Z)%type :=
  if c_length ctx <=? Z.of_nat SAL_HEADER_LEN then mret (SAL_RESOLVE_ERROR, sk0)
  else
    match c_srv_ext0 ctx with
    | None => mret (SAL_RESOLVE_ERROR, sk0)
    | Some e =>
        srvid ← liftR (rd_bytes d (e + 4) 32);
        if sysctl_sal_forward then serval_sal_resolve_service pt size i ctx srvid
        else
          protocol ← liftR (rd8 d 9);
          sk ← serval_sal_demux_service srvid protocol;
          match sk with
          | Some sk => mret (SAL_RESOLVE_DEMUX, sk)
          | None => mret (SAL_RESOLVE_NO_MATCH, 0)
          end
    end.

(** ** Delivery

    [sk] is [None] for this socket found through its flow, [Some addr] for the
    socket at [addr]. *)
Definition packet_len i : SALM TP Z :=
  b ← skb_load i; mret (Z.of_nat (length (data (skb_buf b)))).
Definition serval_sal_rcv_finish (pt : packet_type) (sk : option Z) i p : SALM TP Z :=
  err ← match sk with
        | None =>
            err ← serval_sal_do_rcv_ctx ops false (is_broadcast pt) i p;
            sk_put;; mret err
        | Some addr =>
            err ← (if addr =? sk_addr
                   then serval_sal_do_rcv_ctx ops false (is_broadcast pt) i p
                   else other_rcv addr i p);
            liftS (liftE (sock_put addr));; mret err
        end;
  (if negb (err =? 0) then
     len ← packet_len i;
     liftS (service_inc_stats (-1) (s32 (- (len - c_length (in_ctx p)))))
   else mret tt);;
  mret err.

Definition ip_packet (size : nat) (b : sal_skb) (ctx : sal_context) : outcome inpkt :=
  ip ← ip_hdr size (skb_buf b);
  Ok (InPkt ctx (data (skb_buf b)) (le32 (ip_saddr ip)) (le32 (ip_daddr ip))
        (skb_dev b)).

Definition rcv_drop i (length : Z) : SALM TP Z :=
  len ← packet_len i;
  liftS (service_inc_stats (-1) (s32 (- (len - length))));;
  kfree_skb i;;
  mret NET_RX_DROP.

(** The second half of [serval_sal_rcv]: what follows resolution, and what
    follows the checks. *)
Definition rcv_resolved (pt : packet_type) i (ctx : sal_context) p
    (res : sal_resolution) (sk : Z) : SALM TP Z :=
  match res with
  | SAL_RESOLVE_DEMUX =>
      err ← serval_sal_rcv_finish pt (Some sk) i p;
      mret (if err <? 0 then NET_RX_DROP else NET_RX_SUCCESS)
  | SAL_RESOLVE_FORWARD | SAL_RESOLVE_DELAY => mret NET_RX_SUCCESS
  | _ =>
      (match res with
       | SAL_RESOLVE_NO_MATCH =>
           if flag_set (c_flags ctx) SVH_SYN && negb (flag_set (c_flags ctx) SVH_ACK)
           then mret tt else serval_sal_send_reset false i p
       | _ => mret tt
       end);;
      (if negb (sk =? 0) then liftS (liftE (sock_put sk)) else mret tt);;
      rcv_drop i (c_length ctx)
  end.
Definition rcv_dispatch (pt : packet_type) (size : nat) i (d : list Z)
    (ctx : sal_context) p : SALM TP Z :=
  sk ← serval_sal_demux_flow d ctx;
  match sk with
  | Some sk =>
      err ← serval_sal_rcv_finish pt sk i p;
      mret (if err <? 0 then NET_RX_DROP else NET_RX_SUCCESS)
  | None =>
      '(res, sk) ← serval_sal_resolve pt size i d ctx 0;
      rcv_resolved pt i ctx p res sk
  end.

(** [size] is the length of the IP header in front of the packet. *)
Definition serval_sal_rcv (pt : packet_type) (size : nat) i : SALM TP Z :=
  b ← skb_load i;
  let d := data (skb_buf b) in
  if (length d <? SAL_HEADER_LEN)%nat then rcv_drop i uninit
  else
    shl ← liftR (rd8 d 8);
    let sal_length := Z.shiftl shl 2 in
    if (Z.of_nat SAL_HEADER_LEN <? sal_length) && (Z.of_nat (length d) <? sal_length)
    then rcv_drop i uninit
    else
      '(ret, ctx) ← liftR (serval_sal_parse_hdr d SAL_PARSE_ALL);
      if negb (ret =? 0) then rcv_drop i (c_length ctx)
      else if negb (serval_sal_csum 0 d (Z.to_nat (c_length ctx)) =? 0)
      then rcv_drop i (c_length ctx)
      else
        p ← liftR (ip_packet size b ctx);
        rcv_dispatch pt size i d ctx p.

(** A packet that waited in the delay queue. *)
Definition serval_sal_reresolve (pt : packet_type) (size : nat) i : SALM TP Z :=
  b ← skb_load i;
  let d := data (skb_buf b) in
  '(ret, ctx) ← liftR (serval_sal_parse_hdr d SAL_PARSE_ALL);
  if negb (ret =? 0) then kfree_skb i;; mret (-1)
  else
    p ← liftR (ip_packet size b ctx);
    '(res, sk) ← serval_sal_resolve pt size i d ctx uninit;
    match res with
    | SAL_RESOLVE_DEMUX => serval_sal_rcv_finish pt (Some sk) i p
    | SAL_RESOLVE_FORWARD => mret 0
    | SAL_RESOLVE_DELAY => mret 3
    | SAL_RESOLVE_NO_MATCH | SAL_RESOLVE_DROP => kfree_skb i;; mret (- EHOSTUNREACH)
    | SAL_RESOLVE_ERROR =>
        (if negb (sk =? 0) then liftS (liftE (sock_put sk)) else mret tt);;
        kfree_skb i;; mret (- EHOSTUNREACH)
    end.

(** ** From the device: a packet that starts with its IP header *)
Definition INPUT_DELIVER : Z := 1.
Definition serval_ipv4_rcv (pt : packet_type) i : SALM TP Z :=
  b ← skb_load i;
  let d := data (skb_buf b) in
  b0 ← liftR (rd8 d 0);
  proto ← liftR (rd8 d 9);
  let size := ip_hdr_len b0 in
  if negb (proto =? IPPROTO_SERVAL) then mret INPUT_DELIVER
  else if (length d <? size)%nat then kfree_skb i;; mret 0
  else
    skb_store i (b {{ skb_buf := pskb_pull size (skb_buf b) }});;
    serval_sal_rcv pt size i.
End Rcv.
