(* ===== verification/SalRcvOk.v ===== *)
(** * Reception: what happens to a packet from the network

    Packets that fail a check are dropped and nothing else happens; packets of
    an established connection reach its state machine, inside the invariant of
    [SalInv]; packets for a service take the way its rule says. *)
From S2P Require Import Prelude Bst BstRep BstFind BstInsert BstRemove ServiceEntry ServiceTable ServiceInv.
From S2P Require Import ServiceRefine ServiceAdd ServiceDel SalHdr Checksum.
From S2P Require Import SalSock Rto DelayQueue Sal SalCtrl SalState SalListen Udp.
From S2P Require Import SalHdrProps SalInv SalStep SalMachine UdpSession.
From S2P Require Import SalFwd SalFwdOk TransportCsum SalRelay SalRcv.
Local Open Scope Z_scope.

(** ** Extensions that parse lie in the header *)
Definition inside (L n : nat) (ext : option nat) : Prop :=
  forall e, ext = Some e -> (e + n <= L)%nat.
Definition ctx_inside (L : nat) (ctx : sal_context) : Prop :=
  inside L 20 (c_ctrl_ext ctx) /\ inside L 36 (c_srv_ext0 ctx) /\ inside L 36 (c_srv_ext1 ctx).

Lemma inside_new L n e r : (n <= Z.to_nat r)%nat -> (e + Z.to_nat r <= L)%nat -> inside L n (Some e).
Proof. intros ? ? x [= <-]. lia. Qed.

Lemma ctx_inside_le L L' ctx : ctx_inside L ctx -> (L <= L')%nat -> ctx_inside L' ctx.
Proof.
  intros (I1 & I2 & I3) HL. split_and!; intros e He;
    [specialize (I1 e He)|specialize (I2 e He)|specialize (I3 e He)]; lia.
Qed.

Lemma parse_ext_inside d e ctx r ctx' L :
  parse_ext d e ctx = Ok (r, ctx') -> 0 < r -> (e + Z.to_nat r <= L)%nat ->
  ctx_inside L ctx -> ctx_inside L ctx'.
Proof.
  intros Hp Hr HL (I1 & I2 & I3).
  destruct (parse_ext_len _ _ _ _ _ Hp Hr) as (b0 & Hb & Hlen & Hmin).
  unfold parse_ext in Hp. rewrite (obind_Ok _ _ _ Hlen), (obind_Ok _ _ _ Hb) in Hp.
  unfold min_ext_length in *.
  unfold parse_control_ext, parse_service_ext, parse_source_ext in Hp.
  repeat (case_match; simplify_eq; try done); repeat outcome_inv Hp; simplify_eq;
    split_and!; simpl; try done.
  all: eapply inside_new; [|done]; lia.
Qed.

Lemma parse_exts_inside rounds d : forall e n ctx ctx' L,
  parse_exts rounds d e n ctx = Ok (0, ctx') -> 0 <= n -> (e + Z.to_nat n <= L)%nat ->
  ctx_inside L ctx -> ctx_inside L ctx'.
Proof.
  induction rounds as [|rounds IH]; intros e n ctx ctx' L Hp Hn HL Hi; cbn [parse_exts] in Hp.
  { by destruct (n <=? 0); injection Hp as _ <-. }
  destruct (Z.leb_spec n 0); [by injection Hp as _ <-|].
  apply obind_inv in Hp as ([r ctx1] & He & Hp). destruct (Z.leb_spec r 0); [done|].
  destruct (parse_ext_len _ _ _ _ _ He) as (_ & _ & Hlen & _); [lia|].
  rewrite (obind_Ok _ _ _ (ext_next_len _ _ _ Hlen)) in Hp.
  destruct (decide (r <= n)) as [Hr|Hr].
  2:{ destruct rounds; cbn in Hp; rewrite (proj2 (Z.leb_le _ _)) in Hp by lia;
        injection Hp as; lia. }
  eapply IH; [exact Hp|lia|lia|].
  eapply parse_ext_inside in He; [|lia| |done]; [exact He|lia].
Qed.

Lemma parse_ext_clength d e ctx r ctx' :
  parse_ext d e ctx = Ok (r, ctx') -> c_length ctx' = c_length ctx.
Proof.
  unfold parse_ext, parse_control_ext, parse_service_ext, parse_source_ext.
  intros (n & _ & Hp)%obind_inv. apply obind_inv in Hp as (b0 & _ & Hp).
  repeat (case_match; simplify_eq; try done); repeat outcome_inv Hp; by simplify_eq.
Qed.
Lemma parse_exts_clength rounds d : forall e n ctx r ctx',
  parse_exts rounds d e n ctx = Ok (r, ctx') -> c_length ctx' = c_length ctx.
Proof.
  induction rounds as [|rounds IH]; intros e n ctx r ctx' Hp; cbn [parse_exts] in Hp.
  { by destruct (n <=? 0); injection Hp as _ <-. }
  destruct (n <=? 0); [by injection Hp as _ <-|].
  apply obind_inv in Hp as ([k ctx1] & He & Hp). apply parse_ext_clength in He.
  destruct (k <=? 0); [by injection Hp as _ <-|].
  apply obind_inv in Hp as (next & _ & Hp). apply IH in Hp. by rewrite Hp, <-He.
Qed.

Lemma parse_hdr_inside d ctx b8 :
  serval_sal_parse_hdr d SAL_PARSE_ALL = Ok (0, ctx) -> d !! 8%nat = Some b8 ->
  4 * b8 <= Z.of_nat (length d) ->
  ctx_inside (Z.to_nat (4 * b8)) ctx /\ c_length ctx = 4 * b8 /\ 12 <= 4 * b8.
Proof.
  intros Hp H8 Hlen. unfold serval_sal_parse_hdr in Hp.
  rewrite (obind_Ok _ _ b8) in Hp by (unfold rd8; by rewrite H8).
  assert (Z.shiftl b8 2 = 4 * b8) as E by (rewrite Z.shiftl_mul_pow2; lia). rewrite E in Hp.
  cbv beta iota zeta in Hp. change (c_length (ctx0 (4 * b8))) with (4 * b8) in Hp.
  unfold SAL_HEADER_LEN in Hp. destruct (Z.ltb_spec (4 * b8) (Z.of_nat 12)); [done|].
  split; [|split; [by apply parse_exts_clength in Hp|lia]].
  eapply parse_exts_inside; [exact Hp|lia|lia|]. by split_and!.
Qed.

Lemma of_be32_bound bs : bytes_ok bs -> length bs = 4%nat -> 0 <= of_be32 bs < 2 ^ 32.
Proof.
  intros Hb Hl. destruct bs as [|a [|b [|c [|d []]]]]; try done.
  unfold bytes_ok in Hb. rewrite !Forall_cons in Hb. unfold of_be32. simpl. lia.
Qed.

(** Sequence numbers in a parsed header are 32-bit numbers. *)
Definition seqs_ok (ctx : sal_context) : Prop :=
  0 <= c_verno ctx < 2 ^ 32 /\ 0 <= c_ackno ctx < 2 ^ 32.
Lemma parse_ext_seqs d e ctx r ctx' :
  bytes_ok d -> parse_ext d e ctx = Ok (r, ctx') -> seqs_ok ctx -> seqs_ok ctx'.
Proof.
  intros Hb Hp Hs. unfold parse_ext, parse_control_ext, parse_service_ext, parse_source_ext in Hp.
  apply obind_inv in Hp as (n & _ & Hp). apply obind_inv in Hp as (b0 & _ & Hp).
  repeat (case_match; simplify_eq; try done); repeat outcome_inv Hp; simplify_eq; try done.
  split; apply of_be32_bound.
  all: repeat match goal with H : rd_bytes _ _ _ = Ok _ |- _ => apply rd_bytes_lookup in H as [? ->] end.
  all: try (by apply bytes_take, bytes_drop). all: rewrite length_take, length_drop; lia.
Qed.
Lemma parse_exts_seqs rounds d : forall e n ctx r ctx',
  bytes_ok d -> parse_exts rounds d e n ctx = Ok (r, ctx') -> seqs_ok ctx -> seqs_ok ctx'.
Proof.
  induction rounds as [|rounds IH]; intros e n ctx r ctx' Hb Hp Hs; cbn [parse_exts] in Hp.
  { by destruct (n <=? 0); injection Hp as _ <-. }
  destruct (n <=? 0); [by injection Hp as _ <-|].
  apply obind_inv in Hp as ([k ctx1] & He & Hp). apply (parse_ext_seqs _ _ _ _ _ Hb) in He; [|done].
  destruct (k <=? 0); [by injection Hp as _ <-|].
  apply obind_inv in Hp as (next & _ & Hp). by apply IH in Hp.
Qed.
Lemma parse_hdr_seqs d mode r ctx :
  bytes_ok d -> serval_sal_parse_hdr d mode = Ok (r, ctx) -> seqs_ok ctx.
Proof.
  intros Hb (shl & _ & Hp)%obind_inv. cbv zeta in Hp. destruct (_ <? _); [by injection Hp as _ <-|].
  destruct mode; [by injection Hp as _ <-|]. by eapply parse_exts_seqs.
Qed.

(** ** The checks of the header *)

(** What [serval_sal_rcv] tests before it looks for a socket: [Some ctx] for a
    packet that passes, [None] and the length used in the statistics for one
    that does not. *)
Definition rcv_checks (uninit : Z) (d : list Z) : outcome (sal_context + Z) :=
  if (length d <? SAL_HEADER_LEN)%nat then Ok (inr uninit)
  else
    shl ← rd8 d 8;
    if (Z.of_nat SAL_HEADER_LEN <? Z.shiftl shl 2)
       && (Z.of_nat (length d) <? Z.shiftl shl 2) then Ok (inr uninit)
    else
      '(ret, ctx) ← serval_sal_parse_hdr d SAL_PARSE_ALL;
      if negb (ret =? 0) || negb (serval_sal_csum 0 d (Z.to_nat (c_length ctx)) =? 0)
      then Ok (inr (c_length ctx)) else Ok (inl ctx).

Lemma rcv_checks_ok uninit d ctx :
  rcv_checks uninit d = Ok (inl ctx) ->
  serval_sal_parse_hdr d SAL_PARSE_ALL = Ok (0, ctx) /\
  serval_sal_csum 0 d (Z.to_nat (c_length ctx)) = 0 /\
  ctx_inside (Z.to_nat (c_length ctx)) ctx /\ ctx_inside (length d) ctx /\
  12 <= c_length ctx <= Z.of_nat (length d).
Proof.
  unfold rcv_checks. destruct (Nat.ltb_spec (length d) SAL_HEADER_LEN); [done|].
  intros (shl & Hs & H1)%obind_inv.
  assert (d !! 8%nat = Some shl) as H8
    by (unfold rd8 in Hs; destruct (d !! 8%nat); [by injection Hs as ->|done]).
  destruct (_ && _) eqn:Hlen; [done|]. apply obind_inv in H1 as ([ret c] & Hp & H1).
  destruct (negb (ret =? 0) || _) eqn:Hc; [done|]. injection H1 as <-.
  apply orb_false_iff in Hc as [Hr Hcs]. apply negb_false_iff, Z.eqb_eq in Hr as ->.
  apply negb_false_iff, Z.eqb_eq in Hcs.
  assert (Z.shiftl shl 2 = 4 * shl) as E by (rewrite Z.shiftl_mul_pow2; lia). rewrite E in Hlen.
  assert (4 * shl <= Z.of_nat (length d)) as Hl.
  { unfold SAL_HEADER_LEN in *.
    apply andb_false_iff in Hlen as [?%Z.ltb_ge|?%Z.ltb_ge]; lia. }
  destruct (parse_hdr_inside d c shl Hp H8 Hl) as (I & L & L2).
  rewrite L. split_and!; [done|by rewrite <-L|done| |lia|lia].
  eapply ctx_inside_le; [exact I|lia].
Qed.

Lemma wp_Ok {S A} (m : M S A) st a st' (Q : A -> S -> Prop) :
  m st = Ok (a, st') -> Q a st' -> wp m st Q.
Proof. unfold wp. by intros ->. Qed.

Section Rcv.
Context {TP : Type} `{SalEnv} `{RcvEnv TP} (ops : af_ops TP).
Implicit Types (w : salw TP) (i : positive).

Lemma rcv_checked pt size i w b :
  skbs w !! i = Some b ->
  serval_sal_rcv ops pt size i w =
  match rcv_checks uninit (data (skb_buf b)) with
  | Ok (inl ctx) =>
      (p ← liftR (ip_packet size b ctx);
       rcv_dispatch ops pt size i (data (skb_buf b)) ctx p) w
  | Ok (inr n) => rcv_drop i n w
  | Fault => Fault
  | NoFuel => NoFuel
  end.
Proof.
  intros Hb. unfold serval_sal_rcv, rcv_checks.
  rewrite (bind_Ok _ _ _ b w) by (unfold skb_load; by rewrite Hb).
  destruct (length _ <? _)%nat; [done|].
  destruct (rd8 _ 8) as [shl| |]; [|done..]. rewrite (bind_Ok _ _ _ shl w) by done.
  rewrite (obind_Ok (Ok shl) _ shl) by done. destruct (_ && _); [done|].
  destruct (serval_sal_parse_hdr _ _) as [[ret ctx]| |]; [|done..].
  rewrite (bind_Ok _ _ _ (ret, ctx) w) by done. rewrite (obind_Ok (Ok (ret, ctx)) _ (ret, ctx)) by done.
  destruct (ret =? 0); [|done]. cbn [negb orb]. by destruct (negb _).
Qed.

(** A dropped packet is counted and freed. *)
Lemma rcv_drop_run i n w b :
  skbs w !! i = Some b -> skb_owned b = false ->
  rcv_drop i n w =
  Ok (NET_RX_DROP,
      w {{ skbs ::= delete i;
           svc := set_env (tb_add_stats (-1)
             (s32 (- (Z.of_nat (length (data (skb_buf b))) - n))) (env (svc w))) (svc w) }}).
Proof.
  intros Hb Ho. unfold rcv_drop, packet_len, kfree_skb, skb_load, mbind, M_bind.
  rewrite Hb. destruct w as [??????????????? ]. cbn in *. rewrite Hb. cbn. by rewrite Ho.
Qed.
End Rcv.

(** ** Delivery to a connection *)
Section Flow.
Context {TP : Type} `{TpWf TP} `{SalEnv} `{!StaleRead} `{RcvEnv TP}
  (tp_held : TP -> gset positive) (ops : af_ops TP)
  {Hops : TransportOk tp_held ops} (Hroom : (HDR_ROOM <= max_header)%nat).
Implicit Types (w : salw TP) (i : positive).

Lemma inv_hold held base w :
  inv tp_held held base w ->
  inv tp_held held (base + 1) (w {{ sk ::= (fun s => s {{ sk_refs ::= Z.add 1 }}) }}).
Proof using Type.
  clear Hops Hroom. intros [I1 I2 I3 I4 I5 I6 I7 I8 I9]. split; rsimp; try done.
  change (timers _) with (timers (sk w)). lia.
Qed.

(** The packet belongs to the connection of this socket. *)
Record for_flow w (d : list Z) (ctx : sal_context) : Prop := ForFlow {
  ff_table : in_table (sk w) = true;
  ff_flow : local_flowid (sk w) = take 4 (drop 4 d);
  ff_syn : forall e b2, c_ctrl_ext ctx = Some e -> d !! (e + 2)%nat = Some b2 ->
    Z.testbit b2 7 && negb (Z.testbit b2 5) = false;
}.

Lemma demux_flow_own w d ctx :
  for_flow w d ctx -> ctx_inside (length d) ctx -> (12 <= length d)%nat ->
  serval_sal_demux_flow d ctx w =
  Ok (Some None, w {{ sk ::= (fun s => s {{ sk_refs ::= Z.add 1 }}) }}).
Proof using Type.
  clear Hops Hroom. intros [F1 F2 F3] (I1 & _) Hl. unfold serval_sal_demux_flow.
  rewrite (bind_Ok _ _ _ false w).
  2:{ destruct (c_ctrl_ext ctx) as [e|] eqn:He; [|done]. specialize (I1 e eq_refl).
      destruct (lookup_lt_is_Some_2 d (e + 2)) as [b2 Hb2]; [lia|].
      rewrite (bind_Ok _ _ _ b2 w) by (apply liftR_Ok; unfold rd8; by rewrite Hb2).
      by rewrite (F3 e b2 eq_refl Hb2). }
  rewrite (bind_Ok _ _ _ (take 4 (drop 4 d)) w).
  2:{ apply liftR_Ok. unfold rd_bytes. by rewrite decide_True by lia. }
  unfold serval_sock_lookup_flow. rewrite (bind_Ok _ _ _ (sk w) w) by done.
  rewrite F1, bool_decide_eq_true_2 by done. done.
Qed.

(** The state machine runs on the packet without its header; the reference
    taken for the delivery is given back. *)
Lemma dispatch_flow held base w i b pt size d ctx p :
  inv tp_held held base w -> i ∈ held -> established (sk_state (sk w)) = true ->
  skbs w !! i = Some b -> data (skb_buf b) = d -> in_ctx p = ctx -> pkt_ok p ->
  for_flow w d ctx -> ctx_inside (length d) ctx -> 12 <= c_length ctx <= Z.of_nat (length d) ->
  wp (rcv_dispatch ops pt size i d ctx p) w (fun r w' =>
    r = NET_RX_SUCCESS /\ stepped tp_held (packet_acks p (sk w)) i p held base w w').
Proof.
  intros Hw Hi Hest Hb Hd Hctx Hp Hf Hin Hlen. unfold rcv_dispatch.
  apply wp_bind. eapply wp_Ok; [apply (demux_flow_own w d ctx Hf Hin); lia|].
  set (w1 := w {{ sk ::= _ }}). pose proof (inv_hold _ _ _ Hw) as I1. fold w1 in I1.
  unfold serval_sal_rcv_finish. 
  apply wp_bind, wp_bind, wp_bind. unfold serval_sal_do_rcv_ctx.
  apply wp_bind. eapply load_ok; [exact Hb|]. rewrite Hd, Hctx, decide_True by lia.
  apply wp_bind. eapply store_ok; [exact Hb|].
  set (b' := b {{ skb_buf := _; skb_flags := _ }}). set (w2 := w1 {{ skbs ::= _ }}).
  assert (inv tp_held held (base + 1) w2) as I2.
  { eapply inv_store; [exact I1|exact Hb|by destruct b|by left]. }
  eapply wp_mono; [exact (state_process_ok tp_held ops Hops Hroom _ _ held (base + 1) w2 i p
    I2 Hi Hest Hp)|].
  intros r w3 (-> & HS).
  change (packet_acks p (sk w2)) with (packet_acks p (sk w)) in HS.
  apply (stepped_core tp_held _ i p held (base + 1) w w2 w3 eq_refl) in HS as [I3 T3].
  apply wp_bind.
  unfold sk_put, upd_sk. apply wp_modS. apply wp_ret, wp_bind, wp_ret, wp_ret. split; [done|].
  split; [|exact T3].
  apply (SalStep.inv_put tp_held) in I3.
  replace (base_of (sk w3) (sk w) (base + 1) - 1) with (base_of (sk w3) (sk w) base) in I3.
  2:{ unfold base_of, base_after.
      case_bool_decide; [destruct (sock_dead (sk w))|]; lia. }
  exact I3.
Qed.
End Flow.

(** ** Resets *)
Section Reset.
Context {TP : Type} `{SalEnv}.
Implicit Types (w : salw TP) (i : positive) (p : inpkt).

(** The environment lets one reply through: there is memory for it and the
    device takes it. *)
Definition can_reply w : bool :=
  match head (skb_allocs w) with Some b => b | None => true end &&
  match head (net_results w) with Some r => 0 <=? r | None => true end.

(** A frame that carries just a control extension: flow identifiers from [lf]
    to [pf], the given flags and numbers. *)
Definition is_control (f : frame) (lf pf : list Z) (flags verno ackno : Z) : Prop :=
  rd_bytes (f_bytes f) 0 4 = Ok lf /\ rd_bytes (f_bytes f) 4 4 = Ok pf /\
  exists ctx, serval_sal_parse_hdr (f_bytes f) SAL_PARSE_ALL = Ok (0, ctx) /\
    c_flags ctx = flags /\ c_verno ctx = verno /\ c_ackno ctx = ackno /\
    c_srv_ext0 ctx = None /\ c_length ctx = Z.of_nat (length (f_bytes f)).

Lemma control_frame lf pf proto flags verno ackno nonce saddr daddr dev ip :
  length lf = 4%nat -> length pf = 4%nat -> length nonce = 8%nat ->
  0 <= verno < 2 ^ 32 -> 0 <= ackno < 2 ^ 32 ->
  let ext := ctrl_ext_bytes flags verno ackno nonce in
  is_control (Frame saddr daddr dev
    (serval_sal_send_check 0 (base_header lf pf proto ext ++ ext)) ip) lf pf
    (wire_flags flags) verno ackno.
Proof.
  intros Hl Hp Hn Hv Ha ext.
  assert (length ext = 20%nat) as He by (unfold ext, ctrl_ext_bytes; rewrite !length_app; simpl; lia).
  assert (base_header lf pf proto ext = base_bytes lf pf 8 proto 0 0) as ->.
  { unfold base_header, base_bytes. rewrite He. done. }
  destruct (send_check_base lf pf 8 proto 0 0 ext Hl Hp) as (x & y & Hs).
  unfold is_control. cbn [f_bytes]. rewrite Hs.
  pose proof (length_base lf pf 8 proto x y Hl Hp) as Hb.
  assert (Z.of_nat (length (base_bytes lf pf 8 proto x y ++ ext)) = 32) as ->
    by (rewrite length_app, Hb, He; done).
  split_and!.
  - unfold rd_bytes, base_bytes. rewrite decide_True by (rewrite !length_app; lia).
    rewrite drop_0, <-app_assoc. by apply (f_equal Ok), take_app_length'.
  - unfold rd_bytes, base_bytes. rewrite decide_True by (rewrite !length_app; lia).
    rewrite <-app_assoc, drop_app_length', <-app_assoc by done. by apply (f_equal Ok), take_app_length'.
  - rewrite (base_parse _ _ 8) by (done || lia).
    destruct (parse_ctrl_at (base_bytes lf pf 8 proto x y) 0 0 0 flags verno ackno nonce []
      (ctx0 (4 * 8)) Hv Ha eq_refl eq_refl) as [P1 P2].
    rewrite Hb, app_nil_r in P1, P2.
    change (ctrl_bytes 0 0 0 flags verno ackno nonce) with ext in P1, P2.
    eexists. split.
    { rewrite (parse_step 9 _ 12 _ _ _ _ _ P1 P2) by lia. done. }
    by split_and!.
Qed.

(** The RST bit of a packet. *)
Definition is_reset p : bool :=
  match c_ctrl_ext (in_ctx p) with
  | Some e => Z.testbit (at_ (in_hdr p) (e + 2)) RST_BIT
  | None => false
  end.
(** The reset that answers [p]: it goes back to the sender with the flow
    identifiers exchanged, and acknowledges what the packet said. *)
Definition answers p (f : frame) : Prop :=
  let sf := take 4 (in_hdr p) in let df := take 4 (drop 4 (in_hdr p)) in
  f_daddr f = in_saddr p /\ f_dev f = in_dev p /\
  if in_flag p SVH_ACK then is_control f df sf SVH_RST (c_ackno (in_ctx p)) 0
  else is_control f df sf (Z.lor SVH_RST SVH_ACK) 0
         (u32 (c_verno (in_ctx p) + Z.land (c_flags (in_ctx p)) SVH_SYN
               + Z.land (c_flags (in_ctx p)) SVH_FIN)).

Lemma reset_bit w p :
  ctx_inside (length (in_hdr p)) (in_ctx p) ->
  (match c_ctrl_ext (in_ctx p) with
   | Some _ => ctrl_bit p RST_BIT
   | None => mret false
   end) w = Ok (is_reset p, w).
Proof.
  intros (I1 & _). unfold is_reset, ctrl_bit.
  destruct (c_ctrl_ext (in_ctx p)) as [e|] eqn:He; [|done]. specialize (I1 e eq_refl).
  destruct (lookup_lt_is_Some_2 (in_hdr p) (e + 2)) as [b2 Hb2]; [lia|].
  rewrite (bind_Ok _ _ _ b2 w) by (apply liftR_Ok; unfold rd8; by rewrite Hb2).
  by rewrite at_default, Hb2.
Qed.

Lemma build_and_send_run has_sk saddr daddr dev buf w :
  (IP_HLEN <= length (headroom buf))%nat ->
  exists err w', serval_ipv4_build_and_send_pkt has_sk saddr daddr dev buf w = Ok (err, w') /\
    sk w' = sk w /\ skbs w' = skbs w /\ svc w' = svc w /\
    if match head (net_results w) with Some r => 0 <=? r | None => true end
    then exists saddr' ip, sent w' = sent w ++ [Frame saddr' daddr dev (data buf) ip]
    else sent w' = sent w.
Proof.
  intros Hr. unfold serval_ipv4_build_and_send_pkt. cbv zeta.
  set (saddr' := if saddr =? 0 then _ else _).
  destruct (fill_ok (if has_sk then inet_tos else 0) (if has_sk then inet_ttl else SERVAL_DEFTTL)
    saddr' daddr dev buf Hr) as (buf' & Hf & Hfr).
  rewrite (bind_Ok _ _ _ buf' w) by (by apply liftR_Ok). rewrite Hfr.
  unfold net_result, mbind, M_bind.
  destruct (net_results w) as [|r rs] eqn:Hn; simpl.
  - eexists _, _. split; [done|]. rsimp. split_and!; eauto.
  - destruct (Z.ltb_spec r 0), (Z.leb_spec 0 r); try lia.
    + eexists _, _. split; [done|]. rsimp. done.
    + eexists _, _. split; [done|]. rsimp. split_and!; eauto.
Qed.

Definition RESET_ROOM : nat := 32 + IP_HLEN.

(** A reset is never answered; another packet is if there is memory and the
    device takes the reset. *)
Lemma send_reset_run has_sk w i p :
  ctx_inside (length (in_hdr p)) (in_ctx p) -> (12 <= length (in_hdr p))%nat ->
  0 <= c_ackno (in_ctx p) < 2 ^ 32 -> (RESET_ROOM <= max_sal_hdr)%nat ->
  exists w', serval_sal_send_reset has_sk i p w = Ok (tt, w') /\
    sk w' = sk w /\ skbs w' = skbs w /\ svc w' = svc w /\
    if is_reset p || negb (can_reply w) then sent w' = sent w
    else exists f, sent w' = sent w ++ [f] /\ answers p f.
Proof.
  intros HI Hl Hack Hroom. unfold serval_sal_send_reset.
  rewrite (bind_Ok _ _ _ _ _ (reset_bit w p HI)).
  destruct (is_reset p); [by eexists|]. destruct HI as (I1 & _). cbn [orb].
  assert (exists ok w1, alloc_result w = Ok (ok, w1) /\ sent w1 = sent w /\ sk w1 = sk w /\
    skbs w1 = skbs w /\ svc w1 = svc w /\ net_results w1 = net_results w /\
    match head (skb_allocs w) with Some b => b | None => true end = ok)
    as (ok & w1 & Hw1 & E1 & E2 & E3 & E4 & E5 & E6).
  { unfold alloc_result. destruct (skb_allocs w) as [|b bs]; by eexists _, _. }
  rewrite (bind_Ok _ _ _ _ _ Hw1). unfold can_reply. rewrite E6.
  destruct ok; cbn [negb andb]; [|by eexists].
  assert (exists nonce, in_nonce p = Ok nonce /\ length nonce = 8%nat) as (nonce & Hno & Hln).
  { unfold in_nonce. destruct (c_ctrl_ext (in_ctx p)) as [e|] eqn:He.
    - specialize (I1 e eq_refl). unfold rd_bytes, SAL_NONCE_SIZE. rewrite decide_True by lia.
      eexists. split; [done|]. rewrite length_take, length_drop. lia.
    - by eexists. }
  rewrite (bind_Ok _ _ _ nonce w1) by (by apply liftR_Ok).
  set (sf := take 4 (in_hdr p)). set (df := take 4 (drop 4 (in_hdr p))).
  rewrite (bind_Ok _ _ _ sf w1)
    by (apply liftR_Ok; unfold rd_bytes; by rewrite decide_True, drop_0 by lia).
  rewrite (bind_Ok _ _ _ df w1) by (apply liftR_Ok; unfold rd_bytes; by rewrite decide_True by lia).
  destruct (lookup_lt_is_Some_2 (in_hdr p) 9) as [proto Hpro]; [lia|].
  rewrite (bind_Ok _ _ _ proto w1) by (apply liftR_Ok; unfold rd8; by rewrite Hpro).
  assert (length sf = 4%nat) as Hsf by (unfold sf; rewrite length_take; lia).
  assert (length df = 4%nat) as Hdf by (unfold df; rewrite length_take, length_drop; lia).
  set (ext := if in_flag p SVH_ACK then _ else _). cbv zeta.
  assert (length (base_header df sf proto ext ++ ext) = 32%nat) as Hlh.
  { unfold base_header. rewrite !length_app.
    assert (length ext = 20%nat) as ->
      by (unfold ext; destruct (in_flag _ _); unfold ctrl_ext_bytes; rewrite !length_app; simpl; lia).
    simpl. lia. }
  destruct (push_ok (length (base_header df sf proto ext ++ ext)) (Skb (replicate max_sal_hdr 0) []))
    as (hr & junk & Hp & Hj & Hhr).
  { simpl. rewrite length_replicate, Hlh. unfold RESET_ROOM in Hroom. lia. }
  rewrite (bind_Ok _ _ _ _ w1 (liftR_Ok _ _ _ Hp)). cbn [headroom].
  destruct (build_and_send_run has_sk (in_daddr p) (in_saddr p) (in_dev p)
    (Skb hr (serval_sal_send_check 0 (base_header df sf proto ext ++ ext))) w1)
    as (err & w2 & Hrun & F1 & F2 & F3 & F4).
  { simpl in *. rewrite length_replicate, Hlh in Hhr. unfold RESET_ROOM in Hroom. lia. }
  rewrite (bind_Ok _ _ _ _ _ Hrun). eexists. split; [done|].
  rewrite F1, F2, F3, E2, E3, E4. do 3 (split; [done|]).
  rewrite E5, E1 in F4. case_match; [|done]. destruct F4 as (sa & ip & F4).
  eexists. split; [exact F4|]. split; [done|]. split; [done|]. fold sf df.
  unfold ext. destruct (in_flag p SVH_ACK).
  - apply (control_frame df sf proto SVH_RST); (done || lia).
  - apply (control_frame df sf proto (Z.lor SVH_RST SVH_ACK)); try (done || lia).
    unfold u32. apply Z.mod_pos_bound. lia.
Qed.
End Reset.

(** ** Drawing a target

    [touched st l se st']: of the table [st] only the entry at [l], now [se],
    and the counters have changed. *)
Definition touched (st : bst) (l : positive) (se : service_entry) (st' : bst) : Prop :=
  same_tree st st' /\ ses (env st') = <[l := se]> (ses (env st)) /\
  socks (env st') = socks (env st) /\ same_stats (env st) (env st').

Section Touched.
Context (st : bst) (l : positive).
Implicit Types (se : service_entry).

Lemma touched_start se : ses (env st) !! l = Some se -> touched st l se st.
Proof.
  intros Hl. split; [done|]. split; [by rewrite insert_id|]. split; [done|].
  split; [lia|done].
Qed.
Lemma touched_load se st' : touched st l se st' -> load_se l st' = Ok (se, st').
Proof. intros (_ & Hs & _). unfold load_se. by rewrite Hs, lookup_insert_eq. Qed.
Lemma touched_set se se' st' :
  touched st l se st' ->
  touched st l se' (set_env (env_with_ses (<[l := se']> (ses (env st'))) (env st')) st').
Proof.
  intros (T1 & T2 & T3 & T4). split; [exact T1|]. simpl. rewrite T2, insert_insert_eq. done.
Qed.
Lemma touched_store se se' st' :
  touched st l se st' ->
  exists st2, store_se l se' st' = Ok (tt, st2) /\ touched st l se' st2.
Proof.
  intros HT. pose proof (touched_set _ se' _ HT) as HT'. destruct HT as (_ & T2 & _).
  eexists. split; [|exact HT']. unfold store_se. by rewrite T2, lookup_insert_eq.
Qed.
Lemma touched_stats se st' p b :
  touched st l se st' ->
  exists st2, modE (tb_add_stats p b) st' = Ok (tt, st2) /\ touched st l se st2.
Proof.
  intros (T1 & T2 & T3 & T4). eexists. split; [done|]. split; [exact T1|].
  unfold tb_add_stats. simpl. by destruct (0 <? p).
Qed.
Lemma touched_add_stats se st' pos t p b :
  touched st l se st' -> target_at (se_sets se) pos = Some t ->
  exists st2, add_stats_at l pos p b st' = Ok (tt, st2) /\
    touched st l (se_add_stats p b (se_with_sets
      (update_target (target_add_stats p b) pos (se_sets se)) (se_count se) se)) st2.
Proof.
  intros HT Ht. unfold add_stats_at. rewrite (bind_Ok _ _ _ _ _ (touched_load _ _ HT)), Ht.
  rewrite (bind_Ok _ _ _ t st') by done.
  destruct (touched_store _ (se_add_stats p b (se_with_sets
      (update_target (target_add_stats p b) pos (se_sets se)) (se_count se) se)) _ HT)
    as (st1 & H1 & HT1).
  rewrite (bind_Ok _ _ _ _ _ H1). by apply touched_stats.
Qed.

(** The reference and the lock that resolution takes are given back. *)
Lemma touched_release se st' k :
  touched st l se st' -> 0 < k < 2 ^ 31 - 1 -> se_refcnt se = k + 1 ->
  exists st2 se2, (service_iter_destroy (ServiceIter l SERVICE_ITER_ANYCAST None None None);;
                   liftE (service_entry_put l)) st' = Ok (tt, st2) /\
    touched st l se2 st2 /\ se_refcnt se2 = k /\ se_readers se2 = se_readers se - 1.
Proof.
  intros HT Hk Hr. unfold service_iter_destroy. cbn [i_entry].
  destruct (touched_store _ (se_with_readers (se_readers se - 1) se) _ HT) as (st1 & H1 & HT1).
  rewrite (bind_Ok _ _ _ tt st1).
  2:{ by rewrite (bind_Ok _ _ _ _ _ (touched_load _ _ HT)). }
  pose proof HT1 as (_ & T2 & _). unfold liftE, service_entry_put. rewrite T2, lookup_insert_eq.
  assert (s32 (se_refcnt (se_with_readers (se_readers se - 1) se) - 1) = k) as ->.
  { change (se_refcnt (se_with_readers (se_readers se - 1) se)) with (se_refcnt se).
    rewrite Hr. replace (k + 1 - 1) with k by lia. unfold s32. rewrite u32_id by lia.
    by rewrite (proj2 (Z.ltb_lt _ _)) by lia. }
  rewrite (proj2 (Z.eqb_neq _ _)) by lia. eexists _, _. split; [done|].
  split; [rewrite <-T2; by eapply touched_set|]. done.
Qed.
End Touched.

(** ** Resolution *)
Section Resolve.
Context {TP : Type} `{SalEnv} `{RcvEnv TP} (ops : af_ops TP).
Implicit Types (w : salw TP) (i : positive) (p : inpkt).

Lemma liftS_Ok {A} (m : SM A) w a t :
  m (svc w) = Ok (a, t) -> liftS m w = Ok (a, w {{ svc := t }}).
Proof. unfold liftS. by intros ->. Qed.
Lemma liftS_same {A} (m : SM A) w a : m (svc w) = Ok (a, svc w) -> liftS m w = Ok (a, w).
Proof. intros Hm. rewrite (liftS_Ok _ _ _ _ Hm). by destruct w. Qed.

(** The rules that count: all of them on a relay, those of local sockets on
    another host. *)
Definition host_rules : rule_match :=
  if sysctl_sal_forward then RULE_MATCH_ANY else RULE_MATCH_LOCAL.

Lemma resolve_none w m i b pt size d ctx e sk0 :
  table_ok (svc w) m -> skbs w !! i = Some b -> c_srv_ext0 ctx = Some e ->
  ctx_inside (Z.to_nat (c_length ctx)) ctx -> 12 <= c_length ctx <= Z.of_nat (length d) ->
  let srvid := take 32 (drop (e + 4) d) in
  selected (svc w) m host_rules (bits_of srvid SERVICE_ID_MAX_PREFIX_BITS) = None ->
  serval_sal_resolve pt size i d ctx sk0 w = Ok ((SAL_RESOLVE_NO_MATCH, 0), w).
Proof.
  intros Hok Hb He (_ & I2 & _) Hlen srvid Hsel. specialize (I2 e He).
  assert (length srvid = 32%nat) as Hsl by (unfold srvid; rewrite length_take, length_drop; lia).
  unfold serval_sal_resolve. rewrite (proj2 (Z.leb_gt _ _)) by (unfold SAL_HEADER_LEN; lia).
  rewrite He. rewrite (bind_Ok _ _ _ srvid w).
  2:{ apply liftR_Ok. unfold rd_bytes. by rewrite decide_True by lia. }
  pose proof (table_find_ok (svc w) m srvid SERVICE_ID_MAX_PREFIX_BITS host_rules Hok) as Hf.
  rewrite Hsel in Hf. specialize (Hf ltac:(rewrite Hsl; done)). unfold host_rules in Hf.
  destruct sysctl_sal_forward.
  - unfold serval_sal_resolve_service.
    rewrite (bind_Ok _ _ _ b w) by (unfold skb_load; by rewrite Hb).
    by rewrite (bind_Ok _ _ _ None w) by (by apply liftS_same).
  - destruct (lookup_lt_is_Some_2 d 9) as [pr Hpr]; [lia|].
    rewrite (bind_Ok _ _ _ pr w) by (apply liftR_Ok; unfold rd8; by rewrite Hpr).
    rewrite (bind_Ok _ _ _ None w); [done|]. apply liftS_same.
    unfold service_table_find_sock. by rewrite (bind_Ok _ _ _ _ _ Hf).
Qed.

Lemma selected_entry st m rm key l :
  table_ok st m -> selected st m rm key = Some l ->
  exists n se, ses (env st) !! l = Some se /\ entry_good (socks (env st)) n se.
Proof.
  intros Hok Hsel. unfold selected in Hsel.
  destruct (lpm _ _ _) as [[k [n l']]|] eqn:Hlpm; [|done].
  apply lpm_sound in Hlpm as (Hk & _ & _).
  destruct (_ || _); [|done]. injection Hsel as ->.
  destruct (tk_entry _ _ Hok _ _ _ Hk) as (se & Hl & Hg). by exists n, se.
Qed.

(** The rule that applies to a packet for [srvid]: the entry at [l], and the
    target [t] of its first set that the random number [r] selects. *)
Record drawn (st : bst) (m : gmap (list bool) (positive * positive)) (srvid : list Z)
    (r : Z) (l : positive) (se : service_entry) (ti : nat) (t : target) : Prop := Drawn {
  dr_table : table_ok st m;
  dr_sel : selected st m RULE_MATCH_ANY (bits_of srvid SERVICE_ID_MAX_PREFIX_BITS) = Some l;
  dr_entry : ses (env st) !! l = Some se;
  dr_set : exists set rest, se_sets se = set :: rest /\
    Z.land (s_flags set) SVSF_MULTICAST = 0 /\
    pick_sample (draw_sample r (s_normalizer set)) (s_list set) 0 0 = ti /\
    s_list set !! ti = Some t;
}.

Definition same_rule (t t' : target) : Prop :=
  t_type t' = t_type t /\ t_out t' = t_out t /\ t_dst t' = t_dst t.

Lemma add_stats_rule (n k : Z) t : same_rule t (target_add_stats n k t).
Proof. unfold target_add_stats. by destruct (0 <? n). Qed.

(** Up to the loop: the entry is held and locked once more, the target drawn
    and counted. *)
Lemma draw_run st m srvid r l se ti t n :
  drawn st m srvid r l se ti t -> length srvid = 32%nat ->
  exists st1 st2 st3 se3 t3,
    service_find (Some srvid) SERVICE_ID_MAX_PREFIX_BITS st = Ok (Some l, st1) /\
    service_iter_init l SERVICE_ITER_ANYCAST r st1 =
      Ok ((0, ServiceIter l SERVICE_ITER_ANYCAST None (Some (0%nat, ti)) None), st2) /\
    service_iter_next (ServiceIter l SERVICE_ITER_ANYCAST None (Some (0%nat, ti)) None) st2 =
      Ok ((Some (0%nat, ti),
           ServiceIter l SERVICE_ITER_ANYCAST None None (Some (0%nat, ti))), st2) /\
    service_iter_inc_stats
      (ServiceIter l SERVICE_ITER_ANYCAST None None (Some (0%nat, ti))) 1 n st2 = Ok (tt, st3) /\
    touched st l se3 st3 /\ se_refcnt se3 = se_refcnt se + 1 /\
    se_readers se3 = se_readers se + 1 /\
    target_at (se_sets se3) (0%nat, ti) = Some t3 /\ same_rule t t3 /\
    0 < se_refcnt se < 2 ^ 31 - 1.
Proof.
  intros [Hok Hsel Hl (set & rest & Hset & Hmc & Hti & Ht)] Hlen.
  destruct (selected_entry _ _ _ _ _ Hok Hsel) as (nd & se' & Hl' & Hg).
  rewrite Hl in Hl'. injection Hl' as <-. destruct Hg as (_ & [_ Hcnt] & _ & _ & Hrc & Hnt).
  pose proof (table_find_ok st m srvid SERVICE_ID_MAX_PREFIX_BITS RULE_MATCH_ANY Hok
    ltac:(rewrite Hlen; done)) as Hf. rewrite Hsel in Hf. destruct Hf as (se' & Hl' & Hf).
  rewrite Hl in Hl'. injection Hl' as <-.
  set (se1 := se_with_refcnt (se_refcnt se + 1) se) in *.
  set (st1 := set_env _ st) in Hf.
  assert (touched st l se1 st1) as T1 by (eapply touched_set, touched_start; exact Hl).
  destruct (touched_store _ _ _ (se_with_readers (se_readers se1 + 1) se1) _ T1)
    as (st2 & H2 & T2). set (se2 := se_with_readers _ se1) in *.
  assert (target_at (se_sets se2) (0%nat, ti) = Some t) as Hta.
  { unfold target_at. simpl. by rewrite Hset. }
  destruct (touched_add_stats _ _ _ _ _ t 1 n T2 Hta) as (st3 & H3 & T3).
  assert (se_count se <> 0) as Hc0.
  { assert (0 < n_targets (se_sets se))%nat.
    { rewrite Hset. unfold n_targets. simpl. apply lookup_lt_Some in Ht. lia. }
    rewrite Hcnt, u32_id by lia. lia. }
  eexists st1, st2, st3, _, (target_add_stats 1 n t).
  split; [exact Hf|]. split.
  { unfold service_iter_init. rewrite (bind_Ok _ _ _ _ _ (touched_load _ _ _ _ T1)).
    rewrite (bind_Ok _ _ _ _ _ H2). change (se_sets se1) with (se_sets se). rewrite Hset.
    change (se_count se1) with (se_count se). rewrite (proj2 (Z.eqb_neq _ _)) by done.
    rewrite bool_decide_eq_true_2, Hmc by done. simpl. by rewrite Hti. }
  split.
  { unfold service_iter_next. cbn [i_entry i_pos i_set i_mode].
    by rewrite (bind_Ok _ _ _ _ _ (touched_load _ _ _ _ T2)). }
  split; [exact H3|]. split; [exact T3|]. split; [done|]. split; [done|].
  split; [|split; [apply add_stats_rule|done]].
  cbn. rewrite Hset. cbn. by rewrite list_lookup_alter_eq, Ht.
Qed.

(** The worlds that resolution goes through differ from [w] in the service
    table and the random numbers. *)
Definition same_but_svc w w' : Prop :=
  sk w' = sk w /\ skbs w' = skbs w /\ sent w' = sent w /\ next_skb w' = next_skb w /\
  skb_allocs w' = skb_allocs w /\ net_results w' = net_results w.

Definition next_rand w : Z := default 0 (head (rands w)).
Lemma pop_rand_run w :
  exists w', pop_rand w = Ok (next_rand w, w') /\ same_but_svc w w' /\ svc w' = svc w.
Proof.
  unfold pop_rand, next_rand. destruct (rands w); eexists; (split; [done|]); by split_and!.
Qed.

(** The iterator once its target has been returned, and after the loop asked
    for the next one. *)
Definition iter1 (l : positive) (ti : nat) : service_iter :=
  ServiceIter l SERVICE_ITER_ANYCAST None None (Some (0%nat, ti)).
Definition iter2 (l : positive) : service_iter :=
  ServiceIter l SERVICE_ITER_ANYCAST None None None.

(** What follows the loop. *)
Definition resolve_end (l : positive) (data_len : Z)
    (res : sal_resolution * Z * Z * service_iter) : SALM TP (sal_resolution * Z)%type :=
  let '(err, num_forward, sk, iter) := res in
  (if num_forward =? 0
   then liftS (service_iter_inc_stats iter (-1) (s32 (- data_len)))
   else mret tt);;
  liftS (service_iter_destroy iter);;
  liftS (liftE (service_entry_put l));;
  mret (err, sk).

Lemma resolve_start w m i b pt size ctx srvid l se ti t :
  skbs w !! i = Some b -> drawn (svc w) m srvid (next_rand w) l se ti t ->
  length srvid = 32%nat ->
  exists w1 se3 t3 k, same_but_svc w w1 /\ touched (svc w) l se3 (svc w1) /\
    se_refcnt se3 = se_refcnt se + 1 /\ se_readers se3 = se_readers se + 1 /\
    target_at (se_sets se3) (0%nat, ti) = Some t3 /\ same_rule t t3 /\
    0 < se_refcnt se < 2 ^ 31 - 1 /\
    serval_sal_resolve_service pt size i ctx srvid w =
    (res ← resolve_loop (S k) pt size i ctx (iter1 l ti) (Some (0%nat, ti)) (c_length ctx) 0
             SAL_RESOLVE_NO_MATCH;
     resolve_end l (u32 (Z.of_nat (length (data (skb_buf b))) - c_length ctx)) res) w1.
Proof.
  intros Hb Hd Hlen. set (n := u32 (Z.of_nat (length (data (skb_buf b))) - c_length ctx)).
  destruct (draw_run _ _ _ _ _ _ _ _ (s32 n) Hd Hlen)
    as (st1 & st2 & st3 & se3 & t3 & H1 & H2 & H3 & H4 & T3 & R1 & R2 & Ht3 & Hr & Hrc).
  destruct (pop_rand_run (w {{ svc := st1 }})) as (w' & Hp & Hs & Hsvc).
  exists (w' {{ svc := st3 }}), se3, t3, (n_targets (se_sets se3)).
  split; [destruct Hs as (?&?&?&?&?&?); by split_and!|].
  do 6 (split; [done|]). unfold serval_sal_resolve_service.
  rewrite (bind_Ok _ _ _ b w) by (unfold skb_load; by rewrite Hb). cbv beta zeta. fold n.
  rewrite (bind_Ok _ _ _ _ _ (liftS_Ok _ _ _ _ H1)).
  rewrite (bind_Ok _ _ _ _ _ Hp).
  change (next_rand (w {{ svc := st1 }})) with (next_rand w).
  rewrite (bind_Ok _ _ _ _ (w' {{ svc := st2 }}))
    by (eapply liftS_Ok; rewrite Hsvc; exact H2).
  cbv beta iota. change (0 <? 0) with false. cbv iota.
  rewrite (bind_Ok _ _ _ _ (w' {{ svc := st2 }}))
    by (apply liftS_same; exact H3).
  cbv beta iota.
  rewrite (bind_Ok _ _ _ tt (w' {{ svc := st3 }})).
  2:{ exact (liftS_Ok _ (w' {{ svc := st2 }}) _ _ H4). }
  rewrite (bind_Ok _ _ _ se3 (w' {{ svc := st3 }})).
  2:{ apply liftS_same. by apply (touched_load _ _ _ _ T3). }
  rewrite Nat.add_1_r. unfold mbind, M_bind.
  destruct (resolve_loop _ _ _ _ _ _ _ _ _ _ _) as [[[[[??]?]?] ?]| |]; done.
Qed.

(** One round of the loop: an anycast iterator has one target only. *)
Lemma loop_step st w1 i b pt size ctx l ti se3 t3 protocol hl k :
  touched st l se3 (svc w1) -> target_at (se_sets se3) (0%nat, ti) = Some t3 ->
  skbs w1 !! i = Some b -> rd8 (data (skb_buf b)) 9 = Ok protocol ->
  resolve_loop (S k) pt size i ctx (iter1 l ti) (Some (0%nat, ti)) hl 0
    SAL_RESOLVE_NO_MATCH w1 =
  (match t_type t3 with
   | SERVICE_RULE_DEMUX =>
       liftS (liftE (sock_hold (t_out t3)));; mret (SAL_RESOLVE_DEMUX, 1, t_out t3, iter2 l)
   | SERVICE_RULE_DELAY => faultM
   | SERVICE_RULE_DROP => mret (SAL_RESOLVE_DROP, 1, 0, iter2 l)
   | _ =>
       if is_broadcast pt then mret (SAL_RESOLVE_DROP, 0, 0, iter2 l)
       else
         match dev_addr (oif_of (t_out t3)) with
         | None => mret (SAL_RESOLVE_DROP, 0, 0, iter2 l)
         | Some _ =>
             skb_store i (b {{ skb_dev := oif_of (t_out t3) }});;
             '(_, n) ← forward_copy hard_header_len size i i ctx (data (skb_buf b)) protocol
                         (t_dst t3) hl;
             mret (SAL_RESOLVE_FORWARD, n, 0, iter2 l)
         end
   end) w1.
Proof.
  intros HT Ht Hb Hp. cbn [resolve_loop].
  rewrite (bind_Ok _ _ _ b w1) by (unfold skb_load; by rewrite Hb).
  rewrite (bind_Ok _ _ _ protocol w1) by (by apply liftR_Ok).
  rewrite (bind_Ok _ _ _ (None, iter2 l) w1).
  2:{ apply liftS_same. unfold service_iter_next. cbn [i_entry iter1 i_pos].
      by rewrite (bind_Ok _ _ _ _ _ (touched_load _ _ _ _ HT)). }
  cbv beta iota.
  rewrite (bind_Ok _ _ _ se3 w1) by (apply liftS_same, (touched_load _ _ _ _ HT)).
  rewrite Ht, (bind_Ok _ _ _ t3 w1) by done.
  assert (forall X : SALM TP (sal_resolution * Z * Z * service_iter)%type,
    (delay_queue_null;; X) w1 = Fault) as Hdelay.
  { intros X. unfold delay_queue_null, mbind, M_bind, alloc_result. by destruct (skb_allocs w1). }
  destruct (t_type t3); try done; destruct (is_broadcast pt); try done.
  all: rewrite bind_ret; destruct (dev_addr _); [|done].
  all: rewrite (bind_Ok _ _ _ b w1) by (unfold skb_load; by rewrite Hb).
  all: unfold mbind, M_bind; destruct (skb_store _ _ _) as [[? ?]| |]; try done.
  all: destruct (forward_copy _ _ _ _ _ _ _ _ _ _) as [[[? ?] ?]| |]; try done.
  all: by destruct k.
Qed.

(** After the loop the entry is as it was, apart from its counters. *)
Lemma resolve_end_run st w1 l n err num sk0 se3 k :
  touched st l se3 (svc w1) -> 0 < k < 2 ^ 31 - 1 -> se_refcnt se3 = k + 1 ->
  exists w2 se4, resolve_end l n (err, num, sk0, iter2 l) w1 = Ok ((err, sk0), w2) /\
    same_but_svc w1 w2 /\ touched st l se4 (svc w2) /\ se_refcnt se4 = k /\
    se_readers se4 = se_readers se3 - 1.
Proof.
  intros HT Hk Hr. unfold resolve_end.
  assert (exists w1' se3', (if num =? 0
     then liftS (service_iter_inc_stats (iter2 l) (-1) (s32 (- n))) else mret tt) w1 = Ok (tt, w1') /\
    same_but_svc w1 w1' /\ touched st l se3' (svc w1') /\ se_refcnt se3' = se_refcnt se3 /\
    se_readers se3' = se_readers se3) as (w1' & se3' & H1 & S1 & T1 & R1 & R2).
  { destruct (num =? 0); [|by exists w1, se3; split_and!].
    destruct (touched_store _ _ _ (se_add_stats (-1) (s32 (- n)) se3) _ HT) as (st2 & H2 & T2).
    destruct (touched_stats _ _ _ _ (-1) (s32 (- n)) T2) as (st3 & H3 & T3).
    exists (w1 {{ svc := st3 }}), (se_add_stats (-1) (s32 (- n)) se3).
    split; [|by split_and!]. apply liftS_Ok. unfold service_iter_inc_stats. cbn [iter2 i_last_pos i_entry].
    change (0 <? -1) with false. cbv iota.
    rewrite (bind_Ok _ _ _ _ _ (touched_load _ _ _ _ HT)). by rewrite (bind_Ok _ _ _ _ _ H2). }
  rewrite (bind_Ok _ _ _ _ _ H1). rewrite <-R1 in Hr.
  destruct (touched_release st l se3' (svc w1') k T1 Hk Hr) as (st2 & se4 & Hrun & T4 & Q1 & Q2).
  apply bind_Ok_inv in Hrun as ([] & sta & Ha & Hb).
  exists (w1' {{ svc := st2 }}), se4. split; [|split; [|by rewrite Q2, R2]].
  - rewrite (bind_Ok _ _ _ _ _ (liftS_Ok _ _ _ _ Ha)).
    erewrite bind_Ok; [reflexivity|]. exact (liftS_Ok _ (w1' {{ svc := sta }}) _ _ Hb).
  - destruct S1 as (?&?&?&?&?&?). by split_and!.
Qed.

(** The packet belongs to no connection. *)
Record no_flow w (d : list Z) : Prop := NoFlow {
  nf_own : in_table (sk w) && bool_decide (local_flowid (sk w) = take 4 (drop 4 d)) = false;
  nf_other : other_flow (take 4 (drop 4 d)) = None;
}.
Lemma demux_flow_none w d ctx :
  no_flow w d -> ctx_inside (length d) ctx -> (12 <= length d)%nat ->
  serval_sal_demux_flow d ctx w = Ok (None, w).
Proof.
  intros [F1 F2] (I1 & _) Hl. unfold serval_sal_demux_flow.
  assert (exists syn, (match c_ctrl_ext ctx with
    | None => mret false
    | Some e => b2 ← liftR (rd8 d (e + 2)); mret (Z.testbit b2 7 && negb (Z.testbit b2 5))
    end : SALM TP bool) w = Ok (syn, w)) as [syn Hsyn].
  { destruct (c_ctrl_ext ctx) as [e|] eqn:He; [|by eexists]. specialize (I1 e eq_refl).
    destruct (lookup_lt_is_Some_2 d (e + 2)) as [b2 Hb2]; [lia|].
    eexists. by rewrite (bind_Ok _ _ _ b2 w) by (apply liftR_Ok; unfold rd8; by rewrite Hb2). }
  rewrite (bind_Ok _ _ _ _ _ Hsyn). destruct syn; [done|].
  rewrite (bind_Ok _ _ _ (take 4 (drop 4 d)) w).
  2:{ apply liftR_Ok. unfold rd_bytes. by rewrite decide_True by lia. }
  unfold serval_sock_lookup_flow. rewrite (bind_Ok _ _ _ (sk w) w) by done.
  by rewrite F1, F2.
Qed.

(** Holding a socket of the table. *)
Lemma touched_hold st l se st' k s :
  touched st l se st' -> socks (env st) !! k = Some s ->
  exists e' st2, sock_hold k (env st) = Ok e' /\
    liftE (sock_hold k) st' = Ok (tt, st2) /\ touched (set_env e' st) l se st2.
Proof.
  intros (T1 & T2 & T3 & T4) Hk. unfold liftE, sock_hold. rewrite T3, Hk.
  eexists _, _. split; [done|]. split; [done|].
  destruct T1 as (?&?&?&?). split; [by split_and!|]. simpl. done.
Qed.
End Resolve.
