(* ===== verification/RcvClaims.v ===== *)
(** * Reception: the main theorems *)
From S2P Require Import Prelude Bst BstRep BstFind BstInsert BstRemove BstHistory ServiceEntry ServiceTable.
From S2P Require Import ServiceInv ServiceRefine ServiceAdd ServiceDel ServiceClaims SalHdr Checksum.
From S2P Require Import SalSock Rto DelayQueue Sal SalCtrl SalState SalListen Udp.
From S2P Require Import SalHdrProps SalInv SalStep SalMachine UdpSession.
From S2P Require Import SalFwd SalFwdOk SalRelay RelayClaims SalRcv SalRcvOk.
Local Open Scope Z_scope.

(** A header that fails one of the checks: too short, longer than the packet,
    not well-formed, or with a wrong checksum. *)
Definition bad_header (d : list Z) : Prop :=
  (length d < SAL_HEADER_LEN)%nat \/
  (exists shl, d !! 8%nat = Some shl /\ Z.of_nat (length d) < 4 * shl) \/
  (exists r ctx, serval_sal_parse_hdr d SAL_PARSE_ALL = Ok (r, ctx) /\
     (r <> 0 \/ serval_sal_csum 0 d (Z.to_nat (c_length ctx)) <> 0)).

Lemma bad_header_checks u d : bad_header d -> exists n, rcv_checks u d = Ok (inr n).
Proof.
  intros Hbad. unfold rcv_checks.
  destruct (Nat.ltb_spec (length d) SAL_HEADER_LEN) as [|Hl]; [by eexists|].
  unfold SAL_HEADER_LEN in *. destruct (lookup_lt_is_Some_2 d 8) as [shl H8]; [lia|].
  rewrite (obind_Ok _ _ shl) by (unfold rd8; by rewrite H8).
  assert (Z.shiftl shl 2 = 4 * shl) as -> by (rewrite Z.shiftl_mul_pow2; lia).
  destruct (_ && _) eqn:Hlen; [by eexists|].
  destruct Hbad as [?|[(s & Hs & Hlt)|(r & ctx & Hp & Hr)]]; [unfold SAL_HEADER_LEN in *; lia| |].
  { rewrite H8 in Hs. injection Hs as <-.
    apply andb_false_iff in Hlen as [?%Z.ltb_ge|?%Z.ltb_ge]; lia. }
  rewrite (obind_Ok _ _ _ Hp).
  assert (negb (r =? 0) || negb (serval_sal_csum 0 d (Z.to_nat (c_length ctx)) =? 0) = true) as ->.
  { apply orb_true_iff. destruct Hr; [left|right]; by apply negb_true_iff, Z.eqb_neq. }
  by eexists.
Qed.

Section Claims.
Context {TP : Type} `{SalEnv} `{RcvEnv TP} (ops : af_ops TP).

(** A packet whose header fails a check is freed and counted as
    dropped; nothing is sent, and no socket, buffer or rule changes. *)
Theorem rcv_bad_dropped pt size i (w : salw TP) b :
  skbs w !! i = Some b -> skb_owned b = false -> bad_header (data (skb_buf b)) ->
  exists n, serval_sal_rcv ops pt size i w =
    Ok (NET_RX_DROP,
        w {{ skbs ::= delete i; svc := set_env (tb_add_stats (-1) n (env (svc w))) (svc w) }}).
Proof.
  intros Hb Ho Hbad. destruct (bad_header_checks uninit _ Hbad) as [n Hn].
  rewrite (rcv_checked ops pt size i w b Hb), Hn. eexists. by apply rcv_drop_run.
Qed.

(** A packet that passed the checks, with the IP header [ip] in front of it, and
    belongs to no connection. *)
Record for_service (w : salw TP) (size : nat) (i : positive) (b : sal_skb) (ip : list Z)
    (ctx : sal_context) (e : nat) : Prop := ForService {
  fs_skb : skbs w !! i = Some b;
  fs_own : skb_owned b = false;
  fs_ip : ip_hdr size (skb_buf b) = Ok ip;
  fs_checks : rcv_checks uninit (data (skb_buf b)) = Ok (inl ctx);
  fs_bytes : bytes_ok (data (skb_buf b));
  fs_srv : c_srv_ext0 ctx = Some e;
  fs_flow : no_flow w (data (skb_buf b));
}.
Definition packet_of (b : sal_skb) (ip : list Z) (ctx : sal_context) : inpkt :=
  InPkt ctx (data (skb_buf b)) (le32 (ip_saddr ip)) (le32 (ip_daddr ip)) (skb_dev b).
(** The service identifier in the extension at [e]. *)
Definition srvid_of (b : sal_skb) (e : nat) : list Z := take 32 (drop (e + 4) (data (skb_buf b))).

Lemma rcv_resolves w size i b ip ctx e pt :
  for_service w size i b ip ctx e ->
  serval_sal_rcv ops pt size i w =
  ('(res, sk) ← serval_sal_resolve pt size i (data (skb_buf b)) ctx 0;
   rcv_resolved ops pt i ctx (packet_of b ip ctx) res sk) w.
Proof.
  intros [Hb Ho Hip Hck Hby Hsrv Hnf].
  destruct (rcv_checks_ok _ _ _ Hck) as (_ & _ & _ & Hin & Hlen).
  rewrite (rcv_checked ops pt size i w b Hb), Hck.
  rewrite (bind_Ok _ _ _ (packet_of b ip ctx) w).
  2:{ apply liftR_Ok. unfold ip_packet. by rewrite (obind_Ok _ _ _ Hip). }
  unfold rcv_dispatch.
  by rewrite (bind_Ok _ _ _ None w) by (apply demux_flow_none; done || lia).
Qed.

(** C40 (functional): a packet that passed the checks of its header, belongs to
    no connection and is for a service for which the host has no rule is dropped:
    it is freed, and the socket and the other buffers stay as they are.  If it
    opens a connection (SYN without ACK) or is a reset itself, or if there is no
    memory for a reply or the device refuses it, nothing is sent.  Otherwise
    exactly one frame is sent: a reset that goes back to its source through the
    same device, with the flow identifiers exchanged; it has the packet's
    acknowledged number, or acknowledges the packet's number if that acknowledged
    nothing.  A control packet buffer has room for the reset and the IP header. *)
Theorem rcv_unknown_service pt size i (w : salw TP) b ip ctx e m :
  for_service w size i b ip ctx e -> table_ok (svc w) m ->
  selected (svc w) m host_rules (bits_of (srvid_of b e) SERVICE_ID_MAX_PREFIX_BITS) = None ->
  (RESET_ROOM <= max_sal_hdr)%nat ->
  let p := packet_of b ip ctx in
  let opens := in_flag p SVH_SYN && negb (in_flag p SVH_ACK) in
  exists w', serval_sal_rcv ops pt size i w = Ok (NET_RX_DROP, w') /\
    sk w' = sk w /\ skbs w' = delete i (skbs w) /\
    if opens || is_reset p || negb (can_reply w) then sent w' = sent w
    else exists f, sent w' = sent w ++ [f] /\ answers p f.
Proof.
  intros Hfs Hok Hsel Hrep p opens. rewrite (rcv_resolves _ _ _ _ _ _ _ pt Hfs).
  destruct Hfs as [Hb Ho Hip Hck Hby Hsrv Hnf].
  destruct (rcv_checks_ok _ _ _ Hck) as (Hp & _ & Hin & Hind & Hlen).
  rewrite (bind_Ok _ _ _ (SAL_RESOLVE_NO_MATCH, 0) w)
    by (by eapply (resolve_none w m i b pt size (data (skb_buf b)) ctx e)).
  unfold rcv_resolved. change (negb (0 =? 0)) with false. cbv iota. fold p.
  change (flag_set (c_flags ctx) SVH_SYN && negb (flag_set (c_flags ctx) SVH_ACK)) with opens.
  destruct opens; cbn [orb].
  - rewrite !bind_ret, (rcv_drop_run _ _ _ _ Hb Ho). eexists. split; [done|]. by split_and!.
  - destruct (send_reset_run false w i p) as (w1 & Hrun & S1 & S2 & S3 & S4);
      [done|simpl; lia|by apply (parse_hdr_seqs _ _ _ _ Hby Hp)|done|].
    rewrite (bind_Ok _ _ _ _ _ Hrun), bind_ret, (rcv_drop_run _ _ w1 b) by (rewrite ?S2; done).
    eexists. split; [done|]. rsimp. rewrite S1, S2. split; [done|]. by split.
Qed.
(** ** Relays: resolution by the rule drawn for the packet *)
Lemma resolve_drawn pt size i (w : salw TP) b ip ctx e m l se ti t :
  for_service w size i b ip ctx e -> sysctl_sal_forward = true ->
  drawn (svc w) m (srvid_of b e) (next_rand w) l se ti t ->
  exists w1 se3 t3 n k, same_but_svc w w1 /\ touched (svc w) l se3 (svc w1) /\
    se_refcnt se3 = se_refcnt se + 1 /\ se_readers se3 = se_readers se + 1 /\
    target_at (se_sets se3) (0%nat, ti) = Some t3 /\ same_rule t t3 /\
    0 < se_refcnt se < 2 ^ 31 - 1 /\
    serval_sal_rcv ops pt size i w =
    (res ← resolve_loop (S k) pt size i ctx (iter1 l ti) (Some (0%nat, ti)) (c_length ctx) 0
             SAL_RESOLVE_NO_MATCH;
     '(res, sk) ← resolve_end l n res;
     rcv_resolved ops pt i ctx (packet_of b ip ctx) res sk) w1.
Proof.
  intros Hfs Hfwd Hd. rewrite (rcv_resolves _ _ _ _ _ _ _ pt Hfs).
  destruct Hfs as [Hb Ho Hip Hck Hby Hsrv Hnf].
  destruct (rcv_checks_ok _ _ _ Hck) as (_ & _ & (_ & I2 & _) & _ & Hlen).
  specialize (I2 e Hsrv).
  assert (length (srvid_of b e) = 32%nat) as Hsl
    by (unfold srvid_of; rewrite length_take, length_drop; lia).
  destruct (resolve_start w m i b pt size ctx _ l se ti t Hb Hd Hsl)
    as (w1 & se3 & t3 & k & H1 & H2 & H3 & H4 & H5 & H6 & H7 & Hrun).
  eexists w1, se3, t3, _, k. do 7 (split; [done|]).
  assert (serval_sal_resolve pt size i (data (skb_buf b)) ctx 0 w
          = serval_sal_resolve_service pt size i ctx (srvid_of b e) w) as Hres.
  { unfold serval_sal_resolve. rewrite (proj2 (Z.leb_gt _ _)) by (unfold SAL_HEADER_LEN; lia).
    rewrite Hsrv, (bind_Ok _ _ _ (srvid_of b e) w), Hfwd; [done|].
    apply liftR_Ok. unfold rd_bytes. by rewrite decide_True by lia. }
  unfold mbind, M_bind in *. rewrite Hres, Hrun.
  by destruct (resolve_loop _ _ _ _ _ _ _ _ _ _ _) as [[? ?]| |].
Qed.

(** Rules under which a relay discards a packet. *)
Definition discards (pt : packet_type) (t : target) : Prop :=
  t_type t = SERVICE_RULE_DROP \/
  t_type t = SERVICE_RULE_FORWARD /\
    (pt = PACKET_BROADCAST \/ dev_addr (oif_of (t_out t)) = None).

(** A relay that draws for a packet a DROP rule, or a FORWARD
    rule when the packet is a broadcast or the interface of the rule is gone,
    frees the packet, sends nothing and keeps its rules. *)
Theorem rcv_relay_discards pt size i (w : salw TP) b ip ctx e m l se ti t :
  for_service w size i b ip ctx e -> sysctl_sal_forward = true ->
  drawn (svc w) m (srvid_of b e) (next_rand w) l se ti t -> discards pt t ->
  exists w' se', serval_sal_rcv ops pt size i w = Ok (NET_RX_DROP, w') /\
    sk w' = sk w /\ sent w' = sent w /\ skbs w' = delete i (skbs w) /\
    touched (svc w) l se' (svc w') /\
    se_refcnt se' = se_refcnt se /\ se_readers se' = se_readers se.
Proof.
  intros Hfs Hfwd Hd Ht.
  destruct (resolve_drawn pt _ _ _ _ _ _ _ _ _ _ _ _ Hfs Hfwd Hd)
    as (w1 & se3 & t3 & n & k & S1 & HT & R1 & R2 & H3 & (Q1 & Q2 & Q3) & Hk & ->).
  destruct Hfs as [Hb Ho Hip Hck Hby Hsrv Hnf].
  destruct (rcv_checks_ok _ _ _ Hck) as (_ & _ & _ & _ & Hlen).
  destruct S1 as (A1 & A2 & A3 & _).
  destruct (lookup_lt_is_Some_2 (data (skb_buf b)) 9) as [pr Hpr]; [lia|].
  assert (exists num, resolve_loop (S k) pt size i ctx (iter1 l ti) (Some (0%nat, ti))
    (c_length ctx) 0 SAL_RESOLVE_NO_MATCH w1 = Ok ((SAL_RESOLVE_DROP, num, 0, iter2 l), w1))
    as [num Hloop].
  { erewrite (loop_step (svc w) w1 i b) with (protocol := pr);
      [|done|done|by rewrite A2|unfold rd8; by rewrite Hpr].
    rewrite Q1, Q2. destruct Ht as [-> | (-> & [-> | ->])]; [by eexists| |]; [by eexists|].
    destruct (is_broadcast pt); by eexists. }
  rewrite (bind_Ok _ _ _ _ _ Hloop).
  destruct (resolve_end_run (svc w) w1 l n SAL_RESOLVE_DROP num 0 se3 (se_refcnt se) HT Hk R1)
    as (w2 & se4 & Hend & (B1 & B2 & B3 & _) & HT2 & C1 & C2).
  rewrite (bind_Ok _ _ _ _ _ Hend). unfold rcv_resolved. rewrite bind_ret.
  change (negb (0 =? 0)) with false. cbv iota. rewrite bind_ret.
  rewrite (rcv_drop_run i (c_length ctx) w2 b) by (rewrite ?B2, ?A2; done).
  eexists _, se4. split; [done|]. rsimp. rewrite B1, B2, B3, A1, A2, A3.
  do 3 (split; [done|]). split; [|split; [done|lia]].
  destruct (touched_stats (svc w) l se4 (svc w2) (-1)
    (s32 (- (Z.of_nat (length (data (skb_buf b))) - c_length ctx))) HT2) as (st2 & Hst & HT3).
  injection Hst as <-. exact HT3.
Qed.
(** C39 (functional): a relay that draws a FORWARD rule for a packet whose
    route it is not part of sends the packet on: from the checks of the header
    to the device, the one frame that is sent goes to the destination of the
    rule through its interface and carries the packet with the route extended by
    the relay; the buffer, the reference and the lock of the rule are given back.
    The packet belongs to no connection, was not broadcast, and has a header the
    relay can extend ([to_forward]: the source extension last, at most 61
    addresses, at most 1020 bytes with one more) and a payload that reaches the
    end of its transport checksum; forwarding is switched on; the rule's interface
    exists and takes the packet; and either there is room in front of the packet
    for the address, the IP header and the link header, or the packet has no
    source extension yet and there is memory for a larger buffer.  A packet with
    an extension and no room is used after it was freed ([relay_use_after_free]). *)
Theorem rcv_relay_forwards pt i (w : salw TP) b hr ip hlen lf pf proto exts addrs payload ctx
    e m l se ti t wn :
  let ctx0 := routed_ctx exts addrs ctx in
  let b' := b {{ skb_dev := oif_of (t_out t) }} in
  for_service w (length ip) i b ip ctx0 e -> sysctl_sal_forward = true ->
  drawn (svc w) m (srvid_of b e) (next_rand w) l se ti t ->
  t_type t = SERVICE_RULE_FORWARD -> pt <> PACKET_BROADCAST ->
  dev_addr (oif_of (t_out t)) <> None -> (4 <= length (t_dst t))%nat ->
  to_forward hard_header_len (w {{ skbs ::= <[i := b']> }}) i b' hr ip (data (skb_buf b)) hlen
    lf pf proto exts addrs payload ctx ->
  ip_daddr ip ∉ addrs ->
  ((room addrs + length ip + hlen <= length hr)%nat \/
   addrs = [] /\ head (skb_allocs w) <> Some false) ->
  net_result w = Ok (0, wn) -> holds_csum proto payload ->
  exists w' f se', serval_sal_rcv ops pt (length ip) i w = Ok (NET_RX_SUCCESS, w') /\
    sk w' = sk w /\ sent w' = sent w ++ [f] /\ skbs w' = delete i (skbs w) /\
    relayed_to lf pf proto exts (passed (ip_saddr ip) (ip_daddr ip) addrs) payload ip
      (t_dst t) (oif_of (t_out t)) f /\
    touched (svc w) l se' (svc w') /\
    se_refcnt se' = se_refcnt se /\ se_readers se' = se_readers se.
Proof.
  intros ctx0 b' Hfs Hfwd Hd Ht Hpt Hdev Hdst Htf Hin Hmem Hnet Hcs.
  destruct (update_csum_run proto (put_bytes 16 (take 4 (t_dst t)) ip) payload Hcs)
    as [payload' Hsum].
  destruct (resolve_drawn pt _ _ _ _ _ _ _ _ _ _ _ _ Hfs Hfwd Hd)
    as (w1 & se3 & t3 & n & k & S1 & HT & R1 & R2 & H3 & (Q1 & Q2 & Q3) & Hk & ->).
  destruct Hfs as [Hb Ho Hip Hck Hby Hsrv Hnf].
  destruct S1 as (A1 & A2 & A3 & A4 & A5 & A6).
  destruct Htf as [T1 T2 T3 T4 T5 T6 T7 T8 T9 (T10 & T11 & T12) (T13 & T14)].
  set (w2 := w1 {{ skbs ::= <[i := b']> }}).
  assert (skbs w2 !! i = Some b') as Hi2 by apply lookup_insert_eq.
  assert (next_skb w2 <> i) as Hn2 by (unfold w2; rsimp; by rewrite A4).
  assert (skbs w2 !! next_skb w2 = None) as Hf2 by (unfold w2; rsimp; by rewrite A2, A4).
  assert (exists wn2, net_result w2 = Ok (0, wn2)) as [wn2 Hnet2].
  { revert Hnet. unfold net_result, w2. rsimp. rewrite A6.
    destruct (net_results w); [by eexists|]. intros [= -> _]. by eexists. }
  destruct (relay_delivers hard_header_len w2 i b' hr ip (data (skb_buf b)) hlen lf pf proto exts
    addrs payload ctx Hi2 T2 T3 T4 T5 T6 (proj1 (proj2 T7)) T8 T9 (t_dst t) payload' wn2)
    as (h & w3 & Hrun); [done..| |done|done|].
  { unfold w2. rsimp. by rewrite A5. }
  destruct (relay_forwards hard_header_len w2 i b' hr ip (data (skb_buf b)) hlen lf pf proto exts
    addrs payload ctx Hi2 T2 T3 T4 T5 T6 (proj1 (proj2 T7)) T8 T9 (t_dst t) h w3)
    as [_ (f & F1 & F2 & (F3 & F4) & F5)]; [done..|].
  assert (resolve_loop (S k) pt (length ip) i ctx0 (iter1 l ti) (Some (0%nat, ti))
    (c_length ctx0) 0 SAL_RESOLVE_NO_MATCH w1 = Ok ((SAL_RESOLVE_FORWARD, 1, 0, iter2 l), w3))
    as Hloop.
  { erewrite (loop_step (svc w) w1 i b) with (protocol := proto);
      [|done|done|by rewrite A2|by apply (routed_proto _ _ _ _ _ _ _ T6)].
    rewrite Q1, Q2, Q3, Ht. destruct pt; [|done|].
    all: cbn [is_broadcast]; destruct (dev_addr _); [|done].
    all: rewrite (bind_Ok _ _ _ tt w2) by (unfold skb_store; by rewrite A2, Hb).
    all: by rewrite (bind_Ok _ _ _ _ _ Hrun). }
  rewrite (bind_Ok _ _ _ _ _ Hloop).
  change (svc w2) with (svc w1) in F4. rewrite <-F4 in HT.
  destruct (resolve_end_run (svc w) w3 l n SAL_RESOLVE_FORWARD 1 0 se3 (se_refcnt se) HT Hk R1)
    as (w4 & se4 & Hend & (B1 & B2 & B3 & _) & HT2 & C1 & C2).
  rewrite (bind_Ok _ _ _ _ _ Hend). exists w4, f, se4. split; [done|].
  rewrite B1, B2, B3, F1, F2, F3. unfold w2. rsimp. rewrite A1, A2, A3, delete_insert_eq.
  do 3 (split; [done|]). split; [exact F5|]. split; [done|]. split; [done|lia].
Qed.
End Claims.

(** C38 (safety): a packet of an established UDP connection that passes the
    checks of its header and has a source address is given to the state machine
    of the connection with its header removed: it is consumed, every buffer keeps
    exactly one owner, the reference taken on the socket for the delivery is
    returned, and the connection moves along its transition relation.  The
    machine may answer the packet, and reading the length of a buffer that the
    device has freed ([transmit_reads_freed]) is assumed to give some number
    ([StaleRead]); allocated buffers have room for the headers. *)
Theorem rcv_reaches_connection `{SalEnv} `{!StaleRead} `{RcvEnv udp_sock} pt size i
    (w : salw udp_sock)
    held base b ip ctx :
  (HDR_ROOM <= max_header)%nat ->
  inv udp_held held base w -> i ∈ held -> established (sk_state (sk w)) = true ->
  skbs w !! i = Some b -> ip_hdr size (skb_buf b) = Ok ip -> le32 (ip_saddr ip) <> 0 ->
  rcv_checks uninit (data (skb_buf b)) = Ok (inl ctx) ->
  for_flow w (data (skb_buf b)) ctx ->
  let p := InPkt ctx (data (skb_buf b)) (le32 (ip_saddr ip)) (le32 (ip_daddr ip)) (skb_dev b) in
  exists w', serval_sal_rcv udp_af_ops pt size i w = Ok (NET_RX_SUCCESS, w') /\
    inv udp_held (held ∖ {[ i ]}) (base_of (sk w') (sk w) base) w' /\
    sal_trans (packet_acks p (sk w)) p (sk w) (sk_state (sk w')).
Proof.
  intros Hroom Hw Hi Hest Hb Hip Hsa Hck Hff p.
  destruct (rcv_checks_ok _ _ _ Hck) as (_ & _ & _ & Hin & Hlen).
  rewrite (rcv_checked udp_af_ops pt size i w b Hb), Hck.
  rewrite (bind_Ok _ _ _ p w).
  2:{ apply liftR_Ok. unfold ip_packet. by rewrite (obind_Ok _ _ _ Hip). }
  pose proof (dispatch_flow udp_held udp_af_ops Hroom held base w i b pt size
    (data (skb_buf b)) ctx p Hw Hi Hest Hb eq_refl eq_refl) as HD.
  apply wp_run in HD as (r & w' & Hrun & -> & Hst); [by exists w'| |done|done|done].
  split; [|done]. intros e He. destruct Hin as (I1 & _). by apply I1.
Qed.

(** ** Concrete packets *)
Module Demo.
Import UdpSession.StepDemo.
#[export] Instance relay_env : RcvEnv udp_sock := {|
  hard_header_len := RelayClaims.Demo.hlen; sysctl_sal_forward := true;
  other_flow := fun _ => None; other_rcv := fun _ _ _ => mret 0; uninit := 0 |}.
Definition ip : list Z := RelayClaims.Demo.ip.
Definition skb_of (d : list Z) : sal_skb := SalSkb 0 0 0 (Skb ip d) false 2.
Definition host (t : bst) (d : list Z) : salw udp_sock :=
  (world SAL_CONNECTED) {{ skbs := {[ 1%positive := skb_of d ]}; svc := t }}.
Definition no_rules : bst := @bst_empty service_client [] (SEnv ∅ ∅ 1 0 0 0 0 0).

Lemma rcv_bad_dropped_witness : exists n,
  serval_sal_rcv udp_af_ops PACKET_HOST 20 1 (host no_rules [1; 2; 3]) =
  Ok (NET_RX_DROP, (host no_rules [1; 2; 3]) {{ skbs ::= delete 1%positive;
        svc := set_env (tb_add_stats (-1) n (env no_rules)) no_rules }}).
Proof.
  apply (rcv_bad_dropped udp_af_ops PACKET_HOST 20 1 (host no_rules [1; 2; 3]) (skb_of [1; 2; 3])).
  - reflexivity.
  - reflexivity.
  - left. unfold SAL_HEADER_LEN. simpl. lia.
Defined.

(** A FIN of the peer of the connection. *)
Definition fin_data : list Z :=
  serval_sal_send_check 0 ([0; 0; 0; 2; 0; 0; 0; 1] ++ drop 8 fin_hdr) ++ replicate 8 0.
Definition parsed (d : list Z) : sal_context :=
  match serval_sal_parse_hdr d SAL_PARSE_ALL with Ok (_, ctx) => ctx | _ => ctx0 0 end.

Lemma rcv_reaches_connection_witness : exists w',
  serval_sal_rcv udp_af_ops PACKET_HOST 20 1 (host no_rules fin_data) = Ok (NET_RX_SUCCESS, w') /\
  inv udp_held ∅ 1 w'.
Proof.
  destruct (rcv_reaches_connection PACKET_HOST 20 1 (host no_rules fin_data) {[ 1%positive ]} 1
    (skb_of fin_data) ip (parsed fin_data)) as (w' & H1 & H2 & H3).
  - unfold HDR_ROOM, IP_HLEN. simpl. lia.
  - split; simpl; try done.
    + intros i Hi. unfold constant in Hi. rewrite dom_singleton_L in Hi. apply elem_of_singleton in Hi as ->. done.
    + by left.
    + by constructor.
  - set_solver.
  - reflexivity.
  - reflexivity.
  - vm_compute. reflexivity.
  - vm_compute. discriminate.
  - vm_compute. reflexivity.
  - split.
    + reflexivity.
    + vm_compute. reflexivity.
    + intros e b2 He Hb2. vm_compute in He. injection He as <-. vm_compute in Hb2.
      injection Hb2 as <-. reflexivity.
  - exists w'. split; [exact H1|]. rewrite difference_diag_L in H2.
    unfold base_of, base_after in H2. simpl in H2. by destruct (bool_decide _).
Defined.

(** A packet for the service 10.20.7...: the rules of the table of
    [ServiceClaims] send it to 192.168.0.1 through interface 2. *)
Definition exts : list Z := [32; 36; 0; 0; 10; 20] ++ replicate 30 7.
Definition base : list Z := base_bytes RelayClaims.Demo.lf RelayClaims.Demo.pf 12 17 0 0.
Definition packet : list Z :=
  serval_sal_send_check 0 (base ++ exts ++ RelayClaims.Demo.payload).
Definition ctx : sal_context := parsed packet.

Lemma packet_for t : for_service (host t packet) 20 1 (skb_of packet) ip ctx 12.
Proof.
  split.
  - reflexivity.
  - reflexivity.
  - vm_compute. reflexivity.
  - vm_compute. reflexivity.
  - apply RelayClaims.Demo.bytes_bool. vm_compute. reflexivity.
  - vm_compute. reflexivity.
  - split; vm_compute; reflexivity.
Qed.

Lemma rcv_unknown_service_witness : exists w' f,
  serval_sal_rcv udp_af_ops PACKET_HOST 20 1 (host no_rules packet) = Ok (NET_RX_DROP, w') /\
  sent w' = [f] /\ f_daddr f = le32 RelayClaims.Demo.sender.
Proof.
  destruct (rcv_unknown_service udp_af_ops PACKET_HOST 20 1 (host no_rules packet)
    (skb_of packet) ip ctx 12 ∅) as (w' & H1 & H2 & H3 & H4).
  - apply packet_for.
  - split; try done.
    + apply (refines_empty (BC := service_client)).
    + intros l [x Hx]. simpl in Hx. by rewrite lookup_empty in Hx.
  - vm_compute. reflexivity.
  - unfold RESET_ROOM, IP_HLEN. simpl. lia.
  - assert (in_flag (packet_of (skb_of packet) ip ctx) SVH_SYN &&
      negb (in_flag (packet_of (skb_of packet) ip ctx) SVH_ACK)
      || is_reset (packet_of (skb_of packet) ip ctx)
      || negb (can_reply (host no_rules packet)) = false) as E by (vm_compute; reflexivity).
    cbv zeta in H4. rewrite E in H4. destruct H4 as (f & Hs & Hd & _).
    exists w', f. split; [exact H1|]. split; [exact Hs|exact Hd].
Defined.
(** What the table of [ServiceClaims] draws for the packet. *)
Definition rules : bst := ServiceClaims.Demo.st1.
Lemma packet_drawn : exists m se t,
  drawn rules m (srvid_of (skb_of packet) 12) 0 1 se 0 t /\
  t_type t = SERVICE_RULE_FORWARD /\ oif_of (t_out t) = 2 /\ t_dst t = [192; 168; 0; 1].
Proof.
  destruct ServiceClaims.Demo.st1_ok as (m & n & Hok & _).
  set (srvid := srvid_of (skb_of packet) 12).
  pose proof (table_find_ok rules m srvid SERVICE_ID_MAX_PREFIX_BITS RULE_MATCH_ANY Hok
    ltac:(vm_compute; lia)) as Hf.
  assert (match service_table_find (Some srvid) SERVICE_ID_MAX_PREFIX_BITS RULE_MATCH_ANY rules with
          | Ok (Some l, _) => (l =? 1)%positive | _ => false end = true) as H1
    by (vm_compute; reflexivity).
  destruct (selected rules m RULE_MATCH_ANY _) as [l|] eqn:Hsel; [|by rewrite Hf in H1].
  destruct Hf as (se & Hl & Hf). rewrite Hf in H1. apply Pos.eqb_eq in H1 as ->.
  assert (match ses (env rules) !! 1%positive with
          | Some se =>
              match se_sets se with
              | set :: _ =>
                  (Z.land (s_flags set) SVSF_MULTICAST =? 0) &&
                  (pick_sample (draw_sample 0 (s_normalizer set)) (s_list set) 0 0 =? 0)%nat &&
                  match s_list set !! 0%nat with
                  | Some t => bool_decide (t_type t = SERVICE_RULE_FORWARD) &&
                      (oif_of (t_out t) =? 2) && bool_decide (t_dst t = [192; 168; 0; 1])
                  | None => false
                  end
              | [] => false
              end
          | None => false
          end = true) as H2 by (vm_compute; reflexivity).
  rewrite Hl in H2. destruct (se_sets se) as [|set rest] eqn:Hs; [done|].
  destruct (s_list set !! 0%nat) as [t|] eqn:Ht; [|by rewrite andb_false_r in H2].
  rewrite !andb_true_iff, !bool_decide_eq_true, !Z.eqb_eq, Nat.eqb_eq in H2.
  destruct H2 as ((Hm & Hp) & (Ht1 & Ht2) & Ht3).
  exists m, se, t. split; [|exact (conj Ht1 (conj Ht2 Ht3))].
  refine (Drawn _ _ _ _ _ _ _ _ Hok Hsel Hl _).
  exists set, rest. exact (conj Hs (conj Hm (conj Hp Ht))).
Qed.

Lemma rcv_relay_discards_witness : exists w',
  serval_sal_rcv udp_af_ops PACKET_BROADCAST 20 1 (host rules packet) = Ok (NET_RX_DROP, w') /\
  sent w' = [].
Proof.
  destruct packet_drawn as (m & se & t & Hd & Ht & _).
  destruct (rcv_relay_discards udp_af_ops PACKET_BROADCAST 20 1 (host rules packet)
    (skb_of packet) ip ctx 12 m 1 se 0 t) as (w' & se' & H1 & _ & H2 & _).
  - apply packet_for.
  - reflexivity.
  - exact Hd.
  - right. split; [exact Ht|]. by left.
  - exists w'. split; [exact H1|exact H2].
Defined.

Definition ext_ctx : sal_context :=
  match parse_exts MAX_NUM_SAL_EXTENSIONS (replicate 12 0 ++ exts) 12 36 (ctx0 0) with
  | Ok (_, ctx) => ctx
  | _ => ctx0 0
  end.

Lemma rcv_relay_forwards_witness : exists w' f,
  serval_sal_rcv udp_af_ops PACKET_HOST 20 1 (host rules packet) = Ok (NET_RX_SUCCESS, w') /\
  sent w' = [f] /\ f_daddr f = le32 [192; 168; 0; 1] /\ skbs w' = ∅.
Proof.
  destruct packet_drawn as (m & se & t & Hd & Ht & Ho & Hdst).
  destruct (rcv_relay_forwards udp_af_ops PACKET_HOST 1 (host rules packet) (skb_of packet)
    [] ip 14 RelayClaims.Demo.lf RelayClaims.Demo.pf 17 exts [] RelayClaims.Demo.payload ext_ctx
    12 m 1 se 0 t (host rules packet)) as (w' & f & se' & H1 & _ & H2 & H3 & H4 & _).
  - exact (packet_for rules).
  - reflexivity.
  - exact Hd.
  - exact Ht.
  - discriminate.
  - rewrite Ho. discriminate.
  - rewrite Hdst. simpl. lia.
  - rewrite Ho. split.
    + rsimp. apply lookup_insert_eq.
    + reflexivity.
    + reflexivity.
    + simpl. lia.
    + reflexivity.
    + eexists 12, _, _, []. split; [vm_compute; reflexivity|].
      split_and!; try reflexivity. by split.
    + split; [vm_compute; reflexivity|]. split; [reflexivity|]. vm_compute. lia.
    + simpl. lia.
    + vm_compute. discriminate.
    + split_and!; apply RelayClaims.Demo.bytes_bool; vm_compute; reflexivity.
    + by split.
  - by apply not_elem_of_nil.
  - right. split; [reflexivity|discriminate].
  - reflexivity.
  - vm_compute. lia.
  - exists w', f. split; [exact H1|]. split; [exact H2|]. split; [|exact H3].
    rewrite (rt_daddr _ _ _ _ _ _ _ _ _ _ H4), Hdst. reflexivity.
Defined.
End Demo.
