(* ===== verification/Heap.v ===== *)
(** * The binary heap of the timer queues (src/common/heap.c)

    [struct heap] is an array of pointers to [struct heapitem], each of which
    records its own position.  The model keeps the array at its allocated
    length with uninitialised cells as [None], and the items in a store shared
    with the caller; reading an uninitialised cell, an index outside the array
    or an item that does not exist is a fault.  The comparison callback
    [h->cmp] is the section variable [cmp]. *)
From S2P Require Import Prelude.
From coqutil Require Export Datatypes.RecordSetters.
Export DoubleBraceUpdate.
Local Open Scope Z_scope.

Definition HEAP_DEFAULT_SIZE : Z := 200.
Definition HEAP_DEFAULT_INCREASE_SIZE : Z := 100.

(** The address of a [struct heapitem]. *)
Definition itemp := nat.

Record heapitem := HeapItem { hi_index : Z; hi_active : Z }.

(** [struct heap] with the items it points to.  [mallocs] are the results of
    the allocations to come: an empty list stands for success. *)
Record heap := Heap {
  max_size : Z;
  size : Z;
  hmap : list (option itemp);
  items : gmap itemp heapitem;
  mallocs : list bool;
}.

Definition HM := M heap.

Definition malloc_ok : HM bool := fun h =>
  match mallocs h with
  | [] => Ok (true, h)
  | b :: bs => Ok (b, h {{ mallocs := bs }})
  end.

(** [h->map[i]] read and written. *)
Definition map_get (i : Z) : HM itemp := fun h =>
  match hmap h !! Z.to_nat i with
  | Some (Some p) => Ok (p, h)
  | _ => Fault
  end.
Definition map_set (i : Z) (p : itemp) : HM unit := fun h =>
  if Z.of_nat (length (hmap h)) <=? i then Fault
  else Ok (tt, h {{ hmap := <[Z.to_nat i := Some p]> (hmap h) }}).
Definition item_upd (p : itemp) (f : heapitem -> heapitem) : HM unit := fun h =>
  match items h !! p with
  | Some it => Ok (tt, h {{ items := <[p := f it]> (items h) }})
  | None => Fault
  end.
(** [h->map[i]->index = i] *)
Definition set_index (p : itemp) (i : Z) : HM unit :=
  item_upd p (fun it => it {{ hi_index := i }}).
Definition set_active (p : itemp) (a : Z) : HM unit :=
  item_upd p (fun it => it {{ hi_active := a }}).
Definition set_size (n : Z) : HM unit := modS (fun h => h {{ size := n }}).

(** [h->map[i] = p; p->index = i] *)
Definition place (i : Z) (p : itemp) : HM unit := map_set i p;; set_index p i.
(** [exchange to maintain heap property] *)
Definition exchange (i smallest : Z) : HM unit :=
  tmp ← map_get smallest;
  x ← map_get i;
  place smallest x;;
  place i tmp.

Section Code.
Context (cmp : itemp -> itemp -> bool).

Definition heap_init (max : Z) : HM Z :=
  let max := if max =? 0 then HEAP_DEFAULT_SIZE else max in
  modS (fun h => h {{ max_size := max; size := 0 }});;
  ok ← malloc_ok;
  if ok : bool then
    modS (fun h => h {{ hmap := replicate (Z.to_nat max) None }});; mret 0
  else modS (fun h => h {{ hmap := [] }});; mret (-1).

Definition heap_fini : HM unit := modS (fun h => h {{ hmap := [] }}).
Definition heap_empty : HM bool := gets (fun h => size h =? 0).
Definition heap_full : HM bool := gets (fun h => max_size h <=? size h).
Definition heap_front : HM itemp := map_get 0.
Definition heap_size : HM Z := gets size.

(** [(l < h->size) && h->cmp(h->map[l], h->map[i])] *)
Definition child_before (l i : Z) : HM bool :=
  n ← heap_size;
  if l <? n then x ← map_get l; y ← map_get i; mret (cmp x y) else mret false.

Fixpoint heapify_loop (fuel : nat) (i : Z) : HM unit :=
  match fuel with
  | O => nofuelM
  | S fuel =>
      let l := u32 (u32 (2 * i) + 1) in
      let r := u32 (l + 1) in
      lb ← child_before l i;
      let smallest := if lb : bool then l else i in
      rb ← child_before r smallest;
      let smallest := if rb : bool then r else smallest in
      if smallest =? i then mret tt
      else
        exchange i smallest;;
        heapify_loop fuel smallest
  end.
Definition heap_heapify (i : Z) : HM unit :=
  n ← heap_size; heapify_loop (S (Z.to_nat n)) i.

Definition heap_increase_size (inc : Z) : HM Z :=
  ok ← malloc_ok;
  if ok : bool then
    h ← getS;
    let cap := Z.to_nat (u32 (max_size h + inc)) in
    (* memcpy past the end of the new array *)
    if (Z.of_nat cap <? size h) || (Z.of_nat (length (hmap h)) <? size h) then faultM
    else
      let old := take (Z.to_nat (size h)) (hmap h) in
      modS (fun h => h {{ hmap := old ++ replicate (cap - length old) None;
                          max_size := u32 (max_size h + inc) }});;
      mret 0
  else mret (-1).

(** The loop that finds the place of [item]; the hole is at [i]. *)
Fixpoint insert_loop (fuel : nat) (item : itemp) (i : Z) : HM Z :=
  match fuel with
  | O => nofuelM
  | S fuel =>
      if 0 <? i then
        let parent := u32 (i - 1) / 2 in
        p ← map_get parent;
        if cmp item p then
          place i p;;
          insert_loop fuel item parent
        else mret i
      else mret i
  end.
Definition heap_insert (item : itemp) : HM Z :=
  full ← heap_full;
  err ← (if full : bool then heap_increase_size HEAP_DEFAULT_INCREASE_SIZE else mret 0);
  if negb (err =? 0) then mret (-1)
  else
    n ← heap_size;
    i ← insert_loop (S (Z.to_nat n)) item n;
    place i item;;
    set_size (u32 (n + 1));;
    set_active item 1;;
    mret 0.

Definition heap_remove (index : Z) : HM (option itemp) :=
  n ← heap_size;
  if n <=? index then mret None
  else
    item ← map_get index;
    set_size (u32 (n - 1));;
    last ← map_get (u32 (n - 1));
    map_set index last;;
    heap_heapify index;;
    set_index item 0;;
    set_active item 0;;
    mret (Some item).
Definition heap_remove_first : HM (option itemp) := heap_remove 0.
End Code.
