(* ===== verification/HeapOk.v ===== *)
(** * Correctness of the heap (src/common/heap.c)

    [hrep h l] relates the array to the list of the items it holds; [ordered]
    is the heap order.  Insertion and removal of the first item implement a
    priority queue; removal from the middle does so only under a condition that
    the code does not establish. *)
From S2P Require Import Prelude Heap.
Local Open Scope nat_scope.

Local Ltac hsimp := repeat record.simp.

(** What a comparison callback has to satisfy: "before" is a strict order
    whose complement is transitive. *)
Class CmpOrder (cmp : itemp -> itemp -> bool) : Prop := {
  cmp_asym x y : cmp x y = true -> cmp y x = false;
  cmp_trans x y z : cmp y x = false -> cmp z y = false -> cmp z x = false;
}.

(** ** Exchanging two cells *)
Definition swap {A} (l : list A) (i j : nat) : list A :=
  match l !! i, l !! j with
  | Some x, Some y => <[i := y]> (<[j := x]> l)
  | _, _ => l
  end.

Lemma swap_length {A} (l : list A) i j : length (swap l i j) = length l.
Proof. unfold swap. repeat case_match; by rewrite ?length_insert. Qed.

Lemma swap_lookup {A} (l : list A) i j k :
  is_Some (l !! i) -> is_Some (l !! j) ->
  swap l i j !! k =
    if decide (k = i) then l !! j else if decide (k = j) then l !! i else l !! k.
Proof.
  intros [x Hx] [y Hy]. unfold swap. rewrite Hx, Hy.
  pose proof (lookup_lt_Some _ _ _ Hx). pose proof (lookup_lt_Some _ _ _ Hy).
  destruct (decide (k = i)) as [->|].
  { rewrite list_lookup_insert_eq; [done|by rewrite length_insert]. }
  rewrite list_lookup_insert_ne by done.
  destruct (decide (k = j)) as [->|].
  - by rewrite list_lookup_insert_eq.
  - by rewrite list_lookup_insert_ne.
Qed.

Lemma insert_perm {A} (l : list A) i x y :
  l !! i = Some x -> y :: l ≡ₚ x :: <[i := y]> l.
Proof.
  intros H. pose proof (lookup_lt_Some _ _ _ H).
  rewrite (insert_take_drop l i y) by done.
  rewrite <-(take_drop_middle l i x) at 1 by done.
  rewrite <-!Permutation_middle. apply perm_swap.
Qed.

Lemma swap_perm {A} (l : list A) i j : swap l i j ≡ₚ l.
Proof.
  unfold swap. destruct (l !! i) as [x|] eqn:Hi; [|done].
  destruct (l !! j) as [y|] eqn:Hj; [|done].
  destruct (decide (i = j)) as [->|].
  { simplify_eq. by rewrite list_insert_insert_eq, list_insert_id. }
  apply (Permutation_cons_inv (a := x)).
  trans (y :: <[j := x]> l).
  - symmetry. apply insert_perm. by rewrite list_lookup_insert_ne.
  - symmetry. by apply insert_perm.
Qed.

Section Order.
Context (cmp : itemp -> itemp -> bool) `{!CmpOrder cmp}.

Definition le (x y : itemp) : Prop := cmp y x = false.
Definition par (j : nat) : nat := (j - 1) / 2.
Lemma par_spec j : 0 < j -> j = 2 * par j + 1 \/ j = 2 * par j + 2.
Proof.
  unfold par. intros. pose proof (Nat.div_mod (j - 1) 2). pose proof (Nat.mod_upper_bound (j - 1) 2). lia.
Qed.
Lemma par_child i j : 0 < j -> par j = i <-> j = 2 * i + 1 \/ j = 2 * i + 2.
Proof. intros H. pose proof (par_spec _ H). lia. Qed.
Definition edge (l : list itemp) (a b : nat) : Prop :=
  forall x y, l !! a = Some x -> l !! b = Some y -> le x y.
Definition ordered (l : list itemp) : Prop :=
  forall j, 0 < j -> edge l (par j) j.
(** Heap order but for the edges below [i], which [i]'s parent bounds. *)
Definition ordered_below (i : nat) (l : list itemp) : Prop :=
  (forall j, 0 < j -> par j <> i -> edge l (par j) j) /\
  (forall j, 0 < i -> 0 < j -> par j = i -> edge l (par i) j).

Lemma le_refl x : le x x.
Proof.
  unfold le. destruct (cmp x x) eqn:E; [|done]. by rewrite (cmp_asym _ _ E) in E.
Qed.
Lemma le_trans x y z : le x y -> le y z -> le x z.
Proof. apply cmp_trans. Qed.
Lemma before_le x y : cmp x y = true -> le x y.
Proof. apply cmp_asym. Qed.

(** The item that sorts first is at the root. *)
Lemma ordered_root l x k y :
  ordered l -> l !! 0 = Some x -> l !! k = Some y -> le x y.
Proof.
  intros Ho Hx. revert y. induction k as [k IH] using lt_wf_ind. intros y Hy.
  destruct (decide (k = 0)) as [->|]; [simplify_eq; apply le_refl|].
  assert (par k < k) by (pose proof (par_spec k); lia).
  destruct (lookup_lt_is_Some_2 l (par k)) as [z Hz].
  { apply lookup_lt_Some in Hy. lia. }
  eapply le_trans; [by eapply IH|]. eapply Ho; [|done..]. lia.
Qed.

Definition before (l : list itemp) (a b : nat) : bool :=
  match l !! a, l !! b with Some x, Some y => cmp x y | _, _ => false end.
Definition smallest_child (l : list itemp) (i : nat) : nat :=
  let s := if before l (2 * i + 1) i then 2 * i + 1 else i in
  if before l (2 * i + 2) s then 2 * i + 2 else s.

Lemma before_edge l a b : before l a b = true -> edge l a b.
Proof.
  unfold before, edge. intros H x y Hx Hy. rewrite Hx, Hy in H. by apply before_le.
Qed.
Lemma not_before_edge l a b : before l a b = false -> edge l b a.
Proof. unfold before, edge. intros H x y Hx Hy. by rewrite Hx, Hy in H. Qed.
Lemma before_some l a b : before l a b = true -> is_Some (l !! a) /\ is_Some (l !! b).
Proof. unfold before. repeat case_match; naive_solver. Qed.
Lemma edge_trans l a b c : is_Some (l !! b) -> edge l a b -> edge l b c -> edge l a c.
Proof. intros [y Hy] H1 H2 x z Hx Hz. eapply le_trans; eauto. Qed.

(** The choice of the child: it is [i] or a child of [i], it sorts no later
    than [i] and its children. *)
Lemma smallest_ok l i (s := smallest_child l i) :
  (s = i \/ s = 2 * i + 1 \/ s = 2 * i + 2) /\
  (s <> i -> is_Some (l !! s) /\ is_Some (l !! i)) /\
  edge l s i /\ edge l s (2 * i + 1) /\ edge l s (2 * i + 2).
Proof.
  subst s. unfold smallest_child.
  assert (forall a, edge l a a) as Hr.
  { intros a x y Hx Hy. simplify_eq. apply le_refl. }
  destruct (before l (2 * i + 1) i) eqn:E1.
  - pose proof (before_some _ _ _ E1) as [??].
    destruct (before l (2 * i + 2) (2 * i + 1)) eqn:E2.
    + pose proof (before_some _ _ _ E2) as [??].
      split_and!; auto using before_edge. eapply edge_trans; eauto using before_edge.
    + split_and!; auto using before_edge, not_before_edge.
  - destruct (before l (2 * i + 2) i) eqn:E2.
    + pose proof (before_some _ _ _ E2) as [??].
      split_and!; auto using before_edge.
      eapply edge_trans; eauto using before_edge, not_before_edge.
    + split_and!; auto using before_edge, not_before_edge. by intros.
Qed.

Lemma sift_done l i :
  ordered_below i l -> smallest_child l i = i -> ordered l.
Proof.
  intros [Ho _] Hs j Hj. destruct (smallest_ok l i) as (_ & _ & _ & H1 & H2).
  rewrite Hs in H1, H2.
  destruct (decide (par j = i)) as [Hp|]; [|by apply Ho].
  rewrite Hp. apply par_child in Hp as [->| ->]; done.
Qed.

Lemma sift_swap l i s :
  s = smallest_child l i -> ordered_below i l -> s <> i ->
  ordered_below s (swap l i s).
Proof.
  intros Heq [Ho Hg] Hs. destruct (smallest_ok l i) as (Hc & Hsome & He & H1 & H2).
  rewrite <-Heq in *. clear Heq. destruct (Hsome Hs) as [Ss Si]. clear Hsome.
  assert (i < s /\ 0 < s /\ par s = i) as (? & ? & Hps) by (rewrite par_child; lia).
  split.
  - intros j Hj Hp x y. rewrite !swap_lookup by done. pose proof (par_spec j Hj).
    repeat case_decide; subst; try lia.
    + by apply He.
    + assert (edge l s j) as Hj'; [|by apply Hj'].
      destruct (par_spec j Hj) as [E|E];
        [replace j with (2 * par s + 1) by lia|replace j with (2 * par s + 2) by lia]; done.
    + by apply Hg.
    + by apply Ho.
  - intros j _ Hj Hp x y. rewrite Hps, !swap_lookup by done. pose proof (par_spec j Hj).
    destruct (decide (i = i)); [|done]. rewrite !decide_False by lia.
    rewrite <-Hp. apply Ho; lia.
Qed.
End Order.

(** ** The array and its list *)
Record hrep (h : heap) (l : list itemp) : Prop := {
  hr_size : size h = Z.of_nat (length l);
  hr_cap : Z.of_nat (length (hmap h)) = max_size h;
  hr_bound : (size h <= max_size h < 2 ^ 31 - 1)%Z;
  hr_cells k x : l !! k = Some x -> hmap h !! k = Some (Some x);
  hr_items x : x ∈ l -> exists it, items h !! x = Some it /\ hi_active it = 1%Z;
  hr_nodup : NoDup l;
}.
(** The item at [k] records position [k]. *)
Definition indexed_at (h : heap) (l : list itemp) (k : nat) : Prop :=
  forall x, l !! k = Some x -> hi_index <$> items h !! x = Some (Z.of_nat k).
Definition indexed (h : heap) (l : list itemp) : Prop := forall k, indexed_at h l k.
(** Everything the operations on the items [l] leave alone. *)
Definition hframe (h h' : heap) (l : list itemp) : Prop :=
  max_size h' = max_size h /\ mallocs h' = mallocs h /\ size h' = size h /\
  forall x, x ∉ l -> items h' !! x = items h !! x.

Lemma hframe_refl h l : hframe h h l.
Proof. done. Qed.
Lemma hframe_trans h1 h2 h3 l l' :
  l' ≡ₚ l -> hframe h1 h2 l -> hframe h2 h3 l' -> hframe h1 h3 l.
Proof.
  intros Hp (?&?&?&F1) (?&?&?&F2). split_and!; try congruence.
  intros x Hx. rewrite F2 by (by rewrite Hp). by apply F1.
Qed.

Section Cells.
Context (cmp : itemp -> itemp -> bool).

Lemma wp_map_get h l k x (i : Z) (Q : itemp -> heap -> Prop) :
  hrep h l -> l !! k = Some x -> i = Z.of_nat k -> Q x h -> wp (map_get i) h Q.
Proof.
  intros R Hk -> HQ. unfold wp, map_get. rewrite Nat2Z.id, (hr_cells _ _ R _ _ Hk). done.
Qed.

Lemma child_before_ok h l a b (Q : bool -> heap -> Prop) (za zb : Z) :
  hrep h l -> (b < length l \/ length l <= a) ->
  za = Z.of_nat a -> zb = Z.of_nat b ->
  Q (before cmp l a b) h -> wp (child_before cmp za zb) h Q.
Proof.
  intros R Hb -> -> HQ. unfold child_before, heap_size. wp_steps.
  rewrite (hr_size _ _ R). unfold before in HQ.
  case Z.ltb_spec; intros.
  - destruct (lookup_lt_is_Some_2 l a) as [x Hx]; [lia|].
    destruct (lookup_lt_is_Some_2 l b) as [y Hy]; [lia|]. rewrite Hx, Hy in HQ.
    apply wp_bind, (wp_map_get _ l a x); [done..|].
    by apply wp_bind, (wp_map_get _ l b y).
  - rewrite lookup_ge_None_2 in HQ by lia. done.
Qed.

Lemma exchange_ok h l i s :
  hrep h l -> i < length l -> s < length l -> i <> s ->
  wp (exchange (Z.of_nat i) (Z.of_nat s)) h (fun _ h' =>
    hrep h' (swap l i s) /\ hframe h h' l /\
    indexed_at h' (swap l i s) i /\ indexed_at h' (swap l i s) s /\
    forall k, k <> i -> k <> s -> indexed_at h l k -> indexed_at h' (swap l i s) k).
Proof.
  intros R Hi Hs Hne.
  destruct (lookup_lt_is_Some_2 l i Hi) as [x Hx].
  destruct (lookup_lt_is_Some_2 l s Hs) as [y Hy].
  destruct (hr_items _ _ R x) as (ix & Ix & Ax); [by eapply list_elem_of_lookup_2|].
  destruct (hr_items _ _ R y) as (iy & Iy & Ay); [by eapply list_elem_of_lookup_2|].
  assert (x <> y) as Hxy.
  { intros ->. apply Hne. by eapply NoDup_lookup; [apply (hr_nodup _ _ R)|..]. }
  pose proof (hr_cap _ _ R). pose proof (hr_bound _ _ R). pose proof (hr_size _ _ R).
  unfold exchange. apply wp_bind, (wp_map_get _ l s y); [done..|].
  apply wp_bind, (wp_map_get _ l i x); [done..|].
  unfold wp, place, mbind, M_bind, map_set, set_index, item_upd.
  rewrite (proj2 (Z.leb_gt _ _)) by lia. hsimp. rewrite Ix.
  hsimp. rewrite length_insert, (proj2 (Z.leb_gt _ _)) by lia. hsimp.
  rewrite lookup_insert_ne, Iy by done. rewrite !Nat2Z.id.
  split; [|split; [|split; [|split]]].
  - split; hsimp.
    + by rewrite swap_length.
    + by rewrite !length_insert.
    + done.
    + intros k z. rewrite swap_lookup by eauto. destruct (decide (k = i)) as [->|].
      { intros. simplify_eq. rewrite list_lookup_insert_eq; [done|rewrite length_insert; lia]. }
      rewrite list_lookup_insert_ne by done. destruct (decide (k = s)) as [->|].
      { intros. simplify_eq. rewrite list_lookup_insert_eq; [done|lia]. }
      rewrite list_lookup_insert_ne by done. apply R.
    + intros z. rewrite swap_perm. intros Hz. destruct (hr_items _ _ R z Hz) as (iz & Iz & Az).
      destruct (decide (z = y)) as [->|]; [rewrite lookup_insert_eq; eexists; split; [done|by hsimp]|].
      rewrite lookup_insert_ne by done.
      destruct (decide (z = x)) as [->|]; [rewrite lookup_insert_eq; eexists; split; [done|by hsimp]|].
      rewrite lookup_insert_ne by done. eauto.
    + rewrite swap_perm. apply R.
  - split_and!; hsimp; try done. intros z Hz.
    rewrite !lookup_insert_ne; [done|..]; intros ->; apply Hz; by eapply list_elem_of_lookup_2.
  - intros z. rewrite swap_lookup by eauto. rewrite decide_True by done. intros. simplify_eq.
    hsimp. by rewrite lookup_insert_eq.
  - intros z. rewrite swap_lookup by eauto. rewrite decide_False, decide_True by done. intros.
    simplify_eq. hsimp. by rewrite lookup_insert_ne, lookup_insert_eq by done.
  - intros k Ki Ks Hk z. rewrite swap_lookup by eauto. rewrite !decide_False by done. intros Hz.
    hsimp. rewrite !lookup_insert_ne; [by apply Hk|..]; intros ->.
    + by apply Ki, (NoDup_lookup l _ _ _ (hr_nodup _ _ R) Hz).
    + by apply Ks, (NoDup_lookup l _ _ _ (hr_nodup _ _ R) Hz).
Qed.
End Cells.

Section Heapify.
Context (cmp : itemp -> itemp -> bool) `{!CmpOrder cmp}.

(** What sifting down from [i] achieves. *)
Definition sifted (i : nat) (h h' : heap) (l l' : list itemp) : Prop :=
  l' ≡ₚ l /\ hframe h h' l /\
  (ordered_below cmp i l -> ordered cmp l') /\
  (forall k, k <> i -> indexed_at h l k -> indexed_at h' l' k) /\
  ((h' = h /\ l' = l) \/ indexed_at h' l' i).

Lemma sifted_step i s h1 h2 h3 l l' :
  s <> i -> swap l i s ≡ₚ l -> hframe h1 h2 l ->
  (ordered_below cmp i l -> ordered_below cmp s (swap l i s)) ->
  indexed_at h2 (swap l i s) i -> indexed_at h2 (swap l i s) s ->
  (forall k, k <> i -> k <> s -> indexed_at h1 l k -> indexed_at h2 (swap l i s) k) ->
  sifted s h2 h3 (swap l i s) l' -> sifted i h1 h3 l l'.
Proof.
  intros Hne Hp Hf Ho Ii Is Ik (Hp' & Hf' & Ho' & Hk' & Hi').
  split; [by rewrite Hp'|]. split; [by eapply hframe_trans|]. split; [by auto|].
  split; [|right; by apply Hk'].
  intros k Hki Hk. destruct (decide (k = s)) as [->|]; [|by auto].
  by destruct Hi' as [[-> ->]|Hi'].
Qed.

Lemma heapify_loop_ok fuel h l i zi :
  zi = Z.of_nat i -> hrep h l -> i <= length l -> (i < length l \/ (size h < max_size h)%Z) ->
  length l < i + fuel ->
  wp (heapify_loop cmp fuel zi) h (fun _ h' =>
    exists l', hrep h' l' /\ sifted i h h' l l').
Proof.
  intros ->. revert h l i. induction fuel as [|fuel IH]; intros h l i R Hi Hroom Hfuel; [lia|].
  pose proof (hr_bound _ _ R) as Hb. pose proof (hr_size _ _ R) as Hsz.
  assert (2 * Z.of_nat i + 2 < 2 ^ 32)%Z by lia.
  cbn [heapify_loop]. rewrite (u32_id (2 * _)) by lia.
  rewrite (u32_id (2 * _ + 1)) by lia. rewrite (u32_id (2 * _ + 1 + 1)) by lia.
  apply wp_bind, (child_before_ok cmp h l (2 * i + 1) i); [done|lia|lia|done|].
  apply wp_bind.
  set (s1 := if before cmp l (2 * i + 1) i then 2 * i + 1 else i).
  assert (s1 < length l \/ length l <= 2 * i + 2) as Hs1.
  { subst s1. destruct (before _ _ _ _) eqn:E; [|lia].
    apply before_some in E as [E _]. apply lookup_lt_is_Some in E. lia. }
  apply (child_before_ok cmp h l (2 * i + 2) s1); [done|done|lia|subst s1; case_match; lia|].
  destruct (smallest_ok cmp l i) as (Hc & Hsome & _).
  pose proof (eq_refl (smallest_child cmp l i)) as Hdef. unfold smallest_child at 2 in Hdef.
  fold s1 in Hdef. set (s := smallest_child cmp l i) in *.
  assert ((if before cmp l (2 * i + 2) s1 then 2 * Z.of_nat i + 1 + 1
           else if before cmp l (2 * i + 1) i then 2 * Z.of_nat i + 1 else Z.of_nat i)%Z
          = Z.of_nat s) as ->.
  { rewrite Hdef. subst s1. repeat case_match; lia. }
  case Z.eqb_spec; intros Hz.
  { apply wp_ret. exists l. split; [done|]. split; [done|]. split; [apply hframe_refl|].
    split; [|split; [done|by left]]. intros Ho. eapply sift_done; [done..|exact (Nat2Z.inj _ _ Hz)]. }
  destruct Hsome as [Hs%lookup_lt_is_Some Hi'%lookup_lt_is_Some]; [lia|].
  apply wp_bind. eapply wp_mono; [apply exchange_ok; [done..|lia]|].
  intros _ h2 (R2 & F2 & I1 & I2 & I3).
  eapply wp_mono.
  { apply (IH h2 (swap l i s) s); rewrite ?swap_length; [done|lia|left; lia|lia]. }
  intros _ h3 (l' & R3 & S3). exists l'. split; [done|].
  eapply sifted_step; [..|done]; try done; [lia|apply swap_perm|].
  intros. apply sift_swap; [done..|lia].
Qed.
End Heapify.

(** ** Insertion: the hole moves up *)
Section Insert.
Context (cmp : itemp -> itemp -> bool) `{!CmpOrder cmp}.

Definition ordered_above (i : nat) (a : list itemp) : Prop :=
  (forall j, 0 < j -> j <> i -> edge cmp a (par j) j) /\
  (forall j, 0 < i -> 0 < j -> par j = i -> edge cmp a (par i) j).

Lemma rise_swap a i x y :
  0 < i -> a !! i = Some x -> a !! par i = Some y -> cmp x y = true ->
  ordered_above i a -> ordered_above (par i) (swap a i (par i)).
Proof.
  intros Hi Hx Hy Hc [Ho Hg]. pose proof (par_spec i Hi).
  assert (edge cmp a i (par i)) as He.
  { intros ?? H1 H2. simplify_eq. by apply before_le. }
  split.
  - intros j Hj Hne x' y'. rewrite !swap_lookup by eauto. pose proof (par_spec j Hj).
    repeat case_decide; subst; try lia.
    + by apply Hg.
    + by apply He.
    + apply (edge_trans cmp a i (par i) j); [eauto|done|].
      match goal with E : par j = par i |- _ => rewrite <-E end. by apply Ho.
    + by apply Ho.
  - intros j Hp Hj Hpj x' y'. rewrite !swap_lookup by eauto.
    pose proof (par_spec j Hj). pose proof (par_spec _ Hp).
    rewrite !(decide_False (P := par (par i) = _)) by lia.
    assert (edge cmp a (par (par i)) (par i)) as Hpp by (apply Ho; lia).
    destruct (decide (j = i)) as [->|]; [by apply Hpp|]. rewrite decide_False by lia.
    apply (edge_trans cmp a _ (par i) j); [eauto|exact Hpp|]. rewrite <-Hpj. by apply Ho.
Qed.

Lemma rise_done a i :
  ordered_above i a -> (0 < i -> edge cmp a (par i) i) -> ordered cmp a.
Proof.
  intros [Ho _] He j Hj. destruct (decide (j = i)) as [->|]; auto.
Qed.

(** The array during the loop: position [i] stands for [item]. *)
Record holed (h : heap) (a : list itemp) (i : nat) (item : itemp) : Prop := {
  ho_item : a !! i = Some item;
  ho_cap : Z.of_nat (length (hmap h)) = max_size h;
  ho_bound : (Z.of_nat (length a) <= max_size h < 2 ^ 31 - 1)%Z;
  ho_cells k x : k <> i -> a !! k = Some x -> hmap h !! k = Some (Some x);
  ho_items x : x ∈ a -> exists it, items h !! x = Some it /\ (x <> item -> hi_active it = 1%Z);
  ho_nodup : NoDup a;
}.

(** The parent moves down into the hole. *)
Lemma move_down_ok h a i item y :
  holed h a i item -> 0 < i -> a !! par i = Some y ->
  wp (place (Z.of_nat i) y) h (fun _ h' =>
    holed h' (swap a i (par i)) (par i) item /\ hframe h h' (swap a i (par i)) /\
    forall k, k <> par i ->
      (k <> i -> indexed_at h a k) -> indexed_at h' (swap a i (par i)) k).
Proof.
  intros R Hi Hy. pose proof (par_spec i Hi). pose proof (ho_item _ _ _ _ R) as Hx.
  destruct (ho_items _ _ _ _ R y) as (iy & Iy & Ay); [by eapply list_elem_of_lookup_2|].
  assert (y <> item) as Hne.
  { intros ->. pose proof (NoDup_lookup _ _ _ _ (ho_nodup _ _ _ _ R) Hx Hy). lia. }
  pose proof (lookup_lt_Some _ _ _ Hx). destruct R as [? Rc Rb Rm Ri Rn].
  unfold wp, place, mbind, M_bind, map_set, set_index, item_upd.
  rewrite (proj2 (Z.leb_gt _ _)) by lia. hsimp. rewrite Iy, !Nat2Z.id.
  split; [|split].
  - split; hsimp.
    + rewrite swap_lookup by eauto. rewrite decide_False, decide_True by lia. done.
    + by rewrite length_insert.
    + by rewrite swap_length.
    + intros k z Hk. rewrite swap_lookup by eauto. destruct (decide (k = i)) as [->|].
      { intros. simplify_eq. rewrite list_lookup_insert_eq; [done|lia]. }
      rewrite decide_False, list_lookup_insert_ne by done. by apply Rm.
    + intros z. rewrite swap_perm. intros Hz. destruct (decide (z = y)) as [->|].
      * rewrite lookup_insert_eq. eexists; split; [done|]. hsimp. auto.
      * rewrite lookup_insert_ne by done. auto.
    + by rewrite swap_perm.
  - split_and!; hsimp; try done. intros z. rewrite swap_perm. intros Hz.
    rewrite lookup_insert_ne; [done|]. intros ->. apply Hz. by eapply list_elem_of_lookup_2.
  - intros k Hk Hidx z. rewrite swap_lookup by eauto. hsimp.
    destruct (decide (k = i)) as [->|].
    { intros. simplify_eq. by rewrite lookup_insert_eq. }
    rewrite decide_False by done. intros Hz. rewrite lookup_insert_ne; [by apply Hidx|].
    intros ->. by apply Hk, (NoDup_lookup a _ _ _ Rn Hz).
Qed.

Lemma insert_loop_ok fuel h a i item zi :
  zi = Z.of_nat i -> holed h a i item -> i < fuel ->
  wp (insert_loop cmp fuel item zi) h (fun zj h' =>
    exists j a', zj = Z.of_nat j /\ holed h' a' j item /\ a' ≡ₚ a /\ hframe h h' a /\
      (ordered_above i a -> ordered cmp a') /\
      (forall k, k <> j -> (k <> i -> indexed_at h a k) -> indexed_at h' a' k)).
Proof.
  intros ->. revert h a i. induction fuel as [|fuel IH]; intros h a i R Hfuel; [lia|].
  cbn [insert_loop]. pose proof (ho_item _ _ _ _ R) as Hx.
  pose proof (ho_bound _ _ _ _ R) as Hb. pose proof (lookup_lt_Some _ _ _ Hx).
  case Z.ltb_spec; intros Hi.
  2: { apply wp_ret. exists i, a. split_and!; try done; [|by auto]. intros. eapply rise_done; [done|lia]. }
  pose proof (par_spec i ltac:(lia)).
  destruct (lookup_lt_is_Some_2 a (par i)) as [y Hy]; [lia|].
  assert (u32 (Z.of_nat i - 1) / 2 = Z.of_nat (par i))%Z as ->.
  { rewrite u32_id by lia. unfold par. rewrite Nat2Z.inj_div. f_equal. lia. }
  apply wp_bind. unfold wp at 1, map_get at 1.
  rewrite Nat2Z.id, (ho_cells _ _ _ _ R (par i) y) by (done || lia).
  destruct (cmp item y) eqn:Hc.
  2: { apply wp_ret. exists i, a. split_and!; try done; [|by auto]. intros. eapply rise_done; [done|].
       intros _ ?? E1 E2. by simplify_eq. }
  apply wp_bind. eapply wp_mono; [apply (move_down_ok h a i item y); [done|lia|done]|].
  intros _ h2 (R2 & F2 & I2).
  eapply wp_mono; [apply (IH h2 _ (par i) R2); lia|].
  intros zj h3 (j & a' & -> & R3 & P3 & F3 & O3 & I3).
  exists j, a'. split_and!; try done.
  - rewrite P3. apply swap_perm.
  - eapply hframe_trans; [| |exact F3]; [apply swap_perm|]. destruct F2 as (?&?&?&F2).
    split_and!; try done. intros x. rewrite <-(swap_perm a i (par i)). apply F2.
  - intros. apply O3. eapply rise_swap; eauto. lia.
  - intros k Hkj Hk. apply I3; [done|]. intros Hk'. by apply I2.
Qed.
End Insert.

(** ** The operations *)
Section Ops.
Context (cmp : itemp -> itemp -> bool) `{!CmpOrder cmp}.

Lemma malloc_run h : exists b ms,
  malloc_ok h = Ok (b, h {{ mallocs := ms }}) /\ (mallocs h = [] -> b = true).
Proof.
  unfold malloc_ok. destruct (mallocs h) as [|b bs] eqn:E.
  - exists true, []. split; [|done]. do 2 f_equal. destruct h; hsimp; simpl in *; by subst.
  - exists b, bs. done.
Qed.

Lemma hrep_mallocs h l ms : hrep h l -> hrep (h {{ mallocs := ms }}) l.
Proof. intros []. by split; hsimp. Qed.

(** Growing the array keeps its contents and makes room for one more. *)
Lemma heap_grow_ok h l :
  hrep h l -> (Z.of_nat (length l) < 2 ^ 31 - 102)%Z -> max_size h = size h ->
  wp (heap_increase_size HEAP_DEFAULT_INCREASE_SIZE) h (fun err h' =>
    hrep h' l /\ items h' = items h /\
    (err = 0%Z /\ (size h' < max_size h')%Z \/ err = (-1)%Z /\ mallocs h <> [])).
Proof.
  intros R Hl Hfull. unfold heap_increase_size. apply wp_bind. unfold wp at 1.
  destruct (malloc_run h) as (b & ms & -> & Hb). apply (hrep_mallocs _ _ ms) in R.
  pose proof (hr_size _ _ R) as Hs. pose proof (hr_cap _ _ R) as Hc. hsimp.
  unfold HEAP_DEFAULT_INCREASE_SIZE. destruct b.
  2: { apply wp_ret. split; [done|]. split; [done|]. right. split; [done|]. intros E. by apply Hb in E. }
  assert (u32 (max_size h + 100) = max_size h + 100)%Z as E by (apply u32_id; lia).
  apply wp_bind, wp_getS. hsimp. rewrite E.
  rewrite !(proj2 (Z.ltb_ge _ _)) by lia. cbn [orb]. wp_steps. hsimp. rewrite E.
  split; [|split; [done|left; split; [done|hsimp; lia]]].
  split; hsimp; [done|..].
  - rewrite length_app, length_replicate, length_take. lia.
  - lia.
  - intros k x Hk. pose proof (lookup_lt_Some _ _ _ Hk).
    rewrite lookup_app_l by (rewrite length_take; lia). rewrite lookup_take_lt by lia.
    exact (hr_cells _ _ R _ _ Hk).
  - apply R.
  - apply R.
Qed.

Lemma holed_start h l item :
  hrep h l -> item ∉ l -> is_Some (items h !! item) -> (size h < max_size h)%Z ->
  holed h (l ++ [item]) (length l) item.
Proof.
  intros R Hn [it Hit] Hroom. destruct R as [Rs Rc Rb Rm Ri Rn]. split; try done.
  - by rewrite lookup_app_r, Nat.sub_diag by done.
  - rewrite length_app. simpl. lia.
  - intros k x Hk. rewrite lookup_app_Some. intros [?|[? Hx]]; [by apply Rm|].
    apply lookup_lt_Some in Hx. simpl in Hx. lia.
  - intros x. rewrite elem_of_app, list_elem_of_singleton. intros [Hx| ->]; [|by exists it].
    destruct (Ri x Hx) as (?&?&?). eauto.
  - apply NoDup_app. split; [done|]. split; [|apply NoDup_singleton].
    intros x Hx ->%list_elem_of_singleton. done.
Qed.

(** Storing the item closes the hole. *)
Lemma close_hole h a j item :
  holed h a j item -> size h = (Z.of_nat (length a) - 1)%Z ->
  wp (place (Z.of_nat j) item;; set_size (u32 (size h + 1));; set_active item 1;; mret 0%Z)
    h (fun r h' => r = 0%Z /\ hrep h' a /\
      max_size h' = max_size h /\ mallocs h' = mallocs h /\
      (forall x, x <> item -> items h' !! x = items h !! x) /\
      indexed_at h' a j /\ (forall k, k <> j -> indexed_at h a k -> indexed_at h' a k)).
Proof.
  intros [Hx Rc Rb Rm Ri Rn] Hs. pose proof (lookup_lt_Some _ _ _ Hx).
  destruct (Ri item) as (it & Hit & _); [by eapply list_elem_of_lookup_2|].
  unfold wp, place, mbind, M_bind, map_set, set_index, set_active, item_upd, set_size, modS, mret, M_ret.
  rewrite (proj2 (Z.leb_gt _ _)) by lia. hsimp. rewrite Hit. hsimp. rewrite lookup_insert_eq.
  rewrite Nat2Z.id, u32_id, insert_insert_eq by lia.
  split; [done|]. split; [|split; [done|split; [done|split; [|split]]]].
  - split; hsimp; [lia|by rewrite length_insert|lia|..].
    + intros k x Hk. destruct (decide (k = j)) as [->|].
      * simplify_eq. apply list_lookup_insert_eq. lia.
      * rewrite list_lookup_insert_ne by done. by apply Rm.
    + intros x Hxa. destruct (decide (x = item)) as [->|].
      * rewrite lookup_insert_eq. eexists; split; [done|]. by hsimp.
      * rewrite lookup_insert_ne by done. destruct (Ri x Hxa) as (?&?&?). eauto.
    + done.
  - intros x Hne. hsimp. by rewrite lookup_insert_ne.
  - intros x Hjx. simplify_eq. hsimp. rewrite lookup_insert_eq. simpl. by hsimp.
  - intros k Hkj Hk x Hkx. hsimp. rewrite lookup_insert_ne; [by apply Hk|]. intros ->.
    by pose proof (NoDup_lookup _ _ _ _ Rn Hx Hkx).
Qed.

Lemma ordered_snoc l item :
  ordered cmp l -> ordered_above cmp (length l) (l ++ [item]).
Proof.
  intros Ho. split.
  - intros j Hj Hne x y Hx Hy. pose proof (par_spec j Hj).
    assert (j < length l) by (apply lookup_lt_Some in Hy; rewrite length_app in Hy; simpl in Hy; lia).
    rewrite lookup_app_l in Hx, Hy by lia. by eapply Ho.
  - intros j _ Hj Hp x y _ Hy. pose proof (par_spec j Hj).
    apply lookup_lt_Some in Hy. rewrite length_app in Hy. simpl in Hy. lia.
Qed.

Lemma insert_room_ok h l item :
  hrep h l -> item ∉ l -> is_Some (items h !! item) -> (size h < max_size h)%Z ->
  wp (n ← heap_size;
      i ← insert_loop cmp (S (Z.to_nat n)) item n;
      place i item;;
      set_size (u32 (n + 1));;
      set_active item 1;;
      mret 0%Z) h (fun r h' => r = 0%Z /\ exists l', hrep h' l' /\ l' ≡ₚ item :: l /\
    (ordered cmp l -> ordered cmp l') /\
    (forall k, indexed_at h l k -> indexed_at h' l' k) /\
    (exists j, l' !! j = Some item /\ indexed_at h' l' j) /\
    forall x, x ∉ item :: l -> items h' !! x = items h !! x).
Proof.
  intros R Hn Hit Hroom. apply wp_bind. unfold heap_size. wp_steps.
  rewrite (hr_size _ _ R). eapply wp_mono.
  { eapply (insert_loop_ok cmp _ h); [done|by apply holed_start|]. lia. }
  intros zj h2 (j & a & -> & R2 & P2 & (Fm & _ & Fs & Fi) & O2 & I2).
  assert (length a = S (length l)) as La.
  { rewrite P2, length_app. simpl. lia. }
  assert (Z.of_nat (length l) = size h2) as E by (by rewrite Fs, (hr_size _ _ R)).
  rewrite E. eapply wp_mono; [apply close_hole; [done|lia]|].
  intros r h3 (-> & R3 & _ & _ & F3 & Ij & I3). split; [done|].
  exists a. assert (a ≡ₚ item :: l) as P by (by rewrite P2, Permutation_app_comm).
  split; [done|]. split; [done|]. split; [|split; [|split]].
  - intros Ho. apply O2. by apply ordered_snoc.
  - intros k Hk. destruct (decide (k = j)) as [->|]; [done|]. apply I3; [done|]. apply I2; [done|].
    intros Hkl x. rewrite lookup_app_Some. intros [Hx|[? Hx]]; [by apply Hk|].
    apply lookup_lt_Some in Hx as Hx'. simpl in Hx'. lia.
  - exists j. split; [apply R2|done].
  - intros x Hx. rewrite F3 by set_solver. apply Fi. rewrite elem_of_app. set_solver.
Qed.

(** [heap_insert] adds the item to the queue: the array holds
    the old items and the new one, stays heap ordered, every item that records
    its position still does and the new one does too, and items outside the
    queue are not touched.  The only other outcome is [-1] from an allocation
    that failed, with the queue unchanged. *)
Lemma heap_insert_ok h l item :
  hrep h l -> item ∉ l -> is_Some (items h !! item) ->
  (Z.of_nat (length l) < 2 ^ 31 - 102)%Z ->
  wp (heap_insert cmp item) h (fun r h' =>
    (r = 0%Z /\ exists l', hrep h' l' /\ l' ≡ₚ item :: l /\
      (ordered cmp l -> ordered cmp l') /\
    (forall k, indexed_at h l k -> indexed_at h' l' k) /\
      (exists j, l' !! j = Some item /\ indexed_at h' l' j) /\
      forall x, x ∉ item :: l -> items h' !! x = items h !! x) \/
    (r = (-1)%Z /\ mallocs h <> [] /\ hrep h' l /\ items h' = items h)).
Proof.
  intros R Hn Hit Hl. unfold heap_insert. apply wp_bind. unfold heap_full. wp_steps.
  pose proof (hr_bound _ _ R). case Z.leb_spec; intros Hf.
  2: { apply wp_ret. cbn [Z.eqb negb]. eapply wp_mono; [by apply insert_room_ok|].
       intros r h' ?. by left. }
  eapply wp_mono; [apply heap_grow_ok; [done..|lia]|].
  intros err h2 (R2 & E2 & [[-> Hroom]|[-> Hm]]); cbn [Z.eqb negb].
  - eapply wp_mono; [apply insert_room_ok; [done..|by rewrite E2|done]|].
    intros r h3 (-> & l' & R3 & P3 & O3 & I3 & J3 & F3). left. split; [done|]. exists l'.
    split; [done|]. split; [done|]. split; [done|]. split; [|split; [done|]].
    + intros k Hk. apply I3. intros x. rewrite E2. apply Hk.
    + intros x. rewrite <-E2. apply F3.
  - apply wp_ret. right. done.
Qed.

(** The list after the last item has been moved to [i]. *)
Definition moved (l : list itemp) (i : nat) (z : itemp) : list itemp :=
  <[i := z]> (take (length l - 1) l).

Lemma moved_lookup l i z k :
  l !! (length l - 1) = Some z -> i < length l ->
  moved l i z !! k =
    if decide (k < length l - 1) then if decide (k = i) then Some z else l !! k else None.
Proof.
  intros Hz Hi. unfold moved. case_decide as Hk.
  - destruct (decide (k = i)) as [->|].
    + apply list_lookup_insert_eq. rewrite length_take. lia.
    + by rewrite list_lookup_insert_ne, lookup_take_lt by done.
  - apply lookup_ge_None_2. rewrite length_insert, length_take. lia.
Qed.

Lemma moved_perm l i x z :
  l !! (length l - 1) = Some z -> l !! i = Some x -> l ≡ₚ x :: moved l i z.
Proof.
  intros Hz Hx. pose proof (lookup_lt_Some _ _ _ Hx). unfold moved.
  assert (l = take (length l - 1) l ++ [z]) as E.
  { rewrite <-(take_S_r _ _ _ Hz). by rewrite take_ge by lia. }
  destruct (decide (i = length l - 1)) as [->|].
  - simplify_eq. rewrite list_insert_ge by (rewrite length_take; lia).
    rewrite E at 1. by rewrite Permutation_app_comm.
  - rewrite <-insert_perm by (rewrite lookup_take_lt; [done|lia]).
    rewrite E at 1. by rewrite Permutation_app_comm.
Qed.

Lemma moved_order l i z :
  ordered cmp l -> i < length l -> l !! (length l - 1) = Some z ->
  (0 < i -> edge cmp l (par i) (length l - 1)) -> ordered_below cmp i (moved l i z).
Proof.
  intros Ho Hi Hz He. split.
  - intros j Hj Hp x y. pose proof (par_spec j Hj). rewrite !moved_lookup by done.
    repeat case_decide; subst; try done; try lia; [|by apply Ho].
    intros ??. simplify_eq. by eapply He.
  - intros j Hi0 Hj Hp x y. pose proof (par_spec j Hj). pose proof (par_spec i Hi0).
    rewrite !moved_lookup by done. repeat case_decide; subst; try done; try lia.
    assert (edge cmp l (par (par j)) j) as E; [|apply E].
    apply (edge_trans cmp l _ (par j) j); [by apply lookup_lt_is_Some_2|by apply Ho|by apply Ho].
Qed.

(** The cells once the last item has been moved. *)
Lemma moved_rep h l i x z :
  hrep h l -> l !! i = Some x -> l !! (length l - 1) = Some z ->
  hrep (h {{ size := Z.of_nat (length l - 1); hmap := <[i := Some z]> (hmap h) }}) (moved l i z).
Proof.
  intros R Hx Hz. pose proof (lookup_lt_Some _ _ _ Hx) as Hi.
  pose proof (moved_perm _ _ _ _ Hz Hx) as P. pose proof (hr_size _ _ R) as Hs.
  pose proof (hr_bound _ _ R). pose proof (hr_cap _ _ R).
  pose proof (hr_nodup _ _ R) as Hn. rewrite P in Hn. apply NoDup_cons in Hn as [_ Hn].
  split; hsimp; [| |lia| | |done].
  - unfold moved. rewrite length_insert, length_take. lia.
  - by rewrite length_insert.
  - intros k y. rewrite moved_lookup by done. repeat case_decide; subst; intros; simplify_eq.
    + apply list_lookup_insert_eq. lia.
    + rewrite list_lookup_insert_ne by done. by apply R.
  - intros y Hy. apply R. rewrite P. set_solver.
Qed.

(** The item leaves the queue. *)
Definition removed (h h' : heap) (l l' : list itemp) (i : nat) (x : itemp) : Prop :=
  hrep h' l' /\ l ≡ₚ x :: l' /\
  (ordered cmp l -> (0 < i -> edge cmp l (par i) (length l - 1)) -> ordered cmp l') /\
  items h' !! x = Some (HeapItem 0 0) /\
  (forall y, y ∉ l -> items h' !! y = items h !! y) /\
  (forall k, k <> i -> indexed_at h l k -> indexed_at h' l' k) /\
  mallocs h' = mallocs h.

Lemma retire_ok h l' x it :
  hrep h l' -> x ∉ l' -> items h !! x = Some it ->
  wp (set_index x 0;; set_active x 0;; mret (Some x)) h (fun r h' =>
    r = Some x /\ hrep h' l' /\ items h' !! x = Some (HeapItem 0 0) /\
    (forall y, y <> x -> items h' !! y = items h !! y) /\
    (forall k, indexed_at h l' k -> indexed_at h' l' k) /\
    mallocs h' = mallocs h).
Proof.
  intros R Hx Hit. unfold wp, mbind, M_bind, set_index, set_active, item_upd, mret, M_ret.
  rewrite Hit. hsimp. rewrite lookup_insert_eq, insert_insert_eq.
  split; [done|]. split; [|split; [|split; [|split]]]; hsimp; [..|done].
  - destruct R as [? ? ? ? Ri ?]. split; hsimp; try done. intros y Hy. rewrite lookup_insert_ne; [by apply Ri|].
    by intros ->.
  - rewrite lookup_insert_eq. by destruct it.
  - intros y Hy. by rewrite lookup_insert_ne.
  - intros k Hk y Hy. hsimp. rewrite lookup_insert_ne; [by apply Hk|].
    intros ->. apply Hx. by eapply list_elem_of_lookup_2.
Qed.

Lemma heap_remove_ok h l i x :
  hrep h l -> l !! i = Some x ->
  wp (heap_remove cmp (Z.of_nat i)) h (fun r h' =>
    r = Some x /\ exists l', removed h h' l l' i x).
Proof.
  intros R Hx. pose proof (lookup_lt_Some _ _ _ Hx) as Hi.
  pose proof (hr_size _ _ R) as Hs. pose proof (hr_bound _ _ R). pose proof (hr_cap _ _ R).
  destruct (lookup_lt_is_Some_2 l (length l - 1)) as [z Hz]; [lia|].
  pose proof (moved_perm _ _ _ _ Hz Hx) as P. pose proof (moved_rep _ _ _ _ _ R Hx Hz) as R2.
  pose proof (hr_nodup _ _ R) as Hn. rewrite P in Hn. apply NoDup_cons in Hn as [Hxm _].
  pose proof (hr_cells _ _ R _ _ Hz) as Cz.
  unfold heap_remove. apply wp_bind. unfold heap_size at 1. wp_steps.
  rewrite Hs, (proj2 (Z.leb_gt _ _)) by lia. apply wp_bind, (wp_map_get _ l i x); [done..|].
  unfold set_size. wp_steps. rewrite u32_id by lia.
  replace (Z.of_nat (length l) - 1)%Z with (Z.of_nat (length l - 1)) by lia.
  unfold wp at 1, map_get at 1. hsimp. rewrite Nat2Z.id, Cz.
  wp_steps. unfold wp at 1, map_set at 1. hsimp.
  rewrite (proj2 (Z.leb_gt _ _)), Nat2Z.id by lia.
  set (h2 := _ {{ hmap := _ }}). unfold heap_heapify. wp_steps.
  fold h2 in R2. unfold heap_size. wp_steps.
  assert (length (moved l i z) = length l - 1) as Lm.
  { unfold moved. rewrite length_insert, length_take. lia. }
  rewrite (hr_size _ _ R2). eapply wp_mono.
  { apply (heapify_loop_ok cmp _ h2 (moved l i z) i); [done..|lia| |lia].
    right. subst h2. hsimp. lia. }
  intros _ h3 (l' & R3 & P3 & (F1 & F2 & F3 & F4) & O3 & I3 & _).
  destruct (hr_items _ _ R x) as (it & Ix & _); [by eapply list_elem_of_lookup_2|].
  eapply wp_mono.
  { apply (retire_ok h3 l' x it); [done|by rewrite P3|]. rewrite F4 by done. subst h2. by hsimp. }
  intros r h4 (-> & R4 & Ix4 & F5 & I4 & M4). split; [done|]. exists l'.
  assert (forall k, k <> i -> indexed_at h l k -> indexed_at h2 (moved l i z) k) as Hm.
  { intros k Hki Hk y. rewrite moved_lookup by done. repeat case_decide; try done. intros Hy.
    subst h2. hsimp. by apply Hk. }
  split; [done|]. split; [by rewrite P3|]. split; [|split; [done|split; [|split]]].
  - intros Ho He. apply O3. by apply moved_order.
  - intros y Hy. rewrite P in Hy. rewrite F5 by set_solver. rewrite F4 by set_solver.
    subst h2. by hsimp.
  - intros k Hki Hk. apply I4, I3; [done|]. by apply Hm.
  - rewrite M4, F2. subst h2. by hsimp.
Qed.
End Ops.
