(* ===== verification/TimerQueue.v ===== *)
(** * The timer queue of the daemons (src/common/timer.c, src/common/signal.c)

    [struct timer] embeds a [struct heapitem]; the queue is the heap of
    [Heap.v] ordered by absolute timeout, a mutex, and the pipe that wakes the
    thread that owns the queue.  Taking the mutex while it is held is a
    deadlock, represented as a fault; so is signed overflow. *)
From S2P Require Import Prelude Heap.
Local Open Scope Z_scope.

Definition NSEC_PER_SEC : Z := 1000000000.

Record timespec := Timespec { tv_sec : Z; tv_nsec : Z }.

Definition timespec_normalize (t : timespec) : timespec :=
  if NSEC_PER_SEC <=? tv_nsec t then Timespec (tv_sec t + 1) (tv_nsec t - NSEC_PER_SEC)
  else if tv_nsec t <? 0 then Timespec (tv_sec t - 1) (tv_nsec t + NSEC_PER_SEC)
  else t.
Definition timespec_add_nsec (t : timespec) (nsec : Z) : timespec :=
  timespec_normalize
    (Timespec (tv_sec t + nsec ÷ NSEC_PER_SEC) (tv_nsec t + Z.rem nsec NSEC_PER_SEC)).
Definition timespec_sub (t1 t2 : timespec) : timespec :=
  timespec_normalize (Timespec (tv_sec t1 - tv_sec t2) (tv_nsec t1 - tv_nsec t2)).
Definition timespec_lt (t1 t2 : timespec) : bool :=
  (tv_sec t1 <? tv_sec t2) ||
  ((tv_sec t1 =? tv_sec t2) && (tv_nsec t1 <? tv_nsec t2)).

(** A signed 64-bit result: [None] when it overflows. *)
Definition long (z : Z) : option Z :=
  if (- 2 ^ 63 <=? z) && (z <? 2 ^ 63) then Some z else None.

Record timer := Timer {
  timeout : timespec;
  expires : Z;
  has_callback : bool;
  has_destruct : bool;
}.

(** [struct timer_queue] and what its operations touch.  [pipe] is the content
    of the signal pipe, [owner] whether the calling thread is [tq->thr], [now]
    the clock; the clock and the caller change between operations. *)
Record timer_queue := TimerQueue {
  queue : heap;
  tq_locked : bool;
  pipe : list Z;
  owner : bool;
  now : timespec;
  timers : gmap itemp timer;
}.

Inductive signal_result :=
  TIMER_SIGNAL_ERROR | TIMER_SIGNAL_NONE | TIMER_SIGNAL_SET | TIMER_SIGNAL_EXIT.

Definition TQM := M timer_queue.

Definition tq_lock : TQM unit := fun q =>
  if tq_locked q then Fault else Ok (tt, q {{ tq_locked := true }}).
Definition tq_unlock : TQM unit := modS (fun q => q {{ tq_locked := false }}).

(** Run a heap operation on [tq->queue]. *)
Definition onheap {A} (m : HM A) : TQM A := fun q =>
  match m (queue q) with
  | Ok (a, h) => Ok (a, q {{ queue := h }})
  | Fault => Fault
  | NoFuel => NoFuel
  end.
Definition timer_of (t : itemp) : TQM timer := fun q =>
  match timers q !! t with Some tm => Ok (tm, q) | None => Fault end.
Definition upd_timer (t : itemp) (f : timer -> timer) : TQM unit := fun q =>
  match timers q !! t with
  | Some tm => Ok (tt, q {{ timers := <[t := f tm]> (timers q) }})
  | None => Fault
  end.
Definition gettime : TQM timespec := gets now.

#[export] Instance timer_inhabited : Inhabited timer :=
  populate (Timer (Timespec 0 0) 0 false false).
Definition heap_cmp (ts : gmap itemp timer) (t1 t2 : itemp) : bool :=
  timespec_lt (timeout (ts !!! t1)) (timeout (ts !!! t2)).
(** A heap operation with the queue's comparison. *)
Definition withcmp {A} (m : (itemp -> itemp -> bool) -> HM A) : TQM A :=
  ts ← gets timers; onheap (m (heap_cmp ts)).

(** ** The wake-up pipe *)
Definition signal_is_raised : TQM bool :=
  gets (fun q => match pipe q with [] => false | _ => true end).
Definition signal_raise_val (v : Z) : TQM Z :=
  r ← signal_is_raised;
  if r : bool then mret 0
  else modS (fun q => q {{ pipe := pipe q ++ [v] }});; mret 4.
Definition signal_raise : TQM Z := signal_raise_val 0.
(** Reads until the pipe is empty, when [read] returns [-1]; the result is the
    value of [ret > 0] after that last read, with the last value read. *)
Definition signal_clear_val (val : Z) : TQM (Z * Z) :=
  l ← gets pipe;
  modS (fun q => q {{ pipe := [] }});;
  mret (0, default val (last l)).
Definition timer_queue_signal_raise : TQM Z := signal_raise.
Definition timer_queue_signal_lower : TQM signal_result :=
  rv ← signal_clear_val 0;
  let '(ret, val) := rv : Z * Z in
  mret (if ret =? -1 then TIMER_SIGNAL_ERROR
        else if ret =? 0 then TIMER_SIGNAL_NONE
        else if val =? 0 then TIMER_SIGNAL_EXIT
        else if val =? -1 then TIMER_SIGNAL_ERROR
        else TIMER_SIGNAL_SET).

(** ** Timers *)
Definition timer_scheduled (t : itemp) : TQM bool := fun q =>
  match items (queue q) !! t with
  | Some it => Ok (negb (hi_active it =? 0), q)
  | None => Fault
  end.
Definition timer_index (t : itemp) : TQM Z := fun q =>
  match items (queue q) !! t with
  | Some it => Ok (hi_index it, q)
  | None => Fault
  end.

Definition _timer_del (t : itemp) : TQM unit :=
  index ← timer_index t;
  withcmp (fun cmp => heap_remove cmp index);;
  own ← gets owner;
  if (index =? 0) && negb own then timer_queue_signal_raise;; mret tt else mret tt.
Definition timer_del (t : itemp) : TQM unit := tq_lock;; _timer_del t;; tq_unlock.

(** Stamp the timer with the clock and its relative expiry. *)
Definition set_timeout (t : itemp) : TQM unit :=
  clk ← gettime;
  tm ← timer_of t;
  match long (expires tm * 1000) with
  | None => faultM
  | Some nsec => upd_timer t (fun tm => tm {{ timeout := timespec_add_nsec clk nsec }})
  end.

Definition timer_mod (t : itemp) (exp : Z) : TQM Z :=
  sched ← timer_scheduled t;
  was_first ← (if sched : bool then
      index ← timer_index t;
      timer_del t;;
      upd_timer t (fun tm => tm {{ expires := exp }});;
      mret (index =? 0)
    else mret false);
  set_timeout t;;
  tq_lock;;
  err ← withcmp (fun cmp => heap_insert cmp t);
  if negb (err =? 0) then tq_unlock;; mret (-1)
  else
    own ← gets owner;
    index ← timer_index t;
    (if negb own && ((index =? 0) || was_first) then timer_queue_signal_raise;; mret tt
     else mret tt);;
    tq_unlock;;
    mret 1.

Definition timer_add (t : itemp) : TQM Z :=
  sched ← timer_scheduled t;
  if sched : bool then mret (-1)
  else tm ← timer_of t; timer_mod t (expires tm).

(** The microseconds to the first timeout, when there is one. *)
Definition timer_next_timeout : TQM (option Z) :=
  tq_lock;;
  empty ← onheap heap_empty;
  if empty : bool then tq_unlock;; timer_queue_signal_lower;; mret None
  else
    clk ← gettime;
    t ← onheap heap_front;
    tm ← timer_of t;
    let later := timespec_sub (timeout tm) clk in
    tq_unlock;;
    timer_queue_signal_lower;;
    mret (Some (u64 (tv_sec later * 1000000 + tv_nsec later ÷ 1000))).

Definition timer_next_timeout_timespec : TQM (option timespec) :=
  tq_lock;;
  empty ← onheap heap_empty;
  if empty : bool then tq_unlock;; mret None
  else
    clk ← gettime;
    t ← onheap heap_front;
    tm ← timer_of t;
    let later := timespec_sub (timeout tm) clk in
    let later := if tv_sec later <? 0 then Timespec 0 0 else later in
    tq_unlock;;
    mret (Some later).

Section Callbacks.
(** The effect of a timer's callback and destructor on the queue. *)
Context (callback destruct : itemp -> TQM unit).

Definition timer_handle_timeout : TQM Z :=
  tq_lock;;
  empty ← onheap heap_empty;
  if empty : bool then tq_unlock;; mret (-1)
  else
    o ← withcmp heap_remove_first;
    match o with
    | None => faultM
    | Some t =>
        tq_unlock;;
        tm ← timer_of t;
        (if has_callback tm then callback t else mret tt);;
        mret 0
    end.

Fixpoint destroy_loop (fuel : nat) : TQM unit :=
  match fuel with
  | O => nofuelM
  | S fuel =>
      empty ← onheap heap_empty;
      if empty : bool then mret tt
      else
        o ← withcmp heap_remove_first;
        match o with
        | None => faultM
        | Some t =>
            tm ← timer_of t;
            (if has_destruct tm then destruct t else mret tt);;
            destroy_loop fuel
        end
  end.
Definition timer_list_destroy : TQM unit :=
  tq_lock;;
  n ← onheap heap_size;
  destroy_loop (S (Z.to_nat n));;
  tq_unlock.
Definition timer_queue_fini : TQM unit :=
  modS (fun q => q {{ pipe := [] }});;
  timer_list_destroy;;
  onheap heap_fini.
End Callbacks.

(** [sig] is the result of [signal_init]. *)
Definition timer_queue_init (sig : Z) : TQM Z :=
  modS (fun q => q {{ pipe := []; tq_locked := false; owner := true }});;
  onheap (heap_init 0);;
  mret sig.
