(* ===== verification/TimerQueueOk.v ===== *)
(** * Correctness of the timer queue (src/common/timer.c)

    The queue fires its timers in the order of their timeouts, over the
    priority queue of [HeapOk.v].  The last section proves the ways in which
    the code fails to be one: positions recorded in the items go stale. *)
From S2P Require Import Prelude Heap HeapOk TimerQueue.
Local Open Scope Z_scope.

Local Ltac hsimp := repeat record.simp.

#[export] Instance heap_cmp_order ts : CmpOrder (heap_cmp ts).
Proof. split; unfold heap_cmp, timespec_lt; intros; lia. Qed.

(** The timer [x] is not due after [y]. *)
Definition not_after (ts : gmap itemp timer) (x y : itemp) : Prop :=
  timespec_lt (timeout (ts !!! y)) (timeout (ts !!! x)) = false.

(** The queue holds the timers [l]. *)
Record tq_core (q : timer_queue) (l : list itemp) : Prop := {
  ti_rep : hrep (queue q) l;
  ti_order : ordered (heap_cmp (timers q)) l;
  ti_known t : t ∈ l -> is_Some (timers q !! t);
  ti_active t it : items (queue q) !! t = Some it -> hi_active it <> 0 -> t ∈ l;
}.
Definition tq_inv (q : timer_queue) (l : list itemp) : Prop :=
  tq_core q l /\ tq_locked q = false.

Lemma core_ext q q' l :
  queue q' = queue q -> timers q' = timers q -> tq_core q l -> tq_core q' l.
Proof. by intros E1 E2 []; split; rewrite ?E1, ?E2. Qed.

(** Running a heap operation, by its heap-level specification. *)
Lemma wp_onheap {A} (m : HM A) q (Q : A -> timer_queue -> Prop) :
  wp m (queue q) (fun a h => Q a (q {{ queue := h }})) -> wp (onheap m) q Q.
Proof. unfold wp, onheap. by destruct (m (queue q)) as [[]| |]. Qed.
Lemma wp_withcmp {A} (m : _ -> HM A) q (Q : A -> timer_queue -> Prop) :
  wp (m (heap_cmp (timers q))) (queue q) (fun a h => Q a (q {{ queue := h }})) ->
  wp (withcmp m) q Q.
Proof. intros. unfold withcmp. apply wp_bind, wp_gets. by apply wp_onheap. Qed.
Lemma wp_lock q (Q : unit -> timer_queue -> Prop) :
  tq_locked q = false -> Q tt (q {{ tq_locked := true }}) -> wp tq_lock q Q.
Proof. unfold wp, tq_lock. by intros ->. Qed.

(** A step whose run is known. *)
Lemma wp_run_Ok {A B} (m : TQM A) (k : A -> TQM B) q a q' Q :
  m q = Ok (a, q') -> wp (k a) q' Q -> wp (m ≫= k) q Q.
Proof. intros H ?. unfold wp. by rewrite (bind_Ok _ _ _ _ _ H). Qed.

(** Timers outside the queue may be written without disturbing its order. *)
Lemma ordered_ext ts ts' l :
  (forall x, x ∈ l -> timeout (ts' !!! x) = timeout (ts !!! x)) ->
  ordered (heap_cmp ts) l -> ordered (heap_cmp ts') l.
Proof.
  intros He Ho j Hj x y Hx Hy. unfold le, heap_cmp.
  rewrite !He by (by eapply list_elem_of_lookup_2). by apply (Ho j Hj).
Qed.

Lemma raise_ok q (Q : unit -> timer_queue -> Prop) (b : bool) :
  (forall p, (b = true -> p <> []) -> Q tt (q {{ pipe := p }})) ->
  wp (if b then timer_queue_signal_raise;; mret tt else mret tt) q Q.
Proof.
  intros HQ. destruct b.
  - unfold wp, timer_queue_signal_raise, signal_raise, signal_raise_val, signal_is_raised,
      mbind, M_bind, gets.
    destruct (pipe q) as [|z p] eqn:E; simpl.
    + apply HQ. by rewrite E.
    + replace q with (q {{ pipe := z :: p }}); [by apply HQ|].
      destruct q; hsimp; simpl in *; by subst.
  - apply wp_ret. replace q with (q {{ pipe := pipe q }}); [by apply HQ|].
    destruct q; by hsimp.
Qed.

(** Taking the first item of the heap. *)
Lemma remove_first_ok q l x l0 :
  tq_core q l -> l = x :: l0 ->
  wp (withcmp heap_remove_first) q (fun r q' => r = Some x /\ exists h' l',
    q' = q {{ queue := h' }} /\ l ≡ₚ x :: l' /\ tq_core q' l' /\
    items h' !! x = Some (HeapItem 0 0) /\
    forall k, k <> 0%nat -> indexed_at (queue q) l k -> indexed_at h' l' k).
Proof.
  intros [R O K A] El. apply wp_withcmp. unfold heap_remove_first.
  eapply wp_mono; [apply (heap_remove_ok _ _ l 0 x); [done|by rewrite El]|].
  intros r h' (-> & l' & R' & P & O' & Ix & F & Hk & _). split; [done|].
  exists h', l'. split; [done|]. split; [done|]. split; [|done].
  split; hsimp; try done.
  - apply O'; [done|]. by intros ?%Nat.lt_irrefl.
  - intros t Ht. apply K. rewrite P. set_solver.
  - intros t it Hit Ha. assert (t <> x) as Hne by (intros ->; naive_solver).
    destruct (decide (t ∈ l)) as [Hin|Hin].
    + rewrite P in Hin. set_solver.
    + rewrite F in Hit by done. by destruct Hin; apply (A t it).
Qed.

Lemma root_first q l x l0 y :
  tq_core q l -> l = x :: l0 -> y ∈ l -> not_after (timers q) x y.
Proof.
  intros I -> [k Hk]%list_elem_of_lookup_1.
  by eapply (ordered_root (heap_cmp (timers q))); [apply I| |].
Qed.

Lemma heap_empty_run q l :
  hrep (queue q) l -> onheap heap_empty q = Ok (bool_decide (l = []), q).
Proof.
  intros R. unfold onheap, heap_empty, gets. rewrite (hr_size _ _ R).
  replace (q {{ queue := queue q }}) with q by (by destruct q; hsimp).
  by destruct l.
Qed.
Lemma heap_front_run q x l :
  hrep (queue q) (x :: l) -> onheap heap_front q = Ok (x, q).
Proof.
  intros R. unfold onheap, heap_front, map_get. change (Z.to_nat 0) with 0%nat. rewrite (hr_cells _ _ R 0 x) by done.
  by destruct q; hsimp.
Qed.
Lemma timer_of_run q t tm : timers q !! t = Some tm -> timer_of t q = Ok (tm, q).
Proof. unfold timer_of. by intros ->. Qed.
Lemma lock_run q : tq_locked q = false -> tq_lock q = Ok (tt, q {{ tq_locked := true }}).
Proof. unfold tq_lock. by intros ->. Qed.

Lemma unlocked q b : tq_locked q = false -> q {{ tq_locked := b }} {{ tq_locked := false }} = q.
Proof. destruct q; hsimp. by intros ->. Qed.

(** C31 (safety): a timer expiry takes the earliest timer off the queue, marks it
    as not scheduled, and runs its callback, in a state where the mutex is free
    and the queue holds the other timers in heap order, all marked as scheduled;
    every position of the array but the first at which the item recorded its
    position before holds an item that does so afterwards.  The first is left out
    because it goes wrong: the item moved to the front keeps its old position if
    it is not exchanged on the way down (heap.c line 149; [timer_del_misses]).  On
    an empty queue the call returns [-1] and changes nothing. *)
Theorem timer_handle_timeout_ok callback q l :
  tq_inv q l ->
  (l = [] /\ timer_handle_timeout callback q = Ok (-1, q)) \/
  exists t l' q', l ≡ₚ t :: l' /\ (forall y, y ∈ l -> not_after (timers q) t y) /\
    tq_inv q' l' /\ timers q' = timers q /\
    items (queue q') !! t = Some (HeapItem 0 0) /\
    (forall k, k <> 0%nat -> indexed_at (queue q) l k -> indexed_at (queue q') l' k) /\
    timer_handle_timeout callback q =
      ((if has_callback (timers q !!! t) then callback t else mret tt);; mret 0) q'.
Proof.
  intros [I Lk]. unfold timer_handle_timeout.
  rewrite (bind_Ok _ _ _ _ _ (lock_run _ Lk)).
  set (q1 := q {{ tq_locked := true }}).
  pose proof (heap_empty_run q1 l (ti_rep _ _ I)) as Hem.
  rewrite (bind_Ok _ _ _ _ _ Hem).
  destruct l as [|x l0] eqn:El.
  { left. split; [done|]. rewrite bool_decide_true by done.
    unfold tq_unlock, mbind, M_bind, modS, mret, M_ret. subst q1. by rewrite unlocked. }
  right. rewrite bool_decide_false by done. rewrite <-El in *.
  assert (tq_core q1 l) as I1 by (by eapply core_ext; [..|exact I]; subst q1; hsimp).
  destruct (proj1 (wp_run _ _ _) (remove_first_ok _ l x l0 I1 El))
    as (? & ? & Hrun & -> & h' & l' & -> & P & I2 & Hx & Hk).
  rewrite (bind_Ok _ _ _ _ _ Hrun). unfold tq_unlock.
  destruct (ti_known _ _ I x) as [tm Htm]; [rewrite El; set_solver|].
  exists x, l', (q {{ tq_locked := false; queue := h' }}).
  split; [done|]. split; [intros y; by apply (root_first q l x l0)|].
  split; [split; [by eapply core_ext; [..|exact I2]; subst q1; hsimp|by hsimp]|].
  split; [by hsimp|]. split; [by hsimp|]. split; [by hsimp|]. subst q1.
  rewrite (bind_Ok _ _ _ tt (q {{ tq_locked := false; queue := h' }})) by (unfold modS; by hsimp).
  set (q2 := q {{ tq_locked := false; queue := h' }}).
  rewrite (bind_Ok _ _ _ _ _ (timer_of_run q2 _ _ Htm)).
  by rewrite <-(lookup_total_correct _ _ _ Htm).
Qed.

Lemma inactive_absent q l t it :
  tq_core q l -> items (queue q) !! t = Some it -> hi_active it = 0 -> t ∉ l.
Proof.
  intros I Hit Ha Hin. destruct (hr_items _ _ (ti_rep _ _ I) t Hin) as (it' & Hit' & Ha').
  simplify_eq. congruence.
Qed.

(** Stamping a timer that is not queued. *)
Lemma stamp_ok q l t tm ns :
  tq_core q l -> t ∉ l -> timers q !! t = Some tm -> long (expires tm * 1000) = Some ns ->
  let tm' := tm {{ timeout := timespec_add_nsec (now q) ns }} in
  wp (set_timeout t) q (fun _ q' =>
    q' = q {{ timers := <[t := tm']> (timers q) }} /\ tq_core q' l).
Proof.
  intros [R O K A] Hn Htm Hns tm'. unfold set_timeout, gettime. wp_steps.
  unfold wp at 1, timer_of at 1. rewrite Htm, Hns. unfold wp, upd_timer. rewrite Htm.
  split; [done|]. split; hsimp; try done.
  - eapply ordered_ext; [|done]. intros x Hx.
    by rewrite lookup_total_insert_ne by (by intros ->).
  - intros x Hx. apply lookup_insert_is_Some'. auto.
Qed.

(** [timer_add] of a timer that is not scheduled puts it on
    the queue with the timeout [expires] microseconds from now; when another
    thread than the owner's makes it the first timer, the owner's pipe is left
    readable so that it recomputes its timeout. *)
Theorem timer_add_ok q l t tm it ns :
  tq_inv q l -> timers q !! t = Some tm -> items (queue q) !! t = Some it ->
  hi_active it = 0 -> long (expires tm * 1000) = Some ns ->
  Z.of_nat (length l) < 2 ^ 31 - 102 -> mallocs (queue q) = [] ->
  wp (timer_add t) q (fun r q' => r = 1 /\ exists l', tq_inv q' l' /\ l' ≡ₚ t :: l /\
    timeout (timers q' !!! t) = timespec_add_nsec (now q) ns /\
    (forall u, u <> t -> timers q' !! u = timers q !! u) /\
    (owner q = false -> l' !! 0%nat = Some t -> pipe q' <> [])).
Proof.
  intros [I Lk] Htm Hit Ha Hns Hl Hm. pose proof (inactive_absent _ _ _ _ I Hit Ha) as Hn.
  assert (forall (Q : bool -> _ -> Prop), Q false q -> wp (timer_scheduled t) q Q) as Hs.
  { intros Q HQ. unfold wp, timer_scheduled. by rewrite Hit, Ha. }
  unfold timer_add, timer_mod. apply wp_bind, Hs. apply wp_bind.
  unfold wp at 1, timer_of at 1. rewrite Htm. apply wp_bind, Hs.
  apply wp_bind, wp_ret. apply wp_bind. eapply wp_mono; [by apply (stamp_ok q l t tm ns)|].
  set (tm' := tm {{ timeout := _ }}). intros _ q2 [E2 I2].
  apply wp_bind, wp_lock; [subst q2; by hsimp|].
  apply wp_bind, wp_withcmp. eapply wp_mono.
  { apply (heap_insert_ok _ _ l); [|exact Hn|subst q2; hsimp; eauto|done].
    eapply core_ext in I2; [apply I2|by hsimp..]. }
  intros r h' [(-> & l' & R3 & P3 & O3 & _ & (j & Hj & Ij) & F3)|(-> & Hm' & _)].
  2: { exfalso. apply Hm'. subst q2. by hsimp. }
  cbn [Z.eqb negb]. wp_steps. unfold wp at 1, timer_index at 1. hsimp.
  specialize (Ij t Hj). destruct (items h' !! t) as [it'|] eqn:Hit'; [|done].
  injection Ij as Ij. apply wp_bind, raise_ok. intros p Hp. unfold tq_unlock. wp_steps.
  split; [done|]. exists l'. subst q2. split; [split|split; [done|split; [|split]]]; hsimp.
  - destruct I2 as [R2 O2 K2 A2]. split; hsimp; try done.
    + apply O3. revert O2. by hsimp.
    + intros u. rewrite P3. intros [->|Hu]%elem_of_cons; [by rewrite lookup_insert_eq|].
      apply K2 in Hu. revert Hu. by hsimp.
    + intros u iu Hu Hau. rewrite P3. destruct (decide (u ∈ t :: l)) as [|Hnu]; [done|].
      rewrite F3 in Hu by done. apply elem_of_cons. right. apply (A2 u iu); [|done].
      revert Hu. by hsimp.
  - done.
  - by rewrite lookup_total_insert_eq.
  - intros u Hu. by rewrite lookup_insert_ne.
  - intros Ho H0. apply Hp. hsimp. rewrite Ho.
    pose proof (NoDup_lookup _ _ _ _ (hr_nodup _ _ R3) Hj H0) as ->.
    by rewrite Ij.
Qed.

(** ** Emptying the queue *)
Section Destroy.
Context (destruct : itemp -> TQM unit).
(** A destructor frees its timer and leaves the queue alone. *)
Context (Hdestruct : forall t q, wp (destruct t) q (fun _ q' => q' = q)).

Lemma destroy_loop_ok fuel q l :
  tq_core q l -> (length l < fuel)%nat ->
  wp (destroy_loop destruct fuel) q (fun _ q' => exists h,
    q' = q {{ queue := h }} /\ tq_core q' []).
Proof using Hdestruct.
  revert q l. induction fuel as [|fuel IH]; intros q l I Hfuel; [lia|].
  cbn [destroy_loop]. apply (wp_run_Ok _ _ _ _ _ _ (heap_empty_run _ _ (ti_rep _ _ I))).
  destruct l as [|x l0] eqn:El.
  { rewrite bool_decide_true by done. apply wp_ret. exists (queue q).
    replace (q {{ queue := queue q }}) with q by (by destruct q; hsimp). done. }
  rewrite bool_decide_false by done. rewrite <-El in *. apply wp_bind.
  eapply wp_mono; [by apply (remove_first_ok q l x l0)|].
  intros r q2 (-> & h' & l' & -> & P & I2 & _).
  destruct (ti_known _ _ I x) as [tm Htm]; [rewrite El; set_solver|].
  apply wp_bind. unfold wp at 1, timer_of at 1. hsimp. rewrite Htm. apply wp_bind.
  assert (wp (if has_destruct tm then destruct x else mret tt) (q {{ queue := h' }})
    (fun _ q' => q' = q {{ queue := h' }})) as Hd by (by destruct (has_destruct tm)).
  eapply wp_mono; [exact Hd|]. intros _ ? ->.
  eapply wp_mono; [apply (IH _ l' I2)|].
  - apply Permutation_length in P. simpl in P. lia.
  - intros _ q3 (h3 & -> & I3). exists h3. split; [by hsimp|]. revert I3. by hsimp.
Qed.

(** Emptying the queue ends, within one pass per timer, with
    no timer queued and the mutex free. *)
Theorem timer_list_destroy_ok q l :
  tq_inv q l -> wp (timer_list_destroy destruct) q (fun _ q' => tq_inv q' []).
Proof using Hdestruct.
  intros [I Lk]. unfold timer_list_destroy. apply wp_bind, wp_lock; [done|].
  apply wp_bind, wp_onheap. unfold heap_size. wp_steps.
  replace (q {{ tq_locked := true }} {{ queue := queue (q {{ tq_locked := true }}) }})
    with (q {{ tq_locked := true }}) by (by destruct q; hsimp). hsimp.
  eapply wp_mono.
  { apply (destroy_loop_ok _ _ l); [by eapply core_ext; [..|exact I]; hsimp|].
    rewrite (hr_size _ _ (ti_rep _ _ I)). lia. }
  intros _ q2 (h & -> & I2). unfold tq_unlock. wp_steps. split; [|by hsimp].
  by eapply core_ext; [..|exact I2]; hsimp.
Qed.
End Destroy.

(** ** What the owner waits for *)

(** The owner of the queue is told to wait until the earliest
    timer, and not at all when that timer is overdue; asking does not change
    the queue. *)
Theorem next_timeout_ok q l :
  tq_inv q l ->
  (l = [] /\ timer_next_timeout_timespec q = Ok (None, q)) \/
  exists t, t ∈ l /\ (forall y, y ∈ l -> not_after (timers q) t y) /\
    let wait := timespec_sub (timeout (timers q !!! t)) (now q) in
    timer_next_timeout_timespec q =
      Ok (Some (if tv_sec wait <? 0 then Timespec 0 0 else wait), q).
Proof.
  intros [I Lk]. pose proof (ti_rep _ _ I) as R. unfold timer_next_timeout_timespec.
  rewrite (bind_Ok _ _ _ _ _ (lock_run _ Lk)).
  set (q1 := q {{ tq_locked := true }}).
  rewrite (bind_Ok _ _ _ _ _ (heap_empty_run q1 l R)).
  destruct l as [|x l0]; [left|right; exists x].
  - split; [done|]. rewrite bool_decide_true by done.
    unfold tq_unlock, mbind, M_bind, modS, mret, M_ret. subst q1. by rewrite unlocked.
  - split; [set_solver|]. split; [intros y; by apply (root_first q (x :: l0) x l0)|].
    destruct (ti_known _ _ I x) as [tm Htm]; [set_solver|].
    rewrite bool_decide_false by done. unfold gettime.
    rewrite (bind_Ok _ _ _ (now q) q1) by done.
    rewrite (bind_Ok _ _ _ _ _ (heap_front_run q1 x l0 R)).
    rewrite (bind_Ok _ _ _ _ _ (timer_of_run q1 _ _ Htm)).
    unfold tq_unlock, mbind, M_bind, modS, mret, M_ret. subst q1.
    by rewrite unlocked, (lookup_total_correct _ _ _ Htm).
Qed.

(** ** Where the positions recorded in the items go wrong *)
Module Demo.

Definition quiet : itemp -> TQM unit := fun _ => mret tt.
(** An initialised queue and the timers 1, 2, ... with the given expiries. *)
Definition fresh (exps : list Z) : timer_queue :=
  TimerQueue
    (Heap 200 0 (replicate 200 None)
       (list_to_map (zip (seq 1 (length exps)) (replicate (length exps) (HeapItem 0 0)))) [])
    false [] true (Timespec 0 0)
    (list_to_map (zip (seq 1 (length exps)) ((fun e => Timer (Timespec 0 0) e true true) <$> exps))).
Definition add_all (n : nat) : TQM unit :=
  foldr (fun t m => timer_add t;; m) (mret tt) (seq 1 n).
Definition queued (q : timer_queue) : list (option itemp) :=
  take (Z.to_nat (size (queue q))) (hmap (queue q)).
Definition ran {A} (o : outcome (A * timer_queue)) (d : timer_queue) : timer_queue :=
  match o with Ok (_, q) => q | _ => d end.

(** A position goes stale.  After two timers are added and the
    first one has fired, the second is at position 0 but still records
    position 1, because [heap_heapify] writes positions only when it exchanges
    items; [timer_del] on it then removes nothing, and the cancelled timer
    stays queued and fires. *)
Theorem timer_del_misses :
  exists q, (add_all 2;; timer_handle_timeout quiet;; timer_del 2%nat) (fresh [10; 20])
      = Ok (tt, q) /\ queued q = [Some 2%nat] /\
    hi_active <$> items (queue q) !! 2%nat = Some 1.
Proof. eexists. split_and!; [vm_compute; reflexivity|reflexivity..]. Qed.

(** Removal from the middle breaks the heap order.  [heap_remove]
    only sifts the moved item down; when it sorts before its new parent it
    stays below it, and a later timer then fires before an earlier one. *)
Theorem timer_del_disorders :
  exists q, (add_all 7;; timer_del 4%nat) (fresh [10; 100; 20; 110; 120; 30; 40]) = Ok (tt, q) /\
    queued q = [Some 1; Some 2; Some 3; Some 7; Some 5; Some 6]%nat /\
    heap_cmp (timers q) 7%nat 2%nat = true.
Proof. eexists. split_and!; [vm_compute; reflexivity|reflexivity..]. Qed.

(** The facts of [tq_inv] over a concrete queue, decided by evaluation. *)
Definition sound (q : timer_queue) (l : list itemp) : bool :=
  bool_decide (size (queue q) = Z.of_nat (length l) /\
    Z.of_nat (length (hmap (queue q))) = max_size (queue q) /\
    (size (queue q) <= max_size (queue q) < 2 ^ 31 - 1) /\
    take (length l) (hmap (queue q)) = Some <$> l /\
    Forall (fun t => hi_active <$> items (queue q) !! t = Some 1 /\
                     is_Some (timers q !! t)) l /\
    NoDup l /\
    map_Forall (fun t it => hi_active it <> 0 -> t ∈ l) (items (queue q)) /\
    Forall (fun j => before (heap_cmp (timers q)) l j (par j) = false) (seq 0 (length l)) /\
    tq_locked q = false).

Lemma sound_inv q l : sound q l = true -> tq_inv q l.
Proof.
  intros (Hs & Hc & Hb & Ht & Ha & Hn & Hm & Ho & Hl)%bool_decide_eq_true_1.
  rewrite Forall_forall in Ha. split; [|done]. split.
  - split; [done..| | |done].
    + intros k x Hk. pose proof (lookup_lt_Some _ _ _ Hk).
      rewrite <-(lookup_take_lt _ (length l)), Ht by done.
      by rewrite list_lookup_fmap, Hk.
    + intros x Hx. destruct (Ha x Hx) as [Hi _].
      destruct (items (queue q) !! x) as [it|]; naive_solver.
  - intros j Hj. apply not_before_edge. destruct (decide (j < length l)%nat).
    + rewrite Forall_forall in Ho. apply Ho, elem_of_seq. lia.
    + unfold before. by rewrite lookup_ge_None_2 by lia.
  - intros t Ht'. by apply Ha.
  - intros t it Hit. by apply (Hm t it).
Qed.

Definition two : timer_queue := ran (add_all 2 (fresh [20; 10])) (fresh []).

Lemma two_inv : tq_inv two [2; 1]%nat.
Proof. apply sound_inv. vm_compute. reflexivity. Qed.

(** Four timers; the last added is due first.  The three others keep their order
    and, behind the first, their positions. *)
Definition four : timer_queue := ran (add_all 4 (fresh [20; 30; 40; 10])) (fresh []).
Lemma four_inv : tq_inv four [4; 1; 3; 2]%nat.
Proof. apply sound_inv. vm_compute. reflexivity. Qed.
Lemma timer_handle_timeout_ok_witness :
  exists t l' q', [4; 1; 3; 2]%nat ≡ₚ t :: l' /\
    (forall y, y ∈ [4; 1; 3; 2]%nat -> not_after (timers four) t y) /\ tq_inv q' l' /\
    indexed_at (queue q') l' 2 /\
    timer_handle_timeout quiet four =
      ((if has_callback (timers four !!! t) then quiet t else mret tt);; mret 0) q'.
Proof.
  destruct (timer_handle_timeout_ok quiet four [4; 1; 3; 2]%nat four_inv)
    as [[? _]|(t & l' & q' & ? & ? & ? & _ & _ & Hk & ?)]; [discriminate|].
  exists t, l', q'. split; [assumption|]. split; [assumption|]. split; [assumption|].
  split; [|assumption]. apply Hk; [discriminate|].
  intros x Hx. injection Hx as <-. vm_compute. reflexivity.
Defined.

Definition one : timer_queue := ran (timer_add 1%nat (fresh [20; 10])) (fresh []).
Lemma one_inv : tq_inv one [1]%nat.
Proof. apply sound_inv. vm_compute. reflexivity. Qed.

Lemma timer_add_ok_witness :
  exists l' q', timer_add 2%nat one = Ok (1, q') /\ tq_inv q' l' /\ l' ≡ₚ [2; 1]%nat.
Proof.
  destruct (proj1 (wp_run _ _ _) (timer_add_ok one [1]%nat 2%nat
    (Timer (Timespec 0 0) 10 true true) (HeapItem 0 0) 10000 one_inv
    ltac:(vm_compute; reflexivity) ltac:(vm_compute; reflexivity) eq_refl
    ltac:(vm_compute; reflexivity) ltac:(vm_compute; reflexivity) ltac:(vm_compute; reflexivity)))
    as (r & q' & Hrun & -> & l' & Hinv & Hp & _).
  exists l', q'. split; [exact Hrun|]. split; assumption.
Defined.

Lemma timer_list_destroy_ok_witness :
  wp (timer_list_destroy quiet) two (fun _ q' => tq_inv q' []).
Proof.
  apply (timer_list_destroy_ok quiet) with (l := [2; 1]%nat);
    [intros t q; reflexivity|apply two_inv].
Defined.

Lemma next_timeout_ok_witness :
  exists t, t ∈ [2; 1]%nat /\ (forall y, y ∈ [2; 1]%nat -> not_after (timers two) t y).
Proof.
  destruct (next_timeout_ok two [2; 1]%nat two_inv) as [[? _]|(t & ? & ? & _)];
    [discriminate|exists t; split; assumption].
Defined.
End Demo.
