(* ===== verification/UTimer.v ===== *)
(** * The user-level stack's kernel timers (src/stack/userlevel/timer.c)

    The timers of the user-level stack (retransmission, time-wait, migration)
    are linked in the order of their absolute expiry in one global list under
    a mutex; the main loop sleeps until the first of them and is woken through
    a pipe when the first one changes.  Taking the mutex while it is held is a
    deadlock, represented as a fault.  The clock does not advance within one
    call; it may between calls. *)
From S2P Require Import Prelude Heap TimerQueue.
Local Open Scope Z_scope.

(** The address of a [struct timer_list]. *)
Definition timerp := nat.

Definition HZ : Z := 100.
Definition TICKS_PER_HZ : Z := 10000000.

(** [struct timer_list]; [linked] is [entry.next != NULL]. *)
Record ktimer := KTimer {
  linked : bool;
  kexpires : Z;
  expires_abs : timespec;
  has_function : bool;
}.

(** [struct timer_list_head] and the clock; [head] is the list in its order,
    [sigpipe] the unread bytes of the wake-up pipe, [sig_open] whether
    [signal[1]] is an open descriptor. *)
Record timer_head := TimerHead {
  start_time : timespec;
  head : list timerp;
  th_locked : bool;
  sig_open : bool;
  sigpipe : nat;
  clock : timespec;
  ktimers : gmap timerp ktimer;
}.

Definition TLM := M timer_head.

Definition timer_list_lock : TLM unit := fun h =>
  if th_locked h then Fault else Ok (tt, h {{ th_locked := true }}).
Definition timer_list_unlock : TLM unit := modS (fun h => h {{ th_locked := false }}).
Definition ktimer_of (t : timerp) : TLM ktimer := fun h =>
  match ktimers h !! t with Some k => Ok (k, h) | None => Fault end.
Definition upd_ktimer (t : timerp) (f : ktimer -> ktimer) : TLM unit := fun h =>
  match ktimers h !! t with
  | Some k => Ok (tt, h {{ ktimers := <[t := f k]> (ktimers h) }})
  | None => Fault
  end.
Definition set_head (l : list timerp) : TLM unit := modS (fun h => h {{ head := l }}).

Definition timespec_to_jiffies (ts : timespec) : Z :=
  tv_sec ts * HZ + tv_nsec ts ÷ TICKS_PER_HZ.
Definition jiffies_to_nsecs (j : Z) : Z := u64 (j * TICKS_PER_HZ).
Definition gettime_jiffies : TLM Z :=
  gets (fun h => u64 (timespec_to_jiffies (timespec_sub (clock h) (start_time h)))).

Definition signal_pending : TLM bool := gets (fun h => negb (sigpipe h =? 0)%nat).
Definition timer_list_signal_lower : TLM unit := modS (fun h => h {{ sigpipe := 0%nat }}).
Definition timer_list_signal_timer_change : TLM Z :=
  h ← getS;
  if negb (sig_open h) then mret (-1)
  else
    p ← signal_pending;
    if p : bool then mret 0
    else modS (fun h => h {{ sigpipe := 1%nat }});; mret 1.

Definition timer_pending (t : timerp) : TLM bool := k ← ktimer_of t; mret (linked k).

(** [list_del] of the entry, wherever it is in the list. *)
Fixpoint list_del (t : timerp) (l : list timerp) : list timerp :=
  match l with
  | [] => []
  | u :: l => if decide (u = t) then l else u :: list_del t l
  end.

Definition init_timer (t : timerp) : TLM unit :=
  upd_ktimer t (fun _ => KTimer false 0 (Timespec 0 0) false).
Definition setup_timer (t : timerp) : TLM unit :=
  init_timer t;; upd_ktimer t (fun k => k {{ has_function := true }}).

(** The place of an entry that expires at [e]: before the first that expires
    later. *)
Fixpoint insert_sorted (ts : gmap timerp ktimer) (t : timerp) (e : timespec)
    (l : list timerp) : option (list timerp) :=
  match l with
  | [] => Some [t]
  | u :: l' =>
      match ts !! u with
      | None => None
      | Some ku =>
          if timespec_lt e (expires_abs ku) then Some (t :: l)
          else (cons u) <$> insert_sorted ts t e l'
      end
  end.

(** Link [t], which expires at [e], and signal when it is now the first. *)
Definition insert_timer (t : timerp) (e : timespec) : TLM unit :=
  h ← getS;
  match insert_sorted (ktimers h) t e (head h) with
  | None => faultM
  | Some l' =>
      set_head l';;
      upd_ktimer t (fun k => k {{ linked := true }});;
      if bool_decide (l' !! 0%nat = Some t) then timer_list_signal_timer_change;; mret tt
      else mret tt
  end.

Definition mod_timer (t : timerp) (exp : Z) : TLM Z :=
  timer_list_lock;;
  k ← ktimer_of t;
  if linked k && (kexpires k =? exp) then timer_list_unlock;; mret 1
  else
    h ← getS;
    (if linked k then set_head (list_del t (head h)) else mret tt);;
    j ← gettime_jiffies;
    let delta := u64 (exp - j) in
    (* unsigned arithmetic: [jiffies_to_nsecs] is a [uint64_t] *)
    let e := timespec_normalize
               (Timespec (tv_sec (clock h) + jiffies_to_nsecs delta / NSEC_PER_SEC)
                         (tv_nsec (clock h) + jiffies_to_nsecs delta mod NSEC_PER_SEC)) in
    upd_ktimer t (fun k => k {{ kexpires := exp; expires_abs := e }});;
    insert_timer t e;;
    timer_list_unlock;;
    mret (if linked k then 1 else 0).

Definition add_timer (t : timerp) : TLM unit :=
  p ← timer_pending t;
  if p : bool then faultM (* BUG_ON *)
  else k ← ktimer_of t; mod_timer t (kexpires k);; mret tt.

Definition del_timer (t : timerp) : TLM Z :=
  timer_list_lock;;
  k ← ktimer_of t;
  if negb (linked k) then mret 0
  else
    h ← getS;
    let first := bool_decide (head h !! 0%nat = Some t) in
    set_head (list_del t (head h));;
    upd_ktimer t (fun k => k {{ linked := false }});;
    timer_list_unlock;;
    (if first then timer_list_signal_timer_change;; mret tt else mret tt);;
    mret 1.

(** The time to wait for the first timer. *)
Definition timer_list_get_next_timeout : TLM (option timespec) :=
  timer_list_lock;;
  modS (fun h => h {{ sig_open := true }});;
  timer_list_signal_lower;;
  h ← getS;
  match head h with
  | [] => timer_list_unlock;; mret None
  | t :: _ =>
      k ← ktimer_of t;
      timer_list_unlock;;
      mret (Some (timespec_sub (expires_abs k) (clock h)))
  end.

(** [function]: the effect of the timer's callback. *)
Definition timer_list_handle_timeout (function : timerp -> TLM unit) : TLM Z :=
  timer_list_lock;;
  h ← getS;
  match head h with
  | [] => timer_list_unlock;; mret 0
  | t :: l =>
      set_head l;;
      upd_ktimer t (fun k => k {{ linked := false }});;
      timer_list_unlock;;
      k ← ktimer_of t;
      (if has_function k then function t else mret tt);;
      mret 1
  end.
