(* ===== verification/UTimerOk.v ===== *)
(** * Correctness of the user-level timer list (src/stack/userlevel/timer.c)

    The list is kept in the order of expiry, the timer at its head is the one
    that fires, and the main loop is woken whenever the head changes; with two
    ways in which the code departs from the kernel interface it imitates. *)
From S2P Require Import Prelude Heap TimerQueue UTimer.
Local Open Scope Z_scope.

Local Ltac hsimp := repeat record.simp.

#[export] Instance ktimer_inhabited : Inhabited ktimer :=
  populate (KTimer false 0 (Timespec 0 0) false).

(** [x] does not expire after [y]. *)
Definition expires_first (ts : gmap timerp ktimer) (x y : timerp) : Prop :=
  timespec_lt (expires_abs (ts !!! y)) (expires_abs (ts !!! x)) = false.

Record tl_core (h : timer_head) : Prop := {
  tl_nodup : NoDup (head h);
  tl_linked t : t ∈ head h <-> exists k, ktimers h !! t = Some k /\ linked k = true;
  tl_sorted : StronglySorted (expires_first (ktimers h)) (head h);
}.
Definition tl_inv (h : timer_head) : Prop := tl_core h /\ th_locked h = false.

Lemma core_known h t : tl_core h -> t ∈ head h -> is_Some (ktimers h !! t).
Proof. intros I (k & ? & _)%(tl_linked _ I). eauto. Qed.

(** ** Lists *)
Lemma list_del_perm t l : t ∈ l -> l ≡ₚ t :: list_del t l.
Proof.
  induction l as [|u l IH]; intros Ht; [set_solver|]. simpl. case_decide as Hu; [by subst|].
  assert (t ∈ l) as Hl by set_solver. rewrite (IH Hl) at 1. apply perm_swap.
Qed.
Lemma list_del_absent t l : t ∉ l -> list_del t l = l.
Proof.
  induction l as [|u l IH]; intros Ht; [done|]. simpl. rewrite decide_False by set_solver.
  f_equal. set_solver.
Qed.
Lemma list_del_sublist t l : list_del t l `sublist_of` l.
Proof.
  induction l as [|u l IH]; simpl; [done|]. case_decide; by constructor.
Qed.
Lemma StronglySorted_sublist {A} (R : A -> A -> Prop) l l' :
  l' `sublist_of` l -> StronglySorted R l -> StronglySorted R l'.
Proof.
  induction 1 as [|x l1 l2 Hs IH|x l1 l2 Hs IH]; [done|..];
    intros [? Hf]%StronglySorted_inv; [|auto].
  constructor; [auto|]. rewrite Forall_forall in *. intros y Hy. apply Hf. by eapply elem_of_sublist.
Qed.
Lemma sorted_ext ts ts' l :
  (forall x, x ∈ l -> expires_abs (ts' !!! x) = expires_abs (ts !!! x)) ->
  StronglySorted (expires_first ts) l -> StronglySorted (expires_first ts') l.
Proof.
  induction l as [|u l IH]; intros He; [constructor|]. intros [Hs Hf]%StronglySorted_inv.
  constructor; [apply IH; [set_solver|done]|]. rewrite Forall_forall in *. intros x Hx.
  unfold expires_first. rewrite !He by set_solver. by apply Hf.
Qed.

Lemma first_refl_trans ts x y z :
  expires_first ts x y -> expires_first ts y z -> expires_first ts x z.
Proof. unfold expires_first, timespec_lt. lia. Qed.
Lemma lt_first ts x y :
  timespec_lt (expires_abs (ts !!! x)) (expires_abs (ts !!! y)) = true -> expires_first ts x y.
Proof. unfold expires_first, timespec_lt. lia. Qed.

Lemma insert_sorted_ok ts t l :
  (forall u, u ∈ l -> is_Some (ts !! u)) -> StronglySorted (expires_first ts) l ->
  exists l', insert_sorted ts t (expires_abs (ts !!! t)) l = Some l' /\ l' ≡ₚ t :: l /\
    StronglySorted (expires_first ts) l'.
Proof.
  induction l as [|u l IH]; intros Hk Hs; simpl.
  { exists [t]. split; [done|]. split; [done|]. by repeat constructor. }
  destruct (Hk u ltac:(set_solver)) as [ku Hu]. rewrite Hu.
  rewrite <-(lookup_total_correct _ _ _ Hu). apply StronglySorted_inv in Hs as [Hs Hf].
  destruct (timespec_lt _ _) eqn:Hlt.
  - exists (t :: u :: l). split; [done|]. split; [done|]. apply lt_first in Hlt.
    constructor; [by constructor|]. constructor; [done|].
    eapply Forall_impl; [exact Hf|]. intros x. by apply first_refl_trans.
  - destruct IH as (l' & -> & Hp & Hs'); [set_solver|done|]. exists (u :: l'). simpl.
    split; [done|]. split; [rewrite Hp; apply perm_swap|]. constructor; [done|].
    rewrite Hp. constructor; [exact Hlt|done].
Qed.

(** ** Steps *)
Lemma wp_tl_lock h (Q : unit -> timer_head -> Prop) :
  th_locked h = false -> Q tt (h {{ th_locked := true }}) -> wp timer_list_lock h Q.
Proof. unfold wp, timer_list_lock. by intros ->. Qed.
Lemma wp_ktimer_of h t k (Q : ktimer -> timer_head -> Prop) :
  ktimers h !! t = Some k -> Q k h -> wp (ktimer_of t) h Q.
Proof. unfold wp, ktimer_of. by intros ->. Qed.
Lemma wp_upd_ktimer h t k f (Q : unit -> timer_head -> Prop) :
  ktimers h !! t = Some k -> Q tt (h {{ ktimers := <[t := f k]> (ktimers h) }}) ->
  wp (upd_ktimer t f) h Q.
Proof. unfold wp, upd_ktimer. by intros ->. Qed.

(** When the pipe is open, a change at the head leaves it readable. *)
Lemma wp_change h (b : bool) (Q : unit -> timer_head -> Prop) :
  (forall n, (b = true -> sig_open h = true -> n <> 0%nat) -> Q tt (h {{ sigpipe := n }})) ->
  wp (if b then timer_list_signal_timer_change;; mret tt else mret tt) h Q.
Proof.
  intros HQ. assert (h = h {{ sigpipe := sigpipe h }}) as E by (by destruct h; hsimp).
  destruct b; [|apply wp_ret; rewrite E; by apply HQ].
  unfold wp, timer_list_signal_timer_change, signal_pending, mbind, M_bind, getS, gets, mret, M_ret.
  destruct (sig_open h) eqn:Hs; simpl.
  - destruct (Nat.eqb_spec (sigpipe h) 0); simpl.
    + unfold modS. by apply HQ.
    + rewrite E. by apply HQ.
  - rewrite E. by apply HQ.
Qed.

(** The list without an entry, the entry then written over. *)
Lemma unlinked_core h t k :
  tl_core h -> ktimers h !! t = Some k ->
  forall k' h', head h' = (if linked k then list_del t (head h) else head h) ->
    ktimers h' = <[t := k']> (ktimers h) -> linked k' = false -> tl_core h'.
Proof.
  intros [N L S] Hk k' h' Eh Ek Hl.
  assert (forall u, u ∈ head h' <-> u ∈ head h /\ u <> t) as Hin.
  { intros u. rewrite Eh. destruct (linked k) eqn:Hlk.
    - assert (t ∈ head h) as Ht by (apply L; eauto).
      pose proof (list_del_perm _ _ Ht) as P. rewrite P in N. apply NoDup_cons in N as [Hn _].
      rewrite P at 2. set_solver.
    - assert (t ∉ head h) by (intros (k2 & ? & ?)%L; congruence). set_solver. }
  assert (head h' `sublist_of` head h) as Hsub.
  { rewrite Eh. destruct (linked k); [apply list_del_sublist|done]. }
  split.
  - by eapply sublist_NoDup.
  - intros u. rewrite Hin, L, Ek. destruct (decide (u = t)) as [->|].
    + rewrite lookup_insert_eq. split; [by intros [_ []]|].
      intros (k2 & [= <-] & ?). congruence.
    + rewrite lookup_insert_ne by done. clear -n. tauto.
  - eapply sorted_ext; [|by eapply StronglySorted_sublist]. intros x Hx.
    rewrite Ek, lookup_total_insert_ne; [done|]. apply Hin in Hx as [_ Hx]. by intros <-.
Qed.

(** Linking an entry at its place. *)
Lemma linked_core h t k l' h' :
  tl_core h -> ktimers h !! t = Some k -> linked k = false ->
  l' ≡ₚ t :: head h -> StronglySorted (expires_first (ktimers h)) l' ->
  head h' = l' -> ktimers h' = <[t := k {{ linked := true }}]> (ktimers h) -> tl_core h'.
Proof.
  intros [N L S] Hk Hl P Hs Eh Ek.
  assert (t ∉ head h) as Hn by (intros (k2 & ? & ?)%L; congruence).
  split.
  - rewrite Eh, P. by constructor.
  - intros u. rewrite Eh, P, elem_of_cons, L, Ek. destruct (decide (u = t)) as [->|].
    + rewrite lookup_insert_eq. split; [|by left]. intros _. eexists. split; [done|]. by hsimp.
    + rewrite lookup_insert_ne by done. clear -n. split; [by intros [|]|by right].
  - rewrite Eh. eapply sorted_ext; [|done]. intros x _. rewrite Ek.
    destruct (decide (x = t)) as [->|]; [|by rewrite lookup_total_insert_ne].
    rewrite lookup_total_insert_eq, (lookup_total_correct _ _ _ Hk). by hsimp.
Qed.

(** ** The operations *)

(** The absolute expiry [mod_timer] computes. *)
Definition expiry (h : timer_head) (exp : Z) : timespec :=
  let j := u64 (timespec_to_jiffies (timespec_sub (clock h) (start_time h))) in
  let ns := jiffies_to_nsecs (u64 (exp - j)) in
  timespec_normalize (Timespec (tv_sec (clock h) + ns / NSEC_PER_SEC)
                               (tv_nsec (clock h) + ns mod NSEC_PER_SEC)).

(** Moving an entry to the place its new expiry gives it. *)
Lemma relink_ok h t k exp e :
  tl_core h -> ktimers h !! t = Some k ->
  let l1 := if linked k then list_del t (head h) else head h in
  let k1 := k {{ kexpires := exp; expires_abs := e }} in
  exists l', insert_sorted (<[t := k1]> (ktimers h)) t e l1 = Some l' /\ l' ≡ₚ t :: l1 /\
    forall h', head h' = l' -> ktimers h' = <[t := k1 {{ linked := true }}]> (ktimers h) ->
      tl_core h'.
Proof.
  intros I Hk l1 k1. set (hv := h {{ head := l1; ktimers := <[t := k1 {{ linked := false }}]> (ktimers h) }}).
  assert (tl_core hv) as Iv by (eapply (unlinked_core h t k); [done..|]; by subst hv; hsimp).
  assert (forall x, expires_abs (<[t := k1]> (ktimers h) !!! x) = expires_abs (ktimers hv !!! x)) as Hext.
  { intros x. subst hv. hsimp. destruct (decide (x = t)) as [->|].
    - rewrite !lookup_total_insert_eq. by hsimp.
    - by rewrite !lookup_total_insert_ne. }
  destruct (insert_sorted_ok (<[t := k1]> (ktimers h)) t l1) as (l' & Hins & P & Hs).
  { intros u Hu. apply (core_known _ _ Iv) in Hu. revert Hu. subst hv. hsimp.
    by rewrite !lookup_insert_is_Some. }
  { eapply sorted_ext; [|apply (tl_sorted _ Iv)]. intros x _. apply Hext. }
  rewrite lookup_total_insert_eq in Hins. exists l'. split; [done|]. split; [done|].
  intros h' Eh Ek. eapply (linked_core hv t (k1 {{ linked := false }})); try done.
  - subst hv. hsimp. by rewrite lookup_insert_eq.
  - eapply sorted_ext; [|exact Hs]. intros x _. by rewrite Hext.
  - rewrite Ek. subst hv. hsimp. rewrite insert_insert_eq. by f_equal.
Qed.

Lemma wp_insert_timer h t e k l' (Q : unit -> timer_head -> Prop) :
  ktimers h !! t = Some k -> insert_sorted (ktimers h) t e (head h) = Some l' ->
  (forall n, (l' !! 0%nat = Some t -> sig_open h = true -> n <> 0%nat) ->
    Q tt (h {{ head := l'; ktimers := <[t := k {{ linked := true }}]> (ktimers h); sigpipe := n }})) ->
  wp (insert_timer t e) h Q.
Proof.
  intros Hk Hins HQ. unfold insert_timer. apply wp_bind, wp_getS. rewrite Hins.
  unfold set_head. wp_steps. apply (wp_upd_ktimer _ _ k); [by hsimp|].
  apply wp_change. hsimp. intros n Hn. apply HQ. intros H0. apply Hn. by apply bool_decide_eq_true_2.
Qed.

Lemma mod_timer_spec h t k exp :
  tl_inv h -> ktimers h !! t = Some k ->
  wp (mod_timer t exp) h (fun r h' => tl_inv h' /\ r = (if linked k then 1 else 0) /\
    if linked k && (kexpires k =? exp) then h' = h
    else
      ktimers h' = <[t := k {{ kexpires := exp; expires_abs := expiry h exp; linked := true }}]>
                     (ktimers h) /\
      head h' ≡ₚ t :: (if linked k then list_del t (head h) else head h) /\
      (head h' !! 0%nat = Some t -> sig_open h = true -> sigpipe h' <> 0%nat)).
Proof.
  intros [I Lk] Hk. unfold mod_timer. apply wp_bind, wp_tl_lock; [done|].
  apply wp_bind, (wp_ktimer_of _ _ k); [by hsimp|]. destruct (linked k && _) eqn:Hsame.
  { unfold timer_list_unlock. wp_steps. apply andb_true_iff in Hsame as [-> _].
    assert (h {{ th_locked := true }} {{ th_locked := false }} = h) as ->; [|by split].
    destruct h; hsimp; simpl in *. by subst. }
  destruct (relink_ok h t k exp (expiry h exp) I Hk) as (l' & Hins & P & Ic). clear Hsame.
  set (l1 := if linked k then list_del t (head h) else head h) in *.
  apply wp_bind, wp_getS. apply wp_bind.
  assert (forall Q : unit -> timer_head -> Prop, Q tt (h {{ th_locked := true; head := l1 }}) ->
    wp (if linked k then set_head (list_del t (head (h {{ th_locked := true }}))) else mret tt)
       (h {{ th_locked := true }}) Q) as Hdel.
  { intros Q HQ. subst l1. destruct (linked k); [exact HQ|]. apply wp_ret.
    replace (h {{ th_locked := true }}) with (h {{ th_locked := true; head := head h }}); [done|].
    by destruct h; hsimp. }
  apply Hdel. clear Hdel. apply wp_bind, wp_gets. apply wp_bind, (wp_upd_ktimer _ _ k); [by hsimp|].
  match goal with |- wp (insert_timer t ?x ≫= _) _ _ => change x with (expiry h exp) end.
  apply wp_bind. eapply wp_insert_timer; [hsimp; apply lookup_insert_eq|by hsimp|].
  intros n Hn. unfold timer_list_unlock. wp_steps. revert Hn. hsimp. rewrite insert_insert_eq.
  intros Hn. split; [split; [by apply Ic|done]|]. split; [done|]. split; [done|]. by split.
Qed.

(** C30 (invariant): [mod_timer] keeps the list in the order of expiry and
    leaves the timer in it exactly once, all other entries as they were; it
    reports whether the timer was pending, and when the timer that expires
    first changes to this one the main loop's pipe is left readable.  A call
    that does not change a pending timer's expiry changes nothing. *)
Theorem mod_timer_ok h t k exp :
  tl_inv h -> ktimers h !! t = Some k ->
  wp (mod_timer t exp) h (fun r h' => tl_inv h' /\ r = (if linked k then 1 else 0) /\
    if linked k && (kexpires k =? exp) then h' = h
    else
      ktimers h' = <[t := k {{ kexpires := exp; expires_abs := expiry h exp; linked := true }}]>
                     (ktimers h) /\
      head h' ≡ₚ t :: (if linked k then list_del t (head h) else head h) /\
      (head h' !! 0%nat = Some t -> sig_open h = true -> sigpipe h' <> 0%nat)).
Proof. apply mod_timer_spec. Qed.

Definition nsecs (ts : timespec) : Z := tv_sec ts * NSEC_PER_SEC + tv_nsec ts.
(** The current jiffies. *)
Definition jiffies (h : timer_head) : Z :=
  u64 (timespec_to_jiffies (timespec_sub (clock h) (start_time h))).

Lemma add_nsecs ts n :
  0 <= tv_nsec ts < NSEC_PER_SEC ->
  nsecs (timespec_normalize (Timespec (tv_sec ts + n / NSEC_PER_SEC)
                                      (tv_nsec ts + n mod NSEC_PER_SEC))) = nsecs ts + n.
Proof.
  intros Hts. unfold timespec_normalize, nsecs. simpl.
  pose proof (Z.mod_pos_bound n NSEC_PER_SEC eq_refl).
  pose proof (Z.div_mod n NSEC_PER_SEC ltac:(done)).
  rewrite (proj2 (Z.ltb_ge _ 0)) by lia. case Z.leb_spec; simpl; lia.
Qed.

Lemma expiry_future h exp :
  0 <= tv_nsec (clock h) < NSEC_PER_SEC -> jiffies h <= exp ->
  (exp - jiffies h) * TICKS_PER_HZ < 2 ^ 64 ->
  nsecs (expiry h exp) = nsecs (clock h) + (exp - jiffies h) * TICKS_PER_HZ.
Proof.
  intros Hc Hj Hb. unfold expiry. fold (jiffies h). rewrite add_nsecs by done.
  unfold jiffies_to_nsecs, u64. unfold TICKS_PER_HZ in *.
  rewrite (Z.mod_small (exp - _)) by lia. by rewrite Z.mod_small by lia.
Qed.

Lemma expiry_wraps h exp :
  0 <= tv_nsec (clock h) < NSEC_PER_SEC -> exp < jiffies h ->
  (jiffies h - exp) * TICKS_PER_HZ < 2 ^ 64 ->
  nsecs (expiry h exp) = nsecs (clock h) + 2 ^ 64 - (jiffies h - exp) * TICKS_PER_HZ.
Proof.
  intros Hc Hj Hb. unfold expiry. fold (jiffies h). rewrite add_nsecs by done.
  unfold jiffies_to_nsecs, u64. unfold TICKS_PER_HZ in *.
  rewrite Zmult_mod_idemp_l. set (d := jiffies h - exp) in *.
  replace ((exp - jiffies h) * 10000000) with (2 ^ 64 - d * 10000000 + (-1) * 2 ^ 64) by lia.
  rewrite Z_mod_plus_full, Z.mod_small by lia. lia.
Qed.

(** When a timer is armed for a tick of the future it is linked
    with exactly that absolute time; but for a tick of the past it is not taken
    as due.  The subtraction from the current jiffies is unsigned, and the
    timer is armed [2^64] nanoseconds ahead, more than 580 years, less the
    ticks by which it was late. *)
Theorem mod_timer_expiry h t k exp :
  tl_inv h -> ktimers h !! t = Some k -> linked k = false ->
  0 <= tv_nsec (clock h) < NSEC_PER_SEC ->
  Z.abs (jiffies h - exp) * TICKS_PER_HZ < 2 ^ 64 ->
  exists h' k', mod_timer t exp h = Ok (0, h') /\ ktimers h' !! t = Some k' /\
    nsecs (expires_abs k') =
      nsecs (clock h) + (exp - jiffies h) * TICKS_PER_HZ + (if exp <? jiffies h then 2 ^ 64 else 0).
Proof.
  intros I Hk Hl Hc Hb.
  destruct (proj1 (wp_run _ _ _) (mod_timer_spec h t k exp I Hk)) as (r & h' & Hrun & _ & Hr & Hpost).
  rewrite Hl in Hr, Hpost. destruct Hpost as (Hts & _). subst r.
  eexists h', _. split; [done|]. split; [rewrite Hts; apply lookup_insert_eq|]. hsimp.
  unfold TICKS_PER_HZ in *. case Z.ltb_spec; intros.
  - rewrite expiry_wraps by (unfold TICKS_PER_HZ; lia). unfold TICKS_PER_HZ. lia.
  - rewrite expiry_future by (unfold TICKS_PER_HZ; lia). unfold TICKS_PER_HZ. lia.
Qed.

(** The main loop's timeout handler unlinks the timer that
    expires first and calls its function with the mutex free; on an empty list
    it does nothing. *)
Theorem timer_list_handle_timeout_ok function h :
  tl_inv h ->
  (head h = [] /\ timer_list_handle_timeout function h = Ok (0, h)) \/
  exists t k l h', head h = t :: l /\ ktimers h !! t = Some k /\
    Forall (expires_first (ktimers h) t) l /\
    tl_inv h' /\ head h' = l /\ ktimers h' = <[t := k {{ linked := false }}]> (ktimers h) /\
    timer_list_handle_timeout function h =
      ((if has_function k then function t else mret tt);; mret 1) h'.
Proof.
  intros [I Lk]. unfold timer_list_handle_timeout.
  rewrite (bind_Ok _ _ _ tt (h {{ th_locked := true }})) by (unfold timer_list_lock; by rewrite Lk).
  rewrite (bind_Ok _ _ _ (h {{ th_locked := true }}) (h {{ th_locked := true }})) by done. hsimp.
  destruct (head h) as [|t l] eqn:Eh; [left; split; [done|]|right].
  { unfold timer_list_unlock, mbind, M_bind, modS, mret, M_ret. do 2 f_equal.
    destruct h; hsimp; simpl in *. by subst. }
  destruct (core_known _ t I) as [k Hk]; [rewrite Eh; set_solver|].
  pose proof (tl_sorted _ I) as Hs. rewrite Eh in Hs. apply StronglySorted_inv in Hs as [_ Hf].
  assert (linked k = true) as Hl.
  { destruct (proj1 (tl_linked _ I t)) as (k2 & ? & ?); [rewrite Eh; set_solver|]. by simplify_eq. }
  set (h' := h {{ head := l; ktimers := <[t := k {{ linked := false }}]> (ktimers h) }}).
  exists t, k, l, h'. split; [done|]. split; [done|]. split; [done|]. split.
  { split; [|by subst h'; hsimp]. apply (unlinked_core h t k I Hk (k {{ linked := false }})); [|done..].
    subst h'. hsimp. rewrite Hl, Eh. simpl. by rewrite decide_True. }
  split; [by subst h'; hsimp|]. split; [by subst h'; hsimp|].
  rewrite (bind_Ok _ _ _ tt (h {{ th_locked := true; head := l }})) by (unfold set_head, modS; by hsimp).
  rewrite (bind_Ok _ _ _ tt (h' {{ th_locked := true }})).
  2: { unfold upd_ktimer. hsimp. rewrite Hk. subst h'. by hsimp. }
  rewrite (bind_Ok _ _ _ tt h').
  2: { unfold timer_list_unlock, modS. do 2 f_equal. subst h'. destruct h; hsimp; simpl in *. by subst. }
  rewrite (bind_Ok _ _ _ (k {{ linked := false }}) h').
  2: { unfold ktimer_of. subst h'. hsimp. by rewrite lookup_insert_eq. }
  by hsimp.
Qed.

(** [del_timer] of a pending timer unlinks it, signals when it was the first
    and releases the mutex. *)
Lemma del_timer_pending_ok h t k :
  tl_inv h -> ktimers h !! t = Some k -> linked k = true ->
  wp (del_timer t) h (fun r h' => r = 1 /\ tl_inv h' /\ head h' = list_del t (head h)).
Proof.
  intros [I Lk] Hk Hl. unfold del_timer. apply wp_bind, wp_tl_lock; [done|].
  apply wp_bind, (wp_ktimer_of _ _ k); [by hsimp|]. rewrite Hl. cbn [negb].
  apply wp_bind, wp_getS. unfold set_head. wp_steps.
  apply (wp_upd_ktimer _ _ k); [by hsimp|]. unfold timer_list_unlock. wp_steps.
  apply wp_change. intros n _. wp_steps. hsimp. split; [done|]. split; [split|done]; hsimp; [|done].
  apply (unlinked_core h t k I Hk (k {{ linked := false }})); [|done..]. hsimp. by rewrite Hl.
Qed.

(** [del_timer] of a timer that is not pending returns with the
    mutex held, and every later operation on the timers then deadlocks. *)
Theorem del_timer_idle_deadlocks h t k u :
  tl_inv h -> ktimers h !! t = Some k -> linked k = false ->
  exists h', del_timer t h = Ok (0, h') /\
    (forall exp, mod_timer u exp h' = Fault) /\ del_timer u h' = Fault /\
    timer_list_get_next_timeout h' = Fault /\
    (forall f, timer_list_handle_timeout f h' = Fault).
Proof.
  intros [I Lk] Hk Hl. exists (h {{ th_locked := true }}). split_and!.
  - unfold del_timer, timer_list_lock, ktimer_of, mbind, M_bind. rewrite Lk. hsimp.
    by rewrite Hk, Hl.
  - done.
  - done.
  - done.
  - done.
Qed.

Module Demo.
(** One pending timer and one idle one, a second after start. *)
Definition h0 : timer_head :=
  TimerHead (Timespec 0 0) [1%nat] false true 0 (Timespec 1 0)
    {[ 1%nat := KTimer true 150 (Timespec 1 500000000) true;
       2%nat := KTimer false 0 (Timespec 0 0) true ]}.

Lemma h0_inv : tl_inv h0.
Proof.
  split; [|done]. split.
  - by apply NoDup_singleton.
  - intros t. unfold h0. simpl. rewrite list_elem_of_singleton. split.
    + intros ->. by eexists.
    + intros (k & Hk & Hl). rewrite lookup_insert_Some, lookup_singleton_Some in Hk. naive_solver.
  - repeat constructor.
Qed.

Lemma mod_timer_ok_witness :
  exists h', mod_timer 2%nat 120 h0 = Ok (0, h') /\ tl_inv h' /\ sigpipe h' <> 0%nat.
Proof.
  destruct (proj1 (wp_run _ _ _) (mod_timer_ok h0 2%nat (KTimer false 0 (Timespec 0 0) true) 120
    h0_inv eq_refl)) as (r & h' & Hrun & Hinv & Hr & _ & _ & Hsig).
  exists h'. rewrite Hr in Hrun. split; [exact Hrun|]. split; [exact Hinv|].
  apply Hsig; [|reflexivity]. vm_compute in Hrun. injection Hrun as <-. reflexivity.
Defined.

Lemma mod_timer_expiry_witness :
  exists h' k', mod_timer 2%nat 99 h0 = Ok (0, h') /\ ktimers h' !! 2%nat = Some k' /\
    nsecs (expires_abs k') = nsecs (clock h0) + (99 - jiffies h0) * TICKS_PER_HZ + 2 ^ 64.
Proof.
  apply (mod_timer_expiry h0 2%nat (KTimer false 0 (Timespec 0 0) true) 99 h0_inv);
    [reflexivity|reflexivity|split; [discriminate|reflexivity]|vm_compute; reflexivity].
Defined.

Lemma timer_list_handle_timeout_ok_witness :
  exists t l, head h0 = t :: l /\ Forall (expires_first (ktimers h0) t) l.
Proof.
  destruct (timer_list_handle_timeout_ok (fun _ => mret tt) h0 h0_inv)
    as [[? _]|(t & k & l & h' & ? & _ & ? & _)]; [discriminate|].
  exists t, l. split; assumption.
Defined.

Lemma del_timer_idle_deadlocks_witness :
  exists h', del_timer 2%nat h0 = Ok (0, h') /\ del_timer 1%nat h' = Fault.
Proof.
  destruct (del_timer_idle_deadlocks h0 2%nat (KTimer false 0 (Timespec 0 0) true) 1%nat
    h0_inv eq_refl eq_refl) as (h' & ? & _ & ? & _).
  exists h'. split; assumption.
Defined.
End Demo.
