(* ===== verification/TcpSock.v ===== *)
(** * The TCP socket (src/stack/serval_tcp_sock.h, serval_tcp.h,
    userlevel/serval_tcp_user.h, include/serval/sock.h lines 485-492 and
    720-755, userlevel/sock.c lines 378-387 and 456-553)

    The fields of [struct serval_tcp_sock] and [struct sock] that the receive
    path, the window and the congestion control use, the segments in the
    queues, and the memory accounting.  The user-level build is modelled:
    selective acknowledgements, PAWS and DMA are compiled out, urgent data is
    commented out, and HZ is 100. *)
From S2P Require Import Prelude.
From coqutil Require Export Datatypes.RecordSetters.
Export DoubleBraceUpdate.
Local Open Scope Z_scope.

(** ** Sequence numbers *)
Definition before (seq1 seq2 : Z) : bool := s32 (seq1 - seq2) <? 0.
Definition after (seq2 seq1 : Z) : bool := before seq1 seq2.
Definition between (seq1 seq2 seq3 : Z) : bool := u32 (seq1 - seq2) <=? u32 (seq3 - seq2).

(** ** Constants *)
Definition TCPH_FIN : Z := 1.
Definition TCPH_SYN : Z := 2.
Definition TCPH_RST : Z := 4.
Definition TCPH_PSH : Z := 8.
Definition TCPH_ACK : Z := 16.
Definition TCPH_URG : Z := 32.
(** [TCP_FLAG_FIN|TCP_FLAG_URG|TCP_FLAG_SYN|TCP_FLAG_PSH] *)
Definition TCP_REMNANT : Z := 43.
Definition SERVAL_TCP_MSS_DEFAULT : Z := 1460.
Definition SERVAL_TCP_MIN_MSS : Z := 88.
Definition TCP_HLEN : Z := 20.
Definition MAX_TCP_WINDOW : Z := 32767.
Definition TCP_MAX_QUICKACKS : Z := 16.
Definition TCP_ATO_MIN : Z := 4.
Definition TCP_DELACK_MIN : Z := 4.
Definition TCP_DELACK_MAX : Z := 20.
Definition SERVAL_TCP_RTO_MAX : Z := 12000.
Definition SERVAL_TCP_RTO_MIN : Z := 20.
Definition STSK_ACK_SCHED : Z := 1.
Definition STSK_ACK_TIMER : Z := 2.
Definition STSK_ACK_PUSHED : Z := 4.
Definition STSK_ACK_PUSHED2 : Z := 8.
Definition PAGE_SIZE : Z := 4096.
Definition TCP_CLOSE : Z := 7.
Definition TCP_LISTEN : Z := 10.

(** ** Data *)

(** A received segment: its control block, the flags of its header, the length
    of that header in words, and the bytes between [data] and [tail]. *)
Record tcp_seg := TcpSeg {
  seg_seq : Z; seg_end : Z;
  th_flags : Z; th_doff : Z;
  seg_data : list Z;
  seg_headroom : Z; seg_truesize : Z; gso_size : Z;
}.
Definition th_fin (s : tcp_seg) : bool := Z.testbit (th_flags s) 0.
Definition th_syn (s : tcp_seg) : bool := Z.testbit (th_flags s) 1.
(** [skb->len] *)
Definition seg_len (s : tcp_seg) : Z := Z.of_nat (length (seg_data s)).

(** [tp_ack]; [delack_timer] is the expiry of a pending timer. *)
Record tcp_ack := TcpAck {
  ack_pending : Z; quick : Z; pingpong : Z; blocked : Z; ato : Z;
  ack_timeout : Z; lrcvtime : Z; last_seg_size : Z; rcv_mss : Z;
  delack_timer : option Z;
}.

(** The sender's view of the network. *)
Record tcp_cong := TcpCong {
  snd_una : Z; snd_nxt : Z; snd_wnd : Z; snd_wl1 : Z; max_window : Z;
  packets_out : Z; retrans_out : Z; lost_out : Z; sacked_out : Z;
  snd_ssthresh : Z; snd_cwnd : Z; snd_cwnd_cnt : Z; snd_cwnd_clamp : Z;
  snd_cwnd_used : Z; snd_cwnd_stamp : Z; bytes_acked : Z; mss_cache : Z;
  reordering : Z; high_seq : Z; prior_ssthresh : Z; undo_marker : Z;
  undo_retrans : Z; ca_state : Z; retrans_stamp : Z;
  srtt : Z; mdev : Z; mdev_max : Z; rttvar : Z; rtt_seq : Z; rto : Z;
  backoff : Z; lsndtime : Z; snd_up : Z;
}.

Record tcp_sock := TcpSock {
  (* what has been received, read, and offered *)
  rcv_nxt : Z; copied_seq : Z; rcv_wup : Z; rcv_wnd : Z;
  fin_found : bool;
  receive_queue : list tcp_seg; out_of_order_queue : list tcp_seg;
  (* buffer space and windows *)
  sk_rmem_alloc : Z; sk_rcvbuf : Z; sk_forward_alloc : Z; rcvbuf_lock : bool;
  rcv_ssthresh : Z; window_clamp : Z; advmss : Z;
  rcv_wscale : Z; snd_wscale : Z; tcp_header_len : Z; pred_flags : Z;
  (* rcv_rtt_est and rcvq_space *)
  rre_rtt : Z; rre_seq : Z; rre_time : Z;
  rqs_space : Z; rqs_seq : Z; rqs_time : Z;
  ack : tcp_ack; cong : tcp_cong;
  (* struct sock *)
  tcp_state : Z; sock_dead : bool; sock_done : bool; sk_err : Z;
  rcv_shutdown : bool; inet_saddr : Z; inet_daddr : Z;
}.

(** The socket, the clock, the accounting shared by all TCP sockets, and what
    the environment decides: results of allocations and of
    [serval_sal_xmit_skb]; an exhausted list is success.  [sent] holds the
    segments given to the SAL, [wakeups] counts the calls of [sk_data_ready]. *)
Record tcpw := TcpW {
  tp : tcp_sock;
  jiffies : Z;
  memory_allocated : Z; memory_pressure : bool;
  allocs : list bool; xmit_results : list Z;
  sent : list (list Z); wakeups : nat;
}.
Abbreviation TM := (M tcpw).

(** The settings of the system ([sysctl_serval_tcp_...]) and the sizes the
    compiler gives. *)
Class TcpEnv := {
  adv_win_scale : Z;
  tcp_rmem0 : Z; tcp_rmem2 : Z;
  tcp_mem0 : Z; tcp_mem1 : Z; tcp_mem2 : Z;
  moderate_rcvbuf : bool;
  workaround_signed_windows : bool;
  window_scaling : bool;
  checksum_mode : bool;
  tcp_timestamps : bool;
  slow_start_after_idle : bool;
  tcp_abc : Z; max_ssthresh : Z;
  max_tcp_header : Z;
  sizeof_sk_buff : Z;
  sizeof_shared_info : Z;
}.

Section Sock.
Context `{TcpEnv}.
Implicit Types (s : tcp_seg) (t : tcp_sock).

Definition the_tp : TM tcp_sock := gets tp.
Definition upd (f : tcp_sock -> tcp_sock) : TM unit := modS (fun w => w {{ tp ::= f }}).
Definition upd_ack (f : tcp_ack -> tcp_ack) : TM unit := upd (fun t => t {{ ack ::= f }}).
Definition tcp_time_stamp : TM Z := w ← getS; mret (u32 (jiffies w)).
Definition alloc_ok : TM bool :=
  w ← getS;
  match allocs w with
  | [] => mret true
  | b :: l => modS (fun w => w {{ allocs := l }});; mret b
  end.

Definition serval_tsk_schedule_ack : TM unit :=
  upd_ack (fun a => a {{ ack_pending ::= Z.lor STSK_ACK_SCHED }}).
Definition serval_tsk_ack_scheduled t : bool :=
  negb (Z.land (ack_pending (ack t)) STSK_ACK_SCHED =? 0).

(** ** Windows *)
Definition serval_tcp_win_from_space (space : Z) : Z :=
  if adv_win_scale <=? 0 then Z.shiftr space (- adv_win_scale)
  else space - Z.shiftr space adv_win_scale.
Definition serval_tcp_space t : Z :=
  serval_tcp_win_from_space (s32 (sk_rcvbuf t - sk_rmem_alloc t)).
Definition serval_tcp_full_space t : Z := serval_tcp_win_from_space (sk_rcvbuf t).
Definition serval_tcp_receive_window t : Z :=
  Z.max 0 (s32 (rcv_wup t + rcv_wnd t - rcv_nxt t)).

(** The word of the header that prediction compares with, in host order. *)
Definition serval_tcp_fast_path_on t : tcp_sock :=
  t {{ pred_flags := u32 (Z.lor (Z.lor (Z.shiftl (tcp_header_len t) 26) (Z.shiftl TCPH_ACK 16))
                            (Z.shiftr (snd_wnd (cong t)) (snd_wscale t))) }}.
Definition serval_tcp_fast_path_check t : tcp_sock :=
  if bool_decide (out_of_order_queue t = []) && negb (rcv_wnd t =? 0) &&
     (sk_rmem_alloc t <? sk_rcvbuf t)
  then serval_tcp_fast_path_on t else t.

(** ** Memory accounting *)
Definition sk_mem_pages (amt : Z) : Z := Z.shiftr (amt + PAGE_SIZE - 1) 12.
Definition __sk_mem_schedule_recv (size : Z) : TM bool :=
  let amt := sk_mem_pages size in
  modS (fun w => w {{ tp ::= (fun t => t {{ sk_forward_alloc ::= Z.add (amt * PAGE_SIZE) }});
                      memory_allocated ::= Z.add amt }});;
  w ← getS;
  let allocated := memory_allocated w in
  if allocated <=? tcp_mem0 then
    modS (fun w => w {{ memory_pressure := false }});; mret true
  else
    (if tcp_mem1 <? allocated
     then modS (fun w => w {{ memory_pressure := true }}) else mret tt);;
    if (allocated <=? tcp_mem2) && (sk_rmem_alloc (tp w) <? tcp_rmem0) then mret true
    else
      modS (fun w => w {{ tp ::= (fun t => t {{ sk_forward_alloc ::= Z.add (- (amt * PAGE_SIZE)) }});
                          memory_allocated ::= Z.add (- amt) }});;
      mret false.
Definition sk_rmem_schedule (size : Z) : TM bool :=
  t ← the_tp;
  if size <=? sk_forward_alloc t then mret true else __sk_mem_schedule_recv size.
Definition sk_mem_reclaim : TM unit :=
  t ← the_tp;
  if PAGE_SIZE <=? sk_forward_alloc t then
    modS (fun w => w {{ memory_allocated ::= Z.add (- Z.shiftr (sk_forward_alloc t) 12);
                        tp ::= (fun t => t {{ sk_forward_alloc ::= Z.land (PAGE_SIZE - 1) }}) }});;
    modS (fun w => if memory_pressure w && (memory_allocated w <? tcp_mem0)
                   then w {{ memory_pressure := false }} else w)
  else mret tt.

(** Charging a segment to the socket, and giving its memory back. *)
Definition skb_set_owner_r s : TM unit :=
  upd (fun t => t {{ sk_rmem_alloc := s32 (sk_rmem_alloc t + seg_truesize s) }}).
Definition sock_rfree s : TM unit :=
  upd (fun t => t {{ sk_rmem_alloc := s32 (sk_rmem_alloc t - seg_truesize s) }}).
Fixpoint rfree_all (q : list tcp_seg) : TM unit :=
  match q with
  | [] => mret tt
  | s :: q => sock_rfree s;; rfree_all q
  end.
End Sock.
