(* ===== verification/TcpCong.v ===== *)
(** * Congestion control (src/stack/serval_tcp_cong.c; serval_tcp_input.c lines
    535-880 and 957-1097; serval_tcp_output.c lines 289-308 and 501-519;
    serval_tcp.h)

    The sender's window, the slow start threshold, the count of duplicate
    acknowledgements and the round-trip estimator, as functions of the fields
    they work on; [now] is [tcp_time_stamp].  Selective acknowledgements are
    compiled out, so that the connection is always a Reno one, segmentation
    offload is off in the user-level build, and routes carry no metrics. *)
From S2P Require Import Prelude TcpSock.
Local Open Scope Z_scope.

Definition TCP_CA_Open : Z := 0.
Definition TCP_CA_Disorder : Z := 1.
Definition TCP_CA_CWR : Z := 2.
Definition TCP_CA_Recovery : Z := 3.
Definition TCP_CA_Loss : Z := 4.
Definition TCP_MAX_REORDERING : Z := 127.
(** [FLAG_ANY_PROGRESS | FLAG_DSACKING_ACK] and [FLAG_NOT_DUP] *)
Definition FLAG_PROGRESS : Z := 3124.
Definition FLAG_NOT_DUP : Z := 23.

Section Cong.
Context `{TcpEnv}.
Implicit Types (g : tcp_cong) (now : Z).

Definition serval_tcp_left_out g : Z := u32 (sacked_out g + lost_out g).
Definition serval_tcp_packets_in_flight g : Z :=
  u32 (packets_out g - serval_tcp_left_out g + retrans_out g).
Definition serval_tcp_max_burst g : Z := reordering g.
Definition serval_tcp_current_ssthresh g : Z :=
  if (ca_state g =? TCP_CA_CWR) || (ca_state g =? TCP_CA_Recovery) then snd_ssthresh g
  else Z.max (snd_ssthresh g) (u32 (Z.shiftr (snd_cwnd g) 1 + Z.shiftr (snd_cwnd g) 2)).

(** ** Growth *)
Definition serval_tcp_is_cwnd_limited g (in_flight : Z) : bool :=
  if snd_cwnd g <=? in_flight then true
  else snd_cwnd g - in_flight <=? serval_tcp_max_burst g.

(** [while (tp->snd_cwnd_cnt >= tp->snd_cwnd)]; the window only grows, so that
    the quotient of the counter by it bounds the turns. *)
Fixpoint slow_start_loop (fuel : nat) (cwnd cnt clamp : Z) : outcome (Z * Z) :=
  if cnt <? cwnd then Ok (cwnd, cnt)
  else
    match fuel with
    | O => NoFuel
    | S fuel =>
        slow_start_loop fuel (if cwnd <? clamp then cwnd + 1 else cwnd) (cnt - cwnd) clamp
    end.
Definition serval_tcp_slow_start g : outcome tcp_cong :=
  if negb (tcp_abc =? 0) && (bytes_acked g <? mss_cache g) then Ok g
  else
    let cnt := if (0 <? max_ssthresh) && (max_ssthresh <? snd_cwnd g)
               then Z.shiftr max_ssthresh 1 else snd_cwnd g in
    let cnt := if (1 <? tcp_abc) && (u32 (2 * mss_cache g) <=? bytes_acked g) then 2 * cnt else cnt in
    let total := u32 (snd_cwnd_cnt g + cnt) in
    '(cwnd, cnt) ← slow_start_loop (Z.to_nat (total / snd_cwnd g)) (snd_cwnd g) total (snd_cwnd_clamp g);
    Ok (g {{ bytes_acked := 0; snd_cwnd := cwnd; snd_cwnd_cnt := cnt }}).
Definition cwnd_inc g : tcp_cong :=
  if snd_cwnd g <? snd_cwnd_clamp g then g {{ snd_cwnd ::= Z.add 1 }} else g.
Definition serval_tcp_cong_avoid_ai g (w : Z) : tcp_cong :=
  if w <=? snd_cwnd_cnt g then (cwnd_inc g) {{ snd_cwnd_cnt := 0 }}
  else g {{ snd_cwnd_cnt ::= Z.add 1 }}.
Definition serval_tcp_reno_cong_avoid g (in_flight : Z) : outcome tcp_cong :=
  if negb (serval_tcp_is_cwnd_limited g in_flight) then Ok g
  else if snd_cwnd g <=? snd_ssthresh g then serval_tcp_slow_start g
  else if negb (tcp_abc =? 0) then
    let full := u32 (snd_cwnd g * mss_cache g) in
    if full <=? bytes_acked g
    then Ok (cwnd_inc (g {{ bytes_acked := bytes_acked g - full }}))
    else Ok g
  else Ok (serval_tcp_cong_avoid_ai g (snd_cwnd g)).
Definition serval_tcp_init_cwnd g : Z :=
  Z.min (if 1460 <? mss_cache g then 2 else if 1095 <? mss_cache g then 3 else 4)
        (snd_cwnd_clamp g).

(** ** Reduction *)
Definition serval_tcp_reno_ssthresh g : Z := Z.max (Z.shiftr (snd_cwnd g) 1) 2.
Definition serval_tcp_reno_min_cwnd g : Z := snd_ssthresh g / 2.
Definition serval_tcp_cwnd_min g : Z := serval_tcp_reno_min_cwnd g.
Definition serval_tcp_enter_cwr (set_ssthresh : bool) now g : tcp_cong :=
  let g := g {{ prior_ssthresh := 0; bytes_acked := 0 }} in
  if ca_state g <? TCP_CA_CWR then
    let g := g {{ undo_marker := 0 }} in
    let g := if set_ssthresh then g {{ snd_ssthresh := serval_tcp_reno_ssthresh g }} else g in
    g {{ snd_cwnd := Z.min (snd_cwnd g) (u32 (serval_tcp_packets_in_flight g + 1));
         snd_cwnd_cnt := 0; high_seq := snd_nxt g; snd_cwnd_stamp := now;
         ca_state := TCP_CA_CWR }}
  else g.
(** [flag] says whether the acknowledgement made progress. *)
Definition serval_tcp_cwnd_down (flag : Z) now g : tcp_cong :=
  if negb (Z.land flag FLAG_PROGRESS =? 0) || (Z.land flag FLAG_NOT_DUP =? 0) then
    let decr := u32 (snd_cwnd_cnt g + 1) in
    let g := g {{ snd_cwnd_cnt := Z.land decr 1 }} in
    let decr := Z.shiftr (s32 decr) 1 in
    let g := if negb (decr =? 0) && (serval_tcp_cwnd_min g <? snd_cwnd g)
             then g {{ snd_cwnd := u32 (snd_cwnd g - decr) }} else g in
    g {{ snd_cwnd := Z.min (snd_cwnd g) (u32 (serval_tcp_packets_in_flight g + 1));
         snd_cwnd_stamp := now }}
  else g.
Definition serval_tcp_moderate_cwnd now g : tcp_cong :=
  g {{ snd_cwnd := Z.min (snd_cwnd g) (u32 (serval_tcp_packets_in_flight g + serval_tcp_max_burst g));
       snd_cwnd_stamp := now }}.
Definition serval_tcp_undo_cwr (undo : bool) now g : tcp_cong :=
  let g :=
    if negb (prior_ssthresh g =? 0) then
      let g := g {{ snd_cwnd := Z.max (snd_cwnd g) (u32 (2 * snd_ssthresh g)) }} in
      if undo && (snd_ssthresh g <? prior_ssthresh g)
      then g {{ snd_ssthresh := prior_ssthresh g }} else g
    else g {{ snd_cwnd := Z.max (snd_cwnd g) (snd_ssthresh g) }} in
  serval_tcp_moderate_cwnd now g.
Definition serval_tcp_complete_cwr now g : tcp_cong :=
  g {{ snd_cwnd := Z.min (snd_cwnd g) (snd_ssthresh g); snd_cwnd_stamp := now }}.

(** [serval_tcp_enter_loss] before and after it marks the segments. *)
Definition loss_window (how : bool) (retrans now : Z) (g : tcp_cong) : tcp_cong :=
  let g := if (ca_state g <=? TCP_CA_Disorder) || (snd_una g =? high_seq g) ||
              ((ca_state g =? TCP_CA_Loss) && (retrans =? 0))
           then g {{ prior_ssthresh := serval_tcp_current_ssthresh g;
                     snd_ssthresh := serval_tcp_reno_ssthresh g }} else g in
  let g := g {{ snd_cwnd := 1; snd_cwnd_cnt := 0; snd_cwnd_stamp := now; bytes_acked := 0;
                retrans_out := 0; lost_out := 0; undo_marker := 0; undo_retrans := 0; sacked_out := 0 }} in
  if how then g else g {{ undo_marker := snd_una g }}.
Definition loss_state (reord : Z) g : tcp_cong :=
  g {{ reordering := Z.min (reordering g) reord; ca_state := TCP_CA_Loss; high_seq := snd_nxt g }}.

(** ** Idle senders

    [space]: the socket exists and has not run into its send buffer's limit. *)
Definition serval_tcp_cwnd_application_limited (space : bool) now g : tcp_cong :=
  let g :=
    if (ca_state g =? TCP_CA_Open) && space then
      let win_used := Z.max (snd_cwnd_used g) (serval_tcp_init_cwnd g) in
      let g := if win_used <? snd_cwnd g
               then g {{ snd_ssthresh := serval_tcp_current_ssthresh g;
                         snd_cwnd := Z.shiftr (u32 (snd_cwnd g + win_used)) 1 }} else g in
      g {{ snd_cwnd_used := 0 }}
    else g in
  g {{ snd_cwnd_stamp := now }}.
(** [while ((delta -= tp->rto) > 0 && cwnd > restart_cwnd) cwnd >>= 1];
    the window reaches 0 within 32 halvings. *)
Fixpoint restart_loop (fuel : nat) (delta rto cwnd restart : Z) : outcome Z :=
  match fuel with
  | O => NoFuel
  | S fuel =>
      let delta := s32 (delta - rto) in
      if (0 <? delta) && (restart <? cwnd)
      then restart_loop fuel delta rto (Z.shiftr cwnd 1) restart
      else Ok cwnd
  end.
Definition serval_tcp_cwnd_restart now g : outcome tcp_cong :=
  let restart := Z.min (serval_tcp_init_cwnd g) (snd_cwnd g) in
  cwnd ← restart_loop 34 (s32 (now - lsndtime g)) (rto g) (snd_cwnd g) restart;
  Ok (g {{ snd_ssthresh := serval_tcp_current_ssthresh g; snd_cwnd := Z.max cwnd restart;
           snd_cwnd_stamp := now; snd_cwnd_used := 0 }}).
Definition serval_tcp_cwnd_validate (space : bool) now g : tcp_cong :=
  if snd_cwnd g <=? packets_out g then g {{ snd_cwnd_used := 0; snd_cwnd_stamp := now }}
  else
    let g := if snd_cwnd_used g <? packets_out g then g {{ snd_cwnd_used := packets_out g }} else g in
    if slow_start_after_idle && (u32 (rto g) <=? u32 (s32 (now - snd_cwnd_stamp g)))
    then serval_tcp_cwnd_application_limited space now g else g.

(** ** Duplicate acknowledgements *)
Definition serval_tcp_limit_reno_sacked g : tcp_cong * bool :=
  let holes := Z.min (Z.max (lost_out g) 1) (packets_out g) in
  if packets_out g <? u32 (sacked_out g + holes)
  then (g {{ sacked_out := packets_out g - holes }}, true) else (g, false).
Definition serval_tcp_update_reordering (metric : Z) g : tcp_cong :=
  if reordering g <? metric then g {{ reordering := Z.min TCP_MAX_REORDERING metric }} else g.
Definition serval_tcp_check_reno_reordering (addend : Z) g : tcp_cong :=
  let '(g, limited) := serval_tcp_limit_reno_sacked g in
  if limited then serval_tcp_update_reordering (s32 (packets_out g + addend)) g else g.
Definition serval_tcp_add_reno_sack g : tcp_cong :=
  serval_tcp_check_reno_reordering 0 (g {{ sacked_out := u32 (sacked_out g + 1) }}).
Definition serval_tcp_remove_reno_sacks (acked : Z) g : tcp_cong :=
  let g :=
    if 0 <? acked then
      if sacked_out g <=? acked - 1 then g {{ sacked_out := 0 }}
      else g {{ sacked_out := sacked_out g - (acked - 1) }}
    else g in
  serval_tcp_check_reno_reordering acked g.
Definition serval_tcp_reset_reno_sack g : tcp_cong := g {{ sacked_out := 0 }}.

(** ** The round-trip estimator *)
Definition serval_tcp_rtt_estimator (mrtt : Z) g : tcp_cong :=
  let m := if mrtt =? 0 then 1 else mrtt in
  if srtt g =? 0 then
    let dev := u32 (2 * m) in
    let var := Z.max dev SERVAL_TCP_RTO_MIN in
    g {{ srtt := u32 (8 * m); mdev := dev; mdev_max := var; rttvar := var; rtt_seq := snd_nxt g }}
  else
    let m := m - Z.shiftr (srtt g) 3 in
    let g := g {{ srtt := u32 (srtt g + m) }} in
    let m :=
      if m <? 0 then
        let m := - m - Z.shiftr (mdev g) 2 in
        if 0 <? m then Z.shiftr m 3 else m
      else m - Z.shiftr (mdev g) 2 in
    let g := g {{ mdev := u32 (mdev g + m) }} in
    let g := if mdev_max g <? mdev g
             then g {{ mdev_max := mdev g; rttvar := Z.max (rttvar g) (mdev g) }} else g in
    if after (snd_una g) (rtt_seq g) then
      let g := if mdev_max g <? rttvar g
               then g {{ rttvar := rttvar g - Z.shiftr (rttvar g - mdev_max g) 2 }} else g in
      g {{ rtt_seq := snd_nxt g; mdev_max := SERVAL_TCP_RTO_MIN }}
    else g.
Definition __serval_tcp_set_rto g : Z := u32 (Z.shiftr (srtt g) 3 + rttvar g).
Definition serval_tcp_bound_rto g : tcp_cong :=
  if SERVAL_TCP_RTO_MAX <? rto g then g {{ rto := SERVAL_TCP_RTO_MAX }} else g.
Definition serval_tcp_set_rto g : tcp_cong :=
  serval_tcp_bound_rto (g {{ rto := __serval_tcp_set_rto g }}).
End Cong.
