(* ===== verification/TcpQueue.v ===== *)
(** * The TCP receive queues
    (src/stack/serval_tcp_input.c lines 2589-2928 and 2930-3177)

    Segments in sequence go to the receive queue, the others to the
    out-of-order queue.  Queues are lists of segments; a segment in a queue is
    charged to the socket, and freeing it gives the memory back.  The reader
    waits in no system call ([tp->ucopy.task] is NULL), so that nothing is
    copied to the user from here. *)

(** * Tuning of the TCP receive buffer
    (src/stack/serval_tcp_input.c lines 56-104, 146-189, 248-300, 344-524)

    What the arrival of data and its delivery to the user do to the estimates
    of the peer's segment size, of the round-trip time and of the buffer space,
    and to the pace of acknowledgements.  Comparisons of [int] with [unsigned]
    values are comparisons of unsigned values. *)
From S2P Require Import Prelude TcpSock.
Local Open Scope Z_scope.

Section RcvBuf.
Context `{TcpEnv}.
Implicit Types (s : tcp_seg) (t : tcp_sock).

Definition mark_pushed (a : tcp_ack) : tcp_ack :=
  let p := ack_pending a in
  let p := if Z.land p STSK_ACK_PUSHED =? 0 then p else Z.lor p STSK_ACK_PUSHED2 in
  a {{ ack_pending := Z.lor p STSK_ACK_PUSHED }}.
(** The segment has been pulled past its header, of [th_doff] words. *)
Definition serval_tcp_measure_rcv_mss s : TM unit :=
  t ← the_tp;
  let lss := last_seg_size (ack t) in
  upd_ack (fun a => a {{ last_seg_size := 0 }});;
  let len := if gso_size s =? 0 then seg_len s else gso_size s in
  if rcv_mss (ack t) <=? len then upd_ack (fun a => a {{ rcv_mss := u16 len }})
  else
    let len := u32 (len + 4 * th_doff s) in
    if (SERVAL_TCP_MSS_DEFAULT + TCP_HLEN <=? len) ||
       ((SERVAL_TCP_MIN_MSS + TCP_HLEN <=? len) && (Z.land (th_flags s) TCP_REMNANT =? 0))
    then
      let len := u32 (len - tcp_header_len t) in
      upd_ack (fun a => a {{ last_seg_size := u16 len }});;
      if len =? lss then upd_ack (fun a => a {{ rcv_mss := u16 len }})
      else upd_ack mark_pushed
    else upd_ack mark_pushed.

(** The halvings end: the size reaches 0 within 32 of them. *)
Fixpoint grow_loop (fuel : nat) (thresh len mss truesize window : Z) : outcome Z :=
  match fuel with
  | O => NoFuel
  | S fuel =>
      if thresh <=? u32 window then
        if u32 truesize <=? len then Ok (2 * mss)
        else grow_loop fuel thresh len mss (Z.shiftr truesize 1) (Z.shiftr window 1)
      else Ok 0
  end.
Definition __serval_tcp_grow_window t s : outcome Z :=
  grow_loop 34 (rcv_ssthresh t) (seg_len s) (rcv_mss (ack t))
    (Z.shiftr (serval_tcp_win_from_space (seg_truesize s)) 1)
    (Z.shiftr (serval_tcp_win_from_space tcp_rmem2) 1).
Definition liftO {A} (o : outcome A) : TM A := fun w =>
  match o with Ok a => Ok (a, w) | Fault => Fault | NoFuel => NoFuel end.
Definition serval_tcp_grow_window s : TM unit :=
  w ← getS;
  let t := tp w in
  if (rcv_ssthresh t <? window_clamp t) && (s32 (rcv_ssthresh t) <? serval_tcp_space t) &&
     negb (memory_pressure w)
  then
    incr ← (if u32 (serval_tcp_win_from_space (seg_truesize s)) <=? seg_len s
            then mret (2 * advmss t)
            else liftO (__serval_tcp_grow_window t s));
    if incr =? 0 then mret tt
    else
      upd (fun t => t {{ rcv_ssthresh := Z.min (u32 (rcv_ssthresh t + incr)) (window_clamp t);
                         ack ::= (fun a => a {{ quick ::= Z.lor 1 }}) }})
  else mret tt.

Definition serval_tcp_clamp_window : TM unit :=
  upd_ack (fun a => a {{ quick := 0 }});;
  w ← getS;
  let t := tp w in
  (if (sk_rcvbuf t <? tcp_rmem2) && negb (rcvbuf_lock t) && negb (memory_pressure w) &&
      (memory_allocated w <? tcp_mem0)
   then upd (fun t => t {{ sk_rcvbuf := Z.min (sk_rmem_alloc t) tcp_rmem2 }})
   else mret tt);;
  t ← the_tp;
  if sk_rcvbuf t <? sk_rmem_alloc t
  then upd (fun t => t {{ rcv_ssthresh := Z.min (window_clamp t) (2 * advmss t) }})
  else mret tt.

(** The division faults if no segment size is known. *)
Definition serval_tcp_incr_quickack : TM unit :=
  t ← the_tp;
  if rcv_mss (ack t) =? 0 then faultM
  else
    let quickacks := rcv_wnd t / (2 * rcv_mss (ack t)) in
    let quickacks := if quickacks =? 0 then 2 else quickacks in
    if quick (ack t) <? quickacks
    then upd_ack (fun a => a {{ quick := Z.min quickacks TCP_MAX_QUICKACKS }})
    else mret tt.
Definition serval_tcp_enter_quickack_mode : TM unit :=
  serval_tcp_incr_quickack;;
  upd_ack (fun a => a {{ pingpong := 0; ato := TCP_ATO_MIN }}).
Definition serval_tcp_in_quickack_mode t : bool :=
  negb (quick (ack t) =? 0) && (pingpong (ack t) =? 0).

Definition rtt_sample (rtt sample : Z) (win_dep : bool) : Z :=
  let m := if sample =? 0 then 1 else sample in
  if rtt =? 0 then u32 (8 * m)
  else if win_dep then (if m <? rtt then u32 (8 * m) else rtt)
  else u32 (rtt + (m - Z.shiftr rtt 3)).
Definition serval_tcp_rcv_rtt_update (sample : Z) (win_dep : bool) : TM unit :=
  upd (fun t => t {{ rre_rtt := rtt_sample (rre_rtt t) sample win_dep }}).
Definition serval_tcp_rcv_rtt_measure : TM unit :=
  t ← the_tp;
  ts ← tcp_time_stamp;
  let new_measure :=
    upd (fun t => t {{ rre_seq := u32 (rcv_nxt t + rcv_wnd t); rre_time := ts }}) in
  if rre_time t =? 0 then new_measure
  else if before (rcv_nxt t) (rre_seq t) then mret tt
  else
    serval_tcp_rcv_rtt_update (u32 (ts - rre_time t)) true;;
    new_measure.

(** [while (serval_tcp_win_from_space(rcvmem) < tp->advmss) rcvmem += 128] *)
Fixpoint rcvmem_loop (fuel : nat) (mss rcvmem : Z) : outcome Z :=
  match fuel with
  | O => NoFuel
  | S fuel =>
      if serval_tcp_win_from_space rcvmem <? mss then rcvmem_loop fuel mss (rcvmem + 128)
      else Ok rcvmem
  end.
Definition RCVMEM_FUEL : nat := 1025.
Definition segment_mem (mss : Z) : outcome Z :=
  rcvmem_loop RCVMEM_FUEL mss (mss + max_tcp_header + 16 + sizeof_sk_buff).

(** The buffer follows the amount of data read per round trip. *)
Definition space_measured (space : Z) : TM unit :=
  t ← the_tp;
  if rqs_space t =? space then mret tt
  else
    upd (fun t => t {{ rqs_space := space }});;
    if moderate_rcvbuf && negb (rcvbuf_lock t) then
      if advmss t =? 0 then faultM
      else
        let n := Z.quot space (advmss t) in
        let n := if n =? 0 then 1 else n in
        rcvmem ← liftO (segment_mem (advmss t));
        let mem := Z.min (s32 (n * rcvmem)) tcp_rmem2 in
        if sk_rcvbuf t <? mem
        then upd (fun t => t {{ sk_rcvbuf := mem; window_clamp := u32 space }})
        else mret tt
    else mret tt.
Definition serval_tcp_rcv_space_adjust : TM unit :=
  t ← the_tp;
  ts ← tcp_time_stamp;
  let new_measure := upd (fun t => t {{ rqs_seq := copied_seq t; rqs_time := ts }}) in
  if rqs_time t =? 0 then new_measure
  else if (u32 (ts - rqs_time t) <? Z.shiftr (rre_rtt t) 3) || (rre_rtt t =? 0) then mret tt
  else
    space_measured (Z.max (rqs_space t) (s32 (2 * (copied_seq t - rqs_seq t))));;
    new_measure.

Definition serval_tcp_event_data_recv s : TM unit :=
  serval_tsk_schedule_ack;;
  serval_tcp_measure_rcv_mss s;;
  serval_tcp_rcv_rtt_measure;;
  now ← tcp_time_stamp;
  t ← the_tp;
  (if ato (ack t) =? 0 then
     serval_tcp_incr_quickack;;
     upd_ack (fun a => a {{ ato := TCP_ATO_MIN }})
   else
     let m := u32 (now - lrcvtime (ack t)) in
     if m <=? TCP_ATO_MIN / 2 then
       upd_ack (fun a => a {{ ato := Z.shiftr (ato a) 1 + TCP_ATO_MIN / 2 }})
     else if m <? ato (ack t) then
       upd_ack (fun a => a {{ ato := Z.min (u32 (Z.shiftr (ato a) 1 + m)) (rto (cong t)) }})
     else if rto (cong t) <? m then
       serval_tcp_incr_quickack;; sk_mem_reclaim
     else mret tt);;
  upd_ack (fun a => a {{ lrcvtime := now }});;
  if 128 <=? seg_len s then serval_tcp_grow_window s else mret tt.
End RcvBuf.

Section Queue.
Context `{TcpEnv}.
Implicit Types (s : tcp_seg) (t : tcp_sock) (q : list tcp_seg).

Definition set_ofo q : TM unit := upd (fun t => t {{ out_of_order_queue := q }}).

Definition serval_tcp_fin : TM unit :=
  serval_tsk_schedule_ack;;
  t ← the_tp;
  rfree_all (out_of_order_queue t);;
  set_ofo [];;
  sk_mem_reclaim.

(** ** From the out-of-order queue to the receive queue *)
Fixpoint ofo_loop (fuel : nat) : TM unit :=
  match fuel with
  | O => nofuelM
  | S fuel =>
      t ← the_tp;
      match out_of_order_queue t with
      | [] => mret tt
      | s :: q =>
          if after (seg_seq s) (rcv_nxt t) then mret tt
          else
            set_ofo q;;
            if negb (after (seg_end s) (rcv_nxt t)) then sock_rfree s;; ofo_loop fuel
            else
              upd (fun t => t {{ receive_queue := receive_queue t ++ [s]; rcv_nxt := seg_end s }});;
              (if th_fin s then serval_tcp_fin else mret tt);;
              ofo_loop fuel
      end
  end.
Definition serval_tcp_ofo_queue : TM unit :=
  t ← the_tp;
  ofo_loop (S (length (out_of_order_queue t))).

(** ** Collapsing

    [q] is the part of a queue from [head] up to [tail].  The first loop frees
    segments without new bytes and looks for the first segment from which on
    collapsing pays; it returns the segments it keeps in front of that one, the
    rest, and the sequence number at which the rest starts. *)
Fixpoint collapse_find q (start : Z) : TM (list tcp_seg * list tcp_seg * Z)%type :=
  match q with
  | [] => mret ([], [], start)
  | s :: q' =>
      if negb (before start (seg_end s)) then
        sock_rfree s;; collapse_find q' start
      else if negb (th_syn s) && negb (th_fin s) &&
              ((seg_len s <? u32 (serval_tcp_win_from_space (seg_truesize s))) ||
               before (seg_seq s) start)
      then mret ([], q, start)
      else
        match q' with
        | s' :: _ =>
            if seg_end s =? seg_seq s' then
              '(kept, rest, start) ← collapse_find q' (seg_end s);
              mret (s :: kept, rest, start)
            else mret ([], q, start)
        | [] => mret ([s], [], seg_end s)
        end
  end.

(** Copy up to [copy] bytes from the segments [q] to the segment [n].  Returns
    it, the segments left, the new start, and whether there is more to do. *)
Fixpoint collapse_copy (n : tcp_seg) q (copy start : Z)
  : TM (tcp_seg * list tcp_seg * Z * bool)%type :=
  match q with
  | [] => faultM
  | s :: q' =>
      if copy <=? 0 then mret (n, q, start, true)
      else
        let offset := s32 (start - seg_seq s) in
        let size := s32 (seg_end s - start) in
        if offset <? 0 then faultM
        else
          let size := Z.max 0 (Z.min copy size) in
          if (0 <? size) && (seg_len s <? offset + size) then faultM
          else
            let bytes := take (Z.to_nat size) (drop (Z.to_nat offset) (seg_data s)) in
            let n := n {{ seg_data := seg_data n ++ bytes; seg_end := u32 (seg_end n + size) }} in
            let start := u32 (start + size) in
            let copy := copy - size in
            if before start (seg_end s) then
              (* the loop goes on with the same segment only if nothing is left *)
              if copy <=? 0 then mret (n, q, start, true) else nofuelM
            else
              sock_rfree s;;
              match q' with
              | [] => mret (n, [], start, false)
              | s' :: _ =>
                  if th_syn s' || th_fin s' then mret (n, q', start, false)
                  else collapse_copy n q' copy start
              end
  end.
(** The second loop: new segments in front of those they replace. *)
Fixpoint collapse_loop (fuel : nat) q (start end_ : Z) : TM (list tcp_seg) :=
  if negb (before start end_) then mret q
  else
    match fuel, q with
    | O, _ => nofuelM
    | _, [] => faultM
    | S fuel, s :: _ =>
        let header := seg_headroom s in
        let room := PAGE_SIZE - header - sizeof_shared_info in
        if room <? 0 then mret q
        else
          let copy := Z.min (u32 (end_ - start)) room in
          ok ← alloc_ok;
          if (ok : bool) then
            let n := s {{ seg_seq := start; seg_end := start; seg_data := []; gso_size := 0;
                          seg_truesize := copy + header + sizeof_sk_buff }} in
            skb_set_owner_r n;;
            '(n, q, start, more) ← collapse_copy n q copy start;
            if (more : bool) then
              q ← collapse_loop fuel q start end_;
              mret (n :: q)
            else mret (n :: q)
          else mret q
    end.
Definition total_len q : nat := sum_list (map (fun s => length (seg_data s)) q).
Definition serval_tcp_collapse q (start end_ : Z) : TM (list tcp_seg) :=
  '(kept, rest, start) ← collapse_find q start;
  match rest with
  | [] => mret kept
  | s :: _ =>
      if th_syn s || th_fin s then mret (kept ++ rest)
      else
        rest ← collapse_loop (S (total_len rest)) rest start end_;
        mret (kept ++ rest)
  end.

(** Collapse every contiguous run of the out-of-order queue; [run] is the run
    so far, between [start] and [end_]. *)
Fixpoint collapse_runs (run : list tcp_seg) (start end_ : Z) q : TM (list tcp_seg) :=
  match q with
  | [] => serval_tcp_collapse run start end_
  | s :: q' =>
      if after (seg_seq s) end_ || before (seg_end s) start then
        run ← serval_tcp_collapse run start end_;
        q ← collapse_runs [s] (seg_seq s) (seg_end s) q';
        mret (run ++ q)
      else
        collapse_runs (run ++ [s])
          (if before (seg_seq s) start then seg_seq s else start)
          (if after (seg_end s) end_ then seg_end s else end_) q'
  end.
Definition serval_tcp_collapse_ofo_queue : TM unit :=
  t ← the_tp;
  match out_of_order_queue t with
  | [] => mret tt
  | s :: q =>
      q ← collapse_runs [s] (seg_seq s) (seg_end s) q;
      set_ofo q
  end.

(** ** Memory for a segment *)
Definition serval_tcp_prune_ofo_queue : TM bool :=
  t ← the_tp;
  match out_of_order_queue t with
  | [] => mret false
  | q => rfree_all q;; set_ofo [];; sk_mem_reclaim;; mret true
  end.
Definition serval_tcp_prune_queue : TM Z :=
  w ← getS;
  (if sk_rcvbuf (tp w) <=? sk_rmem_alloc (tp w) then serval_tcp_clamp_window
   else if memory_pressure w
   then upd (fun t => t {{ rcv_ssthresh := Z.min (rcv_ssthresh t) (4 * advmss t) }})
   else mret tt);;
  serval_tcp_collapse_ofo_queue;;
  t ← the_tp;
  (match receive_queue t with
   | [] => mret tt
   | q =>
       q ← serval_tcp_collapse q (copied_seq t) (rcv_nxt t);
       upd (fun t => t {{ receive_queue := q }})
   end);;
  sk_mem_reclaim;;
  t ← the_tp;
  if sk_rmem_alloc t <=? sk_rcvbuf t then mret 0
  else
    serval_tcp_prune_ofo_queue;;
    t ← the_tp;
    if sk_rmem_alloc t <=? sk_rcvbuf t then mret 0
    else upd (fun t => t {{ pred_flags := 0 }});; mret (-1).
(** 0 if the segment may be queued. *)
Definition serval_tcp_try_rmem_schedule (size : Z) : TM Z :=
  t ← the_tp;
  ok ← (if sk_rcvbuf t <? sk_rmem_alloc t then mret false else sk_rmem_schedule size);
  if (ok : bool) then mret 0
  else
    err ← serval_tcp_prune_queue;
    if err <? 0 then mret (-1)
    else
      ok ← sk_rmem_schedule size;
      if (ok : bool) then mret 0
      else
        pruned ← serval_tcp_prune_ofo_queue;
        if negb pruned then mret (-1)
        else
          ok ← sk_rmem_schedule size;
          mret (if ok : bool then 0 else -1).

(** ** A segment out of order

    [place] walks the queue from its tail ([rq] is the queue reversed, [later]
    what has been passed) to the last segment that does not start after the
    new one, and returns the queue in front of the new segment and behind it,
    or [None] if every byte of it is there already. *)
Definition place (rq : list tcp_seg) (later : list tcp_seg) (seq end_seq : Z)
  : option (list tcp_seg * list tcp_seg) :=
  match rq with
  | [] => Some ([], later)
  | s1 :: rq' =>
      if before seq (seg_end s1) then
        if negb (after end_seq (seg_end s1)) then None
        else if after seq (seg_seq s1) then Some (reverse rq, later)
        else Some (reverse rq', s1 :: later)
      else Some (reverse rq, later)
  end.
Fixpoint find_place (rq later : list tcp_seg) (seq end_seq : Z)
  : option (list tcp_seg * list tcp_seg) :=
  match rq with
  | [] => place [] later seq end_seq
  | s1 :: rq' =>
      if negb (after (seg_seq s1) seq) then place rq later seq end_seq
      else find_place rq' (s1 :: later) seq end_seq
  end.
(** Segments behind the new one that it covers are freed. *)
Fixpoint clean_covered q (end_seq : Z) : TM (list tcp_seg) :=
  match q with
  | [] => mret []
  | s1 :: q' =>
      if negb (after end_seq (seg_seq s1)) then mret q
      else if before end_seq (seg_end s1) then mret q
      else sock_rfree s1;; clean_covered q' end_seq
  end.
Definition queue_ofo s : TM unit :=
  t ← the_tp;
  let q := out_of_order_queue t in
  match reverse q with
  | [] => set_ofo [s]
  | s1 :: _ =>
      if seg_seq s =? seg_end s1 then set_ofo (q ++ [s])
      else
        match find_place (reverse q) [] (seg_seq s) (seg_end s) with
        | None => sock_rfree s
        | Some (front, back) =>
            back ← clean_covered back (seg_end s);
            set_ofo (front ++ [s] ++ back)
        end
  end.

(** ** A segment with data *)
Definition __skb_pull s : TM tcp_seg :=
  let n := 4 * th_doff s in
  if seg_len s <? n then faultM
  else mret (s {{ seg_data := drop (Z.to_nat n) (seg_data s);
                  seg_headroom := seg_headroom s + n }}).

(** The label [queue_and_out] and what follows it. *)
Definition queue_and_out s : TM unit :=
  err ← serval_tcp_try_rmem_schedule (seg_truesize s);
  if negb (err =? 0) then mret tt
  else
    skb_set_owner_r s;;
    upd (fun t => t {{ receive_queue := receive_queue t ++ [s]; rcv_nxt := seg_end s }});;
    (if 0 <? seg_len s then serval_tcp_event_data_recv s else mret tt);;
    (if th_fin s then serval_tcp_fin else mret tt);;
    t ← the_tp;
    (match out_of_order_queue t with
     | [] => mret tt
     | _ =>
         serval_tcp_ofo_queue;;
         t ← the_tp;
         match out_of_order_queue t with
         | [] => upd_ack (fun a => a {{ pingpong := 0 }})
         | _ => mret tt
         end
     end);;
    upd serval_tcp_fast_path_check;;
    t ← the_tp;
    if sock_dead t then mret tt else modS (fun w => w {{ wakeups ::= S }}).
Definition out_of_window : TM unit :=
  serval_tcp_enter_quickack_mode;;
  serval_tsk_schedule_ack.

Definition serval_tcp_data_queue s : TM unit :=
  if seg_seq s =? seg_end s then mret tt
  else
    s ← __skb_pull s;
    t ← the_tp;
    if seg_seq s =? rcv_nxt t then
      if serval_tcp_receive_window t =? 0 then out_of_window else queue_and_out s
    else if negb (after (seg_end s) (rcv_nxt t)) then out_of_window
    else if negb (before (seg_seq s) (u32 (rcv_nxt t + serval_tcp_receive_window t)))
    then out_of_window
    else
      serval_tcp_enter_quickack_mode;;
      if before (seg_seq s) (rcv_nxt t) then
        if serval_tcp_receive_window t =? 0 then out_of_window else queue_and_out s
      else
        err ← serval_tcp_try_rmem_schedule (seg_truesize s);
        if negb (err =? 0) then mret tt
        else
          upd (fun t => t {{ pred_flags := 0 }});;
          serval_tsk_schedule_ack;;
          skb_set_owner_r s;;
          queue_ofo s.
End Queue.
