(* ===== verification/TcpFrame.v ===== *)
(** * What tuning leaves alone

    The functions that estimate segment sizes, round-trip times and buffer
    space return normally, and do not touch the queues, the sequence numbers
    and the window. *)

(** * Sequence space and coverage

    Sequence numbers are the offsets of a byte stream taken modulo 2^32 from
    the initial one; the comparisons of the code agree with those of the
    offsets as long as these lie within half the space of each other.

    A queue of segments is seen as the list of the intervals of offsets its
    segments cover.  [chain lo c l n]: the intervals cover [c, n) without a
    gap, each reaching further than the one in front of it, and none starts
    below [lo].  [runs lo E l]: a sequence of such chains with gaps between
    them, [E] being where the coverage so far ends and [lo] where the current
    chain starts. *)
From S2P Require Import Prelude TcpSock.
Local Open Scope Z_scope.

(** ** Sequence numbers *)
Lemma u32_range z : 0 <= u32 z < 2 ^ 32.
Proof. apply Z.mod_pos_bound. lia. Qed.
Lemma u32_add_l x y : u32 (u32 x + y) = u32 (x + y).
Proof. unfold u32. apply Zplus_mod_idemp_l. Qed.
Lemma u32_minus x y : u32 (u32 x - u32 y) = u32 (x - y).
Proof. unfold u32. by rewrite <- Zminus_mod. Qed.
Lemma u32_sub_l x y : u32 (u32 x - y) = u32 (x - y).
Proof. unfold u32. apply Zminus_mod_idemp_l. Qed.
Lemma s32_near z : - 2 ^ 31 <= z < 2 ^ 31 -> s32 z = z.
Proof.
  intros. unfold s32, u32. destruct (decide (0 <= z)).
  - rewrite Z.mod_small by lia. case_match; lia.
  - assert (z mod 2 ^ 32 = z + 2 ^ 32) as -> by (symmetry; apply Z.mod_unique with (-1); lia).
    case_match; lia.
Qed.
Lemma s32_u32 z : s32 (u32 z) = s32 z.
Proof. unfold s32, u32. by rewrite Zmod_mod. Qed.

Section Seq.
Context (isn : Z).
(** The sequence number of an offset. *)
Definition sq (a : Z) : Z := u32 (isn + a).

Lemma sq_add a k : u32 (sq a + k) = sq (a + k).
Proof. unfold sq. rewrite u32_add_l. f_equal. lia. Qed.
Lemma sq_sub a b : u32 (sq a - sq b) = u32 (a - b).
Proof. unfold sq. rewrite u32_minus. f_equal. lia. Qed.
Lemma sq_dist a b : - 2 ^ 31 <= a - b < 2 ^ 31 -> s32 (sq a - sq b) = a - b.
Proof. intros. rewrite <- s32_u32, sq_sub, s32_u32. by apply s32_near. Qed.
Lemma before_sq a b : - 2 ^ 31 <= a - b < 2 ^ 31 -> before (sq a) (sq b) = (a <? b).
Proof. intros. unfold before. rewrite sq_dist by done. lia. Qed.
Lemma after_sq a b : - 2 ^ 31 <= b - a < 2 ^ 31 -> after (sq a) (sq b) = (b <? a).
Proof. intros. unfold after. by apply before_sq. Qed.
Lemma eqb_sq a b : - 2 ^ 32 < a - b < 2 ^ 32 -> (sq a =? sq b) = (a =? b).
Proof.
  intros. destruct (Z.eqb_spec a b) as [->|]; [lia|].
  apply Z.eqb_neq. intros E. unfold sq, u32 in E.
  assert (E' : (a - b) mod 2 ^ 32 = 0).
  { replace (a - b) with ((isn + a) - (isn + b)) by lia.
    rewrite Zminus_mod, E, Z.sub_diag. done. }
  apply Z.mod_divide in E' as [q Hq]; [|lia]. nia.
Qed.
End Seq.

(** ** Coverage *)
Abbreviation range := (Z * Z)%type.

Fixpoint chain (lo c : Z) (l : list range) (n : Z) : Prop :=
  match l with
  | [] => c = n
  | (o, e) :: l => lo <= o <= c /\ c < e /\ chain lo e l n
  end.
Fixpoint runs (lo E : Z) (l : list range) : Prop :=
  match l with
  | [] => True
  | (o, e) :: l => lo <= o < e /\ E < e /\ runs (if E <? o then o else lo) e l
  end.
(** Where the coverage ends and its last chain starts. *)
Fixpoint runs_end (lo E : Z) (l : list range) : range :=
  match l with
  | [] => (lo, E)
  | (o, e) :: l => runs_end (if E <? o then o else lo) e l
  end.

Lemma chain_le lo c l n : chain lo c l n -> c <= n.
Proof.
  revert c. induction l as [|[o e] l IH]; intros c; simpl; [lia|].
  intros (? & ? & ?%IH). lia.
Qed.
Lemma chain_snoc lo c l n o e :
  chain lo c l n -> lo <= o <= n -> n < e -> chain lo c (l ++ [(o, e)]) e.
Proof.
  revert c. induction l as [|[o' e'] l IH]; intros c; simpl; [naive_solver lia|].
  naive_solver.
Qed.
Lemma chain_app lo c l m l' n :
  chain lo c l m -> chain lo m l' n -> chain lo c (l ++ l') n.
Proof.
  revert c. induction l as [|[o e] l IH]; intros c; simpl; [by intros ->|]. naive_solver.
Qed.
Lemma chain_in lo c l n o e :
  chain lo c l n -> (o, e) ∈ l -> lo <= o /\ o < e /\ c < e <= n /\ o <= n.
Proof.
  revert c. induction l as [|[o' e'] l IH]; intros c; simpl; [by intros _ ?%not_elem_of_nil|].
  intros (? & ? & Hl) [[= -> ->]|Hin]%elem_of_cons.
  - pose proof (chain_le _ _ _ _ Hl). lia.
  - destruct (IH _ Hl Hin). lia.
Qed.
(** What has been read goes from the front of the queue. *)
Lemma chain_read lo c c' o e l n :
  chain lo c ((o, e) :: l) n -> c <= c' -> c' < e -> chain lo c' ((o, e) :: l) n.
Proof. simpl. intros (? & ? & ?). naive_solver lia. Qed.

Lemma runs_app lo E l l' :
  runs lo E (l ++ l') <->
  runs lo E l /\ runs (runs_end lo E l).1 (runs_end lo E l).2 l'.
Proof.
  revert lo E. induction l as [|[o e] l IH]; intros lo E; simpl; [tauto|].
  rewrite IH. tauto.
Qed.
Lemma runs_end_snoc lo E l o e :
  runs_end lo E (l ++ [(o, e)]) = (if (runs_end lo E l).2 <? o then o else (runs_end lo E l).1, e).
Proof. revert lo E. induction l as [|[o' e'] l IH]; intros lo E; simpl; [done|]. apply IH. Qed.
Lemma runs_end_ge lo E l : runs lo E l -> lo <= (runs_end lo E l).1 /\ E <= (runs_end lo E l).2.
Proof.
  revert lo E. induction l as [|[o e] l IH]; intros lo E; simpl; [lia|].
  intros (? & ? & [? ?]%IH). case_match; lia.
Qed.
Lemma runs_in lo E l o e : runs lo E l -> (o, e) ∈ l -> lo <= o /\ o < e /\ E < e.
Proof.
  revert lo E. induction l as [|[o' e'] l IH]; intros lo E; simpl; [by intros _ ?%not_elem_of_nil|].
  intros (? & ? & Hl) [[= -> ->]|Hin]%elem_of_cons; [lia|].
  destruct (IH _ _ Hl Hin). case_match; lia.
Qed.
(** A lower bound and an end of the coverage that do not matter to what follows. *)
Lemma runs_weaken lo E lo' E' l :
  runs lo E l -> lo' <= lo -> E' <= E ->
  (forall o e, head l = Some (o, e) -> E' < o -> E < o \/ lo = o) -> runs lo' E' l.
Proof.
  revert lo E lo' E'. induction l as [|[o e] l IH]; intros lo E lo' E'; simpl; [done|].
  intros (? & ? & Hl) ? ? Hg. split_and!; [lia..|].
  specialize (Hg o e eq_refl).
  destruct (Z.ltb_spec E' o), (Z.ltb_spec E o);
    (eapply IH; [exact Hl|lia|lia|]); intros; naive_solver lia.
Qed.
Lemma chain_runs s c e run q :
  chain s c run e -> runs s e q -> runs s c (run ++ q).
Proof.
  revert c. induction run as [|[o e'] run IH]; intros c; simpl; [by intros ->|].
  intros (? & ? & ?) ?. split_and!; [lia..|].
  replace (c <? o) with false by lia. by apply IH.
Qed.
(** A chain behind a gap. *)
Lemma chain_run lo E s e run q :
  chain s s run e -> runs s e q -> lo <= s -> E < s -> runs lo E (run ++ q).
Proof.
  intros Hc Hq ? ?. eapply runs_weaken; [by eapply chain_runs|lia|lia|].
  intros o e' Ho _. assert (Hin : (o, e') ∈ run ++ q).
  { destruct (run ++ q); simplify_eq/=. by left. }
  pose proof (chain_runs _ _ _ _ _ Hc Hq) as Hr.
  apply (runs_in _ _ _ _ _ Hr) in Hin. lia.
Qed.

(** ** A new interval

    Intervals that start below [b] and reach no further go from the front. *)
Definition dropping (b : Z) (l l' : list range) : Prop :=
  exists d, l = d ++ l' /\ Forall (fun r => r.1 < b /\ r.2 <= b) d /\
    match l' with [] => True | r :: _ => b <= r.1 \/ b < r.2 end.

Lemma runs_lower lo lo' E l : runs lo E l -> lo' <= lo -> runs lo' E l.
Proof. intros Hr ?. eapply runs_weaken; [exact Hr|done|lia|naive_solver]. Qed.
Lemma runs_dropping lo E b l l' :
  runs lo E l -> dropping b l l' -> E <= b -> runs lo b l'.
Proof.
  intros Hr (d & -> & Hd & Hb) HE. revert lo E Hr HE.
  induction Hd as [|[o e] d [? ?] ? IH]; intros lo E; simpl in *.
  - destruct l' as [|[o e] l']; [done|]. simpl in *. intros (? & ? & Hl) ?.
    split_and!; [lia..|].
    destruct (Z.ltb_spec b o); [by replace (E <? o) with true in Hl by lia|].
    eapply runs_lower; [exact Hl|]. case_match; lia.
  - intros (? & ? & Hl) ?. apply IH in Hl; [|done].
    eapply runs_lower; [exact Hl|]. case_match; lia.
Qed.
(** A new interval behind [f], with what it covers of [k] dropped. *)
Lemma runs_insert lo E f k k' a b :
  runs lo E (f ++ k) -> dropping b k k' -> a < b ->
  (runs_end lo E f).1 <= a -> (runs_end lo E f).2 < b ->
  ((runs_end lo E f).2 < a -> match k with [] => True | r :: _ => a <= r.1 end) ->
  runs lo E (f ++ (a, b) :: k').
Proof.
  intros [Hf Hk]%runs_app Hd ? ? ? Hg. apply runs_app. split; [done|].
  destruct (runs_end lo E f) as [lo1 E1]. simpl in *. split_and!; [lia..|].
  destruct (Z.ltb_spec E1 a).
  - eapply runs_dropping; [|exact Hd|by apply Z.lt_le_incl].
    destruct k as [|[o e] k]; [done|]. specialize (Hg ltac:(done)). simpl in *.
    by replace (E1 <? o) with true in * by lia; naive_solver lia.
  - eapply runs_dropping; [exact Hk|exact Hd|lia].
Qed.
(** Where the last interval of [f] leaves the coverage. *)
Lemma runs_end_last lo E f o e :
  runs lo E (f ++ [(o, e)]) ->
  (runs_end lo E (f ++ [(o, e)])).1 <= o /\ (runs_end lo E (f ++ [(o, e)])).2 = e.
Proof.
  intros [_ Hr]%runs_app. rewrite runs_end_snoc. simpl in *. split; [case_match; lia|done].
Qed.
(** The intervals that the coverage has reached. *)
Lemma runs_advance lo E o e l :
  runs lo E ((o, e) :: l) -> o <= E -> runs lo e l.
Proof. simpl. intros (? & ? & Hl) ?. by replace (E <? o) with false in Hl by lia. Qed.

From S2P Require Import TcpQueue.

(** The part of the socket that decides what is delivered. *)
Definition rx (t : tcp_sock) :=
  ((rcv_nxt t, copied_seq t, rcv_wup t, rcv_wnd t),
   (receive_queue t, out_of_order_queue t),
   (tcp_state t, sock_done t, sk_err t, rcv_shutdown t, fin_found t), rcv_wscale t).
(** The sizes the estimators divide by and iterate on. *)
Record tune_ok (t : tcp_sock) : Prop := {
  tune_mss : 0 < rcv_mss (ack t) < 2 ^ 16;
  tune_advmss : 0 < advmss t < 2 ^ 16;
  tune_hlen : 0 <= tcp_header_len t <= 60;
  tune_clamp : 0 < window_clamp t < 2 ^ 31;
  tune_rcvbuf : 0 < sk_rcvbuf t < 2 ^ 31;
  tune_space : 0 < rqs_space t < 2 ^ 31;
  tune_ssthresh : 0 <= rcv_ssthresh t;
  tune_scale : 0 <= rcv_wscale t <= 14;
}.
(** The settings the proofs rely on. *)
Class TcpEnvOk `(Env : TcpEnv) : Prop := {
  win_scale_ok : 1 <= adv_win_scale <= 31;
  rmem_ok : 0 < tcp_rmem2 < 2 ^ 31;
  header_ok : 0 <= max_tcp_header;
  skb_ok : 0 <= sizeof_sk_buff < 2 ^ 16;
  shared_ok : 0 <= sizeof_shared_info < PAGE_SIZE;
}.

Definition same (w w' : tcpw) : Prop := rx (tp w') = rx (tp w) /\ tune_ok (tp w').
Definition quiet {A} (m : TM A) : Prop :=
  forall w, tune_ok (tp w) -> wp m w (fun _ w' => same w w').

Lemma wp_bind_Ok {A B} (m : TM A) (k : A -> TM B) w a w' Q :
  m w = Ok (a, w') -> wp (k a) w' Q -> wp (m ≫= k) w Q.
Proof. intros Hm Hk. apply wp_bind. unfold wp at 1. by rewrite Hm. Qed.

(** Give the current state a name. *)
Ltac wp_state w := lazymatch goal with |- wp _ ?x _ => set (w := x) end.

Create HintDb quiet.

Section quiet.
Context `{EOk : TcpEnvOk}.

Lemma quiet_ret {A} (a : A) : quiet (mret a).
Proof. intros w Hw. by apply wp_ret. Qed.
Lemma quiet_bind {A B} (m : TM A) (k : A -> TM B) :
  quiet m -> (forall a, quiet (k a)) -> quiet (m ≫= k).
Proof.
  intros Hm Hk w Hw. apply wp_bind. eapply wp_mono; [by apply Hm|].
  intros a w' [Hrx Hw']. eapply wp_mono; [by apply Hk|].
  intros b w'' [Hrx' ?]. by split; [rewrite Hrx'|].
Qed.
Lemma quiet_tp {B} (k : tcp_sock -> TM B) :
  (forall t, tune_ok t -> quiet (k t)) -> quiet (the_tp ≫= k).
Proof. intros Hk w Hw. apply wp_bind, wp_gets. by apply Hk. Qed.
Lemma quiet_get {B} (k : tcpw -> TM B) :
  (forall w, tune_ok (tp w) -> quiet (k w)) -> quiet (getS ≫= k).
Proof. intros Hk w Hw. apply wp_bind, wp_getS. by apply Hk. Qed.
Lemma quiet_upd f :
  (forall t, tune_ok t -> rx (f t) = rx t /\ tune_ok (f t)) -> quiet (upd f).
Proof. intros Hf w Hw. apply wp_modS. by apply Hf. Qed.
Lemma quiet_mod f : (forall w, tp (f w) = tp w) -> quiet (modS f).
Proof. intros Hf w Hw. apply wp_modS. by split; rewrite Hf. Qed.
Lemma quiet_mod_tp f :
  (forall w, tune_ok (tp w) -> rx (tp (f w)) = rx (tp w) /\ tune_ok (tp (f w))) -> quiet (modS f).
Proof. intros Hf w Hw. apply wp_modS. by apply Hf. Qed.
Lemma quiet_if {A} (b : bool) (m m' : TM A) :
  quiet m -> quiet m' -> quiet (if b then m else m').
Proof. by destruct b. Qed.
(** Changes of the acknowledgement state that leave the segment size alone. *)
Lemma quiet_ack f : (forall a, rcv_mss (f a) = rcv_mss a) -> quiet (upd_ack f).
Proof. intros Hf. apply quiet_upd. intros t []. split; [done|]. split; simpl; by rewrite ?Hf. Qed.
Lemma quiet_ssthresh g :
  (forall t, tune_ok t -> 0 <= g t) -> quiet (upd (fun t => t {{ rcv_ssthresh := g t }})).
Proof.
  intros Hg. apply quiet_upd. intros t Ht. split; [done|].
  pose proof (Hg t Ht). destruct Ht. by split.
Qed.
Lemma quiet_stamp : quiet tcp_time_stamp.
Proof. apply quiet_get. intros. apply quiet_ret. Qed.
Lemma quiet_rmem f : quiet (upd (fun t => t {{ sk_rmem_alloc := f t }})).
Proof. apply quiet_upd. by intros t []. Qed.
End quiet.
#[export] Hint Resolve quiet_stamp : quiet.

Ltac quiet_step :=
  lazymatch goal with
  | |- quiet (mret _) => apply quiet_ret
  | |- quiet (mbind _ the_tp) => apply quiet_tp; intros ? ?
  | |- quiet (mbind _ getS) => apply quiet_get; intros ? ?
  | |- quiet (mbind _ _) => apply quiet_bind; [|intros]
  | |- quiet (if _ then _ else _) => apply quiet_if
  | |- quiet (upd_ack _) => apply quiet_ack; intros; reflexivity
  | |- quiet (upd _) =>
      first [ apply quiet_upd; intros ? []; split; [reflexivity|by split]
            | apply quiet_ssthresh; intros ? []; lia ]
  | |- quiet (modS _) =>
      first [ apply quiet_mod; intros; reflexivity
            | apply quiet_mod_tp; intros ? []; split; [reflexivity|by split] ]
  | |- quiet _ => solve [auto 2 with quiet nocore]
  end.
Ltac quiet_steps := repeat quiet_step.

Section frame.
Context `{EOk : TcpEnvOk}.

Lemma sk_mem_reclaim_quiet : quiet sk_mem_reclaim.
Proof. unfold sk_mem_reclaim. quiet_steps. apply quiet_mod. intros w. by destruct (_ && _). Qed.
Lemma schedule_ack_quiet : quiet serval_tsk_schedule_ack.
Proof. unfold serval_tsk_schedule_ack. quiet_steps. Qed.
Lemma sk_rmem_schedule_quiet size : quiet (sk_rmem_schedule size).
Proof. unfold sk_rmem_schedule, __sk_mem_schedule_recv. quiet_steps. Qed.
Lemma rfree_all_quiet q : quiet (rfree_all q).
Proof. induction q; simpl; unfold sock_rfree; quiet_steps. Qed.
Lemma sock_rfree_quiet s : quiet (sock_rfree s).
Proof. unfold sock_rfree. quiet_steps. Qed.
Lemma set_owner_quiet s : quiet (skb_set_owner_r s).
Proof. unfold skb_set_owner_r. quiet_steps. Qed.
Lemma alloc_ok_quiet : quiet alloc_ok.
Proof. unfold alloc_ok. quiet_steps. destruct (allocs w); quiet_steps. Qed.
End frame.
#[export] Hint Resolve sk_mem_reclaim_quiet schedule_ack_quiet sk_rmem_schedule_quiet
  rfree_all_quiet sock_rfree_quiet set_owner_quiet alloc_ok_quiet : quiet.

(** ** Estimators *)
Record seg_small (s : tcp_seg) : Prop := {
  small_len : seg_len s < 2 ^ 15;
  small_gso : 0 <= gso_size s < 2 ^ 15;
  small_doff : 0 <= th_doff s <= 15;
  small_true : 0 <= seg_truesize s < 2 ^ 31;
}.

Section estimators.
Context `{EOk : TcpEnvOk}.
Implicit Types (s : tcp_seg) (t : tcp_sock).

Lemma win_from_space_bounds space :
  0 <= space -> space <= 2 * serval_tcp_win_from_space space /\
                0 <= serval_tcp_win_from_space space <= space.
Proof.
  intros. destruct win_scale_ok. unfold serval_tcp_win_from_space.
  replace (adv_win_scale <=? 0) with false by lia. rewrite Z.shiftr_div_pow2 by lia.
  assert (space / 2 ^ adv_win_scale <= space / 2).
  { apply Z.div_le_compat_l; [done|]. split; [lia|].
    change 2 with (2 ^ 1) at 1. apply Z.pow_le_mono_r; lia. }
  pose proof (Z.div_pos space (2 ^ adv_win_scale)). pose proof (Z.mul_div_le space 2). lia.
Qed.
Lemma rcvmem_loop_ok fuel mss m :
  0 <= mss <= m -> 2 * mss - m < 128 * (Z.of_nat fuel - 1) + 1 -> (0 < fuel)%nat ->
  exists r, rcvmem_loop fuel mss m = Ok r.
Proof.
  revert m. induction fuel as [|fuel IH]; intros m ? ? ?; [lia|]. simpl.
  destruct (Z.ltb_spec (serval_tcp_win_from_space m) mss); [|eauto].
  destruct (win_from_space_bounds m); [lia|]. apply IH; lia.
Qed.
(** The space for a segment is found. *)
Lemma segment_mem_ok mss : 0 <= mss < 2 ^ 16 -> exists r, segment_mem mss = Ok r.
Proof.
  intros. unfold segment_mem. destruct EOk. apply rcvmem_loop_ok; unfold RCVMEM_FUEL; lia.
Qed.
Lemma grow_loop_ok fuel thresh len mss ts win :
  0 <= len -> 0 <= ts < 2 ^ (Z.of_nat fuel - 1) -> (0 < fuel <= 34)%nat ->
  exists r, grow_loop fuel thresh len mss ts win = Ok r.
Proof.
  revert ts win. induction fuel as [|fuel IH]; intros ts win ? ? ?; [lia|]. simpl.
  destruct (thresh <=? u32 win); [|eauto].
  destruct (Z.leb_spec (u32 ts) len); [eauto|].
  destruct (decide (fuel = 0%nat)) as [->|].
  { simpl in *. assert (ts = 0) as -> by lia. change (u32 0) with 0 in *. lia. }
  apply IH; [done| |lia]. rewrite Z.shiftr_div_pow2 by lia.
  replace (Z.of_nat (S fuel) - 1) with (1 + (Z.of_nat fuel - 1)) in * by lia.
  rewrite Z.pow_add_r in * by lia. change (2 ^ 1) with 2 in *.
  pose proof (Z.div_pos ts 2). split; [lia|]. apply Z.div_lt_upper_bound; lia.
Qed.
Lemma grow_window_ok t s : 0 <= seg_truesize s < 2 ^ 31 ->
  exists r, __serval_tcp_grow_window t s = Ok r.
Proof.
  intros. unfold __serval_tcp_grow_window.
  destruct (win_from_space_bounds (seg_truesize s)); [lia|].
  apply grow_loop_ok; [unfold seg_len; lia| |lia].
  rewrite Z.shiftr_div_pow2 by lia. change (2 ^ 1) with 2.
  split; [apply Z.div_pos; lia|]. apply Z.div_lt_upper_bound; lia.
Qed.
Lemma quiet_liftO {A} (o : outcome A) : (exists a, o = Ok a) -> quiet (liftO o).
Proof. intros [a ->] w Hw. by split. Qed.

Lemma incr_quickack_quiet : quiet serval_tcp_incr_quickack.
Proof.
  unfold serval_tcp_incr_quickack. apply quiet_tp. intros t [].
  replace (rcv_mss (ack t) =? 0) with false by lia. quiet_steps.
Qed.
Lemma mark_pushed_quiet : quiet (upd_ack mark_pushed).
Proof. apply quiet_ack. by intros. Qed.
Lemma measure_rcv_mss_quiet s : seg_small s -> quiet (serval_tcp_measure_rcv_mss s).
Proof.
  intros []. unfold serval_tcp_measure_rcv_mss. apply quiet_tp. intros t [].
  set (len := if gso_size s =? 0 then _ else _).
  assert (0 <= len < 2 ^ 15) by (subst len; unfold seg_len in *; case_match; lia).
  assert (Hset : forall z, 0 < z < 2 ^ 16 -> quiet (upd_ack (fun a => a {{ rcv_mss := u16 z }}))).
  { intros z ?. apply quiet_upd. intros u []. split; [done|]. split; [|done..].
    change (0 < u16 z < 2 ^ 16). unfold u16. rewrite Z.mod_small; lia. }
  apply quiet_bind; [quiet_steps|intros _].
  destruct (Z.leb_spec (rcv_mss (ack t)) len); [apply Hset; lia|].
  rewrite (u32_id (len + _)) by lia.
  set (len' := len + 4 * th_doff s) in *.
  destruct (_ || _) eqn:Hb; [|auto using mark_pushed_quiet].
  assert (108 <= len').
  { unfold SERVAL_TCP_MSS_DEFAULT, SERVAL_TCP_MIN_MSS, TCP_HLEN in *. lia. }
  rewrite (u32_id (len' - _)) by lia. quiet_steps. apply Hset. lia.
Qed.
Lemma rcv_rtt_measure_quiet : quiet serval_tcp_rcv_rtt_measure.
Proof. unfold serval_tcp_rcv_rtt_measure, serval_tcp_rcv_rtt_update. quiet_steps. Qed.
Lemma grow_window_quiet s : seg_small s -> quiet (serval_tcp_grow_window s).
Proof.
  intros []. unfold serval_tcp_grow_window. apply quiet_get. intros w Hw.
  apply quiet_if; [|quiet_steps]. apply quiet_bind.
  - apply quiet_if; [quiet_steps|]. by apply quiet_liftO, grow_window_ok.
  - intros incr. apply quiet_if; [quiet_steps|]. apply quiet_upd. intros t []. split; [done|].
    split; try done.
    change (0 <= Z.min (u32 (rcv_ssthresh t + incr)) (window_clamp t)).
    pose proof (u32_range (rcv_ssthresh t + incr)). lia.
Qed.
(** The buffer grows to what is in use. *)
Lemma clamp_window_ok w :
  tune_ok (tp w) -> sk_rcvbuf (tp w) <= sk_rmem_alloc (tp w) ->
  wp serval_tcp_clamp_window w (fun _ w' => same w w').
Proof.
  intros Hw ?. unfold serval_tcp_clamp_window. apply wp_bind, wp_modS, wp_bind, wp_getS, wp_bind.
  pose proof (tune_rcvbuf _ Hw). destruct rmem_ok. wp_state w1.
  assert (Hw1 : tune_ok (tp w1)) by by destruct Hw.
  eapply (wp_mono _ _ (fun _ w' => same w w')).
  - destruct (_ && _); [|by apply wp_ret]. apply wp_modS. split; [done|]. destruct Hw.
    split; try done. change (0 < Z.min (sk_rmem_alloc (tp w)) tcp_rmem2 < 2 ^ 31). lia.
  - intros _ w2 [Hrx2 Hw2]. apply wp_bind, wp_gets. destruct (_ <? _); [|by apply wp_ret].
    eapply wp_mono; [apply (quiet_ssthresh (fun t => Z.min (window_clamp t) (2 * advmss t)))|].
    + intros t []. lia.
    + done.
    + intros _ w3 [Hrx3 ?]. split; [by rewrite Hrx3|done].
Qed.
Lemma enter_quickack_quiet : quiet serval_tcp_enter_quickack_mode.
Proof.
  unfold serval_tcp_enter_quickack_mode. apply quiet_bind; [apply incr_quickack_quiet|].
  intros. quiet_steps.
Qed.
Lemma space_measured_quiet space : 0 < space < 2 ^ 31 -> quiet (space_measured space).
Proof.
  intros ?. unfold space_measured. apply quiet_tp. intros t [].
  replace (advmss t =? 0) with false by lia.
  assert (Hset : quiet (upd (fun t => t {{ rqs_space := space }}))).
  { apply quiet_upd. by intros ? []. }
  apply quiet_if; [quiet_steps|]. apply quiet_bind; [exact Hset|intros _].
  apply quiet_if; [|quiet_steps]. apply quiet_bind; [|intros rcvmem].
  - apply quiet_liftO, segment_mem_ok. lia.
  - cbv zeta. destruct rmem_ok. set (mem := Z.min (s32 _) tcp_rmem2).
    destruct (Z.ltb_spec (sk_rcvbuf t) mem); [|quiet_steps].
    apply quiet_upd. intros u []. split; [done|]. split; try done.
    + change (0 < u32 space < 2 ^ 31). rewrite u32_id; lia.
    + change (0 < mem < 2 ^ 31). lia.
Qed.
Lemma rcv_space_adjust_quiet : quiet serval_tcp_rcv_space_adjust.
Proof.
  unfold serval_tcp_rcv_space_adjust. apply quiet_tp. intros t [].
  assert (Hs : forall z, s32 z < 2 ^ 31).
  { intros z. unfold s32. pose proof (u32_range z). case_match; lia. }
  specialize (Hs (2 * (copied_seq t - rqs_seq t))).
  quiet_steps. apply space_measured_quiet. lia.
Qed.
End estimators.
#[export] Hint Resolve incr_quickack_quiet measure_rcv_mss_quiet rcv_rtt_measure_quiet
  grow_window_quiet enter_quickack_quiet rcv_space_adjust_quiet : quiet.

Section events.
Context `{EOk : TcpEnvOk}.

Lemma event_data_recv_quiet s : seg_small s -> quiet (serval_tcp_event_data_recv s).
Proof. intros. unfold serval_tcp_event_data_recv. quiet_steps. Qed.
End events.
#[export] Hint Resolve event_data_recv_quiet : quiet.

(** ** Single fields

    [frames f m]: if [m] returns, the field [f] is what it was. *)
Definition frames {X A} (f : tcp_sock -> X) (m : TM A) : Prop :=
  forall w a w', m w = Ok (a, w') -> f (tp w') = f (tp w).

Section frames.
Context {X : Type} (f : tcp_sock -> X).

Lemma frames_wp {A} (m : TM A) w Q :
  frames f m -> wp m w Q -> wp m w (fun a w' => Q a w' /\ f (tp w') = f (tp w)).
Proof.
  intros Hf. rewrite !wp_run. intros (a & w' & Hm & ?). exists a, w'. eauto.
Qed.
Lemma frames_ret {A} (a : A) : frames f (mret a).
Proof. by intros w b w' [= _ <-]. Qed.
Lemma frames_bind {A B} (m : TM A) (k : A -> TM B) :
  frames f m -> (forall a, frames f (k a)) -> frames f (m ≫= k).
Proof. intros Hm Hk w b w' (a & w1 & H1%Hm & H2%Hk)%bind_Ok_inv. congruence. Qed.
Lemma frames_gets {A} (g : tcpw -> A) : frames f (gets g).
Proof. by intros w b w' [= _ <-]. Qed.
Lemma frames_getS : frames f getS.
Proof. by intros w b w' [= _ <-]. Qed.
Lemma frames_upd g : (forall t, f (g t) = f t) -> frames f (upd g).
Proof. intros Hg w b w' [= _ <-]. apply Hg. Qed.
Lemma frames_mod g : (forall w, f (tp (g w)) = f (tp w)) -> frames f (modS g).
Proof. intros Hg w b w' [= _ <-]. apply Hg. Qed.
Lemma frames_if {A} (b : bool) (m m' : TM A) :
  frames f m -> frames f m' -> frames f (if b then m else m').
Proof. by destruct b. Qed.
Lemma frames_fault {A} : frames f (faultM (A := A)).
Proof. by intros w a w' ?. Qed.
Lemma frames_liftO {A} (o : outcome A) : frames f (liftO o).
Proof. intros w x w'. unfold liftO. destruct o; [|done..]. by intros [= _ <-]. Qed.
End frames.
Ltac frames_step :=
  lazymatch goal with
  | |- frames _ (mret _) => apply frames_ret
  | |- frames _ (mbind _ _) => apply frames_bind; [|intros ?]
  | |- frames _ the_tp => apply frames_gets
  | |- frames _ getS => apply frames_getS
  | |- frames _ (upd_ack _) => apply frames_upd; reflexivity
  | |- frames _ (upd _) => apply frames_upd; reflexivity
  | |- frames _ (modS _) => apply frames_mod; reflexivity
  | |- frames _ (if _ then _ else _) => apply frames_if
  | |- frames _ faultM => apply frames_fault
  | |- frames _ (liftO _) => apply frames_liftO
  end.
Ltac frames_steps := repeat frames_step.
