(* ===== verification/TcpQueueOk.v ===== *)
(** * The receive queues hold the stream

    The invariant of the receive queue and the out-of-order queue, and that
    every function that works on them keeps it. *)

(** * Collapsing keeps the stream

    Segments of a stream of bytes, and the proof that rewriting a queue into
    fewer, fuller segments keeps every byte in its place, whatever allocations
    fail. *)
From S2P Require Import Prelude TcpSock TcpQueue TcpFrame.
Local Open Scope Z_scope.

(** The bytes of [St] between two offsets. *)
Definition bytes (St : list Z) (a b : Z) : list Z :=
  take (Z.to_nat (b - a)) (drop (Z.to_nat a) St).

Lemma bytes_app St a b c : 0 <= a <= b -> b <= c -> bytes St a b ++ bytes St b c = bytes St a c.
Proof.
  intros. unfold bytes. replace (Z.to_nat (c - a)) with (Z.to_nat (b - a) + Z.to_nat (c - b))%nat by lia.
  replace (Z.to_nat b) with (Z.to_nat a + Z.to_nat (b - a))%nat by lia.
  rewrite <- drop_drop. set (l := drop (Z.to_nat a) St).
  by rewrite take_take_drop.
Qed.
Lemma bytes_sub St o e a b :
  0 <= o <= a -> a <= b <= e ->
  take (Z.to_nat (b - a)) (drop (Z.to_nat (a - o)) (bytes St o e)) = bytes St a b.
Proof.
  intros. unfold bytes. rewrite skipn_firstn_comm, drop_drop, take_take.
  f_equal; [lia|]. f_equal. lia.
Qed.
Lemma bytes_length St a b :
  0 <= a <= b -> b <= Z.of_nat (length St) -> Z.of_nat (length (bytes St a b)) = b - a.
Proof. intros. unfold bytes. rewrite length_take, length_drop. lia. Qed.
Lemma bytes_nil St a : bytes St a a = [].
Proof. unfold bytes. by rewrite Z.sub_diag. Qed.

(** How far apart two offsets of a segment in the queues may be. *)
Abbreviation near := (2 ^ 31 - 2 ^ 16).

(** ** Segments of a stream

    The offset behind the last byte is that of the FIN. *)
Record seg_at `{TcpEnv} (St : list Z) (isn : Z) (s : tcp_seg) (r : range) : Prop := {
  at_seq : seg_seq s = sq isn r.1;
  at_end : seg_end s = sq isn r.2;
  at_range : 0 <= r.1 < r.2 /\ r.2 <= Z.of_nat (length St) + 1;
  at_syn : th_syn s = false;
  at_fin : th_fin s = (r.2 =? Z.of_nat (length St) + 1);
  at_data : seg_data s = bytes St r.1 (Z.min r.2 (Z.of_nat (length St)));
  at_small : seg_small s;
  at_head : 0 <= seg_headroom s < PAGE_SIZE - sizeof_shared_info;
}.

(** A segment being filled: it holds the bytes from [a] to [c] so far. *)
Record part `{TcpEnv} (St : list Z) (isn : Z) (n : tcp_seg) (a c : Z) : Prop := {
  part_seq : seg_seq n = sq isn a;
  part_end : seg_end n = sq isn c;
  part_range : 0 <= a <= c /\ c <= Z.of_nat (length St);
  part_syn : th_syn n = false;
  part_fin : th_fin n = false;
  part_data : seg_data n = bytes St a c;
  part_gso : gso_size n = 0;
  part_doff : 0 <= th_doff n <= 15;
  part_true : 0 <= seg_truesize n < 2 ^ 31;
  part_head : 0 <= seg_headroom n < PAGE_SIZE - sizeof_shared_info;
}.
(** The first segment of the queue is data. *)
Definition data_head (q : list tcp_seg) : Prop :=
  match q with [] => True | s :: _ => th_fin s = false end.

Ltac segs_done :=
  repeat first [done | apply Forall2_nil | apply Forall2_cons; split; [assumption|]
               | apply Forall2_app; [assumption|]].

Section Collapse.
Context `{EOk : TcpEnvOk} (St : list Z) (isn : Z).
Implicit Types (s n : tcp_seg) (q : list tcp_seg) (l : list range) (w : tcpw).
Abbreviation sqn := (sq isn).
Abbreviation L := (Z.of_nat (length St)).
Abbreviation segs := (Forall2 (seg_at St isn)).

Lemma seg_at_len s o e : seg_at St isn s (o, e) -> seg_len s = Z.min e L - o.
Proof. intros []. simpl in *. unfold seg_len. rewrite at_data0, bytes_length; lia. Qed.
Lemma seg_at_size s o e : seg_at St isn s (o, e) -> e - o <= 2 ^ 15.
Proof. intros Hs. pose proof (seg_at_len _ _ _ Hs). destruct Hs as [], at_small0. simpl in *. lia. Qed.
Lemma segs_total lo c q l E :
  segs q l -> chain lo c l E -> Z.min E L - c <= Z.of_nat (total_len q).
Proof.
  intros Hq. revert c. induction Hq as [|s [o e] q l Hs Hq IH]; intros c; simpl; [lia|].
  intros (? & ? & Hc). pose proof (seg_at_len _ _ _ Hs) as Hl. unfold seg_len in Hl.
  apply IH in Hc. unfold total_len in *. simpl. destruct Hs. simpl in *. lia.
Qed.

(** The search for the first segment worth collapsing changes nothing. *)
Lemma collapse_find_ok lo c q l E w :
  segs q l -> chain lo c l E -> E - c < near ->
  exists q1 q2 l1 l2 c',
    collapse_find q (sqn c) w = Ok ((q1, q2, sqn c'), w) /\ q = q1 ++ q2 /\
    segs q1 l1 /\ segs q2 l2 /\ chain lo c l1 c' /\ chain lo c' l2 E.
Proof.
  intros Hq. revert c w. induction Hq as [|s [o e] q l Hs Hq IH]; intros c w Hc Hd; simpl.
  { exists [], [], [], [], c. simpl in *. split_and!; done. }
  pose proof (seg_at_size _ _ _ Hs). destruct Hc as (? & ? & Hc). pose proof (chain_le _ _ _ _ Hc).
  pose proof Hs as [-> -> _ _ _ _ _ _]. simpl.
  rewrite !before_sq by lia. replace (c <? e) with true by lia. simpl.
  assert (Hstay : exists q1 q2 l1 l2 c',
    Ok ([], s :: q, sqn c, w) = Ok ((q1, q2, sqn c'), w) /\ s :: q = q1 ++ q2 /\
    segs q1 l1 /\ segs q2 l2 /\ chain lo c l1 c' /\ chain lo c' l2 E).
  { exists [], (s :: q), [], ((o, e) :: l), c. simpl.
    split_and!; try done; try lia. segs_done. }
  case_match; [exact Hstay|].
  destruct Hq as [|s' [o' e'] q l Hs' Hq]; simpl.
  { exists [s], [], [(o, e)], [], e. simpl in *. split_and!; try done; try lia; segs_done. }
  destruct (_ =? _); [|exact Hstay].
  destruct (IH e w Hc ltac:(lia)) as (q1 & q2 & l1 & l2 & c' & Hrun & Hqq & ? & ? & ? & ?).
  rewrite (bind_Ok _ _ _ _ _ Hrun).
  exists (s :: q1), q2, ((o, e) :: l1), l2, c'. rewrite Hqq. simpl.
  split_and!; try done; try lia. segs_done.
Qed.
Lemma part_seg n a c : part St isn n a c -> a < c -> c - a < 2 ^ 15 -> seg_at St isn n (a, c).
Proof.
  intros [] ? ?. split; simpl; try done; [lia|by rewrite part_fin0; lia| |].
  - by rewrite Z.min_l by lia.
  - split; [|by rewrite part_gso0|done..]. unfold seg_len. rewrite part_data0, bytes_length; lia.
Qed.
Lemma part_more n a c d :
  part St isn n a c -> c <= d <= L ->
  part St isn (n {{ seg_data := seg_data n ++ bytes St c d; seg_end := u32 (seg_end n + (d - c)) }}) a d.
Proof.
  intros [] ?. split; simpl; try done; [|lia|].
  - unfold constant. rewrite part_end0, sq_add. f_equal. lia.
  - unfold constant. rewrite part_data0. apply bytes_app; lia.
Qed.
Lemma data_end s o e : seg_at St isn s (o, e) -> th_fin s = false -> e <= L.
Proof. intros [] Hf. rewrite at_fin0 in Hf. simpl in *. lia. Qed.

(** What one turn of the copying loop adds. *)
Lemma copy_bytes s o e c size :
  seg_at St isn s (o, e) -> o <= c -> c + size <= e <= L -> 0 <= size ->
  take (Z.to_nat size) (drop (Z.to_nat (c - o)) (seg_data s)) = bytes St c (c + size).
Proof.
  intros [] ? ? ?. simpl in *. rewrite at_data0, Z.min_l by lia.
  replace size with (c + size - c) at 1 by lia. apply bytes_sub; lia.
Qed.
Lemma collapse_copy_ok lo c q l E w n a copy :
  segs q l -> chain lo c l E -> q <> [] -> data_head q -> part St isn n a c ->
  0 <= copy <= E - c -> E - c < near -> tune_ok (tp w) ->
  wp (collapse_copy n q copy (sqn c)) w (fun '(n', q', start', more) w' => same w w' /\
    exists c' l', part St isn n' a c' /\ c <= c' <= c + copy /\ (0 < copy -> c < c') /\
      segs q' l' /\ chain lo c' l' E /\ start' = sqn c' /\
      (more = true -> c' = c + copy /\ data_head q')).
Proof.
  intros Hq. revert c w n copy. induction Hq as [|s [o e] q l Hs Hq IH]; [done|].
  intros c w n copy Hc _ Hh Hn Hcopy HE Hw. simpl.
  assert (Hall : segs (s :: q) ((o, e) :: l)) by segs_done.
  destruct (Z.leb_spec copy 0).
  { apply wp_ret. split; [done|]. exists c, ((o, e) :: l).
    split_and!; try done; try lia. intros _. split; [lia|done]. }
  pose proof (seg_at_size _ _ _ Hs) as Hsz. pose proof (data_end _ _ _ Hs Hh) as HL.
  pose proof (seg_at_len _ _ _ Hs) as Hlen. rewrite Z.min_l in Hlen by lia.
  pose proof Hc as (? & ? & Hce). pose proof (chain_le _ _ _ _ Hce).
  pose proof Hs as [Hseq Hend _ _ _ _ _ _]. simpl in *. rewrite Hseq, Hend, !sq_dist by lia.
  replace (c - o <? 0) with false by lia. cbv iota.
  set (size := Z.max 0 (Z.min copy (e - c))). assert (Hs1 : size = Z.min copy (e - c)) by lia.
  replace (_ && _) with false by (symmetry; apply andb_false_intro2; lia). cbv iota.
  rewrite (copy_bytes s o e c size), sq_add, before_sq by (done || lia).
  replace (u32 (seg_end n + size)) with (u32 (seg_end n + (c + size - c))) by (f_equal; lia).
  pose proof (part_more n a c (c + size) Hn ltac:(lia)) as Hn'.
  destruct (Z.ltb_spec (c + size) e).
  { replace (copy - size <=? 0) with true by lia. apply wp_ret. split; [done|].
    exists (c + size), ((o, e) :: l). split_and!; try done; try lia.
    - simpl. split_and!; try done; lia.
    - intros _. split; [lia|done]. }
  assert (c + size = e) as Hce' by lia. rewrite Hce' in *.
  apply wp_bind. eapply wp_mono; [by apply sock_rfree_quiet|]. intros _ w1 [Hrx1 Hw1].
  destruct Hq as [|s' [o' e'] q l Hs' Hq].
  { apply wp_ret. split; [done|]. exists e, []. split_and!; try done; try lia; segs_done. }
  destruct (_ || _) eqn:Hf.
  { apply wp_ret. split; [done|]. exists e, ((o', e') :: l). split_and!; try done; [lia..|segs_done]. }
  eapply wp_mono; [apply (IH e w1); try done; [|lia..]|].
  { apply orb_false_iff in Hf. simpl. naive_solver. }
  intros [[[n' q'] st'] more] w2 [[Hrx2 Hw2] (c' & l' & ? & ? & ? & ? & ? & ? & Hm)].
  split; [by split; [rewrite Hrx2|]|]. exists c', l'. split_and!; try done; [lia..|].
  intros [-> ?]%Hm. split; [lia|done].
Qed.

Lemma same_trans w w1 w2 : same w w1 -> same w1 w2 -> same w w2.
Proof. intros [H1 _] [H2 ?]. split; [by rewrite H2|done]. Qed.
Lemma collapse_loop_ok fuel lo c q l E w :
  segs q l -> chain lo c l E -> data_head q -> 0 <= lo <= c -> E - c < near ->
  Z.min E L - c < Z.of_nat fuel -> tune_ok (tp w) ->
  wp (collapse_loop fuel q (sqn c) (sqn E)) w (fun q' w' => same w w' /\
    exists l', segs q' l' /\ chain lo c l' E).
Proof.
  revert c q l w. induction fuel as [|fuel IH]; intros c q l w Hq Hc Hh Hlo HE Hf Hw; simpl;
    pose proof (chain_le _ _ _ _ Hc); rewrite before_sq by lia.
  { destruct (Z.ltb_spec c E); [|by apply wp_ret; split; eauto].
    destruct Hq as [|s [o e] q l Hs Hq]; [simpl in *; lia|].
    pose proof (data_end _ _ _ Hs Hh). destruct Hc as (? & ? & ?%chain_le). lia. }
  destruct (Z.ltb_spec c E); [|by apply wp_ret; split; eauto].
  destruct Hq as [|s [o e] q l Hs Hq]; [simpl in *; lia|]. lazy beta iota delta [negb].
  pose proof Hc as (? & ? & Hce). pose proof (data_end _ _ _ Hs Hh).
  pose proof Hs as [_ _ _ Hsyn _ _ [] Hhead]. simpl in Hh.
  set (room := PAGE_SIZE - seg_headroom s - sizeof_shared_info).
  destruct shared_ok, skb_ok. replace (room <? 0) with false by lia.
  rewrite sq_sub, u32_id by lia. set (copy := Z.min (E - c) room).
  assert (room <= 4096) by (unfold PAGE_SIZE in *; lia).
  apply wp_bind. eapply wp_mono; [by apply alloc_ok_quiet|]. intros [|] w1 [Hrx1 Hw1].
  2: { apply wp_ret. split; [done|]. exists ((o, e) :: l). split; [segs_done|done]. }
  apply wp_bind. eapply wp_mono; [by apply set_owner_quiet|]. intros _ w2 [Hrx2 Hw2].
  lazymatch goal with |- context [collapse_copy ?x _ _ _] => set (n := x) end.
  assert (Hn : part St isn n c c).
  { split; subst n; try done; simpl; unfold constant.
    - lia.
    - by rewrite bytes_nil.
    - unfold PAGE_SIZE in *. lia. }
  apply wp_bind.
  eapply wp_mono; [eapply (collapse_copy_ok lo c (s :: q) ((o, e) :: l) E w2 n c copy);
                   try done; [segs_done|lia]|].
  intros [[[n' q'] st'] more] w3 [[Hrx3 Hw3] (c' & l' & Hn' & ? & ? & Hq' & Hc' & -> & Hm)].
  pose proof (part_seg n' c c' Hn' ltac:(lia) ltac:(lia)) as Hseg.
  assert (same w w3) by (split; [congruence|done]).
  destruct more.
  2: { apply wp_ret. split; [done|]. exists ((c, c') :: l'). split; [segs_done|]. simpl.
       split_and!; try done; lia. }
  destruct (Hm eq_refl) as [-> Hh']. apply wp_bind.
  eapply wp_mono; [eapply (IH (c + copy)); try done; lia|].
  intros q'' w4 [? (l'' & ? & ?)]. apply wp_ret. split; [by eapply same_trans|].
  exists ((c, c + copy) :: l''). split; [segs_done|]. simpl. split_and!; try done; lia.
Qed.
(** Collapsing covers what was covered, with the bytes of the stream. *)
Lemma collapse_ok lo c q l E w :
  segs q l -> chain lo c l E -> 0 <= lo <= c -> E - c < near -> tune_ok (tp w) ->
  wp (serval_tcp_collapse q (sqn c) (sqn E)) w (fun q' w' => same w w' /\
    exists l', segs q' l' /\ chain lo c l' E).
Proof.
  intros Hq Hc ? ? ?. unfold serval_tcp_collapse.
  destruct (collapse_find_ok lo c q l E w Hq Hc ltac:(done))
    as (q1 & q2 & l1 & l2 & c' & Hrun & -> & Hq1 & Hq2 & Hc1 & Hc2).
  apply (wp_bind_Ok _ _ _ _ _ _ Hrun).
  pose proof (chain_le _ _ _ _ Hc1). pose proof (segs_total _ _ _ _ _ Hq2 Hc2).
  assert (Happ : forall q2' l2' , segs q2' l2' -> chain lo c' l2' E ->
    exists l', segs (q1 ++ q2') l' /\ chain lo c l' E).
  { intros q2' l2' ? ?. exists (l1 ++ l2'). split; [by apply Forall2_app|by eapply chain_app]. }
  destruct Hq2 as [|s [o e] q2 l2 Hs Hq2].
  { apply wp_ret. split; [done|]. rewrite <- (app_nil_r q1). eauto. }
  destruct (_ || _) eqn:Hf.
  { apply wp_ret. split; [done|]. apply (Happ _ ((o, e) :: l2)); [segs_done|exact Hc2]. }
  apply orb_false_iff in Hf as [_ Hf].
  apply wp_bind. eapply wp_mono.
  - eapply (collapse_loop_ok _ lo c' (s :: q2) ((o, e) :: l2)); try done; [segs_done|lia..].
  - intros q' w' [? (l' & ? & ?)]. apply wp_ret. eauto.
Qed.
End Collapse.

(** [c] bytes of the stream have been read, the first [n] offsets received, and
    no segment reaches beyond [hi]. *)
Record rcvq `{TcpEnv} (St : list Z) (isn : Z) (t : tcp_sock) (c n hi : Z) : Prop := {
  q_copied : copied_seq t = sq isn c;
  q_nxt : rcv_nxt t = sq isn n;
  q_order : 0 <= c <= n /\ n <= hi /\ n <= Z.of_nat (length St) + 1;
  q_near : hi - c < near;
  q_rcv : exists l, Forall2 (seg_at St isn) (receive_queue t) l /\ chain 0 c l n;
  q_ofo : exists l, Forall2 (seg_at St isn) (out_of_order_queue t) l /\
            runs (n + 1) n l /\ Forall (fun r => r.2 <= hi) l;
}.
(** The other fields of [rx]. *)
Definition rest (t : tcp_sock) :=
  ((rcv_wup t, rcv_wnd t), (tcp_state t, sock_done t, sk_err t, rcv_shutdown t, fin_found t), rcv_wscale t).

Section Ok.
Context `{EOk : TcpEnvOk} (St : list Z) (isn : Z).
Implicit Types (s : tcp_seg) (q : list tcp_seg) (l : list range) (w : tcpw).
Abbreviation sqn := (sq isn).
Abbreviation L := (Z.of_nat (length St)).
Abbreviation segs := (Forall2 (seg_at St isn)).
Abbreviation rcvq := (rcvq St isn).

Lemma collapse_runs_ok q lq run lr b e hi w :
  segs q lq -> segs run lr -> chain b b lr e -> runs b e lq -> 0 <= b ->
  Forall (fun r => r.2 <= hi) lq -> e <= hi -> hi - b < near -> tune_ok (tp w) ->
  wp (collapse_runs run (sqn b) (sqn e) q) w (fun q' w' => same w w' /\
    exists l', segs q' l' /\ (forall lo E, lo <= b -> E < b -> runs lo E l') /\
      Forall (fun r => r.2 <= hi) l').
Proof.
  intros Hq. revert run lr b e w.
  assert (Hbound : forall l b e, chain b b l e -> e <= hi -> Forall (fun r => r.2 <= hi) l).
  { intros l b e Hc ?. apply Forall_forall. intros [o e'] Hin. simpl.
    apply (chain_in _ _ _ _ _ _ Hc) in Hin. lia. }
  induction Hq as [|s [o e1] q lq Hs Hq IH]; intros run lr b e w Hrun Hc Hr ? Hhi ? ? Hw; simpl.
  { pose proof (chain_le _ _ _ _ Hc).
    eapply wp_mono; [eapply (collapse_ok St isn b b run lr e); try done; lia|].
    intros q' w' [? (l' & ? & Hc')]. split; [done|]. exists l'. split_and!; [done| |by eauto].
    intros. rewrite <- (app_nil_r l'). by eapply chain_run. }
  pose proof (chain_le _ _ _ _ Hc). apply Forall_cons in Hhi as [? Hhi].
  pose proof Hr as (? & ? & Hr'). pose proof Hs as [-> -> _ _ _ _ _ _]. simpl in *.
  rewrite after_sq, before_sq, before_sq, after_sq by lia.
  replace (e1 <? b) with false by lia. rewrite orb_false_r.
  destruct (Z.ltb_spec e o).
  - apply wp_bind. eapply wp_mono; [eapply (collapse_ok St isn b b run lr e); try done; lia|].
    intros run' w1 [Hs1 (l1 & ? & Hc1)]. apply wp_bind.
    eapply wp_mono; [eapply (IH [s] [(o, e1)]); try done; [segs_done|simpl; lia|lia..|apply Hs1]|].
    intros q' w2 [Hs2 (l2 & ? & Hr2 & ?)]. apply wp_ret. split; [by eapply same_trans|].
    exists (l1 ++ l2). split_and!; [by apply Forall2_app| |apply Forall_app; eauto].
    intros lo E ? ?. eapply chain_run; [done| |done..]. apply Hr2; lia.
  - replace (o <? b) with false by lia. replace (e <? e1) with true by lia.
    eapply (IH (run ++ [s]) (lr ++ [(o, e1)])); try done.
    + apply Forall2_app; [done|segs_done].
    + eapply chain_snoc; [done|lia..].
Qed.

(** ** What keeps the queues *)
Definition kept (c n hi : Z) w w' : Prop :=
  tune_ok (tp w') /\ rcvq (tp w') c n hi /\ rest (tp w') = rest (tp w).
Definition tidy {A} (m : TM A) : Prop :=
  forall w c n hi, tune_ok (tp w) -> rcvq (tp w) c n hi -> wp m w (fun _ w' => kept c n hi w w').

Lemma rcvq_rx t t' c n hi : rx t' = rx t -> rcvq t c n hi -> rcvq t' c n hi /\ rest t' = rest t.
Proof.
  unfold rx, rest. intros [= ? ? ? ? Hr Ho ? ? ? ? ? ?] []. split; [|congruence].
  by split; rewrite ?Hr, ?Ho; try congruence.
Qed.
Lemma tidy_quiet {A} (m : TM A) : quiet m -> tidy m.
Proof.
  intros Hm w c n hi Hw Hq. eapply wp_mono; [by apply Hm|]. intros _ w' [Hrx ?].
  destruct (rcvq_rx _ _ c n hi Hrx Hq). by split.
Qed.
Lemma tidy_bind {A B} (m : TM A) (k : A -> TM B) :
  tidy m -> (forall a, tidy (k a)) -> tidy (m ≫= k).
Proof.
  intros Hm Hk w c n hi Hw Hq. apply wp_bind. eapply wp_mono; [by apply Hm|].
  intros a w' (? & ? & Hr). eapply wp_mono; [by apply Hk|].
  intros b w'' (? & ? & Hr'). split_and!; [done..|congruence].
Qed.
Lemma tidy_if {A} (b : bool) (m m' : TM A) : tidy m -> tidy m' -> tidy (if b then m else m').
Proof. by destruct b. Qed.
Lemma tidy_get {B} (k : tcpw -> TM B) : (forall w, tidy (k w)) -> tidy (getS ≫= k).
Proof. intros Hk w c n hi Hw Hq. apply wp_bind, wp_getS. by apply Hk. Qed.
Lemma tidy_tp {B} (k : tcp_sock -> TM B) : (forall t, tidy (k t)) -> tidy (the_tp ≫= k).
Proof. intros Hk w c n hi Hw Hq. apply wp_bind, wp_gets. by apply Hk. Qed.

Lemma set_ofo_ok q l c n hi w :
  tune_ok (tp w) -> rcvq (tp w) c n hi -> segs q l -> runs (n + 1) n l ->
  Forall (fun r => r.2 <= hi) l -> wp (set_ofo q) w (fun _ w' => kept c n hi w w').
Proof. intros [] [] ? ? ?. apply wp_modS. split_and!; [by split| |done]. split; naive_solver. Qed.
Lemma purge_tidy : tidy (set_ofo []).
Proof. intros w c n hi ? ?. by eapply (set_ofo_ok [] []). Qed.
Lemma collapse_ofo_tidy : tidy serval_tcp_collapse_ofo_queue.
Proof.
  intros w c n hi Hw Hq. apply wp_bind, wp_gets.
  destruct (q_ofo _ _ _ _ _ _ Hq) as (l & Hs & Hr & Hl).
  destruct Hs as [|s [o e] q l Hs Hqs]; [by apply wp_ret|].
  apply Forall_cons in Hl as [? Hl]. pose proof Hr as (? & ? & Hr'). simpl in *.
  replace (n <? o) with true in Hr' by lia.
  pose proof (q_near _ _ _ _ _ _ Hq). pose proof (q_order _ _ _ _ _ _ Hq).
  pose proof Hs as [-> -> _ _ _ _ _ _]. simpl. apply wp_bind.
  eapply wp_mono; [eapply (collapse_runs_ok q l [s] [(o, e)] o e hi); try done;
                   [segs_done|simpl; lia|lia..]|].
  intros q' w' [[Hrx Hw'] (l' & ? & Hr2 & ?)].
  destruct (rcvq_rx _ _ c n hi Hrx Hq) as [Hq' Hrest].
  eapply wp_mono; [eapply (set_ofo_ok q' l' c n hi); try done; apply Hr2; lia|].
  intros _ w2 (? & ? & Hrest'). split_and!; [done..|congruence].
Qed.
Lemma collapse_rcv_tidy :
  tidy (t ← the_tp;
        match receive_queue t with
        | [] => mret tt
        | q => q ← serval_tcp_collapse q (copied_seq t) (rcv_nxt t);
               upd (fun t => t {{ receive_queue := q }})
        end).
Proof.
  intros w c n hi Hw Hq. apply wp_bind, wp_gets.
  destruct (q_rcv _ _ _ _ _ _ Hq) as (l & Hs & Hc).
  pose proof (q_near _ _ _ _ _ _ Hq). pose proof (q_order _ _ _ _ _ _ Hq).
  rewrite (q_copied _ _ _ _ _ _ Hq), (q_nxt _ _ _ _ _ _ Hq).
  destruct (receive_queue (tp w)) as [|s q] eqn:Hrq; [by apply wp_ret|].
  apply wp_bind. eapply wp_mono; [eapply (collapse_ok St isn 0 c (s :: q) l n); try done; lia|].
  intros q' w' [[Hrx Hw'] (l' & ? & ?)].
  destruct (rcvq_rx _ _ c n hi Hrx Hq) as [[] Hrest].
  apply wp_modS. split_and!; [by destruct Hw'| |done]. split; naive_solver.
Qed.
End Ok.

Ltac tidy_step :=
  lazymatch goal with
  | |- tidy _ _ (mbind _ the_tp) =>
      first [apply collapse_rcv_tidy | apply tidy_tp; intros ?]
  | |- tidy _ _ (mbind _ getS) => apply tidy_get; intros ?
  | |- tidy _ _ (mbind _ _) => apply tidy_bind; [|intros ?]
  | |- tidy _ _ (if _ then _ else _) => apply tidy_if
  | |- tidy _ _ (set_ofo []) => apply purge_tidy
  | |- tidy _ _ serval_tcp_collapse_ofo_queue => apply collapse_ofo_tidy
  | |- tidy _ _ _ => apply tidy_quiet; quiet_steps; fail
  end.
Ltac tidy_steps := repeat tidy_step.

Section Ok2.
Context `{EOk : TcpEnvOk} (St : list Z) (isn : Z).
Implicit Types (s : tcp_seg) (q : list tcp_seg) (l : list range) (w : tcpw).
Abbreviation sqn := (sq isn).
Abbreviation L := (Z.of_nat (length St)).
Abbreviation segs := (Forall2 (seg_at St isn)).
Abbreviation rcvq := (rcvq St isn).
Abbreviation tidy := (tidy St isn).
Abbreviation kept := (kept St isn).

Lemma fin_tidy : tidy serval_tcp_fin.
Proof. unfold serval_tcp_fin. tidy_steps. Qed.
Lemma prune_ofo_tidy : tidy serval_tcp_prune_ofo_queue.
Proof.
  unfold serval_tcp_prune_ofo_queue. apply tidy_tp. intros t.
  destruct (out_of_order_queue t); tidy_steps.
Qed.
(** The collapse of the receive queue is followed by more code. *)
Lemma tidy_collapse_rcv {B} (k : TM B) :
  tidy k ->
  tidy (t ← the_tp;
        (match receive_queue t with
         | [] => mret tt
         | q => q ← serval_tcp_collapse q (copied_seq t) (rcv_nxt t);
                upd (fun t => t {{ receive_queue := q }})
         end);; k).
Proof.
  intros Hk w c n hi Hw Hq. apply wp_bind, wp_gets.
  pose proof (tidy_bind _ _ _ (fun _ => k) (collapse_rcv_tidy St isn) (fun _ => Hk)) as H.
  exact (H w c n hi Hw Hq).
Qed.
Lemma prune_queue_tidy : tidy serval_tcp_prune_queue.
Proof.
  intros w c n hi Hw Hq. unfold serval_tcp_prune_queue. apply wp_bind, wp_getS, wp_bind.
  eapply (wp_mono _ _ (fun _ w' => same w w')).
  { destruct (Z.leb_spec (sk_rcvbuf (tp w)) (sk_rmem_alloc (tp w))); [by apply clamp_window_ok|].
    apply (quiet_if (memory_pressure w)); [quiet_steps..|done]. }
  intros _ w1 [Hrx1 Hw1]. destruct (rcvq_rx _ _ _ _ c n hi Hrx1 Hq) as [Hq1 Hrest1].
  lazymatch goal with |- wp ?m w1 _ => assert (Hm : tidy m) end.
  { apply tidy_bind; [tidy_steps|intros _]. apply tidy_collapse_rcv.
    tidy_steps. apply prune_ofo_tidy. }
  eapply wp_mono; [by apply Hm|]. intros _ w2 (? & ? & ?). split_and!; [done..|congruence].
Qed.
Lemma try_rmem_tidy size : tidy (serval_tcp_try_rmem_schedule size).
Proof.
  unfold serval_tcp_try_rmem_schedule. tidy_steps.
  - apply prune_queue_tidy.
  - apply prune_ofo_tidy.
Qed.

(** ** Segments that become in order

    In between, the out-of-order queue may start with segments that the
    receive queue has reached or covered. *)
Definition reaching (t : tcp_sock) (c n hi : Z) : Prop :=
  exists l lo E, segs (out_of_order_queue t) l /\ runs lo E l /\ c <= lo /\ E <= n /\
    Forall (fun r => r.2 <= hi) l /\ rcvq (t {{ out_of_order_queue := [] }}) c n hi.

Lemma rcvq_ofo t c n hi q l :
  rcvq (t {{ out_of_order_queue := [] }}) c n hi -> segs q l -> out_of_order_queue t = q ->
  runs (n + 1) n l -> Forall (fun r => r.2 <= hi) l -> rcvq t c n hi.
Proof. intros [] ? <- ? ?. split; try done. eauto. Qed.
Lemma runs_beyond lo E n l :
  runs lo E l -> E <= n -> match l with [] => True | r :: _ => n < r.1 end -> runs (n + 1) n l.
Proof.
  destruct l as [|[o e] l]; simpl; [done|]. intros (? & ? & Hl) ? ?.
  replace (E <? o) with true in Hl by lia. replace (n <? o) with true by lia.
  split_and!; [lia..|done].
Qed.
(** A segment that reaches further goes to the receive queue. *)
Lemma rcvq_append t c n hi s o e :
  rcvq t c n hi -> out_of_order_queue t = [] -> seg_at St isn s (o, e) -> o <= n < e -> e <= hi ->
  rcvq (t {{ receive_queue := receive_queue t ++ [s]; rcv_nxt := sqn e }}) c e hi.
Proof.
  intros [? ? ? ? (l & ? & Hc) _] Ho Hs ? ?. pose proof Hs as [_ Hend ? _ _ _ _ _].
  destruct t. simpl in *. subst. split; simpl; unfold constant; try done; [lia| |].
  - exists (l ++ [(o, e)]). split; [apply Forall2_app; [done|segs_done]|].
    eapply chain_snoc; [done|lia..].
  - exists []. by split_and!.
Qed.
Lemma reaching_rx t t' c n hi : rx t' = rx t -> reaching t c n hi -> reaching t' c n hi /\ rest t' = rest t.
Proof.
  intros Hrx (l & lo & E & Hs & ? & ? & ? & ? & Hq).
  assert (Ho : out_of_order_queue t' = out_of_order_queue t) by (unfold rx in Hrx; congruence).
  assert (Hrx' : rx (t' {{ out_of_order_queue := [] }}) = rx (t {{ out_of_order_queue := [] }})).
  { unfold rx in *. destruct t, t'. simpl in *. congruence. }
  destruct (rcvq_rx _ _ _ _ _ _ _ Hrx' Hq) as [Hq' _]. split; [|unfold rx, rest in *; congruence].
  exists l, lo, E. by rewrite Ho.
Qed.
Lemma fin_ok w c n hi :
  tune_ok (tp w) -> reaching (tp w) c n hi ->
  wp serval_tcp_fin w (fun _ w' => tune_ok (tp w') /\ reaching (tp w') c n hi /\
    rest (tp w') = rest (tp w) /\ out_of_order_queue (tp w') = []).
Proof.
  intros Hw Hr. unfold serval_tcp_fin.
  apply wp_bind. eapply wp_mono; [by apply schedule_ack_quiet|]. intros _ w1 [Hrx1 Hw1].
  apply wp_bind, wp_gets, wp_bind. eapply wp_mono; [by apply rfree_all_quiet|].
  intros _ w2 [Hrx2 Hw2]. apply wp_bind, wp_modS.
  assert (Hrx : rx (tp w2) = rx (tp w)) by congruence.
  destruct (reaching_rx _ _ c n hi Hrx Hr) as [(l & lo & E & _ & _ & ? & ? & _ & Hq) Hrest].
  eapply wp_mono; [apply sk_mem_reclaim_quiet; by destruct Hw2|]. intros _ w3 [Hrx3 Hw3].
  assert (Hn : reaching ((tp w2) {{ out_of_order_queue := [] }}) c n hi).
  { exists [], lo, E. by split_and!. }
  destruct (reaching_rx _ _ c n hi Hrx3 Hn) as [? Hrest3].
  split_and!; [done..|by rewrite Hrest3|].
  unfold rx in Hrx3. simpl in Hrx3. unfold constant in Hrx3. congruence.
Qed.
Lemma ofo_loop_ok fuel c n hi w :
  tune_ok (tp w) -> reaching (tp w) c n hi ->
  (length (out_of_order_queue (tp w)) < fuel)%nat ->
  wp (ofo_loop fuel) w (fun _ w' => exists n', n <= n' /\ tune_ok (tp w') /\
    rcvq (tp w') c n' hi /\ rest (tp w') = rest (tp w)).
Proof.
  revert n w. induction fuel as [|fuel IH]; intros n w Hw Hre Hf; [lia|].
  pose proof Hre as (l & lo & E & Hs & Hr & Hlo & HE & Hl & Hq). simpl. apply wp_bind, wp_gets.
  pose proof (q_near _ _ _ _ _ _ Hq). pose proof (q_order _ _ _ _ _ _ Hq).
  pose proof (q_nxt _ _ _ _ _ _ Hq) as Hnxt. change (rcv_nxt (tp w) = sqn n) in Hnxt.
  destruct (out_of_order_queue (tp w)) as [|s q] eqn:Ho.
  { inversion Hs; subst. apply wp_ret. exists n. split_and!; try done. by eapply rcvq_ofo. }
  inversion Hs as [|? [o e] ? l' Hs1 Hqs]; subst. rewrite Hnxt.
  apply Forall_cons in Hl as [? Hl]. pose proof Hr as (? & ? & Hr').
  pose proof (seg_at_size _ _ _ _ _ Hs1). pose proof Hs1 as [Hseq Hend _ _ _ _ _ _].
  cbn [fst snd length] in *. rewrite Hseq, Hend, after_sq by lia.
  destruct (Z.ltb_spec n o).
  { apply wp_ret. exists n. split_and!; try done.
    eapply rcvq_ofo; [done| |exact Ho| |]; [exact Hs| |by constructor]. by eapply runs_beyond. }
  apply wp_bind, wp_modS. rewrite after_sq by lia.
  assert (Hc' : c <= (if E <? o then o else lo)) by (case_match; lia).
  destruct (Z.ltb_spec n e); cbn [negb].
  - apply wp_bind, wp_modS. wp_state w1.
    assert (Hre1 : reaching (tp w1) c e hi).
    { exists l', (if E <? o then o else lo), e. split_and!; try done.
      unfold w1. refine (rcvq_append ((tp w) {{ out_of_order_queue := [] }}) c n hi s o e Hq eq_refl Hs1 _ _); lia. }
    assert (Hw1 : tune_ok (tp w1)) by by destruct Hw.
    apply wp_bind. apply (wp_mono _ _ (fun _ w2 => tune_ok (tp w2) /\ reaching (tp w2) c e hi /\
      rest (tp w2) = rest (tp w) /\ (length (out_of_order_queue (tp w2)) < fuel)%nat)).
    { destruct (th_fin s).
      - eapply wp_mono; [by apply (fin_ok w1 c e hi)|].
        intros _ w2 (? & ? & ? & Ho2). rewrite Ho2. split_and!; try done. simpl. lia.
      - apply wp_ret. split_and!; try done. change (length q < fuel)%nat. lia. }
    intros _ w2 (? & ? & Hr2 & ?). eapply wp_mono; [by apply (IH e w2)|].
    intros _ w3 (n' & ? & ? & ? & ?). exists n'. split_and!; [lia|done..|congruence].
  - apply wp_bind. eapply wp_mono; [apply sock_rfree_quiet; by destruct Hw|].
    intros _ w1 [Hrx1 Hw1].
    assert (Ho1 : out_of_order_queue (tp w1) = q) by (by injection Hrx1).
    eapply reaching_rx in Hrx1 as [Hre1 Hrest1].
    2: { exists l', (if E <? o then o else lo), e. by split_and!. }
    eapply wp_mono; [apply (IH n w1); try done; rewrite Ho1; lia|].
    intros _ w3 (n' & ? & ? & ? & ?). exists n'. split_and!; [lia|done..|].
    etransitivity; [eassumption|exact Hrest1].
Qed.

(** ** A segment out of order *)

(** Where a new interval [a, b) goes: behind [f], in front of [k]. *)
Definition fits_between (lo E a b : Z) (f k : list range) : Prop :=
  (runs_end lo E f).1 <= a /\ (runs_end lo E f).2 < b /\
  match k with [] => True | r :: _ => a <= r.1 end.

Lemma seg_place_ok lo E a b hi s1 o e (q1 k : list tcp_seg) l1 lk :
  segs q1 l1 -> segs k lk -> seg_at St isn s1 (o, e) -> runs lo E (l1 ++ (o, e) :: lk) ->
  match lk with [] => True | r :: _ => a <= r.1 end -> o <= a ->
  E < a < b -> b <= hi -> e <= hi -> E < o -> hi - E < near ->
  match place (s1 :: reverse q1) k (sqn a) (sqn b) with
  | None => True
  | Some (f, k') => exists lf lk', f ++ k' = q1 ++ s1 :: k /\ segs f lf /\ segs k' lk' /\
      lf ++ lk' = l1 ++ (o, e) :: lk /\ fits_between lo E a b lf lk'
  end.
Proof.
  intros Hq1 Hk Hs Hr Hh ? ? ? ? ? ?. pose proof Hs as [Hseq Hend ? _ _ _ _ _].
  unfold place. cbn [fst snd] in *. rewrite Hseq, Hend, reverse_cons, reverse_involutive.
  pose proof Hr as [Hr1 Hr2]%runs_app.
  assert (Hl : runs lo E (l1 ++ [(o, e)])).
  { apply runs_app. split; [done|]. simpl in Hr2. simpl. tauto. }
  apply runs_end_last in Hl as [Hl1 Hl2].
  assert (Hafter : e < b -> exists lf lk', (q1 ++ [s1]) ++ k = q1 ++ s1 :: k /\ segs (q1 ++ [s1]) lf /\
    segs k lk' /\ lf ++ lk' = l1 ++ (o, e) :: lk /\ fits_between lo E a b lf lk').
  { exists (l1 ++ [(o, e)]), lk. rewrite <- !app_assoc.
    split_and!; try done; [apply Forall2_app; [done|segs_done]|]. split_and!; try done; lia. }
  rewrite before_sq by lia. destruct (Z.ltb_spec a e); [|apply Hafter; lia].
  rewrite after_sq by lia. destruct (Z.ltb_spec e b); [|done]. cbn [negb].
  rewrite after_sq by lia. destruct (Z.ltb_spec o a); [by apply Hafter|].
  exists l1, ((o, e) :: lk). split_and!; try done; [segs_done|].
  simpl in Hr2. split_and!; simpl; lia.
Qed.
Lemma find_place_ok lo E a b hi q1 k l1 lk :
  segs q1 l1 -> segs k lk -> runs lo E (l1 ++ lk) -> E < lo ->
  match lk with [] => True | r :: _ => a <= r.1 end ->
  Forall (fun r => r.2 <= hi) l1 -> lo <= a < b -> b <= hi -> hi - E < near ->
  match find_place (reverse q1) k (sqn a) (sqn b) with
  | None => True
  | Some (f, k') => exists lf lk', f ++ k' = q1 ++ k /\ segs f lf /\ segs k' lk' /\
      lf ++ lk' = l1 ++ lk /\ fits_between lo E a b lf lk'
  end.
Proof.
  revert k l1 lk. induction q1 as [|s1 q1 IH] using rev_ind; intros k l1 lk Hq1 Hk Hr ? Hh Hl ? ? ?.
  { inversion Hq1; subst. exists [], lk. split_and!; try done.
    unfold fits_between. simpl. split_and!; try done; lia. }
  apply Forall2_app_inv_l in Hq1 as (l1' & l2 & Hq1 & Hs & ->).
  inversion Hs as [|? [o e] ? l3 Hs1 Hn]; subst. inversion Hn; subst. clear Hs Hn.
  rewrite <- app_assoc in Hr. simpl in Hr. apply Forall_app in Hl as [Hl He].
  apply Forall_cons in He as [? _]. pose proof Hr as [_ Hr2]%runs_app. simpl in *.
  assert (Hlo : lo <= o /\ o < e).
  { edestruct (runs_in _ _ _ o e Hr) as (? & ? & ?); [|lia]. apply elem_of_app. right. left. }
  rewrite reverse_app, <- !app_assoc. change (reverse [s1] ++ reverse q1) with (s1 :: reverse q1).
  cbn [find_place app]. pose proof Hs1 as [Hseq _ _ _ _ _ _ _].
  cbn [fst] in *. rewrite Hseq, after_sq by lia.
  destruct (Z.ltb_spec a o); cbn [negb].
  - apply (IH (s1 :: k) l1' ((o, e) :: lk)); try done; [segs_done|simpl; lia].
  - by apply (seg_place_ok lo E a b hi s1 o e q1 k l1' lk); try done; lia.
Qed.
Lemma clean_covered_ok b hi lo E k lk w :
  segs k lk -> runs lo E lk -> Forall (fun r => r.2 <= hi) lk -> b <= hi -> hi - lo < near -> lo <= b ->
  tune_ok (tp w) ->
  wp (clean_covered k (sqn b)) w (fun k' w' => same w w' /\
    exists lk', segs k' lk' /\ dropping b lk lk').
Proof.
  intros Hk. revert lo E w. induction Hk as [|s [o e] k lk Hs Hk IH]; intros lo E w Hr Hl ? ? ? Hw; simpl.
  { apply wp_ret. split; [done|]. exists []. split; [segs_done|]. by exists []. }
  apply Forall_cons in Hl as [? Hl]. pose proof Hr as (? & ? & Hr'). simpl in *.
  pose proof Hs as [-> -> _ _ _ _ _ _]. cbn [fst snd] in *.
  assert (Hstay : b <= o \/ b < e ->
    exists lk', segs (s :: k) lk' /\ dropping b ((o, e) :: lk) lk').
  { intros ?. exists ((o, e) :: lk). split; [segs_done|]. by exists []. }
  rewrite after_sq by lia. destruct (Z.ltb_spec o b); cbn [negb]; [|apply wp_ret; split; [done|auto]].
  rewrite before_sq by lia. destruct (Z.ltb_spec b e); [apply wp_ret; split; [done|auto]|].
  apply wp_bind. eapply wp_mono; [by apply sock_rfree_quiet|]. intros _ w1 [Hrx1 Hw1].
  eapply wp_mono; [eapply (IH _ _ w1 Hr'); try done; case_match; lia|].
  intros k' w' [? (lk' & ? & d & -> & ? & ?)]. split; [by eapply same_trans|].
  exists lk'. split; [done|]. exists ((o, e) :: d). by split_and!; try constructor.
Qed.

Lemma queue_ofo_ok s a b c n hi w :
  tune_ok (tp w) -> rcvq (tp w) c n hi -> seg_at St isn s (a, b) -> n < a -> b <= hi ->
  wp (queue_ofo s) w (fun _ w' => kept c n hi w w').
Proof.
  intros Hw Hq Hs ? ?. unfold queue_ofo. apply wp_bind, wp_gets.
  pose proof (q_near _ _ _ _ _ _ Hq). pose proof (q_order _ _ _ _ _ _ Hq).
  destruct (q_ofo _ _ _ _ _ _ Hq) as (l & Hqs & Hr & Hl).
  pose proof Hs as [Hseq Hend ? _ _ _ _ _]. cbn [fst snd] in *. rewrite Hseq, Hend.
  assert (Hset : forall f k lf lk lk', segs f lf -> segs k lk' -> l = lf ++ lk -> dropping b lk lk' ->
    fits_between (n + 1) n a b lf lk ->
    forall w1, same w w1 -> wp (set_ofo (f ++ [s] ++ k)) w1 (fun _ w' => kept c n hi w w')).
  { intros f k lf lk lk' Hf Hk -> Hd (? & ? & ?) w1 [Hrx Hw1].
    destruct (rcvq_rx _ _ _ _ c n hi Hrx Hq) as [Hq1 Hrest1].
    eapply wp_mono; [eapply (set_ofo_ok St isn _ (lf ++ (a, b) :: lk') c n hi)|]; try done.
    - apply Forall2_app; [done|]. simpl. segs_done.
    - eapply runs_insert; [exact Hr|exact Hd|lia..|done].
    - destruct Hd as (d & -> & _). rewrite !Forall_app in Hl. apply Forall_app.
      split; [tauto|]. by constructor; [|tauto].
    - intros _ w2 (? & ? & Hrest2). split_and!; [done..|congruence]. }
  destruct (reverse (out_of_order_queue (tp w))) as [|s1 rq] eqn:Hrev.
  { apply (f_equal reverse) in Hrev. rewrite reverse_involutive in Hrev. rewrite Hrev in Hqs.
    inversion Hqs; subst. apply (Hset [] [] [] [] []); try done; [by exists []|].
    unfold fits_between. simpl. lia. }
  pose proof Hrev as Hrev'.
  apply (f_equal reverse) in Hrev. rewrite reverse_involutive, reverse_cons in Hrev.
  pose proof Hqs as Hqs'. rewrite Hrev in Hqs'.
  apply Forall2_app_inv_l in Hqs' as (l1 & l2 & Hq1 & Hs1 & Hll).
  inversion Hs1 as [|? [o e] ? l3 Hs1' Hn]; subst l2. inversion Hn; subst l3. clear Hs1 Hn.
  assert (Hin : (o, e) ∈ l) by (rewrite Hll; apply elem_of_app; right; left).
  destruct (runs_in _ _ _ _ _ Hr Hin) as (? & ? & ?).
  rewrite Forall_forall in Hl. pose proof (Hl _ Hin) as ?. cbn [snd] in *.
  rewrite (at_end _ _ _ _ Hs1'), eqb_sq by (cbn [snd]; lia). cbn [snd].
  destruct (Z.eqb_spec a e) as [->|].
  { rewrite <- (app_nil_r (_ ++ [s])), <- app_assoc.
    apply (Hset _ [] l [] []); try done; [by rewrite app_nil_r|by exists []|].
    rewrite Hll in Hr. apply runs_end_last in Hr. rewrite Hll. unfold fits_between. lia. }
  pose proof (find_place_ok (n + 1) n a b hi (out_of_order_queue (tp w)) [] l [] Hqs) as Hp.
  rewrite !app_nil_r, Hrev' in Hp.
  destruct (find_place _ _ _ _) as [[f k]|].
  2: { by apply (tidy_quiet St isn _ (sock_rfree_quiet s)). }
  destruct Hp as (lf & lk & Hfk & Hf & Hk & Hl' & Hfit); try done; try lia.
  { by apply Forall_forall. }
  apply wp_bind. rewrite <- Hl' in Hr. pose proof Hr as [Hr1 Hr2]%runs_app.
  pose proof (runs_end_ge _ _ _ Hr1). destruct Hfit as (? & ? & ?).
  eapply wp_mono; [eapply (clean_covered_ok b hi); try done; try lia|].
  - apply Forall_forall. intros r Hin'. apply Hl. rewrite <- Hl'. apply elem_of_app. by right.
  - intros k' w1 [? (lk' & ? & ?)]. by eapply (Hset f k' lf lk lk').
Qed.
End Ok2.
