(* ===== verification/TcpStream.v ===== *)
(** * Arrival of a segment

    A segment of the stream that arrives, in order or not, whole or in part
    known, keeps the invariant; one that continues the received part is
    accepted if the window is open and there is memory. *)
From S2P Require Import Prelude TcpSock TcpQueue TcpFrame TcpQueueOk.
Local Open Scope Z_scope.

(** There is memory for the segment without pruning. *)
Definition room `{TcpEnv} (w : tcpw) (s : tcp_seg) : Prop :=
  sk_rmem_alloc (tp w) <= sk_rcvbuf (tp w) /\
  (seg_truesize s <= sk_forward_alloc (tp w) \/
   memory_allocated w + sk_mem_pages (seg_truesize s) <= tcp_mem0).

#[export] Instance room_dec `{TcpEnv} w s : Decision (room w s).
Proof. unfold room. apply _. Defined.

(** A segment as it arrives: its header is in front of the data. *)
Definition pulled (s : tcp_seg) : tcp_seg :=
  s {{ seg_data := drop (Z.to_nat (4 * th_doff s)) (seg_data s);
       seg_headroom := seg_headroom s + 4 * th_doff s }}.
Record arriving `{TcpEnv} (St : list Z) (isn : Z) (s : tcp_seg) (r : range) : Prop := {
  arr_hdr : 4 * th_doff s <= seg_len s;
  arr_at : seg_at St isn (pulled s) r;
}.

(** [c] bytes of the stream have been read and the first [n] offsets received;
    the last acknowledgement was for [u] and offered the window [rcv_wnd]. *)
Record stream_inv `{TcpEnv} (St : list Z) (isn : Z) (t : tcp_sock) (c n u : Z) : Prop := {
  inv_copied : copied_seq t = sq isn c;
  inv_nxt : rcv_nxt t = sq isn n;
  inv_wup : rcv_wup t = sq isn u;
  inv_order : 0 <= c <= n /\ n <= Z.of_nat (length St) + 1;
  inv_wnd : 0 <= rcv_wnd t <= 2 ^ 30 /\ u <= n <= u + rcv_wnd t + 2 ^ 15;
  inv_rcv : exists l, Forall2 (seg_at St isn) (receive_queue t) l /\ chain 0 c l n;
  inv_ofo : exists l, Forall2 (seg_at St isn) (out_of_order_queue t) l /\
              runs (n + 1) n l /\ Forall (fun r => r.2 <= u + rcv_wnd t + 2 ^ 15) l;
}.

Section Arrive.
Context `{EOk : TcpEnvOk} (St : list Z) (isn : Z).
Implicit Types (s : tcp_seg) (q : list tcp_seg) (l : list range) (w : tcpw).
Abbreviation sqn := (sq isn).
Abbreviation L := (Z.of_nat (length St)).
Abbreviation segs := (Forall2 (seg_at St isn)).
Abbreviation rcvq := (rcvq St isn).
Abbreviation tidy := (tidy St isn).
Abbreviation kept := (kept St isn).
Abbreviation reaching := (reaching St isn).

Lemma try_rmem_room w s :
  room w s -> tune_ok (tp w) ->
  wp (serval_tcp_try_rmem_schedule (seg_truesize s)) w (fun err w' => err = 0 /\ same w w').
Proof.
  intros [Hr Hm] Hw. unfold serval_tcp_try_rmem_schedule. apply wp_bind, wp_gets.
  replace (sk_rcvbuf (tp w) <? sk_rmem_alloc (tp w)) with false by lia. apply wp_bind.
  apply (wp_mono _ _ (fun ok w' => ok = true /\ same w w')).
  2: { intros ok w' [-> ?]. by apply wp_ret. }
  unfold sk_rmem_schedule. apply wp_bind, wp_gets.
  destruct (Z.leb_spec (seg_truesize s) (sk_forward_alloc (tp w))); [by apply wp_ret|].
  destruct Hm as [|Hm]; [lia|]. unfold __sk_mem_schedule_recv.
  apply wp_bind, wp_modS, wp_bind, wp_getS.
  cbn [memory_allocated]. case_match eqn:Hc.
  - apply wp_bind, wp_modS, wp_ret. split; [done|]. split; [done|by destruct Hw].
  - exfalso. change (sk_mem_pages (seg_truesize s) + memory_allocated w <=? tcp_mem0 = false) in Hc. lia.
Qed.
Lemma fast_path_quiet : quiet (upd serval_tcp_fast_path_check).
Proof.
  apply quiet_upd. intros t []. unfold serval_tcp_fast_path_check. by case_match.
Qed.

(** From the append on. *)
Lemma queue_and_out_ok s o e c n hi w :
  tune_ok (tp w) -> rcvq (tp w) c n hi -> seg_at St isn s (o, e) -> o <= n < e -> e <= hi ->
  wp (queue_and_out s) w (fun _ w' => exists n', (n' = n \/ e <= n') /\ (room w s -> e <= n') /\
    tune_ok (tp w') /\ rcvq (tp w') c n' hi /\ rest (tp w') = rest (tp w)).
Proof.
  intros Hw Hq Hs ? ?. unfold queue_and_out. apply wp_bind.
  apply (wp_mono _ _ (fun err w1 => kept c n hi w w1 /\ (room w s -> err = 0))).
  { destruct (decide (room w s)) as [Hroom|].
    - eapply wp_mono; [by apply try_rmem_room|]. intros err w1 [-> [Hrx Hw1]].
      destruct (rcvq_rx _ _ _ _ c n hi Hrx Hq). by split_and!.
    - eapply wp_mono; [by apply (try_rmem_tidy St isn)|]. by intros err w1 Hk; split. }
  intros err w1 [(Hw1 & Hq1 & Hrest1) Herr].
  destruct (Z.eqb_spec err 0) as [->|]; cbn [negb].
  2: { apply wp_ret. exists n. split_and!; auto. intros Hr. by apply Herr in Hr. }
  apply wp_bind. eapply wp_mono; [by apply set_owner_quiet|]. intros _ w2 [Hrx2 Hw2].
  destruct (rcvq_rx _ _ _ _ c n hi Hrx2 Hq1) as [Hq2 Hrest2].
  rewrite (at_end _ _ _ _ Hs). cbn [snd]. apply wp_bind, wp_modS. wp_state w3.
  assert (Hw3 : tune_ok (tp w3)) by by destruct Hw2.
  assert (Hre3 : reaching (tp w3) c e hi).
  { pose proof (q_order _ _ _ _ _ _ Hq2).
    destruct (q_ofo _ _ _ _ _ _ Hq2) as (l & ? & ? & ?).
    exists l, (n + 1), n. split_and!; try done; [lia..|].
    refine (rcvq_append St isn ((tp w2) {{ out_of_order_queue := [] }}) c n hi s o e _ eq_refl Hs _ _);
      [|lia..]. destruct Hq2. split; try done. by exists []. }
  assert (Hrest3 : rest (tp w3) = rest (tp w)) by (rewrite <- Hrest1; exact Hrest2).
  clearbody w3. apply wp_bind. eapply wp_mono.
  { apply (quiet_if (0 <? seg_len s)); [apply event_data_recv_quiet, Hs|apply quiet_ret|exact Hw3]. }
  intros _ w4 [Hrx4 Hw4]. destruct (reaching_rx _ _ _ _ c e hi Hrx4 Hre3) as [Hre4 Hrest4].
  apply wp_bind. apply (wp_mono _ _ (fun _ w5 => tune_ok (tp w5) /\ reaching (tp w5) c e hi /\
      rest (tp w5) = rest (tp w))).
  { destruct (th_fin s); [|apply wp_ret; split_and!; [done..|congruence]].
    eapply wp_mono; [by apply (fin_ok St isn w4 c e hi)|].
    intros _ w5 (? & ? & ? & _). split_and!; [done..|congruence]. }
  intros _ w5 (Hw5 & Hre5 & Hrest5). apply wp_bind, wp_gets, wp_bind.
  apply (wp_mono _ _ (fun _ w6 => exists n', e <= n' /\ tune_ok (tp w6) /\ rcvq (tp w6) c n' hi /\
      rest (tp w6) = rest (tp w))).
  { pose proof Hre5 as (l & lo & E & Hs5 & ? & ? & ? & ? & Hq5).
    destruct (out_of_order_queue (tp w5)) as [|s5 q5] eqn:Ho5.
    - apply wp_ret. exists e. split_and!; try done.
      apply (rcvq_ofo St isn _ _ _ _ [] []); try done; constructor.
    - apply wp_bind. unfold serval_tcp_ofo_queue. apply wp_bind, wp_gets.
      eapply wp_mono; [apply (ofo_loop_ok St isn _ c e hi w5); try done; lia|].
      intros _ w6 (n' & ? & Hw6 & Hq6 & Hrest6). apply wp_bind, wp_gets.
      assert (Hdone : exists n', e <= n' /\ tune_ok (tp w6) /\ rcvq (tp w6) c n' hi /\
        rest (tp w6) = rest (tp w)) by (exists n'; split_and!; [done..|congruence]).
      destruct (out_of_order_queue (tp w6)); [|by apply wp_ret].
      apply wp_modS. exists n'. split_and!; [done|by destruct Hw6|by destruct Hq6|].
      etransitivity; [exact Hrest6|done]. }
  intros _ w6 (n' & ? & Hw6 & Hq6 & Hrest6).
  apply wp_bind. eapply wp_mono; [by apply fast_path_quiet|]. intros _ w7 [Hrx7 Hw7].
  destruct (rcvq_rx _ _ _ _ c n' hi Hrx7 Hq6) as [Hq7 Hrest7].
  apply wp_bind, wp_gets.
  destruct (sock_dead (tp w7)); [apply wp_ret|apply wp_modS]; exists n';
    (split_and!; [by right|done..|etransitivity; [exact Hrest7|done]]).
Qed.

Lemma quickack_room w :
  tune_ok (tp w) ->
  wp serval_tcp_enter_quickack_mode w (fun _ w' => same w w' /\ forall s, room w s -> room w' s).
Proof.
  intros Hw. unfold serval_tcp_enter_quickack_mode, serval_tcp_incr_quickack.
  apply wp_bind, wp_bind, wp_gets. pose proof (tune_mss _ Hw).
  replace (rcv_mss (ack (tp w)) =? 0) with false by lia. cbv zeta.
  destruct (quick (ack (tp w)) <? _); [apply wp_modS|apply wp_ret]; apply wp_modS;
    (split; [by destruct Hw|done]).
Qed.
Lemma inv_rcvq t c n u :
  stream_inv St isn t c n u -> n - c <= 2 ^ 29 + 1 -> rcvq t c n (u + rcv_wnd t + 2 ^ 15).
Proof. intros [] ?. split; try done; lia. Qed.
Lemma rcvq_inv t t' c n n' u :
  stream_inv St isn t c n u -> n <= n' -> rcvq t' c n' (u + rcv_wnd t + 2 ^ 15) ->
  rest t' = rest t -> stream_inv St isn t' c n' u.
Proof.
  intros [] ? [] [= Hu Hwnd _ _ _ _ _ _]. split; rewrite ?Hu, ?Hwnd; try done; lia.
Qed.
Lemma inv_rx t t' c n u :
  stream_inv St isn t c n u -> rx t' = rx t -> stream_inv St isn t' c n u /\ rest t' = rest t.
Proof.
  unfold rx, rest. intros [] [= Hn Hc Hu Hwn Hr Ho ? ? ? ? ? ?]. split; [|congruence].
  by split; rewrite ?Hn, ?Hc, ?Hu, ?Hwn, ?Hr, ?Ho.
Qed.
Lemma quiet_inv {A} (m : TM A) w c n u :
  quiet m -> tune_ok (tp w) -> stream_inv St isn (tp w) c n u ->
  wp m w (fun _ w' => tune_ok (tp w') /\ stream_inv St isn (tp w') c n u /\ rest (tp w') = rest (tp w)).
Proof.
  intros Hm Hw Hi. eapply wp_mono; [by apply Hm|]. intros _ w' [Hrx ?]. split; [done|].
  by apply inv_rx.
Qed.
Lemma receive_window_eq t c n u :
  stream_inv St isn t c n u -> serval_tcp_receive_window t = Z.max 0 (u + rcv_wnd t - n).
Proof.
  intros []. unfold serval_tcp_receive_window. rewrite inv_wup0, inv_nxt0.
  rewrite <- s32_u32, <- u32_sub_l, sq_add, sq_sub, s32_u32, s32_near by lia. done.
Qed.
Lemma out_of_window_quiet : quiet out_of_window.
Proof. unfold out_of_window. quiet_steps. Qed.

(** What an arrival promises. *)
Definition arrived s (o e c n u : Z) w w' : Prop :=
  exists n', n <= n' /\ tune_ok (tp w') /\ stream_inv St isn (tp w') c n' u /\
    rest (tp w') = rest (tp w) /\
    (o <= n < e -> n < u + rcv_wnd (tp w) -> room w s -> e <= n').

Lemma out_of_window_ok s o e c n u w w1 :
  stream_inv St isn (tp w1) c n u -> tune_ok (tp w1) -> rest (tp w1) = rest (tp w) ->
  ~ (o <= n < e /\ n < u + rcv_wnd (tp w)) ->
  wp out_of_window w1 (fun _ w' => arrived s o e c n u w w').
Proof.
  intros Hi Hw Hrest Hno. eapply wp_mono; [by apply quiet_inv; [apply out_of_window_quiet|..]|].
  intros _ w' (? & ? & ?). exists n. split_and!; [done..|congruence|]. intros. exfalso. by apply Hno.
Qed.
Lemma in_window_ok s o e c n u w w1 :
  stream_inv St isn (tp w1) c n u -> tune_ok (tp w1) -> rest (tp w1) = rest (tp w) ->
  n - c <= 2 ^ 29 + 1 -> seg_at St isn s (o, e) -> o <= n < e -> n < u + rcv_wnd (tp w) ->
  (room w s -> room w1 s) ->
  wp (queue_and_out s) w1 (fun _ w' => arrived s o e c n u w w').
Proof.
  intros Hi Hw Hrest ? Hs ? ? Hroom. pose proof (seg_at_size _ _ _ _ _ Hs).
  assert (Hwnd : rcv_wnd (tp w1) = rcv_wnd (tp w)) by (unfold rest in Hrest; congruence).
  pose proof (inv_rcvq _ _ _ _ Hi ltac:(done)) as Hq.
  eapply wp_mono; [eapply (queue_and_out_ok s o e c n _ w1); try done; lia|].
  intros _ w' (n' & Hn' & Hpro & ? & ? & ?). exists n'. assert (n <= n') by lia.
  split_and!; [done..|by eapply rcvq_inv|congruence|by auto].
Qed.
Lemma try_rmem_inv size c n u w :
  stream_inv St isn (tp w) c n u -> tune_ok (tp w) -> n - c <= 2 ^ 29 + 1 ->
  wp (serval_tcp_try_rmem_schedule size) w (fun _ w' => tune_ok (tp w') /\
    stream_inv St isn (tp w') c n u /\ rest (tp w') = rest (tp w)).
Proof.
  intros Hi Hw ?. eapply wp_mono; [apply (try_rmem_tidy St isn); [done|by eapply inv_rcvq]|].
  intros err w' (? & ? & ?). split_and!; [done| |done]. eapply rcvq_inv; [exact Hi|lia|done..].
Qed.
Lemma out_of_order_ok s o e c n u w w1 :
  stream_inv St isn (tp w1) c n u -> tune_ok (tp w1) -> rest (tp w1) = rest (tp w) ->
  n - c <= 2 ^ 29 + 1 -> seg_at St isn s (o, e) -> n < o < u + rcv_wnd (tp w) ->
  wp (err ← serval_tcp_try_rmem_schedule (seg_truesize s);
      if negb (err =? 0) then mret tt
      else upd (fun t => t {{ pred_flags := 0 }});; serval_tsk_schedule_ack;;
           skb_set_owner_r s;; queue_ofo s) w1 (fun _ w' => arrived s o e c n u w w').
Proof.
  intros Hi Hw Hrest ? Hs ?. apply wp_bind.
  eapply wp_mono; [by eapply try_rmem_inv|]. intros err w2 (Hw2 & Hi2 & Hrest2).
  assert (Hwnd : rcv_wnd (tp w2) = rcv_wnd (tp w)) by (unfold rest in *; congruence).
  destruct (negb _).
  { apply wp_ret. exists n. split_and!; [done..|congruence|lia]. }
  apply wp_bind, wp_modS, wp_bind.
  eapply wp_mono; [apply schedule_ack_quiet; by destruct Hw2|]. intros _ w3 [Hrx3 Hw3].
  apply wp_bind. eapply wp_mono; [by apply set_owner_quiet|]. intros _ w4 [Hrx4 Hw4].
  pose proof (inv_rcvq _ _ _ _ Hi2 ltac:(done)) as Hq. pose proof (seg_at_size _ _ _ _ _ Hs).
  eapply (rcvq_rx St isn _ (tp w4)) in Hq as [Hq Hrest4].
  2: { rewrite Hrx4, Hrx3. done. }
  eapply wp_mono; [eapply (queue_ofo_ok St isn s o e c n); try done; lia|].
  intros _ w5 (? & ? & ?). exists n. split_and!; [done..| |congruence|lia].
  eapply rcvq_inv; [exact Hi2|lia|done|congruence].
Qed.

Theorem data_queue_ok s o e c n u w :
  tune_ok (tp w) -> stream_inv St isn (tp w) c n u -> n - c <= 2 ^ 29 + 1 ->
  arriving St isn s (o, e) -> - 2 ^ 30 < o - n < 2 ^ 30 ->
  wp (serval_tcp_data_queue s) w (fun _ w' => arrived s o e c n u w w').
Proof.
  intros Hw Hi Hfit [Hh Hs] Hnear. unfold serval_tcp_data_queue.
  pose proof (seg_at_size _ _ _ _ _ Hs). pose proof Hs as [Hseq Hend Hran _ _ _ [] _].
  cbn [fst snd] in *. change (seg_seq s = sqn o) in Hseq. change (seg_end s = sqn e) in Hend.
  change (0 <= th_doff s <= 15) in small_doff. pose proof Hi as [_ Hnxt _ ? ? _ _].
  rewrite Hseq, Hend, eqb_sq by lia. replace (o =? e) with false by lia.
  apply wp_bind. unfold __skb_pull. replace (seg_len s <? 4 * th_doff s) with false by lia.
  apply wp_ret. fold (pulled s). apply wp_bind, wp_gets.
  change (seg_seq (pulled s)) with (seg_seq s). change (seg_end (pulled s)) with (seg_end s).
  change (arrived s) with (arrived (pulled s)).
  rewrite (receive_window_eq _ _ _ _ Hi), Hnxt, Hseq, Hend, sq_add, eqb_sq, after_sq, !before_sq by lia.
  set (rwnd := Z.max 0 _).
  destruct (Z.eqb_spec o n) as [->|].
  { destruct (Z.eqb_spec rwnd 0); [apply out_of_window_ok|apply in_window_ok]; try done; lia. }
  destruct (Z.ltb_spec n e); cbn [negb]; [|apply out_of_window_ok; try done; lia].
  destruct (Z.ltb_spec o (n + rwnd)); cbn [negb]; [|apply out_of_window_ok; try done; lia].
  apply wp_bind. eapply wp_mono; [by apply quickack_room|]. intros _ w1 [Hsame Hroom].
  destruct Hsame as [Hrx1 Hw1]. destruct (inv_rx _ _ _ _ _ Hi Hrx1) as [Hi1 Hrest1].
  destruct (Z.ltb_spec o n).
  { destruct (Z.eqb_spec rwnd 0); [apply out_of_window_ok|apply in_window_ok]; try done; try lia. auto. }
  apply out_of_order_ok; try done. lia.
Qed.
End Arrive.
