(* ===== verification/TcpOut.v ===== *)
(** * TCP output: options, windows and acknowledgements
    (src/stack/serval_tcp_output.c lines 45-98, 118-266, 319-330, 379-498,
    697-716, 982-1124, 1781-1859, 2289-2338 and 2503-2534; serval_tcp.c lines
    2153-2185; serval_tcp.h; serval_tcp_sock.h)

    A segment to send is given headerless; what reaches
    [serval_sal_xmit_skb] is the list of its bytes.  The congestion control
    has no hook for events, and no timestamps are taken. *)
From S2P Require Import Prelude SalHdr Checksum TcpSock TcpCong.
Local Open Scope Z_scope.

Definition be16 (z : Z) : list Z := [Z.land (Z.shiftr z 8) 255; Z.land z 255].
Definition TCPOPT_EOL : Z := 0.
Definition TCPOPT_NOP : Z := 1.
Definition TCPOPT_MSS : Z := 2.
Definition TCPOPT_WINDOW : Z := 3.
Definition TCPOLEN_MSS : Z := 4.
Definition TCPOLEN_WINDOW : Z := 3.
Definition TCPOLEN_MSS_ALIGNED : Z := 4.
Definition TCPOLEN_WSCALE_ALIGNED : Z := 4.
Definition MAX_SERVAL_TCP_OPTION_SPACE : Z := 40.
Definition OPTION_WSCALE : Z := 8.
Definition TCP_IPPROTO : Z := 6.
Definition NET_XMIT_CN : Z := 2.
Definition ENOBUFS : Z := 105.

(** [memset(&opts, 0, sizeof(opts))] *)
Record tcp_out_options := TcpOutOptions { opt_options : Z; opt_ws : Z; opt_mss : Z }.
Definition no_options : tcp_out_options := TcpOutOptions 0 0 0.

(** A segment of the write queue, or one made for the occasion: its control
    block, its data, and what [ip_summed] and [csum] say of its checksum. *)
Record tx_skb := TxSkb {
  tx_seq : Z; tx_end : Z; tx_flags : Z; tx_data : list Z;
  tx_partial : bool; tx_csum : Z; tx_pcount : Z;
}.

Section Out.
Context `{TcpEnv}.
Implicit Types (t : tcp_sock) (o : tcp_out_options) (s : tx_skb).

(** ** Options *)
Definition serval_tcp_advertise_mss t : Z := u16 (advmss t).
Definition serval_tcp_options_write o : list Z :=
  (if opt_mss o =? 0 then []
   else be32 (Z.lor (Z.lor (Z.shiftl TCPOPT_MSS 24) (Z.shiftl TCPOLEN_MSS 16)) (opt_mss o))) ++
  (if Z.land OPTION_WSCALE (opt_options o) =? 0 then []
   else be32 (Z.lor (Z.lor (Z.lor (Z.shiftl TCPOPT_NOP 24) (Z.shiftl TCPOPT_WINDOW 16))
                           (Z.shiftl TCPOLEN_WINDOW 8)) (opt_ws o))).
Definition add_wscale (ws : Z) o : tcp_out_options :=
  o {{ opt_ws := ws; opt_options ::= Z.lor OPTION_WSCALE }}.
(** The options and the space they take. *)
Definition serval_tcp_syn_options t : tcp_out_options * Z :=
  let o := no_options {{ opt_mss := serval_tcp_advertise_mss t }} in
  let remaining := MAX_SERVAL_TCP_OPTION_SPACE - TCPOLEN_MSS_ALIGNED in
  let '(o, remaining) :=
    if window_scaling
    then (add_wscale (rcv_wscale t) o, remaining - TCPOLEN_WSCALE_ALIGNED) else (o, remaining) in
  (o, MAX_SERVAL_TCP_OPTION_SPACE - remaining).
Definition serval_tcp_synack_options (mss : Z) (wscale_ok : bool) (ws : Z) : tcp_out_options * Z :=
  let o := no_options {{ opt_mss := u16 mss }} in
  let remaining := MAX_SERVAL_TCP_OPTION_SPACE - TCPOLEN_MSS_ALIGNED in
  let '(o, remaining) :=
    if wscale_ok then (add_wscale ws o, remaining - TCPOLEN_WSCALE_ALIGNED) else (o, remaining) in
  (o, MAX_SERVAL_TCP_OPTION_SPACE - remaining).
Definition serval_tcp_established_options : tcp_out_options * Z := (no_options, 0).

(** ** The window offered *)

(** The scale grows while the space does not fit 16 bits, up to 14. *)
Fixpoint wscale_loop (fuel : nat) (space ws : Z) : Z * Z :=
  match fuel with
  | O => (space, ws)
  | S fuel => if 65535 <? space then wscale_loop fuel (Z.shiftr space 1) (ws + 1) else (space, ws)
  end.
(** Returns [rcv_wnd], [window_clamp] and [rcv_wscale]; [rmem_max] is the larger
    of the two limits of receive buffers. *)
Definition serval_tcp_select_initial_window (space mss clamp : Z) (wscale_ok : bool)
  (init_rcv_wnd rmem_max : Z) : outcome (Z * Z * Z)%type :=
  let space := Z.max 0 space in
  let clamp := if clamp =? 0 then Z.shiftl 65535 14 else clamp in
  let space := Z.min clamp space in
  if (mss <? space) && (mss =? 0) then Fault
  else
    let space := if mss <? space then space / mss * mss else space in
    let wnd := if workaround_signed_windows then Z.min space MAX_TCP_WINDOW else space in
    let ws := if wscale_ok then (wscale_loop 14 (Z.min rmem_max clamp) 0).2 else 0 in
    let wnd :=
      if Z.shiftl 1 ws <? mss then
        let init_cwnd := if 4380 <? mss then 2 else if 1460 <? mss then 3 else 4 in
        if negb (init_rcv_wnd =? 0) && (u32 (init_rcv_wnd * mss) <? wnd) then u32 (init_rcv_wnd * mss)
        else if u32 (init_cwnd * mss) <? wnd then u32 (init_cwnd * mss) else wnd
      else wnd in
    Ok (wnd, Z.min (Z.shiftl 65535 ws) clamp, ws).

(** The rounding at the end of [__serval_tcp_select_window]; [free], [full],
    [mss] and [window] are as there. *)
Definition round_window t (free full mss : Z) : TM Z :=
  let window := s32 (rcv_wnd t) in
  if negb (rcv_wscale t =? 0) then
    let ws := rcv_wscale t in
    mret (if Z.shiftl (Z.shiftr free ws) ws =? free then free
          else Z.shiftl (Z.shiftr free ws + 1) ws)
  else if (window <=? free - mss) || (free <? window) then
    if mss =? 0 then faultM else mret (Z.quot free mss * mss)
  else if (mss =? full) && (window + Z.shiftr full 1 <? free) then mret free
  else mret window.
Definition __serval_tcp_select_window : TM Z :=
  w ← getS;
  let t := tp w in
  let free := serval_tcp_space t in
  let full := Z.min (s32 (window_clamp t)) (serval_tcp_full_space t) in
  let mss := Z.min (rcv_mss (ack t)) full in
  no_space ←
    (if free <? Z.shiftr full 1 then
       upd_ack (fun a => a {{ quick := 0 }});;
       (if memory_pressure w
        then upd (fun t => t {{ rcv_ssthresh := Z.min (rcv_ssthresh t) (4 * advmss t) }})
        else mret tt);;
       mret (free <? mss)
     else mret false);
  if (no_space : bool) then mret 0
  else
    t ← the_tp;
    let free := if rcv_ssthresh t <? u32 free then s32 (rcv_ssthresh t) else free in
    window ← round_window t free full mss;
    mret (u32 window).
(** [ALIGN(x, 1 << ws)] *)
Definition align (x ws : Z) : Z :=
  let a := Z.shiftl 1 ws in u32 (Z.land (u32 (x + (a - 1))) (Z.lnot (a - 1))).
Definition serval_tcp_select_window : TM Z :=
  t ← the_tp;
  let cur_win := serval_tcp_receive_window t in
  new_win ← __serval_tcp_select_window;
  let ws := rcv_wscale t in
  let new_win := if new_win <? cur_win then align cur_win ws else new_win in
  upd (fun t => t {{ rcv_wnd := new_win; rcv_wup := rcv_nxt t }});;
  let new_win := if (ws =? 0) && workaround_signed_windows then Z.min new_win MAX_TCP_WINDOW
                 else Z.min new_win (u32 (Z.shiftl 65535 ws)) in
  let new_win := Z.shiftr new_win ws in
  (if new_win =? 0 then upd (fun t => t {{ pred_flags := 0 }}) else mret tt);;
  mret (u16 new_win).

(** ** Transmission *)
Definition tcp_v4_check (len saddr daddr base : Z) : Z :=
  csum_tcpudp_magic saddr daddr len TCP_IPPROTO base.
Definition put_check (c : Z) (d : list Z) : list Z := take 16 d ++ [c mod 256; c / 256] ++ drop 18 d.
(** [d] is the segment with its header of [hlen] bytes, the checksum zero. *)
Definition serval_tcp_v4_send_check t s (hlen : nat) (d : list Z) : list Z :=
  let len := u16 (Z.of_nat (length d)) in
  let check := tcp_v4_check len (inet_saddr t) (inet_daddr t) in
  put_check
    (if negb checksum_mode then check (csum_partial 0 d 0)
     else if tx_partial s then u16 (Z.lnot (check 0))
     else check (csum_partial 0 (take hlen d) (tx_csum s))) d.

Definition serval_tcp_dec_quickack_mode (pkts : Z) : TM unit :=
  upd_ack (fun a =>
    if quick a =? 0 then a
    else if quick a <=? pkts then a {{ quick := 0; ato := TCP_ATO_MIN }}
    else a {{ quick := quick a - pkts }}).
Definition clear_delack_timer : TM unit :=
  upd_ack (fun a => a {{ blocked := 0; ack_pending := 0; delack_timer := None }}).
Definition reset_delack_timer (when max_when : Z) : TM unit :=
  w ← getS;
  let timeout := jiffies w + Z.min when max_when in
  upd_ack (fun a => a {{ ack_pending ::= Z.lor STSK_ACK_TIMER; ack_timeout := timeout;
                         delack_timer := Some timeout }}).
Definition serval_tcp_event_ack_sent (pkts : Z) : TM unit :=
  serval_tcp_dec_quickack_mode pkts;; clear_delack_timer.
Definition upd_cong (f : tcp_cong -> outcome tcp_cong) : TM unit := fun w =>
  match f (cong (tp w)) with
  | Ok g => Ok (tt, w {{ tp ::= (fun t => t {{ cong := g }}) }})
  | Fault => Fault
  | NoFuel => NoFuel
  end.
Definition serval_tcp_event_data_sent : TM unit :=
  now ← tcp_time_stamp;
  t ← the_tp;
  let g := cong t in
  (if slow_start_after_idle && (packets_out g =? 0) &&
      (rto g <? u32 (s32 (now - lsndtime g)))
   then upd_cong (serval_tcp_cwnd_restart now) else mret tt);;
  upd (fun t => t {{ cong ::= (fun g => g {{ lsndtime := now }}) }});;
  upd_ack (fun a => if u32 (now - lrcvtime a) <? ato a then a {{ pingpong := 1 }} else a).

(** The urgent pointer: the pointer to write, and whether the flag is set. *)
Definition urg_fields t s : Z * bool :=
  let g := cong t in
  if negb (snd_una g =? snd_up g) && before (tx_seq s) (snd_up g) then
    if before (snd_up g) (u32 (tx_seq s + 65536)) then (u16 (snd_up g - tx_seq s), true)
    else if after (u32 (tx_seq s + 65535)) (snd_nxt g) then (65535, true)
    else (0, false)
  else (0, false).
Definition tcp_header t s (hlen window : Z) : list Z :=
  let '(urg_ptr, urg) := urg_fields t s in
  let flags := if urg : bool then Z.lor (tx_flags s) TCPH_URG else tx_flags s in
  be16 0 ++ be16 0 ++ be32 (tx_seq s) ++ be32 (rcv_nxt t) ++
  be16 (Z.lor (Z.shiftl (Z.shiftr hlen 2) 12) flags) ++ be16 window ++ be16 0 ++ be16 urg_ptr.
(** The SAL as TCP sees it: [serval_sal_xmit_skb] is handed the bytes and gives
    back a result, taken from [xmit_results].  What the SAL does with them is
    [serval_sal_transmit_skb] of [Sal.v]; its read of the freed buffer
    ([transmit_reads_freed]) is not repeated here.  [sent] is what was handed
    over, whatever the result. *)
Definition sal_xmit (d : list Z) : TM Z :=
  w ← getS;
  modS (fun w => w {{ sent := sent w ++ [d] }});;
  match xmit_results w with
  | [] => mret 0
  | err :: l => modS (fun w => w {{ xmit_results := l }});; mret err
  end.
Definition serval_tcp_transmit_skb s (clone_it : bool) : TM Z :=
  if tx_pcount s =? 0 then faultM
  else
    ok ← (if clone_it then alloc_ok else mret true);
    if negb ok then mret (- ENOBUFS)
    else
      t ← the_tp;
      let syn := negb (Z.land (tx_flags s) TCPH_SYN =? 0) in
      let '(o, size) := if syn then serval_tcp_syn_options t else serval_tcp_established_options in
      let hlen := size + TCP_HLEN in
      window ← (if syn then mret (Z.min (rcv_wnd t) 65535) else serval_tcp_select_window);
      let d := tcp_header t s hlen window ++ serval_tcp_options_write o ++ tx_data s in
      let d := serval_tcp_v4_send_check t s (Z.to_nat hlen) d in
      (if Z.land (tx_flags s) TCPH_ACK =? 0 then mret tt
       else serval_tcp_event_ack_sent (tx_pcount s));;
      (if bool_decide (tx_data s = []) then mret tt else serval_tcp_event_data_sent);;
      err ← sal_xmit d;
      if err <=? 0 then mret err
      else
        now ← tcp_time_stamp;
        upd (fun t => t {{ cong ::= serval_tcp_enter_cwr true now }});;
        mret (if err =? NET_XMIT_CN then 0 else err).

(** ** Acknowledgements *)
Definition serval_tcp_wnd_end t : Z := u32 (snd_una (cong t) + snd_wnd (cong t)).
Definition serval_tcp_acceptable_seq t : Z :=
  if negb (before (serval_tcp_wnd_end t) (snd_nxt (cong t))) then snd_nxt (cong t)
  else serval_tcp_wnd_end t.
Definition serval_tcp_init_nondata_skb (seq flags : Z) : tx_skb :=
  TxSkb seq (if Z.land flags (Z.lor TCPH_SYN TCPH_FIN) =? 0 then seq else u32 (seq + 1))
        flags [] true 0 1.
Definition serval_tcp_send_ack : TM unit :=
  t ← the_tp;
  if tcp_state t =? TCP_CLOSE then mret tt
  else
    ok ← alloc_ok;
    if negb ok then
      serval_tsk_schedule_ack;;
      upd_ack (fun a => a {{ ato := TCP_ATO_MIN }});;
      reset_delack_timer TCP_DELACK_MAX SERVAL_TCP_RTO_MAX
    else
      serval_tcp_transmit_skb (serval_tcp_init_nondata_skb (serval_tcp_acceptable_seq t) TCPH_ACK) false;;
      mret tt.
(** [time_before] of the 64-bit [jiffies]; HZ / 2 is 50. *)
Definition s64 (z : Z) : Z := if u64 z <? 2 ^ 63 then u64 z else u64 z - 2 ^ 64.
Definition time_before (a b : Z) : bool := s64 (a - b) <? 0.
Definition delack_ato t : Z :=
  let a := ato (ack t) in
  if TCP_DELACK_MIN <? a then
    let max_ato := if negb (pingpong (ack t) =? 0) ||
                      negb (Z.land (ack_pending (ack t)) STSK_ACK_PUSHED =? 0)
                   then TCP_DELACK_MAX else 50 in
    let max_ato := if srtt (cong t) =? 0 then max_ato
                   else Z.min max_ato (Z.max (Z.shiftr (srtt (cong t)) 3) TCP_DELACK_MIN) in
    Z.min a max_ato
  else a.
Definition serval_tcp_send_delayed_ack : TM unit :=
  w ← getS;
  let t := tp w in
  let a := delack_ato t in
  let timeout := jiffies w + a in
  let pending_timer := negb (Z.land (ack_pending (ack t)) STSK_ACK_TIMER =? 0) in
  if pending_timer && (negb (blocked (ack t) =? 0) ||
       negb (time_before (jiffies w + Z.shiftr a 2) (ack_timeout (ack t))))
  then serval_tcp_send_ack
  else
    let timeout := if pending_timer && negb (time_before timeout (ack_timeout (ack t)))
                   then ack_timeout (ack t) else timeout in
    upd_ack (fun a => a {{ ack_pending ::= Z.lor (Z.lor STSK_ACK_SCHED STSK_ACK_TIMER);
                           ack_timeout := timeout; delack_timer := Some timeout }}).
End Out.
