(* ===== verification/TcpRecv.v ===== *)
(** * Reading from a TCP socket (src/stack/serval_tcp.c lines 1635-1697 and
    1718-2149)

    The reads of [serval_tcp_recvmsg] that do not wait (MSG_DONTWAIT or a zero
    timeout), with or without MSG_PEEK, into a buffer of [len] bytes.  With no
    reader waiting the prequeue stays empty; urgent data is never recorded,
    since [serval_tcp_urg] is commented out; copying to the user's buffer, which
    has room for [len] bytes, succeeds. *)
From S2P Require Import Prelude TcpSock TcpQueue TcpOut.
Local Open Scope Z_scope.

Definition TCP_ENOTCONN : Z := 107.
Definition TCP_EAGAIN : Z := 11.

Section Recv.
Context `{TcpEnv}.
Implicit Types (s : tcp_seg) (t : tcp_sock) (q : list tcp_seg).

Definition serval_tcp_cleanup_rbuf (copied : Z) : TM unit :=
  t ← the_tp;
  let a := ack t in
  let time_to_ack :=
    serval_tsk_ack_scheduled t &&
    (negb (blocked a =? 0) || (rcv_mss a <? u32 (rcv_nxt t - rcv_wup t)) ||
     ((0 <? copied) &&
      (negb (Z.land (ack_pending a) STSK_ACK_PUSHED2 =? 0) ||
       (negb (Z.land (ack_pending a) STSK_ACK_PUSHED =? 0) && (pingpong a =? 0))) &&
      (sk_rmem_alloc t =? 0))) in
  time_to_ack ←
    (if (0 <? copied) && negb time_to_ack && negb (rcv_shutdown t) then
       let rcv_window_now := serval_tcp_receive_window t in
       if u32 (2 * rcv_window_now) <=? window_clamp t then
         new_window ← __serval_tcp_select_window;
         mret (negb (new_window =? 0) && (u32 (2 * rcv_window_now) <=? new_window))
       else mret false
     else mret time_to_ack);
  if (time_to_ack : bool) then serval_tcp_send_ack else mret tt.

(** The walk over the receive queue: the position and the segment found, with
    the offset of the next byte in it, or [None] if it is the FIN that is next. *)
Fixpoint find_seg q (seq : Z) (i : nat) : option (nat * tcp_seg * option Z) :=
  match q with
  | [] => None
  | s :: q =>
      if before seq (seg_seq s) then None
      else
        let offset := u32 (seq - seg_seq s) in
        let offset := if th_syn s then u32 (offset - 1) else offset in
        if offset <? seg_len s then Some (i, s, Some offset)
        else if th_fin s then Some (i, s, None)
        else find_seg q seq (S i)
  end.
Definition sk_eat_skb (i : nat) s : TM unit :=
  upd (fun t => t {{ receive_queue := delete i (receive_queue t) }});;
  sock_rfree s.

(** [wait_for_event] of a call that may not wait: what it returns. *)
Definition no_event (copied : Z) : TM Z :=
  t ← the_tp;
  if negb (copied =? 0) then mret copied
  else if sock_done t then mret 0
  else if negb (sk_err t =? 0) then
    upd (fun t => t {{ sk_err := 0 }});; mret (- sk_err t)
  else if rcv_shutdown t then mret 0
  else if tcp_state t =? TCP_CLOSE then mret (- TCP_ENOTCONN)
  else mret (- TCP_EAGAIN).

(** One turn per segment.  [seq] is [peek_seq] and counts only if [peek];
    returns what the call returns and the bytes copied. *)
Fixpoint recv_loop (fuel : nat) (peek : bool) (seq copied len : Z) (out : list Z)
  : TM (Z * list Z)%type :=
  match fuel with
  | O => nofuelM
  | S fuel =>
      t ← the_tp;
      let cur := if peek then seq else copied_seq t in
      let advance (k : Z) : TM unit :=
        if peek then mret tt else upd (fun t => t {{ copied_seq := u32 (copied_seq t + k) }}) in
      let again (seq copied len : Z) out :=
        if 0 <? len then recv_loop fuel peek seq copied len out else mret (copied, out) in
      let found_fin (i : nat) s (seq copied len : Z) out :=
        advance 1;;
        if peek then mret (copied, out)
        else
          upd (fun t => t {{ fin_found := true }});;
          sk_eat_skb i s;;
          again (u32 (seq + 1)) copied len out in
      match (if fin_found t then None else find_seg (receive_queue t) cur 0) with
      | None => r ← no_event copied; mret (r, out)
      | Some (i, s, None) => found_fin i s seq copied len out
      | Some (i, s, Some offset) =>
          let used := Z.min (seg_len s - offset) len in
          let out := out ++ take (Z.to_nat used) (drop (Z.to_nat offset) (seg_data s)) in
          advance used;;
          let seq := u32 (seq + used) in
          let copied := copied + used in
          let len := len - used in
          serval_tcp_rcv_space_adjust;;
          if used + offset <? seg_len s then again seq copied len out
          else if th_fin s then found_fin i s seq copied len out
          else
            (if peek then mret tt else sk_eat_skb i s);;
            again seq copied len out
      end
  end.
Definition serval_tcp_recvmsg (len : Z) (peek : bool) : TM (Z * list Z)%type :=
  t ← the_tp;
  if tcp_state t =? TCP_LISTEN then mret (- TCP_ENOTCONN, [])
  else
    '(copied, out) ← recv_loop (S (S (length (receive_queue t)))) peek (copied_seq t) 0 len [];
    serval_tcp_cleanup_rbuf copied;;
    mret (copied, out).
End Recv.
