(* ===== verification/TcpRecvOk.v ===== *)
(** * Reading delivers the stream

    A read returns the next bytes of the stream, as many as have been received
    and fit, and takes from the queue what has been read; the acknowledgement it
    may send keeps the invariant. *)

(** * The window offered to the peer

    [serval_tcp_select_window] never takes back what has been offered, and what
    it puts into the header is the window the socket will accept, as far as 16
    bits and the scale can express it. *)
From S2P Require Import Prelude TcpSock TcpQueue TcpFrame TcpQueueOk TcpStream TcpOut.
Local Open Scope Z_scope.

(** The limit on the window that a buffer of half a gigabyte sets. *)
Definition win_ok (t : tcp_sock) : Prop := rcv_ssthresh t <= 2 ^ 29.
(** The largest window the header can carry. *)
Definition win_cap `{TcpEnv} (t : tcp_sock) : Z :=
  if (rcv_wscale t =? 0) && workaround_signed_windows then MAX_TCP_WINDOW
  else 65535 * 2 ^ rcv_wscale t.

Section Window.
Context `{EOk : TcpEnvOk}.
Implicit Types (t : tcp_sock) (w : tcpw).

Lemma space_upper t : serval_tcp_space t < 2 ^ 31.
Proof.
  unfold serval_tcp_space. set (z := s32 _).
  assert (z < 2 ^ 31) by (subst z; unfold s32; pose proof (u32_range (sk_rcvbuf t - sk_rmem_alloc t)); case_match; lia).
  destruct (decide (0 <= z)); [destruct (win_from_space_bounds z); lia|].
  destruct win_scale_ok. unfold serval_tcp_win_from_space.
  replace (adv_win_scale <=? 0) with false by lia.
  assert (z <= Z.shiftr z adv_win_scale); [|lia]. rewrite Z.shiftr_div_pow2 by lia.
  apply Z.div_le_lower_bound; nia.
Qed.
Lemma full_window t : tune_ok t ->
  1 <= Z.min (s32 (window_clamp t)) (serval_tcp_full_space t).
Proof.
  intros []. rewrite s32_near by lia. unfold serval_tcp_full_space.
  destruct (win_from_space_bounds (sk_rcvbuf t)); lia.
Qed.
Lemma shift_multiple z ws : 0 <= ws -> (2 ^ ws | Z.shiftl z ws).
Proof. intros. rewrite Z.shiftl_mul_pow2 by done. by exists z. Qed.
Lemma round_up z ws : 0 <= z -> 0 <= ws ->
  z < Z.shiftl (Z.shiftr z ws + 1) ws <= z + 2 ^ ws.
Proof.
  intros. rewrite Z.shiftl_mul_pow2, Z.shiftr_div_pow2 by done.
  pose proof (Z.pow_pos_nonneg 2 ws). pose proof (Z.mod_pos_bound z (2 ^ ws)).
  pose proof (Z_div_mod_eq_full z (2 ^ ws)). nia.
Qed.
Lemma round_window_ok t free full mss w Q :
  0 <= free <= 2 ^ 29 -> 1 <= mss -> 0 <= rcv_wnd t <= 2 ^ 30 -> 0 <= rcv_wscale t <= 14 ->
  (forall win, 0 <= win <= 2 ^ 30 -> (2 ^ rcv_wscale t | win) -> Q win w) ->
  wp (round_window t free full mss) w Q.
Proof.
  intros ? ? ? ? HQ. unfold round_window. rewrite s32_near by lia.
  destruct (Z.eqb_spec (rcv_wscale t) 0) as [E0|]; cbn [negb].
  - assert (Hd : forall z, (2 ^ rcv_wscale t | z)) by (intros z; rewrite E0; exists z; lia).
    destruct (_ || _); [|destruct (_ && _); apply wp_ret, HQ; try done; lia].
    replace (mss =? 0) with false by lia. apply wp_ret, HQ; [|done].
    rewrite Z.quot_div_nonneg by lia. pose proof (Z.mul_div_le free mss).
    pose proof (Z.div_pos free mss). nia.
  - apply wp_ret. pose proof (round_up free (rcv_wscale t)).
    assert (2 ^ rcv_wscale t <= 2 ^ 14) by (apply Z.pow_le_mono_r; lia).
    destruct (Z.eqb_spec (Z.shiftl (Z.shiftr free (rcv_wscale t)) (rcv_wscale t)) free) as [Hf|];
      apply HQ; [lia|rewrite <- Hf|lia|]; apply shift_multiple; lia.
Qed.
Lemma select_window_value w :
  tune_ok (tp w) -> win_ok (tp w) -> 0 <= rcv_wnd (tp w) <= 2 ^ 30 ->
  wp __serval_tcp_select_window w (fun win w' => same w w' /\ win_ok (tp w') /\
    0 <= win <= 2 ^ 30 /\ (2 ^ rcv_wscale (tp w) | win)).
Proof.
  intros Hw Hwin ?. unfold __serval_tcp_select_window. apply wp_bind, wp_getS.
  pose proof (space_upper (tp w)). pose proof (full_window _ Hw).
  set (free := serval_tcp_space (tp w)) in *. set (full := Z.min _ (serval_tcp_full_space _)) in *.
  cbv zeta. pose proof (tune_mss _ Hw). set (mss := Z.min _ full).
  apply wp_bind. eapply (wp_mono _ _ (fun no w' => same w w' /\ win_ok (tp w') /\
    (no = false -> 0 <= free))).
  { pose proof (Z.shiftr_nonneg full 1). destruct (Z.ltb_spec free (Z.shiftr full 1)).
    - pose proof (tune_advmss _ Hw). unfold win_ok in *. destruct Hw. apply wp_bind, wp_modS, wp_bind.
      assert (0 <= Z.min (rcv_ssthresh (tp w)) (4 * advmss (tp w)) /\
              Z.min (rcv_ssthresh (tp w)) (4 * advmss (tp w)) <= 2 ^ 29) as [? ?] by lia.
      destruct (memory_pressure w); [apply wp_modS|apply wp_ret]; apply wp_ret;
        (split; [by split; [done|split]|split; [done|lia]]).
    - apply wp_ret. split_and!; try done. lia. }
  intros [|] w1 (Hs1 & Hwin1 & Hfree).
  { apply wp_ret. split_and!; try done. exists 0. lia. }
  specialize (Hfree eq_refl). apply wp_bind, wp_gets, wp_bind. unfold win_ok in *. pose proof (tune_scale _ Hw). pose proof (tune_ssthresh _ (proj2 Hs1)).
  assert (Hsc : rcv_wscale (tp w1) = rcv_wscale (tp w)) by (destruct Hs1 as [[=] _]; congruence).
  assert (Hwnd : rcv_wnd (tp w1) = rcv_wnd (tp w)) by (destruct Hs1 as [[=] _]; congruence).
  rewrite u32_id by lia.
  apply round_window_ok; rewrite ?Hwnd, ?Hsc; try done; try lia.
  - destruct (Z.ltb_spec (rcv_ssthresh (tp w1)) free); [rewrite s32_near|]; lia.
  - intros win ? ?. apply wp_ret. rewrite u32_id by lia. split_and!; try done; lia.
Qed.

Lemma align_ok x ws :
  0 <= x <= 2 ^ 30 -> 0 <= ws <= 14 ->
  x <= align x ws <= 2 ^ 30 /\ (2 ^ ws | align x ws).
Proof.
  intros. unfold align. rewrite Z.shiftl_1_l. set (a := 2 ^ ws).
  assert (0 < a <= 2 ^ 14) by (split; [apply Z.pow_pos_nonneg|apply Z.pow_le_mono_r]; lia).
  assert (Hl : forall y, Z.land y (Z.lnot (a - 1)) = y / a * a).
  { intros y. replace (a - 1) with (Z.ones ws) by (rewrite Z.ones_equiv; subst a; lia).
    rewrite <- Z.ldiff_land, Z.ldiff_ones_r, Z.shiftl_mul_pow2, Z.shiftr_div_pow2 by lia. done. }
  rewrite (u32_id (x + _)), Hl by lia.
  pose proof (Z.mod_pos_bound (x + (a - 1)) a). pose proof (Z_div_mod_eq_full (x + (a - 1)) a).
  assert (Hup : (x + (a - 1)) / a * a <= 2 ^ 30).
  { replace (2 ^ 30) with (2 ^ (30 - ws) * a) by (subst a; rewrite <- Z.pow_add_r; f_equal; lia).
    apply Z.mul_le_mono_nonneg_r; [lia|]. apply Z.lt_succ_r, Z.div_lt_upper_bound; [lia|].
    assert (x <= 2 ^ (30 - ws) * a).
    { subst a. rewrite <- Z.pow_add_r by lia. replace (30 - ws + ws) with 30 by lia. lia. }
    nia. }
  rewrite u32_id by nia. split; [nia|]. by exists ((x + (a - 1)) / a).
Qed.

(** ** Over a stream *)
Context (St : list Z) (isn : Z).
Abbreviation stream_inv := (stream_inv St isn).
(** What neither an arrival nor an acknowledgement touches. *)
Definition others t :=
  (tcp_state t, sock_done t, sk_err t, rcv_shutdown t, fin_found t, rcv_wscale t).
Record alive w (c n u : Z) : Prop := {
  alive_tune : tune_ok (tp w);
  alive_win : win_ok (tp w);
  alive_inv : stream_inv (tp w) c n u;
}.

Lemma cap_shift t : 0 <= rcv_wscale t <= 14 -> u32 (Z.shiftl 65535 (rcv_wscale t)) = 65535 * 2 ^ rcv_wscale t.
Proof.
  intros. rewrite Z.shiftl_mul_pow2 by lia. assert (2 ^ rcv_wscale t <= 2 ^ 14) by (apply Z.pow_le_mono_r; lia).
  pose proof (Z.pow_pos_nonneg 2 (rcv_wscale t)). apply u32_id. lia.
Qed.
(** The value for the header: the window, as far as it can be expressed. *)
Lemma header_window new ws cap :
  0 <= ws <= 14 -> 0 <= new -> (2 ^ ws | new) -> (2 ^ ws | cap) -> 0 <= cap <= 65535 * 2 ^ ws ->
  0 <= Z.shiftr (Z.min new cap) ws <= 65535 /\ Z.shiftr (Z.min new cap) ws * 2 ^ ws = Z.min new cap.
Proof.
  intros ? ? Hn Hc ?. rewrite Z.shiftr_div_pow2 by lia. pose proof (Z.pow_pos_nonneg 2 ws).
  assert (Hm : (2 ^ ws | Z.min new cap)) by (destruct (Z.min_spec new cap) as [[_ ->]|[_ ->]]; done).
  destruct Hm as [k Hk]. rewrite Hk, Z.div_mul by lia. split; [|done]. nia.
Qed.
Lemma select_window_spec w c n u :
  alive w c n u ->
  wp serval_tcp_select_window w (fun adv w' => alive w' c n n /\ others (tp w') = others (tp w) /\
    u + rcv_wnd (tp w) <= n + rcv_wnd (tp w') /\
    0 <= adv <= 65535 /\ adv * 2 ^ rcv_wscale (tp w) = Z.min (rcv_wnd (tp w')) (win_cap (tp w))).
Proof.
  intros [Hw Hwin Hi]. unfold serval_tcp_select_window. apply wp_bind, wp_gets, wp_bind.
  pose proof Hi as [_ _ _ ? Hwnd _ _]. pose proof (tune_scale _ Hw).
  rewrite (receive_window_eq St isn _ c n u Hi).
  eapply wp_mono; [apply select_window_value; try done; lia|]. cbv beta.
  intros win w1 ([Hrx1 Hw1] & Hwin1 & ? & Hdiv). cbv zeta.
  destruct (inv_rx St isn _ _ _ _ _ Hi Hrx1) as [Hi1 Hrest1].
  set (cur := Z.max 0 _). set (ws := rcv_wscale (tp w)) in *.
  set (new := if win <? cur then align cur ws else win).
  assert (Hnew : cur <= new <= 2 ^ 30 /\ (2 ^ ws | new)).
  { subst new. destruct (Z.ltb_spec win cur); [apply align_ok; lia|]. split; [lia|done]. }
  destruct Hnew as [? Hnew]. clearbody new.
  apply wp_bind, wp_modS. wp_state w2.
  assert (Hal : alive w2 c n n).
  { split; [by destruct Hw1|done|]. destruct Hi1 as [? ? ? ? ? ? (l & ? & ? & Hl)]. split; try done.
    - change (0 <= new <= 2 ^ 30 /\ n <= n <= n + new + 2 ^ 15). lia.
    - exists l. split_and!; try done. change (rcv_wnd (tp w2)) with new.
      eapply Forall_impl; [exact Hl|]. intros r ?. cbv beta.
      replace (rcv_wnd (tp w1)) with (rcv_wnd (tp w)) in * by (unfold rest in *; congruence). lia. }
  assert (Ho : others (tp w2) = others (tp w)).
  { transitivity (others (tp w1)); [done|]. unfold rest, others in *. congruence. }
  assert (Hcap : (if (ws =? 0) && workaround_signed_windows then Z.min new MAX_TCP_WINDOW
                  else Z.min new (u32 (Z.shiftl 65535 ws))) = Z.min new (win_cap (tp w)) /\
                 (2 ^ ws | win_cap (tp w)) /\ 0 <= win_cap (tp w) <= 65535 * 2 ^ ws).
  { unfold win_cap. fold ws. pose proof (Z.pow_pos_nonneg 2 ws).
    destruct (Z.eqb_spec ws 0) as [E0|]; [destruct workaround_signed_windows|]; cbn [andb].
    - split_and!; [done|rewrite E0; exists MAX_TCP_WINDOW; lia|done|]. rewrite E0. done.
    - subst ws. rewrite cap_shift by lia. split_and!; try done; [by exists 65535|lia].
    - subst ws. rewrite cap_shift by lia. split_and!; try done; [by exists 65535|lia]. }
  destruct Hcap as (-> & Hcd & ?).
  destruct (header_window new ws (win_cap (tp w))) as [Hadv Heq]; [lia|lia|done..|].
  set (adv := Z.shiftr _ ws) in *. clearbody adv.
  assert (Hret : forall w3, alive w3 c n n -> others (tp w3) = others (tp w2) ->
    rcv_wnd (tp w3) = new -> wp (mret (u16 adv)) w3 (fun adv w' => alive w' c n n /\
      others (tp w') = others (tp w) /\ u + rcv_wnd (tp w) <= n + rcv_wnd (tp w') /\
      0 <= adv <= 65535 /\ adv * 2 ^ ws = Z.min (rcv_wnd (tp w')) (win_cap (tp w)))).
  { intros w3 ? Ho3 Hn3. apply wp_ret. unfold u16. rewrite Z.mod_small, Hn3 by lia.
    split_and!; try done; [congruence|lia..]. }
  apply wp_bind. destruct (adv =? 0); [apply wp_modS|apply wp_ret]; apply Hret; try done.
  destruct Hal as [[] ? []]. by split; [split|..|split].
Qed.
End Window.

From S2P Require Import TcpCong TcpRecv.

Ltac wp_case := lazymatch goal with |- wp (if ?b then _ else _) _ _ => destruct b end.

Section RecvOk.
Context `{EOk : TcpEnvOk} (St : list Z) (isn : Z).
Implicit Types (s : tcp_seg) (q : list tcp_seg) (l : list range) (w : tcpw) (t : tcp_sock).
Abbreviation sqn := (sq isn).
Abbreviation L := (Z.of_nat (length St)).
Abbreviation segs := (Forall2 (seg_at St isn)).
Abbreviation alive := (alive St isn).
Abbreviation stream_inv := (stream_inv St isn).

(** Code that changes neither what is delivered nor the window's limit. *)
Definition calm {A} (m : TM A) : Prop := quiet m /\ frames rcv_ssthresh m.
Lemma calm_alive {A} (m : TM A) w c n u :
  calm m -> alive w c n u ->
  wp m w (fun _ w' => alive w' c n u /\ others (tp w') = others (tp w) /\
    rcv_wnd (tp w') = rcv_wnd (tp w)).
Proof.
  intros [Hm Hf] [Hw Hwin Hi]. eapply wp_mono; [apply (frames_wp rcv_ssthresh), Hm; done|].
  intros a w' [[Hrx ?] Hss]. destruct (inv_rx St isn _ _ _ _ _ Hi Hrx) as [? Hr].
  split; [split; [done| |done]|].
  - unfold win_ok in *. by rewrite Hss.
  - unfold rest, others in *. split; congruence.
Qed.
Lemma calm_bind {A B} (m : TM A) (k : A -> TM B) : calm m -> (forall a, calm (k a)) -> calm (m ≫= k).
Proof. intros [? ?] Hk. split; [apply quiet_bind|apply frames_bind]; try done; intros; apply Hk. Qed.

Lemma sal_xmit_calm d : calm (sal_xmit d).
Proof.
  split; unfold sal_xmit.
  - quiet_steps. destruct (xmit_results w); quiet_steps.
  - frames_steps. destruct (xmit_results a); frames_steps.
Qed.
Lemma event_ack_calm k : calm (serval_tcp_event_ack_sent k).
Proof.
  unfold serval_tcp_event_ack_sent, serval_tcp_dec_quickack_mode, clear_delack_timer. split.
  - quiet_steps. apply quiet_ack. intros a. by repeat case_match.
  - frames_steps.
Qed.
Lemma enter_cwr_calm now : calm (upd (fun t => t {{ cong ::= serval_tcp_enter_cwr true now }})).
Proof. split; [|frames_steps]. apply quiet_upd. intros t []. by split. Qed.
Lemma stamp_calm : calm tcp_time_stamp.
Proof. split; [apply quiet_stamp|]. unfold tcp_time_stamp. frames_steps. Qed.
Lemma alloc_calm : calm alloc_ok.
Proof.
  split; [apply alloc_ok_quiet|]. unfold alloc_ok. frames_steps. destruct (allocs a); frames_steps.
Qed.
Lemma late_ack_calm :
  calm (serval_tsk_schedule_ack;; upd_ack (fun a => a {{ ato := TCP_ATO_MIN }});;
        reset_delack_timer TCP_DELACK_MAX SERVAL_TCP_RTO_MAX).
Proof.
  unfold serval_tsk_schedule_ack, reset_delack_timer. split; [quiet_steps|frames_steps].
Qed.
(** What follows the choice of the window. *)
Lemma ack_tail_calm k d :
  calm (serval_tcp_event_ack_sent k;; mret tt;;
        err ← sal_xmit d;
        if err <=? 0 then mret err
        else now ← tcp_time_stamp;
             upd (fun t => t {{ cong ::= serval_tcp_enter_cwr true now }});;
             mret (if err =? NET_XMIT_CN then 0 else err)).
Proof.
  assert (Hr : forall A (a : A), calm (mret a)) by (split; [apply quiet_ret|apply frames_ret]).
  apply calm_bind; [apply event_ack_calm|intros _]. apply calm_bind; [apply Hr|intros _].
  apply calm_bind; [apply sal_xmit_calm|intros err]. destruct (err <=? 0); [apply Hr|].
  apply calm_bind; [apply stamp_calm|intros now].
  apply calm_bind; [apply enter_cwr_calm|intros _; apply Hr].
Qed.
Lemma tcp_send_ack_ok w c n u :
  alive w c n u ->
  wp serval_tcp_send_ack w (fun _ w' => exists u', alive w' c n u' /\
    others (tp w') = others (tp w) /\ u + rcv_wnd (tp w) <= u' + rcv_wnd (tp w')).
Proof.
  intros Ha. unfold serval_tcp_send_ack. apply wp_bind, wp_gets.
  destruct (_ =? TCP_CLOSE); [apply wp_ret; exists u; split_and!; [done..|lia]|].
  apply wp_bind. eapply wp_mono; [by apply calm_alive; [apply alloc_calm|]|].
  intros ok w1 (Ha1 & Ho1 & Hw1). destruct (negb ok).
  { eapply wp_mono; [by apply calm_alive; [apply late_ack_calm|]|].
    intros _ w2 (? & ? & ?). exists u. split_and!; [done|congruence|lia]. }
  apply wp_bind. unfold serval_tcp_transmit_skb. cbn [tx_pcount serval_tcp_init_nondata_skb].
  replace (1 =? 0) with false by done. apply wp_bind, wp_ret. cbn [negb].
  apply wp_bind, wp_gets. cbn [tx_flags]. replace (Z.land TCPH_ACK TCPH_SYN =? 0) with true by done.
  cbn [negb serval_tcp_established_options]. apply wp_bind.
  eapply wp_mono; [by apply (select_window_spec St isn)|]. cbv beta.
  intros adv w2 (Ha2 & Ho2 & ? & _). replace (Z.land TCPH_ACK TCPH_ACK =? 0) with false by done.
  cbn [tx_data]. rewrite bool_decide_true by done.
  eapply wp_mono; [by apply calm_alive; [apply ack_tail_calm|exact Ha2]|].
  intros err w3 (? & ? & ?). apply wp_ret. exists n. split_and!; [done|congruence|lia].
Qed.
Lemma cleanup_rbuf_ok copied w c n u :
  alive w c n u ->
  wp (serval_tcp_cleanup_rbuf copied) w (fun _ w' => exists u', alive w' c n u' /\
    others (tp w') = others (tp w) /\ u + rcv_wnd (tp w) <= u' + rcv_wnd (tp w')).
Proof.
  intros Ha. unfold serval_tcp_cleanup_rbuf. apply wp_bind, wp_gets. cbv zeta.
  apply wp_bind. apply (wp_mono _ _ (fun _ w' => alive w' c n u /\
    others (tp w') = others (tp w) /\ rcv_wnd (tp w') = rcv_wnd (tp w))).
  { wp_case; [|by apply wp_ret]. wp_case; [|by apply wp_ret].
    destruct Ha as [Hw Hwin Hi]. pose proof (inv_wnd _ _ _ _ _ _ Hi).
    apply wp_bind. eapply wp_mono; [apply select_window_value; try done; lia|]. cbv beta.
    intros win w1 ([Hrx Hw1] & ? & _). apply wp_ret.
    destruct (inv_rx St isn _ _ _ _ _ Hi Hrx) as [? Hr].
    split; [by split|]. unfold rest, others in *. split; congruence. }
  intros b w1 (Ha1 & Ho1 & Hw1). wp_case; [|apply wp_ret; exists u; split_and!; [done..|lia]].
  eapply wp_mono; [by apply tcp_send_ack_ok|].
  intros _ w2 (u' & ? & ? & ?). exists u'. split_and!; [done|congruence|lia].
Qed.

(** ** The read loop *)

(** How much of the stream, without its FIN, lies in front of an offset. *)
Definition upto (c : Z) : Z := Z.min c L.
(** The FIN is marked as found once it has been read. *)
Definition fin_mark t (c : Z) : Prop := fin_found t = (c =? L + 1).
(** [others] but for the mark and the error, which a read may change. *)
Definition state_of t := (tcp_state t, sock_done t, rcv_shutdown t, rcv_wscale t).

(** The next byte is in the first segment, or it is the FIN there. *)
Lemma find_seg_head t c n u :
  stream_inv t c n u -> n - c <= 2 ^ 29 + 1 -> fin_mark t c ->
  match receive_queue t with
  | [] => c = n
  | s :: q => exists o e l, seg_at St isn s (o, e) /\ segs q l /\ chain 0 c ((o, e) :: l) n /\
      find_seg (s :: q) (sqn c) 0 =
        Some (0%nat, s, if c <? L then Some (c - o) else None)
  end.
Proof.
  intros Hi ? Hm. destruct (inv_rcv _ _ _ _ _ _ Hi) as (l & Hs & Hc).
  destruct Hs as [|s [o e] q l Hs Hq]; [done|].
  exists o, e, l. split_and!; try done. pose proof Hc as (? & ? & Hce).
  pose proof (seg_at_len _ _ _ _ _ Hs). pose proof (seg_at_size _ _ _ _ _ Hs).
  pose proof (inv_order _ _ _ _ _ _ Hi). pose proof (chain_le _ _ _ _ Hce).
  pose proof Hs as [Hseq _ ? Hsyn Hfin _ _ _]. cbn [fst snd find_seg] in *.
  rewrite Hseq, Hsyn, before_sq, sq_sub, u32_id by lia.
  replace (c <? o) with false by lia.
  destruct (Z.ltb_spec c L).
  - by replace (c - o <? seg_len s) with true by lia.
  - replace (c - o <? seg_len s) with false by lia. rewrite Hfin.
    by replace (e =? L + 1) with true by lia.
Qed.

(** A socket [t1] that differs from [t] in what has been read. *)
Lemma inv_read t t1 c c' n u l :
  stream_inv t c n u -> copied_seq t1 = sqn c' -> 0 <= c' ->
  (rcv_nxt t1, rcv_wup t1, rcv_wnd t1, out_of_order_queue t1) =
  (rcv_nxt t, rcv_wup t, rcv_wnd t, out_of_order_queue t) ->
  segs (receive_queue t1) l -> chain 0 c' l n -> stream_inv t1 c' n u.
Proof.
  intros [] ? ? [= Hn Hu Hwn Ho] ? Hc. pose proof (chain_le _ _ _ _ Hc).
  split; rewrite ?Hn, ?Hu, ?Hwn, ?Ho; try done; [lia|eauto].
Qed.
(** Between the copy of some bytes and what follows it. *)
Definition reading t (x : Z) (b : bool) w : Prop :=
  tune_ok (tp w) /\ win_ok (tp w) /\
  rx (tp w) = ((rcv_nxt t, x, rcv_wup t, rcv_wnd t), (receive_queue t, out_of_order_queue t),
               (tcp_state t, sock_done t, sk_err t, rcv_shutdown t, b), rcv_wscale t).
Lemma read_data w c n u k :
  alive w c n u ->
  wp (upd (fun t => t {{ copied_seq := u32 (copied_seq t + k) }})) w
    (fun _ w' => wp serval_tcp_rcv_space_adjust w'
       (fun _ w' => reading (tp w) (sqn (c + k)) (fin_found (tp w)) w')).
Proof.
  intros [Hw Hwin Hi]. apply wp_modS. wp_state w1.
  assert (Hw1 : tune_ok (tp w1)) by by destruct Hw.
  assert (Hf : frames rcv_ssthresh serval_tcp_rcv_space_adjust).
  { unfold serval_tcp_rcv_space_adjust, space_measured, tcp_time_stamp. frames_steps. }
  eapply wp_mono; [apply (frames_wp rcv_ssthresh); [exact Hf|by apply rcv_space_adjust_quiet]|].
  intros _ w2 [[Hrx ?] Hss]. split; [done|]. split; [by unfold win_ok in *; rewrite Hss|].
  rewrite Hrx. unfold rx. change (copied_seq (tp w1)) with (u32 (copied_seq (tp w) + k)).
  by rewrite (inv_copied _ _ _ _ _ _ Hi), sq_add.
Qed.
Lemma reading_partial t c c' n u w s q o e l b :
  stream_inv t c n u -> receive_queue t = s :: q -> seg_at St isn s (o, e) -> segs q l ->
  chain 0 c ((o, e) :: l) n -> c <= c' < e -> reading t (sqn c') b w ->
  alive w c' n u /\ fin_found (tp w) = b /\ state_of (tp w) = state_of t /\
  sk_err (tp w) = sk_err t.
Proof.
  intros Hi Hq Hs Hqs Hc ? (? & ? & Hrx).
  pose proof (inv_order _ _ _ _ _ _ Hi).
  injection Hrx as Hn Hcp Hu Hwn Hr Ho ? ? ? ? Hf ?. split; [split; [done|done|]|].
  - eapply (inv_read t (tp w) c c' n u ((o, e) :: l)); try done; [lia|congruence| |].
    + rewrite Hr, Hq. by constructor.
    + eapply chain_read; [done|lia..].
  - split; [exact Hf|]. unfold state_of. split; congruence.
Qed.
Lemma reading_eat t c n u w s q o e l b :
  stream_inv t c n u -> receive_queue t = s :: q -> segs q l ->
  chain 0 c ((o, e) :: l) n -> reading t (sqn e) b w ->
  wp (sk_eat_skb 0 s) w (fun _ w' => alive w' e n u /\ fin_found (tp w') = b /\
    state_of (tp w') = state_of t /\ sk_err (tp w') = sk_err t /\ receive_queue (tp w') = q).
Proof.
  intros Hi Hq Hqs (? & ? & Hc) (Hw & Hwin & Hrx).
  unfold sk_eat_skb. apply wp_bind, wp_modS. wp_state w1.
  assert (Hw1 : tune_ok (tp w1)) by by destruct Hw.
  assert (Hf : frames rcv_ssthresh (sock_rfree s)) by (unfold sock_rfree; frames_steps).
  eapply wp_mono; [apply (frames_wp rcv_ssthresh); [exact Hf|by apply sock_rfree_quiet]|].
  intros _ w2 [[Hrx2 ?] Hss].
  change (rx (tp w1)) with
    ((rcv_nxt (tp w), copied_seq (tp w), rcv_wup (tp w), rcv_wnd (tp w)),
     (delete 0%nat (receive_queue (tp w)), out_of_order_queue (tp w)),
     (tcp_state (tp w), sock_done (tp w), sk_err (tp w), rcv_shutdown (tp w), fin_found (tp w)),
     rcv_wscale (tp w)) in Hrx2.
  injection Hrx as Hn Hcp Hu Hwn Hr Ho ? ? ? ? ? ?.
  injection Hrx2 as Hn2 Hcp2 Hu2 Hwn2 Hr2 Ho2 ? ? ? ? ? ?.
  rewrite Hr, Hq in Hr2. cbn [delete list_delete] in Hr2.
  pose proof (inv_order _ _ _ _ _ _ Hi).
  split; [split; [done|unfold win_ok in *; by rewrite Hss|]|].
  - eapply (inv_read t (tp w2) c e n u l); try done; [congruence|lia|congruence|by rewrite Hr2].
  - unfold state_of. split_and!; congruence.
Qed.

(** What a read returns that finds nothing. *)
Definition idle_result t : Z :=
  if sock_done t then 0
  else if negb (sk_err t =? 0) then - sk_err t
  else if rcv_shutdown t then 0
  else if tcp_state t =? TCP_CLOSE then - TCP_ENOTCONN
  else - TCP_EAGAIN.
(** The outcome of the loop, from the state [w] with [c] bytes read, [copied]
    and [out] the count and the bytes of the call so far. *)
Definition loop_post w (c n u copied len : Z) (out : list Z) (r : Z * list Z) w' : Prop :=
  exists c', c <= c' /\ alive w' c' n u /\ fin_mark (tp w') c' /\ state_of (tp w') = state_of (tp w) /\
    r.2 = out ++ bytes St (upto c) (upto c') /\
    upto c' = Z.min (upto c + len) (upto n) /\
    r.1 = (if (copied + (upto c' - upto c) =? 0) && (0 <? len) then idle_result (tp w)
           else copied + (upto c' - upto c)).

Lemma no_event_ok w c n u copied :
  alive w c n u -> fin_mark (tp w) c ->
  wp (no_event copied) w (fun r w' => alive w' c n u /\ fin_mark (tp w') c /\
    state_of (tp w') = state_of (tp w) /\ r = (if copied =? 0 then idle_result (tp w) else copied)).
Proof.
  intros Ha Hm. unfold no_event, idle_result. apply wp_bind, wp_gets.
  destruct (copied =? 0); cbn [negb]; [|by apply wp_ret].
  destruct (sock_done (tp w)); [by apply wp_ret|].
  destruct (negb _); [|by repeat (wp_case; [by apply wp_ret|]); apply wp_ret].
  apply wp_bind, wp_modS, wp_ret. destruct Ha as [[] ? []]. by split; [split; [split|..|split]|].
Qed.
Lemma loop_done w c n u copied len out :
  alive w c n u -> fin_mark (tp w) c -> upto c = upto n -> 0 <= c -> 0 < len ->
  wp (r ← no_event copied; mret (r, out)) w (loop_post w c n u copied len out).
Proof.
  intros Ha Hm He ? ?. apply wp_bind. eapply wp_mono; [by apply no_event_ok|].
  intros r w' (? & ? & ? & ->). apply wp_ret. exists c. rewrite bytes_nil, app_nil_r, Z.sub_diag, Z.add_0_r.
  split_and!; try done; [lia|]. cbn [fst]. replace (0 <? len) with true by lia. by rewrite andb_true_r.
Qed.
(** Another turn, after [got] has been read. *)
Lemma loop_again fuel w w2 c c2 n u copied len seq out :
  (forall w c copied len seq out, alive w c n u -> n - c <= 2 ^ 29 + 1 -> fin_mark (tp w) c -> 0 <= c ->
    0 <= copied -> 0 < len -> (length (receive_queue (tp w)) < fuel)%nat ->
    wp (recv_loop fuel false seq copied len out) w (loop_post w c n u copied len out)) ->
  let got := upto c2 - upto c in
  n - c <= 2 ^ 29 + 1 -> 0 <= c <= c2 -> c2 <= n -> 0 <= copied -> 0 <= got <= len ->
  alive w2 c2 n u -> fin_mark (tp w2) c2 -> state_of (tp w2) = state_of (tp w) ->
  sk_err (tp w2) = sk_err (tp w) ->
  (got < len -> (length (receive_queue (tp w2)) < fuel)%nat) ->
  wp (if 0 <? len - got then recv_loop fuel false seq (copied + got) (len - got)
                               (out ++ bytes St (upto c) (upto c2))
      else mret (copied + got, out ++ bytes St (upto c) (upto c2))) w2
    (loop_post w c n u copied len out).
Proof.
  intros IH got ? ? ? ? ? Ha Hm Hst Herr Hf. assert (0 <= upto c <= upto c2) by (unfold upto in *; lia).
  destruct (Z.ltb_spec 0 (len - got)).
  - eapply wp_mono; [apply (IH w2 c2); try done; try lia; apply Hf; lia|].
    intros r w' (c' & ? & ? & ? & ? & Hr2 & Hup & Hr1). assert (upto c2 <= upto c') by (unfold upto in *; lia).
    exists c'. split_and!; try done; [lia|congruence| |lia|].
    + rewrite Hr2, <- app_assoc, bytes_app by lia. done.
    + rewrite Hr1. replace (0 <? len) with true by lia. replace (0 <? len - got) with true by lia.
      rewrite !andb_true_r. subst got.
      replace (copied + (upto c2 - upto c) + (upto c' - upto c2)) with (copied + (upto c' - upto c)) by lia.
      assert (idle_result (tp w2) = idle_result (tp w)) as ->; [|done].
      unfold idle_result, state_of in *. rewrite Herr. injection Hst as -> -> -> _. done.
  - apply wp_ret. exists c2. split_and!; try done; [lia| |].
    + subst got. unfold upto in *. lia.
    + cbn [fst]. subst got. destruct (Z.ltb_spec 0 len); [|by rewrite andb_false_r].
      by replace (copied + (upto c2 - upto c) =? 0) with false by lia.
Qed.

(** The FIN is next: [c2] is where it stands, and what it is read to is [e]. *)
Lemma loop_fin fuel w w1 c e n u copied len seq out s q o l (c2 := L) :
  (forall w c copied len seq out, alive w c n u -> n - c <= 2 ^ 29 + 1 -> fin_mark (tp w) c -> 0 <= c ->
    0 <= copied -> 0 < len -> (length (receive_queue (tp w)) < fuel)%nat ->
    wp (recv_loop fuel false seq copied len out) w (loop_post w c n u copied len out)) ->
  let got := upto c2 - upto c in
  n - c <= 2 ^ 29 + 1 -> 0 <= copied -> 0 <= got <= len -> e = L + 1 -> 0 <= c ->
  stream_inv (tp w) c n u -> receive_queue (tp w) = s :: q -> segs q l ->
  chain 0 c ((o, e) :: l) n -> (length q < fuel)%nat ->
  reading (tp w) (sqn c2) (fin_found (tp w)) w1 ->
  wp (upd (fun t => t {{ copied_seq := u32 (copied_seq t + 1) }});;
      upd (fun t => t {{ fin_found := true }});;
      sk_eat_skb 0 s;;
      (if 0 <? len - got then recv_loop fuel false seq (copied + got) (len - got)
                               (out ++ bytes St (upto c) (upto c2))
       else mret (copied + got, out ++ bytes St (upto c) (upto c2)))) w1
    (loop_post w c n u copied len out).
Proof.
  intros IH got ? ? ? He ? Hi Hq Hqs Hc Hf (Hw1 & Hwin1 & Hrx1). pose proof Hc as (? & ? & Hcl).
  apply wp_bind, wp_modS, wp_bind, wp_modS, wp_bind. wp_state w2.
  assert (Hrd : reading (tp w) (sqn e) true w2).
  { split; [by destruct Hw1|]. split; [done|]. injection Hrx1 as ? Hcp ? ? ? ? ? ? ? ? ? ?.
    unfold rx. change (copied_seq (tp w2)) with (u32 (copied_seq (tp w1) + 1)).
    change (fin_found (tp w2)) with true. rewrite Hcp, sq_add. replace (c2 + 1) with e by lia.
    change (rcv_nxt (tp w2)) with (rcv_nxt (tp w1)). change (rcv_wup (tp w2)) with (rcv_wup (tp w1)).
    change (rcv_wnd (tp w2)) with (rcv_wnd (tp w1)). change (receive_queue (tp w2)) with (receive_queue (tp w1)).
    change (out_of_order_queue (tp w2)) with (out_of_order_queue (tp w1)).
    change (tcp_state (tp w2)) with (tcp_state (tp w1)). change (sock_done (tp w2)) with (sock_done (tp w1)).
    change (sk_err (tp w2)) with (sk_err (tp w1)). change (rcv_shutdown (tp w2)) with (rcv_shutdown (tp w1)).
    change (rcv_wscale (tp w2)) with (rcv_wscale (tp w1)). congruence. }
  eapply wp_mono; [by eapply (reading_eat (tp w) c n u w2 s q o e l true)|].
  intros _ w3 (? & Hff & ? & ? & Hq3). pose proof (chain_le _ _ _ _ Hcl).
  assert (Hu : upto e = upto c2) by (unfold upto, c2; lia).
  subst got. rewrite <- Hu in *. apply loop_again; try done; try lia.
  - unfold fin_mark. rewrite Hff. lia.
  - by rewrite Hq3.
Qed.
Lemma recv_loop_ok fuel w c n u copied len seq out :
  alive w c n u -> n - c <= 2 ^ 29 + 1 -> fin_mark (tp w) c -> 0 <= c -> 0 <= copied -> 0 < len ->
  (length (receive_queue (tp w)) < fuel)%nat ->
  wp (recv_loop fuel false seq copied len out) w (loop_post w c n u copied len out).
Proof.
  revert w c copied len seq out. induction fuel as [|fuel IH]; intros w c copied len seq out Ha Hn Hm ? ? ? Hf; [lia|].
  pose proof (alive_inv _ _ _ _ _ _ Ha) as Hi. pose proof (inv_order _ _ _ _ _ _ Hi).
  pose proof (find_seg_head _ _ _ _ Hi Hn Hm) as Hfind.
  cbn [recv_loop]. apply wp_bind, wp_gets. cbv zeta. rewrite (inv_copied _ _ _ _ _ _ Hi).
  pose proof Hm as Hm'. unfold fin_mark in Hm'.
  destruct (fin_found (tp w)) eqn:Hff.
  { apply loop_done; try done; unfold upto; lia. }
  destruct (receive_queue (tp w)) as [|s q] eqn:Hq.
  { cbn [find_seg]. apply loop_done; try done. unfold upto; lia. }
  destruct Hfind as (o & e & l & Hs & Hqs & Hc & ->).
  pose proof (seg_at_len _ _ _ _ _ Hs) as Hl. pose proof Hs as [_ _ Hran _ Hfin _ _ _].
  cbn [fst snd length] in *. pose proof Hc as (? & ? & Hce). pose proof (chain_le _ _ _ _ Hce).
  destruct (Z.ltb_spec c L).
  2: { (* only the FIN is left of the segment *)
    assert (Hrd : reading (tp w) (sqn L) (fin_found (tp w)) w).
    { split; [apply Ha|]. split; [apply Ha|]. unfold rx. rewrite (inv_copied _ _ _ _ _ _ Hi).
      by replace c with L by lia. }
    assert (He : e = L + 1) by lia.
    assert (Hg : upto L - upto c = 0) by (unfold upto; lia).
    pose proof (loop_fin fuel w w c e n u copied len (u32 (seq + 1)) out s q o l) as Hlf.
    cbv zeta in Hlf. rewrite Hg, Z.add_0_r, Z.sub_0_r in Hlf.
    replace (upto L) with (upto c) in Hlf by lia. rewrite bytes_nil, app_nil_r in Hlf.
    apply Hlf; try done; lia. }
  set (used := Z.min (seg_len s - (c - o)) len).
  assert (Hup : upto (c + used) = c + used /\ upto c = c) by (unfold upto; lia).
  destruct Hup as [Hup Hupc].
  assert (Hbytes : take (Z.to_nat used) (drop (Z.to_nat (c - o)) (seg_data s)) =
                   bytes St (upto c) (upto (c + used))).
  { rewrite Hup, Hupc, (at_data _ _ _ _ Hs). cbn [fst snd].
    replace used with (c + used - c) at 1 by lia. apply bytes_sub; lia. }
  rewrite Hbytes. apply wp_bind. eapply wp_mono; [by apply (read_data w c n u used)|].
  intros ? w0 Hrd0. apply wp_bind. eapply wp_mono; [exact Hrd0|]. clear w0 Hrd0.
  intros ? w1 Hrd. cbv beta in Hrd.
  destruct (Z.ltb_spec (used + (c - o)) (seg_len s)).
  - destruct (reading_partial (tp w) c (c + used) n u w1 s q o e l (fin_found (tp w)))
      as (? & Hf1 & ? & ?); try done; try lia.
    pose proof (loop_again fuel w w1 c (c + used) n u copied len (u32 (seq + used)) out) as HA.
    cbv zeta in HA. replace (upto (c + used) - upto c) with used in HA by lia.
    apply HA; try done; try lia. unfold fin_mark. rewrite Hf1, Hff. lia.
  - rewrite Hfin. destruct (Z.eqb_spec e (L + 1)).
    + assert (HcL : c + used = L) by lia. rewrite HcL in *.
      pose proof (loop_fin fuel w w1 c e n u copied len (u32 (u32 (seq + used) + 1)) out s q o l) as HA.
      cbv zeta in HA. replace (upto L - upto c) with used in HA by lia.
      apply HA; try done; lia.
    + assert (Hce2 : c + used = e) by lia. rewrite Hce2 in *. apply wp_bind.
      eapply wp_mono; [by eapply (reading_eat (tp w) c n u w1 s q o e l)|].
      intros _ w2 (? & Hf2 & ? & ? & Hq2).
      pose proof (loop_again fuel w w2 c e n u copied len (u32 (seq + used)) out) as HA.
      cbv zeta in HA. replace (upto e - upto c) with used in HA by lia.
      apply HA; try done; try lia; [unfold fin_mark; rewrite Hf2, ?Hff; lia|rewrite Hq2; lia].
Qed.

(** ** The call *)
Definition read_post w (c n u len : Z) (r : Z * list Z) w' : Prop :=
  exists c' u', c <= c' /\ alive w' c' n u' /\ fin_mark (tp w') c' /\
    state_of (tp w') = state_of (tp w) /\
    r.2 = bytes St (upto c) (upto c') /\ upto c' = Z.min (upto c + len) (upto n) /\
    r.1 = (if upto c' =? upto c then idle_result (tp w) else upto c' - upto c).

Lemma recvmsg_ok w c n u len :
  alive w c n u -> n - c <= 2 ^ 29 + 1 -> fin_mark (tp w) c -> 0 < len -> tcp_state (tp w) <> TCP_LISTEN ->
  wp (serval_tcp_recvmsg len false) w (read_post w c n u len).
Proof.
  intros Ha ? ? ? ?. unfold serval_tcp_recvmsg. apply wp_bind, wp_gets.
  replace (tcp_state (tp w) =? TCP_LISTEN) with false by lia.
  pose proof (inv_order _ _ _ _ _ _ (alive_inv _ _ _ _ _ _ Ha)).
  apply wp_bind. eapply wp_mono; [apply (recv_loop_ok _ w c n u 0); try done; lia|].
  intros [r out] w1 (c' & ? & Ha1 & ? & Hst & Hout & ? & Hr). cbn [fst snd app] in *.
  apply wp_bind. eapply wp_mono; [by apply cleanup_rbuf_ok|].
  intros _ w2 (u' & Ha2 & Ho & _). apply wp_ret. exists c', u'.
  assert (fin_found (tp w2) = fin_found (tp w1)) by (unfold others in Ho; congruence).
  split_and!; try done.
  - unfold fin_mark in *. congruence.
  - unfold state_of, others in *. congruence.
  - cbn [fst]. rewrite Hr. replace (0 <? len) with true by lia. rewrite andb_true_r, Z.add_0_l.
    by destruct (Z.eqb_spec (upto c' - upto c) 0), (Z.eqb_spec (upto c') (upto c)); try lia.
Qed.
End RecvOk.
