(* ===== verification/TcpOpt.v ===== *)
(** * TCP options of a received segment (src/stack/serval_tcp_input.c lines
    2209-2362, include/serval/platform.h lines 142-193)

    The parser works on the bytes that follow the header, of which the first
    [length] are options; what comes after them is the data.  The machine is a
    little-endian one. *)
From S2P Require Import Prelude SalHdr TcpSock TcpOut.
Local Open Scope Z_scope.

Definition TCPOPT_TIMESTAMP : Z := 8.
Definition TCPOPT_COOKIE : Z := 253.
Definition TCPOLEN_TIMESTAMP : Z := 10.
Definition TCPOLEN_COOKIE_MIN : Z := 10.
Definition TCPOLEN_COOKIE_MAX : Z := 18.

Record serval_tcp_options_received := TcpOptionsReceived {
  saw_tstamp : bool; tstamp_ok : bool; rcv_tsval : Z; rcv_tsecr : Z;
  wscale_ok : bool; opt_snd_wscale : Z;
  user_mss : Z; mss_clamp : Z; cookie_plus : Z;
}.

(** [__get_unaligned_cpu16] and [__get_unaligned_cpu32] read the bytes in the
    order of the machine, and the functions named after the network's order
    call them. *)
Definition __get_unaligned_cpu16 (d : list Z) (off : nat) : outcome Z :=
  a ← rd8 d off; b ← rd8 d (S off); Ok (a + 256 * b).
Definition __get_unaligned_cpu32 (d : list Z) (off : nat) : outcome Z :=
  a ← __get_unaligned_cpu16 d off; b ← __get_unaligned_cpu16 d (S (S off)); Ok (a + 65536 * b).
Definition get_unaligned_be16 := __get_unaligned_cpu16.
Definition get_unaligned_be32 := __get_unaligned_cpu32.

Section Opt.
Context `{TcpEnv}.
Implicit Types (rx : serval_tcp_options_received) (d : list Z).

Definition take_mss (in_mss : Z) rx : serval_tcp_options_received :=
  if in_mss =? 0 then rx
  else rx {{ mss_clamp := if negb (user_mss rx =? 0) && (user_mss rx <? in_mss)
                          then user_mss rx else in_mss }}.
(** One option; [off] is behind its size. *)
Definition parse_option d (off : nat) (opcode opsize : Z) (syn estab : bool) rx
  : outcome serval_tcp_options_received :=
  if opcode =? TCPOPT_MSS then
    if (opsize =? TCPOLEN_MSS) && syn && negb estab
    then in_mss ← get_unaligned_be16 d off; Ok (take_mss in_mss rx) else Ok rx
  else if opcode =? TCPOPT_WINDOW then
    if (opsize =? TCPOLEN_WINDOW) && syn && negb estab && window_scaling
    then ws ← rd8 d off; Ok (rx {{ wscale_ok := true; opt_snd_wscale := Z.min ws 14 }}) else Ok rx
  else if opcode =? TCPOPT_TIMESTAMP then
    if (opsize =? TCPOLEN_TIMESTAMP) &&
       ((estab && tstamp_ok rx) || (negb estab && tcp_timestamps))
    then
      tsval ← get_unaligned_be32 d off; tsecr ← get_unaligned_be32 d (4 + off);
      Ok (rx {{ saw_tstamp := true; rcv_tsval := tsval; rcv_tsecr := tsecr }})
    else Ok rx
  else if opcode =? TCPOPT_COOKIE then
    if (TCPOLEN_COOKIE_MIN <=? opsize) && (opsize <=? TCPOLEN_COOKIE_MAX) && Z.even opsize
    then Ok (rx {{ cookie_plus := opsize }}) else Ok rx
  else Ok rx.
Fixpoint parse_loop (fuel : nat) d (off : nat) (length : Z) (syn estab : bool) rx
  : outcome serval_tcp_options_received :=
  if length <=? 0 then Ok rx
  else
    match fuel with
    | O => NoFuel
    | S fuel =>
        opcode ← rd8 d off;
        if opcode =? TCPOPT_EOL then Ok rx
        else if opcode =? TCPOPT_NOP then parse_loop fuel d (S off) (length - 1) syn estab rx
        else
          opsize ← rd8 d (S off);
          if (opsize <? 2) || (length <? opsize) then Ok rx
          else
            rx ← parse_option d (S (S off)) opcode opsize syn estab rx;
            parse_loop fuel d (Z.to_nat opsize + off) (length - opsize) syn estab rx
    end.
Definition serval_tcp_parse_options (doff : Z) d (syn estab : bool) rx
  : outcome serval_tcp_options_received :=
  let length := 4 * doff - TCP_HLEN in
  parse_loop (Z.to_nat length) d 0 length syn estab (rx {{ saw_tstamp := false }}).

(** The option as other stacks write it, compared as a word. *)
Definition serval_tcp_parse_aligned_timestamp d rx
  : outcome (serval_tcp_options_received * bool) :=
  w ← rd_bytes d 0 4;
  if bool_decide (w = [TCPOPT_NOP; TCPOPT_NOP; TCPOPT_TIMESTAMP; TCPOLEN_TIMESTAMP]) then
    tsval ← rd_bytes d 4 4; tsecr ← rd_bytes d 8 4;
    Ok (rx {{ saw_tstamp := true; rcv_tsval := of_be32 tsval; rcv_tsecr := of_be32 tsecr }}, true)
  else Ok (rx, false).

(** ** Theorems *)

(** The parser ends, and reads at most one byte behind the options. *)
Lemma opt_rd8_ok d off : (off < length d)%nat -> exists b, rd8 d off = Ok b.
Proof. intros [b Hb]%lookup_lt_is_Some. exists b. unfold rd8. by rewrite Hb. Qed.
Lemma cpu16_ok d off : (off + 1 < length d)%nat -> exists b, __get_unaligned_cpu16 d off = Ok b.
Proof.
  intros. unfold __get_unaligned_cpu16. destruct (opt_rd8_ok d off) as [a ->]; [lia|]. simpl.
  destruct (opt_rd8_ok d (S off)) as [b ->]; [lia|]. simpl. eauto.
Qed.
Lemma cpu32_ok d off : (off + 3 < length d)%nat -> exists b, __get_unaligned_cpu32 d off = Ok b.
Proof.
  intros. unfold __get_unaligned_cpu32. destruct (cpu16_ok d off) as [a ->]; [lia|]. simpl.
  destruct (cpu16_ok d (S (S off))) as [b ->]; [lia|]. simpl. eauto.
Qed.
Lemma parse_option_ok d off opcode opsize syn estab rx :
  2 <= opsize -> (Z.of_nat off + opsize - 2 <= Z.of_nat (length d)) ->
  exists rx', parse_option d off opcode opsize syn estab rx = Ok rx'.
Proof.
  intros. unfold parse_option, get_unaligned_be16, get_unaligned_be32.
  destruct (opcode =? TCPOPT_MSS).
  { destruct (Z.eqb_spec opsize TCPOLEN_MSS) as [->|]; [|by eauto]. unfold TCPOLEN_MSS in *.
    destruct (cpu16_ok d off) as [m ->]; [lia|]. destruct (_ && _); simpl; eauto. }
  destruct (opcode =? TCPOPT_WINDOW).
  { destruct (Z.eqb_spec opsize TCPOLEN_WINDOW) as [->|]; [|by eauto]. unfold TCPOLEN_WINDOW in *.
    destruct (opt_rd8_ok d off) as [m ->]; [lia|]. destruct (_ && _); simpl; eauto. }
  destruct (opcode =? TCPOPT_TIMESTAMP).
  { destruct (Z.eqb_spec opsize TCPOLEN_TIMESTAMP) as [->|]; [|by eauto]. unfold TCPOLEN_TIMESTAMP in *.
    destruct (cpu32_ok d off) as [m ->]; [lia|]. destruct (cpu32_ok d (4 + off)) as [m' Hm']; [lia|].
    destruct (_ && _); [|by eauto]. simpl in *. rewrite Hm'. simpl. eauto. }
  repeat case_match; eauto.
Qed.
Lemma parse_loop_ok fuel d off len syn estab rx :
  len <= Z.of_nat fuel -> Z.of_nat off + len < Z.of_nat (length d) ->
  Forall (fun b => 0 <= b) d ->
  exists rx', parse_loop fuel d off len syn estab rx = Ok rx'.
Proof.
  intros Hf Hl Hd. revert off len rx Hf Hl. induction fuel as [|fuel IH]; intros off len rx Hf Hl; simpl;
    (destruct (Z.leb_spec len 0); [by eauto|]); [lia|].
  destruct (opt_rd8_ok d off) as [op ->]; [lia|]. simpl.
  destruct (op =? TCPOPT_EOL); [by eauto|].
  destruct (op =? TCPOPT_NOP); [apply IH; lia|].
  destruct (opt_rd8_ok d (S off)) as [sz ->]; [lia|]. simpl.
  destruct (Z.ltb_spec sz 2), (Z.ltb_spec len sz); simpl; eauto.
  destruct (parse_option_ok d (S (S off)) op sz syn estab rx) as [rx' ->]; [lia|lia|]. simpl.
  apply IH; lia.
Qed.

(** The two words that options take. *)
Lemma lor_low k m n : 0 <= n -> 0 <= m < 2 ^ n -> Z.lor (k * 2 ^ n) m = k * 2 ^ n + m.
Proof.
  intros. assert (Hd : Z.land (k * 2 ^ n) m = 0).
  { apply Z.bits_inj'. intros i ?. rewrite Z.land_spec, Z.bits_0.
    destruct (decide (i < n)); [by rewrite Z.mul_pow2_bits_low|].
    rewrite <- (Z.mod_small m (2 ^ n)), Z.mod_pow2_bits_high, andb_false_r by lia. done. }
  by rewrite Z.add_nocarry_lxor, Z.lxor_lor.
Qed.
Lemma be32_bytes (a b c d : Z) :
  0 <= a < 256 -> 0 <= b < 256 -> 0 <= c < 256 -> 0 <= d < 256 ->
  be32 (((a * 256 + b) * 256 + c) * 256 + d) = [a; b; c; d].
Proof.
  intros. unfold be32. change 255 with (Z.ones 8). rewrite !Z.land_ones, !Z.shiftr_div_pow2 by lia.
  change (2 ^ 24) with 16777216. change (2 ^ 16) with 65536. change (2 ^ 8) with 256.
  repeat f_equal; Z.to_euclidean_division_equations; lia.
Qed.
Lemma mss_word m : 0 <= m < 2 ^ 16 ->
  be32 (Z.lor (Z.lor (Z.shiftl TCPOPT_MSS 24) (Z.shiftl TCPOLEN_MSS 16)) m) =
  [TCPOPT_MSS; TCPOLEN_MSS; m / 256; m mod 256].
Proof.
  intros Hm. change (Z.lor (Z.shiftl TCPOPT_MSS 24) (Z.shiftl TCPOLEN_MSS 16)) with (516 * 2 ^ 16).
  rewrite lor_low by lia. rewrite <- be32_bytes by (unfold TCPOPT_MSS, TCPOLEN_MSS; Z.to_euclidean_division_equations; lia).
  f_equal. unfold TCPOPT_MSS, TCPOLEN_MSS. pose proof (Z_div_mod_eq_full m 256). lia.
Qed.
Lemma wscale_word ws : 0 <= ws < 256 ->
  be32 (Z.lor (Z.lor (Z.lor (Z.shiftl TCPOPT_NOP 24) (Z.shiftl TCPOPT_WINDOW 16))
                     (Z.shiftl TCPOLEN_WINDOW 8)) ws) = [TCPOPT_NOP; TCPOPT_WINDOW; TCPOLEN_WINDOW; ws].
Proof.
  intros Hw. change (Z.lor (Z.lor _ _) (Z.shiftl TCPOLEN_WINDOW 8)) with (66307 * 2 ^ 8).
  rewrite lor_low by lia. rewrite <- be32_bytes by (unfold TCPOPT_NOP, TCPOPT_WINDOW, TCPOLEN_WINDOW; lia).
  f_equal.
Qed.
(** The bytes of a 16-bit value exchanged. *)
Definition swap16 (m : Z) : Z := m / 256 + 256 * (m mod 256).

End Opt.

(** C28 (roundtrip): parsing the options of a SYN that this stack wrote gives back
    the window scale, but the segment size with its two bytes exchanged: the
    functions that read big-endian values in the user-level build read them in
    the order of the machine. *)
Theorem syn_options_parsed `{H : TcpEnv} t rx rest :
  0 < advmss t < 2 ^ 16 -> 0 <= rcv_wscale t <= 14 -> window_scaling = true -> user_mss rx = 0 ->
  let '(o, size) := serval_tcp_syn_options t in
  serval_tcp_parse_options ((size + TCP_HLEN) / 4) (serval_tcp_options_write o ++ rest) true false rx =
  Ok (rx {{ saw_tstamp := false; mss_clamp := swap16 (advmss t);
            wscale_ok := true; opt_snd_wscale := rcv_wscale t }}).
Proof.
  intros Hm Hws Hsc Hu. unfold serval_tcp_syn_options, serval_tcp_advertise_mss. rewrite Hsc.
  unfold u16. rewrite Z.mod_small by lia. set (o := add_wscale _ _).
  assert (Ho : serval_tcp_options_write o =
    [TCPOPT_MSS; TCPOLEN_MSS; advmss t / 256; advmss t mod 256;
     TCPOPT_NOP; TCPOPT_WINDOW; TCPOLEN_WINDOW; rcv_wscale t]).
  { unfold serval_tcp_options_write. change (opt_mss o) with (advmss t).
    change (opt_ws o) with (rcv_wscale t). replace (advmss t =? 0) with false by lia.
    replace (Z.land OPTION_WSCALE (opt_options o) =? 0) with false by done.
    rewrite mss_word, wscale_word by lia. done. }
  rewrite Ho. clearbody o. clear Ho o.
  assert (Hsw : (advmss t / 256 + 256 * (advmss t mod 256) =? 0) = false).
  { apply Z.eqb_neq. pose proof (Z_div_mod_eq_full (advmss t) 256).
    pose proof (Z.mod_pos_bound (advmss t) 256). lia. }
  unfold serval_tcp_parse_options.
  lazymatch goal with |- context [4 * ?x - TCP_HLEN] => change (4 * x - TCP_HLEN) with 8 end.
  set (d := _ ++ rest). set (rx1 := rx {{ saw_tstamp := false }}).
  set (m := advmss t / 256 + 256 * (advmss t mod 256)) in *.
  transitivity (parse_loop 7 d 4 4 true false (take_mss m rx1)); [reflexivity|].
  assert (Htm : take_mss m rx1 = rx1 {{ mss_clamp := m }}).
  { unfold take_mss. rewrite Hsw. change (user_mss rx1) with (user_mss rx). by rewrite Hu. }
  rewrite Htm. transitivity (parse_loop 6 d 5 3 true false (rx1 {{ mss_clamp := m }})); [reflexivity|].
  rewrite <- (Z.min_l (rcv_wscale t) 14) by lia. destruct H. cbn in Hsc. subst. reflexivity.
Qed.
