(* ===== verification/TcpClaims.v ===== *)
(** * Reliable delivery

    A socket receives a stream: segments of it arrive in any order, any number
    of times and in any cut, and the user reads.  What has been read is at every
    time a prefix of the stream, no step fails, a read returns all there is, and
    a segment that continues what has been received is taken if the window is
    open and there is memory. *)
From S2P Require Import Prelude TcpSock TcpQueue TcpFrame TcpQueueOk TcpStream TcpOut TcpRecv TcpRecvOk TcpOpt.
Local Open Scope Z_scope.

(** A connection on which nothing has been received yet; the first byte of the
    stream has the sequence number [isn]. *)
Record fresh (isn : Z) (w : tcpw) : Prop := {
  fresh_tune : tune_ok (tp w);
  fresh_seq : rcv_nxt (tp w) = sq isn 0 /\ copied_seq (tp w) = sq isn 0 /\ rcv_wup (tp w) = sq isn 0;
  fresh_wnd : 0 <= rcv_wnd (tp w) <= 2 ^ 30;
  fresh_queues : receive_queue (tp w) = [] /\ out_of_order_queue (tp w) = [];
  fresh_fin : fin_found (tp w) = false;
  fresh_state : tcp_state (tp w) <> TCP_LISTEN;
}.
(** The buffer and the window are below half a gigabyte; the default limits on
    buffers are four megabytes. *)
Definition in_limits (w : tcpw) : Prop :=
  Z.of_nat (total_len (receive_queue (tp w))) < 2 ^ 29 /\ rcv_ssthresh (tp w) <= 2 ^ 29.
(** How many offsets of the stream have been received in order, given what has
    been read. *)
Definition received (w : tcpw) (out : list Z) : Z :=
  Z.of_nat (length out) + (if fin_found (tp w) then 1 else 0) +
  u32 (rcv_nxt (tp w) - copied_seq (tp w)).

Section Session.
Context `{EOk : TcpEnvOk} (St : list Z) (isn : Z) (w0 : tcpw).
Implicit Types (w : tcpw) (out : list Z).

(** A conforming arrival: the segment [o, e) of the stream, not more than a
    quarter of the sequence space away from what is expected. *)
Definition may_arrive w out s (o e : Z) : Prop :=
  arriving St isn s (o, e) /\ - 2 ^ 30 < o - received w out < 2 ^ 30 /\ in_limits w.

(** The states a session reaches, with what has been read; between the calls
    the clock and the environment may change. *)
Inductive session : tcpw -> list Z -> Prop :=
| session_start : session w0 []
| session_arrive w out s o e w' :
    session w out -> may_arrive w out s o e ->
    serval_tcp_data_queue s w = Ok (tt, w') -> session w' out
| session_read w out len r got w' :
    session w out -> in_limits w -> 0 < len ->
    serval_tcp_recvmsg len false w = Ok (r, got, w') -> session w' (out ++ got)
| session_env w out w' :
    session w out -> tp w' = tp w -> session w' out.

Definition good w out : Prop :=
  exists c n u, tune_ok (tp w) /\ stream_inv St isn (tp w) c n u /\ fin_mark St (tp w) c /\
    out = bytes St 0 (upto St c) /\ tcp_state (tp w) <> TCP_LISTEN.

Lemma limits_near w c n u :
  in_limits w -> stream_inv St isn (tp w) c n u -> n - c <= 2 ^ 29 + 1.
Proof.
  intros [? _] []. destruct inv_rcv as (l & Hs & Hc). pose proof (segs_total _ _ _ _ _ _ _ Hs Hc).
  pose proof (chain_le _ _ _ _ Hc). lia.
Qed.
Lemma received_eq w c n u :
  stream_inv St isn (tp w) c n u -> fin_mark St (tp w) c -> in_limits w ->
  received w (bytes St 0 (upto St c)) = n.
Proof.
  intros Hi Hm Hl. pose proof (limits_near _ _ _ _ Hl Hi). destruct Hi. unfold received.
  rewrite bytes_length, inv_nxt, inv_copied, sq_sub, u32_id by (unfold upto; lia).
  rewrite Hm. unfold upto. destruct (Z.eqb_spec c (Z.of_nat (length St) + 1)); lia.
Qed.
Lemma arrive_run w out s o e :
  good w out -> may_arrive w out s o e ->
  exists w', serval_tcp_data_queue s w = Ok (tt, w') /\ good w' out /\
    (o <= received w out < e -> 0 < serval_tcp_receive_window (tp w) -> room w s ->
     in_limits w' -> e <= received w' out).
Proof.
  intros (c & n & u & Hw & Hi & Hm & -> & Hst) (Harr & Hnear & Hlim).
  rewrite (received_eq _ _ _ _ Hi Hm Hlim) in *.
  pose proof (data_queue_ok St isn s o e c n u w Hw Hi (limits_near _ _ _ _ Hlim Hi) Harr Hnear) as Hq.
  apply wp_run in Hq as ([] & w' & Hrun & n' & ? & Hw' & Hi' & Hrest & Hpro).
  assert (Hm' : fin_mark St (tp w') c) by (unfold fin_mark, rest in *; congruence).
  exists w'. split_and!; [done| |].
  - exists c, n', u. split_and!; try done. unfold rest in Hrest. congruence.
  - intros Ho Hwin Hroom Hlim'. rewrite (received_eq _ _ _ _ Hi' Hm' Hlim').
    rewrite (receive_window_eq _ _ _ _ _ _ Hi) in Hwin. apply Hpro; [done|lia|done].
Qed.
Lemma read_run w out len :
  good w out -> in_limits w -> 0 < len ->
  exists r got w', serval_tcp_recvmsg len false w = Ok (r, got, w') /\ good w' (out ++ got) /\
    out ++ got = take (Z.to_nat (Z.min (Z.of_nat (length out) + len) (received w out))) St /\
    r = (if bool_decide (got = []) then idle_result (tp w) else Z.of_nat (length got)).
Proof.
  intros (c & n & u & Hw & Hi & Hm & -> & Hst) Hlim ?. rewrite (received_eq _ _ _ _ Hi Hm Hlim).
  pose proof (inv_order _ _ _ _ _ _ Hi).
  assert (Ha : alive St isn w c n u) by (split; [done|apply Hlim|done]).
  pose proof (recvmsg_ok St isn w c n u len Ha (limits_near _ _ _ _ Hlim Hi) Hm ltac:(done) Hst) as Hr.
  apply wp_run in Hr as ([r got] & w' & Hrun & c' & u' & ? & [] & Hm' & Hst' & Hgot & Hup & Hr).
  cbn [fst snd] in *. assert (0 <= upto St c <= upto St c') by (unfold upto in *; lia).
  assert (Hout : bytes St 0 (upto St c) ++ got = bytes St 0 (upto St c')).
  { rewrite Hgot. apply bytes_app; lia. }
  assert (Hlen : Z.of_nat (length got) = upto St c' - upto St c).
  { rewrite Hgot, bytes_length; unfold upto in *; lia. }
  exists r, got, w'. split_and!; [done| | |].
  - exists c', n, u'. rewrite Hout. split_and!; try done. unfold state_of in Hst'. congruence.
  - rewrite Hout, bytes_length by (unfold upto in *; lia). unfold bytes.
    rewrite drop_0, Z.sub_0_r, Hup. unfold upto in *.
    destruct (decide (Z.min (Z.min c (Z.of_nat (length St)) + len) n <= Z.of_nat (length St)));
      [f_equal; lia|].
    rewrite !take_ge by lia. done.
  - rewrite Hr, Hlen. destruct (Z.eqb_spec (upto St c') (upto St c)).
    + rewrite bool_decide_true; [done|]. apply nil_length_inv. lia.
    + rewrite bool_decide_false; [done|]. intros ->. simpl in Hlen. lia.
Qed.
Lemma session_good w out : fresh isn w0 -> session w out -> good w out.
Proof.
  intros [Hw (Hn & Hc & Hu) Hwn [Hr Ho] Hf Hst]. induction 1 as [|w out s o e w' _ IH Hm Hrun|w out len r got w' _ IH Hl Hlen Hrun|w out w' _ IH Htp].
  - exists 0, 0, 0. split_and!; try done.
    + split; rewrite ?Hr, ?Ho; try done; [lia..|by exists []|by exists []].
    + unfold fin_mark. rewrite Hf. symmetry. apply Z.eqb_neq. lia.
    + unfold upto. rewrite Z.min_l by lia. by rewrite bytes_nil.
  - destruct (arrive_run _ _ _ _ _ IH Hm) as (w1 & Hrun1 & ? & _). congruence.
  - destruct (read_run _ _ _ IH Hl Hlen) as (? & ? & w1 & Hrun1 & ? & _). congruence.
  - unfold good. by rewrite Htp.
Qed.

(** C5 (safety): over TCP, what a socket hands to its user is at every time a
    prefix of the stream that the peer sent, however its segments are cut,
    reordered, repeated or lost, whatever allocations fail, and however the
    queues are collapsed or pruned; and no further conforming segment and no
    further read makes the stack fault or loop for ever. *)
Theorem tcp_delivers_stream w out :
  fresh isn w0 -> session w out ->
  (exists k, out = take k St) /\
  (forall s o e, may_arrive w out s o e -> exists w', serval_tcp_data_queue s w = Ok (tt, w')) /\
  (forall len, in_limits w -> 0 < len ->
    exists r got w', serval_tcp_recvmsg len false w = Ok (r, got, w')).
Proof.
  intros Hf Hs. apply session_good in Hs as Hg; [|done]. split_and!.
  - destruct Hg as (c & n & u & _ & _ & _ & -> & _). unfold bytes. rewrite drop_0. eauto.
  - intros s o e Hm. destruct (arrive_run _ _ _ _ _ Hg Hm) as (w' & ? & _). eauto.
  - intros len Hl ?. destruct (read_run _ _ _ Hg Hl ltac:(done)) as (r & got & w' & ? & _). eauto.
Qed.
(** C12 (functional): a read that may not wait returns everything that has been
    received in order, up to the size of its buffer, and nothing twice; if that
    is nothing, it returns 0 when the SAL has ended the connection; otherwise,
    if an error is pending, that error, even when the socket is also shut down;
    otherwise 0 if the socket is shut down for reading, ENOTCONN if it is closed,
    and else EAGAIN: the FIN of the peer's TCP alone does not end the stream.
    The buffer and the window are below half a gigabyte. *)
Theorem tcp_read_returns_received w out len :
  fresh isn w0 -> session w out -> in_limits w -> 0 < len ->
  exists r got w', serval_tcp_recvmsg len false w = Ok (r, got, w') /\
    out ++ got = take (Z.to_nat (Z.min (Z.of_nat (length out) + len) (received w out))) St /\
    r = (if bool_decide (got = []) then idle_result (tp w) else Z.of_nat (length got)).
Proof.
  intros Hf Hs Hl ?. apply session_good in Hs as Hg; [|done].
  destruct (read_run _ _ _ Hg Hl ltac:(done)) as (r & got & w' & ? & _ & ? & ?).
  exists r, got, w'. by split_and!.
Qed.
(** C13 (liveness): when the segment that holds the next byte arrives while the
    window is open and there is memory, it is taken: the socket has then
    received the stream at least up to the end of that segment. *)
Theorem tcp_next_segment_taken w out s o e :
  fresh isn w0 -> session w out -> may_arrive w out s o e ->
  o <= received w out < e -> 0 < serval_tcp_receive_window (tp w) -> room w s ->
  exists w', serval_tcp_data_queue s w = Ok (tt, w') /\ session w' out /\
    (in_limits w' -> e <= received w' out).
Proof.
  intros Hf Hs Hm Ho Hwin Hroom. apply session_good in Hs as Hg; [|done].
  destruct (arrive_run _ _ _ _ _ Hg Hm) as (w' & Hrun & _ & Hpro).
  exists w'. split_and!; [done|by eapply session_arrive|auto].
Qed.
(** C15 (bounds): choosing the window for a header never takes back what has been
    offered, the value fits its 16 bits, and scaled back it is the window the
    socket accepts, as far as the header can express it. *)
Theorem window_never_shrinks w out :
  fresh isn w0 -> session w out -> rcv_ssthresh (tp w) <= 2 ^ 29 ->
  exists adv w', serval_tcp_select_window w = Ok (adv, w') /\
    serval_tcp_receive_window (tp w) <= serval_tcp_receive_window (tp w') /\
    rcv_wup (tp w') = rcv_nxt (tp w) /\ rcv_nxt (tp w') = rcv_nxt (tp w) /\
    0 <= adv <= 65535 /\
    adv * 2 ^ rcv_wscale (tp w) = Z.min (serval_tcp_receive_window (tp w')) (win_cap (tp w)).
Proof.
  intros Hf Hs Hss. apply session_good in Hs as (c & n & u & Hw & Hi & _ & _ & _); [|done].
  pose proof (select_window_spec St isn w c n u (Build_alive _ _ _ _ _ _ Hw Hss Hi)) as Hsel.
  apply wp_run in Hsel as (adv & w' & Hrun & [_ _ Hi'] & _ & ? & ? & Hadv).
  exists adv, w'. pose proof (inv_wnd _ _ _ _ _ _ Hi). pose proof (inv_wnd _ _ _ _ _ _ Hi').
  rewrite (receive_window_eq _ _ _ _ _ _ Hi), (receive_window_eq _ _ _ _ _ _ Hi').
  rewrite (inv_nxt _ _ _ _ _ _ Hi), (inv_nxt _ _ _ _ _ _ Hi'), (inv_wup _ _ _ _ _ _ Hi').
  split_and!; try done; [lia..|]. rewrite Hadv. f_equal. lia.
Qed.
End Session.

(** ** A small session, across the wrap of the sequence numbers *)
Module Demo.
#[local] Instance denv : TcpEnv := {|
  adv_win_scale := 2;
  tcp_rmem0 := 4096; tcp_rmem2 := 4194304;
  tcp_mem0 := 1000; tcp_mem1 := 2000; tcp_mem2 := 3000;
  moderate_rcvbuf := true; workaround_signed_windows := false;
  window_scaling := true; checksum_mode := true; tcp_timestamps := false; slow_start_after_idle := true;
  tcp_abc := 0; max_ssthresh := 0;
  max_tcp_header := 128; sizeof_sk_buff := 256; sizeof_shared_info := 320;
|}.
#[local] Instance denv_ok : TcpEnvOk denv.
Proof. by split. Qed.

Definition stream : list Z := [72; 101; 108; 108; 111; 44; 32; 119; 111; 114; 108; 100].
Definition isn0 : Z := 4294967290.
Definition sock0 : tcp_sock := {|
  rcv_nxt := isn0; copied_seq := isn0; rcv_wup := isn0; rcv_wnd := 5840; fin_found := false;
  receive_queue := []; out_of_order_queue := [];
  sk_rmem_alloc := 0; sk_rcvbuf := 87380; sk_forward_alloc := 0; rcvbuf_lock := false;
  rcv_ssthresh := 5840; window_clamp := 65535; advmss := 1460;
  rcv_wscale := 0; snd_wscale := 0; tcp_header_len := 20; pred_flags := 0;
  rre_rtt := 0; rre_seq := 0; rre_time := 0; rqs_space := 5840; rqs_seq := isn0; rqs_time := 0;
  ack := {| ack_pending := 0; quick := 0; pingpong := 0; blocked := 0; ato := 0; ack_timeout := 0;
            lrcvtime := 0; last_seg_size := 0; rcv_mss := 536; delack_timer := None |};
  cong := {| snd_una := 1; snd_nxt := 1; snd_wnd := 5840; snd_wl1 := 0; max_window := 5840;
             packets_out := 0; retrans_out := 0; lost_out := 0; sacked_out := 0;
             snd_ssthresh := 2147483647; snd_cwnd := 2; snd_cwnd_cnt := 0;
             snd_cwnd_clamp := 4294967295; snd_cwnd_used := 0; snd_cwnd_stamp := 0;
             bytes_acked := 0; mss_cache := 1460; reordering := 3; high_seq := 0;
             prior_ssthresh := 0; undo_marker := 0; undo_retrans := 0; ca_state := 0;
             retrans_stamp := 0; srtt := 0; mdev := 300; mdev_max := 0; rttvar := 0; rtt_seq := 0;
             rto := 300; backoff := 0; lsndtime := 0; snd_up := 1 |};
  tcp_state := 1; sock_dead := false; sock_done := false; sk_err := 0; rcv_shutdown := false;
  inet_saddr := 16777226; inet_daddr := 33554442;
|}.
Definition w0 : tcpw := {|
  tp := sock0; jiffies := 1000; memory_allocated := 0; memory_pressure := false;
  allocs := []; xmit_results := []; sent := []; wakeups := 0 |}.

(** The segment [o, e) as it arrives, with a header of 20 bytes. *)
Definition piece (o e : Z) : tcp_seg := {|
  seg_seq := sq isn0 o; seg_end := sq isn0 e;
  th_flags := if e =? 13 then 25 else 24; th_doff := 5;
  seg_data := repeat 0 20 ++ bytes stream o (Z.min e 12);
  seg_headroom := 100; seg_truesize := 600; gso_size := 0 |}.
Lemma piece_arriving o e : 0 <= o < e -> e <= 13 -> arriving stream isn0 (piece o e) (o, e).
Proof.
  intros. split.
  - unfold seg_len, piece. simpl. lia.
  - assert (Hd : seg_data (pulled (piece o e)) = bytes stream o (Z.min e 12)) by done.
    split; try done; cbn [fst snd].
    + unfold th_syn. change (th_flags (pulled (piece o e))) with (if e =? 13 then 25 else 24).
      by destruct (e =? 13).
    + unfold th_fin. change (th_flags (pulled (piece o e))) with (if e =? 13 then 25 else 24).
      change (Z.of_nat (length stream) + 1) with 13. by destruct (e =? 13).
    + split; try done. unfold seg_len. rewrite Hd. unfold bytes.
      rewrite length_take, length_drop. simpl (length stream). lia.
Qed.
Definition step_to (s : tcp_seg) (w : tcpw) : tcpw :=
  match serval_tcp_data_queue s w with Ok (_, w') => w' | _ => w end.
(** Bytes 5 to 8 come first, then the first six, then the rest with the FIN. *)
Definition w1 : tcpw := step_to (piece 5 9) w0.
Definition w2 : tcpw := step_to (piece 0 6) w1.
Definition w3 : tcpw := step_to (piece 8 13) w2.

Lemma fresh0 : fresh isn0 w0.
Proof. by split. Qed.
Lemma session1 : session stream isn0 w0 w1 [].
Proof.
  eapply (session_arrive _ _ _ w0 [] (piece 5 9) 5 9); [constructor| |by vm_compute].
  split; [by apply piece_arriving|]. split; [by vm_compute|]. split; by vm_compute.
Qed.
Lemma session2 : session stream isn0 w0 w2 [].
Proof.
  eapply (session_arrive _ _ _ w1 [] (piece 0 6) 0 6); [apply session1| |by vm_compute].
  split; [by apply piece_arriving|]. split; [by vm_compute|]. split; by vm_compute.
Qed.
Lemma session3 : session stream isn0 w0 w3 [].
Proof.
  eapply (session_arrive _ _ _ w2 [] (piece 8 13) 8 13); [apply session2| |by vm_compute].
  split; [by apply piece_arriving|]. split; [by vm_compute|]. split; by vm_compute.
Qed.

Lemma tcp_delivers_stream_witness :
  fresh isn0 w0 /\ session stream isn0 w0 w3 [] /\
  (forall len, in_limits w3 -> 0 < len ->
    exists r got w', serval_tcp_recvmsg len false w3 = Ok (r, got, w')).
Proof.
  split; [apply fresh0|split; [apply session3|]].
  apply (tcp_delivers_stream stream isn0 w0 w3 [] fresh0 session3).
Defined.
Lemma tcp_read_returns_received_witness :
  exists r got w', serval_tcp_recvmsg 100 false w3 = Ok (r, got, w') /\ got = stream /\ r = 12.
Proof.
  destruct (tcp_read_returns_received stream isn0 w0 w3 [] 100 fresh0 session3)
    as (r & got & w' & Hrun & Hgot & Hr); [split; by vm_compute|done|].
  exists r, got, w'. rewrite app_nil_l in Hgot. split; [exact Hrun|].
  assert (Hs : got = stream) by (rewrite Hgot; vm_compute; reflexivity).
  split; [exact Hs|]. rewrite Hr, Hs. reflexivity.
Defined.
Lemma tcp_next_segment_taken_witness :
  exists w', serval_tcp_data_queue (piece 0 6) w1 = Ok (tt, w') /\ session stream isn0 w0 w' [] /\
    (in_limits w' -> 6 <= received w' []).
Proof.
  apply (tcp_next_segment_taken stream isn0 w0 w1 [] (piece 0 6) 0 6 fresh0 session1).
  - split; [by apply piece_arriving|]. split; [by vm_compute|]. split; by vm_compute.
  - by vm_compute.
  - by vm_compute.
  - split; [by vm_compute|]. right. by vm_compute.
Defined.
Lemma window_never_shrinks_witness :
  exists adv w', serval_tcp_select_window w3 = Ok (adv, w') /\
    serval_tcp_receive_window (tp w3) <= serval_tcp_receive_window (tp w') /\
    rcv_wup (tp w') = rcv_nxt (tp w3) /\ rcv_nxt (tp w') = rcv_nxt (tp w3) /\
    0 <= adv <= 65535 /\
    adv * 2 ^ rcv_wscale (tp w3) = Z.min (serval_tcp_receive_window (tp w')) (win_cap (tp w3)).
Proof.
  apply (window_never_shrinks stream isn0 w0 w3 [] fresh0 session3). by vm_compute.
Defined.
Definition rx0 : serval_tcp_options_received := {|
  saw_tstamp := false; tstamp_ok := false; rcv_tsval := 0; rcv_tsecr := 0;
  wscale_ok := false; opt_snd_wscale := 0; user_mss := 0; mss_clamp := 536; cookie_plus := 0
|}.
Lemma syn_options_parsed_witness :
  let '(o, size) := serval_tcp_syn_options sock0 in
  exists rx, serval_tcp_parse_options ((size + TCP_HLEN) / 4) (serval_tcp_options_write o) true false rx0 = Ok rx /\
    opt_snd_wscale rx = 0 /\ mss_clamp rx = 46085.
Proof.
  pose proof (syn_options_parsed sock0 rx0 []) as Hp.
  assert (H1 : 0 < advmss sock0 < 2 ^ 16) by (split; reflexivity).
  assert (H2 : 0 <= rcv_wscale sock0 <= 14) by (split; vm_compute; discriminate).
  specialize (Hp H1 H2 eq_refl eq_refl). destruct (serval_tcp_syn_options sock0) as [o size].
  rewrite app_nil_r in Hp. eexists. split; [exact Hp|]. split; reflexivity.
Defined.
End Demo.
