(* ===== verification/TcpCongOk.v ===== *)
(** * The sender's window stays sound

    The invariant of congestion control over any order of its events, the pace
    at which the window grows, and the bounds of the retransmission timeout. *)
From S2P Require Import Prelude TcpSock TcpFrame TcpCong.
Local Open Scope Z_scope.

(** ** Events *)
Inductive cong_event : Type :=
| CSent (k : Z)                              (* [k] new segments leave *)
| CAck (in_flight : Z)                       (* an acknowledgement, in the open state *)
| CDupack
| CAcked (packets lost retrans acked : Z)    (* what is left after [acked] segments went *)
| CCwr (set_ssthresh : bool)
| CDown (flag : Z)
| CModerate
| CUndo (undo : bool)
| CComplete
| CLoss (how : bool) (retrans lost undo reord : Z) (* a timeout that marks [lost] segments *)
| CLimited (space : bool)
| CRestart
| CValidate (space : bool).

(** The states in which the window is being taken down. *)
Definition reducing (g : tcp_cong) : bool :=
  (ca_state g =? TCP_CA_CWR) || (ca_state g =? TCP_CA_Recovery).

Record cong_ok (g : tcp_cong) : Prop := {
  ok_cwnd : 1 <= snd_cwnd g < 2 ^ 31;
  ok_cnt : 0 <= snd_cwnd_cnt g < 2 ^ 32;
  ok_clamp : 1 <= snd_cwnd_clamp g < 2 ^ 32;
  ok_used : 0 <= snd_cwnd_used g < 2 ^ 32;
  ok_ssthresh : 2 <= snd_ssthresh g < 2 ^ 32;
  ok_prior : prior_ssthresh g = 0 \/ 2 <= prior_ssthresh g < 2 ^ 32;
  ok_reordering : 1 <= reordering g <= 127;
  ok_out : 0 <= sacked_out g /\ 0 <= lost_out g /\ sacked_out g + lost_out g <= packets_out g;
  ok_retrans : 0 <= retrans_out g /\ packets_out g + retrans_out g < 2 ^ 30;
  ok_down : reducing g = true -> snd_cwnd_cnt g <= 1;
}.

Section Cong.
Context `{Env : TcpEnv}.
Implicit Types (g : tcp_cong) (now : Z).

Definition cong_event_ok g (e : cong_event) : Prop :=
  match e with
  | CSent k => 0 <= k /\ packets_out g + k + retrans_out g < 2 ^ 30
  | CAck in_flight => reducing g = false /\ 0 <= in_flight < 2 ^ 30
  | CDown _ => reducing g = true
  | CAcked packets lost retrans acked =>
      0 <= lost <= packets /\ 0 <= retrans /\ packets + retrans < 2 ^ 30 /\ 0 <= acked
  | CLoss _ _ lost _ reord => 0 <= lost <= packets_out g /\ 1 <= reord
  | _ => True
  end.
Definition cong_apply now g (e : cong_event) : outcome tcp_cong :=
  match e with
  | CSent k => Ok (g {{ packets_out := packets_out g + k }})
  | CAck in_flight => serval_tcp_reno_cong_avoid g in_flight
  | CDupack => Ok (serval_tcp_add_reno_sack g)
  | CAcked packets lost retrans acked =>
      Ok (serval_tcp_remove_reno_sacks acked
            (g {{ packets_out := packets; lost_out := lost; retrans_out := retrans }}))
  | CCwr b => Ok (serval_tcp_enter_cwr b now g)
  | CDown flag => Ok (serval_tcp_cwnd_down flag now g)
  | CModerate => Ok (serval_tcp_moderate_cwnd now g)
  | CUndo b => Ok (serval_tcp_undo_cwr b now g)
  | CComplete => Ok (serval_tcp_complete_cwr now g)
  | CLoss how retrans lost undo reord =>
      Ok (loss_state reord ((loss_window how retrans now g) {{ lost_out := lost; undo_marker := undo }}))
  | CLimited b => Ok (serval_tcp_cwnd_application_limited b now g)
  | CRestart => serval_tcp_cwnd_restart now g
  | CValidate b => Ok (serval_tcp_cwnd_validate b now g)
  end.

Lemma in_flight_eq g : cong_ok g ->
  serval_tcp_packets_in_flight g = packets_out g - (sacked_out g + lost_out g) + retrans_out g /\
  0 <= serval_tcp_packets_in_flight g < 2 ^ 30.
Proof.
  intros []. unfold serval_tcp_packets_in_flight, serval_tcp_left_out.
  rewrite (u32_id (sacked_out g + lost_out g)), u32_id by lia. lia.
Qed.
Lemma current_ssthresh_ok g : cong_ok g -> 2 <= serval_tcp_current_ssthresh g < 2 ^ 32.
Proof.
  intros []. unfold serval_tcp_current_ssthresh. case_match; [done|].
  rewrite !Z.shiftr_div_pow2 by lia. change (2 ^ 1) with 2. change (2 ^ 2) with 4.
  rewrite u32_id by (Z.to_euclidean_division_equations; lia).
  Z.to_euclidean_division_equations; lia.
Qed.
Lemma slow_start_loop_ok fuel cwnd cnt clamp :
  1 <= cwnd -> 0 <= cnt -> cnt / cwnd <= Z.of_nat fuel ->
  exists cwnd' cnt', slow_start_loop fuel cwnd cnt clamp = Ok (cwnd', cnt') /\
    cwnd <= cwnd' <= Z.max cwnd clamp /\ 0 <= cnt' < cwnd' /\
    (cwnd' - cwnd) * (cwnd' + cwnd - 1) <= 2 * cnt.
Proof.
  revert cwnd cnt. induction fuel as [|fuel IH]; intros cwnd cnt ? ? Hf; simpl.
  - destruct (Z.ltb_spec cnt cwnd); [eexists _, _; split_and!; [done|lia..]|].
    assert (1 <= cnt / cwnd) by (apply Z.div_le_lower_bound; lia). lia.
  - destruct (Z.ltb_spec cnt cwnd); [eexists _, _; split_and!; [done|lia..]|].
    set (cwnd1 := if cwnd <? clamp then cwnd + 1 else cwnd).
    assert (Hc1 : cwnd <= cwnd1 <= Z.max cwnd clamp /\ (cwnd1 = cwnd \/ cwnd1 = cwnd + 1))
      by (subst cwnd1; destruct (Z.ltb_spec cwnd clamp); lia).
    destruct (IH cwnd1 (cnt - cwnd)) as (c' & n' & -> & ? & ? & ?); [lia|lia| |].
    + transitivity ((cnt - cwnd) / cwnd); [apply Z.div_le_compat_l; lia|].
      replace (cnt - cwnd) with (cnt + (-1) * cwnd) by lia. rewrite Z.div_add by lia. lia.
    + exists c', n'. split_and!; [done|lia..|]. destruct Hc1 as [_ [Hc1|Hc1]]; rewrite Hc1 in *; nia.
Qed.
Lemma restart_loop_ok fuel delta rto cwnd restart :
  0 <= cwnd < 2 ^ (Z.of_nat fuel - 1) -> 0 <= restart -> (0 < fuel)%nat ->
  exists cwnd', restart_loop fuel delta rto cwnd restart = Ok cwnd' /\ 0 <= cwnd' <= cwnd.
Proof.
  revert delta cwnd. induction fuel as [|fuel IH]; intros delta cwnd ? ? ?; [lia|]. simpl.
  destruct (_ && _) eqn:Hb; [|exists cwnd; split; [done|lia]].
  apply andb_true_iff in Hb as [_ Hb%Z.ltb_lt].
  destruct (decide (fuel = 0%nat)) as [->|]; [simpl in *; lia|].
  replace (Z.of_nat (S fuel) - 1) with (1 + (Z.of_nat fuel - 1)) in * by lia.
  rewrite Z.pow_add_r in * by lia. change (2 ^ 1) with 2 in *.
  destruct (IH (s32 (delta - rto)) (Z.shiftr cwnd 1)) as (c' & -> & ?); [|done|lia|].
  - rewrite Z.shiftr_div_pow2 by lia. change (2 ^ 1) with 2. Z.to_euclidean_division_equations; lia.
  - exists c'. split; [done|]. rewrite Z.shiftr_div_pow2 in * by lia. change (2 ^ 1) with 2 in *.
    Z.to_euclidean_division_equations; lia.
Qed.

(** The fields of the invariant after a change. *)
Ltac cong_fields :=
  split; simpl in *; unfold constant, reducing in *; simpl in *; try done; try lia; try tauto.

Lemma set_cwnd g x now : cong_ok g -> 1 <= x < 2 ^ 31 ->
  cong_ok (g {{ snd_cwnd := x; snd_cwnd_stamp := now }}).
Proof. destruct g. intros [] ?. cong_fields. Qed.
Lemma set_reordering g x : cong_ok g -> 1 <= x <= 127 -> cong_ok (g {{ reordering := x }}).
Proof. destruct g. intros [] ?. cong_fields. Qed.
Lemma burst_room g k : cong_ok g -> 1 <= k <= 255 ->
  1 <= u32 (serval_tcp_packets_in_flight g + k) < 2 ^ 31.
Proof. intros Hg ?. destruct (in_flight_eq g Hg) as [_ ?]. rewrite u32_id; lia. Qed.
Lemma cwnd_inc_ok g : cong_ok g -> snd_cwnd g < 2 ^ 31 - 1 -> cong_ok (cwnd_inc g).
Proof.
  intros Hg ?. unfold cwnd_inc. destruct (Z.ltb_spec (snd_cwnd g) (snd_cwnd_clamp g)); [|done].
  destruct g, Hg. cong_fields.
Qed.
Lemma slow_start_ok g : cong_ok g -> reducing g = false -> snd_cwnd g < 2 ^ 30 + 128 ->
  exists g', serval_tcp_slow_start g = Ok g' /\ cong_ok g'.
Proof.
  intros Hg Hr ?. unfold serval_tcp_slow_start. destruct (_ && _); [eauto|]. set (total := u32 _).
  assert (0 <= total < 2 ^ 32) by apply u32_range.
  destruct (slow_start_loop_ok (Z.to_nat (total / snd_cwnd g)) (snd_cwnd g) total (snd_cwnd_clamp g))
    as (cwnd & cnt & -> & ? & ? & ?).
  - apply Hg.
  - lia.
  - rewrite Z2Nat.id; [lia|]. apply Z.div_pos; [lia|]. pose proof (ok_cwnd _ Hg). lia.
  - simpl. eexists. split; [done|]. assert (1 <= snd_cwnd g) by apply Hg.
    assert (cwnd - snd_cwnd g < 2 ^ 17) by nia. destruct g, Hg. cong_fields.
Qed.
Lemma is_limited g f : cong_ok g -> serval_tcp_is_cwnd_limited g f = true -> snd_cwnd g <= Z.max 0 f + 127.
Proof.
  intros []. unfold serval_tcp_is_cwnd_limited, serval_tcp_max_burst.
  destruct (Z.leb_spec (snd_cwnd g) f); [lia|]. intros ?%Z.leb_le. lia.
Qed.
Lemma cong_avoid_ok g f : cong_ok g -> reducing g = false -> 0 <= f < 2 ^ 30 ->
  exists g', serval_tcp_reno_cong_avoid g f = Ok g' /\ cong_ok g'.
Proof.
  intros Hg Hr ?. unfold serval_tcp_reno_cong_avoid.
  destruct (serval_tcp_is_cwnd_limited g f) eqn:Hl; cbn [negb]; [|eauto]. apply is_limited in Hl; [|done].
  destruct (_ <=? _); [apply slow_start_ok; [done..|lia]|]. destruct (negb _).
  - destruct (_ <=? _); eexists; (split; [done|]); [|done]. apply cwnd_inc_ok; [|destruct g; simpl in *; unfold constant; lia].
    destruct g, Hg. cong_fields.
  - eexists. split; [done|]. unfold serval_tcp_cong_avoid_ai.
    destruct (Z.leb_spec (snd_cwnd g) (snd_cwnd_cnt g)).
    + assert (Hi : cong_ok (cwnd_inc g)) by (apply cwnd_inc_ok; [done|lia]).
      destruct (cwnd_inc g), Hi. cong_fields.
    + destruct g, Hg. cong_fields.
Qed.
Lemma limit_sacked_ok g :
  (forall k, 0 <= k -> k + lost_out g <= packets_out g -> cong_ok (g {{ sacked_out := k }})) ->
  0 <= lost_out g <= packets_out g -> packets_out g < 2 ^ 30 -> 0 <= sacked_out g <= 2 ^ 30 ->
  cong_ok (serval_tcp_limit_reno_sacked g).1.
Proof.
  intros Hset ? ? ?. unfold serval_tcp_limit_reno_sacked.
  set (holes := Z.min _ (packets_out g)). rewrite u32_id by lia.
  destruct (Z.ltb_spec (packets_out g) (sacked_out g + holes)); cbn [fst].
  - apply Hset; lia.
  - assert (g = g {{ sacked_out := sacked_out g }}) as -> by (by destruct g). apply Hset; lia.
Qed.
Lemma check_reordering_ok g k :
  cong_ok (serval_tcp_limit_reno_sacked g).1 -> cong_ok (serval_tcp_check_reno_reordering k g).
Proof.
  unfold serval_tcp_check_reno_reordering. destruct (serval_tcp_limit_reno_sacked g) as [g' b].
  cbn [fst]. intros Hg. destruct b; [|done]. unfold serval_tcp_update_reordering.
  destruct (Z.ltb_spec (reordering g') (s32 (packets_out g' + k))); [|done].
  apply set_reordering; [done|]. destruct Hg. unfold TCP_MAX_REORDERING. lia.
Qed.
Lemma dupack_ok g : cong_ok g -> cong_ok (serval_tcp_add_reno_sack g).
Proof.
  intros Hg. apply check_reordering_ok, limit_sacked_ok; destruct g, Hg; simpl in *;
    unfold constant; try lia.
  - intros k ? ?. cong_fields.
  - rewrite u32_id; lia.
Qed.
Lemma acked_ok g packets lost retrans acked :
  cong_ok g -> 0 <= lost <= packets -> 0 <= retrans -> packets + retrans < 2 ^ 30 -> 0 <= acked ->
  cong_ok (serval_tcp_remove_reno_sacks acked
             (g {{ packets_out := packets; lost_out := lost; retrans_out := retrans }})).
Proof.
  intros [] ? ? ? ?. apply check_reordering_ok.
  set (g1 := g {{ packets_out := packets; lost_out := lost; retrans_out := retrans }}).
  assert (Hset : forall k, 0 <= k <= 2 ^ 30 ->
    cong_ok (serval_tcp_limit_reno_sacked (g1 {{ sacked_out := k }})).1).
  { intros k ?. apply limit_sacked_ok; subst g1; destruct g; simpl in *; unfold constant; try lia.
    intros j ? ?. cong_fields. }
  assert (Hs : sacked_out g1 = sacked_out g) by (subst g1; by destruct g).
  assert (Hid : g1 = g1 {{ sacked_out := sacked_out g }}) by (subst g1; by destruct g).
  destruct (Z.ltb_spec 0 acked).
  - destruct (Z.leb_spec (sacked_out g1) (acked - 1)); apply Hset; lia.
  - rewrite Hid. apply Hset. lia.
Qed.
Lemma reno_ssthresh_ok g : cong_ok g -> 2 <= serval_tcp_reno_ssthresh g < 2 ^ 32.
Proof.
  intros []. unfold serval_tcp_reno_ssthresh. rewrite Z.shiftr_div_pow2 by lia. change (2 ^ 1) with 2.
  Z.to_euclidean_division_equations; lia.
Qed.
Lemma enter_cwr_ok b now g : cong_ok g -> cong_ok (serval_tcp_enter_cwr b now g).
Proof.
  intros Hg. unfold serval_tcp_enter_cwr. pose proof (burst_room g 1 Hg ltac:(lia)) as Hmin.
  pose proof (reno_ssthresh_ok g Hg) as Hss.
  unfold serval_tcp_reno_ssthresh, serval_tcp_packets_in_flight, serval_tcp_left_out in *.
  destruct g, Hg; simpl in *. destruct (_ <? TCP_CA_CWR), b; cong_fields.
Qed.
Lemma moderate_ok now g : cong_ok g -> cong_ok (serval_tcp_moderate_cwnd now g).
Proof.
  intros Hg. pose proof (burst_room g (serval_tcp_max_burst g) Hg) as Hmin. apply set_cwnd; [done|].
  destruct Hg. unfold serval_tcp_max_burst in *. lia.
Qed.
Lemma cwnd_down_ok flag now g : cong_ok g -> reducing g = true -> cong_ok (serval_tcp_cwnd_down flag now g).
Proof.
  intros Hg Hr. unfold serval_tcp_cwnd_down. destruct (_ || _); [|done].
  pose proof (ok_down _ Hg Hr) as Hcnt. pose proof (burst_room g 1 Hg ltac:(lia)) as Hmin.
  assert (Hd : snd_cwnd_cnt g = 0 \/ snd_cwnd_cnt g = 1) by (destruct Hg; lia).
  unfold serval_tcp_cwnd_min, serval_tcp_reno_min_cwnd, serval_tcp_packets_in_flight, serval_tcp_left_out in *.
  destruct g, Hg; simpl in *. destruct Hd as [-> | ->]; simpl; unfold constant.
  - change (Z.shiftr (s32 (u32 (0 + 1))) 1) with 0. cong_fields.
  - change (Z.shiftr (s32 (u32 (1 + 1))) 1) with 1. cbn [Z.eqb negb andb].
    destruct (Z.ltb_spec (snd_ssthresh / 2) snd_cwnd); [|cong_fields].
    assert (1 <= snd_ssthresh / 2) by (apply Z.div_le_lower_bound; lia).
    assert (u32 (snd_cwnd - 1) = snd_cwnd - 1) by (apply u32_id; lia). cong_fields.
Qed.
Lemma undo_ok b now g : cong_ok g -> cong_ok (serval_tcp_undo_cwr b now g).
Proof.
  intros Hg. pose proof (burst_room g (serval_tcp_max_burst g) Hg) as Hmin.
  pose proof (u32_range (2 * snd_ssthresh g)).
  unfold serval_tcp_undo_cwr, serval_tcp_moderate_cwnd, serval_tcp_max_burst,
    serval_tcp_packets_in_flight, serval_tcp_left_out in *.
  destruct g, Hg; simpl in *. destruct (prior_ssthresh =? 0) eqn:?, b;
    simpl; unfold constant; try (destruct (snd_ssthresh <? prior_ssthresh) eqn:?); cong_fields.
Qed.
Lemma complete_ok now g : cong_ok g -> cong_ok (serval_tcp_complete_cwr now g).
Proof. intros Hg. apply set_cwnd; [done|]. destruct Hg. lia. Qed.
Lemma init_cwnd_ok g : cong_ok g -> 1 <= serval_tcp_init_cwnd g <= 4.
Proof. intros []. unfold serval_tcp_init_cwnd. repeat case_match; lia. Qed.
Lemma limited_ok b now g : cong_ok g -> cong_ok (serval_tcp_cwnd_application_limited b now g).
Proof.
  intros Hg. pose proof (current_ssthresh_ok g Hg) as Hss. pose proof (init_cwnd_ok g Hg) as Hin.
  unfold serval_tcp_cwnd_application_limited.
  destruct (_ && _); [|destruct g, Hg; cong_fields].
  set (used := Z.max _ _). destruct (Z.ltb_spec used (snd_cwnd g)); [|destruct g, Hg; cong_fields].
  assert (1 <= u32 (snd_cwnd g + used) ≫ 1 < 2 ^ 31).
  { destruct Hg. rewrite u32_id, Z.shiftr_div_pow2 by lia. change (2 ^ 1) with 2.
    Z.to_euclidean_division_equations; lia. }
  unfold serval_tcp_current_ssthresh in *. clearbody used. destruct g, Hg; cong_fields.
Qed.
Lemma restart_ok now g : cong_ok g -> exists g', serval_tcp_cwnd_restart now g = Ok g' /\ cong_ok g'.
Proof.
  intros Hg. pose proof (current_ssthresh_ok g Hg) as Hss. pose proof (init_cwnd_ok g Hg) as Hin.
  unfold serval_tcp_cwnd_restart. set (restart := Z.min _ _).
  assert (1 <= restart < 2 ^ 31) by (destruct Hg; lia).
  destruct (restart_loop_ok 34 (s32 (now - lsndtime g)) (rto g) (snd_cwnd g) restart) as (c & -> & ?);
    [destruct Hg; lia..|]. simpl. eexists. split; [done|].
  unfold serval_tcp_current_ssthresh in *. clearbody restart. destruct g, Hg; cong_fields.
Qed.
Lemma validate_ok b now g : cong_ok g -> cong_ok (serval_tcp_cwnd_validate b now g).
Proof.
  intros Hg. unfold serval_tcp_cwnd_validate. destruct (_ <=? _); [destruct g, Hg; cong_fields|].
  set (g1 := if snd_cwnd_used g <? packets_out g then g {{ snd_cwnd_used := packets_out g }} else g).
  assert (cong_ok g1).
  { subst g1. destruct (_ <? _); [|done]. destruct g, Hg; cong_fields. }
  destruct (_ && _); [by apply limited_ok|done].
Qed.

Lemma loss_ok how retrans lost undo reord now g : cong_ok g -> 0 <= lost <= packets_out g -> 1 <= reord ->
  cong_ok (loss_state reord ((loss_window how retrans now g) {{ lost_out := lost; undo_marker := undo }})).
Proof.
  intros Hg Hl Hr. pose proof (current_ssthresh_ok g Hg) as Hss.
  assert (2 <= serval_tcp_reno_ssthresh g < 2 ^ 32).
  { unfold serval_tcp_reno_ssthresh. rewrite Z.shiftr_div_pow2 by lia. change (2 ^ 1) with 2.
    destruct Hg. Z.to_euclidean_division_equations; lia. }
  unfold loss_state, loss_window. set (ss := serval_tcp_current_ssthresh g) in *.
  set (rs := serval_tcp_reno_ssthresh g) in *. clearbody ss rs.
  destruct (_ || _), how, g, Hg; cong_fields.
Qed.
(** Every event has an outcome and keeps the invariant. *)
Lemma cong_apply_ok now g e : cong_ok g -> cong_event_ok g e ->
  exists g', cong_apply now g e = Ok g' /\ cong_ok g'.
Proof.
  intros Hg He. destruct e; simpl in *.
  - eexists. split; [done|]. destruct g, Hg. cong_fields.
  - apply cong_avoid_ok; tauto.
  - eauto using dupack_ok.
  - eexists. split; [done|]. apply acked_ok; tauto.
  - eauto using enter_cwr_ok.
  - eauto using cwnd_down_ok.
  - eauto using moderate_ok.
  - eauto using undo_ok.
  - eauto using complete_ok.
  - eexists. split; [done|]. apply loss_ok; tauto.
  - eauto using limited_ok.
  - by apply restart_ok.
  - eauto using validate_ok.
Qed.

(** ** Runs *)
Inductive cong_run : tcp_cong -> list (Z * cong_event) -> tcp_cong -> Prop :=
| run_nil g : cong_run g [] g
| run_cons g now e g1 l g2 :
    cong_event_ok g e -> cong_apply now g e = Ok g1 -> cong_run g1 l g2 ->
    cong_run g ((now, e) :: l) g2.

(** C16 (invariant): a sender that starts in a sound state ([cong_ok]) stays in
    one through any sequence of these events: new segments leave; an
    acknowledgement lets the window grow, while no reduction is under way; a
    duplicate acknowledgement is counted; segments are acknowledged; a timeout
    marks segments as lost and restarts from one segment; the window is reduced
    step by step, moderated, restored after a needless reduction, or brought down
    at the end of one; and the sender has been idle or limited by its user.  The
    window stays between one segment and 2^31, the slow start threshold at least
    two segments, the segments counted as lost or sacked together at most those
    outstanding, the count in flight does not wrap around, and the next event has
    an outcome: the loops of slow start and of the restart after an idle period
    end.  Of the counts that an acknowledgement or a timeout leaves, it is
    assumed that at most the outstanding segments are lost and fewer than 2^30
    are outstanding or sent again; for a timeout [enter_loss_event] shows it.
    The entry into fast recovery, which marks segments too, is not among the
    events. *)
Theorem cong_invariant g l g' now e :
  cong_ok g -> cong_run g l g' -> cong_event_ok g' e ->
  1 <= snd_cwnd g' < 2 ^ 31 /\ 2 <= snd_ssthresh g' < 2 ^ 32 /\
  serval_tcp_left_out g' <= packets_out g' /\
  serval_tcp_packets_in_flight g' = packets_out g' - sacked_out g' - lost_out g' + retrans_out g' /\
  exists g2, cong_apply now g' e = Ok g2 /\ cong_ok g2.
Proof.
  intros Hg Hrun He.
  assert (Hg' : cong_ok g').
  { clear He. induction Hrun as [|g now' e' g1 l g2 Hok Happ Hrun IH]; [done|]. apply IH.
    destruct (cong_apply_ok now' g e' Hg Hok) as (g3 & ? & ?). congruence. }
  destruct (in_flight_eq g' Hg') as [Hf _]. pose proof (cong_apply_ok now g' e Hg' He).
  destruct Hg'. split_and!; try lia; [unfold serval_tcp_left_out; rewrite u32_id; lia|done].
Qed.

(** ** Growth *)
Fixpoint acks (n : nat) (f : Z) g : outcome tcp_cong :=
  match n with
  | O => Ok g
  | S n => g ← serval_tcp_reno_cong_avoid g f; acks n f g
  end.
Lemma avoidance_counts n f g :
  tcp_abc = 0 -> serval_tcp_is_cwnd_limited g f = true -> snd_ssthresh g < snd_cwnd g ->
  0 <= snd_cwnd_cnt g -> snd_cwnd_cnt g + Z.of_nat n <= snd_cwnd g ->
  acks n f g = Ok (g {{ snd_cwnd_cnt := snd_cwnd_cnt g + Z.of_nat n }}).
Proof.
  intros Habc. revert g. induction n as [|n IH]; intros g Hl ? ? ?; cbn [acks].
  - destruct g; simpl in *; unfold constant. do 2 f_equal. lia.
  - unfold serval_tcp_reno_cong_avoid. rewrite Hl, Habc. cbn [negb Z.eqb].
    rewrite (proj2 (Z.leb_gt _ _)) by lia. unfold serval_tcp_cong_avoid_ai.
    rewrite (proj2 (Z.leb_gt _ _)) by lia. simpl.
    rewrite IH; destruct g; simpl in *; unfold constant; [do 2 f_equal; lia|done|lia..].
Qed.
Lemma acks_app n m f g : acks (n + m) f g = g ← acks n f g; acks m f g.
Proof. revert g. induction n as [|n IH]; intros g; [done|]. simpl. destruct (serval_tcp_reno_cong_avoid g f); simpl; auto. Qed.

(** The window after it grew by a segment, if the clamp allows. *)
Definition grown g : Z := if snd_cwnd g <? snd_cwnd_clamp g then snd_cwnd g + 1 else snd_cwnd g.

(** C26 (functional): with the default settings (no byte counting, no limited
    slow start), while the sender fills its window and nothing is counted yet:
    in slow start, up to and at the threshold, each acknowledgement adds one
    segment to the window; above the threshold the window stays for [snd_cwnd]
    acknowledgements and grows by one segment with the next, one acknowledgement
    later than the [1 / snd_cwnd] each of the comment at
    [serval_tcp_cong_avoid_ai]; and a window at or past its clamp does not grow in
    either case, only the counters change. *)
Theorem reno_growth f g :
  tcp_abc = 0 -> max_ssthresh = 0 -> cong_ok g -> 0 <= f < 2 ^ 30 ->
  serval_tcp_is_cwnd_limited g f = true -> snd_cwnd_cnt g = 0 ->
  (snd_cwnd g <= snd_ssthresh g ->
    acks 1 f g = Ok (g {{ bytes_acked := 0; snd_cwnd := grown g; snd_cwnd_cnt := 0 }})) /\
  (snd_ssthresh g < snd_cwnd g ->
    (forall n, Z.of_nat n <= snd_cwnd g -> acks n f g = Ok (g {{ snd_cwnd_cnt := Z.of_nat n }})) /\
    acks (Z.to_nat (snd_cwnd g + 1)) f g = Ok (g {{ snd_cwnd := grown g; snd_cwnd_cnt := 0 }})).
Proof.
  intros Habc Hmax Hg ? Hl Hcnt. pose proof (ok_cwnd _ Hg) as Hc. split.
  - intros Hs. cbn [acks]. unfold serval_tcp_reno_cong_avoid. rewrite Hl, (proj2 (Z.leb_le _ _) Hs).
    cbn [negb]. unfold serval_tcp_slow_start. rewrite Habc, Hmax, Hcnt, Z.add_0_l.
    cbn [Z.eqb negb andb Z.ltb Z.compare]. rewrite u32_id, Z.div_same by lia.
    change (Z.to_nat 1) with 1%nat. cbn [slow_start_loop]. fold (grown g).
    assert (0 < grown g) by (unfold grown; case_match; lia).
    rewrite Z.ltb_irrefl, Z.sub_diag, (proj2 (Z.ltb_lt _ _)) by lia. done.
  - intros Hs.
    assert (Hn : forall n, Z.of_nat n <= snd_cwnd g -> acks n f g = Ok (g {{ snd_cwnd_cnt := Z.of_nat n }})).
    { intros n ?. rewrite avoidance_counts, Hcnt by (done || lia). done. }
    split; [done|]. replace (Z.to_nat (snd_cwnd g + 1)) with (Z.to_nat (snd_cwnd g) + 1)%nat by lia.
    rewrite acks_app, Hn by lia. cbn [acks]. rewrite Z2Nat.id by lia. simpl.
    unfold serval_tcp_reno_cong_avoid, grown.
    replace (serval_tcp_is_cwnd_limited _ f) with true by (by destruct g). rewrite Habc.
    destruct g; simpl in *; unfold constant.
    rewrite (proj2 (Z.leb_gt _ _)) by lia. unfold serval_tcp_cong_avoid_ai, cwnd_inc. simpl.
    rewrite Z.leb_refl. destruct (snd_cwnd <? snd_cwnd_clamp); simpl; unfold constant; do 2 f_equal; lia.
Qed.

(** ** The retransmission timeout *)
Definition max_sample : Z := 2 ^ 27.
(** A sample of the round-trip time, with what is acknowledged and sent then. *)
Definition rtt_sample g (s : Z * Z * Z) : tcp_cong :=
  let '(mrtt, una, nxt) := s in
  serval_tcp_set_rto (serval_tcp_rtt_estimator mrtt (g {{ snd_una := una; snd_nxt := nxt }})).
Record rtt_ok g : Prop := {
  rtt_srtt : 0 < srtt g <= 8 * max_sample;
  rtt_mdev : 0 <= mdev g <= 4 * max_sample;
  rtt_max : SERVAL_TCP_RTO_MIN <= mdev_max g <= rttvar g;
  rtt_var : rttvar g <= 4 * max_sample;
}.
Lemma quarter x : 0 <= x -> 0 <= Z.shiftr x 2 /\ 4 * Z.shiftr x 2 <= x <= 4 * Z.shiftr x 2 + 3.
Proof. intros. rewrite Z.shiftr_div_pow2 by lia. change (2 ^ 2) with 4. Z.to_euclidean_division_equations; lia. Qed.
Lemma eighth x : 8 * Z.shiftr x 3 <= x <= 8 * Z.shiftr x 3 + 7.
Proof. rewrite Z.shiftr_div_pow2 by lia. change (2 ^ 3) with 8. Z.to_euclidean_division_equations; lia. Qed.

Lemma rtt_estimator_ok m g :
  0 <= m <= max_sample -> srtt g = 0 \/ rtt_ok g -> rtt_ok (serval_tcp_rtt_estimator m g).
Proof.
  unfold max_sample. intros Hm Hg. unfold serval_tcp_rtt_estimator.
  set (m1 := if m =? 0 then 1 else m).
  assert (Hm1 : 1 <= m1 <= 2 ^ 27) by (subst m1; destruct (Z.eqb_spec m 0); lia).
  clearbody m1. destruct (Z.eqb_spec (srtt g) 0) as [Hz|Hz].
  { rewrite !u32_id by lia. destruct g. split; simpl; unfold constant, max_sample, SERVAL_TCP_RTO_MIN; lia. }
  destruct Hg as [|[Hs Hd Hx Hv]]; [done|]. unfold max_sample in *.
  pose proof (eighth (srtt g)) as H8. pose proof (quarter (mdev g) ltac:(lia)) as H4.
  set (err := m1 - Z.shiftr (srtt g) 3) in *.
  assert (Hsrtt : 0 < srtt g + err <= 8 * 2 ^ 27) by lia.
  set (d := if err <? 0 then _ else _).
  assert (Hdev : 0 <= mdev g + d <= 4 * 2 ^ 27).
  { subst d. pose proof (eighth (- err - Z.shiftr (mdev g) 2)).
    destruct g; simpl in *. unfold constant in *.
    destruct (Z.ltb_spec err 0); [destruct (Z.ltb_spec 0 (- err - Z.shiftr mdev 2))|]; lia. }
  assert (Hvar : forall r x, 20 <= x <= r -> r <= 4 * 2 ^ 27 ->
    x < r -> 20 <= r - Z.shiftr (r - x) 2 <= 4 * 2 ^ 27).
  { intros r x ? ? ?. pose proof (quarter (r - x)). lia. }
  clearbody d err. destruct g; simpl in *. unfold constant. rewrite !u32_id by lia.
  unfold SERVAL_TCP_RTO_MIN in *.
  destruct (Z.ltb_spec mdev_max (mdev + d)), (after _ _); simpl; unfold constant;
    repeat match goal with
    | |- context [if ?x <? ?y then _ else _] => destruct (Z.ltb_spec x y); simpl; unfold constant
    end;
    split; simpl; unfold constant, max_sample, SERVAL_TCP_RTO_MIN; try lia;
    match goal with |- context [?r - Z.shiftr (?r - ?x) 2] => specialize (Hvar r x); lia end.
Qed.
Lemma tcp_set_rto_ok g : rtt_ok g ->
  rtt_ok (serval_tcp_set_rto g) /\
  rto (serval_tcp_set_rto g) = Z.min SERVAL_TCP_RTO_MAX (Z.shiftr (srtt g) 3 + rttvar g).
Proof.
  intros [Hs Hd Hx Hv]. pose proof (eighth (srtt g)). unfold max_sample in *.
  unfold serval_tcp_set_rto, serval_tcp_bound_rto, __serval_tcp_set_rto.
  destruct g; simpl in *. unfold constant. rewrite u32_id by (unfold SERVAL_TCP_RTO_MIN in *; lia).
  destruct (Z.ltb_spec SERVAL_TCP_RTO_MAX (Z.shiftr srtt 3 + rttvar)); simpl; unfold constant;
    (split; [|lia]); split; simpl; unfold max_sample; done || lia.
Qed.

(** On a connection that starts without a measure, whatever
    round-trip samples of up to 2^27 ticks (two weeks) come in, the timeout computed
    from them lies between [RTO_MIN] and [RTO_MAX]: the claim of the comment in
    [tcp_set_rto] that clamping it from below is not needed; and none of the
    scaled averages wraps around, the timeout is their exact sum. *)
Theorem rto_in_bounds g l s :
  srtt g = 0 -> Forall (fun s => 0 <= s.1.1 <= max_sample) (l ++ [s]) ->
  let g1 := foldl rtt_sample g (l ++ [s]) in
  SERVAL_TCP_RTO_MIN <= rto g1 <= SERVAL_TCP_RTO_MAX /\
  rto g1 = Z.min SERVAL_TCP_RTO_MAX (Z.shiftr (srtt g1) 3 + rttvar g1) /\
  0 < srtt g1 <= 8 * max_sample /\ mdev g1 <= 4 * max_sample.
Proof.
  intros Hz Hall g1.
  assert (Hstep : forall g s, 0 <= s.1.1 <= max_sample -> srtt g = 0 \/ rtt_ok g ->
    rtt_ok (rtt_sample g s) /\
    rto (rtt_sample g s) = Z.min SERVAL_TCP_RTO_MAX (Z.shiftr (srtt (rtt_sample g s)) 3 + rttvar (rtt_sample g s))).
  { clear. intros g [[m u] n] Hm Hg. cbn [fst snd] in Hm. unfold rtt_sample.
    assert (He : rtt_ok (serval_tcp_rtt_estimator m (g {{ snd_una := u; snd_nxt := n }}))).
    { apply rtt_estimator_ok; [done|]. destruct Hg as [|[]]; [left; by destruct g|]. right.
      destruct g; split; done. }
    apply tcp_set_rto_ok in He as [? Hr]. split; [done|]. rewrite Hr. f_equal.
    unfold serval_tcp_set_rto, serval_tcp_bound_rto.
    destruct (serval_tcp_rtt_estimator m _), (_ <? _); done. }
  apply Forall_app in Hall as [Hl Hs]. rewrite Forall_singleton in Hs.
  assert (Hpre : srtt (foldl rtt_sample g l) = 0 \/ rtt_ok (foldl rtt_sample g l)).
  { clear g1. assert (Hg : srtt g = 0 \/ rtt_ok g) by auto. clear Hz Hs s. revert g Hg.
    induction Hl as [|s l Hs Hl IH]; intros g Hg; [done|]. simpl. apply IH. right. by apply Hstep. }
  destruct (Hstep _ _ Hs Hpre) as [[] Hr]. subst g1. rewrite foldl_app. cbn [foldl].
  pose proof (eighth (srtt (rtt_sample (foldl rtt_sample g l) s))).
  unfold SERVAL_TCP_RTO_MIN, SERVAL_TCP_RTO_MAX in *. split_and!; try done; lia.
Qed.
End Cong.

Module Demo.
#[local] Instance cenv : TcpEnv := {|
  adv_win_scale := 2;
  tcp_rmem0 := 4096; tcp_rmem2 := 4194304;
  tcp_mem0 := 1000; tcp_mem1 := 2000; tcp_mem2 := 3000;
  moderate_rcvbuf := true; workaround_signed_windows := false;
  window_scaling := true; checksum_mode := true; tcp_timestamps := false; slow_start_after_idle := true;
  tcp_abc := 0; max_ssthresh := 0;
  max_tcp_header := 128; sizeof_sk_buff := 256; sizeof_shared_info := 320;
|}.
(** A sender with eight segments in flight and a threshold of [th]. *)
Definition sender (th : Z) : tcp_cong := {|
  snd_una := 1; snd_nxt := 11681; snd_wnd := 65535; snd_wl1 := 0; max_window := 65535;
  packets_out := 8; retrans_out := 0; lost_out := 0; sacked_out := 0;
  snd_ssthresh := th; snd_cwnd := 8; snd_cwnd_cnt := 0;
  snd_cwnd_clamp := 4294967295; snd_cwnd_used := 0; snd_cwnd_stamp := 0;
  bytes_acked := 0; mss_cache := 1460; reordering := 3; high_seq := 0;
  prior_ssthresh := 0; undo_marker := 0; undo_retrans := 0; ca_state := 0;
  retrans_stamp := 0; srtt := 0; mdev := 300; mdev_max := 0; rttvar := 0; rtt_seq := 0;
  rto := 300; backoff := 0; lsndtime := 0; snd_up := 1 |}.
Lemma sender_ok th : 2 <= th < 2 ^ 32 -> cong_ok (sender th).
Proof. intros. split; simpl; lia. Qed.

(** Three duplicates, a reduction, two steps down, an acknowledgement of the
    whole window, a timeout, and an idle period. *)
Definition history : list (Z * cong_event) :=
  [(1, CDupack); (2, CDupack); (3, CDupack); (4, CCwr true); (5, CDown 1); (6, CDown 1);
   (7, CAcked 0 0 0 8); (8, CComplete); (8, CSent 4); (8, CLoss false 1 4 1 3); (9, CAcked 0 0 0 4); (9, CModerate); (5000, CRestart)].
Fixpoint play g (l : list (Z * cong_event)) : tcp_cong :=
  match l with
  | [] => g
  | (now, e) :: l => match cong_apply now g e with Ok g => play g l | _ => g end
  end.
Lemma history_run : cong_run (sender 64) history (play (sender 64) history).
Proof.
  unfold history. repeat (econstructor; [vm_compute; repeat split; done|by vm_compute|]). vm_compute. constructor.
Qed.
Lemma cong_invariant_witness :
  exists g2, cong_apply 5001 (play (sender 64) history) CModerate = Ok g2 /\ cong_ok g2.
Proof.
  apply (cong_invariant (sender 64) history _ 5001 CModerate (sender_ok 64 ltac:(lia)) history_run I).
Defined.
Lemma reno_growth_witness :
  (exists g, acks 1 8 (sender 64) = Ok g /\ snd_cwnd g = 9) /\
  (exists g, acks 8 8 (sender 4) = Ok g /\ snd_cwnd g = 8) /\
  (exists g, acks 9 8 (sender 4) = Ok g /\ snd_cwnd g = 9).
Proof.
  destruct (reno_growth 8 (sender 64)) as [H1 _]; [done|done|apply sender_ok; lia|lia|done|done|].
  destruct (reno_growth 8 (sender 4)) as [_ H2]; [done|done|apply sender_ok; lia|lia|done|done|].
  specialize (H1 ltac:(vm_compute; discriminate)). destruct (H2 ltac:(done)) as [H3 H4].
  specialize (H3 8%nat ltac:(vm_compute; discriminate)).
  split_and!; eexists; (split; [eassumption|reflexivity]).
Defined.
Lemma rto_in_bounds_witness :
  SERVAL_TCP_RTO_MIN <= rto (foldl rtt_sample (sender 64) ([(0, 1, 11681); (40, 1461, 11681)] ++ [(3, 2921, 13141)]))
    <= SERVAL_TCP_RTO_MAX.
Proof.
  apply (rto_in_bounds (sender 64) [(0, 1, 11681); (40, 1461, 11681)] (3, 2921, 13141)); [reflexivity|].
  repeat constructor; vm_compute; discriminate.
Defined.
End Demo.
