(* ===== verification/TcpSend.v ===== *)
(** * Sending (src/stack/serval_tcp_output.c; serval_tcp.c lines 440-583 and
    1346-1580; serval_tcp_input.c lines 1701-1707 and 1831-2058;
    serval_tcp.h; userlevel/sock.c, stream.c and skbuff.c)

    The write queue of a connection: segments are filled by [sendmsg], cut to
    the segment size, transmitted within the windows, kept until they are
    acknowledged, trimmed, merged and transmitted again.  The build is the
    user-level one: buffers are linear, segmentation offload, probing of the
    path and routes are absent, selective acknowledgements and timestamps are
    compiled out.  Urgent data is not sent, and calls do not wait. *)
From S2P Require Import Prelude SalHdr Checksum TcpSock TcpCong TcpOut.
Local Open Scope Z_scope.

Definition TCP_NAGLE_OFF : Z := 1.
Definition TCP_NAGLE_CORK : Z := 2.
Definition TCP_NAGLE_PUSH : Z := 4.
Definition TCPCB_SACKED_ACKED : Z := 1.
Definition TCPCB_SACKED_RETRANS : Z := 2.
Definition TCPCB_LOST : Z := 4.
Definition TCPCB_EVER_RETRANS : Z := 128.
Definition TCPCB_RETRANS : Z := 130.
Definition STSK_TIME_RETRANS : Z := 1.
Definition STSK_TIME_PROBE0 : Z := 3.
Definition SOCK_MIN_SNDBUF : Z := 2048.
Definition TCP_ESTABLISHED : Z := 1.
Definition TCP_SYN_SENT : Z := 2.
Definition TCP_SYN_RECV : Z := 3.
Definition TCP_CLOSE_WAIT : Z := 8.
Definition EAGAIN : Z := 11.
Definition ENOMEM : Z := 12.
Definition EPIPE : Z := 32.
Definition FLAG_DATA : Z := 1.
Definition FLAG_WIN_UPDATE : Z := 2.
Definition FLAG_DATA_ACKED : Z := 4.
Definition FLAG_RETRANS_DATA_ACKED : Z := 8.
Definition FLAG_SYN_ACKED : Z := 16.
Definition FLAG_SLOWPATH : Z := 256.
Definition FLAG_SND_UNA_ADVANCED : Z := 1024.
Definition FLAG_NONHEAD_RETRANS_ACKED : Z := 4096.
Definition FLAG_SACK_RENEGING : Z := 8192.
Definition FLAG_FIN_ACKED : Z := 16384.
Definition FLAG_ACKED : Z := 20.
Definition has (x bits : Z) : bool := negb (Z.land x bits =? 0).

(** ** Data *)

(** A segment of the write queue: the segment, its marks, when it was sent,
    and its buffer: room in front of and behind the data, what it is charged
    for, and whether a clone of it is alive. *)
Record wskb := Wskb {
  wq : tx_skb;
  wq_sacked : Z; wq_when : Z;
  wq_headroom : Z; wq_room : Z; wq_truesize : Z; wq_cloned : bool;
}.
(** [skb->len] *)
Definition wq_len (s : wskb) : Z := Z.of_nat (length (tx_data (wq s))).

(** The write queue is [rtx_q ++ unsent_q]; the send head is the first segment
    of [unsent_q], or NULL if there is none.  [xmit_timer] is what the
    retransmission timer is pending for and when it expires; [sal_fins] counts
    the FINs handed to the SAL. *)
Record tcp_snd := TcpSnd {
  rtx_q : list wskb; unsent_q : list wskb;
  write_seq : Z; pushed_seq : Z; snd_sml : Z; nonagle : Z;
  wmem_queued : Z; wmem_alloc : Z; sndbuf : Z; sndbuf_lock : bool;
  send_shutdown : bool; queue_shrunk : bool; no_space : bool;
  xmit_timer : option (Z * Z); total_retrans : Z; lost_retrans_low : Z;
  pmtu_cookie : Z; snd_mss_clamp : Z; ext_hdr_len : Z; sal_fins : nat;
}.
Record sndw := SndW { net : tcpw; snd_st : tcp_snd }.
Abbreviation SM := (M sndw).

(** What sending uses of the settings and of the address family. *)
Class SndEnv := {
  net_header_len : Z;
  retrans_collapse : bool;
}.

Section Send.
Context `{TcpEnv} `{SndEnv}.
Implicit Types (s : wskb) (x : tcp_snd) (t : tcp_sock).

Definition lift {A} (m : TM A) : SM A := fun w =>
  match m (net w) with
  | Ok (a, n) => Ok (a, w {{ net := n }})
  | Fault => Fault
  | NoFuel => NoFuel
  end.
Definition the_snd : SM tcp_snd := gets snd_st.
Definition upd_snd (f : tcp_snd -> tcp_snd) : SM unit := modS (fun w => w {{ snd_st ::= f }}).
Definition the_tcp : SM tcp_sock := lift the_tp.
Definition upd_tcp (f : tcp_sock -> tcp_sock) : SM unit := lift (upd f).
Definition on_cong (f : tcp_cong -> tcp_cong) : SM unit := upd_tcp (fun t => t {{ cong ::= f }}).

(** ** Memory and timers *)
Definition sk_mem_charge (size : Z) : SM unit :=
  upd_tcp (fun t => t {{ sk_forward_alloc := sk_forward_alloc t - size }}).
Definition sk_mem_uncharge (size : Z) : SM unit :=
  upd_tcp (fun t => t {{ sk_forward_alloc := sk_forward_alloc t + size }}).
Definition sk_stream_memory_free x : bool := wmem_queued x <? sndbuf x.
Definition sk_stream_moderate_sndbuf : SM unit :=
  upd_snd (fun x => if sndbuf_lock x then x
                    else x {{ sndbuf := Z.max (Z.min (sndbuf x) (Z.shiftr (wmem_queued x) 1)) SOCK_MIN_SNDBUF }}).
(** [__sk_mem_schedule] for [SK_MEM_SEND]; [sysctl_wmem[0]] is a page. *)
Definition __sk_mem_schedule_send (size : Z) : SM bool :=
  let amt := sk_mem_pages size in
  lift (modS (fun w => w {{ tp ::= (fun t => t {{ sk_forward_alloc ::= Z.add (amt * PAGE_SIZE) }});
                            memory_allocated ::= Z.add amt }}));;
  w ← getS;
  let allocated := memory_allocated (net w) in
  if allocated <=? tcp_mem0 then
    lift (modS (fun w => w {{ memory_pressure := false }}));; mret true
  else
    (if tcp_mem1 <? allocated
     then lift (modS (fun w => w {{ memory_pressure := true }})) else mret tt);;
    if (allocated <=? tcp_mem2) && (wmem_queued (snd_st w) <? PAGE_SIZE) then mret true
    else
      sk_stream_moderate_sndbuf;;
      x ← the_snd;
      if sndbuf x <=? wmem_queued x + size then mret true
      else
        lift (modS (fun w => w {{ tp ::= (fun t => t {{ sk_forward_alloc ::= Z.add (- (amt * PAGE_SIZE)) }});
                                  memory_allocated ::= Z.add (- amt) }}));;
        mret false.
Definition sk_wmem_schedule (size : Z) : SM bool :=
  t ← the_tcp;
  if size <=? sk_forward_alloc t then mret true else __sk_mem_schedule_send size.
Definition align4 (size : Z) : Z := 4 * ((size + 3) / 4).
(** A buffer with room for exactly the aligned size. *)
Definition sk_stream_alloc_skb (size : Z) : SM (option wskb) :=
  let size := align4 size in
  let truesize := size + max_tcp_header + sizeof_sk_buff in
  ok ← lift alloc_ok;
  if ok : bool then
    ok ← sk_wmem_schedule truesize;
    mret (if ok : bool
          then Some (Wskb (TxSkb 0 0 0 [] false 0 0) 0 0 max_tcp_header size truesize false) else None)
  else
    lift (modS (fun w => w {{ memory_pressure := true }}));;
    sk_stream_moderate_sndbuf;;
    mret None.
Definition sk_wmem_free_skb s : SM unit :=
  upd_snd (fun x => x {{ queue_shrunk := true; wmem_queued := wmem_queued x - wq_truesize s }});;
  sk_mem_uncharge (wq_truesize s).
Definition reset_xmit_timer (what when max_when : Z) : SM unit :=
  w ← getS;
  upd_snd (fun x => x {{ xmit_timer := Some (what, jiffies (net w) + Z.min when max_when) }}).
Definition clear_xmit_timer : SM unit := upd_snd (fun x => x {{ xmit_timer := None }}).

(** ** The segment size *)
Definition serval_tcp_bound_to_half_wnd t (pktsize : Z) : Z :=
  let mw := max_window (cong t) in
  let cutoff := if 512 <=? mw then Z.shiftr mw 1 else mw in
  if negb (cutoff =? 0) && (cutoff <? pktsize)
  then Z.max cutoff (s32 (68 - tcp_header_len t)) else pktsize.
Definition serval_tcp_mtu_to_mss t x (pmtu : Z) : Z :=
  let mss := s32 (pmtu - net_header_len - TCP_HLEN) in
  let mss := if snd_mss_clamp x <? mss then snd_mss_clamp x else mss in
  let mss := s32 (mss - ext_hdr_len x) in
  let mss := if mss <? 48 then 48 else mss in
  s32 (mss - (tcp_header_len t - TCP_HLEN)).
Definition serval_tcp_sync_mss (pmtu : Z) : SM unit :=
  t ← the_tcp; x ← the_snd;
  let mss := serval_tcp_bound_to_half_wnd t (serval_tcp_mtu_to_mss t x pmtu) in
  upd_snd (fun x => x {{ pmtu_cookie := pmtu }});;
  on_cong (fun g => g {{ mss_cache := u32 mss }}).
(** There is no route to ask, and the options of a segment are empty. *)
Definition serval_tcp_current_mss t : Z :=
  u32 (mss_cache (cong t) - (TCP_HLEN - tcp_header_len t)).

(** ** Counting *)
Definition set_pcount (n : Z) s : wskb := s {{ wq ::= (fun q => q {{ tx_pcount := n }}) }}.
Definition serval_tcp_set_skb_tso_segs s : wskb := set_pcount 1 s.
Definition serval_tcp_init_tso_segs s : wskb :=
  if tx_pcount (wq s) =? 1 then s else serval_tcp_set_skb_tso_segs s.
Definition serval_tcp_adjust_pcount s (decr : Z) : SM unit :=
  on_cong (fun g =>
    let g := g {{ packets_out := u32 (packets_out g - decr) }} in
    let g := if has (wq_sacked s) TCPCB_SACKED_ACKED then g {{ sacked_out := u32 (sacked_out g - decr) }} else g in
    let g := if has (wq_sacked s) TCPCB_SACKED_RETRANS then g {{ retrans_out := u32 (retrans_out g - decr) }} else g in
    let g := if has (wq_sacked s) TCPCB_LOST then g {{ lost_out := u32 (lost_out g - decr) }} else g in
    if 0 <? decr then g {{ sacked_out := sacked_out g - Z.min (sacked_out g) decr }} else g).
Definition csum_swap (sum : Z) : Z :=
  u32 (Z.shiftl (Z.land sum 16711935) 8 + Z.land (Z.shiftr sum 8) 16711935).
Definition csum_block_add (csum csum2 offset : Z) : Z :=
  csum_add csum (if Z.odd offset then csum_swap csum2 else csum2).
Definition csum_block_sub (csum csum2 offset : Z) : Z :=
  csum_sub csum (if Z.odd offset then csum_swap csum2 else csum2).

(** ** Cutting and joining *)

(** The segment cut at [len], and the rest of it in a new buffer, or [None] if
    there is no memory. *)
Definition serval_tcp_fragment s (len : Z) : SM (option (wskb * wskb)) :=
  if wq_len s <? len then faultM
  else
    let nsize := wq_len s - len in
    b ← sk_stream_alloc_skb nsize;
    match b with
    | None => mret None
    | Some b =>
        upd_snd (fun x => x {{ wmem_queued := wmem_queued x + wq_truesize b }});;
        sk_mem_charge (wq_truesize b);;
        let q := wq s in
        let n := Z.to_nat len in
        let cut := u32 (tx_seq q + len) in
        let tail := drop n (tx_data q) in
        let csum2 := csum_partial 0 tail 0 in
        let q1 := TxSkb (tx_seq q) cut (Z.land (tx_flags q) (Z.lnot (Z.lor TCPH_FIN TCPH_PSH)))
                        (take n (tx_data q)) (tx_partial q)
                        (if tx_partial q then tx_csum q else csum_block_sub (tx_csum q) csum2 len) 1 in
        let q2 := TxSkb cut (tx_end q) (tx_flags q) tail (tx_partial q)
                        (if tx_partial q then 0 else csum2) 1 in
        let s1 := s {{ wq := q1; wq_room := wq_room s + nsize }} in
        let s2 := Wskb q2 (wq_sacked s) (wq_when s) (wq_headroom b) (wq_room b - nsize) (wq_truesize b) false in
        t ← the_tcp;
        let diff := tx_pcount q - 2 in
        (if negb (before (snd_nxt (cong t)) (tx_end q)) && negb (diff =? 0)
         then serval_tcp_adjust_pcount s1 diff else mret tt);;
        mret (Some (s1, s2))
    end.
(** All of a buffer is linear. *)
Definition serval_tso_fragment := serval_tcp_fragment.

(** The first [len] bytes go; [None] if there is no memory for a private copy. *)
Definition serval_tcp_trim_head s (len : Z) : SM (option wskb) :=
  ok ← (if wq_cloned s then lift alloc_ok else mret true);
  if negb ok then mret None
  else
    let end_ := wq_headroom s + wq_len s + wq_room s in
    let s := if wq_cloned s
             then s {{ wq_cloned := false; wq_room := wq_room s + (32 * ((end_ + 31) / 32) - end_) }} else s in
    if wq_len s <? len then faultM
    else
      let s := if len <? wq_len s
               then s {{ wq ::= (fun q => q {{ tx_data := drop (Z.to_nat len) (tx_data q) }});
                         wq_headroom := wq_headroom s + len }}
               else s {{ wq ::= (fun q => q {{ tx_data := [] }}); wq_room := wq_room s + wq_len s }} in
      let s := s {{ wq ::= (fun q => q {{ tx_seq := u32 (tx_seq q + len); tx_partial := true }});
                    wq_truesize := wq_truesize s - len }} in
      upd_snd (fun x => x {{ wmem_queued := wmem_queued x - len; queue_shrunk := true }});;
      sk_mem_uncharge len;;
      mret (Some s).

Definition serval_tcp_collapse_retrans s n : SM wskb :=
  let q := wq s in
  let m := wq n in
  if negb (tx_pcount q =? 1) || negb (tx_pcount m =? 1) then faultM
  else
    let partial := tx_partial q || tx_partial m in
    let s' := s {{ wq := TxSkb (tx_seq q) (tx_end m) (Z.lor (tx_flags q) (tx_flags m))
                          (tx_data q ++ tx_data m) partial
                          (if partial then tx_csum q else csum_block_add (tx_csum q) (tx_csum m) (wq_len s))
                          (tx_pcount q);
                   wq_room := wq_room s - wq_len n;
                   wq_sacked := Z.lor (wq_sacked s) (Z.land (wq_sacked n) TCPCB_EVER_RETRANS) }} in
    serval_tcp_adjust_pcount n (tx_pcount m);;
    sk_wmem_free_skb n;;
    mret s'.
Definition serval_tcp_can_collapse s : bool :=
  (tx_pcount (wq s) <=? 1) && negb (wq_cloned s) && negb (has (wq_sacked s) TCPCB_SACKED_ACKED).
(** [q] is what follows up to the send head. *)
Fixpoint collapse_next s (q : list wskb) (space : Z) : SM (wskb * list wskb) :=
  match q with
  | [] => mret (s, [])
  | n :: q' =>
      t ← the_tcp;
      let space := space - wq_len n in
      if negb (serval_tcp_can_collapse n) || (space <? 0) || (wq_room s <? wq_len n) ||
         after (tx_end (wq n)) (serval_tcp_wnd_end t)
      then mret (s, q)
      else s ← serval_tcp_collapse_retrans s n; collapse_next s q' space
  end.
Definition serval_tcp_retrans_try_collapse s (q : list wskb) (space : Z) : SM (wskb * list wskb) :=
  if negb retrans_collapse || has (tx_flags (wq s)) TCPH_SYN || negb (serval_tcp_can_collapse s)
  then mret (s, q) else collapse_next s q (space - wq_len s).

(** ** Transmission *)
Definition transmit_clone s : SM (Z * wskb) :=
  w ← getS;
  let made := negb (bool_decide (head (allocs (net w)) = Some false)) in
  err ← lift (serval_tcp_transmit_skb (wq s) true);
  mret (err, s {{ wq_cloned := wq_cloned s || made }}).
Definition serval_tcp_cwnd_test t s : Z :=
  let q := wq s in
  if has (tx_flags q) TCPH_FIN && (tx_pcount q =? 1) then 1
  else
    let in_flight := serval_tcp_packets_in_flight (cong t) in
    if in_flight <? snd_cwnd (cong t) then snd_cwnd (cong t) - in_flight else 0.
Definition serval_tcp_minshall_check t x : bool :=
  after (snd_sml x) (snd_una (cong t)) && negb (after (snd_sml x) (snd_nxt (cong t))).
Definition serval_tcp_nagle_check t x s (mss nonagle : Z) : bool :=
  (wq_len s <? mss) &&
  (has nonagle TCP_NAGLE_CORK ||
   ((nonagle =? 0) && negb (packets_out (cong t) =? 0) && serval_tcp_minshall_check t x)).
Definition serval_tcp_urg_mode t : bool := negb (snd_una (cong t) =? snd_up (cong t)).
Definition serval_tcp_nagle_test t x s (mss nonagle : Z) : bool :=
  has nonagle TCP_NAGLE_PUSH || serval_tcp_urg_mode t || has (tx_flags (wq s)) TCPH_FIN ||
  negb (serval_tcp_nagle_check t x s mss nonagle).
Definition serval_tcp_snd_wnd_test t s (mss : Z) : bool :=
  let end_ := if mss <? wq_len s then u32 (tx_seq (wq s) + mss) else tx_end (wq s) in
  negb (after end_ (serval_tcp_wnd_end t)).

Definition serval_tcp_minshall_update s (mss : Z) : SM unit :=
  if wq_len s <? mss then upd_snd (fun x => x {{ snd_sml := tx_end (wq s) }}) else mret tt.
(** The first segment of the unsent part goes to the other. *)
Definition serval_tcp_event_new_data_sent s (q : list wskb) : SM unit :=
  t ← the_tcp;
  upd_snd (fun x => x {{ rtx_q := rtx_q x ++ [s]; unsent_q := q }});;
  on_cong (fun g => g {{ snd_nxt := tx_end (wq s);
                         packets_out := u32 (packets_out g + tx_pcount (wq s)) }});;
  if packets_out (cong t) =? 0
  then reset_xmit_timer STSK_TIME_RETRANS (rto (cong t)) SERVAL_TCP_RTO_MAX else mret tt.

(** Returns whether anything was sent. *)
Fixpoint xmit_loop (fuel : nat) (mss nonagle : Z) (push_one sent : bool) : SM bool :=
  match fuel with
  | O => nofuelM
  | S fuel =>
      x ← the_snd;
      match unsent_q x with
      | [] => mret sent
      | s :: q =>
          let s := serval_tcp_init_tso_segs s in
          upd_snd (fun x => x {{ unsent_q := s :: q }});;
          t ← the_tcp; x ← the_snd;
          let nonagle' := match q with [] => nonagle | _ => TCP_NAGLE_PUSH end in
          if (serval_tcp_cwnd_test t s =? 0) || negb (serval_tcp_snd_wnd_test t s mss) ||
             negb (serval_tcp_nagle_test t x s mss nonagle')
          then mret sent
          else
            cut ← (if mss <? wq_len s then
                     f ← serval_tso_fragment s mss;
                     mret (match f with Some (s1, s2) => Some (s1, s2 :: q) | None => None end)
                   else mret (Some (s, q)));
            match cut with
            | None => mret sent
            | Some (s, q) =>
                now ← lift tcp_time_stamp;
                let s := s {{ wq_when := now }} in
                '(err, s) ← transmit_clone s;
                if negb (err =? 0) then upd_snd (fun x => x {{ unsent_q := s :: q }});; mret sent
                else
                  serval_tcp_event_new_data_sent s q;;
                  serval_tcp_minshall_update s mss;;
                  if push_one then mret true else xmit_loop fuel mss nonagle push_one true
            end
      end
  end.
(** Turns: one per segment and, where it has to be cut, one per byte. *)
Definition queued_len (q : list wskb) : nat := sum_list (map (fun s => S (length (tx_data (wq s)))) q).
Definition serval_tcp_write_xmit (mss nonagle : Z) (push_one : bool) : SM bool :=
  x ← the_snd;
  sent ← xmit_loop (S (queued_len (unsent_q x))) mss nonagle push_one false;
  if sent : bool then
    now ← lift tcp_time_stamp; x ← the_snd;
    on_cong (serval_tcp_cwnd_validate (negb (no_space x)) now);;
    mret false
  else
    t ← the_tcp; x ← the_snd;
    mret ((packets_out (cong t) =? 0) && negb (bool_decide (unsent_q x = []))).
Definition serval_tcp_check_probe_timer : SM unit :=
  t ← the_tcp; x ← the_snd;
  if (packets_out (cong t) =? 0) && bool_decide (xmit_timer x = None)
  then reset_xmit_timer STSK_TIME_PROBE0 (rto (cong t)) SERVAL_TCP_RTO_MAX else mret tt.
Definition __serval_tcp_push_pending_frames (mss nonagle : Z) : SM unit :=
  t ← the_tcp;
  if tcp_state t =? TCP_CLOSE then mret tt
  else
    b ← serval_tcp_write_xmit mss nonagle false;
    if b : bool then serval_tcp_check_probe_timer else mret tt.
Definition serval_tcp_push_one (mss : Z) : SM unit :=
  x ← the_snd;
  match unsent_q x with
  | [] => faultM
  | s :: _ =>
      if wq_len s <? mss then faultM
      else serval_tcp_write_xmit mss TCP_NAGLE_PUSH true;; mret tt
  end.

(** ** Retransmission of the segment with [pre] in front of it and [post] up to
    the send head behind it *)
Definition set_rtx (q : list wskb) : SM unit := upd_snd (fun x => x {{ rtx_q := q }}).
(** Cut to the segment size, or merged with what follows. *)
Definition retransmit_shape s (post : list wskb) (mss : Z) : SM (option (wskb * list wskb)) :=
  cut ← (if mss <? wq_len s then
           f ← serval_tcp_fragment s mss;
           mret (match f with Some (s1, s2) => Some (s1, s2 :: post) | None => None end)
         else mret (Some (s, post)));
  match cut with
  | None => mret None
  | Some (s, post) => r ← serval_tcp_retrans_try_collapse s post mss; mret (Some r)
  end.
(** Some stacks want a FIN without data. *)
Definition retransmit_strip (una : Z) s : wskb :=
  let q := wq s in
  if (0 <? wq_len s) && has (tx_flags q) TCPH_FIN && (una =? u32 (tx_end q - 1))
  then s {{ wq := (serval_tcp_init_nondata_skb (u32 (tx_end q - 1)) (tx_flags q)) {{ tx_partial := false }};
            wq_room := wq_room s + wq_len s; wq_sacked := 0 }} else s.
(** What is acknowledged is trimmed first; [inl] is an error. *)
Definition retransmit_prepare (pre : list wskb) s (post : list wskb) : SM (Z + wskb * list wskb) :=
  t ← the_tcp;
  let una := snd_una (cong t) in
  trimmed ← (if before (tx_seq (wq s)) una then
               if before (tx_end (wq s)) una then faultM
               else serval_tcp_trim_head s (u32 (una - tx_seq (wq s)))
             else mret (Some s));
  match trimmed with
  | None => mret (inl (- ENOMEM))
  | Some s =>
      set_rtx (pre ++ s :: post);;
      t ← the_tcp;
      let mss := serval_tcp_current_mss t in
      if negb (before (tx_seq (wq s)) (serval_tcp_wnd_end t)) && negb (tx_seq (wq s) =? una)
      then mret (inl (- EAGAIN))
      else
        r ← retransmit_shape s post mss;
        match r with
        | None => mret (inl (- ENOMEM))
        | Some (s, post) =>
            let s := retransmit_strip una s in
            set_rtx (pre ++ s :: post);;
            mret (inr (s, post))
        end
  end.
Definition serval_tcp_retransmit_skb (pre : list wskb) s (post : list wskb) : SM Z :=
  x ← the_snd;
  if Z.min (wmem_queued x + Z.shiftr (wmem_queued x) 2) (sndbuf x) <? wmem_alloc x
  then mret (- EAGAIN)
  else
    r ← retransmit_prepare pre s post;
    match r with
    | inl err => mret err
    | inr (s, post) =>
        now ← lift tcp_time_stamp;
        let s := s {{ wq_when := now }} in
        '(err, s) ← transmit_clone s;
        if negb (err =? 0) then set_rtx (pre ++ s :: post);; mret err
        else
          t ← the_tcp;
          upd_snd (fun x => x {{ total_retrans := u32 (total_retrans x + 1) }});;
          (if retrans_out (cong t) =? 0
           then upd_snd (fun x => x {{ lost_retrans_low := snd_nxt (cong t) }}) else mret tt);;
          set_rtx (pre ++ s {{ wq_sacked ::= (fun k => Z.lor k TCPCB_RETRANS) }} :: post);;
          on_cong (fun g =>
            let g := g {{ retrans_out := u32 (retrans_out g + tx_pcount (wq s)) }} in
            let g := if retrans_stamp g =? 0 then g {{ retrans_stamp := now }} else g in
            g {{ undo_retrans := undo_retrans g + 1 }});;
          mret 0
    end.

(** ** Filling the queue *)
Definition skb_entail s : SM unit :=
  x ← the_snd;
  let s := s {{ wq ::= (fun q => q {{ tx_csum := 0; tx_seq := write_seq x; tx_end := write_seq x;
                                      tx_flags := TCPH_ACK }}); wq_sacked := 0 }} in
  upd_snd (fun x => x {{ unsent_q := unsent_q x ++ [s];
                         wmem_queued := wmem_queued x + wq_truesize s;
                         nonagle := Z.land (nonagle x) (Z.lnot TCP_NAGLE_PUSH) }});;
  sk_mem_charge (wq_truesize s).
Definition serval_tcp_queue_skb s : SM unit :=
  upd_snd (fun x => x {{ write_seq := tx_end (wq s); unsent_q := unsent_q x ++ [s];
                         wmem_queued := wmem_queued x + wq_truesize s }});;
  sk_mem_charge (wq_truesize s).
Definition set_last (f : wskb -> wskb) (q : list wskb) : list wskb :=
  match last q with Some s => removelast q ++ [f s] | None => q end.
Definition tail_unsent (f : wskb -> wskb) : SM unit :=
  upd_snd (fun x => x {{ unsent_q ::= set_last f }}).
Definition add_flags (b : Z) s : wskb := s {{ wq ::= (fun q => q {{ tx_flags := Z.lor (tx_flags q) b }}) }}.
Definition serval_tcp_mark_push : SM unit :=
  tail_unsent (add_flags TCPH_PSH);;
  upd_snd (fun x => x {{ pushed_seq := write_seq x }}).
Definition forced_push t x : bool :=
  after (write_seq x) (u32 (pushed_seq x + Z.shiftr (max_window (cong t)) 1)).
Definition serval_tcp_push (more : bool) (mss nonagle : Z) : SM unit :=
  x ← the_snd; t ← the_tcp;
  match unsent_q x with
  | [] => mret tt
  | _ =>
      (if negb more || forced_push t x then serval_tcp_mark_push else mret tt);;
      __serval_tcp_push_pending_frames mss (if more then TCP_NAGLE_CORK else nonagle)
  end.

(** The FIN is put on the last unsent segment, or in one of its own; the
    allocation is repeated until it succeeds. *)
Fixpoint alloc_fin (l : list bool) : SM unit :=
  ok ← lift alloc_ok;
  if ok : bool then mret tt
  else match l with [] => nofuelM | _ :: l => alloc_fin l end.
Definition serval_tcp_send_fin : SM unit :=
  t ← the_tcp; x ← the_snd;
  let mss := serval_tcp_current_mss t in
  (match unsent_q x with
   | _ :: _ =>
       tail_unsent (fun s => (add_flags TCPH_FIN s) {{ wq ::= (fun q => q {{ tx_end := u32 (tx_end q + 1) }}) }});;
       upd_snd (fun x => x {{ write_seq := u32 (write_seq x + 1) }})
   | [] =>
       w ← getS;
       alloc_fin (allocs (net w));;
       serval_tcp_queue_skb
         (Wskb (serval_tcp_init_nondata_skb (write_seq x) (Z.lor TCPH_ACK TCPH_FIN)) 0 0
               max_tcp_header 0 (max_tcp_header + sizeof_sk_buff) false)
   end);;
  __serval_tcp_push_pending_frames mss TCP_NAGLE_OFF.

(** One turn of the loop of [sendmsg]: bytes are put into the last unsent
    segment, or into a new one.  [None]: there is no buffer space or memory. *)
Definition skb_add_data (d : list Z) s : wskb :=
  let q := wq s in
  s {{ wq := q {{ tx_data := tx_data q ++ d;
                  tx_csum := if tx_partial q then tx_csum q
                             else csum_block_add (tx_csum q) (csum_partial 0 d 0) (wq_len s) }};
       wq_room := wq_room s - Z.of_nat (length d) }}.
(** The segment to fill and how much of it may be filled; without one, whether
    it is for the send buffer being full. *)
Definition new_segment (mss : Z) : SM (option (wskb * Z) * bool) :=
  x ← the_snd; t ← the_tcp;
  if negb (sk_stream_memory_free x) then mret (None, true)
  else
    b ← sk_stream_alloc_skb (mss_cache (cong t));
    match b with
    | None => mret (None, false)
    | Some b =>
        skb_entail b;;
        x ← the_snd;
        s ← derefM (last (unsent_q x));
        mret (Some (s, mss), false)
    end.
Definition segment_to_fill (mss : Z) : SM (option (wskb * Z) * bool) :=
  x ← the_snd;
  match last (unsent_q x) with
  | Some s => if 0 <? mss - wq_len s then mret (Some (s, mss - wq_len s), false) else new_segment mss
  | None => new_segment mss
  end.
(** Nothing is copied into a segment without room, but its bytes are counted:
    the pages that would take them are compiled out. *)
Definition fill_segment s (copied copy : Z) (d : list Z) : wskb :=
  let s := if 0 <? wq_room s then skb_add_data (take (Z.to_nat copy) d) s else s in
  s {{ wq ::= (fun q => q {{ tx_flags := if copied =? 0 then Z.land (tx_flags q) (Z.lnot TCPH_PSH) else tx_flags q;
                             tx_end := u32 (tx_end q + copy); tx_pcount := 0 }}) }}.
(** After a turn a segment that is full may be sent. *)
Definition fill_push (mss : Z) s : SM unit :=
  if wq_len s <? mss then mret tt
  else
    x ← the_snd; t ← the_tcp;
    if forced_push t x then
      serval_tcp_mark_push;; __serval_tcp_push_pending_frames mss TCP_NAGLE_PUSH
    else
      match unsent_q x with
      | [_] => serval_tcp_push_one mss
      | _ => mret tt
      end.
(** Returns what has been copied, and whether space or memory ran out. *)
Fixpoint fill_loop (fuel : nat) (mss copied : Z) (d : list Z) (last_iov : bool) : SM (Z * bool) :=
  match d with
  | [] => mret (copied, false)
  | _ =>
      match fuel with
      | O => nofuelM
      | S fuel =>
          r ← segment_to_fill mss;
          match r with
          | (None, full) =>
              (if full : bool then upd_snd (fun x => x {{ no_space := true }}) else mret tt);;
              (if copied =? 0 then mret tt else serval_tcp_push false mss TCP_NAGLE_PUSH);;
              mret (copied, true)
          | (Some (s, copy), _) =>
              let copy := Z.min copy (Z.of_nat (length d)) in
              let copy := if 0 <? wq_room s then Z.min copy (wq_room s) else copy in
              let s := fill_segment s copied copy d in
              tail_unsent (fun _ => s);;
              upd_snd (fun x => x {{ write_seq := u32 (write_seq x + copy) }});;
              let copied := copied + copy in
              let d := drop (Z.to_nat copy) d in
              if bool_decide (d = []) && last_iov then mret (copied, false)
              else
                fill_push mss s;;
                fill_loop fuel mss copied d last_iov
          end
      end
  end.
Fixpoint iov_loop (mss copied : Z) (iovs : list (list Z)) : SM (Z * bool) :=
  match iovs with
  | [] => mret (copied, false)
  | d :: iovs =>
      '(copied, stop) ← fill_loop (length d) mss copied d (bool_decide (iovs = []));
      if stop : bool then mret (copied, true) else iov_loop mss copied iovs
  end.
(** [sock_error]: the error of the socket, which is cleared. *)
Definition sock_error : SM Z :=
  t ← the_tcp;
  upd_tcp (fun t => t {{ sk_err := 0 }});;
  mret (- sk_err t).
Definition sk_stream_error (err : Z) : SM Z :=
  if err =? - EPIPE then
    e ← sock_error;
    mret (if e =? 0 then - EPIPE else e)
  else mret err.
(** A call that may not wait: [sk_stream_wait_connect] and
    [sk_stream_wait_memory] return at once. *)
Definition sk_stream_wait_connect : SM Z :=
  t ← the_tcp;
  e ← sock_error;
  mret (if negb (e =? 0) then e
        else if (tcp_state t =? TCP_SYN_SENT) || (tcp_state t =? TCP_SYN_RECV) then - EAGAIN else - EPIPE).
Definition sk_stream_wait_memory : SM Z :=
  t ← the_tcp; x ← the_snd;
  mret (if negb (sk_err t =? 0) || send_shutdown x then - EPIPE else - EAGAIN).
Definition serval_tcp_sendmsg (more : bool) (iovs : list (list Z)) : SM Z :=
  t ← the_tcp; x ← the_snd;
  if negb ((tcp_state t =? TCP_ESTABLISHED) || (tcp_state t =? TCP_CLOSE_WAIT)) then
    err ← sk_stream_wait_connect; sk_stream_error err
  else
    let mss := serval_tcp_current_mss t in
    if negb (sk_err t =? 0) || send_shutdown x then sk_stream_error (- EPIPE)
    else
      '(copied, stop) ← iov_loop mss 0 iovs;
      err ← (if stop : bool then sk_stream_wait_memory else mret 0);
      if negb (err =? 0) && (copied =? 0) then sk_stream_error err
      else
        x ← the_snd;
        (if copied =? 0 then mret tt else serval_tcp_push more mss (nonagle x));;
        mret copied.

(** ** Acknowledgements *)
Definition serval_tcp_may_update_window t (ack ack_seq nwin : Z) : bool :=
  let g := cong t in
  after ack (snd_una g) || after ack_seq (snd_wl1 g) ||
  ((ack_seq =? snd_wl1 g) && (snd_wnd g <? nwin)).
Definition serval_tcp_ack_update_window (syn : bool) (window ack ack_seq : Z) : SM Z :=
  t ← the_tcp; x ← the_snd;
  let nwin := if syn then window else u32 (Z.shiftl window (snd_wscale t)) in
  flag ← (if serval_tcp_may_update_window t ack ack_seq nwin then
            on_cong (fun g => g {{ snd_wl1 := ack_seq }});;
            (if snd_wnd (cong t) =? nwin then mret tt
             else
               on_cong (fun g => g {{ snd_wnd := nwin }});;
               upd_tcp (fun t => serval_tcp_fast_path_check (t {{ pred_flags := 0 }}));;
               if max_window (cong t) <? nwin then
                 on_cong (fun g => g {{ max_window := nwin }});; serval_tcp_sync_mss (pmtu_cookie x)
               else mret tt);;
            mret FLAG_WIN_UPDATE
          else mret 0);
  on_cong (fun g => g {{ snd_una := ack }});;
  mret flag.
Definition serval_tcp_rearm_rto : SM unit :=
  t ← the_tcp;
  if packets_out (cong t) =? 0 then clear_xmit_timer
  else reset_xmit_timer STSK_TIME_RETRANS (rto (cong t)) SERVAL_TCP_RTO_MAX.
(** The SAL's own estimator, which is fed too, is in [Rto.v]. *)
Definition serval_tcp_valid_rtt_meas (seq_rtt : Z) : SM unit :=
  on_cong (fun g => (serval_tcp_set_rto (serval_tcp_rtt_estimator seq_rtt g)) {{ backoff := 0 }}).
Definition serval_tcp_ack_no_tstamp (seq_rtt flag : Z) : SM unit :=
  if has flag FLAG_RETRANS_DATA_ACKED then mret tt else serval_tcp_valid_rtt_meas (u32 seq_rtt).
Definition serval_tcp_ack_update_rtt (flag seq_rtt : Z) : SM unit :=
  if 0 <=? seq_rtt then serval_tcp_ack_no_tstamp seq_rtt flag else mret tt.

(** What the walk over the acknowledged segments gathers. *)
Record acked := Acked { ac_flag : Z; ac_pkts : Z; ac_rtt : Z }.
Definition acked_one (now : Z) s (a : acked) : acked :=
  let n := tx_pcount (wq s) in
  let flag := ac_flag a in
  let '(flag, rtt) :=
    if has (wq_sacked s) TCPCB_RETRANS then
      let flag := Z.lor flag FLAG_RETRANS_DATA_ACKED in
      (if has flag FLAG_DATA_ACKED || (1 <? n) then Z.lor flag FLAG_NONHEAD_RETRANS_ACKED else flag, -1)
    else (flag, if ac_rtt a <? 0 then s32 (now - wq_when s) else ac_rtt a) in
  let flag := if has (tx_flags (wq s)) TCPH_SYN then Z.lor flag FLAG_SYN_ACKED
              else Z.lor (Z.lor flag FLAG_DATA_ACKED)
                         (if has (tx_flags (wq s)) TCPH_FIN then FLAG_FIN_ACKED else 0) in
  Acked flag (u32 (ac_pkts a + n)) rtt.
Definition uncount s g : tcp_cong :=
  let n := tx_pcount (wq s) in
  let g := if has (wq_sacked s) TCPCB_SACKED_RETRANS then g {{ retrans_out := u32 (retrans_out g - n) }} else g in
  let g := if has (wq_sacked s) TCPCB_SACKED_ACKED then g {{ sacked_out := u32 (sacked_out g - n) }} else g in
  let g := if has (wq_sacked s) TCPCB_LOST then g {{ lost_out := u32 (lost_out g - n) }} else g in
  let g := g {{ packets_out := u32 (packets_out g - n) }} in
  if has (tx_flags (wq s)) TCPH_SYN then g {{ retrans_stamp := 0 }} else g.
Fixpoint clean_loop (now : Z) (q : list wskb) (a : acked) : SM acked :=
  match q with
  | [] => set_rtx [];; mret a
  | s :: q' =>
      t ← the_tcp;
      if after (tx_end (wq s)) (snd_una (cong t)) then set_rtx q;; mret a
      else
        on_cong (uncount s);;
        sk_wmem_free_skb s;;
        clean_loop now q' (acked_one now s a)
  end.
Definition serval_tcp_clean_rtx_queue (prior_una : Z) : SM Z :=
  now ← lift tcp_time_stamp; x ← the_snd;
  a ← clean_loop now (rtx_q x) (Acked 0 0 (-1));
  on_cong (fun g => if between (snd_up g) prior_una (snd_una g) then g {{ snd_up := snd_una g }} else g);;
  x ← the_snd;
  let flag := match rtx_q x ++ unsent_q x with
              | s :: _ => if has (wq_sacked s) TCPCB_SACKED_ACKED
                          then Z.lor (ac_flag a) FLAG_SACK_RENEGING else ac_flag a
              | [] => ac_flag a
              end in
  (if has flag FLAG_ACKED then
     serval_tcp_ack_update_rtt flag (ac_rtt a);;
     serval_tcp_rearm_rto;;
     on_cong (serval_tcp_remove_reno_sacks (ac_pkts a))
   else mret tt);;
  (if has flag FLAG_FIN_ACKED then upd_snd (fun x => x {{ sal_fins ::= S }}) else mret tt);;
  mret flag.
(** [serval_tcp_ack] up to the congestion control: an old or invalid
    acknowledgement is refused ([None]); otherwise the window is updated and
    what is acknowledged leaves the queue.  The segment has the numbers [seq] to
    [end_], acknowledges [ack] and offers [window]. *)
Definition serval_tcp_ack_queue (flag : Z) (syn : bool) (seq end_ ack window : Z) : SM (option Z) :=
  t ← the_tcp;
  let una := snd_una (cong t) in
  if before ack una then mret None
  else if after ack (snd_nxt (cong t)) then mret None
  else
    let flag := if after ack una then Z.lor flag FLAG_SND_UNA_ADVANCED else flag in
    on_cong (fun g =>
      if tcp_abc =? 0 then g
      else if ca_state g <? TCP_CA_CWR then g {{ bytes_acked := u32 (bytes_acked g + u32 (ack - una)) }}
      else if ca_state g =? TCP_CA_Loss
      then g {{ bytes_acked := u32 (bytes_acked g + Z.min (u32 (ack - una)) (mss_cache g)) }} else g);;
    flag ← (if negb (has flag FLAG_SLOWPATH) && after ack una then
              on_cong (fun g => g {{ snd_wl1 := seq; snd_una := ack }});;
              mret (Z.lor flag FLAG_WIN_UPDATE)
            else
              f ← serval_tcp_ack_update_window syn window ack seq;
              mret (Z.lor (if seq =? end_ then flag else Z.lor flag FLAG_DATA) f));
    t ← the_tcp;
    if packets_out (cong t) =? 0 then mret (Some flag)
    else f ← serval_tcp_clean_rtx_queue una; mret (Some (Z.lor flag f)).

(** ** Probes of the window *)
Definition serval_tcp_xmit_probe_skb (urgent : bool) : SM Z :=
  ok ← lift alloc_ok;
  if negb ok then mret (-1)
  else
    t ← the_tcp;
    let seq := u32 (snd_una (cong t) - (if urgent then 0 else 1)) in
    lift (serval_tcp_transmit_skb (serval_tcp_init_nondata_skb seq TCPH_ACK) false).
Definition write_probe : SM Z :=
  t ← the_tcp;
  let g := cong t in
  (if between (snd_up g) (u32 (snd_una g + 1)) (u32 (snd_una g + 65535))
   then serval_tcp_xmit_probe_skb true;; mret tt else mret tt);;
  serval_tcp_xmit_probe_skb false.
(** The first unsent segment goes out as far as the window allows. *)
Definition wakeup_send s (q : list wskb) : SM Z :=
  t ← the_tcp;
  let mss := serval_tcp_current_mss t in
  let seg_size := u32 (serval_tcp_wnd_end t - tx_seq (wq s)) in
  upd_snd (fun x => if before (pushed_seq x) (tx_end (wq s)) then x {{ pushed_seq := tx_end (wq s) }} else x);;
  cut ← (if (seg_size <? u32 (tx_end (wq s) - tx_seq (wq s))) || (mss <? wq_len s) then
           let s := add_flags TCPH_PSH s in
           upd_snd (fun x => x {{ unsent_q := s :: q }});;
           f ← serval_tcp_fragment s (Z.min seg_size mss);
           mret (match f with Some (s1, s2) => Some (s1, s2 :: q) | None => None end)
         else mret (Some (if tx_pcount (wq s) =? 0 then serval_tcp_set_skb_tso_segs s else s, q)));
  match cut with
  | None => mret (-1)
  | Some (s, q) =>
      now ← lift tcp_time_stamp;
      let s := (add_flags TCPH_PSH s) {{ wq_when := now }} in
      '(err, s) ← transmit_clone s;
      (if err =? 0 then serval_tcp_event_new_data_sent s q
       else upd_snd (fun x => x {{ unsent_q := s :: q }}));;
      mret err
  end.
Definition serval_tcp_write_wakeup : SM Z :=
  t ← the_tcp; x ← the_snd;
  if tcp_state t =? TCP_CLOSE then mret (-1)
  else
    match unsent_q x with
    | s :: q => if before (tx_seq (wq s)) (serval_tcp_wnd_end t) then wakeup_send s q else write_probe
    | [] => write_probe
    end.

(** ** Closing: what has not been read is dropped, and a FIN is sent *)
Fixpoint unread (q : list tcp_seg) : Z :=
  match q with
  | [] => 0
  | s :: q => u32 (seg_end s - seg_seq s - (if th_fin s then 1 else 0)) + unread q
  end.
Definition serval_tcp_connection_close : SM Z :=
  t ← the_tcp;
  lift (rfree_all (receive_queue t));;
  upd_tcp (fun t => t {{ receive_queue := [] }});;
  lift sk_mem_reclaim;;
  serval_tcp_send_fin;;
  mret (unread (receive_queue t)).
End Send.
