(* ===== verification/TcpTimer.v ===== *)
(** * The timers of a connection (src/stack/serval_tcp_timer.c;
    serval_tcp_input.c lines 302-309 and 884-943; serval_tcp_output.c lines
    956-969 and 2612-2650; serval_tcp.c lines 381-385, 2712-2755 and 3080-3116;
    serval_tcp_sock.c; platform.c lines 85-124; serval_sock.c lines 778-790)

    When nothing is acknowledged in time, the first segment is sent again and
    the timeout doubles; when the window is closed, it is probed; when both go
    on for too long, the connection is given up.  The build is the user-level
    one: there are no routes to ask or to drop, orphans are not limited, and
    nothing is prequeued, since calls do not wait. *)
From S2P Require Import Prelude SalHdr Checksum TcpSock TcpCong TcpOut TcpSend.
Local Open Scope Z_scope.

Definition SERVAL_TCP_TIMEOUT_INIT : Z := 300.
Definition SERVAL_TCP_RESOURCE_PROBE_INTERVAL : Z := 50.
Definition TCP_TIMEWAIT_LEN : Z := 6000.
Definition TCP_THIN_LINEAR_RETRIES : Z := 6.
Definition SERVAL_TCP_INFINITE_SSTHRESH : Z := 2147483647.
Definition TCPCB_TAGBITS : Z := 7.
Definition ETIMEDOUT : Z := 110.

(** The position of the highest bit of an [unsigned long]; the binary search
    starts at the sixteenth. *)
Definition ilog2_step (mask sh : Z) (p : Z * Z) : Z * Z :=
  let '(i, n) := p in
  if Z.land n mask =? 0 then (i, n) else (i + sh, Z.shiftr n sh).
Definition ilog2 (n : Z) : Z :=
  let '(i, n) := ilog2_step 2 1 (ilog2_step 12 2 (ilog2_step 240 4
                   (ilog2_step 65280 8 (ilog2_step 4294901760 16 (-1, n))))) in
  if n =? 0 then i else i + 1.

(** What the timers keep, and what they ask of the SAL and of the user: resets
    that are sent, errors and changes of state that are reported, queues of
    requests that are pruned. *)
Record tcp_tim := TcpTim {
  retransmits : Z; probes_out : Z; err_soft : Z; rcv_tstamp : Z; thin_lto : bool;
  mtup_enabled : bool; mtup_search_low : Z; retransmit_high : Z; snd_mig_last : Z;
  keepalive_timer : option Z; destroyed : bool;
  sal_resets : nat; error_reports : nat; state_changes : nat; prunings : nat;
}.
Record timw := TimW { conn : sndw; tim : tcp_tim }.
Abbreviation KM := (M timw).

(** The settings the timers use. *)
Class TimEnv := {
  tcp_retries1 : Z; tcp_retries2 : Z; tcp_orphan_retries : Z;
  thin_linear_timeouts : bool; tcp_mtu_probing : bool; tcp_base_mss : Z;
  tcp_reordering : Z;
}.

Section Timer.
Context `{TcpEnv} `{SndEnv} `{TimEnv}.
Implicit Types (s : wskb) (x : tcp_snd) (t : tcp_sock) (k : tcp_tim).

Definition on_conn {A} (m : SM A) : KM A := fun w =>
  match m (conn w) with
  | Ok (a, n) => Ok (a, w {{ conn := n }})
  | Fault => Fault
  | NoFuel => NoFuel
  end.
Definition the_tim : KM tcp_tim := gets tim.
Definition upd_tim (f : tcp_tim -> tcp_tim) : KM unit := modS (fun w => w {{ tim ::= f }}).
Definition time_after (a b : Z) : bool := time_before b a.
Definition now_jiffies : KM Z := gets (fun w => jiffies (net (conn w))).
Definition now_stamp : KM Z := on_conn (lift tcp_time_stamp).
Definition tcp_of : KM tcp_sock := on_conn the_tcp.
Definition snd_of : KM tcp_snd := on_conn the_snd.

(** ** Giving up *)
Definition serval_tsk_clear_xmit_timers : KM unit :=
  on_conn clear_xmit_timer;;
  on_conn (upd_tcp (fun t => t {{ ack ::= (fun a => a {{ ack_pending := 0; blocked := 0; delack_timer := None }}) }}));;
  upd_tim (fun k => k {{ keepalive_timer := None }}).
Fixpoint purge (q : list wskb) : SM unit :=
  match q with
  | [] => mret tt
  | s :: q => sk_wmem_free_skb s;; purge q
  end.
Definition serval_tcp_write_queue_purge : SM unit :=
  x ← the_snd;
  purge (rtx_q x ++ unsent_q x);;
  upd_snd (fun x => x {{ rtx_q := []; unsent_q := [] }});;
  lift sk_mem_reclaim.
Definition serval_tcp_destroy_sock : KM unit :=
  serval_tsk_clear_xmit_timers;;
  on_conn serval_tcp_write_queue_purge;;
  t ← tcp_of;
  on_conn (lift (rfree_all (out_of_order_queue t)));;
  on_conn (upd_tcp (fun t => t {{ out_of_order_queue := [] }}));;
  upd_tim (fun k => k {{ destroyed := true }}).
(** [serval_sal_done] as the transport sees it; what the SAL does with its own
    queue and timers is in [SalCtrl.v]. *)
Definition serval_sal_done : KM unit :=
  serval_tsk_clear_xmit_timers;;
  on_conn (upd_tcp (fun t => t {{ tcp_state := TCP_CLOSE; rcv_shutdown := true }}));;
  on_conn (upd_snd (fun x => x {{ send_shutdown := true }}));;
  t ← tcp_of;
  if sock_dead t then serval_tcp_destroy_sock
  else upd_tim (fun k => k {{ state_changes ::= S }}).
Definition serval_tcp_write_err : KM unit :=
  k ← the_tim;
  on_conn (upd_tcp (fun t => t {{ sk_err := if err_soft k =? 0 then ETIMEDOUT else err_soft k }}));;
  upd_tim (fun k => k {{ error_reports ::= S }});;
  serval_sal_done.

Definition serval_tcp_too_many_orphans (shift : Z) : bool := false.
Definition serval_tcp_out_of_resources (do_reset : bool) : KM bool :=
  now ← now_stamp; t ← tcp_of; k ← the_tim;
  let g := cong t in
  let shift := (if (2 * SERVAL_TCP_RTO_MAX <? u32 (now - lsndtime g)) || negb do_reset then 1 else 0) +
               (if err_soft k =? 0 then 0 else 1) in
  if serval_tcp_too_many_orphans shift then
    let do_reset := do_reset || (s32 (now - lsndtime g) <=? TCP_TIMEWAIT_LEN) ||
                    ((snd_wnd g =? 0) && (packets_out g =? 0)) in
    (if do_reset then upd_tim (fun k => k {{ sal_resets ::= S }}) else mret tt);;
    serval_sal_done;;
    mret true
  else mret false.
Definition serval_tcp_orphan_retries k (alive : bool) : Z :=
  let retries := if negb (err_soft k =? 0) && negb alive then 0 else tcp_orphan_retries in
  if (retries =? 0) && alive then 8 else retries.

(** ** Black holes *)
Definition serval_tcp_mss_to_mtu t x (mss : Z) : Z :=
  s32 (mss + tcp_header_len t + ext_hdr_len x + net_header_len).
Definition serval_tcp_mtu_probing : KM unit :=
  if negb tcp_mtu_probing then mret tt
  else
    t ← tcp_of; x ← snd_of; k ← the_tim;
    if negb (mtup_enabled k) then
      upd_tim (fun k => k {{ mtup_enabled := true }});;
      on_conn (serval_tcp_sync_mss (pmtu_cookie x))
    else
      let mss := Z.shiftr (serval_tcp_mtu_to_mss t x (mtup_search_low k)) 1 in
      let mss := Z.min tcp_base_mss mss in
      let mss := Z.max mss (68 - tcp_header_len t) in
      upd_tim (fun k => k {{ mtup_search_low := serval_tcp_mss_to_mtu t x mss }});;
      on_conn (serval_tcp_sync_mss (pmtu_cookie x)).

(** ** Timeouts *)
Definition backoff_timeout (boundary : Z) (syn_set : bool) : Z :=
  let rto_base := if syn_set then SERVAL_TCP_TIMEOUT_INIT else SERVAL_TCP_RTO_MIN in
  let thresh := ilog2 (SERVAL_TCP_RTO_MAX / rto_base) in
  if boundary <=? thresh then u32 ((Z.shiftl 2 boundary - 1) * rto_base)
  else u32 ((Z.shiftl 2 thresh - 1) * rto_base + (boundary - thresh) * SERVAL_TCP_RTO_MAX).
(** When the first of the segments that wait was sent again, or, if none was,
    when it was sent. *)
Definition start_stamp t x : option Z :=
  if retrans_stamp (cong t) =? 0 then wq_when <$> head (rtx_q x ++ unsent_q x)
  else Some (retrans_stamp (cong t)).
Definition retransmits_timed_out (boundary : Z) (syn_set : bool) : KM bool :=
  k ← the_tim; t ← tcp_of; x ← snd_of; now ← now_stamp;
  mret (if retransmits k =? 0 then false
        else match start_stamp t x with
             | None => false
             | Some start => backoff_timeout boundary syn_set <=? u32 (now - start)
             end).
Definition handshaking t : bool := (tcp_state t =? TCP_SYN_SENT) || (tcp_state t =? TCP_SYN_RECV).
Definition write_timeout_open : KM (Z + unit) :=
  t ← tcp_of; k ← the_tim;
  gone ← retransmits_timed_out tcp_retries1 false;
  (if gone : bool then serval_tcp_mtu_probing else mret tt);;
  if sock_dead t then
    let alive := rto (cong t) <? SERVAL_TCP_RTO_MAX in
    let retry_until := serval_tcp_orphan_retries k alive in
    out ← retransmits_timed_out retry_until false;
    b ← serval_tcp_out_of_resources (alive || negb out);
    mret (if b : bool then inr tt else inl retry_until)
  else mret (inl tcp_retries2).
(** Whether the connection has been given up. *)
Definition serval_tcp_write_timeout : KM bool :=
  t ← tcp_of;
  r ← (if handshaking t then mret (inl 0) else write_timeout_open);
  match r with
  | inr _ => mret true
  | inl retry_until =>
      out ← retransmits_timed_out retry_until false;
      if out : bool then serval_tcp_write_err;; mret true else mret false
  end.

(** ** Loss: every segment that has been sent counts as lost *)
Definition mark_one (how : bool) s (g : tcp_cong) (high : Z) : wskb * tcp_cong * Z :=
  let g := if has (wq_sacked s) TCPCB_RETRANS then g {{ undo_marker := 0 }} else g in
  let m := Z.land (wq_sacked s) (Z.lor (Z.lnot TCPCB_TAGBITS) TCPCB_SACKED_ACKED) in
  if negb (has m TCPCB_SACKED_ACKED) || how
  then (s {{ wq_sacked := Z.lor (Z.land m (Z.lnot TCPCB_SACKED_ACKED)) TCPCB_LOST }},
        g {{ lost_out := u32 (lost_out g + tx_pcount (wq s)) }}, tx_end (wq s))
  else (s {{ wq_sacked := m }}, g, high).
Fixpoint mark_lost (how : bool) (q : list wskb) (g : tcp_cong) (high : Z) : list wskb * tcp_cong * Z :=
  match q with
  | [] => ([], g, high)
  | s :: q =>
      let '(s, g, high) := mark_one how s g high in
      let '(q, g, high) := mark_lost how q g high in
      (s :: q, g, high)
  end.
Definition serval_tcp_enter_loss (how : bool) : KM unit :=
  k ← the_tim; x ← snd_of; now ← now_stamp; t ← tcp_of;
  let g := loss_window how (retransmits k) now (cong t) in
  let '(q, g, high) := mark_lost how (rtx_q x) g (retransmit_high k) in
  on_conn (set_rtx q);;
  upd_tim (fun k => k {{ retransmit_high := high }});;
  on_conn (on_cong (fun _ => loss_state tcp_reordering g)).

(** ** Probing a closed window *)

(** [rto << backoff] of 32 bits; a shift by 32 or more is undefined. *)
Definition rto_backed_off t : option Z :=
  if backoff (cong t) <? 32 then Some (u32 (Z.shiftl (rto (cong t)) (backoff (cong t)))) else None.
Definition serval_tcp_send_probe0 : KM unit :=
  err ← on_conn serval_tcp_write_wakeup;
  t ← tcp_of; x ← snd_of;
  if negb (packets_out (cong t) =? 0) || bool_decide (unsent_q x = []) then
    upd_tim (fun k => k {{ probes_out := 0 }});;
    on_conn (on_cong (fun g => g {{ backoff := 0 }}))
  else if err <=? 0 then
    on_conn (on_cong (fun g => if backoff g <? tcp_retries2 then g {{ backoff := u8 (backoff g + 1) }} else g));;
    upd_tim (fun k => k {{ probes_out := u8 (probes_out k + 1) }});;
    t ← tcp_of;
    r ← derefM (rto_backed_off t);
    on_conn (reset_xmit_timer STSK_TIME_PROBE0 (Z.min r SERVAL_TCP_RTO_MAX) SERVAL_TCP_RTO_MAX)
  else
    upd_tim (fun k => if probes_out k =? 0 then k {{ probes_out := 1 }} else k);;
    r ← derefM (rto_backed_off t);
    on_conn (reset_xmit_timer STSK_TIME_PROBE0
               (Z.min r SERVAL_TCP_RESOURCE_PROBE_INTERVAL) SERVAL_TCP_RTO_MAX).
Definition serval_tcp_probe_timer : KM unit :=
  t ← tcp_of; x ← snd_of; k ← the_tim;
  if negb (packets_out (cong t) =? 0) || bool_decide (unsent_q x = [])
  then upd_tim (fun k => k {{ probes_out := 0 }})
  else
    r ← (if sock_dead t then
           r ← derefM (rto_backed_off t);
           let alive := r <? SERVAL_TCP_RTO_MAX in
           let max_probes := serval_tcp_orphan_retries k alive in
           b ← serval_tcp_out_of_resources (alive || (probes_out k <=? max_probes));
           mret (if b : bool then None else Some max_probes)
         else mret (Some tcp_retries2));
    match r with
    | None => mret tt
    | Some max_probes =>
        if max_probes <? probes_out k then serval_tcp_write_err else serval_tcp_send_probe0
    end.

(** ** Retransmission *)
Definition retransmit_head : SM Z :=
  x ← the_snd;
  match rtx_q x with
  | [] => faultM
  | s :: post => serval_tcp_retransmit_skb [] s post
  end.
Definition serval_tcp_stream_is_thin (g : tcp_cong) : bool :=
  (packets_out g <? 4) && (snd_ssthresh g <? SERVAL_TCP_INFINITE_SSTHRESH).
(** The timeout doubles, or for the first retransmissions of a thin stream is
    computed anew. *)
Definition next_rto t k (g : tcp_cong) : tcp_cong :=
  if (tcp_state t =? TCP_ESTABLISHED) && (thin_lto k || thin_linear_timeouts) &&
     serval_tcp_stream_is_thin g && (retransmits k <=? TCP_THIN_LINEAR_RETRIES)
  then g {{ backoff := 0; rto := Z.min (__serval_tcp_set_rto g) SERVAL_TCP_RTO_MAX }}
  else g {{ rto := Z.min (u32 (Z.shiftl (rto g) 1)) SERVAL_TCP_RTO_MAX }}.
Definition out_reset_timer : KM unit :=
  t ← tcp_of; k ← the_tim;
  on_conn (on_cong (next_rto t k));;
  t ← tcp_of;
  on_conn (reset_xmit_timer STSK_TIME_RETRANS (rto (cong t)) SERVAL_TCP_RTO_MAX).
(** Local congestion does not count as a retransmission. *)
Definition after_retransmit (err : Z) : KM unit :=
  if 0 <? err then
    upd_tim (fun k => if retransmits k =? 0 then k {{ retransmits := 1 }} else k);;
    t ← tcp_of;
    on_conn (reset_xmit_timer STSK_TIME_RETRANS
               (Z.min (rto (cong t)) SERVAL_TCP_RESOURCE_PROBE_INTERVAL) SERVAL_TCP_RTO_MAX)
  else
    on_conn (on_cong (fun g => g {{ backoff := u8 (backoff g + 1) }}));;
    upd_tim (fun k => k {{ retransmits := u8 (retransmits k + 1) }});;
    out_reset_timer.
Definition serval_tcp_retransmit_timer : KM unit :=
  t ← tcp_of; k ← the_tim; now ← now_stamp;
  if packets_out (cong t) =? 0 then mret tt
  else if (snd_wnd (cong t) =? 0) && negb (sock_dead t) && negb (handshaking t) then
    if SERVAL_TCP_RTO_MAX <? u32 (now - rcv_tstamp k) then serval_tcp_write_err
    else
      serval_tcp_enter_loss false;;
      on_conn retransmit_head;;
      out_reset_timer
  else
    gone ← serval_tcp_write_timeout;
    if gone : bool then mret tt
    else
      serval_tcp_enter_loss false;;
      err ← on_conn retransmit_head;
      after_retransmit err.

(** ** The handlers.  They return when they have put the timer off to, without a
    new timeout; [owned] is whether the user holds the socket. *)
Definition serval_tcp_write_timer (owned : bool) : KM (option Z) :=
  j ← now_jiffies; t ← tcp_of; x ← snd_of;
  if owned then mret (Some (j + 5))
  else
    r ← match xmit_timer x with
        | None => mret None
        | Some (event, timeout) =>
            if tcp_state t =? TCP_CLOSE then mret None
            else if time_after timeout j then mret (Some timeout)
            else
              on_conn clear_xmit_timer;;
              (if event =? STSK_TIME_RETRANS then serval_tcp_retransmit_timer
               else if event =? STSK_TIME_PROBE0 then serval_tcp_probe_timer else mret tt);;
              mret None
        end;
    on_conn (lift sk_mem_reclaim);;
    mret r.
Definition sk_mem_reclaim_partial : TM unit :=
  t ← the_tp;
  if PAGE_SIZE <? sk_forward_alloc t then sk_mem_reclaim else mret tt.
Definition delack_missed : TM unit :=
  t ← the_tp;
  if serval_tsk_ack_scheduled t then
    upd_ack (fun a => if pingpong a =? 0 then a {{ ato := Z.min (u32 (Z.shiftl (ato a) 1)) (rto (cong t)) }}
                      else a {{ pingpong := 0; ato := TCP_ATO_MIN }});;
    serval_tcp_send_ack
  else mret tt.
Definition serval_tcp_delack_timer (owned : bool) : TM unit :=
  upd_ack (fun a => a {{ delack_timer := None }});;
  w ← getS;
  if owned then
    upd_ack (fun a => a {{ blocked := 1; delack_timer := Some (jiffies w + TCP_DELACK_MIN) }})
  else
    sk_mem_reclaim_partial;;
    t ← the_tp;
    (if (tcp_state t =? TCP_CLOSE) || negb (has (ack_pending (ack t)) STSK_ACK_TIMER) then mret tt
     else if time_after (ack_timeout (ack t)) (jiffies w)
     then upd_ack (fun a => a {{ delack_timer := Some (ack_timeout a) }})
     else
       upd_ack (fun a => a {{ ack_pending := Z.land (ack_pending a) (Z.lnot STSK_ACK_TIMER) }});;
       delack_missed);;
    w ← getS;
    if memory_pressure w then sk_mem_reclaim else mret tt.
(** Only listening sockets use it: their requests are pruned, as
    [SalListen.v] has it. *)
Definition serval_tcp_keepalive_timer (owned : bool) : KM unit :=
  upd_tim (fun k => k {{ keepalive_timer := None }});;
  j ← now_jiffies; t ← tcp_of;
  if owned then upd_tim (fun k => k {{ keepalive_timer := Some (j + 5) }})
  else if tcp_state t =? TCP_LISTEN then upd_tim (fun k => k {{ prunings ::= S }})
  else mret tt.

(** ** Migration stops the timer, and starts it again *)
Definition serval_tcp_freeze_flow : KM Z := on_conn clear_xmit_timer;; mret 0.
Definition serval_tcp_push_pending_frames : SM unit :=
  t ← the_tcp; x ← the_snd;
  match unsent_q x with
  | [] => mret tt
  | _ => __serval_tcp_push_pending_frames (serval_tcp_current_mss t) (nonagle x)
  end.
Definition serval_tcp_migration_completed : KM Z :=
  t ← tcp_of;
  upd_tim (fun k => k {{ snd_mig_last := snd_nxt (cong t) }});;
  (if packets_out (cong t) =? 0 then mret tt
   else on_conn (reset_xmit_timer STSK_TIME_RETRANS 1 SERVAL_TCP_RTO_MAX));;
  (if snd_wnd (cong t) =? 0 then serval_tcp_send_probe0
   else on_conn serval_tcp_push_pending_frames);;
  mret 0.
End Timer.
