(* ===== verification/TcpWire.v ===== *)
(** * Frames on the wire (src/stack/serval_tcp.c lines 214-313)

    What transmission puts on the wire, and the checks and the control block of
    a frame that comes in; the effect of transmission on the connection. *)
From S2P Require Import Prelude SalHdr Checksum TcpSock TcpQueue TcpFrame TcpQueueOk TcpStream TcpCong TcpCongOk TcpOut TcpRecv TcpRecvOk.
Local Open Scope Z_scope.

(** ** Receiving a frame *)
Definition byte_at (d : list Z) (i : nat) : Z := nth i d 0.
Definition be32_at (d : list Z) (i : nat) : Z :=
  byte_at d i * 2 ^ 24 + byte_at d (i + 1) * 2 ^ 16 + byte_at d (i + 2) * 2 ^ 8 + byte_at d (i + 3).
(** Short packets are verified at once; [true] is a bad checksum. *)
Definition serval_tcp_v4_checksum_init (saddr daddr : Z) (d : list Z) : bool :=
  let len := Z.of_nat (length d) in
  let csum := csum_tcpudp_nofold saddr daddr len TCP_IPPROTO 0 in
  if len <=? 76 then negb (csum_fold (csum_partial 0 d csum) =? 0) else false.
(** [verified]: the packet needs no checksum; the buffer has [headroom] in front
    of the header and is charged [truesize]. *)
Definition serval_tcp_rcv_checks (verified : bool) (saddr daddr headroom truesize : Z) (d : list Z)
  : option tcp_seg :=
  let len := Z.of_nat (length d) in
  let doff := Z.shiftr (byte_at d 12) 4 in
  if len <? TCP_HLEN then None
  else if doff <? 5 then None
  else if len <? 4 * doff then None
  else if negb verified && serval_tcp_v4_checksum_init saddr daddr d then None
  else
    let flags := byte_at d 13 in
    let seq := be32_at d 4 in
    let syn := if Z.testbit flags 1 then 1 else 0 in
    let fin := if Z.testbit flags 0 then 1 else 0 in
    Some (TcpSeg seq (u32 (seq + syn + fin + len - 4 * doff)) flags doff d headroom truesize 0).

(** The frame of a segment: a header of 20 bytes and the data. *)
Record frame (q : tx_skb) (d : list Z) : Prop := {
  frame_data : (20 <= length d)%nat /\ drop 20 d = tx_data q;
  frame_seq : be32_at d 4 = u32 (tx_seq q);
  frame_doff : Z.shiftr (byte_at d 12) 4 = 5;
  frame_fin : Z.testbit (byte_at d 13) 0 = Z.testbit (tx_flags q) 0;
  frame_syn : Z.testbit (byte_at d 13) 1 = Z.testbit (tx_flags q) 1;
}.

Lemma be32_value z :
  Z.land (Z.shiftr z 24) 255 * 2 ^ 24 + Z.land (Z.shiftr z 16) 255 * 2 ^ 16 +
  Z.land (Z.shiftr z 8) 255 * 2 ^ 8 + Z.land z 255 = u32 z.
Proof.
  unfold u32. change 255 with (Z.ones 8). rewrite !Z.land_ones, !Z.shiftr_div_pow2 by lia.
  change (2 ^ 24) with 16777216. change (2 ^ 16) with 65536. change (2 ^ 8) with 256.
  change (2 ^ 32) with 4294967296. Z.to_euclidean_division_equations; lia.
Qed.

Section Wire.
Context `{EOk : TcpEnvOk}.
Implicit Types (t : tcp_sock) (q : tx_skb) (w : tcpw).

Lemma frame_bits flags urg i :
  0 <= flags < 256 -> (i = 0 \/ i = 1) ->
  let f := if urg : bool then Z.lor flags TCPH_URG else flags in
  Z.shiftr (Z.land (Z.shiftr (Z.lor (Z.shiftl (Z.shiftr (0 + TCP_HLEN) 2) 12) f) 8) 255) 4 = 5 /\
  Z.testbit (Z.land (Z.lor (Z.shiftl (Z.shiftr (0 + TCP_HLEN) 2) 12) f) 255) i = Z.testbit flags i.
Proof.
  intros Hf Hi f. assert (Hb : 0 <= f < 256).
  { subst f. destruct urg; [|done]. change 256 with (2 ^ 8) in *.
    split; [apply Z.lor_nonneg; unfold TCPH_URG; lia|]. destruct (decide (flags = 0)) as [->|]; [by vm_compute|].
    apply Z.log2_lt_pow2.
    - assert (Z.lor flags TCPH_URG <> 0) by (intros E; apply Z.lor_eq_0_iff in E; lia).
      assert (0 <= Z.lor flags TCPH_URG) by (apply Z.lor_nonneg; unfold TCPH_URG; lia). lia.
    - rewrite Z.log2_lor by (unfold TCPH_URG; lia). apply Z.max_lub_lt; [|by vm_compute].
      apply Z.log2_lt_pow2; lia. }
  change (Z.shiftl (Z.shiftr (0 + TCP_HLEN) 2) 12) with 20480. split.
  - assert (E : Z.land (Z.shiftr (Z.lor 20480 f) 8) 255 = 80); [|by rewrite E].
    rewrite Z.shiftr_lor, (Z.shiftr_div_pow2 f), (Z.div_small f) by lia. done.
  - rewrite Z.land_spec, Z.lor_spec. replace (Z.testbit 20480 i) with false by (destruct Hi as [-> | ->]; done).
    replace (Z.testbit 255 i) with true by (destruct Hi as [-> | ->]; done).
    rewrite andb_true_r, orb_false_l. subst f. destruct urg; [|done].
    rewrite Z.lor_spec. replace (Z.testbit TCPH_URG i) with false by (destruct Hi as [-> | ->]; done).
    apply orb_false_r.
Qed.
(** The bytes that transmission builds. *)
Lemma header_frame t q window :
  0 <= tx_flags q < 256 ->
  frame q (serval_tcp_v4_send_check t q (Z.to_nat (0 + TCP_HLEN))
             (tcp_header t q (0 + TCP_HLEN) window ++ serval_tcp_options_write no_options ++ tx_data q)).
Proof.
  intros Hf. unfold serval_tcp_v4_send_check. set (c := if negb checksum_mode then _ else _).
  unfold tcp_header. destruct (urg_fields t q) as [ptr urg].
  destruct (frame_bits (tx_flags q) urg 0 Hf) as [Hdoff Hfin]; [auto|].
  destruct (frame_bits (tx_flags q) urg 1 Hf) as [_ Hsyn]; [auto|].
  change (serval_tcp_options_write no_options) with (@nil Z). clearbody c.
  split; try done; [|apply be32_value]. split; [simpl; lia|]. done.
Qed.

(** ** The connection around a transmission

    A connection that can transmit: its receiving half is sound (for the stream
    [RSt] of the other direction, which starts at [risn]), its congestion
    window and its clamp are 32-bit numbers, and a pending error is positive.  [core]: what transmission leaves alone. *)
Context (RSt : list Z) (risn : Z).
Definition cwnd_range (g : tcp_cong) : Prop := 0 <= snd_cwnd g < 2 ^ 32 /\ 0 <= snd_cwnd_clamp g.
Definition able t : Prop := cwnd_range (cong t) /\ 0 <= sk_err t.
Definition fine w : Prop :=
  (exists c n u, alive RSt risn w c n u) /\ able (tp w).
Definition place t := (snd_una (cong t), snd_nxt (cong t), mss_cache (cong t), tcp_header_len t, tcp_state t).
Definition core t := (place t, packets_out (cong t)).
Definition receiver t :=
  ((rcv_nxt t, copied_seq t, rcv_wup t, rcv_wnd t), (receive_queue t, out_of_order_queue t),
   (rcv_mss (ack t), advmss t, tcp_header_len t, window_clamp t, sk_rcvbuf t, rqs_space t),
   (rcv_ssthresh t, rcv_wscale t)).
Lemma alive_receiver w w' c n u :
  receiver (tp w') = receiver (tp w) -> alive RSt risn w c n u -> alive RSt risn w' c n u.
Proof.
  intros E [[] Hwin []]. unfold win_ok in *. injection E as E1 E2 E3 E4 E5 E6 E7 E8 E9 E10 E11 E12 E13 E14.
  split; [split; congruence|unfold win_ok; congruence|].
  split; rewrite ?E1, ?E2, ?E3, ?E4, ?E5, ?E6; assumption.
Qed.
Lemma fine_receiver w w' :
  receiver (tp w') = receiver (tp w) -> able (tp w') -> fine w -> fine w'.
Proof. intros E ? [(c & n & u & Ha) _]. split; [|done]. exists c, n, u. by eapply alive_receiver. Qed.

(** Code that sends nothing and leaves the connection able to transmit. *)
Definition mild {A} (m : TM A) : Prop := forall w, fine w ->
  wp m w (fun _ w' => fine w' /\ core (tp w') = core (tp w) /\ sent w' = sent w).
Lemma mild_ret {A} (a : A) : mild (mret a).
Proof. intros w ?. by apply wp_ret. Qed.
Lemma mild_bind {A B} (m : TM A) (k : A -> TM B) : mild m -> (forall a, mild (k a)) -> mild (m ≫= k).
Proof.
  intros Hm Hk w Hw. apply wp_bind. eapply wp_mono; [by apply Hm|]. intros a w1 (Hw1 & Hc & Hs).
  eapply wp_mono; [by apply Hk|]. intros b w2 (? & ? & ?). split_and!; [done|congruence..].
Qed.
Lemma mild_getS : mild getS.
Proof. intros w ?. by apply wp_getS. Qed.
Lemma mild_gets {A} (f : tcpw -> A) : mild (gets f).
Proof. intros w ?. by apply wp_gets. Qed.
Lemma mild_mod f :
  (forall w, receiver (tp (f w)) = receiver (tp w) /\ core (tp (f w)) = core (tp w) /\ sent (f w) = sent w /\
             (able (tp w) -> able (tp (f w)))) -> mild (modS f).
Proof.
  intros Hf w Hw. apply wp_modS. destruct (Hf w) as (Hr & ? & ? & Hc). split_and!; [|done..].
  apply (fine_receiver w); [done| |done]. apply Hc, Hw.
Qed.
Lemma mild_if {A} (b : bool) (m m' : TM A) : mild m -> mild m' -> mild (if b then m else m').
Proof. by destruct b. Qed.
Lemma mild_ack f : (forall a, rcv_mss (f a) = rcv_mss a) -> mild (upd_ack f).
Proof.
  intros Hf. apply mild_mod. intros [[]]. split_and!; try done. unfold receiver. cbn. by rewrite Hf.
Qed.
Lemma mild_cong f :
  (forall g, snd_una (f g) = snd_una g /\ snd_nxt (f g) = snd_nxt g /\ mss_cache (f g) = mss_cache g /\
     packets_out (f g) = packets_out g) ->
  (forall g, cwnd_range g -> cwnd_range (f g)) ->
  mild (upd (fun t => t {{ cong ::= f }})).
Proof.
  intros Hf Hc w Hw. apply wp_modS. destruct (Hf (cong (tp w))) as (Hu & Hn & Hm & Hp). split_and!; [| |done].
  2: { change ((snd_una (f (cong (tp w))), snd_nxt (f (cong (tp w))), mss_cache (f (cong (tp w))),
         tcp_header_len (tp w), tcp_state (tp w), packets_out (f (cong (tp w)))) = core (tp w)).
       by rewrite Hu, Hn, Hm, Hp. }
  apply (fine_receiver w); [done| |done]. split; [apply (Hc (cong (tp w))), Hw|apply Hw].
Qed.
End Wire.
Ltac mild_step :=
  lazymatch goal with
  | |- mild _ _ (mret _) => apply mild_ret
  | |- mild _ _ (mbind _ _) => apply mild_bind; [|intros ?]
  | |- mild _ _ (gets _) => apply mild_gets
  | |- mild _ _ the_tp => apply mild_gets
  | |- mild _ _ getS => apply mild_getS
  | |- mild _ _ (if _ then _ else _) => apply mild_if
  | |- mild _ _ (modS _) => apply mild_mod; intros; by split_and!
  | |- mild _ _ (upd _) => apply mild_mod; intros; by split_and!
  | |- mild _ _ (upd_ack _) => apply mild_ack; intros; by repeat case_match
  end.
Ltac mild_steps := repeat mild_step.

Section Transmit.
Context `{EOk : TcpEnvOk} (RSt : list Z) (risn : Z).
Implicit Types (t : tcp_sock) (q : tx_skb) (w : tcpw).
Abbreviation mild := (mild RSt risn).
Abbreviation fine := (fine RSt risn).

Lemma alloc_mild : mild alloc_ok.
Proof. unfold alloc_ok. mild_steps. destruct (allocs a); mild_steps. Qed.
Lemma stamp_mild : mild tcp_time_stamp.
Proof. unfold tcp_time_stamp. mild_steps. Qed.
Lemma enter_cwr_mild b now : mild (upd (fun t => t {{ cong ::= serval_tcp_enter_cwr b now }})).
Proof.
  apply mild_cong; intros g; unfold serval_tcp_enter_cwr.
  - destruct b; simpl; case_match; done.
  - pose proof (u32_range (serval_tcp_packets_in_flight g + 1)) as Hp.
    unfold cwnd_range, serval_tcp_packets_in_flight, serval_tcp_left_out in *.
    destruct g, b; simpl in *; intros []; destruct (_ <? TCP_CA_CWR); simpl; unfold constant; lia.
Qed.
Lemma event_ack_mild k : mild (serval_tcp_event_ack_sent k).
Proof.
  unfold serval_tcp_event_ack_sent, serval_tcp_dec_quickack_mode, clear_delack_timer. mild_steps.
Qed.
Lemma restart_mild now :
  mild (upd_cong (serval_tcp_cwnd_restart now)).
Proof.
  intros w Hw. unfold upd_cong, wp. destruct Hw as [Ha [[Hc Hcl] Hk]]. set (g := cong (tp w)) in *.
  unfold serval_tcp_cwnd_restart. set (restart := Z.min _ _).
  assert (0 <= restart <= snd_cwnd g).
  { subst restart. unfold serval_tcp_init_cwnd. repeat case_match; lia. }
  destruct (restart_loop_ok 34 (s32 (now - lsndtime g)) (rto g) (snd_cwnd g) restart) as (c & -> & ?);
    [lia..|]. simpl. split_and!; [|done|done]. apply (fine_receiver RSt risn w); [done| |by split].
  split; [|done]. change (0 <= Z.max c restart < 2 ^ 32 /\ 0 <= snd_cwnd_clamp g). lia.
Qed.
Lemma data_sent_mild : mild serval_tcp_event_data_sent.
Proof.
  unfold serval_tcp_event_data_sent. apply mild_bind; [apply stamp_mild|intros now].
  apply mild_bind; [mild_steps|intros t]. cbv zeta. apply mild_bind; [|intros _].
  { apply mild_if; [apply restart_mild|apply mild_ret]. }
  mild_steps.
Qed.

(** Choosing the window touches neither the sender nor the wire. *)
Definition keeps {A} (m : TM A) : Prop := forall w a w', m w = Ok (a, w') ->
  (cong (tp w'), tcp_header_len (tp w'), sk_err (tp w')) = (cong (tp w), tcp_header_len (tp w), sk_err (tp w)) /\
  sent w' = sent w.
Lemma keeps_bind {A B} (m : TM A) (k : A -> TM B) : keeps m -> (forall a, keeps (k a)) -> keeps (m ≫= k).
Proof.
  intros Hm Hk w b w2 Hr. apply bind_Ok_inv in Hr as (a & w1 & Hr1 & Hr2).
  destruct (Hm _ _ _ Hr1) as [? ?], (Hk _ _ _ _ Hr2) as [? ?]. split; congruence.
Qed.
Lemma keeps_ret {A} (a : A) : keeps (mret a).
Proof. intros w b w' [= <- <-]. done. Qed.
Lemma select_window_keeps : keeps serval_tcp_select_window.
Proof.
  unfold serval_tcp_select_window, __serval_tcp_select_window, round_window.
  repeat first [apply keeps_bind; [|intros ?] | apply keeps_ret | progress (cbv zeta) | case_match];
    intros w b w' [=]; simplify_eq; done.
Qed.
Lemma select_window_fine w :
  fine w -> wp serval_tcp_select_window w (fun _ w' =>
    fine w' /\ core (tp w') = core (tp w) /\ sent w' = sent w).
Proof.
  intros [(c & n & u & Ha) Hc].
  pose proof (select_window_spec RSt risn w c n u Ha) as Hs.
  apply wp_run in Hs as (adv & w' & Hrun & Ha' & Ho & _). apply wp_run. exists adv, w'. split; [done|].
  destruct (select_window_keeps _ _ _ Hrun) as [[= Hcg Hh Hk] Hsent]. split_and!; [|unfold core, place, others in *; congruence|done].
  split; [by exists c, n, n|]. unfold able. by rewrite Hcg, Hk.
Qed.
(** A transmission puts the frame of its segment on the wire, or nothing. *)
Lemma tcp_transmit_ok q clone w :
  fine w -> tx_pcount q <> 0 -> 0 <= tx_flags q < 256 -> Z.testbit (tx_flags q) 1 = false ->
  wp (serval_tcp_transmit_skb q clone) w (fun _ w' => fine w' /\ core (tp w') = core (tp w) /\
    (sent w' = sent w \/ exists d, sent w' = sent w ++ [d] /\ frame q d)).
Proof.
  intros Hw Hpc Hfl Hsyn. unfold serval_tcp_transmit_skb.
  replace (tx_pcount q =? 0) with false by lia. apply wp_bind.
  eapply wp_mono; [apply (mild_if RSt risn clone); [apply alloc_mild|apply mild_ret|exact Hw]|].
  intros ok w1 (Hw1 & Hc1 & Hs1). destruct (negb ok); [apply wp_ret; auto|].
  apply wp_bind, wp_gets. cbv zeta.
  replace (Z.land (tx_flags q) TCPH_SYN =? 0) with true.
  2: { symmetry. apply Z.eqb_eq. change TCPH_SYN with (2 ^ 1).
       apply Z.bits_inj'. intros i Hi. rewrite Z.land_spec, Z.bits_0, Z.pow2_bits_eqb by lia.
       destruct (Z.eqb_spec 1 i) as [<-|]; [by rewrite Hsyn|apply andb_false_r]. }
  cbn [negb serval_tcp_established_options]. apply wp_bind.
  eapply wp_mono; [by apply select_window_fine|]. intros adv w2 (Hw2 & Hc2 & Hs2).
  set (d := serval_tcp_v4_send_check _ _ _ _).
  assert (Hd : frame q d) by (by apply header_frame). clearbody d.
  apply wp_bind. eapply wp_mono; [apply (mild_if RSt risn _); [apply mild_ret|apply event_ack_mild|exact Hw2]|].
  intros _ w3 (Hw3 & Hc3 & Hs3). apply wp_bind.
  eapply wp_mono; [apply (mild_if RSt risn _); [apply mild_ret|apply data_sent_mild|exact Hw3]|].
  intros _ w4 (Hw4 & Hc4 & Hs4). apply wp_bind. unfold sal_xmit. apply wp_bind, wp_getS, wp_bind, wp_modS.
  wp_state w5. assert (Hw5 : fine w5) by (apply (fine_receiver RSt risn w4); [done|apply Hw4|done]).
  assert (Hc5 : core (tp w5) = core (tp w)) by (transitivity (core (tp w4)); [done|congruence]).
  assert (Hs5 : sent w5 = sent w ++ [d]) by (change (sent w4 ++ [d] = sent w ++ [d]); congruence).
  clearbody w5.
  assert (Htail : forall err w6, fine w6 -> core (tp w6) = core (tp w) -> sent w6 = sent w ++ [d] ->
    wp (if err <=? 0 then mret err
        else now ← tcp_time_stamp;
             upd (fun t => t {{ cong ::= serval_tcp_enter_cwr true now }});;
             mret (if err =? NET_XMIT_CN then 0 else err)) w6
      (fun _ w' => fine w' /\ core (tp w') = core (tp w) /\
        (sent w' = sent w \/ exists d, sent w' = sent w ++ [d] /\ frame q d))).
  { intros err w6 Hw6 Hc6 Hs6. eapply wp_mono.
    { apply (mild_if RSt risn _); [apply mild_ret| |exact Hw6]. apply mild_bind; [apply stamp_mild|intros now].
      apply mild_bind; [apply enter_cwr_mild|intros _; apply mild_ret]. }
    intros r w7 (? & ? & ?). split_and!; [done|congruence|]. right. exists d. split; [congruence|done]. }
  destruct (xmit_results w4); [apply wp_ret; by apply Htail|].
  apply wp_bind, wp_modS, wp_ret, Htail; try done. apply (fine_receiver RSt risn w5); [done|apply Hw5|done].
Qed.
End Transmit.
