(* ===== verification/TcpSendOk.v ===== *)
(** * The write queue holds the stream

    The bytes a user writes and the FIN behind them are the offsets of a
    stream; the write queue holds it from the first byte that is not
    acknowledged on, cut into segments.  Every operation keeps that, and what it
    transmits are frames of the stream. *)
From S2P Require Import Prelude SalHdr Checksum TcpSock TcpQueue TcpFrame TcpQueueOk TcpStream TcpCong TcpCongOk TcpOut TcpRecv TcpRecvOk TcpSend TcpWire.
Local Open Scope Z_scope.

(** ** Flags *)
Lemma lor_byte x y : 0 <= x < 256 -> 0 <= y < 256 -> 0 <= Z.lor x y < 256.
Proof.
  intros. change 256 with (2 ^ 8) in *. split; [apply Z.lor_nonneg; lia|].
  destruct (decide (Z.lor x y = 0)) as [->|]; [lia|].
  assert (0 <= Z.lor x y) by (apply Z.lor_nonneg; lia).
  apply Z.log2_lt_pow2; [lia|]. rewrite Z.log2_lor by lia.
  assert (Hl : forall z, 0 <= z < 2 ^ 8 -> Z.log2 z < 8).
  { intros z ?. destruct (decide (z = 0)) as [->|]; [done|]. apply Z.log2_lt_pow2; lia. }
  apply Z.max_lub_lt; by apply Hl.
Qed.
Lemma land_byte x y : 0 <= x < 256 -> 0 <= Z.land x y < 256.
Proof.
  intros. change 256 with (2 ^ 8) in *. split; [apply Z.land_nonneg; lia|].
  assert (Z.land x y = Z.land (Z.land x y) (Z.ones 8)) as ->.
  { rewrite <- Z.land_assoc, (Z.land_comm y), Z.land_assoc.
    rewrite (Z.land_ones x), (Z.mod_small x) by lia. done. }
  rewrite Z.land_ones by lia. apply Z.mod_pos_bound. lia.
Qed.
(** A segment is no SYN, and carries the FIN if [fin]. *)
Definition flags_ok (f : Z) (fin : bool) : Prop :=
  0 <= f < 256 /\ Z.testbit f 0 = fin /\ Z.testbit f 1 = false.
Lemma flags_lor f g a b : flags_ok f a -> flags_ok g b -> flags_ok (Z.lor f g) (a || b).
Proof.
  intros (? & Ha & Hf) (? & Hb & Hg). split; [by apply lor_byte|]. by rewrite !Z.lor_spec, Ha, Hb, Hf, Hg.
Qed.
Lemma flags_land f m a : flags_ok f a -> flags_ok (Z.land f m) (a && Z.testbit m 0).
Proof. intros (? & Ha & Hf). split; [by apply land_byte|]. by rewrite !Z.land_spec, Ha, Hf. Qed.
Lemma has_fin f b : flags_ok f b -> has f TCPH_FIN = b.
Proof.
  intros (_ & <- & _). unfold has. change TCPH_FIN with (2 ^ 0).
  destruct (Z.testbit f 0) eqn:E.
  - apply negb_true_iff, Z.eqb_neq. intros E0. apply (f_equal (fun z => Z.testbit z 0)) in E0.
    by rewrite Z.land_spec, E, Z.bits_0 in E0.
  - apply negb_false_iff, Z.eqb_eq, Z.bits_inj'. intros i Hi.
    rewrite Z.land_spec, Z.bits_0, Z.pow2_bits_eqb by lia.
    destruct (Z.eqb_spec 0 i) as [<-|]; [by rewrite E|apply andb_false_r].
Qed.

(** ** Segments that follow each other *)
Fixpoint adj (a : Z) (l : list range) (b : Z) : Prop :=
  match l with
  | [] => a = b
  | (o, e) :: l => o = a /\ o < e /\ adj e l b
  end.
Lemma adj_le a l b : adj a l b -> a <= b.
Proof. revert a. induction l as [|[o e] l IH]; simpl; intros a; [lia|]. intros (-> & ? & ?%IH). lia. Qed.
Lemma adj_app a l1 l2 b : adj a (l1 ++ l2) b <-> exists m, adj a l1 m /\ adj m l2 b.
Proof.
  revert a. induction l1 as [|[o e] l1 IH]; simpl; intros a.
  - split; [eauto|]. by intros (m & -> & ?).
  - rewrite IH. naive_solver.
Qed.
Lemma adj_ends a l b u : adj a l b -> u < b -> Forall (fun r => u < r.2) l \/ exists o e l', l = (o, e) :: l' /\ e <= u.
Proof.
  destruct l as [|[o e] l]; [auto|]. simpl. intros (-> & ? & Hl) ?. destruct (decide (e <= u)); [eauto 7|].
  left. constructor; [simpl; lia|]. clear -Hl n. revert e n Hl.
  induction l as [|[o' e'] l IH]; intros e n Hl; [constructor|]. destruct Hl as (-> & ? & Hl).
  constructor; [simpl; lia|]. apply (IH e'); [lia|done].
Qed.

Section SendOk.
Context `{EOk : TcpEnvOk} `{SndEnv} (RSt : list Z) (risn : Z) (isn : Z).
Implicit Types (s : wskb) (q : list wskb) (l : list range) (w : sndw) (x : tcp_snd) (St : list Z).
Abbreviation sqn := (sq isn).
Abbreviation fine := (fine RSt risn).
Abbreviation mild := (mild RSt risn).

Definition total St (fin : bool) : Z := Z.of_nat (length St) + (if fin then 1 else 0).
(** The segment [q] holds the offsets [r] of the stream. *)
Record tx_at St (q : tx_skb) (r : range) : Prop := {
  txa_seq : tx_seq q = sqn r.1;
  txa_end : tx_end q = sqn r.2;
  txa_range : 0 <= r.1 <= r.2 /\ r.2 <= Z.of_nat (length St) + 1;
  txa_data : tx_data q = bytes St r.1 (Z.min r.2 (Z.of_nat (length St)));
  txa_flags : flags_ok (tx_flags q) (r.2 =? Z.of_nat (length St) + 1);
  txa_count : 0 <= tx_pcount q <= 1;
}.
Definition wseg St s (r : range) : Prop := tx_at St (wq s) r.
Abbreviation once := (fun s => tx_pcount (wq s) = 1).
(** A frame without data or FIN, as acknowledgements are, or the frame of a
    segment of the stream. *)
Definition bare (q : tx_skb) : Prop := tx_data q = [] /\ flags_ok (tx_flags q) false.
Definition carried St (fin : bool) (d : list Z) : Prop :=
  exists q : tx_skb, frame q d /\
    (bare q \/ exists r, tx_at St q r /\ r.1 < r.2 <= total St fin).
Record sending St (fin : bool) w (a u n : Z) : Prop := {
  sd_fine : fine (net w);
  sd_una : snd_una (cong (tp (net w))) = sqn u;
  sd_nxt : snd_nxt (cong (tp (net w))) = sqn n;
  sd_wseq : write_seq (snd_st w) = sqn (total St fin);
  sd_order : 0 <= a <= u /\ u <= n;
  sd_near : total St fin - a < 2 ^ 30;
  sd_rtx : exists l, Forall2 (wseg St) (rtx_q (snd_st w)) l /\ adj a l n /\ Forall (fun r => u < r.2) l;
  sd_once : Forall once (rtx_q (snd_st w));
  sd_unsent : exists l, Forall2 (wseg St) (unsent_q (snd_st w)) l /\ adj n l (total St fin);
  sd_sent : Forall (carried St fin) (sent (net w));
}.

Lemma wseg_len St s o e : wseg St s (o, e) -> o <= Z.of_nat (length St) ->
  wq_len s = Z.min e (Z.of_nat (length St)) - o.
Proof.
  intros [_ _ Hr Hd _] ?. cbn [fst snd] in *. unfold wq_len. rewrite Hd, bytes_length by lia. done.
Qed.

(** ** Code that leaves the queue alone *)
Definition queues x := (rtx_q x, unsent_q x, write_seq x, send_shutdown x).
(** The segments counted as sent are then [p]. *)
Definition pkts w : Z := packets_out (cong (tp (net w))).
Definition calm_to (p : Z) w w' : Prop :=
  fine (net w') /\ place (tp (net w')) = place (tp (net w)) /\ sent (net w') = sent (net w) /\
  queues (snd_st w') = queues (snd_st w) /\ pkts w' = p.
Definition calm_step w w' : Prop := calm_to (pkts w) w w'.
Definition plain {A} (m : SM A) : Prop := forall w, fine (net w) -> wp m w (fun _ => calm_step w).

Lemma calm_refl w : fine (net w) -> calm_step w w.
Proof. intros ?. by split_and!. Qed.
Lemma calm_to_trans p1 p w1 w2 w3 : calm_to p1 w1 w2 -> calm_to p w2 w3 -> calm_to p w1 w3.
Proof. intros (? & ? & ? & ? & ?) (? & ? & ? & ? & ?). split_and!; [done|congruence..]. Qed.
Lemma calm_trans p w1 w2 w3 : calm_to p w1 w2 -> calm_step w2 w3 -> calm_to p w1 w3.
Proof. intros H1 H2. replace p with (pkts w2) by apply H1. by eapply calm_to_trans. Qed.
Lemma calm_sending St fin p w w' a u n : calm_to p w w' -> sending St fin w a u n -> sending St fin w' a u n.
Proof.
  intros (? & Hc & Hs & Hq & _) []. injection Hc as ?????. injection Hq as Hr Hu Hw ?.
  split; rewrite ?Hr, ?Hu, ?Hs; try done; congruence.
Qed.
Lemma core_calm w w' : fine (net w') -> core (tp (net w')) = core (tp (net w)) ->
  sent (net w') = sent (net w) -> queues (snd_st w') = queues (snd_st w) -> calm_step w w'.
Proof. intros ? [= ? ? ? ? ? ?] ? ?. split_and!; try done. unfold place. congruence. Qed.
Lemma plain_ret {A} (a : A) : plain (mret a).
Proof. intros w ?. by apply wp_ret, calm_refl. Qed.
Lemma plain_bind {A B} (m : SM A) (k : A -> SM B) : plain m -> (forall a, plain (k a)) -> plain (m ≫= k).
Proof.
  intros Hm Hk w Hw. apply wp_bind. eapply wp_mono; [by apply Hm|]. intros a w1 Hc1.
  eapply wp_mono; [apply Hk, Hc1|]. intros b w2. by apply calm_trans.
Qed.
Lemma plain_if {A} (b : bool) (m m' : SM A) : plain m -> plain m' -> plain (if b then m else m').
Proof. by destruct b. Qed.
Lemma plain_getS : plain getS.
Proof. intros w ?. by apply wp_getS, calm_refl. Qed.
Lemma plain_gets {A} (f : sndw -> A) : plain (gets f).
Proof. intros w ?. by apply wp_gets, calm_refl. Qed.
Lemma wp_lift {A} (m : TM A) w Q : wp m (net w) (fun a n => Q a (w {{ net := n }})) -> wp (lift m) w Q.
Proof. unfold wp, lift. by destruct (m (net w)) as [[]| |]. Qed.
Lemma wp_the_tcp w Q : Q (tp (net w)) w -> wp the_tcp w Q.
Proof. by destruct w. Qed.
Lemma plain_lift {A} (m : TM A) : mild m -> plain (lift m).
Proof. intros Hm w Hw. apply wp_lift. eapply wp_mono; [by apply Hm|]. intros a n (? & ? & ?).
  by apply core_calm.
Qed.
Lemma plain_upd f : (forall x, queues (f x) = queues x) -> plain (upd_snd f).
Proof. intros Hf w Hw. apply wp_modS. apply core_calm; [done..|]. apply Hf. Qed.
Lemma plain_cong f :
  (forall g, snd_una (f g) = snd_una g /\ snd_nxt (f g) = snd_nxt g /\ mss_cache (f g) = mss_cache g /\
     packets_out (f g) = packets_out g) ->
  (forall g, cwnd_range g -> cwnd_range (f g)) -> plain (on_cong f).
Proof. intros. by apply plain_lift, mild_cong. Qed.
End SendOk.

Ltac plain_step :=
  lazymatch goal with
  | |- plain _ _ (mret _) => apply plain_ret
  | |- plain _ _ (mbind _ _) => apply plain_bind; [|intros ?]
  | |- plain _ _ (if _ then _ else _) => apply plain_if
  | |- plain _ _ getS => apply plain_getS
  | |- plain _ _ (gets _) => apply plain_gets
  | |- plain _ _ the_snd => apply plain_gets
  | |- plain _ _ the_tcp => apply plain_lift, mild_gets
  | |- plain _ _ (upd_tcp _) => apply plain_lift, mild_mod; intros; by split_and!
  | |- plain _ _ (lift (modS _)) => apply plain_lift, mild_mod; intros; by split_and!
  | |- plain _ _ (lift alloc_ok) => apply plain_lift, alloc_mild
  | |- plain _ _ (lift tcp_time_stamp) => apply plain_lift, stamp_mild
  | |- plain _ _ (upd_snd _) => apply plain_upd; intros; by repeat case_match
  end.
Ltac plain_steps := repeat plain_step.

Section Plain.
Context `{EOk : TcpEnvOk} `{SndEnv} (RSt : list Z) (risn : Z).
Abbreviation plain := (plain RSt risn).
Implicit Types (s : wskb).
Lemma mem_charge_plain k : plain (sk_mem_charge k).
Proof. unfold sk_mem_charge. plain_steps. Qed.
Lemma mem_uncharge_plain k : plain (sk_mem_uncharge k).
Proof. unfold sk_mem_uncharge. plain_steps. Qed.
Lemma moderate_plain : plain sk_stream_moderate_sndbuf.
Proof. unfold sk_stream_moderate_sndbuf. plain_steps. Qed.
Lemma wmem_schedule_plain k : plain (sk_wmem_schedule k).
Proof.
  unfold sk_wmem_schedule, __sk_mem_schedule_send. plain_steps; try apply moderate_plain; plain_steps.
Qed.
Lemma stream_alloc_plain k : plain (sk_stream_alloc_skb k).
Proof. unfold sk_stream_alloc_skb. plain_steps; [apply wmem_schedule_plain|apply moderate_plain]. Qed.
Lemma wmem_free_plain s : plain (sk_wmem_free_skb s).
Proof. unfold sk_wmem_free_skb. plain_steps. apply mem_uncharge_plain. Qed.
Lemma reset_timer_plain what when max_when : plain (reset_xmit_timer what when max_when).
Proof. unfold reset_xmit_timer. plain_steps. Qed.
Definition view (g : tcp_cong) :=
  (snd_una g, snd_nxt g, mss_cache g, snd_cwnd g, snd_cwnd_clamp g, packets_out g).
Lemma cong_view f w :
  fine RSt risn (net w) ->
  (let g := cong (tp (net w)) in view (f g) = view (g {{ packets_out := packets_out (f g) }})) ->
  wp (on_cong f) w (fun _ => calm_to RSt risn (packets_out (f (cong (tp (net w))))) w).
Proof.
  intros Hw Hf. apply wp_lift, wp_modS.
  injection Hf as Hu Hn Hm Hc Hl. split_and!; try done.
  - apply (fine_receiver RSt risn (net w)); [done| |done]. destruct Hw as [_ [Hr Hk]]. split; [|done].
    change (0 <= snd_cwnd (f (cong (tp (net w)))) < 2 ^ 32 /\ 0 <= snd_cwnd_clamp (f (cong (tp (net w))))).
    by rewrite Hc, Hl.
  - change ((snd_una (f (cong (tp (net w)))), snd_nxt (f (cong (tp (net w)))), mss_cache (f (cong (tp (net w)))),
      tcp_header_len (tp (net w)), tcp_state (tp (net w))) = place (tp (net w))). by rewrite Hu, Hn, Hm.
Qed.
Lemma view_if (b : bool) g g' : view g' = view g -> view (if b then g' else g) = view g.
Proof. by destruct b. Qed.
Lemma adjust_pcount_ok s k w : fine RSt risn (net w) ->
  wp (serval_tcp_adjust_pcount s k) w (fun _ => calm_to RSt risn (u32 (pkts w - k)) w).
Proof.
  intros Hw. unfold serval_tcp_adjust_pcount. set (f := fun g : tcp_cong => _).
  assert (Hf : forall g, view (f g) = view (g {{ packets_out := u32 (packets_out g - k) }})).
  { intros g. subst f. cbv zeta beta. do 4 (etransitivity; [apply view_if; reflexivity|]). reflexivity. }
  assert (Hp : packets_out (f (cong (tp (net w)))) = u32 (pkts w - k)) by (by injection (Hf (cong (tp (net w))))).
  rewrite <- Hp. apply cong_view; [done|]. cbv zeta. by rewrite Hf, Hp.
Qed.
End Plain.

(** * Cutting and joining the segments of the write queue

    A segment that is cut, trimmed or joined with the next holds the part of
    the stream it should. *)

Lemma take_bytes St a b k : 0 <= a -> 0 <= k -> a + k <= b -> take (Z.to_nat k) (bytes St a b) = bytes St a (a + k).
Proof. intros. unfold bytes. rewrite take_take. f_equal. lia. Qed.
Lemma drop_bytes St a b k : 0 <= a -> 0 <= k -> drop (Z.to_nat k) (bytes St a b) = bytes St (a + k) b.
Proof.
  intros. unfold bytes. rewrite <- take_drop_commute || idtac.
  rewrite (skipn_firstn_comm (Z.to_nat k)), drop_drop. f_equal; [lia|f_equal; lia].
Qed.

Section SegOk.
Context `{EOk : TcpEnvOk} `{SndEnv} (RSt : list Z) (risn : Z) (isn : Z) (St : list Z).
Implicit Types (s : wskb) (q : list wskb) (l : list range) (w : sndw) (x : tcp_snd).
Abbreviation sqn := (sq isn).
Abbreviation L := (Z.of_nat (length St)).
Abbreviation fine := (fine RSt risn).
Abbreviation plain := (plain RSt risn).
Abbreviation calm_step := (calm_step RSt risn).
Abbreviation calm_to := (calm_to RSt risn).
Abbreviation wseg := (wseg isn St).
Abbreviation tx_at := (tx_at isn St).

(** Another segment with the same place in the stream. *)
Lemma wseg_same s s' r :
  tx_seq (wq s') = tx_seq (wq s) -> tx_end (wq s') = tx_end (wq s) ->
  tx_data (wq s') = tx_data (wq s) -> tx_flags (wq s') = tx_flags (wq s) ->
  tx_pcount (wq s') = tx_pcount (wq s) \/ tx_pcount (wq s') = 1 -> wseg s r -> wseg s' r.
Proof. intros E1 E2 E3 E4 E5 []. split; congruence || (rewrite E4; done) || lia. Qed.

Lemma fragment_ok s k o e w :
  fine (net w) -> wseg s (o, e) -> 0 < k <= wq_len s -> o + k < e -> o <= L ->
  tx_pcount (wq s) = 1 \/ before (snd_nxt (cong (tp (net w)))) (tx_end (wq s)) = true ->
  wp (serval_tcp_fragment s k) w (fun r w' =>
    match r with
    | None => calm_step w w'
    | Some (s1, s2) =>
        calm_to (if before (snd_nxt (cong (tp (net w)))) (tx_end (wq s)) then pkts w else u32 (pkts w + 1)) w w' /\
        wseg s1 (o, o + k) /\ wseg s2 (o + k, e) /\ o + k <= L /\ o + k < e /\
        tx_pcount (wq s1) = 1 /\ tx_pcount (wq s2) = 1 /\ wq_len s1 = k /\ wq_len s2 = wq_len s - k
    end).
Proof.
  intros Hw Hs Hk Hke Ho Hpc. pose proof (wseg_len _ _ _ _ _ Hs Ho) as Hlen. unfold serval_tcp_fragment.
  replace (wq_len s <? k) with false by lia. cbv zeta. apply wp_bind.
  eapply wp_mono; [by apply stream_alloc_plain|]. intros [b|] w1 Hc1; [|by apply wp_ret].
  set (s1 := Wskb _ _ _ _ _ _ _). set (s2 := s {{ wq := _; wq_room := _ }}).
  assert (Hs1 : wseg s2 (o, o + k) /\ wseg s1 (o + k, e) /\ wq_len s2 = k /\ wq_len s1 = wq_len s - k).
  { destruct Hs as [Hsq Hen Hr Hd Hf _]. cbn [fst snd] in *.
    assert (Htake : take (Z.to_nat k) (tx_data (wq s)) = bytes St o (Z.min (o + k) L)).
    { rewrite Hd, take_bytes by lia. f_equal. lia. }
    assert (Hdrop : drop (Z.to_nat k) (tx_data (wq s)) = bytes St (o + k) (Z.min e L)).
    { by rewrite Hd, drop_bytes by lia. }
    split_and!.
    - split; cbn [fst snd]; [done| |lia|done| |done].
      + change (u32 (tx_seq (wq s) + k) = sqn (o + k)). by rewrite Hsq, sq_add.
      + replace (o + k =? L + 1) with false by lia.
        change (flags_ok (Z.land (tx_flags (wq s)) (Z.lnot (Z.lor TCPH_FIN TCPH_PSH))) false).
        pose proof (flags_land _ (Z.lnot (Z.lor TCPH_FIN TCPH_PSH)) _ Hf) as Hf'. by rewrite andb_false_r in Hf'.
    - split; cbn [fst snd]; [|done|lia|done|done|done].
      change (u32 (tx_seq (wq s) + k) = sqn (o + k)). by rewrite Hsq, sq_add.
    - change (Z.of_nat (length (take (Z.to_nat k) (tx_data (wq s)))) = k).
      rewrite length_take. unfold wq_len in *. lia.
    - change (Z.of_nat (length (drop (Z.to_nat k) (tx_data (wq s)))) = wq_len s - k).
      rewrite length_drop. unfold wq_len in *. lia. }
  destruct Hs1 as (Hs2 & Hs1 & Hl2 & Hl1).
  set (p := if before _ _ then _ else _). apply (wp_mono _ _ (fun r w' => calm_to p w1 w' /\ r = Some (s2, s1))).
  2: { intros r w' [Hc ->]. split; [by eapply calm_to_trans|]. split_and!; try done; lia. }
  clearbody s1 s2. apply wp_bind, wp_modS, wp_bind.
  set (w2 := w1 {{ snd_st ::= _ }}). assert (Hc2 : calm_step w1 w2) by (split_and!; try done; apply Hc1).
  clearbody w2. eapply wp_mono; [apply mem_charge_plain, Hc2|]. intros [] w3 Hc3.
  pose proof (calm_trans _ _ _ _ _ _ Hc2 Hc3) as Hc13. apply wp_bind, wp_the_tcp, wp_bind.
  apply (wp_mono _ _ (fun _ w4 => calm_to p w1 w4)); [|intros [] w4 ?; by apply wp_ret].
  pose proof (calm_trans _ _ _ _ _ _ Hc1 Hc13) as (_ & Hpl & _ & _ & Hpk). injection Hpl as _ Hn _ _ _.
  assert (E1 : pkts w1 = pkts w) by apply Hc1. subst p. rewrite Hn.
  destruct Hpc as [-> | ->]; [change (1 - 2 =? 0) with false; destruct (before _ _)|]; cbn [negb andb].
  - apply wp_ret. rewrite <- E1. exact Hc13.
  - eapply wp_mono; [apply adjust_pcount_ok, Hc13|]. intros [] w4 Hc4. eapply calm_to_trans; [exact Hc13|].
    replace (pkts w + 1) with (pkts w3 - (1 - 2)) by lia. exact Hc4.
  - apply wp_ret. rewrite <- E1. exact Hc13.
Qed.

(** What is acknowledged goes. *)
Lemma trim_ok s u o e w :
  fine (net w) -> wseg s (o, e) -> o < u < e -> u <= L ->
  wp (serval_tcp_trim_head s (u - o)) w (fun r w' => calm_step w w' /\
    match r with
    | None => True
    | Some s' => wseg s' (u, e) /\ tx_pcount (wq s') = tx_pcount (wq s)
    end).
Proof.
  intros Hw Hs Hu Hl. pose proof (wseg_len _ _ _ _ _ Hs ltac:(lia)) as Hlen. unfold serval_tcp_trim_head.
  apply wp_bind. eapply wp_mono; [apply (plain_if RSt risn (wq_cloned s)); [apply plain_lift, alloc_mild|apply plain_ret|exact Hw]|].
  intros ok w1 Hc1. destruct (negb ok); [by apply wp_ret|].
  set (s0 := if wq_cloned s then _ else s).
  assert (Hs0 : wq s0 = wq s) by (subst s0; by destruct (wq_cloned s)). clearbody s0.
  assert (Hl0 : wq_len s0 = wq_len s) by (unfold wq_len; by rewrite Hs0). cbv zeta.
  replace (wq_len s0 <? u - o) with false by lia.
  set (s1 := if u - o <? wq_len s0 then _ else _).
  assert (Hs1 : tx_seq (wq s1) = tx_seq (wq s) /\ tx_end (wq s1) = tx_end (wq s) /\
    tx_flags (wq s1) = tx_flags (wq s) /\ tx_pcount (wq s1) = tx_pcount (wq s) /\
    tx_data (wq s1) = bytes St u (Z.min e L)).
  { assert (Hd : drop (Z.to_nat (u - o)) (tx_data (wq s)) = bytes St u (Z.min e L)).
    { rewrite (txa_data _ _ _ _ Hs). cbn [fst snd]. destruct Hs as [_ _ ? _ _ _]. cbn [fst snd] in *.
      rewrite drop_bytes by lia. f_equal. lia. }
    rewrite <- Hd, <- Hs0. subst s1. destruct (Z.ltb_spec (u - o) (wq_len s0)); simpl.
    - by split_and!.
    - split_and!; try done. rewrite Hs0. symmetry. apply drop_ge. unfold wq_len in *. lia. }
  clearbody s1. set (s2 := s1 {{ wq ::= _; wq_truesize := _ }}).
  assert (Hs2 : wseg s2 (u, e) /\ tx_pcount (wq s2) = tx_pcount (wq s)).
  { destruct Hs1 as (E1 & E2 & E3 & E4 & E5), Hs as [Hsq Hen Hr Hd Hf Hc]. cbn [fst snd] in *. split; [|done].
    split; cbn [fst snd]; [|by change (tx_end (wq s1) = sqn e); rewrite E2|lia|done|
      by change (flags_ok (tx_flags (wq s1)) (e =? L + 1)); rewrite E3|
      by change (0 <= tx_pcount (wq s1) <= 1); rewrite E4].
    change (u32 (tx_seq (wq s1) + (u - o)) = sqn u). rewrite E1, Hsq, sq_add. f_equal. lia. }
  clearbody s2. apply (wp_mono _ _ (fun r w' => calm_step w1 w' /\ r = Some s2)).
  2: { intros r w' [Hc ->]. split; [exact (calm_trans _ _ _ _ _ _ Hc1 Hc)|done]. }
  apply wp_bind, wp_modS, wp_bind. eapply wp_mono; [apply mem_uncharge_plain, Hc1|]. intros [] w3 Hc3.
  by apply wp_ret.
Qed.
Lemma collapse_retrans_ok s n o m e w :
  fine (net w) -> wseg s (o, m) -> wseg n (m, e) -> m < e ->
  tx_pcount (wq s) = 1 -> tx_pcount (wq n) = 1 ->
  wp (serval_tcp_collapse_retrans s n) w (fun s' w' => calm_to (u32 (pkts w - 1)) w w' /\
    wseg s' (o, e) /\ tx_pcount (wq s') = 1).
Proof.
  intros Hw Hs Hn Hme Hp Hpn. unfold serval_tcp_collapse_retrans. rewrite Hp, Hpn. cbn [Z.eqb negb orb Pos.eqb].
  set (s1 := s {{ wq := _; wq_room := _; wq_sacked := _ }}).
  assert (Hs1 : wseg s1 (o, e) /\ tx_pcount (wq s1) = 1).
  { split; [|done]. destruct Hs as [A1 A2 A3 A4 A5 A6], Hn as [B1 B2 B3 B4 B5 B6]. cbn [fst snd] in *.
    split; cbn [fst snd]; [done|done|lia| | |done].
    - change (tx_data (wq s) ++ tx_data (wq n) = bytes St o (Z.min e L)).
      rewrite A4, B4, (Z.min_l m L) by lia. apply bytes_app; lia.
    - change (flags_ok (Z.lor (tx_flags (wq s)) (tx_flags (wq n))) (e =? L + 1)).
      pose proof (flags_lor _ _ _ _ A5 B5) as Hf. by replace (m =? L + 1) with false in Hf by lia. }
  clearbody s1. apply (wp_mono _ _ (fun s' w' => calm_to (u32 (pkts w - 1)) w w' /\ s' = s1)).
  2: { intros s' w' [? ->]. by split. }
  apply wp_bind. eapply wp_mono; [by apply adjust_pcount_ok|]. intros [] w1 Hc1.
  apply wp_bind. eapply wp_mono; [apply wmem_free_plain, Hc1|]. intros [] w2 Hc2.
  apply wp_ret. split; [by eapply calm_trans|done].
Qed.
Lemma try_collapse_ok s q l o m n space w :
  fine (net w) -> wseg s (o, m) -> o < m -> Forall2 wseg q l -> adj m l n ->
  tx_pcount (wq s) = 1 -> Forall (fun s => tx_pcount (wq s) = 1) q ->
  Z.of_nat (length q) <= pkts w < 2 ^ 32 ->
  wp (serval_tcp_retrans_try_collapse s q space) w (fun r w' =>
    calm_to (pkts w - Z.of_nat (length q) + Z.of_nat (length r.2)) w w' /\
    exists m' l', wseg r.1 (o, m') /\ o < m' /\ Forall2 wseg r.2 l' /\ adj m' l' n /\
      tx_pcount (wq r.1) = 1 /\ Forall (fun s => tx_pcount (wq s) = 1) r.2 /\ (m <= m')).
Proof.
  intros Hw Hs Hom Hq Hadj Hp Hpq Hcnt. unfold serval_tcp_retrans_try_collapse.
  assert (Hend : forall s q m l w, fine (net w) -> wseg s (o, m) -> o < m -> Forall2 wseg q l -> adj m l n ->
    tx_pcount (wq s) = 1 -> Forall (fun s => tx_pcount (wq s) = 1) q ->
    wp (mret (s, q)) w (fun r w' => calm_to (pkts w - Z.of_nat (length q) + Z.of_nat (length r.2)) w w' /\
      exists m' l', wseg r.1 (o, m') /\ o < m' /\ Forall2 wseg r.2 l' /\ adj m' l' n /\
        tx_pcount (wq r.1) = 1 /\ Forall (fun s => tx_pcount (wq s) = 1) r.2 /\ (m <= m'))).
  { intros s' q' m' l' w'. intros. apply wp_ret. cbn [fst snd]. split; [|by exists m', l'].
    replace (pkts w' - _ + _) with (pkts w') by lia. by apply calm_refl. }
  destruct (_ || _); [by eapply Hend|].
  set (sp := space - _). clearbody sp. revert s m l sp w Hw Hs Hom Hq Hadj Hp Hcnt.
  induction Hpq as [|n' q' Hpn Hpq IH]; intros s m l sp w Hw Hs Hom Hq Hadj Hp Hcnt; simpl; [by eapply Hend|].
  apply wp_bind, wp_the_tcp. destruct (_ || _); [by eapply Hend; try done; constructor|].
  destruct l as [|[o' e'] l']; [by apply Forall2_length in Hq|]. apply Forall2_cons in Hq as [Hn Hq].
  destruct Hadj as (-> & ? & Hadj). apply wp_bind. eapply wp_mono; [by eapply (collapse_retrans_ok s n' o m e')|].
  intros s' w1 (Hc1 & Hs' & Hp'). cbn [length] in Hcnt.
  assert (E1 : pkts w1 = pkts w - 1).
  { destruct Hc1 as (_ & _ & _ & _ & ->). apply u32_id. lia. }
  eapply wp_mono; [eapply (IH s' e' l'); try done; [apply Hc1|lia|lia]|].
  intros r w2 (Hc2 & m' & l2 & ? & ? & ? & ? & ? & ? & ?). split.
  - eapply calm_to_trans; [exact Hc1|]. replace (_ + _) with (pkts w1 - Z.of_nat (length q') + Z.of_nat (length r.2)); [done|].
    rewrite E1. cbn [length]. lia.
  - exists m', l2. split_and!; try done. lia.
Qed.
End SegOk.
