(* ===== verification/TcpXmitOk.v ===== *)
(** * Transmission from the write queue

    Sending what the windows allow, and sending again, keeps the queue and puts
    frames of the stream on the wire; the loops end. *)
From S2P Require Import Prelude SalHdr Checksum TcpSock TcpQueue TcpFrame TcpQueueOk TcpStream TcpCong TcpCongOk TcpOut TcpRecv TcpRecvOk TcpSend TcpWire TcpSendOk.
Local Open Scope Z_scope.

Section XmitOk.
Context `{EOk : TcpEnvOk} `{SndEnv} (RSt : list Z) (risn : Z) (isn : Z) (St : list Z) (fin : bool).
Implicit Types (s : wskb) (q : list wskb) (l : list range) (w : sndw) (x : tcp_snd).
Abbreviation sqn := (sq isn).
Abbreviation L := (Z.of_nat (length St)).
Abbreviation T := (total St fin).
Abbreviation fine := (fine RSt risn).
Abbreviation plain := (plain RSt risn).
Abbreviation calm_step := (calm_step RSt risn).
Abbreviation calm_to := (calm_to RSt risn).
Abbreviation wseg := (wseg isn St).
Abbreviation sending := (sending RSt risn isn St fin).
Abbreviation once := (fun s => tx_pcount (wq s) = 1).

(** The state without what is on the wire. *)
Definition frames_ok w : Prop := Forall (carried isn St fin) (sent (net w)).

Lemma transmit_clone_ok s r w :
  fine (net w) -> wseg s r -> r.1 < r.2 <= T -> tx_pcount (wq s) = 1 ->
  wp (transmit_clone s) w (fun res w' => fine (net w') /\ core (tp (net w')) = core (tp (net w)) /\
    snd_st w' = snd_st w /\ (frames_ok w -> frames_ok w') /\
    wq res.2 = wq s /\ wq_room res.2 = wq_room s).
Proof.
  intros Hw Hs HT Hp. unfold transmit_clone. apply wp_bind, wp_getS. cbv zeta. apply wp_bind, wp_lift.
  destruct (txa_flags _ _ _ _ Hs) as (Hf & _ & Hsyn).
  eapply wp_mono; [by apply tcp_transmit_ok; [exact Hw|rewrite Hp|..]|].
  intros err n (Hn & Hc & Hsent). apply wp_ret. split_and!; try done.
  intros Hok. change (Forall (carried isn St fin) (sent n)).
  destruct Hsent as [-> | (d & -> & Hd)]; [done|]. apply Forall_app. split; [done|]. apply Forall_singleton.
  exists (wq s). split; [done|]. right. by exists r.
Qed.

(** [w'] is [w] with other queues, and as able to transmit. *)
Definition edge t := (snd_una (cong t), mss_cache (cong t), tcp_header_len t, tcp_state t).
Definition moved w w' : Prop :=
  fine (net w') /\ edge (tp (net w')) = edge (tp (net w)) /\ (frames_ok w -> frames_ok w') /\
  write_seq (snd_st w') = write_seq (snd_st w) /\ send_shutdown (snd_st w') = send_shutdown (snd_st w).
Lemma calm_moved p w w' : calm_to p w w' -> moved w w'.
Proof.
  intros (? & Hc & Hs & Hq & _). injection Hq as ????. injection Hc as ?????.
  split_and!; try done; [unfold edge; congruence|]. unfold frames_ok. by rewrite Hs.
Qed.
Lemma moved_refl w : fine (net w) -> moved w w.
Proof. intros ?. by split_and!. Qed.
Lemma moved_trans w1 w2 w3 : moved w1 w2 -> moved w2 w3 -> moved w1 w3.
Proof. intros (? & ? & ? & ? & ?) (? & ? & ? & ? & ?). split_and!; try done; [congruence|auto|congruence..]. Qed.
Lemma moved_sending w w' a u n n' :
  moved w w' -> sending w a u n ->
  u <= n' -> snd_nxt (cong (tp (net w'))) = sqn n' ->
  (exists l, Forall2 wseg (rtx_q (snd_st w')) l /\ adj a l n' /\ Forall (fun r => u < r.2) l) ->
  Forall once (rtx_q (snd_st w')) ->
  (exists l, Forall2 wseg (unsent_q (snd_st w')) l /\ adj n' l T) ->
  sending w' a u n'.
Proof.
  intros (? & Hc & Hf & ? & ?) [] ? ? ? ? ?. injection Hc as ????.
  split; try done; first [congruence|lia|by apply Hf].
Qed.

(** The last unsent segment is not larger than the segment size and has room to
    grow up to it. *)
Definition tail_ok (mss : Z) q : Prop :=
  forall s, last q = Some s -> wq_len s <= mss <= wq_len s + wq_room s.
Lemma tail_ok_cons mss s s' q :
  (q = [] -> wq_len s' = wq_len s /\ wq_room s' = wq_room s) -> tail_ok mss (s :: q) -> tail_ok mss (s' :: q).
Proof.
  unfold tail_ok. intros Hs Ht s1. destruct q as [|s2 q]; [|apply Ht].
  destruct (Hs eq_refl) as [El Er]. intros [= <-]. rewrite El, Er. by apply Ht.
Qed.
Lemma tail_ok_tl mss s q : tail_ok mss (s :: q) -> tail_ok mss q.
Proof. unfold tail_ok. intros Ht s1 Hl. apply Ht. destruct q; [done|]. by rewrite <- Hl. Qed.

(** Exactly the segments that have been sent and not been acknowledged are
    counted. *)
Definition counted w : Prop := pkts w = Z.of_nat (length (rtx_q (snd_st w))).
Lemma adj_length a l b : adj a l b -> Z.of_nat (length l) <= b - a.
Proof.
  revert a. induction l as [|[o e] l IH]; simpl; intros a; [lia|]. intros (-> & ? & Hl%IH). lia.
Qed.
Lemma rtx_bound w a u n : sending w a u n -> n <= T /\ Z.of_nat (length (rtx_q (snd_st w))) < 2 ^ 30.
Proof.
  intros [? ? ? ? ? ? (l & Hl & Ha & _) _ (l' & _ & Ha') _]. apply Forall2_length in Hl as ->.
  pose proof (adj_length _ _ _ Ha). pose proof (adj_le _ _ _ Ha'). lia.
Qed.
Lemma calm_counted w w' : calm_step w w' -> counted w -> counted w'.
Proof. intros (_ & _ & _ & Hq & Hp). injection Hq as ????. unfold counted. congruence. Qed.
(** What sending keeps. *)
Definition stays (mss : Z) w (a u : Z) w' : Prop :=
  moved w w' /\ (counted w -> counted w') /\ exists n', sending w' a u n' /\
    (tail_ok mss (unsent_q (snd_st w)) -> tail_ok mss (unsent_q (snd_st w'))).

(** The first segment is sent: it goes from one part of the queue to the other. *)
Lemma new_data_sent_ok s q e l w a u n :
  sending w a u n -> wseg s (n, e) -> n < e -> once s -> Forall2 wseg q l -> adj e l T ->
  wp (serval_tcp_event_new_data_sent s q) w (fun _ w' =>
    moved w w' /\ sending w' a u e /\ unsent_q (snd_st w') = q /\ (counted w -> counted w')).
Proof.
  intros Hw Hs Hne Hp Hq Hadj. unfold serval_tcp_event_new_data_sent.
  apply wp_bind, wp_the_tcp, wp_bind, wp_modS, wp_bind, wp_lift, wp_modS.
  set (w1 := _ {{ net := _ }}).
  assert (Hm : moved w w1).
  { split_and!; try done. apply (fine_receiver RSt risn (net w)); [done|apply (sd_fine _ _ _ _ _ _ _ _ _ Hw)|apply Hw]. }
  assert (Hs1 : sending w1 a u e).
  { apply (moved_sending w w1 a u n); try done.
    - pose proof (sd_order _ _ _ _ _ _ _ _ _ Hw). lia.
    - apply (txa_end _ _ _ _ Hs).
    - destruct (sd_rtx _ _ _ _ _ _ _ _ _ Hw) as (l1 & Hr & Ha & Hu). exists (l1 ++ [(n, e)]).
      pose proof (sd_order _ _ _ _ _ _ _ _ _ Hw). split_and!.
      + apply Forall2_app; [done|]. by constructor.
      + apply adj_app. exists n. by split.
      + apply Forall_app. split; [done|]. apply Forall_singleton. simpl. lia.
    - apply Forall_app. split; [apply Hw|]. by apply Forall_singleton.
    - by exists l. }
  assert (Hq1 : unsent_q (snd_st w1) = q) by done.
  assert (Hcnt : counted w -> counted w1).
  { intros E. destruct (rtx_bound _ _ _ _ Hw).
    change (u32 (pkts w + tx_pcount (wq s)) = Z.of_nat (length (rtx_q (snd_st w) ++ [s]))).
    rewrite length_app, E, Hp, u32_id by lia. simpl. lia. }
  clearbody w1. eapply wp_mono.
  { apply (plain_if RSt risn _); [apply reset_timer_plain|apply plain_ret|apply Hm]. }
  intros [] w2 Hc2. split_and!; [eapply moved_trans; [done|by eapply calm_moved]|by eapply calm_sending| |].
  - destruct Hc2 as (_ & _ & _ & Hqq & _). injection Hqq as ????. congruence.
  - intros. apply (calm_counted w1); auto.
Qed.
Lemma minshall_plain s mss : plain (serval_tcp_minshall_update s mss).
Proof. unfold serval_tcp_minshall_update. plain_steps. Qed.

(** The head of the unsent part is replaced by segments for the same bytes. *)
Lemma set_unsent_ok f w a u n :
  sending w a u n -> (exists l, Forall2 wseg (unsent_q (f (snd_st w))) l /\ adj n l T) ->
  (rtx_q (f (snd_st w)), write_seq (f (snd_st w)), send_shutdown (f (snd_st w))) =
  (rtx_q (snd_st w), write_seq (snd_st w), send_shutdown (snd_st w)) ->
  moved w (w {{ snd_st ::= f }}) /\ sending (w {{ snd_st ::= f }}) a u n.
Proof.
  intros Hw Hl E. injection E as E1 E2 E3.
  assert (Hm : moved w (w {{ snd_st ::= f }})) by (split_and!; try done; apply Hw).
  assert (Er : rtx_q (snd_st (w {{ snd_st ::= f }})) = rtx_q (snd_st w)) by exact E1.
  split; [done|]. apply (moved_sending w _ a u n); try done; rewrite ?Er; apply Hw.
Qed.
Lemma queued_cons s q : queued_len (s :: q) = (S (length (tx_data (wq s))) + queued_len q)%nat.
Proof. done. Qed.
Lemma init_tso_same s :
  once (serval_tcp_init_tso_segs s) /\ wq_len (serval_tcp_init_tso_segs s) = wq_len s /\
  wq_room (serval_tcp_init_tso_segs s) = wq_room s /\ forall r, wseg s r -> wseg (serval_tcp_init_tso_segs s) r.
Proof.
  unfold serval_tcp_init_tso_segs. destruct (Z.eqb_spec (tx_pcount (wq s)) 1); [done|].
  split_and!; try done. intros r. apply wseg_same; auto.
Qed.
(** The segment to transmit, cut to the segment size, and what follows it; the
    new segment is counted if it has been sent. *)
Lemma cut_ok s q e l mss w n b nx :
  fine (net w) -> 0 < mss -> 0 <= n <= L + 1 -> wseg s (n, e) -> n < e -> once s ->
  Forall2 wseg q l -> adj e l b -> snd_nxt (cong (tp (net w))) = sqn nx -> - 2 ^ 31 < nx - e < 2 ^ 31 ->
  nx < e \/ 0 <= pkts w < 2 ^ 31 ->
  wp (if mss <? wq_len s then
        f ← serval_tso_fragment s mss;
        mret (match f with Some (s1, s2) => Some (s1, s2 :: q) | None => None end)
      else mret (Some (s, q))) w (fun r w' =>
    match r with
    | None => calm_step w w'
    | Some (s', q') =>
        calm_to (if nx <? e then pkts w else pkts w - Z.of_nat (length q) + Z.of_nat (length q')) w w' /\
        exists e' l', wseg s' (n, e') /\ n < e' /\ once s' /\ Forall2 wseg q' l' /\ adj e' l' b /\
        (S (queued_len q') <= queued_len (s :: q))%nat /\
        (tail_ok mss (s :: q) -> tail_ok mss (s' :: q')) /\ (Forall once q -> Forall once q') /\
        (length q' <= S (length q))%nat
    end).
Proof.
  intros Hw Hm Hn Hs Hne Hp Hq Hadj Hnx Hfar Hrange. destruct (Z.ltb_spec mss (wq_len s)) as [Hlt|].
  2: { apply wp_ret. split.
       - replace (if nx <? e then _ else _) with (pkts w) by (destruct (nx <? e); lia). by apply calm_refl.
       - exists e, l. split_and!; try done; [rewrite queued_cons|]; lia. }
  assert (n <= L).
  { destruct (decide (n <= L)); [done|]. destruct Hs as [_ _ ? Hd _ _]. cbn [fst snd] in *.
    assert (wq_len s = 0); [|lia]. unfold wq_len. rewrite Hd. unfold bytes.
    rewrite length_take, length_drop. lia. }
  pose proof (wseg_len _ _ _ _ _ Hs ltac:(lia)) as Hlen. apply wp_bind.
  eapply wp_mono; [eapply (fragment_ok RSt risn isn St s mss n e); first [done|lia|by left]|].
  intros [[s1 s2]|] w1 Hr; apply wp_ret; [|done].
  destruct Hr as (Hc1 & H1 & H2 & ? & ? & ? & ? & Hl1 & Hl2). split.
  { rewrite Hnx, (txa_end _ _ _ _ Hs), before_sq in Hc1 by (cbn [snd]; lia). cbn [snd] in Hc1.
    destruct (Z.ltb_spec nx e); [done|]. rewrite u32_id in Hc1 by lia. cbn [length].
    by replace (_ + _) with (pkts w + 1) by lia. }
  exists (n + mss), ((n + mss, e) :: l). split_and!; try done; [lia|by constructor| | |].
  - rewrite !queued_cons. unfold wq_len in *. lia.
  - intros Ht. destruct q as [|s3 q3]; [|exact Ht]. destruct (Ht s eq_refl). lia.
  - by constructor.
Qed.
Lemma stays_refl mss w a u n : sending w a u n -> stays mss w a u w.
Proof. intros Hw. split_and!; [apply moved_refl, Hw|done|eauto]. Qed.
Lemma stays_trans mss w a u w1 w2 : stays mss w a u w1 -> stays mss w1 a u w2 -> stays mss w a u w2.
Proof.
  intros (Hm1 & Hc1 & n1 & Hw1 & Ht1) (Hm2 & Hc2 & n2 & Hw2 & Ht2).
  split_and!; [by eapply moved_trans|auto|]. exists n2. auto.
Qed.
Lemma stays_calm mss w a u w1 w2 : stays mss w a u w1 -> calm_step w1 w2 -> stays mss w a u w2.
Proof.
  intros Hs Hc. eapply stays_trans; [exact Hs|]. destruct Hs as (_ & _ & n & Hw1 & _).
  split_and!; [by eapply calm_moved|by apply calm_counted|]. exists n. split; [by eapply calm_sending|].
  destruct Hc as (_ & _ & _ & Hq & _). injection Hq as ????. by replace (unsent_q (snd_st w2)) with (unsent_q (snd_st w1)) by congruence.
Qed.
Lemma stays_unsent mss f w a u n :
  sending w a u n -> (exists l, Forall2 wseg (unsent_q (f (snd_st w))) l /\ adj n l T) ->
  (rtx_q (f (snd_st w)), write_seq (f (snd_st w)), send_shutdown (f (snd_st w))) =
  (rtx_q (snd_st w), write_seq (snd_st w), send_shutdown (snd_st w)) ->
  (tail_ok mss (unsent_q (snd_st w)) -> tail_ok mss (unsent_q (f (snd_st w)))) ->
  stays mss w a u (w {{ snd_st ::= f }}) /\ sending (w {{ snd_st ::= f }}) a u n.
Proof.
  intros Hw Hl E Ht. destruct (set_unsent_ok f w a u n Hw Hl E) as [Hm Hw1]. split; [|done].
  split_and!; [done| |by exists n]. injection E as E _ _. unfold counted. intros Hp.
  change (pkts w = Z.of_nat (length (rtx_q (f (snd_st w))))). by rewrite E.
Qed.
(** A transmission leaves the queues alone. *)
Lemma clone_stays mss s r w a u n :
  sending w a u n -> wseg s r -> r.1 < r.2 <= T -> once s ->
  wp (transmit_clone s) w (fun res w' => stays mss w a u w' /\ sending w' a u n /\
    snd_st w' = snd_st w /\ pkts w' = pkts w /\ wq res.2 = wq s /\ wq_room res.2 = wq_room s).
Proof.
  intros Hw Hs Hr Hp. eapply wp_mono; [by apply (transmit_clone_ok s r w); [apply Hw|..]|].
  intros [err s1] w1 (Hf1 & Hc1 & Hst1 & Hfr1 & Hq1 & Hr1). cbn [snd] in *. injection Hc1 as ??????.
  assert (Hm : moved w w1) by (split_and!; try done; [unfold edge; congruence|by rewrite Hst1..]).
  assert (Hw1 : sending w1 a u n).
  { apply (moved_sending w w1 a u n); try done; rewrite ?Hst1; try apply Hw. etransitivity; [eassumption|apply Hw]. }
  assert (Hpk : pkts w1 = pkts w) by done. split; [|by split_and!]. split; [exact Hm|]. split.
  - unfold counted. by rewrite Hpk, Hst1.
  - exists n. by rewrite Hst1.
Qed.
Lemma xmit_loop_ok fuel mss na po b w a u n :
  0 < mss -> sending w a u n -> (queued_len (unsent_q (snd_st w)) < fuel)%nat ->
  wp (xmit_loop fuel mss na po b) w (fun _ => stays mss w a u).
Proof.
  intros Hm. revert b w n. induction fuel as [|fuel IH]; intros b w n Hw Hf; [lia|].
  simpl. apply wp_bind, wp_gets.
  destruct (unsent_q (snd_st w)) as [|s0 q] eqn:Hu; [apply wp_ret; by eapply stays_refl|].
  destruct (sd_unsent _ _ _ _ _ _ _ _ _ Hw) as (l0 & Hl0 & Hadj0). rewrite Hu in Hl0.
  destruct l0 as [|[o e] l]; [by apply Forall2_length in Hl0|].
  apply Forall2_cons in Hl0 as [Hs0 Hl]. destruct Hadj0 as (-> & Hne & Hadj).
  destruct (init_tso_same s0) as (Hp & Hlen & Hroom & Hseg). set (s := serval_tcp_init_tso_segs s0) in *.
  pose proof (Hseg _ Hs0) as Hs. clearbody s. apply wp_bind, wp_modS.
  destruct (stays_unsent mss (fun x => x {{ unsent_q := s :: q }}) w a u n Hw) as [Hm1 Hw1]; [|done| |].
  { exists ((n, e) :: l). split; [by constructor|done]. }
  { rewrite Hu. by apply tail_ok_cons. }
  set (w1 := w {{ snd_st ::= _ }}) in *. assert (Hu1 : unsent_q (snd_st w1) = s :: q) by done. clearbody w1.
  apply wp_bind, wp_the_tcp, wp_bind, wp_gets. cbv zeta. destruct (_ || _); [by apply wp_ret|].
  pose proof (sd_order _ _ _ _ _ _ _ _ _ Hw) as Ho. pose proof (txa_range _ _ _ _ Hs) as Hr. cbn [fst snd] in Hr.
  pose proof (sd_near _ _ _ _ _ _ _ _ _ Hw). pose proof (adj_le _ _ _ Hadj). apply wp_bind.
  eapply wp_mono; [eapply (cut_ok s q e l mss w1 n T n); try done; [apply Hw1|lia|apply Hw1|lia|lia]|].
  intros [[s' q']|] w2 Hcut; [|apply wp_ret; by eapply stays_calm].
  destruct Hcut as (Hc2 & e' & l' & Hs' & Hne' & Hp' & Hl' & Hadj' & Hfuel & Ht2 & _).
  replace (n <? e) with true in Hc2 by lia. pose proof (calm_sending _ _ _ _ _ _ _ _ _ _ _ Hc2 Hw1) as Hw2.
  pose proof (adj_le _ _ _ Hadj'). apply wp_bind.
  eapply wp_mono; [apply (plain_lift RSt risn _ (stamp_mild RSt risn)), Hw2|].
  intros now w3 Hc3. pose proof (calm_sending _ _ _ _ _ _ _ _ _ _ _ Hc3 Hw2) as Hw3.
  set (s3 := s' {{ wq_when := now }}).
  assert (Hs3 : wseg s3 (n, e')) by (apply (wseg_same isn St s'); auto). apply wp_bind.
  eapply wp_mono; [by apply (clone_stays mss s3 (n, e') w3 a u n)|].
  intros [err s4] w4 (Hm4 & Hw4 & Hst4 & _ & Hq4 & Hr4). cbn [snd] in *.
  assert (Hs4 : wseg s4 (n, e')) by (apply (wseg_same isn St s3); rewrite ?Hq4; auto).
  assert (Hm04 : stays mss w a u w4).
  { eapply stays_trans; [|exact Hm4]. eapply stays_calm; [|exact Hc3]. by eapply stays_calm. }
  assert (Hu4 : unsent_q (snd_st w4) = s :: q).
  { rewrite Hst4. destruct Hc3 as (_ & _ & _ & Hq3 & _), Hc2 as (_ & _ & _ & Hq2 & _).
    injection Hq3 as ????. injection Hq2 as ????. congruence. }
  assert (Ht4 : tail_ok mss (s :: q) -> tail_ok mss (s4 :: q')).
  { intros Ht. apply (tail_ok_cons mss s'); [|by apply Ht2]. intros _. unfold wq_len. by rewrite Hq4, Hr4. }
  destruct (negb (err =? 0)).
  { apply wp_bind, wp_modS, wp_ret. eapply stays_trans; [exact Hm04|].
    destruct (stays_unsent mss (fun x => x {{ unsent_q := s4 :: q' }}) w4 a u n Hw4) as [Hm5 _];
      [|done|by rewrite Hu4|exact Hm5]. exists ((n, e') :: l'). split; [by constructor|done]. }
  apply wp_bind. eapply wp_mono.
  { eapply (new_data_sent_ok s4 q' e' l' w4 a u n); try done. by rewrite Hq4. }
  intros [] w5 (Hm5 & Hw5 & Hu5 & Hcnt5).
  assert (Hm05 : stays mss w a u w5).
  { eapply stays_trans; [exact Hm04|]. split; [done|]. split; [done|]. exists e'. split; [done|].
    rewrite Hu4, Hu5. intros Ht. by eapply tail_ok_tl, Ht4. }
  apply wp_bind. eapply wp_mono; [apply minshall_plain, Hw5|].
  intros [] w6 Hc6. pose proof (calm_sending _ _ _ _ _ _ _ _ _ _ _ Hc6 Hw5) as Hw6.
  assert (Hu6 : unsent_q (snd_st w6) = q') by (destruct Hc6 as (_ & _ & _ & Hqq & _); injection Hqq as ????; congruence).
  assert (Hm06 : stays mss w a u w6) by (by eapply stays_calm).
  destruct po; [by apply wp_ret|]. eapply wp_mono; [apply (IH true w6 e' Hw6)|].
  - rewrite Hu6. rewrite !queued_cons in *. unfold wq_len in *. lia.
  - intros b' w7 Hm7. by eapply stays_trans.
Qed.

(** ** The callers of the loop *)
Lemma stays_fine mss w a u w' : stays mss w a u w' -> fine (net w').
Proof. intros [Hm _]. apply Hm. Qed.
Lemma stays_plain {A} (m : SM A) mss w a u w1 :
  stays mss w a u w1 -> plain m -> wp m w1 (fun _ => stays mss w a u).
Proof.
  intros Hs Hm. eapply wp_mono; [apply Hm; by eapply stays_fine|]. intros r w2 Hc. by eapply stays_calm.
Qed.
Lemma validate_plain b now : plain (on_cong (serval_tcp_cwnd_validate b now)).
Proof.
  apply plain_cong; intros g; unfold serval_tcp_cwnd_validate, serval_tcp_cwnd_application_limited.
  - repeat match goal with |- context [if ?c then _ else _] => destruct c end; done.
  - unfold cwnd_range.
    assert (Hu : forall z, 0 <= Z.shiftr (u32 z) 1 < 2 ^ 32).
    { intros z. pose proof (u32_range z). rewrite Z.shiftr_div_pow2 by lia. change (2 ^ 1) with 2.
      Z.to_euclidean_division_equations; lia. }
    intros [? ?]. repeat match goal with |- context [if ?c then _ else _] => destruct c end;
      (split; [first [done|apply Hu]|done]).
Qed.
Lemma write_xmit_ok mss na po w a u n :
  0 < mss -> sending w a u n -> wp (serval_tcp_write_xmit mss na po) w (fun _ => stays mss w a u).
Proof.
  intros Hm Hw. unfold serval_tcp_write_xmit. apply wp_bind, wp_gets, wp_bind.
  eapply wp_mono; [apply (xmit_loop_ok _ mss na po false w a u n); [done|exact Hw|lia]|]. intros b w1 Hs1.
  destruct b; apply stays_plain; try done; plain_steps.
  apply validate_plain.
Qed.
Lemma push_pending_ok mss na w a u n :
  0 < mss -> sending w a u n -> wp (__serval_tcp_push_pending_frames mss na) w (fun _ => stays mss w a u).
Proof.
  intros Hm Hw. unfold __serval_tcp_push_pending_frames. apply wp_bind, wp_the_tcp.
  destruct (_ =? TCP_CLOSE).
  { apply wp_ret. by eapply stays_refl. }
  apply wp_bind. eapply wp_mono; [by apply (write_xmit_ok mss na false w a u n)|]. intros b w1 Hs1.
  apply stays_plain; [done|]. unfold serval_tcp_check_probe_timer. plain_steps. apply reset_timer_plain.
Qed.
Lemma push_one_ok mss w a u n s q :
  0 < mss -> sending w a u n -> unsent_q (snd_st w) = s :: q -> mss <= wq_len s ->
  wp (serval_tcp_push_one mss) w (fun _ => stays mss w a u).
Proof.
  intros Hm Hw Hu Hl. unfold serval_tcp_push_one. apply wp_bind, wp_gets. rewrite Hu.
  replace (wq_len s <? mss) with false by lia. apply wp_bind.
  eapply wp_mono; [by apply (write_xmit_ok mss TCP_NAGLE_PUSH true w a u n)|]. intros b w1 Hs1. by apply wp_ret.
Qed.

(** ** The last segment *)
Lemma set_last_snoc f q s : set_last f (q ++ [s]) = q ++ [f s].
Proof. unfold set_last. rewrite last_snoc. f_equal. apply removelast_last. Qed.
Lemma set_last_wseg f q l :
  (forall s r, wseg s r -> wseg (f s) r) -> Forall2 wseg q l -> Forall2 wseg (set_last f q) l.
Proof.
  intros Hf Hq. destruct q as [|s q] using rev_ind; [done|]. rewrite set_last_snoc.
  apply Forall2_app_inv_l in Hq as (l1 & l2 & ? & Hs & ->). apply Forall2_app; [done|].
  inversion Hs; subst. inversion H3; subst. constructor; auto.
Qed.
Lemma set_last_tail mss f q :
  (forall s, wq_len (f s) = wq_len s /\ wq_room (f s) = wq_room s) -> tail_ok mss q -> tail_ok mss (set_last f q).
Proof.
  intros Hf Ht. destruct q as [|s q] using rev_ind; [done|]. rewrite set_last_snoc. intros s1.
  rewrite last_snoc. intros [= <-]. destruct (Hf s) as [-> ->]. apply Ht, last_snoc.
Qed.
Lemma flags_psh f b : flags_ok f b -> flags_ok (Z.lor f TCPH_PSH) b.
Proof.
  intros Hf. rewrite <- (orb_false_r b). apply flags_lor; [done|]. by vm_compute.
Qed.
Lemma mark_push_ok mss w a u n :
  sending w a u n -> wp serval_tcp_mark_push w (fun _ => stays mss w a u).
Proof.
  intros Hw. unfold serval_tcp_mark_push, tail_unsent. apply wp_bind, wp_modS.
  destruct (sd_unsent _ _ _ _ _ _ _ _ _ Hw) as (l & Hl & Hadj).
  destruct (stays_unsent mss (fun x => x {{ unsent_q ::= set_last (add_flags TCPH_PSH) }}) w a u n Hw) as [Hm1 Hw1];
    [|done|by apply set_last_tail|].
  { exists l. split; [|done]. apply set_last_wseg; [|done]. intros s r [? ? ? ? Hfl]. split; try done. by apply flags_psh. }
  set (w1 := w {{ snd_st ::= _ }}) in *. apply wp_modS. eapply stays_calm; [exact Hm1|].
  split_and!; try done. apply Hw1.
Qed.
Lemma tcp_push_ok more mss na w a u n :
  0 < mss -> sending w a u n -> wp (serval_tcp_push more mss na) w (fun _ => stays mss w a u).
Proof.
  intros Hm Hw. unfold serval_tcp_push. apply wp_bind, wp_gets, wp_bind, wp_the_tcp.
  pose proof (stays_refl mss _ _ _ _ Hw) as Hself.
  destruct (unsent_q (snd_st w)); [by apply wp_ret|]. apply wp_bind.
  eapply (wp_mono _ _ (fun _ => stays mss w a u)).
  { destruct (_ || _); [by eapply mark_push_ok|by apply wp_ret]. }
  intros [] w1 Hs1. pose proof Hs1 as (_ & _ & n1 & Hw1 & _). eapply wp_mono; [by eapply push_pending_ok|].
  intros [] w2 Hs2. by eapply stays_trans.
Qed.
End XmitOk.
