(* ===== verification/TcpRetransOk.v ===== *)
(** * Retransmission

    A segment that is transmitted again is trimmed to what is not acknowledged,
    cut to the segment size or joined with those behind it; the queue still
    holds the stream, and what goes on the wire is a frame of it. *)
From S2P Require Import Prelude SalHdr Checksum TcpSock TcpQueue TcpFrame TcpQueueOk TcpStream TcpCong TcpCongOk TcpOut TcpRecv TcpRecvOk TcpSend TcpWire TcpSendOk TcpXmitOk.
Local Open Scope Z_scope.

Section RetransOk.
Context `{EOk : TcpEnvOk} `{SndEnv} (RSt : list Z) (risn : Z) (isn : Z) (St : list Z) (fin : bool).
Implicit Types (s : wskb) (pre post q : list wskb) (l : list range) (w : sndw) (x : tcp_snd).
Abbreviation sqn := (sq isn).
Abbreviation L := (Z.of_nat (length St)).
Abbreviation T := (total St fin).
Abbreviation fine := (fine RSt risn).
Abbreviation plain := (plain RSt risn).
Abbreviation calm_step := (calm_step RSt risn).
Abbreviation calm_to := (calm_to RSt risn).
Abbreviation moved := (moved RSt risn isn St fin).
Abbreviation wseg := (wseg isn St).
Abbreviation sending := (sending RSt risn isn St fin).
Abbreviation once := (fun s => tx_pcount (wq s) = 1).

(** The segment size is positive. *)
Definition mss_ok (t : tcp_sock) : Prop := tcp_header_len t = TCP_HLEN /\ 0 < mss_cache (cong t) < 2 ^ 32.
Lemma mss_eq t : mss_ok t -> serval_tcp_current_mss t = mss_cache (cong t).
Proof. intros [E ?]. unfold serval_tcp_current_mss. rewrite E, Z.sub_diag, Z.sub_0_r. apply u32_id. lia. Qed.
Lemma mss_core t t' : core t' = core t -> mss_ok t -> mss_ok t'.
Proof. intros [= ? ? ? ? ? ?] [? ?]. split; congruence. Qed.
Lemma mss_edge t t' : edge t' = edge t -> mss_ok t -> mss_ok t'.
Proof. intros [=] [? ?]. split; congruence. Qed.

(** The retransmission queue with a segment in sight. *)
Record placed pre s post (a o e u n : Z) : Prop := {
  pl_pre : exists l, Forall2 wseg pre l /\ adj a l o /\ Forall (fun r => u < r.2) l;
  pl_seg : wseg s (o, e);
  pl_range : o < e /\ u < e;
  pl_post : exists l, Forall2 wseg post l /\ adj e l n;
  pl_once : Forall once (pre ++ s :: post);
}.
Lemma adj_above a l b u : adj a l b -> u <= a -> Forall (fun r => u < r.2) l.
Proof.
  revert a. induction l as [|[o e] l IH]; simpl; intros a; [constructor|]. intros (-> & ? & Hl) ?.
  constructor; [simpl; lia|]. apply (IH e); [done|lia].
Qed.
Lemma sending_placed w a u n pre s post :
  sending w a u n -> rtx_q (snd_st w) = pre ++ s :: post ->
  exists o e, placed pre s post a o e u n.
Proof.
  intros Hw Hq. destruct (sd_rtx _ _ _ _ _ _ _ _ _ Hw) as (l & Hl & Ha & Hu). rewrite Hq in Hl.
  apply Forall2_app_inv_l in Hl as (l1 & l2 & H1 & H2 & ->).
  destruct l2 as [|[o e] l2]; [by apply Forall2_length in H2|]. apply Forall2_cons in H2 as [Hs H2].
  apply adj_app in Ha as (m & Ha1 & -> & ? & Ha2). apply Forall_app in Hu as [Hu1 Hu2].
  apply Forall_cons in Hu2 as [? _]. exists m, e. split; [by exists l1|done|done|by exists l2|].
  rewrite <- Hq. apply Hw.
Qed.
Lemma placed_rtx pre s post a o e u n :
  placed pre s post a o e u n ->
  (exists l, Forall2 wseg (pre ++ s :: post) l /\ adj a l n /\ Forall (fun r => u < r.2) l) /\
  Forall once (pre ++ s :: post).
Proof.
  intros [(l1 & Hl1 & Ha1 & Hu1) Hs [Hoe Hue] (l2 & Hl2 & Ha2) Ho]. split; [|done].
  exists (l1 ++ (o, e) :: l2). split_and!.
  - apply Forall2_app; [done|]. by constructor.
  - apply adj_app. exists o. by split_and!.
  - apply Forall_app. split; [done|]. constructor; [done|]. apply (adj_above e l2 n); [done|lia].
Qed.
(** Only the first segment can start before what is acknowledged. *)
Lemma placed_first pre s post a o e u n : placed pre s post a o e u n -> o < u -> pre = [] /\ a = o.
Proof.
  intros [(l1 & H1 & Ha1 & Hu1) _ _ _ _] Ho. destruct l1 as [|r l1] using rev_ind.
  - split; [by apply Forall2_length in H1; destruct pre|done].
  - apply adj_app in Ha1 as (m & _ & Ha1). destruct r as [o' e']. destruct Ha1 as (_ & _ & Ha1).
    apply Forall_app in Hu1 as [_ Hu1]. apply Forall_cons in Hu1 as [Hu1 _].
    change (e' = o) in Ha1. change (u < e') in Hu1. lia.
Qed.
Lemma set_rtx_ok pre s post a a' o e u n w :
  sending w a u n -> placed pre s post a' o e u n -> a <= a' <= u ->
  wp (set_rtx (pre ++ s :: post)) w (fun _ w' => moved w w' /\ sending w' a' u n /\
    rtx_q (snd_st w') = pre ++ s :: post /\ unsent_q (snd_st w') = unsent_q (snd_st w) /\ pkts w' = pkts w).
Proof.
  intros Hw Hp Ha. apply wp_modS. set (w1 := w {{ snd_st ::= _ }}).
  assert (Hm : moved w w1) by (split_and!; try done; apply Hw). split_and!; try done.
  destruct (placed_rtx _ _ _ _ _ _ _ _ Hp) as [Hr Ho]. destruct Hw. split; try done; lia.
Qed.
Lemma calm_unsent p w w' : calm_to p w w' ->
  rtx_q (snd_st w') = rtx_q (snd_st w) /\ unsent_q (snd_st w') = unsent_q (snd_st w).
Proof. intros (_ & _ & _ & Hq & _). injection Hq as ????. done. Qed.

(** Trimming. *)
Lemma trim_step_ok pre s post a o e u n w :
  sending w a u n -> placed pre s post a o e u n -> rtx_q (snd_st w) = pre ++ s :: post ->
  let t := tp (net w) in
  wp (if before (tx_seq (wq s)) (snd_una (cong t)) then
        if before (tx_end (wq s)) (snd_una (cong t)) then faultM
        else serval_tcp_trim_head s (u32 (snd_una (cong t) - tx_seq (wq s)))
      else mret (Some s)) w (fun r w' => calm_step w w' /\
    match r with
    | None => True
    | Some s' => exists a', a <= a' <= u /\ placed pre s' post a' (Z.max o u) e u n
    end).
Proof.
  intros Hw Hp Hq t. pose proof Hp as [_ Hs [? ?] (l & Hl & Hadj) Ho]. pose proof Hs as [Hsq Hen Hr _ _ _].
  cbn [fst snd] in *. pose proof (sd_order _ _ _ _ _ _ _ _ _ Hw). pose proof (sd_near _ _ _ _ _ _ _ _ _ Hw).
  destruct (sd_unsent _ _ _ _ _ _ _ _ _ Hw) as (l' & _ & Hadj'). apply adj_le in Hadj as Hle, Hadj' as Hle'.
  destruct (pl_pre _ _ _ _ _ _ _ _ Hp) as (l1 & _ & Hl1 & _). apply adj_le in Hl1.
  subst t. rewrite (sd_una _ _ _ _ _ _ _ _ _ Hw), Hsq, Hen, !before_sq by lia.
  destruct (Z.ltb_spec o u) as [Hou|].
  2: { apply wp_ret. split; [apply calm_refl, Hw|]. exists a. replace (Z.max o u) with o by lia. split; [lia|done]. }
  replace (e <? u) with false by lia. rewrite sq_sub, u32_id by lia.
  destruct (placed_first _ _ _ _ _ _ _ _ Hp Hou) as [-> ->]. unfold total in *.
  eapply wp_mono; [apply (trim_ok RSt risn isn St s u o e); [apply Hw|done|lia|destruct fin; lia]|].
  intros [s'|] w1 [Hc Hs']; (split; [exact Hc|]); [|done]. destruct Hs' as [Hs' Hp'].
  exists u. replace (Z.max o u) with u by lia. split; [lia|]. split; [by exists []|done|lia|by exists l|].
  rewrite app_nil_l in *. apply Forall_cons in Ho as [? ?]. constructor; [congruence|done].
Qed.
Lemma shape_ok pre s post a o e u n mss w :
  fine (net w) -> placed pre s post a o e u n -> u <= o -> n <= L + 1 -> 0 < mss ->
  snd_nxt (cong (tp (net w))) = sqn n -> n - o < 2 ^ 31 -> Z.of_nat (length post) < pkts w < 2 ^ 30 ->
  wp (retransmit_shape s post mss) w (fun r w' =>
    match r with
    | None => calm_step w w'
    | Some (s', post') =>
        calm_to (pkts w - Z.of_nat (length post) + Z.of_nat (length post')) w w' /\
        exists e', placed pre s' post' a o e' u n
    end).
Proof.
  intros Hw [Hpre Hs [Hoe Hue] (l & Hl & Hadj) Ho] Hou Hn Hm Hnx Hfar Hcnt. unfold retransmit_shape.
  apply Forall_app in Ho as [Ho1 Ho2]. apply Forall_cons in Ho2 as [Ho2 Ho3].
  pose proof (adj_le _ _ _ Hadj). pose proof (txa_range _ _ _ _ Hs) as Hr. cbn [fst snd] in Hr.
  apply wp_bind. eapply wp_mono.
  { eapply (cut_ok RSt risn isn St s post e l mss w o n n); try done; lia. }
  intros [[s1 post1]|] w1 Hcut; [|by apply wp_ret].
  destruct Hcut as (Hc1 & e1 & l1 & Hs1 & Hne1 & Hp1 & Hl1 & Hadj1 & _ & _ & Honce & Hlen).
  replace (n <? e) with false in Hc1 by lia.
  assert (E1 : pkts w1 = pkts w - Z.of_nat (length post) + Z.of_nat (length post1)) by apply Hc1.
  apply wp_bind. eapply wp_mono.
  { eapply (try_collapse_ok RSt risn isn St s1 post1 l1 o e1 n mss w1); try done; [apply Hc1|by apply Honce|lia]. }
  intros [s2 post2] w2 (Hc2 & e2 & l2 & Hs2 & Hoe2 & Hl2 & Hadj2 & Hp2 & Hps2 & _). cbn [fst snd] in *.
  apply wp_ret. split.
  { eapply calm_to_trans; [exact Hc1|].
    by replace (pkts w - _ + _) with (pkts w1 - Z.of_nat (length post1) + Z.of_nat (length post2)) by lia. }
  exists e2. split; try done; [lia|by exists l2|].
  apply Forall_app. split; [done|]. by constructor.
Qed.
(** A FIN is never without the data in front of it that is not acknowledged. *)
Lemma strip_same s o e u :
  wseg s (o, e) -> 0 <= u <= o -> o < e -> e - u < 2 ^ 31 -> retransmit_strip (sqn u) s = s.
Proof.
  intros Hs Hu Hoe Hfar. pose proof Hs as [_ Hen Hr Hd Hf _]. cbn [fst snd] in *.
  unfold retransmit_strip. rewrite (has_fin _ _ Hf).
  destruct (Z.ltb_spec 0 (wq_len s)) as [Hlen|]; [|done].
  destruct (Z.eqb_spec e (L + 1)) as [->|]; [|done]. cbn [andb].
  assert (Hlt : o < L).
  { destruct (decide (o < L)); [done|]. unfold wq_len in Hlen. rewrite Hd in Hlen. unfold bytes in Hlen.
    rewrite length_take, length_drop in Hlen. lia. }
  replace (sqn u =? u32 (tx_end (wq s) - 1)) with false; [done|]. symmetry.
  rewrite Hen. change (sqn (L + 1) - 1) with (sqn (L + 1) + -1). rewrite sq_add, eqb_sq by lia. lia.
Qed.
(** What retransmission keeps. *)
Definition again w a u n w' : Prop :=
  moved w w' /\ unsent_q (snd_st w') = unsent_q (snd_st w) /\ counted w' /\
  exists a', a <= a' <= u /\ sending w' a' u n.
Lemma again_refl w a u n : sending w a u n -> counted w -> again w a u n w.
Proof.
  intros Hw Hc. pose proof (sd_order _ _ _ _ _ _ _ _ _ Hw).
  split_and!; [apply moved_refl, Hw|done|done|]. exists a. split; [lia|done].
Qed.
Lemma again_calm w a u n w1 w2 : again w a u n w1 -> calm_step w1 w2 -> again w a u n w2.
Proof.
  intros (Hm & Hu & Hn & a' & ? & Hs) Hc. pose proof (calm_unsent _ _ _ Hc) as [_ E].
  split_and!; [eapply moved_trans; [done|by eapply calm_moved]|congruence|by eapply calm_counted|].
  exists a'. split; [done|by eapply calm_sending].
Qed.
Lemma again_set pre s post w a u n w1 a1 o e :
  moved w w1 -> unsent_q (snd_st w1) = unsent_q (snd_st w) -> sending w1 a1 u n ->
  placed pre s post a1 o e u n -> a <= a1 <= u -> pkts w1 = Z.of_nat (length (pre ++ s :: post)) ->
  wp (set_rtx (pre ++ s :: post)) w1 (fun _ w' => again w a u n w' /\ sending w' a1 u n /\
    rtx_q (snd_st w') = pre ++ s :: post).
Proof.
  intros Hm Hu Hw1 Hp Ha Hn. eapply wp_mono; [eapply (set_rtx_ok pre s post a1 a1 o e); try done; lia|].
  intros [] w2 (Hm2 & Hw2 & Hq2 & Hu2 & Hn2). split; [|done]. split_and!; [by eapply moved_trans|congruence| |by exists a1].
  unfold counted. congruence.
Qed.
Lemma prepare_ok pre s post w a u n :
  sending w a u n -> rtx_q (snd_st w) = pre ++ s :: post -> counted w -> mss_ok (tp (net w)) ->
  wp (retransmit_prepare pre s post) w (fun r w' => again w a u n w' /\
    match r with
    | inl _ => True
    | inr (s', post') => rtx_q (snd_st w') = pre ++ s' :: post' /\
        exists a' o e, a <= a' <= u /\ sending w' a' u n /\ placed pre s' post' a' o e u n
    end).
Proof.
  intros Hw Hq Hcnt Hmss. destruct (sending_placed _ _ _ _ _ _ _ Hw Hq) as (o & e & Hp).
  pose proof (sd_order _ _ _ _ _ _ _ _ _ Hw). pose proof (sd_near _ _ _ _ _ _ _ _ _ Hw).
  destruct (rtx_bound _ _ _ _ _ _ _ _ _ Hw) as [Hn Hlen]. unfold counted in Hcnt. rewrite Hq in *.
  unfold retransmit_prepare. apply wp_bind, wp_the_tcp. cbv zeta. apply wp_bind.
  eapply wp_mono; [by apply (trim_step_ok pre s post a o e u n w)|]. intros [s1|] w1 [Hc1 Ht].
  2: { apply wp_ret. split; [|done]. eapply again_calm; [|exact Hc1]. apply again_refl; [done|].
       unfold counted. by rewrite Hq. }
  destruct Ht as (a1 & Ha1 & Hp1). pose proof (calm_sending _ _ _ _ _ _ _ _ _ _ _ Hc1 Hw) as Hw1.
  assert (E1 : pkts w1 = pkts w) by apply Hc1. rewrite length_app in *. cbn [length] in *.
  apply wp_bind. eapply wp_mono; [by eapply (set_rtx_ok pre s1 post a a1 (Z.max o u) e u n w1)|].
  intros [] w2 (Hm2 & Hw2 & Hq2 & Hu2 & Hn2).
  assert (Hag2 : again w a u n w2).
  { pose proof (calm_unsent _ _ _ Hc1) as [_ E]. split_and!; [|congruence| |exists a1; split; [lia|done]].
    - eapply moved_trans; [by eapply calm_moved|done].
    - unfold counted. rewrite Hq2, length_app. cbn [length]. lia. }
  assert (Hmss2 : mss_ok (tp (net w2))) by (apply (mss_edge (tp (net w))); [apply Hag2|done]).
  apply wp_bind, wp_the_tcp. destruct (_ && _); [by apply wp_ret|]. apply wp_bind.
  eapply wp_mono.
  { apply (shape_ok pre s1 post a1 (Z.max o u) e u n); [apply Hw2|done|lia| | |apply Hw2|lia|lia].
    - unfold total in *. destruct fin; lia.
    - rewrite mss_eq by done. apply Hmss2. }
  intros [[s3 post3]|] w3 Hshape; [|apply wp_ret; split; [by eapply again_calm|done]].
  destruct Hshape as (Hc3 & e3 & Hp3).
  assert (He3 : e3 <= n) by (destruct (pl_post _ _ _ _ _ _ _ _ Hp3) as (l & _ & Hl); by apply adj_le in Hl).
  pose proof (calm_sending _ _ _ _ _ _ _ _ _ _ _ Hc3 Hw2) as Hw3.
  replace (retransmit_strip _ s3) with s3.
  2: { symmetry. rewrite (sd_una _ _ _ _ _ _ _ _ _ Hw). pose proof (pl_range _ _ _ _ _ _ _ _ Hp3).
       eapply strip_same; [apply Hp3|lia..]. }
  apply wp_bind. eapply wp_mono.
  { eapply (again_set pre s3 post3 w a u n w3 a1 (Z.max o u) e3); try done.
    - eapply moved_trans; [apply Hag2|by eapply calm_moved].
    - pose proof (calm_unsent _ _ _ Hc3) as [_ E]. destruct Hag2 as (_ & ? & _). congruence.
    - assert (E3 : pkts w3 = pkts w2 - Z.of_nat (length post) + Z.of_nat (length post3)) by apply Hc3.
      rewrite E3, length_app. cbn [length]. lia. }
  intros [] w4 (Hag4 & Hw4 & Hq4). apply wp_ret. split; [done|]. split; [done|].
  exists a1, (Z.max o u), e3. split_and!; try done; lia.
Qed.
Lemma placed_same pre s s' post a o e u n :
  wq s' = wq s -> placed pre s post a o e u n -> placed pre s' post a o e u n.
Proof.
  intros E [? Hs ? ? Ho]. split; try done.
  - apply (wseg_same isn St s); rewrite ?E; auto.
  - apply Forall_app in Ho as [? Ho]. apply Forall_cons in Ho as [? ?].
    apply Forall_app. split; [done|]. constructor; [by rewrite E|done].
Qed.
Lemma retrans_count_plain k now : plain (on_cong (fun g =>
  let g := g {{ retrans_out := u32 (retrans_out g + k) }} in
  let g := if retrans_stamp g =? 0 then g {{ retrans_stamp := now }} else g in
  g {{ undo_retrans := undo_retrans g + 1 }})).
Proof.
  apply plain_cong; intros g; unfold cwnd_range; cbv zeta;
    destruct (retrans_stamp _ =? 0); done.
Qed.
(** A segment is sent again: the queue holds what it held. *)
Lemma retransmit_ok pre s post w a u n :
  sending w a u n -> rtx_q (snd_st w) = pre ++ s :: post -> counted w -> mss_ok (tp (net w)) ->
  wp (serval_tcp_retransmit_skb pre s post) w (fun _ => again w a u n).
Proof.
  intros Hw Hq Hcnt Hmss. unfold serval_tcp_retransmit_skb. apply wp_bind, wp_gets.
  pose proof (sd_order _ _ _ _ _ _ _ _ _ Hw). destruct (_ <? _); [apply wp_ret; by apply again_refl|].
  apply wp_bind. eapply wp_mono; [by apply (prepare_ok pre s post w a u n)|].
  intros [err|[s1 post1]] w1 [Hag1 Hr1]; [by apply wp_ret|].
  destruct Hr1 as (Hq1 & a1 & o & e & Ha1 & Hw1 & Hp1). apply wp_bind.
  eapply wp_mono; [apply (plain_lift RSt risn _ (stamp_mild RSt risn)), Hw1|]. intros now w2 Hc2.
  pose proof (calm_sending _ _ _ _ _ _ _ _ _ _ _ Hc2 Hw1) as Hw2.
  pose proof (again_calm _ _ _ _ _ _ Hag1 Hc2) as Hag2.
  assert (Hp2 : placed pre (s1 {{ wq_when := now }}) post1 a1 o e u n) by (by apply (placed_same pre s1)).
  set (s2 := s1 {{ wq_when := now }}) in *. clearbody s2. cbv zeta.
  assert (He : e <= T).
  { destruct (pl_post _ _ _ _ _ _ _ _ Hp2) as (l & _ & Hl). apply adj_le in Hl.
    destruct (rtx_bound _ _ _ _ _ _ _ _ _ Hw). lia. }
  apply wp_bind. eapply wp_mono.
  { apply (clone_stays RSt risn isn St fin 0 s2 (o, e) w2 a1 u n); [done|apply Hp2|cbn [fst snd]|].
    - pose proof (pl_range _ _ _ _ _ _ _ _ Hp2). lia.
    - pose proof (pl_once _ _ _ _ _ _ _ _ Hp2) as Ho. by apply Forall_app in Ho as [_ [? _]%Forall_cons]. }
  intros [err s3] w3 (Hs3 & Hw3 & Hst3 & Hpk3 & Hq3 & _). cbn [snd] in *.
  assert (Hp3 : placed pre s3 post1 a1 o e u n) by (by apply (placed_same pre s2)).
  assert (Hset : forall w4 s4, calm_step w3 w4 -> wq s4 = wq s3 ->
    wp (set_rtx (pre ++ s4 :: post1)) w4 (fun _ => again w a u n)).
  { intros w4 s4 Hc4 E4. pose proof (calm_unsent _ _ _ Hc4) as [_ Eu]. pose proof (calm_unsent _ _ _ Hc2) as [Er _].
    eapply wp_mono; [eapply (again_set pre s4 post1 w a u n w4 a1 o e)|by intros [] w5 [? _]].
    - eapply moved_trans; [apply Hag2|]. eapply moved_trans; [apply Hs3|by eapply calm_moved].
    - destruct Hag2 as (_ & ? & _). congruence.
    - by eapply calm_sending.
    - by apply (placed_same pre s3).
    - done.
    - destruct Hag2 as (_ & _ & Hn2 & _). assert (pkts w4 = pkts w3) as -> by apply Hc4. unfold counted in Hn2.
      rewrite Er, Hq1, !length_app in *. cbn [length] in *. lia. }
  destruct (negb (err =? 0)).
  { apply wp_bind. eapply wp_mono; [apply (Hset w3 s3); [apply calm_refl, Hw3|done]|]. intros [] w4 Hag. by apply wp_ret. }
  apply wp_bind, wp_the_tcp, wp_bind, wp_modS.
  set (w4 := w3 {{ snd_st ::= _ }}).
  assert (Hc4 : calm_step w3 w4) by (split_and!; try done; apply Hw3). clearbody w4. apply wp_bind.
  eapply wp_mono; [eapply (plain_if RSt risn _); [|apply plain_ret|apply Hc4]; by apply plain_upd|].
  intros [] w5 Hc5. pose proof (calm_trans _ _ _ _ _ _ Hc4 Hc5) as Hc. apply wp_bind.
  eapply wp_mono; [by apply Hset|].
  intros [] w6 Hag. apply wp_bind. eapply wp_mono; [apply retrans_count_plain, Hag|].
  intros [] w7 Hc7. apply wp_ret. by eapply again_calm.
Qed.
End RetransOk.

(** * Probes of the window

    A probe sends an old sequence number without data, or the part of the first
    unsent segment that fits into the window; the queue still holds the
    stream, and what goes on the wire are frames of it. *)

Section ProbeOk.
Context `{EOk : TcpEnvOk} `{SndEnv} (RSt : list Z) (risn : Z) (isn : Z) (St : list Z) (fin : bool).
Implicit Types (s : wskb) (q : list wskb) (l : list range) (w : sndw) (x : tcp_snd).
Abbreviation sqn := (sq isn).
Abbreviation L := (Z.of_nat (length St)).
Abbreviation T := (total St fin).
Abbreviation fine := (fine RSt risn).
Abbreviation plain := (plain RSt risn).
Abbreviation calm_step := (calm_step RSt risn).
Abbreviation calm_to := (calm_to RSt risn).
Abbreviation moved := (moved RSt risn isn St fin).
Abbreviation wseg := (wseg isn St).
Abbreviation sending := (sending RSt risn isn St fin).
Abbreviation once := (fun s => tx_pcount (wq s) = 1).

(** What a probe keeps. *)
Definition wakes w (a u : Z) w' : Prop :=
  moved w w' /\ (counted w -> counted w') /\ exists n, sending w' a u n.
Lemma wakes_refl w a u n : sending w a u n -> wakes w a u w.
Proof. intros Hw. split_and!; [apply moved_refl, Hw|done|eauto]. Qed.
Lemma wakes_trans w a u w1 w2 : wakes w a u w1 -> wakes w1 a u w2 -> wakes w a u w2.
Proof. intros (? & ? & _) (? & ? & ?). split_and!; [by eapply moved_trans|auto|done]. Qed.
Lemma wakes_calm w a u w1 w2 : wakes w a u w1 -> calm_step w1 w2 -> wakes w a u w2.
Proof.
  intros (Hm & Hc & n & Hn) Hs.
  split_and!; [eapply moved_trans; [done|by eapply calm_moved]|intros; by eapply calm_counted; eauto|].
  exists n. by eapply calm_sending.
Qed.
Lemma stays_wakes mss w a u w' : stays RSt risn isn St fin mss w a u w' -> wakes w a u w'.
Proof. intros (? & ? & n & ? & _). split_and!; eauto. Qed.

(** ** Probes without data *)
Lemma probe_skb_ok urgent w a u n :
  sending w a u n -> wp (serval_tcp_xmit_probe_skb urgent) w (fun _ w' => wakes w a u w' /\ sending w' a u n).
Proof.
  intros Hw. unfold serval_tcp_xmit_probe_skb. apply wp_bind.
  eapply wp_mono; [apply (plain_lift RSt risn _ (alloc_mild RSt risn)), Hw|]. intros ok w1 Hc1.
  pose proof (calm_sending _ _ _ _ _ _ _ _ _ _ _ Hc1 Hw) as Hw1.
  assert (Hk1 : wakes w a u w1) by (eapply wakes_calm; [by eapply wakes_refl|done]).
  destruct (negb ok); [by apply wp_ret|]. apply wp_bind, wp_the_tcp. cbv zeta. apply wp_lift.
  eapply wp_mono; [by apply tcp_transmit_ok; [apply Hw1|..]|].
  intros err net' (Hf & Hc & Hsent). injection Hc as Eu En Em Eh Est Ep. set (w2 := w1 {{ net := net' }}).
  assert (Hm : moved w1 w2).
  { split_and!; try done; [change (edge (tp net') = edge (tp (net w1))); unfold edge; congruence|]. intros Hok. unfold frames_ok in *.
    change (Forall (carried isn St fin) (sent net')). destruct Hsent as [-> | (d & -> & Hd)]; [done|].
    apply Forall_app. split; [done|]. apply Forall_singleton. eexists. split; [exact Hd|]. left. by vm_compute. }
  assert (Hw2 : sending w2 a u n).
  { eapply (moved_sending _ _ _ _ _ w1 w2 a u n); try done; [apply Hw1|by rewrite <- (sd_nxt _ _ _ _ _ _ _ _ _ Hw1)|apply Hw1..]. }
  split; [|done]. eapply wakes_trans; [done|]. split_and!; [done| |by exists n].
  unfold counted. by replace (pkts w2) with (pkts w1).
Qed.
Lemma write_probe_ok w a u n : sending w a u n -> wp write_probe w (fun _ => wakes w a u).
Proof.
  intros Hw. unfold write_probe. apply wp_bind, wp_the_tcp. cbv zeta. apply wp_bind.
  apply (wp_mono _ _ (fun _ w1 => wakes w a u w1 /\ sending w1 a u n)).
  - destruct (between _ _ _); [|apply wp_ret; split; [by eapply wakes_refl|done]].
    apply wp_bind. eapply wp_mono; [by apply probe_skb_ok|]. intros err w1 ?. by apply wp_ret.
  - intros [] w1 [Hk Hw1]. eapply wp_mono; [by apply (probe_skb_ok false w1 a u n)|].
    intros err w2 [Hk2 _]. by eapply wakes_trans.
Qed.

(** ** Probes with data *)
Lemma add_push_wseg s r : wseg s r -> wseg (add_flags TCPH_PSH s) r.
Proof.
  intros [A1 A2 A3 A4 A5 A6]. split; try done.
  change (flags_ok (Z.lor (tx_flags (wq s)) TCPH_PSH) (r.2 =? L + 1)).
  rewrite <- (orb_false_r (r.2 =? _)). by apply flags_lor; [|vm_compute].
Qed.
(** The first unsent segment is replaced by segments for the same bytes. *)
Lemma put_unsent s q e l w a u n :
  sending w a u n -> wseg s (n, e) -> n < e -> Forall2 wseg q l -> adj e l T ->
  let w' := w {{ snd_st ::= (fun x => x {{ unsent_q := s :: q }}) }} in
  wakes w a u w' /\ sending w' a u n.
Proof.
  intros Hw Hs Hne Hl Hadj w'.
  destruct (set_unsent_ok RSt risn isn St fin (fun x => x {{ unsent_q := s :: q }}) w a u n Hw) as [Hm Hw']; [|done|].
  { exists ((n, e) :: l). split; [by constructor|done]. }
  split; [|done]. split_and!; try done. by exists n.
Qed.
Lemma wnd_left (wnd_end seq : Z) :
  before seq wnd_end = true -> 0 < u32 (wnd_end - seq).
Proof.
  unfold before. intros Hb. pose proof (u32_range (wnd_end - seq)).
  destruct (decide (u32 (wnd_end - seq) = 0)) as [E|]; [|lia]. exfalso.
  unfold s32, u32 in *. apply Z.mod_divide in E as [k E]; [|done].
  replace (seq - wnd_end) with (- k * 2 ^ 32) in Hb by lia. rewrite Z.mod_mul in Hb by done. by vm_compute in Hb.
Qed.
Definition wakeup_cut s q (mss seg_size : Z) : SM (option (wskb * list wskb)) :=
  if (seg_size <? u32 (tx_end (wq s) - tx_seq (wq s))) || (mss <? wq_len s) then
    let s := add_flags TCPH_PSH s in
    upd_snd (fun x => x {{ unsent_q := s :: q }});;
    f ← serval_tcp_fragment s (Z.min seg_size mss);
    mret (match f with Some (s1, s2) => Some (s1, s2 :: q) | None => None end)
  else mret (Some (if tx_pcount (wq s) =? 0 then serval_tcp_set_skb_tso_segs s else s, q)).
Lemma wakeup_cut_ok s q e l mss seg_size w a u n :
  sending w a u n -> wseg s (n, e) -> n < e -> Forall2 wseg q l -> adj e l T -> 0 < mss -> 0 < seg_size ->
  wp (wakeup_cut s q mss seg_size) w (fun r w' => wakes w a u w' /\ sending w' a u n /\
    match r with
    | None => True
    | Some (s', q') => exists e' l', wseg s' (n, e') /\ n < e' /\ once s' /\ Forall2 wseg q' l' /\ adj e' l' T
    end).
Proof.
  intros Hw Hs Hne Hl Hadj Hm Hsz. unfold wakeup_cut.
  pose proof (sd_order _ _ _ _ _ _ _ _ _ Hw). pose proof (sd_near _ _ _ _ _ _ _ _ _ Hw). pose proof (adj_le _ _ _ Hadj).
  pose proof (txa_range _ _ _ _ Hs) as Hr. cbn [fst snd] in Hr.
  pose proof (wseg_len _ _ _ _ _ Hs ltac:(lia)) as Hlen.
  rewrite (txa_end _ _ _ _ Hs), (txa_seq _ _ _ _ Hs). cbn [fst snd]. rewrite sq_sub, u32_id by lia.
  destruct (_ || _) eqn:Hcut.
  2: { apply wp_ret. split_and!; [by eapply wakes_refl|done|]. exists e, l. split_and!; try done.
       - destruct (Z.eqb_spec (tx_pcount (wq s)) 0); [|done]. apply (wseg_same isn St s); auto.
       - pose proof (txa_count _ _ _ _ Hs). destruct (Z.eqb_spec (tx_pcount (wq s)) 0); [done|lia]. }
  cbv zeta. pose proof (add_push_wseg _ _ Hs) as Hp. change (wq_len s) with (wq_len (add_flags TCPH_PSH s)) in *.
  set (s' := add_flags TCPH_PSH s) in *. clearbody s'. apply wp_bind, wp_modS.
  destruct (put_unsent s' q e l w a u n Hw Hp Hne Hl Hadj) as [Hk1 Hw1]. set (w1 := w {{ snd_st ::= _ }}) in *.
  clearbody w1. apply wp_bind. eapply wp_mono.
  { apply (fragment_ok RSt risn isn St s' (Z.min seg_size mss) n e); [apply Hw1|done|lia|lia|lia|right].
    rewrite (sd_nxt _ _ _ _ _ _ _ _ _ Hw1), (txa_end _ _ _ _ Hp), before_sq by (cbn [snd]; lia). cbn [snd]. lia. }
  intros [[s1 s2]|] w2 Hf; apply wp_ret.
  2: { split_and!; [by eapply wakes_calm|by eapply calm_sending|done]. }
  destruct Hf as (Hc2 & Hs1 & Hs2 & ? & ? & ? & ? & _).
  rewrite (sd_nxt _ _ _ _ _ _ _ _ _ Hw1), (txa_end _ _ _ _ Hp), before_sq in Hc2 by (cbn [snd]; lia). cbn [snd] in Hc2.
  replace (n <? e) with true in Hc2 by lia. split_and!; [by eapply wakes_calm|by eapply calm_sending|].
  exists (n + Z.min seg_size mss), ((n + Z.min seg_size mss, e) :: l). split_and!; try done; [lia|by constructor].
Qed.
Lemma wakeup_send_ok s q w a u n :
  sending w a u n -> mss_ok (tp (net w)) -> unsent_q (snd_st w) = s :: q ->
  before (tx_seq (wq s)) (serval_tcp_wnd_end (tp (net w))) = true ->
  wp (wakeup_send s q) w (fun _ => wakes w a u).
Proof.
  intros Hw Hm Hu Hb. destruct (sd_unsent _ _ _ _ _ _ _ _ _ Hw) as (l0 & Hl0 & Hadj0). rewrite Hu in Hl0.
  destruct l0 as [|[o e] l]; [by apply Forall2_length in Hl0|].
  apply Forall2_cons in Hl0 as [Hs Hl]. destruct Hadj0 as (-> & Hne & Hadj). unfold wakeup_send.
  apply wp_bind, wp_the_tcp. cbv zeta. rewrite mss_eq by done. apply wp_bind.
  eapply wp_mono; [apply (plain_upd RSt risn); [intros x; by case_match|apply Hw]|]. intros [] w1 Hc1.
  pose proof (calm_sending _ _ _ _ _ _ _ _ _ _ _ Hc1 Hw) as Hw1.
  assert (Hk1 : wakes w a u w1) by (eapply wakes_calm; [by eapply wakes_refl|done]). apply wp_bind.
  eapply wp_mono; [apply (wakeup_cut_ok s q e l _ _ w1 a u n); try done; [apply Hm|by apply wnd_left]|].
  intros [[s2 q2]|] w2 (Hk2 & Hw2 & Hr); [|apply wp_ret; by eapply wakes_trans].
  destruct Hr as (e2 & l2 & Hs2 & Hne2 & Ho2 & Hl2 & Hadj2). pose proof (wakes_trans _ _ _ _ _ Hk1 Hk2) as Hk02.
  apply wp_bind. eapply wp_mono; [apply (plain_lift RSt risn _ (stamp_mild RSt risn)), Hw2|]. intros now w3 Hc3.
  pose proof (calm_sending _ _ _ _ _ _ _ _ _ _ _ Hc3 Hw2) as Hw3. pose proof (wakes_calm _ _ _ _ _ Hk02 Hc3) as Hk03.
  set (s3 := _ {{ wq_when := now }}).
  assert (Hs3 : wseg s3 (n, e2)).
  { apply (wseg_same isn St (add_flags TCPH_PSH s2)); try done; [by left|by apply add_push_wseg]. }
  assert (Ho3 : once s3) by done. clearbody s3. pose proof (adj_le _ _ _ Hadj2). apply wp_bind.
  eapply wp_mono; [by apply (clone_stays RSt risn isn St fin 0 s3 (n, e2) w3 a u n)|].
  intros [err s4] w4 (Hk4 & Hw4 & _ & _ & Hq4 & _). cbn [snd] in *. apply stays_wakes in Hk4.
  pose proof (wakes_trans _ _ _ _ _ Hk03 Hk4) as Hk04.
  assert (Hs4 : wseg s4 (n, e2)) by (apply (wseg_same isn St s3); rewrite ?Hq4; auto).
  apply wp_bind. apply (wp_mono _ _ (fun _ => wakes w a u)); [|intros [] w5 ?; by apply wp_ret].
  destruct (err =? 0).
  - eapply wp_mono; [eapply (new_data_sent_ok RSt risn isn St fin s4 q2 e2 l2 w4 a u n); try done; by rewrite Hq4|].
    intros [] w5 (Hm5 & Hw5 & _ & Hc5). eapply wakes_trans; [exact Hk04|]. split_and!; [done|done|by exists e2].
  - apply wp_modS. eapply wakes_trans; [exact Hk04|]. by eapply (put_unsent s4 q2 e2 l2).
Qed.
Lemma write_wakeup_ok w a u n :
  sending w a u n -> mss_ok (tp (net w)) -> wp serval_tcp_write_wakeup w (fun _ => wakes w a u).
Proof.
  intros Hw Hm. unfold serval_tcp_write_wakeup. apply wp_bind, wp_the_tcp, wp_bind, wp_gets.
  destruct (_ =? TCP_CLOSE); [apply wp_ret; by eapply wakes_refl|].
  destruct (unsent_q (snd_st w)) as [|s q] eqn:Hu; [by eapply write_probe_ok|].
  destruct (before _ _) eqn:Hb; [by eapply wakeup_send_ok|by eapply write_probe_ok].
Qed.
End ProbeOk.
