(* ===== verification/TcpFillOk.v ===== *)
(** * Writing

    What [sendmsg] takes from the user is appended to the stream: it goes into
    the last unsent segment or into new ones, and is sent as far as the windows
    allow. *)
From S2P Require Import Prelude SalHdr Checksum TcpSock TcpQueue TcpFrame TcpQueueOk TcpStream TcpCong TcpCongOk TcpOut TcpRecv TcpRecvOk TcpSend TcpWire TcpSendOk TcpXmitOk TcpRetransOk.
Local Open Scope Z_scope.

(** ** A longer stream *)
Lemma bytes_grow St d o e : 0 <= o -> e <= Z.of_nat (length St) -> bytes (St ++ d) o e = bytes St o e.
Proof.
  intros. unfold bytes. destruct (decide (Z.to_nat o <= length St)%nat).
  - rewrite drop_app_le by lia. apply take_app_le. rewrite length_drop. lia.
  - replace (Z.to_nat (e - o)) with 0%nat by lia. done.
Qed.
Section Grow.
Context `{EOk : TcpEnvOk} `{SndEnv} (RSt : list Z) (risn : Z) (isn : Z).
Implicit Types (s : wskb) (q : list wskb) (l : list range) (w : sndw) (x : tcp_snd) (St d : list Z).
Abbreviation sqn := (sq isn).
Abbreviation fine := (fine RSt risn).
Abbreviation plain := (plain RSt risn).
Abbreviation calm_step := (calm_step RSt risn).
Abbreviation wseg := (wseg isn).
Abbreviation sending := (sending RSt risn isn).
Abbreviation once := (fun s => tx_pcount (wq s) = 1).

Lemma tx_at_grow St d (q : tx_skb) (r : range) : r.2 <= Z.of_nat (length St) -> tx_at isn St q r -> tx_at isn (St ++ d) q r.
Proof.
  intros Hr [Hs He Ho Hd Hf Hc]. rewrite Z.min_l in Hd by lia.
  replace (r.2 =? Z.of_nat (length St) + 1) with false in Hf by lia.
  split; rewrite ?length_app; try done; [lia| |].
  - rewrite Z.min_l by lia. by rewrite bytes_grow by lia.
  - destruct (Z.eqb_spec r.2 (Z.of_nat (length St + length d) + 1)); [lia|done].
Qed.
Lemma wsegs_grow St d q l b a : b <= Z.of_nat (length St) -> adj a l b ->
  Forall2 (wseg St) q l -> Forall2 (wseg (St ++ d)) q l.
Proof.
  intros Hb Hadj Hq. revert a Hadj. induction Hq as [|s [o e] q l Hs Hq IH]; simpl; intros a; [constructor|].
  intros (-> & ? & Hadj). apply adj_le in Hadj as Hle. constructor; [|by apply (IH e)].
  apply tx_at_grow; [simpl; lia|done].
Qed.
Lemma carried_grow St d f : carried isn St false f -> carried isn (St ++ d) false f.
Proof.
  intros (q & Hf & Hq). exists q. split; [done|]. destruct Hq as [|(r & Hr & ?)]; [by left|right].
  unfold total in *. exists r. rewrite length_app. split; [|lia]. apply tx_at_grow; [lia|done].
Qed.

(** The state with the last unsent segment, which may be empty, apart. *)
Record opened St w (a u n : Z) q s (m : Z) : Prop := {
  op_fine : fine (net w);
  op_una : snd_una (cong (tp (net w))) = sqn u;
  op_nxt : snd_nxt (cong (tp (net w))) = sqn n;
  op_wseq : write_seq (snd_st w) = sqn (Z.of_nat (length St));
  op_order : 0 <= a <= u /\ u <= n;
  op_rtx : exists l, Forall2 (wseg St) (rtx_q (snd_st w)) l /\ adj a l n /\ Forall (fun r => u < r.2) l;
  op_once : Forall once (rtx_q (snd_st w));
  op_queue : unsent_q (snd_st w) = q ++ [s];
  op_unsent : exists l, Forall2 (wseg St) q l /\ adj n l m;
  op_last : wseg St s (m, Z.of_nat (length St));
  op_sent : Forall (carried isn St false) (sent (net w));
}.
Lemma sending_opened St w a u n q s :
  sending St false w a u n -> unsent_q (snd_st w) = q ++ [s] -> exists m, opened St w a u n q s m.
Proof.
  intros [? ? ? Hq ? ? ? ? (l & Hl & Hadj) ?] Hu. rewrite Hu in Hl. unfold total in *. rewrite Z.add_0_r in *.
  apply Forall2_app_inv_l in Hl as (l1 & l2 & Hl1 & Hl2 & ->). apply adj_app in Hadj as (m & Ha1 & Ha2).
  destruct l2 as [|[o e] l2]; [by apply Forall2_length in Hl2|]. apply Forall2_cons in Hl2 as [Hs Hl2].
  apply Forall2_nil_inv_l in Hl2 as ->. destruct Ha2 as (-> & ? & Ha2). change (e = Z.of_nat (length St)) in Ha2.
  subst e. exists m. split; try done. by exists l1.
Qed.
Lemma opened_calm St w w' a u n q s m : calm_step w w' -> opened St w a u n q s m -> opened St w' a u n q s m.
Proof.
  intros (? & Hc & Hs & Hq & _) []. injection Hc as ?????. injection Hq as Hr Hu Hw ?.
  split; rewrite ?Hr, ?Hu, ?Hs; try done; congruence.
Qed.
(** Bytes are put into it. *)
Lemma opened_fill St w a u n q s m copied copy d :
  opened St w a u n q s m -> 0 < copy <= wq_room s -> copy <= Z.of_nat (length d) ->
  Z.of_nat (length St) + copy - a < 2 ^ 30 ->
  let s' := fill_segment s copied copy d in
  wp (tail_unsent (fun _ => s');; upd_snd (fun x => x {{ write_seq := u32 (write_seq x + copy) }})) w
    (fun _ w' => sending (St ++ take (Z.to_nat copy) d) false w' a u n /\
      unsent_q (snd_st w') = q ++ [s'] /\ wq_len s' = wq_len s + copy /\
      wq_len s' + wq_room s' = wq_len s + wq_room s /\
      edge (tp (net w')) = edge (tp (net w)) /\ send_shutdown (snd_st w') = send_shutdown (snd_st w) /\
      (counted w -> counted w')).
Proof.
  intros [Hfine Huna Hnxt Hwseq Hord (lr & Hlr & Har & Hur) Honce Hq (l & Hl & Hadj) Hs Hsent] Hcopy Hd Hnear s'.
  set (D := take (Z.to_nat copy) d). assert (HD : Z.of_nat (length D) = copy) by (subst D; rewrite length_take; lia).
  assert (Hs'q : tx_data (wq s') = tx_data (wq s) ++ D /\ wq_room s' = wq_room s - copy /\
    tx_seq (wq s') = tx_seq (wq s) /\ tx_end (wq s') = u32 (tx_end (wq s) + copy) /\
    (tx_flags (wq s') = if copied =? 0 then Z.land (tx_flags (wq s)) (Z.lnot TCPH_PSH) else tx_flags (wq s)) /\
    tx_pcount (wq s') = 0).
  { subst s'. unfold fill_segment. replace (0 <? wq_room s) with true by lia. split_and!; try done.
    change (wq_room s - Z.of_nat (length D) = wq_room s - copy). by rewrite HD. }
  destruct Hs'q as (Hdata & Hroom & Hseq & Hend & Hfl & Hpc).
  assert (Hlen' : wq_len s' = wq_len s + copy) by (unfold wq_len; rewrite Hdata, length_app; lia).
  clearbody s'. destruct (txa_range _ _ _ _ Hs) as [Hr1 Hr2]. cbn [fst snd] in *.
  assert (Hlen : Z.of_nat (length (St ++ D)) = Z.of_nat (length St) + copy) by (rewrite length_app; lia).
  assert (Hs' : wseg (St ++ D) s' (m, Z.of_nat (length St) + copy)).
  { destruct Hs as [Hsq Hen _ Hdt Hf _]. cbn [fst snd] in *. rewrite Z.min_id in Hdt.
    split; cbn [fst snd]; [congruence|rewrite Hend, Hen; apply sq_add|lia| | |lia].
    - rewrite Hlen, Z.min_id, Hdata, Hdt. unfold bytes. rewrite drop_app_le by lia.
      rewrite !take_ge; rewrite ?length_app, ?length_drop; try lia. done.
    - rewrite Hlen. replace (Z.of_nat (length St) + copy =? Z.of_nat (length St) + copy + 1) with false by lia.
      replace (Z.of_nat (length St) =? Z.of_nat (length St) + 1) with false in Hf by lia. rewrite Hfl. destruct (copied =? 0); [|done].
      apply (flags_land _ (Z.lnot TCPH_PSH)) in Hf. done. }
  apply wp_bind, wp_modS, wp_modS. set (w' := _ {{ snd_st ::= _ }}).
  assert (Hq' : unsent_q (snd_st w') = q ++ [s']).
  { change (set_last (fun _ => s') (unsent_q (snd_st w)) = q ++ [s']). rewrite Hq. apply set_last_snoc. }
  apply adj_le in Hadj as Hle, Har as Hle'. split_and!; try done; [|lia].
  assert (Htot : total (St ++ D) false = Z.of_nat (length St) + copy) by (unfold total; lia).
  split; rewrite ?Htot; try done.
  - change (u32 (write_seq (snd_st w) + copy) = sqn (Z.of_nat (length St) + copy)). rewrite Hwseq. apply sq_add.
  - exists lr. split_and!; try done. eapply wsegs_grow; [|done..]. lia.
  - exists (l ++ [(m, Z.of_nat (length St) + copy)]). rewrite Hq'. split.
    + apply Forall2_app; [|by constructor]. eapply wsegs_grow; [|done..]. lia.
    + apply adj_app. exists m. split; [done|]. split_and!; try done. lia.
  - eapply Forall_impl; [exact Hsent|]. intros f. apply carried_grow.
Qed.
End Grow.

Section FillOk.
Context `{EOk : TcpEnvOk} `{SndEnv} (RSt : list Z) (risn : Z) (isn : Z) (a u : Z).
Implicit Types (s : wskb) (q : list wskb) (l : list range) (w : sndw) (x : tcp_snd) (St d : list Z).
Abbreviation sqn := (sq isn).
Abbreviation fine := (fine RSt risn).
Abbreviation plain := (plain RSt risn).
Abbreviation calm_step := (calm_step RSt risn).
Abbreviation wseg := (wseg isn).
Abbreviation sending St := (sending RSt risn isn St false).
Abbreviation opened := (opened RSt risn isn).

Lemma stream_alloc_ok k w :
  fine (net w) -> wp (sk_stream_alloc_skb k) w (fun r w' => calm_step w w' /\
    match r with
    | None => True
    | Some b => wq b = TxSkb 0 0 0 [] false 0 0 /\ wq_room b = align4 k
    end).
Proof.
  intros Hw. unfold sk_stream_alloc_skb. apply wp_bind.
  eapply wp_mono; [apply (plain_lift RSt risn _ (alloc_mild RSt risn)), Hw|]. intros [] w1 Hc1.
  - apply wp_bind. eapply wp_mono; [apply wmem_schedule_plain, Hc1|]. intros ok w2 Hc2.
    apply wp_ret. split; [by eapply calm_trans|]. by destruct ok.
  - apply wp_bind, wp_lift, wp_modS. apply (wp_mono _ _ (fun r w' => calm_step w1 w' /\ r = None)).
    2: { intros r w' [? ->]. split; [by eapply calm_trans|done]. }
    apply wp_bind. eapply wp_mono; [apply (moderate_plain RSt risn)|].
    { apply (fine_receiver RSt risn (net w1)); [done|apply Hc1|apply Hc1]. }
    intros [] w2 Hc2. apply wp_ret. split; [|done]. eapply calm_trans; [|exact Hc2].
    split_and!; try done. apply (fine_receiver RSt risn (net w1)); [done|apply Hc1|apply Hc1].
Qed.
Lemma align4_ge k : k <= align4 k.
Proof. unfold align4. Z.to_euclidean_division_equations. lia. Qed.

(** What stays the same while the user writes. *)
Definition same_edge w w' : Prop :=
  edge (tp (net w')) = edge (tp (net w)) /\ send_shutdown (snd_st w') = send_shutdown (snd_st w) /\
  (counted w -> counted w').
Lemma same_edge_trans w1 w2 w3 : same_edge w1 w2 -> same_edge w2 w3 -> same_edge w1 w3.
Proof. intros (? & ? & ?) (? & ? & ?). split_and!; [congruence..|auto]. Qed.
Lemma calm_edge w w' : calm_step w w' -> same_edge w w'.
Proof.
  intros Hc. pose proof (calm_counted RSt risn _ _ Hc). destruct Hc as (_ & Hc & _ & Hq & _).
  injection Hc as ?????. injection Hq as ????. split_and!; [unfold edge; congruence|done..].
Qed.
(** A segment to fill, up to the segment size. *)
Definition fillable St (mss : Z) w (n : Z) w' s (copy : Z) : Prop :=
  same_edge w w' /\ exists q m, opened St w' a u n q s m /\
    0 < copy /\ wq_len s + copy = mss /\ mss <= wq_len s + wq_room s.
Definition fill_result St (mss : Z) w (n : Z) (r : option (wskb * Z) * bool) w' : Prop :=
  match r.1 with
  | None => calm_step w w'
  | Some (s, copy) => fillable St mss w n w' s copy
  end.
Lemma entail_ok St w n b :
  sending St w a u n -> wq b = TxSkb 0 0 0 [] false 0 0 ->
  wp (skb_entail b) w (fun _ w' => same_edge w w' /\ exists s, opened St w' a u n (unsent_q (snd_st w)) s
    (Z.of_nat (length St)) /\ wq_len s = 0 /\ wq_room s = wq_room b).
Proof.
  intros Hw Hb. unfold skb_entail. apply wp_bind, wp_gets. cbv zeta. set (s := b {{ wq ::= _; wq_sacked := _ }}).
  assert (Hroom : wq_room s = wq_room b) by done.
  assert (Hsq : wq s = TxSkb (write_seq (snd_st w)) (write_seq (snd_st w)) TCPH_ACK [] false 0 0).
  { change (wq s) with ((wq b) {{ tx_csum := 0; tx_seq := write_seq (snd_st w); tx_end := write_seq (snd_st w);
      tx_flags := TCPH_ACK }}). by rewrite Hb. }
  clearbody s. apply wp_bind, wp_modS. set (w1 := w {{ snd_st ::= _ }}).
  destruct Hw as [Hfine Huna Hnxt Hwseq Hord Hnear Hrtx Honce Hun Hsent].
  unfold total in *. rewrite Z.add_0_r in *.
  assert (Hop : opened St w1 a u n (unsent_q (snd_st w)) s (Z.of_nat (length St))).
  { split; try done. split; cbn [fst snd]; rewrite ?Hsq; cbn [tx_seq tx_end tx_data tx_flags]; try done; [lia| |].
    - rewrite Z.min_id. unfold bytes. by rewrite Z.sub_diag.
    - replace (Z.of_nat (length St) =? Z.of_nat (length St) + 1) with false by lia. by vm_compute. }
  assert (Hedge : same_edge w w1) by done. assert (Hlen : wq_len s = 0) by (unfold wq_len; by rewrite Hsq).
  clearbody w1. eapply wp_mono; [apply (mem_charge_plain RSt risn), Hop|].
  intros [] w2 Hc2. split; [eapply same_edge_trans; [done|by apply calm_edge]|]. exists s. split_and!; try done.
  by eapply opened_calm.
Qed.
Lemma new_segment_ok St mss w n :
  0 < mss -> sending St w a u n -> mss_cache (cong (tp (net w))) = mss ->
  wp (new_segment mss) w (fill_result St mss w n).
Proof.
  intros Hm Hw Hmss. unfold new_segment. apply wp_bind, wp_gets, wp_bind, wp_the_tcp.
  destruct (negb _); [apply wp_ret; apply calm_refl, Hw|]. apply wp_bind.
  eapply wp_mono; [apply stream_alloc_ok, Hw|]. intros [b|] w1 [Hc1 Hb]; [|by apply wp_ret].
  destruct Hb as [Hb Hroom]. rewrite Hmss in Hroom. pose proof (align4_ge mss).
  pose proof (calm_sending _ _ _ _ _ _ _ _ _ _ _ Hc1 Hw) as Hw1. apply wp_bind.
  eapply wp_mono; [by apply (entail_ok St w1 n b)|]. intros [] w2 (He2 & s & Hop & Hlen & Hrs).
  apply wp_bind, wp_gets. rewrite (op_queue _ _ _ _ _ _ _ _ _ _ _ Hop), last_snoc. apply wp_bind, wp_ret, wp_ret.
  split; [eapply same_edge_trans; [by apply calm_edge|done]|].
  exists (unsent_q (snd_st w1)), (Z.of_nat (length St)). split_and!; try done; lia.
Qed.
Lemma segment_ok St mss w n :
  0 < mss -> sending St w a u n -> mss_cache (cong (tp (net w))) = mss -> tail_ok mss (unsent_q (snd_st w)) ->
  wp (segment_to_fill mss) w (fill_result St mss w n).
Proof.
  intros Hm Hw Hmss Ht. unfold segment_to_fill. apply wp_bind, wp_gets.
  destruct (unsent_q (snd_st w)) as [|s q _] eqn:Hq using rev_ind; [by apply new_segment_ok|].
  rewrite last_snoc. destruct (Z.ltb_spec 0 (mss - wq_len s)); [|by apply new_segment_ok].
  apply wp_ret. split; [done|]. destruct (sending_opened _ _ _ _ _ _ _ _ _ _ Hw Hq) as (m & Hop).
  exists q, m. destruct (Ht s (last_snoc _ _)). split_and!; try done; lia.
Qed.
Lemma wp_two {A} (m1 m2 : SM unit) (m3 : SM A) w Q :
  wp (m1;; m2) w (fun _ w' => wp m3 w' Q) -> wp (m1;; m2;; m3) w Q.
Proof.
  intros Hw. apply wp_run in Hw as ([] & w2 & Hrun & Hw). apply bind_Ok_inv in Hrun as ([] & w1 & H1 & H2).
  apply wp_bind, wp_run. exists tt, w1. split; [done|]. apply wp_bind, wp_run. by exists tt, w2.
Qed.
(** What a loop over the bytes [d] has done when it has taken [k] of them. *)
Definition filled St (mss : Z) d w (k : nat) w' : Prop :=
  (k <= length d)%nat /\ same_edge w w' /\ tail_ok mss (unsent_q (snd_st w')) /\
  exists n', sending (St ++ take k d) w' a u n'.
Lemma filled_none St mss d w w' n :
  sending St w' a u n -> same_edge w w' -> tail_ok mss (unsent_q (snd_st w')) -> filled St mss d w 0 w'.
Proof. intros Hw He Ht. split_and!; [lia|done..|]. exists n. by rewrite app_nil_r. Qed.
Lemma filled_app St mss d1 d2 w w1 w2 k :
  filled St mss d1 w (length d1) w1 -> filled (St ++ d1) mss d2 w1 k w2 ->
  filled St mss (d1 ++ d2) w (length d1 + k) w2.
Proof.
  intros (_ & He1 & _) (Hk & He2 & Ht & n & Hw). split_and!; [rewrite length_app; lia|by eapply same_edge_trans|done|].
  exists n. rewrite take_app_add, app_assoc in *. done.
Qed.
Lemma filled_wp {A} (m : SM A) St mss d w k w1 :
  filled St mss d w k w1 ->
  (forall St' n, sending St' w1 a u n -> wp m w1 (fun _ => stays RSt risn isn St' false mss w1 a u)) ->
  wp m w1 (fun _ => filled St mss d w k).
Proof.
  intros (? & He & Ht & n & Hw) Hs. eapply wp_mono; [by eapply Hs|]. intros r w2 (Hm & Hc & n' & Hw' & Ht').
  split_and!; [done| |by apply Ht'|eauto]. eapply same_edge_trans; [done|]. split_and!; [apply Hm|apply Hm|done].
Qed.
(** A segment that is full may be sent. *)
Lemma fill_push_ok St mss d w k w1 q s :
  0 < mss -> filled St mss d w k w1 -> unsent_q (snd_st w1) = q ++ [s] ->
  wp (fill_push mss s) w1 (fun _ => filled St mss d w k).
Proof.
  intros Hm Hf Hq. unfold fill_push. destruct (Z.ltb_spec (wq_len s) mss); [by apply wp_ret|].
  apply wp_bind, wp_gets, wp_bind, wp_the_tcp. destruct (forced_push _ _).
  - apply wp_bind. eapply wp_mono; [apply (filled_wp _ _ _ _ _ _ _ Hf); intros; by eapply mark_push_ok|].
    intros [] w2 Hf2. apply (filled_wp _ _ _ _ _ _ _ Hf2). intros. by eapply push_pending_ok.
  - rewrite Hq. destruct q as [|s1 q]; [|by destruct q; apply wp_ret]. simpl.
    apply (filled_wp _ _ _ _ _ _ _ Hf). intros. by eapply push_one_ok.
Qed.
Lemma fill_loop_ok fuel St mss copied d li w n :
  0 < mss -> sending St w a u n -> mss_cache (cong (tp (net w))) = mss -> tail_ok mss (unsent_q (snd_st w)) ->
  (length d <= fuel)%nat -> Z.of_nat (length St) + Z.of_nat (length d) - a < 2 ^ 30 ->
  wp (fill_loop fuel mss copied d li) w (fun r w' => exists k, r.1 = copied + Z.of_nat k /\
    filled St mss d w k w' /\ (r.2 = false -> k = length d)).
Proof.
  intros Hm. revert St copied d w n. induction fuel as [|fuel IH]; intros St copied d w n Hw Hmss Ht Hfuel Hnear.
  { destruct d; [|simpl in Hfuel; lia]. apply wp_ret. exists 0%nat. split_and!; [simpl; lia|by eapply filled_none|done]. }
  destruct d as [|z d']; [apply wp_ret; exists 0%nat; split_and!; [simpl; lia|by eapply filled_none|done]|].
  set (d := z :: d') in *. assert (Hd : (0 < length d)%nat) by (simpl; lia).
  change (fill_loop (S fuel) mss copied d li) with
    (r ← segment_to_fill mss;
     match r with
     | (None, full) =>
         (if full : bool then upd_snd (fun x => x {{ no_space := true }}) else mret tt);;
         (if copied =? 0 then mret tt else serval_tcp_push false mss TCP_NAGLE_PUSH);;
         mret (copied, true)
     | (Some (s, copy), _) =>
         let copy := Z.min copy (Z.of_nat (length d)) in
         let copy := if 0 <? wq_room s then Z.min copy (wq_room s) else copy in
         let s := fill_segment s copied copy d in
         tail_unsent (fun _ => s);;
         upd_snd (fun x => x {{ write_seq := u32 (write_seq x + copy) }});;
         let copied := copied + copy in
         let d := drop (Z.to_nat copy) d in
         if bool_decide (d = []) && li then mret (copied, false)
         else fill_push mss s;; fill_loop fuel mss copied d li
     end).
  clearbody d. clear z d'. apply wp_bind. eapply wp_mono; [by apply (segment_ok St mss w n)|].
  intros [[[s copy]|] full] w1 Hr.
  2: { pose proof (calm_sending _ _ _ _ _ _ _ _ _ _ _ Hr Hw) as Hw1. apply wp_bind.
       eapply wp_mono; [apply (plain_if RSt risn full); [by apply plain_upd|apply plain_ret|apply Hw1]|].
       intros [] w2 Hc2. pose proof (calm_trans _ _ _ _ _ _ Hr Hc2) as Hc.
       assert (Hf : filled St mss d w 0 w2).
       { apply (filled_none St mss d w w2 n); [by eapply calm_sending|by apply calm_edge|].
         destruct (calm_unsent _ _ _ _ _ Hc) as [_ ->]. done. }
       apply wp_bind. eapply (wp_mono _ _ (fun _ => filled St mss d w 0)).
       - destruct (copied =? 0); [by apply wp_ret|]. apply (filled_wp _ _ _ _ _ _ _ Hf). intros. by eapply tcp_push_ok.
       - intros [] w3 Hf3. apply wp_ret. exists 0%nat. split_and!; [simpl; lia|done|done]. }
  destruct Hr as (He1 & q & m & Hop & Hcopy & Hsum & Hroom). cbv zeta.
  replace (0 <? wq_room s) with true by lia. set (c := Z.min _ _).
  assert (Hc : 0 < c <= wq_room s /\ c <= Z.of_nat (length d) /\ c <= copy) by lia. clearbody c.
  set (s' := fill_segment s copied c d). apply wp_two.
  eapply wp_mono; [eapply (opened_fill RSt risn isn St w1 a u n q s m copied c d); [done|lia..]|]. fold s'.
  intros [] w2 (Hw2 & Hq2 & Hlen2 & Hsum2 & He2). clearbody s'.
  assert (HD : length (take (Z.to_nat c) d) = Z.to_nat c) by (rewrite length_take; lia).
  assert (Hf2 : filled St mss (take (Z.to_nat c) d) w (length (take (Z.to_nat c) d)) w2).
  { split_and!; [lia|eapply same_edge_trans; [done|exact He2]| |].
    - rewrite Hq2. intros s1. rewrite last_snoc. intros [= <-]. lia.
    - exists n. by rewrite firstn_all. }
  assert (Hback : forall w3 k2, filled (St ++ take (Z.to_nat c) d) mss (drop (Z.to_nat c) d) w2 k2 w3 ->
    filled St mss d w (Z.to_nat c + k2) w3).
  { intros w3 k2 Hf3. rewrite <- (take_drop (Z.to_nat c) d) at 1. rewrite <- HD at 3. by eapply filled_app. }
  destruct (_ && li) eqn:Hend.
  { apply wp_ret. exists (Z.to_nat c + 0)%nat. apply andb_true_iff in Hend as [Hend%bool_decide_eq_true _].
    apply (f_equal length) in Hend. rewrite length_drop in Hend. simpl in Hend. split_and!; [simpl; lia| |lia].
    apply Hback. apply (filled_none _ _ _ w2 w2 n); [done..|apply Hf2]. }
  apply wp_bind. eapply wp_mono.
  { apply (fill_push_ok (St ++ take (Z.to_nat c) d) mss (drop (Z.to_nat c) d) w2 0 w2 q s'); [done| |done].
    apply (filled_none _ _ _ w2 w2 n); [done..|apply Hf2]. }
  intros [] w3 (_ & He3 & Ht3 & n3 & Hw3). rewrite app_nil_r in Hw3.
  eapply wp_mono.
  { eapply (IH (St ++ take (Z.to_nat c) d) (copied + c) (drop (Z.to_nat c) d) w3 n3); [done| |done|rewrite length_drop; lia|rewrite length_app, HD, length_drop; lia].
    destruct He1 as [E1 _], He2 as [E2 _], He3 as [E3 _]. unfold edge in *. congruence. }
  intros [c' stop] w4 (k & Hk & Hf4 & Hstop). cbn [fst snd] in *. exists (Z.to_nat c + k)%nat. split_and!; [lia| |].
  - apply Hback. destruct Hf4 as (? & ? & ? & ?). split_and!; try done. by eapply same_edge_trans.
  - intros E. rewrite (Hstop E), length_drop. lia.
Qed.
Lemma iov_loop_ok iovs St mss copied w n :
  0 < mss -> sending St w a u n -> mss_cache (cong (tp (net w))) = mss -> tail_ok mss (unsent_q (snd_st w)) ->
  Z.of_nat (length St) + Z.of_nat (length (concat iovs)) - a < 2 ^ 30 ->
  wp (iov_loop mss copied iovs) w (fun r w' => exists k, r.1 = copied + Z.of_nat k /\
    filled St mss (concat iovs) w k w' /\ (r.2 = false -> k = length (concat iovs))).
Proof.
  intros Hm. revert St copied w n. induction iovs as [|d iovs IH]; intros St copied w n Hw Hmss Ht Hnear.
  { apply wp_ret. exists 0%nat. split_and!; [simpl; lia|by eapply filled_none|done]. }
  simpl in Hnear. rewrite length_app in Hnear. cbn [iov_loop]. apply wp_bind.
  eapply wp_mono; [by eapply (fill_loop_ok (length d) St mss copied d _ w n); [..|lia]|].
  intros [c stop] w1 (k & Hc & Hf1 & Hstop). cbn [fst snd] in *.
  assert (Hk : (k <= length d)%nat) by apply Hf1. destruct stop.
  { apply wp_ret. exists k. split_and!; [done| |done]. destruct Hf1 as (_ & ? & ? & n1 & Hw1).
    split_and!; [simpl; rewrite length_app; lia|done..|]. exists n1. simpl. by rewrite take_app_le by lia. }
  rewrite (Hstop eq_refl) in *. pose proof Hf1 as (_ & [He1 _] & Ht1 & n1 & Hw1). rewrite firstn_all in Hw1.
  eapply wp_mono.
  { eapply (IH (St ++ d) c w1 n1); [done| |done|rewrite length_app; lia]. unfold edge in *. congruence. }
  intros [c2 stop2] w2 (k2 & Hc2 & Hf2 & Hstop2). cbn [fst snd] in *. exists (length d + k2)%nat.
  split_and!; [lia|by eapply filled_app|]. intros E. simpl. by rewrite length_app, (Hstop2 E).
Qed.
Lemma sock_error_plain : plain sock_error.
Proof.
  unfold sock_error. apply plain_bind; [plain_steps|intros t]. apply plain_bind; [|intros; plain_steps].
  apply plain_lift, mild_mod. intros w. split_and!; try done. by intros [? _].
Qed.
Lemma stream_error_plain err : plain (sk_stream_error err).
Proof. unfold sk_stream_error. plain_steps. apply sock_error_plain. Qed.
Lemma wait_connect_plain : plain sk_stream_wait_connect.
Proof. unfold sk_stream_wait_connect. plain_steps. apply sock_error_plain. Qed.
Lemma wait_memory_plain : plain sk_stream_wait_memory.
Proof. unfold sk_stream_wait_memory. plain_steps. Qed.
(** An error of [sendmsg] is not positive. *)
Lemma stream_error_neg err w :
  err <= 0 -> fine (net w) ->
  wp (sk_stream_error err) w (fun r w' => calm_step w w' /\ r <= 0).
Proof.
  intros He Hw. pose proof (proj2 (proj2 Hw)) as Hk. apply wp_and; [by apply stream_error_plain|]. unfold sk_stream_error.
  destruct (_ =? _); [|by apply wp_ret]. apply wp_bind, wp_bind, wp_the_tcp, wp_bind, wp_lift, wp_modS, wp_ret, wp_ret.
  change EPIPE with 32. destruct (_ =? 0); lia.
Qed.
Lemma wait_connect_neg w :
  fine (net w) -> wp sk_stream_wait_connect w (fun r w' => calm_step w w' /\ r <= 0).
Proof.
  intros Hw. pose proof (proj2 (proj2 Hw)) as Hk. apply wp_and; [by apply wait_connect_plain|].
  apply wp_bind, wp_the_tcp, wp_bind, wp_bind, wp_the_tcp, wp_bind, wp_lift, wp_modS, wp_ret, wp_ret.
  unfold EAGAIN, EPIPE. destruct (negb _); [lia|]. destruct (_ || _); lia.
Qed.
Lemma wait_memory_neg w : wp sk_stream_wait_memory w (fun r w' => w' = w /\ r < 0).
Proof.
  apply wp_bind, wp_the_tcp, wp_bind, wp_gets, wp_ret. split; [done|]. by destruct (_ || _).
Qed.
(** What [sendmsg] returns is what it has appended to the stream. *)
Lemma sendmsg_ok more iovs St w n :
  sending St w a u n -> mss_ok (tp (net w)) -> tail_ok (mss_cache (cong (tp (net w)))) (unsent_q (snd_st w)) ->
  Z.of_nat (length St) + Z.of_nat (length (concat iovs)) - a < 2 ^ 30 ->
  wp (serval_tcp_sendmsg more iovs) w (fun r w' => same_edge w w' /\
    r <= Z.of_nat (length (concat iovs)) /\ exists n', sending (St ++ take (Z.to_nat r) (concat iovs)) w' a u n').
Proof.
  intros Hw Hmss Ht Hnear. unfold serval_tcp_sendmsg. apply wp_bind, wp_the_tcp, wp_bind, wp_gets.
  assert (Hfail : forall (r : Z) w', calm_step w w' /\ r <= 0 -> same_edge w w' /\
    r <= Z.of_nat (length (concat iovs)) /\ exists n', sending (St ++ take (Z.to_nat r) (concat iovs)) w' a u n').
  { intros r w' [Hc Hr]. split_and!; [by apply calm_edge|lia|]. exists n. replace (Z.to_nat r) with 0%nat by lia.
    rewrite app_nil_r. by eapply calm_sending. }
  destruct (negb _).
  { apply wp_bind. eapply wp_mono; [apply wait_connect_neg, Hw|]. intros err w1 [Hc1 Herr].
    eapply wp_mono; [apply stream_error_neg; [done|apply Hc1]|]. intros r w2 [Hc2 Hr].
    apply Hfail. split; [by eapply calm_trans|done]. }
  rewrite (mss_eq _ Hmss). cbv zeta. destruct (_ || _).
  { eapply wp_mono; [apply (stream_error_neg _ w); [by vm_compute|apply Hw]|]. apply Hfail. }
  apply wp_bind. eapply wp_mono.
  { apply (iov_loop_ok iovs St (mss_cache (cong (tp (net w)))) 0 w n); try done. apply Hmss. }
  intros [copied stop] w1 (k & Hk & Hf1 & _). cbn [fst snd] in *. simpl in Hk. subst copied.
  assert (Hlen : (k <= length (concat iovs))%nat) by apply Hf1. apply wp_bind.
  apply (wp_mono _ _ (fun err w2 => w2 = w1 /\ err <= 0)).
  { destruct stop; [|by apply wp_ret]. eapply wp_mono; [apply wait_memory_neg|]. intros err w2 [-> ?]. split; [done|lia]. }
  intros err w2 [-> Herr2]. destruct (negb (err =? 0) && _) eqn:Hbad.
  { apply andb_true_iff in Hbad as [_ Hz%Z.eqb_eq]. destruct Hf1 as (_ & He1 & _ & n1 & Hw1).
    replace k with 0%nat in Hw1 by lia. rewrite app_nil_r in Hw1.
    apply (wp_mono _ _ (fun r w' => calm_step w1 w' /\ r <= 0)).
    - apply stream_error_neg; [done|apply Hw1].
    - intros r w3 [Hc3 Hr]. split_and!; [eapply same_edge_trans; [done|by apply calm_edge]|lia|].
      exists n1. replace (Z.to_nat r) with 0%nat by lia. rewrite app_nil_r. by eapply calm_sending. }
  apply wp_bind, wp_gets, wp_bind. apply (wp_mono _ _ (fun _ => filled St (mss_cache (cong (tp (net w)))) (concat iovs) w k)).
  { destruct (0 + Z.of_nat k =? 0); [apply wp_ret; exact Hf1|]. apply (filled_wp _ _ _ _ _ _ _ Hf1). intros. eapply tcp_push_ok; [|done]. apply Hmss. }
  intros [] w3 (_ & He3 & _ & n3 & Hw3). apply wp_ret. split_and!; [done|lia|]. exists n3. by replace (Z.to_nat (0 + Z.of_nat k)) with k by lia.
Qed.
End FillOk.
