(* ===== verification/TcpAckOk.v ===== *)
(** * Acknowledgements and the end of the stream

    An acknowledgement moves the left edge of the stream that the queue holds,
    and only that; the FIN is put behind the last byte. *)
From S2P Require Import Prelude SalHdr Checksum TcpSock TcpQueue TcpFrame TcpQueueOk TcpStream TcpCong TcpCongOk TcpOut TcpRecv TcpRecvOk TcpSend TcpWire TcpSendOk TcpXmitOk TcpRetransOk TcpFillOk.
Local Open Scope Z_scope.

Section AckOk.
Context `{EOk : TcpEnvOk} `{SndEnv} (RSt : list Z) (risn : Z) (isn : Z) (St : list Z) (fin : bool).
Implicit Types (s : wskb) (q : list wskb) (l : list range) (w : sndw) (x : tcp_snd).
Abbreviation sqn := (sq isn).
Abbreviation L := (Z.of_nat (length St)).
Abbreviation T := (total St fin).
Abbreviation fine := (fine RSt risn).
Abbreviation plain := (plain RSt risn).
Abbreviation calm_step := (calm_step RSt risn).
Abbreviation calm_to := (calm_to RSt risn).
Abbreviation wseg := (wseg isn St).
Abbreviation sending := (sending RSt risn isn St fin).

(** ** The segment size *)
Lemma s32_range z : - 2 ^ 31 <= s32 z < 2 ^ 31.
Proof. unfold s32. pose proof (u32_range z). destruct (Z.ltb_spec (u32 z) (2 ^ 31)); lia. Qed.
Lemma mtu_to_mss_ok t x pmtu :
  tcp_header_len t = TCP_HLEN -> 48 <= serval_tcp_mtu_to_mss t x pmtu < 2 ^ 31.
Proof.
  intros E. unfold serval_tcp_mtu_to_mss. rewrite E, Z.sub_diag, Z.sub_0_r.
  set (m := s32 (_ - ext_hdr_len x)). pose proof (s32_range m). pose proof (s32_range (
    (if snd_mss_clamp x <? s32 (pmtu - net_header_len - TCP_HLEN) then snd_mss_clamp x
     else s32 (pmtu - net_header_len - TCP_HLEN)) - ext_hdr_len x)) as Hm. fold m in Hm.
  destruct (Z.ltb_spec m 48); [by vm_compute|]. rewrite s32_near by lia. lia.
Qed.
Lemma bound_ok t m :
  tcp_header_len t = TCP_HLEN -> 48 <= m < 2 ^ 31 -> 48 <= serval_tcp_bound_to_half_wnd t m < 2 ^ 31.
Proof.
  intros E Hm. unfold serval_tcp_bound_to_half_wnd. rewrite E. change (s32 (68 - TCP_HLEN)) with 48.
  set (c := if 512 <=? _ then _ else _). clearbody c.
  destruct (Z.eqb_spec c 0), (Z.ltb_spec c m); simpl; lia.
Qed.
(** ** The queue after an acknowledgement *)
Lemma plain_view f : (forall g, view (f g) = view g) -> plain (on_cong f).
Proof.
  intros Hf w Hw. pose proof (Hf (cong (tp (net w)))) as E. injection E as ? ? ? ? ? Ep.
  unfold TcpSendOk.calm_step, pkts. rewrite <- Ep. apply cong_view; [done|]. cbv zeta.
  rewrite Ep. rewrite (Hf _). by destruct (cong (tp (net w))).
Qed.
(** As [calm_to], but for the segments that wait for acknowledgement. *)
Definition tail_part x := (unsent_q x, write_seq x, send_shutdown x).
Definition taken (p : Z) w w' : Prop :=
  fine (net w') /\ place (tp (net w')) = place (tp (net w)) /\ sent (net w') = sent (net w) /\
  tail_part (snd_st w') = tail_part (snd_st w) /\ pkts w' = p.
Lemma calm_taken p w w' : calm_to p w w' -> taken p w w'.
Proof. intros (? & ? & ? & Hq & ?). injection Hq as ????. split_and!; try done. unfold tail_part. congruence. Qed.
Lemma taken_trans p1 p w1 w2 w3 : taken p1 w1 w2 -> taken p w2 w3 -> taken p w1 w3.
Proof. intros (? & ? & ? & ? & ?) (? & ? & ? & ? & ?). split_and!; [done|congruence..]. Qed.
Lemma set_rtx_taken q w : fine (net w) ->
  wp (set_rtx q) w (fun _ w' => taken (pkts w) w w' /\ rtx_q (snd_st w') = q).
Proof. intros ?. apply wp_modS. by split_and!. Qed.
Lemma uncount_ok s w : fine (net w) -> tx_pcount (wq s) = 1 ->
  wp (on_cong (uncount s)) w (fun _ => calm_to (u32 (pkts w - 1)) w).
Proof.
  intros Hw Hp.
  assert (Hf : forall g, view (uncount s g) = view (g {{ packets_out := u32 (packets_out g - 1) }})).
  { intros g. unfold uncount. rewrite Hp. etransitivity; [apply view_if; reflexivity|].
    set (g3 := if has _ TCPCB_LOST then _ else _). assert (E : view g3 = view g).
    { subst g3. do 2 (etransitivity; [apply view_if; reflexivity|]). apply view_if; reflexivity. }
    clearbody g3. injection E as E1 E2 E3 E4 E5 E6.
    change ((snd_una g3, snd_nxt g3, mss_cache g3, snd_cwnd g3, snd_cwnd_clamp g3, u32 (packets_out g3 - 1)) =
            (snd_una g, snd_nxt g, mss_cache g, snd_cwnd g, snd_cwnd_clamp g, u32 (packets_out g - 1))).
    by rewrite E1, E2, E3, E4, E5, E6. }
  assert (Hpk : packets_out (uncount s (cong (tp (net w)))) = u32 (pkts w - 1)) by (by injection (Hf (cong (tp (net w))))).
  rewrite <- Hpk. apply cong_view; [done|]. cbv zeta. by rewrite Hf, Hpk.
Qed.
(** What is acknowledged leaves the queue. *)
Lemma tcp_clean_loop_ok now acc q l a u n w :
  fine (net w) -> snd_una (cong (tp (net w))) = sqn u -> n - a < 2 ^ 31 -> a <= u <= n ->
  Forall2 wseg q l -> adj a l n -> Forall (fun s => tx_pcount (wq s) = 1) q ->
  pkts w = Z.of_nat (length q) -> pkts w < 2 ^ 32 ->
  wp (clean_loop now q acc) w (fun _ w' => exists a' l', a <= a' <= u /\
    Forall2 wseg (rtx_q (snd_st w')) l' /\ adj a' l' n /\ Forall (fun r => u < r.2) l' /\
    Forall (fun s => tx_pcount (wq s) = 1) (rtx_q (snd_st w')) /\
    (exists k, rtx_q (snd_st w') = drop k q) /\
    taken (Z.of_nat (length (rtx_q (snd_st w')))) w w').
Proof.
  intros Hw Huna Hfar Hau Hq Hadj Honce Hcnt Hmax. revert l a acc w Hw Huna Hfar Hau Hq Hadj Hcnt Hmax.
  induction Honce as [|s q Hp Honce IH]; intros l a acc w Hw Huna Hfar Hau Hq Hadj Hcnt Hmax; cbn [clean_loop].
  { apply wp_bind. eapply wp_mono; [by apply set_rtx_taken|]. intros [] w1 [Ht Er]. apply wp_ret. rewrite Er.
    apply Forall2_nil_inv_l in Hq as ->. exists a, []. rewrite Hcnt in Ht. split_and!; try done; [lia..|by exists 0%nat]. }
  destruct l as [|[o e] l]; [by apply Forall2_length in Hq|]. apply Forall2_cons in Hq as [Hs Hq].
  destruct Hadj as (-> & Hoe & Hadj). pose proof (adj_le _ _ _ Hadj). apply wp_bind, wp_the_tcp.
  rewrite Huna, (txa_end _ _ _ _ Hs), after_sq by (cbn [snd]; lia). cbn [snd].
  destruct (Z.ltb_spec u e).
  { apply wp_bind. eapply wp_mono; [by apply set_rtx_taken|]. intros [] w1 [Ht Er]. apply wp_ret. rewrite Er.
    exists a, ((a, e) :: l). rewrite Hcnt in Ht. split_and!; try done; [lia..|by constructor| |by constructor|by exists 0%nat].
    constructor; [done|]. apply (adj_above e l n); [done|lia]. }
  cbn [length] in Hcnt. apply wp_bind. eapply wp_mono; [by apply uncount_ok|]. intros [] w1 Hc1.
  apply wp_bind. eapply wp_mono; [apply wmem_free_plain, Hc1|]. intros [] w2 Hc2.
  pose proof (calm_trans _ _ _ _ _ _ Hc1 Hc2) as Hc. rewrite u32_id in Hc by lia.
  assert (E2 : pkts w2 = pkts w - 1) by apply Hc.
  eapply wp_mono.
  { apply (IH l e (acked_one now s acc) w2); [apply Hc| |lia|lia|done|done|lia|lia].
    destruct Hc as (_ & Hpl & _). injection Hpl as ?????. congruence. }
  intros r w3 (a' & l' & ? & ? & ? & ? & ? & (k & Ek) & Ht). exists a', l'. split_and!; try done; [lia|lia|by exists (S k)|].
  eapply taken_trans; [by apply calm_taken|done].
Qed.
Lemma rtt_view k g :
  view ((serval_tcp_set_rto (serval_tcp_rtt_estimator k g)) {{ backoff := 0 }}) = view g.
Proof.
  assert (Hset : forall g, view (serval_tcp_set_rto g) = view g).
  { intros g'. unfold serval_tcp_set_rto, serval_tcp_bound_rto. etransitivity; [apply view_if; reflexivity|]. done. }
  transitivity (view (serval_tcp_rtt_estimator k g)); [exact (Hset _)|]. clear Hset.
  unfold serval_tcp_rtt_estimator. destruct (srtt g =? 0); [done|]. cbv zeta.
  set (g1 := g {{ srtt := _ }}). set (g2 := g1 {{ mdev := _ }}). assert (E : view g2 = view g) by done. clearbody g2.
  match goal with |- context [if ?c then ?t else g2] => set (g3 := if c then t else g2) end. assert (E3 : view g3 = view g2) by (subst g3; by apply view_if). clearbody g3.
  rewrite <- E, <- E3. destruct (after _ _); [|done].
  match goal with |- context [if ?c then ?t else g3] => set (g4 := if c then t else g3) end. assert (E4 : view g4 = view g3) by (subst g4; by apply view_if). clearbody g4.
  exact E4.
Qed.
Lemma reno_sacks_view k g : view (serval_tcp_remove_reno_sacks k g) = view g.
Proof.
  unfold serval_tcp_remove_reno_sacks. match goal with |- context [if 0 <? k then ?t else g] => set (g1 := if 0 <? k then t else g) end.
  assert (E : view g1 = view g) by (subst g1; by destruct (0 <? k), (sacked_out g <=? k - 1)). clearbody g1.
  rewrite <- E. unfold serval_tcp_check_reno_reordering, serval_tcp_limit_reno_sacked, serval_tcp_update_reordering.
  destruct (_ <? u32 _); [|done]. etransitivity; [apply view_if; reflexivity|done].
Qed.
Lemma rearm_plain : plain serval_tcp_rearm_rto.
Proof. unfold serval_tcp_rearm_rto, clear_xmit_timer. plain_steps. apply reset_timer_plain. Qed.
Lemma update_rtt_plain flag k : plain (serval_tcp_ack_update_rtt flag k).
Proof.
  unfold serval_tcp_ack_update_rtt, serval_tcp_ack_no_tstamp, serval_tcp_valid_rtt_meas. plain_steps.
  apply plain_view. intros g. apply rtt_view.
Qed.
Lemma tcp_clean_rtx_ok prior l a u n w :
  fine (net w) -> snd_una (cong (tp (net w))) = sqn u -> n - a < 2 ^ 31 -> a <= u <= n ->
  Forall2 wseg (rtx_q (snd_st w)) l -> adj a l n -> Forall (fun s => tx_pcount (wq s) = 1) (rtx_q (snd_st w)) ->
  counted w -> pkts w < 2 ^ 32 ->
  wp (serval_tcp_clean_rtx_queue prior) w (fun _ w' => exists a' l', a <= a' <= u /\
    Forall2 wseg (rtx_q (snd_st w')) l' /\ adj a' l' n /\ Forall (fun r => u < r.2) l' /\
    Forall (fun s => tx_pcount (wq s) = 1) (rtx_q (snd_st w')) /\
    (exists k, rtx_q (snd_st w') = drop k (rtx_q (snd_st w))) /\
    taken (Z.of_nat (length (rtx_q (snd_st w')))) w w').
Proof.
  intros Hw Huna Hfar Hau Hq Hadj Honce Hcnt Hmax. unfold serval_tcp_clean_rtx_queue.
  apply wp_bind. eapply wp_mono; [apply (plain_lift RSt risn _ (stamp_mild RSt risn)), Hw|]. intros now w1 Hc1.
  destruct (calm_unsent _ _ _ _ _ Hc1) as [Er1 _]. assert (Ep1 : pkts w1 = pkts w) by apply Hc1.
  apply wp_bind, wp_gets, wp_bind. rewrite Er1. eapply wp_mono.
  { apply (tcp_clean_loop_ok now _ _ l a u n); try done; [apply Hc1| |congruence|congruence].
    destruct Hc1 as (_ & Hpl & _). injection Hpl as ?????. congruence. }
  intros r w2 (a' & l' & ? & ? & ? & ? & ? & Hk & Ht).
  assert (Hend : forall (m : SM Z), plain m -> wp m w2 (fun _ w' => exists a' l', a <= a' <= u /\
    Forall2 wseg (rtx_q (snd_st w')) l' /\ adj a' l' n /\ Forall (fun r => u < r.2) l' /\
    Forall (fun s => tx_pcount (wq s) = 1) (rtx_q (snd_st w')) /\
    (exists k, rtx_q (snd_st w') = drop k (rtx_q (snd_st w))) /\
    taken (Z.of_nat (length (rtx_q (snd_st w')))) w w')).
  { intros m Hm. eapply wp_mono; [apply Hm, Ht|]. intros z w3 Hc3. destruct (calm_unsent _ _ _ _ _ Hc3) as [-> _].
    exists a', l'. split_and!; try done; [lia..|].
    eapply taken_trans; [exact (calm_taken _ _ _ Hc1)|]. eapply taken_trans; [exact Ht|]. apply calm_taken.
    replace (Z.of_nat _) with (pkts w2) by apply Ht. exact Hc3. }
  apply Hend. apply plain_bind; [apply plain_view; intros g; by apply view_if|intros _].
  apply plain_bind; [apply plain_gets|intros x]. cbv zeta. apply plain_bind; [|intros _].
  { apply plain_if; [|apply plain_ret]. apply plain_bind; [apply update_rtt_plain|intros _].
    apply plain_bind; [apply rearm_plain|intros _]. apply plain_view. intros g. apply reno_sacks_view. }
  plain_steps.
Qed.
(** The left edge of the window goes to [u']. *)
Record edge_to w (u' : Z) w' : Prop := {
  et_fine : fine (net w');
  et_una : snd_una (cong (tp (net w'))) = sqn u';
  et_nxt : snd_nxt (cong (tp (net w'))) = snd_nxt (cong (tp (net w)));
  et_mss : mss_ok (tp (net w'));
  et_sent : sent (net w') = sent (net w);
  et_queues : queues (snd_st w') = queues (snd_st w);
  et_pkts : pkts w' = pkts w;
}.
Definition settled w w' : Prop :=
  fine (net w') /\ mss_ok (tp (net w')) /\ snd_nxt (cong (tp (net w'))) = snd_nxt (cong (tp (net w))) /\
  sent (net w') = sent (net w) /\ queues (snd_st w') = queues (snd_st w) /\ pkts w' = pkts w.
Lemma calm_settled w w' : mss_ok (tp (net w)) -> calm_step w w' -> settled w w'.
Proof.
  intros [? ?] (? & Hpl & ? & ? & ?). injection Hpl as ?????. split; [done|]. split; [split; congruence|]. done.
Qed.
Lemma settled_trans w1 w2 w3 : settled w1 w2 -> settled w2 w3 -> settled w1 w3.
Proof. intros (? & ? & ? & ? & ? & ?) (? & ? & ? & ? & ? & ?). split; [done|]. split; [done|]. split_and!; congruence. Qed.
Lemma sync_mss_ok pmtu w :
  fine (net w) -> mss_ok (tp (net w)) -> wp (serval_tcp_sync_mss pmtu) w (fun _ w' => settled w w').
Proof.
  intros Hw [Hh _]. unfold serval_tcp_sync_mss. apply wp_bind, wp_the_tcp, wp_bind, wp_gets, wp_bind, wp_modS.
  set (m := serval_tcp_bound_to_half_wnd _ _).
  assert (Hm : 48 <= m < 2 ^ 31) by (apply bound_ok; [done|by apply mtu_to_mss_ok]). clearbody m.
  apply wp_lift, wp_modS. split; [|split; [split; [done|]|done]].
  - apply (fine_receiver RSt risn (net w)); [done|apply (proj2 Hw)|done].
  - change (0 < u32 m < 2 ^ 32). rewrite u32_id; lia.
Qed.
Lemma fast_path_plain : plain (upd_tcp (fun t => serval_tcp_fast_path_check (t {{ pred_flags := 0 }}))).
Proof.
  apply plain_lift, mild_mod. intros w.
  change (tp (w {{ tp ::= fun t => serval_tcp_fast_path_check (t {{ pred_flags := 0 }}) }})) with
    (serval_tcp_fast_path_check ((tp w) {{ pred_flags := 0 }})).
  unfold serval_tcp_fast_path_check. destruct (_ && _); by split_and!.
Qed.
Lemma update_window_ok syn window seq u' w :
  fine (net w) -> mss_ok (tp (net w)) ->
  wp (serval_tcp_ack_update_window syn window (sqn u') seq) w (fun _ w' => edge_to w u' w').
Proof.
  intros Hw Hmss. unfold serval_tcp_ack_update_window. apply wp_bind, wp_the_tcp, wp_bind, wp_gets. cbv zeta.
  set (nwin := if syn then _ else _). clearbody nwin. apply wp_bind.
  apply (wp_mono _ _ (fun _ w1 => settled w w1)).
  2: { intros flag w1 (Hf & Hm & Hn & Hs & Hq & Hp). apply wp_bind, wp_lift, wp_modS, wp_ret. split; try done.
       apply (fine_receiver RSt risn (net w1)); [done|apply (proj2 Hf)|done]. }
  pose proof (calm_settled w w Hmss (calm_refl _ _ _ Hw)) as Hself.
  destruct (serval_tcp_may_update_window _ _ _ _); [|by apply wp_ret].
  apply wp_bind. eapply wp_mono; [by apply (plain_view (fun g => g {{ snd_wl1 := seq }}))|]. intros [] w1 Hc1.
  pose proof (calm_settled _ _ Hmss Hc1) as Hs1. apply wp_bind.
  apply (wp_mono _ _ (fun _ w2 => settled w w2)); [|intros [] w2 ?; by apply wp_ret].
  destruct (_ =? nwin); [by apply wp_ret|]. apply wp_bind.
  eapply wp_mono; [apply (plain_view (fun g => g {{ snd_wnd := nwin }})); [done|apply Hs1]|]. intros [] w2 Hc2.
  pose proof (settled_trans _ _ _ Hs1 (calm_settled _ _ (proj1 (proj2 Hs1)) Hc2)) as Hs2. apply wp_bind.
  eapply wp_mono; [apply fast_path_plain, Hs2|]. intros [] w3 Hc3.
  pose proof (settled_trans _ _ _ Hs2 (calm_settled _ _ (proj1 (proj2 Hs2)) Hc3)) as Hs3.
  destruct (_ <? nwin); [|by apply wp_ret]. apply wp_bind.
  eapply wp_mono; [apply (plain_view (fun g => g {{ max_window := nwin }})); [done|apply Hs3]|]. intros [] w4 Hc4.
  pose proof (settled_trans _ _ _ Hs3 (calm_settled _ _ (proj1 (proj2 Hs3)) Hc4)) as Hs4.
  eapply wp_mono; [apply sync_mss_ok; apply Hs4|]. intros [] w5 Hs5. by eapply settled_trans.
Qed.

(** What an acknowledgement of the offset [u'] does. *)
Record acked_to w (a u' n : Z) w' : Prop := {
  at_sending : exists a', a <= a' <= u' /\ sending w' a' u' n;
  at_counted : counted w';
  at_mss : mss_ok (tp (net w'));
  at_tail : tail_part (snd_st w') = tail_part (snd_st w);
  at_rtx : exists k, rtx_q (snd_st w') = drop k (rtx_q (snd_st w));
}.
Lemma acked_place ack u n :
  0 <= ack < 2 ^ 32 -> u <= n < u + 2 ^ 30 -> before ack (sqn u) = false -> after ack (sqn n) = false ->
  exists u', u <= u' <= n /\ ack = sqn u'.
Proof.
  intros Hack Hn Hb Ha. set (d := u32 (ack - sqn u)). pose proof (u32_range (ack - sqn u)). fold d in H0.
  assert (Hd : d < 2 ^ 31).
  { unfold before in Hb. rewrite <- s32_u32 in Hb. fold d in Hb. unfold s32 in Hb. rewrite (u32_id d) in Hb by lia.
    destruct (Z.ltb_spec d (2 ^ 31)); lia. }
  assert (E : ack = sqn (u + d)).
  { rewrite <- sq_add. subst d. unfold u32 in *. rewrite Zplus_mod_idemp_r. symmetry.
    rewrite <- (Z.mod_small ack (2 ^ 32)) at 2 by lia. f_equal. lia. }
  exists (u + d). split; [|done]. rewrite E, after_sq in Ha by lia. lia.
Qed.
Lemma edge_acked {A} (r0 : A) (r1 : Z -> A) w a u u' n w1 prior :
  sending w a u n -> counted w -> edge_to w u' w1 -> u <= u' <= n ->
  wp (t ← the_tcp;
      if packets_out (cong t) =? 0 then mret r0
      else f ← serval_tcp_clean_rtx_queue prior; mret (r1 f)) w1
    (fun r w' => (r = r0 \/ exists f, r = r1 f) /\ acked_to w a u' n w').
Proof.
  intros Hw Hcnt [Hf Hu Hn Hm Hs Hq Hp] Hu'. destruct (rtx_bound _ _ _ _ _ _ _ _ _ Hw) as [HnT Hlen].
  injection Hq as Er Eu Ew Es. pose proof Hw as [_ _ Hnxt Hwseq Hord Hnear (l & Hl & Ha & _) Honce Hun Hsent].
  apply wp_bind, wp_the_tcp. unfold counted in Hcnt. change (packets_out (cong (tp (net w1)))) with (pkts w1).
  destruct (Z.eqb_spec (pkts w1) 0) as [E|].
  - apply wp_ret. split; [by left|]. assert (Enil : rtx_q (snd_st w) = []) by (apply nil_length_inv; lia).
    rewrite Enil in Hl. apply Forall2_nil_inv_l in Hl as ->. change (a = n) in Ha. subst a.
    split; [exists n; split; [lia|]| |done| |].
    + split; rewrite ?Er, ?Eu, ?Ew, ?Hs; try done; first [congruence|lia|exists []; by rewrite Enil].
    + unfold counted. rewrite Er, Enil. done.
    + unfold tail_part. congruence.
    + exists 0%nat. by rewrite Er.
  - apply wp_bind. eapply wp_mono.
    { apply (tcp_clean_rtx_ok prior l a u' n w1); try done; rewrite ?Er; try done; [lia|lia| |lia].
      unfold counted. by rewrite Er, Hp. }
    intros f w2 (a' & l' & ? & Hl' & Ha' & Hu2 & Ho2 & Hk & Hf2 & Hpl & Hs2 & Ht2 & Hp2). apply wp_ret. split; [by right; exists f|].
    injection Hpl as ?????. injection Ht2 as ???. rewrite Er in Hk.
    split; [exists a'; split; [done|]|done| | |done].
    + destruct Hun as (lu & Hlu & Hau).
      split; try done; first [congruence|lia|by exists l'|by exists lu; split; [congruence|]].
    + destruct Hm. split; congruence.
    + unfold tail_part. congruence.
Qed.
Lemma abc_plain ack una : plain (on_cong (fun g =>
  if tcp_abc =? 0 then g
  else if ca_state g <? TCP_CA_CWR then g {{ bytes_acked := u32 (bytes_acked g + u32 (ack - una)) }}
  else if ca_state g =? TCP_CA_Loss
  then g {{ bytes_acked := u32 (bytes_acked g + Z.min (u32 (ack - una)) (mss_cache g)) }} else g)).
Proof.
  apply plain_view. intros g. destruct (_ =? 0); [done|]. destruct (_ <? TCP_CA_CWR); [done|].
  by destruct (_ =? TCP_CA_Loss).
Qed.
Lemma ack_queue_ok flag syn seq end_ ack window w a u n :
  sending w a u n -> counted w -> mss_ok (tp (net w)) -> 0 <= ack < 2 ^ 32 ->
  wp (serval_tcp_ack_queue flag syn seq end_ ack window) w (fun r w' =>
    match r with
    | None => w' = w
    | Some _ => exists u', u <= u' <= n /\ ack = sqn u' /\ acked_to w a u' n w'
    end).
Proof.
  intros Hw Hcnt Hmss Hack. unfold serval_tcp_ack_queue. apply wp_bind, wp_the_tcp. cbv zeta.
  rewrite (sd_una _ _ _ _ _ _ _ _ _ Hw), (sd_nxt _ _ _ _ _ _ _ _ _ Hw).
  destruct (before ack (sqn u)) eqn:Hb; [by apply wp_ret|]. destruct (after ack (sqn n)) eqn:Ha; [by apply wp_ret|].
  pose proof (sd_order _ _ _ _ _ _ _ _ _ Hw). pose proof (sd_near _ _ _ _ _ _ _ _ _ Hw).
  destruct (rtx_bound _ _ _ _ _ _ _ _ _ Hw) as [HnT _].
  destruct (acked_place ack u n) as (u' & Hu' & ->); [done|lia|done|done|].
  apply wp_bind. eapply wp_mono; [apply abc_plain, Hw|]. intros [] w1 Hc1.
  pose proof (calm_sending _ _ _ _ _ _ _ _ _ _ _ Hc1 Hw) as Hw1. pose proof (calm_counted _ _ _ _ Hc1 Hcnt) as Hcnt1.
  pose proof (calm_settled _ _ Hmss Hc1) as (_ & Hm1 & _). apply wp_bind.
  apply (wp_mono _ _ (fun _ w2 => edge_to w1 u' w2)).
  { destruct (_ && _).
    - apply wp_bind, wp_lift, wp_modS, wp_ret. split; try done.
      apply (fine_receiver RSt risn (net w1)); [done|apply (proj2 (sd_fine _ _ _ _ _ _ _ _ _ Hw1))|apply Hw1].
    - apply wp_bind. eapply wp_mono; [apply update_window_ok; [apply Hw1|done]|]. intros f w2 He. by apply wp_ret. }
  intros f w2 He. eapply wp_mono; [by apply (edge_acked (Some f) (fun g => Some (Z.lor f g)) w1 a u u' n w2)|].
  intros r w3 [Hr [Hs3 Hc3 Hm3 Ht3 Hk3]]. destruct (calm_unsent _ _ _ _ _ Hc1) as [Er1 Eu1].
  assert (Hres : acked_to w a u' n w3).
  { split; try done; [|by rewrite <- Er1]. rewrite Ht3. destruct Hc1 as (_ & _ & _ & Hq & _). injection Hq as ????.
    unfold tail_part. congruence. }
  destruct Hr as [-> | (g & ->)]; by exists u'.
Qed.
End AckOk.

(** ** The end of the stream *)
Section FinOk.
Context `{EOk : TcpEnvOk} `{SndEnv} (RSt : list Z) (risn : Z) (isn : Z) (St : list Z).
Implicit Types (s : wskb) (q : list wskb) (l : list range) (w : sndw) (x : tcp_snd).
Abbreviation sqn := (sq isn).
Abbreviation L := (Z.of_nat (length St)).
Abbreviation fine := (fine RSt risn).
Abbreviation plain := (plain RSt risn).
Abbreviation calm_step := (calm_step RSt risn).
Abbreviation wseg := (wseg isn St).
Abbreviation sending := (sending RSt risn isn St).

Lemma alloc_fin_ok (l : list bool) w :
  fine (net w) -> allocs (net w) = l -> wp (alloc_fin l) w (fun _ => calm_step w).
Proof.
  revert w. induction l as [|b l IH]; intros w Hw Hl; simpl; apply wp_bind, wp_lift; unfold alloc_ok;
    apply wp_bind, wp_getS; rewrite Hl.
  - apply wp_ret, wp_ret. destruct w. by apply calm_refl.
  - apply wp_bind, wp_modS, wp_ret. set (w1 := w {{ net := _ }}).
    assert (Hc : calm_step w w1).
    { split_and!; try done. apply (fine_receiver RSt risn (net w)); [done|apply (proj2 Hw)|done]. }
    destruct b; [by apply wp_ret|]. eapply wp_mono; [apply (IH w1); [apply Hc|done]|].
    intros [] w2 Hc2. exact (calm_trans _ _ _ _ _ _ Hc Hc2).
Qed.
Lemma carried_fin d : carried isn St false d -> carried isn St true d.
Proof.
  intros (q & Hf & Hq). exists q. split; [done|]. destruct Hq as [|(r & Hr & ?)]; [by left|right].
  exists r. unfold total in *. split; [done|lia].
Qed.
(** The stream is closed: the last segment takes the FIN. *)
Lemma fin_queued w w' a u n l :
  sending false w a u n -> counted w -> L + 1 - a < 2 ^ 30 -> fine (net w') ->
  core (tp (net w')) = core (tp (net w)) -> sent (net w') = sent (net w) ->
  rtx_q (snd_st w') = rtx_q (snd_st w) -> write_seq (snd_st w') = sqn (L + 1) ->
  Forall2 wseg (unsent_q (snd_st w')) l -> adj n l (L + 1) ->
  sending true w' a u n /\ counted w'.
Proof.
  intros [Hf Hu Hn Hw Ho Hnear Hr Honce Hun Hs] Hcnt Hfar Hf' Hc Es Er Ew Hl Ha. injection Hc as ??????.
  assert (ET : total St true = L + 1) by done. split.
  - split; rewrite ?ET, ?Er, ?Es; try done; [congruence..|by exists l|]. eapply Forall_impl; [exact Hs|]. apply carried_fin.
  - unfold counted, pkts in *. rewrite Er. congruence.
Qed.
Lemma fin_flags f : flags_ok f false -> flags_ok (Z.lor f TCPH_FIN) true.
Proof.
  intros (? & ? & Hs). split; [by apply lor_byte|]. rewrite !Z.lor_spec, Hs. split; [apply orb_true_r|done].
Qed.
Lemma tcp_send_fin_ok w a u n :
  sending false w a u n -> counted w -> mss_ok (tp (net w)) -> L + 1 - a < 2 ^ 30 ->
  wp serval_tcp_send_fin w (fun _ w' => counted w' /\ mss_ok (tp (net w')) /\
    send_shutdown (snd_st w') = send_shutdown (snd_st w) /\ exists n', sending true w' a u n').
Proof.
  intros Hw Hcnt Hmss Hfar. unfold serval_tcp_send_fin. apply wp_bind, wp_the_tcp, wp_bind, wp_gets. cbv zeta.
  rewrite (mss_eq _ Hmss). pose proof Hmss as [_ Hpos]. apply wp_bind.
  apply (wp_mono _ _ (fun _ w1 => sending true w1 a u n /\ counted w1 /\
    edge (tp (net w1)) = edge (tp (net w)) /\ send_shutdown (snd_st w1) = send_shutdown (snd_st w))).
  2: { intros [] w1 (Hw1 & Hcnt1 & He1 & Hs1). eapply wp_mono; [eapply push_pending_ok; [apply Hpos|exact Hw1]|].
       intros [] w2 (Hm2 & Hc2 & n2 & Hw2 & _). destruct Hm2 as (_ & He2 & _ & _ & Hs2).
       split; [auto|]. split; [apply (mss_edge (tp (net w))); [congruence|done]|]. split; [congruence|eauto]. }
  pose proof (sd_wseq _ _ _ _ _ _ _ _ _ Hw) as Hwseq. unfold total in Hwseq. rewrite Z.add_0_r in Hwseq.
  destruct (unsent_q (snd_st w)) as [|s0 q0] eqn:Hu.
  - apply wp_bind, wp_getS, wp_bind. eapply wp_mono; [by apply alloc_fin_ok; [apply Hw|]|]. intros [] w1 Hc1.
    pose proof (calm_sending _ _ _ _ _ _ _ _ _ _ _ Hc1 Hw) as Hw1. pose proof (calm_counted _ _ _ _ Hc1 Hcnt) as Hcnt1.
    destruct (sd_unsent _ _ _ _ _ _ _ _ _ Hw) as (l & Hl & Hadj). rewrite Hu in Hl.
    apply Forall2_nil_inv_l in Hl as ->. unfold total in Hadj. change (n = L + 0) in Hadj.
    unfold serval_tcp_queue_skb. apply wp_bind, wp_modS. set (w2 := w1 {{ snd_st ::= _ }}).
    destruct (fin_queued w1 w2 a u n [(n, n + 1)] Hw1 Hcnt1 Hfar) as [Hw2 Hcnt2]; try done.
    + apply Hc1.
    + change (u32 (write_seq (snd_st w) + 1) = sqn (L + 1)). rewrite Hwseq. apply sq_add.
    + destruct Hc1 as (_ & _ & _ & Hq & _). injection Hq as Er1 Eu1 Ew1 Es1.
      change (Forall2 wseg (unsent_q (snd_st w1) ++ [Wskb (serval_tcp_init_nondata_skb (write_seq (snd_st w))
        (Z.lor TCPH_ACK TCPH_FIN)) 0 0 max_tcp_header 0 (max_tcp_header + sizeof_sk_buff) false]) [(n, n + 1)]).
      rewrite Eu1, Hu. constructor; [|constructor]. split; cbn [fst snd].
      * rewrite <- Hwseq || idtac. change (write_seq (snd_st w) = sqn n). rewrite Hwseq. f_equal. lia.
      * change (u32 (write_seq (snd_st w) + 1) = sqn (n + 1)). rewrite Hwseq, sq_add. f_equal. lia.
      * lia.
      * unfold bytes. replace (Z.min (n + 1) L - n) with 0 by lia. done.
      * replace (n + 1 =? L + 1) with true by lia. by vm_compute.
      * by vm_compute.
    + simpl. lia.
    + eapply wp_mono; [apply (mem_charge_plain RSt risn), Hw2|]. intros [] w3 Hc3.
      split; [by eapply calm_sending|]. split; [by eapply calm_counted|].
      destruct (calm_edge _ _ _ _ Hc3) as (E3 & F3 & _), (calm_edge _ _ _ _ Hc1) as (E1 & F1 & _).
      split; [exact (eq_trans E3 E1)|exact (eq_trans F3 F1)].
  - assert (Hq : exists q s, unsent_q (snd_st w) = q ++ [s]).
    { rewrite Hu. destruct (exists_last (l := s0 :: q0)) as (q & s & ->); [done|]. eauto. }
    destruct Hq as (q & s & Hq). destruct (sending_opened _ _ _ _ _ _ _ _ _ _ Hw Hq) as (m & Hop).
    apply wp_bind, wp_modS, wp_modS. set (f := fun s => _). set (w1 := _ {{ snd_st ::= _ }}).
    destruct (op_unsent _ _ _ _ _ _ _ _ _ _ _ Hop) as (l & Hl & Hadj).
    pose proof (op_last _ _ _ _ _ _ _ _ _ _ _ Hop) as Hs.
    destruct (fin_queued w w1 a u n (l ++ [(m, L + 1)]) Hw Hcnt Hfar) as [Hw1 Hcnt1]; try done.
    + apply Hw.
    + change (u32 (write_seq (snd_st w) + 1) = sqn (L + 1)). rewrite Hwseq. apply sq_add.
    + change (Forall2 wseg (set_last f (unsent_q (snd_st w))) (l ++ [(m, L + 1)])). rewrite Hq, set_last_snoc.
      apply Forall2_app; [done|]. constructor; [|constructor]. destruct Hs as [A1 A2 A3 A4 A5 A6]. cbn [fst snd] in *.
      split; cbn [fst snd]; [done| |lia| | |done].
      * change (u32 (tx_end (wq s) + 1) = sqn (L + 1)). rewrite A2. apply sq_add.
      * change (tx_data (wq s) = bytes St m (Z.min (L + 1) L)). rewrite A4. f_equal. lia.
      * rewrite Z.eqb_refl. apply fin_flags. by replace (L =? L + 1) with false in A5 by lia.
    + apply adj_app. exists m. split; [done|]. pose proof (txa_range _ _ _ _ Hs) as Hr. cbn [fst snd] in Hr.
      simpl. lia.
Qed.
End FinOk.
