(* ===== verification/TcpSession.v ===== *)
(** * A connection that sends

    The runs of a sender: the user writes, segments are pushed, sent again and
    acknowledged, the window is probed, the connection is closed, and the other
    half of the connection goes on.  In every state the write queue holds the stream from the first
    byte that is not acknowledged on, and every frame on the wire is of the
    stream; no step faults or loops for ever. *)
From S2P Require Import Prelude SalHdr Checksum TcpSock TcpQueue TcpFrame TcpQueueOk TcpStream TcpCong TcpCongOk TcpOut TcpRecv TcpRecvOk TcpSend TcpWire TcpSendOk TcpXmitOk TcpRetransOk TcpFillOk TcpAckOk.
Local Open Scope Z_scope.

Section Sender.
Context `{EOk : TcpEnvOk} `{SndEnv} (RSt : list Z) (risn : Z) (isn : Z) (w0 : sndw).
Implicit Types (w : sndw) (St : list Z) (q : list wskb) (l : list range).
Abbreviation sqn := (sq isn).
Abbreviation fine := (fine RSt risn).
Abbreviation wseg := (wseg isn).
Abbreviation sending := (sending RSt risn isn).

(** A connection on which nothing has been written yet. *)
Record snd_fresh w : Prop := {
  sf_fine : fine (net w);
  sf_seq : snd_una (cong (tp (net w))) = sqn 0 /\ snd_nxt (cong (tp (net w))) = sqn 0 /\
           write_seq (snd_st w) = sqn 0;
  sf_queues : rtx_q (snd_st w) = [] /\ unsent_q (snd_st w) = [];
  sf_pkts : packets_out (cong (tp (net w))) = 0;
  sf_mss : mss_ok (tp (net w));
  sf_sent : sent (net w) = [];
}.
(** What the rest of the stack may do in between: the receiving half, the
    timers and the congestion control change their own state and the marks of
    the segments, and send acknowledgements ([TcpTimerOk.v] shows of the timers
    that they do no more). *)
Record other_step w w' : Prop := {
  os_fine : fine (net w');
  os_seq : snd_una (cong (tp (net w'))) = snd_una (cong (tp (net w))) /\
           snd_nxt (cong (tp (net w'))) = snd_nxt (cong (tp (net w))) /\ pkts w' = pkts w;
  os_mss : mss_ok (tp (net w'));
  os_sent : exists fs, sent (net w') = sent (net w) ++ fs /\ Forall (fun d => exists t, frame t d /\ bare t) fs;
  os_rtx : map wq (rtx_q (snd_st w')) = map wq (rtx_q (snd_st w));
  os_unsent : map wq (unsent_q (snd_st w')) = map wq (unsent_q (snd_st w));
  os_wseq : write_seq (snd_st w') = write_seq (snd_st w);
  os_shut : send_shutdown (snd_st w) = true -> send_shutdown (snd_st w') = true;
}.
(** The size of the write queue, each segment counted as a byte more. *)
Definition queued w : Z := Z.of_nat (queued_len (rtx_q (snd_st w) ++ unsent_q (snd_st w))).
Definition shut w : sndw := w {{ snd_st ::= (fun x => x {{ send_shutdown := true }}) }}.

(** The states a sender reaches, with what has been written and whether the
    connection has been closed.  Less than a gigabyte is queued; when the user
    writes, the last unsent segment is not larger than the segment size and has
    room up to it. *)
Inductive sender : sndw -> list Z -> bool -> Prop :=
| snd_start : sender w0 [] false
| snd_write w St c more iovs r w' :
    sender w St c -> queued w + Z.of_nat (length (concat iovs)) < 2 ^ 30 - 1 ->
    tail_ok (mss_cache (cong (tp (net w)))) (unsent_q (snd_st w)) ->
    serval_tcp_sendmsg more iovs w = Ok (r, w') ->
    sender w' (St ++ take (Z.to_nat r) (concat iovs)) c
| snd_push w St c na w' :
    sender w St c ->
    __serval_tcp_push_pending_frames (serval_tcp_current_mss (tp (net w))) na w = Ok (tt, w') ->
    sender w' St c
| snd_again w St c pre s post r w' :
    sender w St c -> rtx_q (snd_st w) = pre ++ s :: post ->
    serval_tcp_retransmit_skb pre s post w = Ok (r, w') -> sender w' St c
| snd_ack w St c flag syn seq end_ ack window r w' :
    sender w St c -> 0 <= ack < 2 ^ 32 ->
    serval_tcp_ack_queue flag syn seq end_ ack window w = Ok (r, w') -> sender w' St c
| snd_wakeup w St c r w' :
    sender w St c -> serval_tcp_write_wakeup w = Ok (r, w') -> sender w' St c
| snd_close w St r w' :
    sender w St false -> queued w < 2 ^ 30 - 1 -> receive_queue (tp (net w)) = [] ->
    serval_tcp_connection_close (shut w) = Ok (r, w') -> sender w' St true
| snd_other w St c w' :
    sender w St c -> other_step w w' -> sender w' St c.

(** ** The invariant *)
Definition live w St (c : bool) : Prop := exists a u n,
  sending St c w a u n /\ counted w /\ mss_ok (tp (net w)) /\
  (c = true -> send_shutdown (snd_st w) = true).

Lemma queued_ge St q l a b : Forall2 (wseg St) q l -> adj a l b -> b - a <= Z.of_nat (queued_len q).
Proof.
  intros Hq. revert a. induction Hq as [|s [o e] q l Hs Hq IH]; simpl; intros a.
  { intros ->. lia. }
  intros (-> & ? & Hadj%IH). rewrite queued_cons. destruct Hs as [_ _ Hr Hd _ _]. cbn [fst snd] in *.
  rewrite Hd. unfold bytes. rewrite length_take, length_drop. lia.
Qed.
Lemma queued_app q1 q2 : queued_len (q1 ++ q2) = (queued_len q1 + queued_len q2)%nat.
Proof. induction q1 as [|s q1 IH]; [done|]. rewrite <- app_comm_cons, !queued_cons, IH. lia. Qed.
Lemma sending_queued St c w a u n : sending St c w a u n -> total St c - a <= queued w.
Proof.
  intros [_ _ _ _ _ _ (l & Hl & Ha & _) _ (l' & Hl' & Ha') _]. unfold queued. rewrite queued_app.
  pose proof (queued_ge _ _ _ _ _ Hl Ha). pose proof (queued_ge _ _ _ _ _ Hl' Ha'). lia.
Qed.
Lemma live_start : snd_fresh w0 -> live w0 [] false.
Proof.
  intros [Hf (Hu & Hn & Hw) [Hr Hq] Hp Hm Hs]. exists 0, 0, 0. split_and!; try done.
  - split; rewrite ?Hr, ?Hq, ?Hs; try done; first [by exists []|lia].
  - unfold counted, pkts. by rewrite Hr, Hp.
Qed.
(** ** Each step runs and keeps it *)
Lemma stays_live mss St c w a u w' :
  counted w -> mss_ok (tp (net w)) -> (c = true -> send_shutdown (snd_st w) = true) ->
  stays RSt risn isn St c mss w a u w' -> live w' St c.
Proof.
  intros Hc Hm Hs ((_ & He & _ & _ & Es) & Hc' & n' & Hw' & _). exists a, u, n'.
  split_and!; [done|auto|by apply (mss_edge (tp (net w)))|]. by rewrite Es.
Qed.
(** After the close nothing is written. *)
Lemma sendmsg_shut more iovs w :
  fine (net w) -> send_shutdown (snd_st w) = true ->
  wp (serval_tcp_sendmsg more iovs) w (fun r w' => calm_step RSt risn w w' /\ r <= 0).
Proof.
  intros Hw Hs. unfold serval_tcp_sendmsg. apply wp_bind, wp_the_tcp, wp_bind, wp_gets. destruct (negb _).
  - apply wp_bind. eapply wp_mono; [by apply (wait_connect_neg RSt risn)|]. intros err w1 [Hc1 Herr].
    eapply wp_mono; [apply (stream_error_neg RSt risn); [done|apply Hc1]|]. intros r w2 [Hc2 Hr].
    split; [exact (calm_trans _ _ _ _ _ _ Hc1 Hc2)|done].
  - cbv zeta. rewrite Hs, orb_true_r. apply (stream_error_neg RSt risn); [by vm_compute|done].
Qed.
Lemma calm_live w St c w' : live w St c -> calm_step RSt risn w w' -> live w' St c.
Proof.
  intros (a & u & n & Hw & Hc & Hm & Hs) Hcalm. exists a, u, n.
  split_and!; [by eapply calm_sending|by eapply calm_counted|by apply (calm_settled RSt risn w w')|].
  destruct Hcalm as (_ & _ & _ & Hq & _). injection Hq as ????. intros E. rewrite <- (Hs E). congruence.
Qed.
Lemma write_live w St c more iovs :
  live w St c -> queued w + Z.of_nat (length (concat iovs)) < 2 ^ 30 - 1 ->
  tail_ok (mss_cache (cong (tp (net w)))) (unsent_q (snd_st w)) ->
  wp (serval_tcp_sendmsg more iovs) w (fun r w' => live w' (St ++ take (Z.to_nat r) (concat iovs)) c).
Proof.
  intros Hl Hq Ht. pose proof Hl as (a & u & n & Hw & Hc & Hm & Hs). destruct c.
  - eapply wp_mono; [apply sendmsg_shut; [apply Hw|auto]|]. intros r w' [Hcalm Hr].
    replace (Z.to_nat r) with 0%nat by lia. rewrite app_nil_r. by eapply calm_live.
  - pose proof (sending_queued _ _ _ _ _ _ Hw) as Hb. unfold total in Hb.
    eapply wp_mono; [apply (sendmsg_ok RSt risn isn a u more iovs St w n Hw Hm Ht); lia|].
    intros r w' ((He & Es & Hc') & _ & n' & Hw'). exists a, u, n'.
    split_and!; [done|auto|by apply (mss_edge (tp (net w)))|done].
Qed.
Lemma push_live w St c na :
  live w St c ->
  wp (__serval_tcp_push_pending_frames (serval_tcp_current_mss (tp (net w))) na) w (fun _ w' => live w' St c).
Proof.
  intros (a & u & n & Hw & Hc & Hm & Hs). rewrite (mss_eq _ Hm).
  eapply wp_mono; [eapply push_pending_ok; [apply Hm|exact Hw]|]. intros [] w' Hst. by eapply stays_live.
Qed.
Lemma again_live w St c pre s post :
  live w St c -> rtx_q (snd_st w) = pre ++ s :: post ->
  wp (serval_tcp_retransmit_skb pre s post) w (fun _ w' => live w' St c).
Proof.
  intros (a & u & n & Hw & Hc & Hm & Hs) Hq. eapply wp_mono; [by eapply retransmit_ok|].
  intros r w' ((_ & He & _ & _ & Es) & _ & Hc' & a' & _ & Hw'). exists a', u, n.
  split_and!; [done|done|by apply (mss_edge (tp (net w)))|]. by rewrite Es.
Qed.
Lemma ack_live w St c flag syn seq end_ ack window :
  live w St c -> 0 <= ack < 2 ^ 32 ->
  wp (serval_tcp_ack_queue flag syn seq end_ ack window) w (fun _ w' => live w' St c).
Proof.
  intros Hl Hack. pose proof Hl as (a & u & n & Hw & Hc & Hm & Hs). eapply wp_mono; [by eapply ack_queue_ok|].
  intros [f|] w' Hr; [|by subst w'].
  destruct Hr as (u' & _ & _ & [(a' & _ & Hw') Hc' Hm' Ht' _]). exists a', u', n. split_and!; try done.
  injection Ht' as ???. intros E. rewrite <- (Hs E). done.
Qed.
Lemma wakeup_live w St c : live w St c -> wp serval_tcp_write_wakeup w (fun _ w' => live w' St c).
Proof.
  intros (a & u & n & Hw & Hc & Hm & Hs). eapply wp_mono; [by eapply write_wakeup_ok|].
  intros r w' ((_ & He & _ & _ & Es) & Hc' & n' & Hw'). exists a, u, n'.
  split_and!; [done|auto|by apply (mss_edge (tp (net w)))|]. by rewrite Es.
Qed.
Lemma reclaim_mild : mild RSt risn sk_mem_reclaim.
Proof.
  unfold sk_mem_reclaim. mild_steps. apply mild_mod. intros w. destruct (_ && _); by split_and!.
Qed.
Lemma close_live w St :
  live w St false -> queued w < 2 ^ 30 - 1 -> receive_queue (tp (net w)) = [] ->
  wp serval_tcp_connection_close (shut w) (fun _ w' => live w' St true).
Proof.
  intros (a & u & n & Hw & Hc & Hm & _) Hq Hr. pose proof (sending_queued _ _ _ _ _ _ Hw) as Hb.
  unfold total in Hb. set (w1 := shut w).
  assert (Hw1 : sending St false w1 a u n) by (destruct Hw; by split).
  assert (Hc1 : counted w1) by done. assert (Hm1 : mss_ok (tp (net w1))) by done.
  assert (Hs1 : send_shutdown (snd_st w1) = true) by done. assert (Hr1 : receive_queue (tp (net w1)) = []) by done.
  clearbody w1. unfold serval_tcp_connection_close. apply wp_bind, wp_the_tcp. rewrite Hr1. cbn [rfree_all].
  apply wp_bind, wp_lift, wp_ret, wp_bind, wp_lift, wp_modS. set (w2 := _ {{ net := _ }}).
  assert (Hcalm : calm_step RSt risn w1 w2).
  { apply core_calm; try done. apply (fine_receiver RSt risn (net w1));
      [|apply (proj2 (sd_fine _ _ _ _ _ _ _ _ _ Hw1))|apply Hw1].
    unfold receiver. cbn. by rewrite Hr1. }
  clearbody w2. apply wp_bind. eapply wp_mono; [apply (plain_lift RSt risn _ reclaim_mild), Hcalm|].
  intros [] w3 Hc3. pose proof (calm_trans _ _ _ _ _ _ Hcalm Hc3) as H3. apply wp_bind. eapply wp_mono.
  { eapply (tcp_send_fin_ok RSt risn isn St w3 a u n); [by eapply calm_sending|by eapply calm_counted| |lia].
    by apply (calm_settled RSt risn w1 w3). }
  intros [] w4 (Hc4 & Hm4 & Hs4 & n' & Hw4). apply wp_ret. exists a, u, n'. split_and!; try done.
  intros _. rewrite Hs4. destruct H3 as (_ & _ & _ & Hqq & _). injection Hqq as ????. congruence.
Qed.
Lemma same_segs (P : tx_skb -> range -> Prop) q q' l :
  map wq q' = map wq q -> Forall2 (fun s => P (wq s)) q l -> Forall2 (fun s => P (wq s)) q' l.
Proof.
  intros E Hq. revert q' E. induction Hq as [|s r q l Hs Hq IH]; intros [|s' q'] E; try done.
  injection E as E1 E2. constructor; [by rewrite E1|by apply IH].
Qed.
Lemma other_live w St c w' : live w St c -> other_step w w' -> live w' St c.
Proof.
  intros (a & u & n & Hw & Hc & Hm & Hs) [Hf (Eu & En & Ep) Hm' (fs & Ef & Hfs) Er Eq Ew Es].
  exists a, u, n. split_and!; try done; [|unfold counted in *|auto].
  2: { apply (f_equal length) in Er. rewrite !length_map in Er. congruence. }
  destruct Hw as [_ Hu Hn Hwseq Ho Hnear (l & Hl & Ha & Hul) Honce (l' & Hl' & Ha') Hsent].
  split; try done; try congruence.
  - exists l. split_and!; try done. by apply (same_segs (tx_at isn St) (rtx_q (snd_st w))).
  - assert (Hmap : forall q, Forall (fun s => tx_pcount (wq s) = 1) q <-> Forall (fun t => tx_pcount t = 1) (map wq q)).
    { intros q. induction q as [|s q IHq]; simpl; [by rewrite !Forall_nil|]. by rewrite !Forall_cons, IHq. }
    apply Hmap. rewrite Er. by apply Hmap.
  - exists l'. split; [|done]. by apply (same_segs (tx_at isn St) (unsent_q (snd_st w))).
  - rewrite Ef. apply Forall_app. split; [done|]. eapply Forall_impl; [exact Hfs|].
    intros d (t & Hd & Hb). exists t. auto.
Qed.
Lemma sender_live w St c : snd_fresh w0 -> sender w St c -> live w St c.
Proof.
  intros Hf. induction 1 as [|w St c more iovs r w' _ IH Hq Ht Hrun|w St c na w' _ IH Hrun|w St c pre s post r w' _ IH Hq Hrun|
    w St c flag syn seq end_ ack window r w' _ IH Hack Hrun|w St c r w' _ IH Hrun|
    w St r w' _ IH Hq Hr Hrun|w St c w' _ IH Ho].
  - by apply live_start.
  - pose proof (write_live _ _ _ more iovs IH Hq Ht) as Hw. unfold wp in Hw. by rewrite Hrun in Hw.
  - pose proof (push_live _ _ _ na IH) as Hw. unfold wp in Hw. by rewrite Hrun in Hw.
  - pose proof (again_live _ _ _ _ _ _ IH Hq) as Hw. unfold wp in Hw. by rewrite Hrun in Hw.
  - pose proof (ack_live _ _ _ flag syn seq end_ ack window IH Hack) as Hw. unfold wp in Hw. by rewrite Hrun in Hw.
  - pose proof (wakeup_live _ _ _ IH) as Hw. unfold wp in Hw. by rewrite Hrun in Hw.
  - pose proof (close_live _ _ IH Hq Hr) as Hw. unfold wp in Hw. by rewrite Hrun in Hw.
  - by eapply other_live.
Qed.
End Sender.
