(* ===== verification/TcpTimerOk.v ===== *)
(** * What the timers do

    The closed form of the time after which a connection is given up is the sum
    of the timeouts that double; a handler of a timer only takes steps of the
    sender of [TcpSession.v], or gives the connection up; and a connection whose
    peer stays silent after the first retransmission is given up. *)
From S2P Require Import Prelude SalHdr Checksum TcpSock TcpQueue TcpFrame TcpQueueOk TcpStream TcpCong TcpCongOk TcpOut TcpRecv TcpRecvOk TcpSend TcpTimer TcpWire TcpSendOk TcpXmitOk TcpRetransOk TcpFillOk TcpAckOk TcpSession.
Local Open Scope Z_scope.

(** ** The logarithm *)
Lemma high_bits n sh : 0 < n < 2 ^ (2 * sh) -> 0 < sh ->
  (Z.land n (Z.shiftl (Z.ones sh) sh) =? 0) = (n <? 2 ^ sh).
Proof.
  intros Hn Hsh. destruct (Z.ltb_spec n (2 ^ sh)) as [Hlt|Hge].
  - apply Z.eqb_eq, Z.bits_inj'. intros i Hi. rewrite Z.land_spec, Z.bits_0, Z.shiftl_spec by done.
    destruct (decide (i < sh)); [rewrite (Z.testbit_neg_r _ (i - sh)) by lia; apply andb_false_r|].
    rewrite Z.bits_above_log2; [done|lia|]. apply Z.log2_lt_pow2 in Hlt; lia.
  - apply Z.eqb_neq. intros E. apply (f_equal (fun z => Z.testbit z (Z.log2 n))) in E.
    assert (sh <= Z.log2 n < 2 * sh) by (split; [apply Z.log2_le_pow2|apply Z.log2_lt_pow2]; lia).
    rewrite Z.land_spec, Z.bits_0, Z.shiftl_spec, Z.bit_log2, Z.ones_spec_low in E by lia. done.
Qed.
Lemma ilog2_step_ok mask sh i n : mask = Z.shiftl (Z.ones sh) sh -> 0 < sh -> 0 < n < 2 ^ (2 * sh) ->
  let '(i', n') := ilog2_step mask sh (i, n) in 0 < n' < 2 ^ sh /\ i' + Z.log2 n' = i + Z.log2 n.
Proof.
  intros -> Hsh Hn. unfold ilog2_step. rewrite high_bits by done.
  destruct (Z.ltb_spec n (2 ^ sh)) as [|Hge]; [split; lia|].
  pose proof (Z.pow_pos_nonneg 2 sh). rewrite Z.log2_shiftr, Z.shiftr_div_pow2 by lia.
  replace (2 * sh) with (sh + sh) in Hn by lia. rewrite Z.pow_add_r in Hn by lia.
  split; [split; [apply Z.div_str_pos; lia|apply Z.div_lt_upper_bound; lia]|].
  pose proof (proj1 (Z.log2_le_pow2 n sh ltac:(lia)) Hge). rewrite Z.max_r; lia.
Qed.
(** The binary search finds the logarithm of every number of 32 bits. *)
Lemma ilog2_log2 n : 0 < n < 2 ^ 32 -> ilog2 n = Z.log2 n.
Proof.
  intros Hn. unfold ilog2.
  pose proof (ilog2_step_ok 4294901760 16 (-1) n eq_refl eq_refl Hn) as H1. destruct (ilog2_step 4294901760 _ _) as [i1 n1].
  destruct H1 as [Hn1 E1].
  pose proof (ilog2_step_ok 65280 8 i1 n1 eq_refl eq_refl Hn1) as H2. destruct (ilog2_step 65280 _ _) as [i2 n2].
  destruct H2 as [Hn2 E2].
  pose proof (ilog2_step_ok 240 4 i2 n2 eq_refl eq_refl Hn2) as H3. destruct (ilog2_step 240 _ _) as [i3 n3].
  destruct H3 as [Hn3 E3].
  pose proof (ilog2_step_ok 12 2 i3 n3 eq_refl eq_refl Hn3) as H4. destruct (ilog2_step 12 _ _) as [i4 n4].
  destruct H4 as [Hn4 E4].
  pose proof (ilog2_step_ok 2 1 i4 n4 eq_refl eq_refl Hn4) as H5. destruct (ilog2_step 2 _ _) as [i5 n5].
  destruct H5 as [Hn5 E5]. assert (n5 = 1) as -> by lia. change (Z.log2 1) with 0 in E5. simpl. lia.
Qed.

(** ** The time until a connection is given up *)

(** The first timeout and [n] more, each twice as long as the one before it, up
    to the largest. *)
Fixpoint waits (n : nat) (rto : Z) : Z :=
  match n with
  | O => rto
  | S n => rto + waits n (Z.min (2 * rto) SERVAL_TCP_RTO_MAX)
  end.
Lemma waits_max n : waits n SERVAL_TCP_RTO_MAX = (Z.of_nat n + 1) * SERVAL_TCP_RTO_MAX.
Proof.
  induction n as [|n IH]; [done|]. change (waits (S n) SERVAL_TCP_RTO_MAX) with
    (SERVAL_TCP_RTO_MAX + waits n SERVAL_TCP_RTO_MAX). rewrite IH. lia.
Qed.
Lemma waits_add n k r : waits (S n + k) r = waits n r + waits k (Nat.iter (S n) (fun r => Z.min (2 * r) SERVAL_TCP_RTO_MAX) r).
Proof.
  revert r. induction n as [|n IH]; intros r; [done|].
  change (waits (S (S n) + k) r) with (r + waits (S n + k) (Z.min (2 * r) SERVAL_TCP_RTO_MAX)).
  rewrite IH, (Nat.iter_succ_r (S n)). simpl. lia.
Qed.
Definition first_rto (syn : bool) : Z := if syn then SERVAL_TCP_TIMEOUT_INIT else SERVAL_TCP_RTO_MIN.
Lemma waits_first k syn : waits (10 + k) (first_rto syn) =
  (if syn then 66900 else 20460) + (Z.of_nat k + 1) * SERVAL_TCP_RTO_MAX.
Proof.
  rewrite <- waits_max. change (10 + k)%nat with (S 9 + k)%nat. rewrite waits_add.
  f_equal; [by destruct syn|]. f_equal. by destruct syn.
Qed.
Lemma timeout_late k syn : 0 <= k <= 300000 ->
  backoff_timeout (10 + k) syn = (if syn then 66900 else 20460) + (k + 1) * SERVAL_TCP_RTO_MAX.
Proof.
  intros Hk. unfold backoff_timeout. rewrite ilog2_log2 by (by destruct syn).
  assert (Hl : Z.log2 (SERVAL_TCP_RTO_MAX / (if syn then SERVAL_TCP_TIMEOUT_INIT else SERVAL_TCP_RTO_MIN)) =
    if syn then 5 else 9) by (by destruct syn). rewrite Hl. clear Hl.
  rewrite (proj2 (Z.leb_gt _ _)) by (destruct syn; lia).
  assert (Hs : (Z.shiftl 2 (if syn then 5 else 9) - 1) * (if syn then SERVAL_TCP_TIMEOUT_INIT else SERVAL_TCP_RTO_MIN) =
    if syn then 18900 else 20460) by (by destruct syn). rewrite Hs. clear Hs.
  unfold SERVAL_TCP_RTO_MAX. rewrite u32_id; destruct syn; lia.
Qed.
(** The closed form is the sum. *)
Lemma timeout_sum b syn :
  Z.of_nat b <= 300000 ->
  backoff_timeout (Z.of_nat b) syn = waits b (first_rto syn).
Proof.
  intros Hb. destruct (decide (b < 10)%nat) as [Hlt|].
  { do 10 (destruct b as [|b]; [by destruct syn|]). lia. }
  assert (exists k, b = (10 + k)%nat) as [k ->] by (exists (b - 10)%nat; lia).
  rewrite waits_first, Nat2Z.inj_add. apply timeout_late. lia.
Qed.

(** ** What a handler leaves alone *)
Section Within.
Context {S : Type} (R : S -> S -> Prop) `{!PreOrder R}.
Definition within {A} (m : M S A) : Prop := forall w a w', m w = Ok (a, w') -> R w w'.
Lemma within_ret {A} (a : A) : within (mret a).
Proof. by intros w b w' [= _ <-]. Qed.
Lemma within_bind {A B} (m : M S A) (k : A -> M S B) : within m -> (forall a, within (k a)) -> within (m ≫= k).
Proof.
  intros Hm Hk w b w2 Hr. apply bind_Ok_inv in Hr as (a & w1 & Hr1 & Hr2).
  etransitivity; [by eapply Hm|by eapply Hk].
Qed.
Lemma within_gets {A} (f : S -> A) : within (gets f).
Proof. by intros w b w' [= _ <-]. Qed.
Lemma within_getS : within getS.
Proof. by intros w b w' [= _ <-]. Qed.
Lemma within_modS f : (forall w, R w (f w)) -> within (modS f).
Proof. by intros Hf w b w' [= _ <-]. Qed.
Lemma within_fault {A} : within (@faultM S A).
Proof. by intros w b w'. Qed.
Lemma within_nofuel {A} : within (@nofuelM S A).
Proof. by intros w b w'. Qed.
Lemma within_deref {A} (o : option A) : within (derefM o).
Proof. destruct o; [apply within_ret|apply within_fault]. Qed.
Lemma wp_within {A} (m : M S A) w Q : within m -> wp m w Q -> wp m w (fun a w' => Q a w' /\ R w w').
Proof. intros Hm Hw. apply wp_run in Hw as (a & w' & Hr & Hq). apply wp_run. exists a, w'. eauto. Qed.
End Within.

(** The part of the connection the liveness of its timer depends on. *)
Definition waited (g : tcp_cong) := (snd_una g, snd_nxt g, snd_wnd g, rto g, srtt g, rttvar g).
Definition frozen (n : tcpw) :=
  let t := tp n in (waited (cong t), (tcp_state t, sock_dead t, sk_err t, jiffies n, backoff (cong t))).
(** A stamp that is set stays. *)
Definition steady (n n' : tcpw) : Prop :=
  frozen n' = frozen n /\ (retrans_stamp (cong (tp n)) <> 0 -> retrans_stamp (cong (tp n')) = retrans_stamp (cong (tp n))).
#[local] Instance steady_pre : PreOrder steady.
Proof.
  split; [by intros n|]. intros n1 n2 n3 [E1 S1] [E2 S2]. split; [congruence|].
  intros Hn. rewrite S2; rewrite S1; auto.
Qed.
Definition steady_snd (w w' : sndw) : Prop := steady (net w) (net w').
#[local] Instance steady_snd_pre : PreOrder steady_snd.
Proof. split; [by intros w; apply steady_pre|]. intros w1 w2 w3. apply steady_pre. Qed.

Ltac within_step :=
  lazymatch goal with
  | |- within _ (mret _) => apply within_ret, _
  | |- within _ (mbind _ _) => apply (within_bind _); [|intros ?]
  | |- within _ (gets _) => apply within_gets, _
  | |- within _ the_tp => apply within_gets, _
  | |- within _ the_snd => apply within_gets, _
  | |- within _ getS => apply within_getS, _
  | |- within _ faultM => apply within_fault
  | |- within _ nofuelM => apply within_nofuel
  | |- within _ (derefM _) => apply within_deref, _
  | |- within _ (modS _) => apply within_modS; intros ?; try (by repeat case_match)
  | |- within _ (upd _) => apply within_modS; intros ?; try (by repeat case_match)
  | |- within _ (upd_ack _) => apply within_modS; intros ?; try (by repeat case_match)
  | |- within _ (upd_snd _) => apply within_modS; intros ?; try (by repeat case_match)
  | |- within _ (let _ := _ in _) => progress (cbv zeta)
  | |- within _ (match ?x with _ => _ end) => destruct x eqn:?
  end.
Ltac within_steps := repeat within_step.

Section Steady.
Context `{TcpEnv} `{SndEnv}.
Implicit Types (s : wskb) (q : list wskb).
Lemma steady_cong (f : tcp_cong -> tcp_cong) (w : tcpw) :
  (forall g, (waited (f g), backoff (f g)) = (waited g, backoff g) /\
     (retrans_stamp g <> 0 -> retrans_stamp (f g) = retrans_stamp g)) ->
  steady w (w {{ tp ::= (fun t => t {{ cong ::= f }}) }}).
Proof.
  intros Hf. destruct (Hf (cong (tp w))) as [E Hs]. split; [|exact Hs].
  injection E as ???????.
  change ((waited (f (cong (tp w))), (tcp_state (tp w), sock_dead (tp w), sk_err (tp w), jiffies w, backoff (f (cong (tp w))))) = frozen w).
  unfold frozen, waited. congruence.
Qed.
Lemma within_lift {A} (m : TM A) : within steady m -> within steady_snd (lift m).
Proof.
  intros Hm w a w'. unfold lift. destruct (m (net w)) as [[b n]| |] eqn:E; try done. intros [= <- <-].
  exact (Hm _ _ _ E).
Qed.
Lemma within_cong f :
  (forall g, (waited (f g), backoff (f g)) = (waited g, backoff g) /\
     (retrans_stamp g <> 0 -> retrans_stamp (f g) = retrans_stamp g)) -> within steady_snd (on_cong f).
Proof. intros Hf. apply within_lift, within_modS. intros w. by apply steady_cong. Qed.
Lemma alloc_steady : within steady alloc_ok.
Proof. unfold alloc_ok. within_steps. Qed.
Lemma stamp_steady : within steady tcp_time_stamp.
Proof. unfold tcp_time_stamp. within_steps. Qed.
Lemma window_steady : within steady serval_tcp_select_window.
Proof. unfold serval_tcp_select_window, __serval_tcp_select_window, round_window. within_steps. Qed.
Lemma restart_steady now : within steady (upd_cong (serval_tcp_cwnd_restart now)).
Proof.
  intros w a w'. unfold upd_cong, serval_tcp_cwnd_restart. destruct (restart_loop _ _ _ _ _); try done.
  by intros [= _ <-].
Qed.
Lemma cwr_steady b now w : steady w (w {{ tp ::= (fun t => t {{ cong ::= serval_tcp_enter_cwr b now }}) }}).
Proof. apply steady_cong. intros g. unfold serval_tcp_enter_cwr. by destruct b; case_match. Qed.
Lemma transmit_steady (t : tx_skb) b : within steady (serval_tcp_transmit_skb t b).
Proof.
  unfold serval_tcp_transmit_skb, serval_tcp_event_ack_sent, serval_tcp_event_data_sent,
    serval_tcp_dec_quickack_mode, clear_delack_timer, sal_xmit. within_steps;
    first [apply alloc_steady|apply stamp_steady|apply window_steady|apply restart_steady|idtac].
  apply cwr_steady.
Qed.
(** ** Retransmission keeps it *)
Lemma mem_steady k : within steady_snd (sk_mem_charge k) /\ within steady_snd (sk_mem_uncharge k).
Proof. split; by apply within_lift, within_modS. Qed.
Lemma stream_alloc_steady k : within steady_snd (sk_stream_alloc_skb k).
Proof.
  unfold sk_stream_alloc_skb, sk_wmem_schedule, __sk_mem_schedule_send, sk_stream_moderate_sndbuf, the_tcp.
  within_steps; apply within_lift; within_steps. apply alloc_steady.
Qed.
Lemma adjust_steady s k : within steady_snd (serval_tcp_adjust_pcount s k).
Proof. apply within_cong. intros g. cbv zeta. by repeat case_match. Qed.
Lemma fragment_steady s k : within steady_snd (serval_tcp_fragment s k).
Proof.
  unfold serval_tcp_fragment, the_tcp. within_steps; try apply stream_alloc_steady; try apply mem_steady;
    try apply adjust_steady. apply within_lift. within_steps.
Qed.
Lemma trim_steady s k : within steady_snd (serval_tcp_trim_head s k).
Proof.
  unfold serval_tcp_trim_head. within_steps; try apply mem_steady. apply within_lift, alloc_steady.
Qed.
Lemma free_steady s : within steady_snd (sk_wmem_free_skb s).
Proof. unfold sk_wmem_free_skb. within_steps. apply mem_steady. Qed.
Lemma collapse_steady s q k : within steady_snd (serval_tcp_retrans_try_collapse s q k).
Proof.
  unfold serval_tcp_retrans_try_collapse. within_steps. set (k' := k - _). clearbody k'. clear. revert s k'.
  induction q as [|n q IH]; intros s k'; cbn [collapse_next]; unfold the_tcp; within_steps; [apply within_lift; within_steps| |apply IH].
  unfold serval_tcp_collapse_retrans. within_steps; [apply adjust_steady|apply free_steady].
Qed.
Lemma retransmit_steady pre s post : within steady_snd (serval_tcp_retransmit_skb pre s post).
Proof.
  unfold serval_tcp_retransmit_skb, retransmit_prepare, retransmit_shape, transmit_clone, set_rtx, the_tcp.
  within_steps;
    first [apply trim_steady|apply fragment_steady|apply collapse_steady|apply within_lift; within_steps; first [apply transmit_steady|apply stamp_steady]|idtac].
  apply within_cong. intros []. cbv zeta. simpl. by destruct (Z.eqb_spec retrans_stamp 0).
Qed.

(** ** The back-off *)
Definition same_backoff (w w' : sndw) : Prop :=
  backoff (cong (tp (net w'))) = backoff (cong (tp (net w))).
#[export] Instance same_backoff_pre : PreOrder same_backoff.
Proof. unfold same_backoff. split; [done|]. intros w1 w2 w3. congruence. Qed.
Lemma steady_backoff {A} (m : SM A) : within steady_snd m -> within same_backoff m.
Proof. intros Hm w a w' Hr. destruct (Hm _ _ _ Hr) as [E _]. by injection E as _ _ _ _ _ _ _ _ _ _ ?. Qed.
Lemma clone_steady s : within steady_snd (transmit_clone s).
Proof.
  unfold transmit_clone. within_steps; apply within_lift; within_steps;
    first [apply transmit_steady|apply stamp_steady|apply alloc_steady|idtac].
Qed.
Lemma probe_skb_steady b : within steady_snd (serval_tcp_xmit_probe_skb b).
Proof.
  unfold serval_tcp_xmit_probe_skb, the_tcp.
  within_steps; apply within_lift; first [apply transmit_steady|apply alloc_steady|within_steps].
Qed.
Lemma stamp_backoff : within same_backoff (lift tcp_time_stamp) /\ within same_backoff the_tcp.
Proof. split; apply steady_backoff, within_lift; [apply stamp_steady|within_steps]. Qed.
Lemma new_data_backoff s q : within same_backoff (serval_tcp_event_new_data_sent s q).
Proof.
  unfold serval_tcp_event_new_data_sent, reset_xmit_timer. within_steps; try apply stamp_backoff.
  by intros [n x] [] w' [= <-].
Qed.
Lemma wakeup_backoff : within same_backoff serval_tcp_write_wakeup.
Proof.
  unfold serval_tcp_write_wakeup, wakeup_send, write_probe. within_steps; try apply stamp_backoff;
    try apply new_data_backoff; apply steady_backoff;
    first [apply probe_skb_steady|apply fragment_steady|apply clone_steady].
Qed.
End Steady.

(** ** The handlers take steps of the sender *)
Lemma wp_on_conn {A} (m : SM A) W Q : wp m (conn W) (fun a w => Q a (W {{ conn := w }})) -> wp (on_conn m) W Q.
Proof. unfold wp, on_conn. by destruct (m (conn W)) as [[]| |]. Qed.
Lemma wp_tcp_of W Q : Q (tp (net (conn W))) W -> wp tcp_of W Q.
Proof. by destruct W as [[n x] k]. Qed.
Lemma wp_snd_of W Q : Q (snd_st (conn W)) W -> wp snd_of W Q.
Proof. by destruct W as [[n x] k]. Qed.
Lemma wp_now_stamp W Q : Q (u32 (jiffies (net (conn W)))) W -> wp now_stamp W Q.
Proof. by destruct W as [[n x] k]. Qed.

Section Steps.
Context `{EOk : TcpEnvOk} `{SndEnv} `{TimEnv} (RSt : list Z) (risn : Z) (isn : Z) (w0 : sndw).
Context (Hfresh : snd_fresh RSt risn isn w0) (St : list Z) (c : bool).
Implicit Types (w : sndw) (W : timw) (q : list wskb).
Abbreviation fine := (fine RSt risn).
Abbreviation plain := (plain RSt risn).
Abbreviation sender := (sender RSt risn w0).
Abbreviation live w := (live RSt risn isn w St c).

Lemma sender_alive w : sender w St c -> live w.
Proof. by apply sender_live. Qed.
Lemma live_fine w : live w -> fine (net w) /\ mss_ok (tp (net w)).
Proof. intros (a & u & n & Hw & _ & Hm & _). split; [apply Hw|done]. Qed.
(** What leaves the queues, the wire and the edges of the window alone. *)
Definition quiet w w' : Prop :=
  fine (net w') /\ mss_ok (tp (net w')) /\ sent (net w') = sent (net w) /\ queues (snd_st w') = queues (snd_st w) /\
  (snd_una (cong (tp (net w'))), snd_nxt (cong (tp (net w'))), pkts w') =
  (snd_una (cong (tp (net w))), snd_nxt (cong (tp (net w))), pkts w).
Lemma quiet_sender w w' : sender w St c -> quiet w w' -> sender w' St c.
Proof.
  intros Hs (Hf & Hm & Hsent & Hq & He). injection Hq as Hr Hu Hw Hsh. injection He as ???.
  apply (snd_other _ _ _ w); [done|]. split; try done; try congruence.
  exists []. by rewrite app_nil_r.
Qed.
Lemma calm_quiet w w' : mss_ok (tp (net w)) -> calm_step RSt risn w w' -> quiet w w'.
Proof.
  intros Hm Hc. pose proof (calm_settled RSt risn w w' Hm Hc) as (? & ? & _).
  destruct Hc as (? & Hp & ? & ? & ?). injection Hp as ?????. split_and!; try done. congruence.
Qed.

(** A piece of a handler that only takes steps of the sender. *)
Definition steps {A} (m : KM A) : Prop := forall W, sender (conn W) St c ->
  wp m W (fun _ W' => sender (conn W') St c /\ destroyed (tim W') = destroyed (tim W)).
Lemma steps_ret {A} (a : A) : steps (mret a).
Proof. intros W ?. by apply wp_ret. Qed.
Lemma steps_bind {A B} (m : KM A) (k : A -> KM B) : steps m -> (forall a, steps (k a)) -> steps (m ≫= k).
Proof.
  intros Hm Hk W HW. apply wp_bind. eapply wp_mono; [by apply Hm|]. intros a W1 [HW1 E1].
  eapply wp_mono; [by apply Hk|]. intros b W2 [HW2 E2]. split; [done|congruence].
Qed.
Lemma steps_gets {A} (f : timw -> A) : steps (gets f).
Proof. intros W ?. by apply wp_gets. Qed.
Lemma steps_tim f : (forall k, destroyed (f k) = destroyed k) -> steps (upd_tim f).
Proof. intros Hf W ?. apply wp_modS. split; [done|]. apply Hf. Qed.
Lemma steps_if {A} (b : bool) (m m' : KM A) : steps m -> steps m' -> steps (if b then m else m').
Proof. by destruct b. Qed.
Lemma steps_conn {A} (m : SM A) : plain m -> steps (on_conn m).
Proof.
  intros Hm W HW. destruct (live_fine _ (sender_alive _ HW)) as [Hf Hmss]. apply wp_on_conn.
  eapply wp_mono; [by apply Hm|]. intros a w Hc. split; [|done].
  apply (quiet_sender (conn W)); [done|]. by apply calm_quiet.
Qed.
(** A run that the sender allows is one of its steps. *)
Lemma steps_run {A} (m : SM A) :
  (forall w, live w -> wp m w (fun _ w' => True)) ->
  (forall w a w', sender w St c -> m w = Ok (a, w') -> sender w' St c) -> steps (on_conn m).
Proof.
  intros Hm Hs W HW. apply wp_on_conn. pose proof (Hm _ (sender_alive _ HW)) as Hr.
  apply wp_run in Hr as (a & w' & Hr & _). apply wp_run. exists a, w'. split; [done|]. split; [by eapply Hs|done].
Qed.
End Steps.
Ltac steps_step :=
  lazymatch goal with
  | |- steps _ _ _ _ _ (mret _) => apply steps_ret
  | |- steps _ _ _ _ _ (mbind _ _) => apply steps_bind; [|intros ?]
  | |- steps _ _ _ _ _ (gets _) => apply steps_gets
  | |- steps _ _ _ _ _ the_tim => apply steps_gets
  | |- steps _ _ _ _ _ now_jiffies => apply steps_gets
  | |- steps _ _ _ _ _ tcp_of => eapply steps_conn; [eassumption|plain_steps]
  | |- steps _ _ _ _ _ snd_of => eapply steps_conn; [eassumption|plain_steps]
  | |- steps _ _ _ _ _ now_stamp => eapply steps_conn; [eassumption|plain_steps]
  | |- steps _ _ _ _ _ (upd_tim _) => apply steps_tim; intros; by repeat case_match
  | |- steps _ _ _ _ _ (if _ then _ else _) => apply steps_if
  | |- steps _ _ _ _ _ (on_conn _) => eapply steps_conn; [eassumption|solve [plain_steps]]
  end.
Ltac steps_steps := repeat steps_step.

Section Handlers.
Context `{EOk : TcpEnvOk} `{SndEnv} `{TimEnv} (RSt : list Z) (risn : Z) (isn : Z) (w0 : sndw).
Context (Hfresh : snd_fresh RSt risn isn w0) (St : list Z) (c : bool).
Implicit Types (w : sndw) (W : timw) (q : list wskb).
Abbreviation fine := (fine RSt risn).
Abbreviation sender := (sender RSt risn w0).
Abbreviation steps := (steps RSt risn w0 St c).
Abbreviation alive := (sender_alive RSt risn isn w0 Hfresh St c).

Lemma timed_out_steps b syn : steps (retransmits_timed_out b syn).
Proof. unfold retransmits_timed_out. steps_steps. Qed.
Lemma resources_steps b : steps (serval_tcp_out_of_resources b).
Proof. unfold serval_tcp_out_of_resources, serval_tcp_too_many_orphans. steps_steps. Qed.
Lemma sync_mss_steps pmtu : steps (on_conn (serval_tcp_sync_mss pmtu)).
Proof.
  intros W HW. destruct (live_fine _ _ _ _ _ _ (alive _ HW)) as [Hf Hm]. apply wp_on_conn.
  eapply wp_mono.
  { eapply (wp_within steady_snd); [|by apply (sync_mss_ok RSt risn)]. unfold serval_tcp_sync_mss, the_tcp, on_cong, upd_tcp.
    within_steps; apply within_lift; within_steps. }
  intros [] w [(Hf' & Hm' & Hn & Hs & Hq & Hp) [He _]]. split; [|done]. injection He as Eu _ _ _ _ _ _ _ _ _ _.
  apply (quiet_sender RSt risn w0 St c (conn W) w); [done|]. split_and!; try done. congruence.
Qed.
Lemma mtu_probing_steps : steps serval_tcp_mtu_probing.
Proof. unfold serval_tcp_mtu_probing. steps_steps; apply sync_mss_steps. Qed.

(** Marking the segments. *)
Lemma mark_lost_ok how q : forall g high, let '(q', g', high') := mark_lost how q g high in
  map wq q' = map wq q /\
  (waited g', mss_cache g', snd_cwnd g', snd_cwnd_clamp g', packets_out g', retrans_stamp g', backoff g') =
  (waited g, mss_cache g, snd_cwnd g, snd_cwnd_clamp g, packets_out g, retrans_stamp g, backoff g).
Proof.
  induction q as [|s q IH]; intros g high; [done|]. cbn [mark_lost].
  destruct (mark_one how s g high) as [[s' g1] h1] eqn:E. specialize (IH g1 h1).
  destruct (mark_lost how q g1 h1) as [[q' g2] h2]. destruct IH as [Eq Eg].
  assert (Hone : wq s' = wq s /\
    (waited g1, mss_cache g1, snd_cwnd g1, snd_cwnd_clamp g1, packets_out g1, retrans_stamp g1, backoff g1) =
    (waited g, mss_cache g, snd_cwnd g, snd_cwnd_clamp g, packets_out g, retrans_stamp g, backoff g)).
  { revert E. unfold mark_one. destruct (has (wq_sacked s) _), (_ || how); by intros [= <- <- _]. }
  destruct Hone as [Es Eg1]. split; [simpl; congruence|]. by rewrite Eg.
Qed.
Lemma loss_window_same how r now g : let g' := loss_window how r now g in
  (waited g', mss_cache g', snd_cwnd g', snd_cwnd_clamp g', packets_out g', retrans_stamp g', backoff g') =
  (waited g, mss_cache g, 1, snd_cwnd_clamp g, packets_out g, retrans_stamp g, backoff g).
Proof. unfold loss_window. by destruct (_ || _), how. Qed.
Lemma enter_loss_ok how W : sender (conn W) St c ->
  wp (serval_tcp_enter_loss how) W (fun _ W' => sender (conn W') St c /\ steady_snd (conn W) (conn W') /\
    pkts (conn W') = pkts (conn W) /\ xmit_timer (snd_st (conn W')) = xmit_timer (snd_st (conn W)) /\
    tim W' = (tim W) {{ retransmit_high := retransmit_high (tim W') }}).
Proof.
  intros HW. destruct (live_fine _ _ _ _ _ _ (alive _ HW)) as [Hf Hm]. destruct W as [[n x] k]. cbn [conn tim] in *.
  unfold serval_tcp_enter_loss. apply wp_bind, wp_gets, wp_bind, wp_on_conn, wp_gets, wp_bind, wp_on_conn, wp_lift, wp_bind, wp_getS, wp_ret.
  apply wp_bind, wp_on_conn, wp_the_tcp. cbv zeta. cbn [conn tim net snd_st].
  pose proof (loss_window_same how (retransmits k) (u32 (jiffies n)) (cong (tp n))) as Hg.
  set (g1 := loss_window _ _ _ _) in *. pose proof (mark_lost_ok how (rtx_q x) g1 (retransmit_high k)) as Hmark.
  destruct (mark_lost _ _ _ _) as [[q' g2] h2]. destruct Hmark as [Eq Eg2]. cbv zeta in Hg. rewrite Hg in Eg2. clear Hg g1.
  injection Eg2 as E1 E2 E3 E4 Es Ev E5 E6 E7 E8 E9 E10.
  apply wp_bind, wp_on_conn, wp_modS, wp_bind, wp_modS, wp_on_conn, wp_lift, wp_modS.
  split_and!; try done.
  - apply (snd_other _ _ _ (SndW n x)); [done|]. split; try done.
    + apply (fine_receiver RSt risn n); [done| |done]. destruct Hf as [_ [[_ ?] ?]]. split; [|done].
      change (0 <= snd_cwnd g2 < 2 ^ 32 /\ 0 <= snd_cwnd_clamp g2). rewrite E6, E7. split; [lia|done].
    + destruct Hm as [? ?]. split; [done|]. change (0 < mss_cache g2 < 2 ^ 32). by rewrite E5.
    + exists []. by rewrite app_nil_r.
  - split; [|intros _; exact E9].
    change ((waited g2, (tcp_state (tp n), sock_dead (tp n), sk_err (tp n), jiffies n, backoff g2)) = frozen n).
    unfold frozen, waited. congruence.
Qed.

(** Of segments that count once, marking counts at most all as lost. *)
Lemma mark_lost_count how q : forall g high, Forall (fun s => tx_pcount (wq s) = 1) q ->
  0 <= lost_out g -> lost_out g + Z.of_nat (length q) < 2 ^ 32 ->
  let '(_, g', _) := mark_lost how q g high in
  lost_out g <= lost_out g' <= lost_out g + Z.of_nat (length q) /\
  g' = g {{ lost_out := lost_out g'; undo_marker := undo_marker g' }}.
Proof.
  induction q as [|s q IH]; intros g high Hq Hl Hlt; [split; [simpl; lia|by destruct g]|].
  apply Forall_cons in Hq as [Hs Hq]. cbn [mark_lost].
  destruct (mark_one how s g high) as [[s' g1] h1] eqn:E. cbn [length] in *.
  assert (H1 : lost_out g <= lost_out g1 <= lost_out g + 1 /\
    g1 = g {{ lost_out := lost_out g1; undo_marker := undo_marker g1 }}).
  { revert E. unfold mark_one. rewrite Hs.
    destruct (has (wq_sacked s) _), (_ || how); intros [= _ <- _]; destruct g; cbn in *; unfold constant;
      rewrite ?u32_id by lia; split; done || lia. }
  destruct H1 as [H1 E1]. specialize (IH g1 h1 Hq ltac:(lia) ltac:(lia)).
  destruct (mark_lost how q g1 h1) as [[q' g2] h2]. destruct IH as [IH E2]. split; [lia|].
  rewrite E2, E1. by destruct g.
Qed.
(** The timeout is the event of [TcpCongOk.v] that [cong_invariant] speaks of. *)
Lemma enter_loss_event how W :
  let g := cong (tp (net (conn W))) in
  Forall (fun s => tx_pcount (wq s) = 1) (rtx_q (snd_st (conn W))) ->
  packets_out g = Z.of_nat (length (rtx_q (snd_st (conn W)))) -> packets_out g < 2 ^ 32 ->
  wp (serval_tcp_enter_loss how) W (fun _ W' =>
    exists lost undo, 0 <= lost <= packets_out g /\
      cong_apply (u32 (jiffies (net (conn W)))) g
        (CLoss how (retransmits (tim W)) lost undo tcp_reordering) = Ok (cong (tp (net (conn W'))))).
Proof.
  destruct W as [[n x] k]. cbn [conn net snd_st tim]. intros Hq Hp Hlt. unfold serval_tcp_enter_loss.
  apply wp_bind, wp_gets, wp_bind, wp_on_conn, wp_gets, wp_bind, wp_on_conn, wp_lift, wp_bind, wp_getS, wp_ret.
  apply wp_bind, wp_on_conn, wp_the_tcp. cbv zeta. cbn [conn tim net snd_st].
  set (g := loss_window _ _ _ _).
  assert (g = loss_window how (retransmits k) (u32 (jiffies n)) (cong (tp n))) as Eg by done.
  assert (lost_out g = 0) as Hg by (unfold g, loss_window; by destruct (_ || _), how).
  pose proof (mark_lost_count how (rtx_q x) g (retransmit_high k) Hq ltac:(lia) ltac:(lia)) as Hm.
  destruct (mark_lost _ _ _ _) as [[q g'] high]. destruct Hm as [Hl Hg'].
  apply wp_bind, wp_on_conn, wp_modS, wp_bind, wp_modS, wp_on_conn, wp_lift, wp_modS.
  exists (lost_out g'), (undo_marker g'). split; [lia|]. unfold cong_apply. by rewrite <- Eg, <- Hg'.
Qed.

(** The first segment is sent again. *)
Lemma head_ok W : sender (conn W) St c -> pkts (conn W) <> 0 ->
  wp (on_conn retransmit_head) W (fun _ W' => sender (conn W') St c /\ steady_snd (conn W) (conn W') /\ tim W' = tim W).
Proof.
  intros HW Hp. pose proof (alive _ HW) as Hl. pose proof Hl as (a & u & n & _ & Hc & _). unfold counted in Hc.
  apply wp_on_conn. unfold retransmit_head. apply wp_bind, wp_gets.
  destruct (rtx_q (snd_st (conn W))) as [|s post] eqn:Hq; [by rewrite Hc in Hp|].
  pose proof (again_live RSt risn isn (conn W) St c [] s post Hl Hq) as Hr.
  apply wp_run in Hr as (r & w' & Hr & _). apply wp_run. exists r, w'. split; [done|]. split_and!; [|by eapply retransmit_steady|done].
  by apply (snd_again _ _ _ (conn W) St c [] s post r).
Qed.
Lemma wakeup_steps : steps (on_conn serval_tcp_write_wakeup).
Proof.
  apply (steps_run RSt risn isn w0 Hfresh).
  - intros w Hw. eapply wp_mono; [by apply (wakeup_live RSt risn isn)|done].
  - intros w a w' Hs Hr. by apply (snd_wakeup _ _ _ w St c a).
Qed.
Lemma reset_steps what when max_when : steps (on_conn (reset_xmit_timer what when max_when)).
Proof. eapply steps_conn; [done|]. apply reset_timer_plain. Qed.
Lemma clear_steps : steps (on_conn clear_xmit_timer).
Proof. eapply steps_conn; [done|]. unfold clear_xmit_timer. plain_steps. Qed.
Lemma reclaim_steps : steps (on_conn (lift sk_mem_reclaim)).
Proof. eapply steps_conn; [done|]. apply plain_lift, reclaim_mild. Qed.
Lemma cong_steps f :
  (forall g, snd_una (f g) = snd_una g /\ snd_nxt (f g) = snd_nxt g /\ mss_cache (f g) = mss_cache g /\
     packets_out (f g) = packets_out g) ->
  (forall g, cwnd_range g -> cwnd_range (f g)) -> steps (on_conn (on_cong f)).
Proof. intros. eapply steps_conn; [done|]. by apply plain_cong. Qed.
(** A probe, as long as the shift by the back-off is defined after it has grown. *)
Definition the_backoff W : Z := backoff (cong (tp (net (conn W)))).
Lemma backed_off_small t : backoff (cong t) < 32 -> exists r, rto_backed_off t = Some r.
Proof. intros Hb. unfold rto_backed_off. rewrite (proj2 (Z.ltb_lt _ _)) by done. eauto. Qed.
Lemma conn_backoff {A} (m : SM A) W : steps (on_conn m) -> within same_backoff m -> sender (conn W) St c ->
  wp (on_conn m) W (fun _ W' =>
    (sender (conn W') St c /\ destroyed (tim W') = destroyed (tim W)) /\ the_backoff W' = the_backoff W).
Proof.
  intros Hs Hm HW. specialize (Hs W HW). apply wp_run in Hs as (a & W1 & Hr & HW1). apply wp_run.
  exists a, W1. split; [done|]. split; [done|]. revert Hr. unfold on_conn.
  destruct (m (conn W)) as [[a' w']| |] eqn:E; [|done..]. intros [= <- <-]. exact (Hm _ _ _ E).
Qed.
Lemma probe0_ok W : sender (conn W) St c -> 0 <= the_backoff W <= 30 ->
  wp serval_tcp_send_probe0 W (fun _ W' => sender (conn W') St c /\ destroyed (tim W') = destroyed (tim W)).
Proof.
  intros HW Hb. unfold serval_tcp_send_probe0. apply wp_bind.
  apply (wp_mono _ _ (fun _ W1 => (sender (conn W1) St c /\ destroyed (tim W1) = destroyed (tim W)) /\ the_backoff W1 = the_backoff W)).
  { apply conn_backoff; [apply wakeup_steps|apply wakeup_backoff|done]. }
  intros err W1 [[HW1 Hd1] Hb1]. apply wp_bind, wp_tcp_of, wp_bind, wp_snd_of. rewrite <- Hd1.
  destruct (_ || _).
  { eapply wp_mono; [|intros a W2 H2; exact H2]. revert W1 HW1 Hd1 Hb1. intros W1 HW1 _ _.
    apply steps_bind; [steps_steps| |exact HW1]. intros _. apply cong_steps; intros g; unfold cwnd_range; by repeat case_match. }
  destruct (err <=? 0).
  - apply wp_bind. set (f := fun g : tcp_cong => _). 
    assert (Hf : steps (on_conn (on_cong f))).
    { apply cong_steps; intros g; unfold f, cwnd_range; by repeat case_match. }
    specialize (Hf W1 HW1). apply wp_run in Hf as ([] & W2 & Hr2 & HW2 & Hd2). apply wp_run.
    exists tt, W2. split; [done|]. apply wp_bind, wp_modS, wp_bind, wp_tcp_of. 
    set (W3 := W2 {{ tim ::= _ }}).
    assert (the_backoff W3 <= 31) as Hb3.
    { change (the_backoff W3) with (the_backoff W2). destruct W1 as [[n x] k]. injection Hr2 as <-.
      change (backoff (f (cong (tp n))) <= 31). change (backoff (cong (tp n)) = the_backoff W) in Hb1.
      unfold f, u8. destruct (_ <? _); [|lia].
      change ((backoff (cong (tp n)) + 1) mod 2 ^ 8 <= 31). rewrite Z.mod_small; lia. }
    destruct (backed_off_small (tp (net (conn W3)))) as [r ->]; [unfold the_backoff in Hb3; lia|].
    apply wp_bind, wp_ret. rewrite <- Hd2. change (destroyed (tim W2)) with (destroyed (tim W3)).
    by apply reset_steps.
  - apply wp_bind, wp_modS. 
    destruct (backed_off_small (tp (net (conn W1)))) as [r ->]; [unfold the_backoff in *; lia|].
    apply wp_bind, wp_ret. set (W2 := W1 {{ tim ::= _ }}).
    assert (destroyed (tim W1) = destroyed (tim W2)) as -> by (unfold W2; cbn; by case_match).
    by apply reset_steps.
Qed.
Lemma reset_timer_steps : steps out_reset_timer.
Proof.
  unfold out_reset_timer. steps_steps; [|apply reset_steps].
  apply cong_steps; intros g; unfold cwnd_range, next_rto; by repeat case_match.
Qed.
Lemma after_steps err : steps (after_retransmit err).
Proof.
  unfold after_retransmit. steps_steps; [apply reset_steps| |apply reset_timer_steps]. apply cong_steps; by intros g.
Qed.
Lemma push_steps : steps (on_conn serval_tcp_push_pending_frames).
Proof.
  apply (steps_run RSt risn isn w0 Hfresh); unfold serval_tcp_push_pending_frames.
  - intros w Hw. apply wp_bind, wp_the_tcp, wp_bind, wp_gets. destruct (unsent_q _); [by apply wp_ret|].
    eapply wp_mono; [by apply (push_live RSt risn isn)|done].
  - intros [n x] [] w' Hs Hr. change (match unsent_q x with
      | [] => mret tt | _ => __serval_tcp_push_pending_frames (serval_tcp_current_mss (tp n)) (nonagle x) end (SndW n x) = Ok (tt, w')) in Hr.
    destruct (unsent_q _); [by injection Hr as <-|]. by eapply snd_push.
Qed.

(** ** Giving up *)
Definition safe {S A} (m : M S A) : Prop := forall w : S, wp m w (fun _ _ => True).
Lemma safe_bind {S A B} (m : M S A) (k : A -> M S B) : safe m -> (forall a, safe (k a)) -> safe (m ≫= k).
Proof. intros Hm Hk w. apply wp_bind. eapply wp_mono; [apply Hm|]. intros a w1 _. apply Hk. Qed.
Lemma safe_lift {A} (m : TM A) : safe m -> safe (lift m).
Proof. intros Hm w. apply wp_lift, Hm. Qed.
Lemma reclaim_safe : safe sk_mem_reclaim.
Proof. intros w. unfold sk_mem_reclaim. apply wp_bind, wp_gets. by case_match. Qed.
Lemma rfree_safe (l : list tcp_seg) : safe (rfree_all l).
Proof. induction l as [|s l IH]; intros w; [done|]. apply wp_bind, wp_modS, IH. Qed.
Lemma purge_safe : safe serval_tcp_write_queue_purge.
Proof.
  intros w. unfold serval_tcp_write_queue_purge. apply wp_bind, wp_gets.
  assert (Hp : forall q, safe (purge q)).
  { intros q. induction q as [|s q IH]; [done|]. apply safe_bind; [|done]. intros w1. by apply wp_bind, wp_modS. }
  generalize (rtx_q (snd_st w) ++ unsent_q (snd_st w)). intros q. revert w.
  apply safe_bind; [apply Hp|intros _]. apply safe_bind; [done|intros _]. apply safe_lift, reclaim_safe.
Qed.
Lemma wp_conn_safe {A} (m : SM A) W (Q : timw -> Prop) :
  safe m -> (forall w, Q (W {{ conn := w }})) -> wp (on_conn m) W (fun _ => Q).
Proof. intros Hm HQ. apply wp_on_conn. eapply wp_mono; [apply Hm|]. intros a w _. apply HQ. Qed.
Lemma tcp_destroy_ok W : wp serval_tcp_destroy_sock W (fun _ W' => destroyed (tim W') = true).
Proof.
  unfold serval_tcp_destroy_sock, serval_tsk_clear_xmit_timers.
  apply wp_bind, wp_bind, wp_conn_safe; [done|intros w1]. apply wp_bind, wp_conn_safe; [done|intros w2].
  apply wp_modS. apply wp_bind, wp_conn_safe; [apply purge_safe|intros w3].
  apply wp_bind, wp_on_conn, wp_the_tcp. apply wp_bind, wp_conn_safe; [apply safe_lift, rfree_safe|intros w4].
  apply wp_bind, wp_conn_safe; [done|intros w5]. by apply wp_modS.
Qed.
(** The socket is closed, and destroyed if nobody holds it any more. *)
Definition over W W' : Prop :=
  if sock_dead (tp (net (conn W))) then destroyed (tim W') = true
  else sender (conn W') St c /\ tcp_state (tp (net (conn W'))) = TCP_CLOSE /\
       jiffies (net (conn W')) = jiffies (net (conn W)) /\
       sk_err (tp (net (conn W'))) = (if err_soft (tim W) =? 0 then ETIMEDOUT else err_soft (tim W)) /\
       error_reports (tim W') = S (error_reports (tim W)) /\ sent (net (conn W')) = sent (net (conn W)).
Lemma write_err_ok W : sender (conn W) St c -> 0 <= err_soft (tim W) -> wp serval_tcp_write_err W (fun _ => over W).
Proof.
  intros HW He. destruct (live_fine _ _ _ _ _ _ (alive _ HW)) as [Hf Hm]. destruct W as [[n x] k]. cbn [conn tim net] in *.
  unfold serval_tcp_write_err, serval_sal_done, serval_tsk_clear_xmit_timers.
  apply wp_bind, wp_gets, wp_bind, wp_on_conn, wp_lift, wp_modS, wp_bind, wp_modS, wp_bind, wp_bind, wp_on_conn, wp_modS.
  apply wp_bind, wp_on_conn, wp_lift, wp_modS, wp_modS, wp_bind, wp_on_conn, wp_lift, wp_modS, wp_bind, wp_on_conn, wp_modS.
  apply wp_bind, wp_on_conn, wp_the_tcp. unfold over. cbn [conn tim net snd_st].
  destruct (sock_dead (tp n)) eqn:Hd.
  - match goal with |- wp (if ?b then _ else _) _ _ => replace b with true by (by rewrite <- Hd) end. apply tcp_destroy_ok.
  - match goal with |- wp (if ?b then _ else _) _ _ => replace b with false by (by rewrite <- Hd) end.
    apply wp_modS. split_and!; try done.
    apply (snd_other _ _ _ (SndW n x)); [done|]. split; try done; [|exists []; by rewrite app_nil_r].
    apply (fine_receiver RSt risn n); [done| |done]. destruct Hf as [_ [? ?]]. split; [done|].
    change (0 <= if err_soft k =? 0 then ETIMEDOUT else err_soft k). by destruct (err_soft k =? 0).
Qed.

(** ** The timeout *)
Definition expired (b : Z) (syn : bool) W : bool :=
  if retransmits (tim W) =? 0 then false
  else match start_stamp (tp (net (conn W))) (snd_st (conn W)) with
       | None => false
       | Some start => backoff_timeout b syn <=? u32 (u32 (jiffies (net (conn W))) - start)
       end.
Lemma timed_out_run b syn W : retransmits_timed_out b syn W = Ok (expired b syn W, W).
Proof. by destruct W as [[n x] k]. Qed.
Lemma wp_timed_out b syn W Q : Q (expired b syn W) W -> wp (retransmits_timed_out b syn) W Q.
Proof. intros HQ. apply wp_run. exists (expired b syn W), W. by rewrite timed_out_run. Qed.
(** C27 (equivalence): [retransmits_timed_out] decides whether a connection that
    has sent again has waited, since [start], for as long as one that waits,
    sends again and doubles its timeout [b] times, up to two minutes each,
    starting from the smallest timeout or from that of a connection being set
    up: the closed form it computes with a logarithm and shifts in 32 bits is
    the sum of these timeouts. *)
Theorem timeout_is_backed_off b syn W start :
  Z.of_nat b <= 300000 -> retransmits (tim W) <> 0 ->
  start_stamp (tp (net (conn W))) (snd_st (conn W)) = Some start ->
  retransmits_timed_out (Z.of_nat b) syn W =
  Ok (waits b (first_rto syn) <=? u32 (u32 (jiffies (net (conn W))) - start), W).
Proof.
  intros Hb Hr Hs. rewrite timed_out_run. unfold expired. rewrite Hs, timeout_sum by done.
  by replace (retransmits (tim W) =? 0) with false by lia.
Qed.
Lemma wp_resources b W Q : Q false W -> wp (serval_tcp_out_of_resources b) W Q.
Proof. intros HQ. apply wp_run. exists false, W. split; [|done]. by destruct W as [[n x] k]. Qed.
(** What the probing of the path leaves alone. *)
Definition same_tim (k k' : tcp_tim) : Prop :=
  (retransmits k', err_soft k', error_reports k', thin_lto k', destroyed k') =
  (retransmits k, err_soft k, error_reports k, thin_lto k, destroyed k).
Definition kept W W' : Prop :=
  sender (conn W') St c /\ steady_snd (conn W) (conn W') /\ same_tim (tim W) (tim W') /\
  sent (net (conn W')) = sent (net (conn W)) /\ pkts (conn W') = pkts (conn W).
Lemma same_kept W : sender (conn W) St c -> kept W W.
Proof. intros ?. by split_and!. Qed.
Lemma sync_mss_kept pmtu W : sender (conn W) St c -> wp (on_conn (serval_tcp_sync_mss pmtu)) W (fun _ => kept W).
Proof.
  intros HW. destruct (live_fine _ _ _ _ _ _ (alive _ HW)) as [Hf Hm]. apply wp_on_conn. eapply wp_mono.
  { eapply (wp_within steady_snd); [|by apply (sync_mss_ok RSt risn)]. unfold serval_tcp_sync_mss, the_tcp, on_cong, upd_tcp.
    within_steps; apply within_lift; within_steps. }
  intros [] w [(Hf' & Hm' & Hn & Hs & Hq & Hp) He]. split_and!; try done.
  destruct He as [He _]. injection He as Eu _ _ _ _ _ _ _ _ _ _.
  apply (quiet_sender RSt risn w0 St c (conn W) w); [done|]. split_and!; try done. congruence.
Qed.
Lemma mtu_probing_kept W : sender (conn W) St c -> wp serval_tcp_mtu_probing W (fun _ => kept W).
Proof.
  intros HW. destruct W as [[n x] k]. unfold serval_tcp_mtu_probing. destruct (negb tcp_mtu_probing); [by apply wp_ret, same_kept|].
  apply wp_bind, wp_on_conn, wp_the_tcp, wp_bind, wp_on_conn, wp_gets, wp_bind, wp_gets.
  destruct (negb _); apply wp_bind, wp_modS; (eapply wp_mono; [by apply sync_mss_kept|]); intros [] W' (? & ? & ? & ? & ?); by split_and!.
Qed.
Lemma write_timeout_open_ok W : sender (conn W) St c ->
  wp write_timeout_open W (fun r W' => kept W W' /\
    exists b, r = inl b /\ (sock_dead (tp (net (conn W))) = false -> b = tcp_retries2)).
Proof.
  intros HW. unfold write_timeout_open. apply wp_bind, wp_on_conn, wp_the_tcp.
  destruct W as [[n x] k]. apply wp_bind, wp_gets, wp_bind, wp_timed_out, wp_bind.
  apply (wp_mono _ _ (fun _ => kept (TimW (SndW n x) k))).
  { destruct (expired _ _ _); [by apply mtu_probing_kept|by apply wp_ret, same_kept]. }
  intros [] W1 HW1. cbn [conn net]. destruct (sock_dead (tp n)) eqn:Hd.
  - apply wp_bind, wp_timed_out, wp_bind, wp_resources, wp_ret. split; [done|]. eexists. split; [done|congruence].
  - apply wp_ret. split; [done|]. eauto.
Qed.
Lemma write_timeout_ok W : sender (conn W) St c -> 0 <= err_soft (tim W) ->
  wp serval_tcp_write_timeout W (fun gone W' => exists W1 b, kept W W1 /\ gone = expired b false W1 /\
    (if gone : bool then over W1 W' else W' = W1) /\
    (handshaking (tp (net (conn W))) = false -> sock_dead (tp (net (conn W))) = false -> b = tcp_retries2)).
Proof.
  intros HW He. unfold serval_tcp_write_timeout. apply wp_bind, wp_on_conn, wp_the_tcp.
  destruct W as [[n x] k]. apply wp_bind.
  apply (wp_mono _ _ (fun r W' => kept (TimW (SndW n x) k) W' /\
    exists b, r = inl b /\ (handshaking (tp n) = false -> sock_dead (tp n) = false -> b = tcp_retries2))).
  { cbn [conn net]. destruct (handshaking (tp n)).
    { apply wp_ret. split; [by apply same_kept|]. by exists 0. }
    eapply wp_mono; [by apply write_timeout_open_ok|]. intros r W1 (Hk & b & -> & Hb). eauto. }
  intros r W1 (Hk & b & -> & Hb). apply wp_bind, wp_timed_out. destruct (expired b false W1) eqn:E.
  2: { apply wp_ret. exists W1, b. by split_and!. }
  destruct Hk as (HW1 & Hst & Ht & Hr). apply wp_bind. eapply wp_mono; [apply write_err_ok; [done|]|].
  { injection Ht as ? E1 ???. by rewrite E1. }
  intros [] W2 Ho. apply wp_ret. exists W1, b. by split_and!.
Qed.

(** ** The handlers *)

(** The sender goes on, or the socket, which nobody held any more, is gone. *)
Definition fate W W' : Prop :=
  sender (conn W') St c \/ sock_dead (tp (net (conn W))) = true /\ destroyed (tim W') = true.
Lemma over_fate W W' : over W W' -> fate W W'.
Proof. unfold over, fate. destruct (sock_dead _); [by right|]. intros [? _]. by left. Qed.
Lemma steps_fate {A} (m : KM A) W : steps m -> sender (conn W) St c -> wp m W (fun _ => fate W).
Proof. intros Hm HW. eapply wp_mono; [by apply Hm|]. intros a W' [? _]. by left. Qed.
Lemma kept_dead W W1 : kept W W1 -> sock_dead (tp (net (conn W1))) = sock_dead (tp (net (conn W))).
Proof. intros (_ & [E _] & _). by injection E as _ _ _ _ _ _ _ ? _ _ _. Qed.
Lemma retransmit_timer_ok W : sender (conn W) St c -> 0 <= err_soft (tim W) ->
  wp serval_tcp_retransmit_timer W (fun _ => fate W).
Proof.
  intros HW He. unfold serval_tcp_retransmit_timer. apply wp_bind, wp_on_conn, wp_the_tcp.
  destruct W as [[n x] k]. apply wp_bind, wp_gets, wp_bind, wp_on_conn, wp_lift, wp_bind, wp_getS, wp_ret.
  cbn [conn net snd_st tim] in *. destruct (Z.eqb_spec (packets_out (cong (tp n))) 0) as [|Hp]; [apply wp_ret; by left|].
  destruct (_ && _).
  - destruct (_ <? _).
    + eapply wp_mono; [by apply write_err_ok|]. intros [] W'. apply over_fate.
    + apply wp_bind. eapply wp_mono; [by apply enter_loss_ok|]. intros [] W1 (HW1 & _ & Hp1 & _). cbn [conn] in *.
      apply wp_bind. eapply wp_mono; [apply head_ok; [done|by rewrite Hp1]|]. intros err W2 (HW2 & _).
      eapply wp_mono; [by apply reset_timer_steps|]. intros [] W3 [? _]. by left.
  - apply wp_bind. eapply wp_mono; [by apply write_timeout_ok|]. intros gone W1 (W1' & b & Hk & _ & Hg & _).
    destruct gone; [apply wp_ret|subst W1'].
    { apply over_fate in Hg. destruct Hg as [?|[Hd ?]]; [by left|right]. by rewrite (kept_dead _ _ Hk) in Hd. }
    pose proof Hk as (HW1 & _ & _ & _ & Hp1). apply wp_bind. eapply wp_mono; [by apply enter_loss_ok|].
    intros [] W2 (HW2 & _ & Hp2 & _). apply wp_bind.
    eapply wp_mono; [apply head_ok; [done|rewrite Hp2, Hp1; done]|]. intros err W3 (HW3 & _).
    eapply wp_mono; [by apply after_steps|]. intros [] W4 [? _]. by left.
Qed.
Lemma probe_timer_ok W : sender (conn W) St c -> 0 <= err_soft (tim W) -> 0 <= the_backoff W <= 30 ->
  wp serval_tcp_probe_timer W (fun _ => fate W).
Proof.
  intros HW He Hb. unfold serval_tcp_probe_timer. apply wp_bind, wp_on_conn, wp_the_tcp.
  destruct W as [[n x] k]. apply wp_bind, wp_on_conn, wp_gets, wp_bind, wp_gets. cbn [conn net snd_st tim] in *.
  destruct (_ || _); [apply wp_modS; by left|]. apply wp_bind.
  apply (wp_mono _ _ (fun r W' => W' = TimW (SndW n x) k)).
  { destruct (sock_dead (tp n)); [|by apply wp_ret].
    destruct (backed_off_small (tp n)) as [r ->]; [unfold the_backoff in Hb; cbn in Hb; lia|].
    by apply wp_bind, wp_ret, wp_bind, wp_resources, wp_ret. }
  intros [m|] W1 ->; [|apply wp_ret; by left]. destruct (_ <? _).
  - eapply wp_mono; [by apply write_err_ok|]. intros [] W'. apply over_fate.
  - eapply wp_mono; [by apply probe0_ok|]. intros [] W' [? _]. by left.
Qed.
(** The timer that is set is the one that probes the window. *)
Definition probe_pending W : bool :=
  match xmit_timer (snd_st (conn W)) with
  | Some (event, _) => event =? STSK_TIME_PROBE0
  | None => false
  end.
Lemma write_timer_ok owned W : sender (conn W) St c -> 0 <= err_soft (tim W) ->
  (probe_pending W = true -> 0 <= the_backoff W <= 30) ->
  wp (serval_tcp_write_timer owned) W (fun _ => fate W).
Proof.
  intros HW He Hb. unfold serval_tcp_write_timer. apply wp_bind, wp_gets, wp_bind, wp_tcp_of, wp_bind, wp_snd_of.
  destruct W as [[n x] k]. cbn [conn net snd_st tim] in *.
  destruct owned; [apply wp_ret; by left|]. apply wp_bind.
  apply (wp_mono _ _ (fun _ => fate (TimW (SndW n x) k))).
  - destruct (xmit_timer x) as [[event timeout]|] eqn:Hx; [|apply wp_ret; by left].
    destruct (_ =? TCP_CLOSE); [apply wp_ret; by left|]. destruct (time_after _ _); [apply wp_ret; by left|].
    assert (HW1 : sender (SndW n (x {{ xmit_timer := None }})) St c).
    { pose proof (clear_steps (TimW (SndW n x) k) HW) as Hc. by apply Hc. }
    apply wp_bind, wp_on_conn, wp_modS, wp_bind. set (W1 := _ {{ conn := _ }}).
    assert (Hd : sock_dead (tp (net (conn W1))) = sock_dead (tp n)) by done.
    assert (Hb1 : (event =? STSK_TIME_PROBE0) = true -> 0 <= the_backoff W1 <= 30).
    { intros Ev. apply Hb. unfold probe_pending. cbn [conn snd_st]. by rewrite Hx. }
    assert (HW1' : sender (conn W1) St c) by done. assert (He1 : 0 <= err_soft (tim W1)) by done. clearbody W1.
    apply (wp_mono _ _ (fun _ => fate W1)); [|intros [] W2 HW2; apply wp_ret; unfold fate in *; by rewrite Hd in HW2].
    destruct (event =? STSK_TIME_RETRANS); [by apply retransmit_timer_ok|].
    destruct (event =? STSK_TIME_PROBE0); [by apply probe_timer_ok; auto|].
    apply wp_ret. by left.
  - intros r W1 [HW1|[Hd HW1]]; apply wp_bind.
    + eapply wp_mono; [by apply reclaim_steps|]. intros [] W2 [? _]. apply wp_ret. by left.
    + apply wp_conn_safe; [apply safe_lift, reclaim_safe|]. intros w. apply wp_ret. right. by split.
Qed.

(** ** Delayed acknowledgements *)

(** Code of the receiving half that sends acknowledgements at most. *)
Definition acks {A} (m : TM A) : Prop := forall n, fine n -> wp m n (fun _ n' => fine n' /\ core (tp n') = core (tp n) /\
  exists fs, sent n' = sent n ++ fs /\ Forall (fun d => exists t, frame t d /\ bare t) fs).
Lemma acks_mild {A} (m : TM A) : mild RSt risn m -> acks m.
Proof.
  intros Hm n Hn. eapply wp_mono; [by apply Hm|]. intros a n' (? & ? & E). split_and!; try done.
  exists []. by rewrite E, app_nil_r.
Qed.
Lemma acks_bind {A B} (m : TM A) (k : A -> TM B) : acks m -> (forall a, acks (k a)) -> acks (m ≫= k).
Proof.
  intros Hm Hk n Hn. apply wp_bind. eapply wp_mono; [by apply Hm|]. intros a n1 (Hn1 & Hc1 & fs1 & E1 & Hf1).
  eapply wp_mono; [by apply Hk|]. intros b n2 (Hn2 & Hc2 & fs2 & E2 & Hf2). split_and!; [done|congruence|].
  exists (fs1 ++ fs2). rewrite E2, E1, app_assoc. split; [done|]. by apply Forall_app.
Qed.
Lemma send_ack_acks : acks serval_tcp_send_ack.
Proof.
  unfold serval_tcp_send_ack. apply acks_bind; [apply acks_mild; mild_steps|intros t].
  destruct (_ =? TCP_CLOSE); [apply acks_mild; mild_steps|].
  apply acks_bind; [apply acks_mild, alloc_mild|intros ok]. destruct (negb ok).
  { apply acks_mild. unfold serval_tsk_schedule_ack, reset_delack_timer. mild_steps. }
  apply acks_bind; [|intros _; apply acks_mild; mild_steps]. intros n Hn.
  eapply wp_mono; [by apply tcp_transmit_ok|]. intros err n' (Hn' & Hc & Hs). split_and!; try done.
  destruct Hs as [-> | (d & -> & Hd)]; [exists []; by rewrite app_nil_r|].
  exists [d]. split; [done|]. apply Forall_singleton. eexists. split; [exact Hd|]. by vm_compute.
Qed.
Lemma delack_acks owned : acks (serval_tcp_delack_timer owned).
Proof.
  unfold serval_tcp_delack_timer, sk_mem_reclaim_partial, delack_missed.
  apply acks_bind; [apply acks_mild; mild_steps|intros _]. apply acks_bind; [apply acks_mild; mild_steps|intros n].
  destruct owned; [apply acks_mild; mild_steps|].
  apply acks_bind; [apply acks_mild; mild_steps; apply reclaim_mild|intros _].
  apply acks_bind; [apply acks_mild; mild_steps|intros t].
  apply acks_bind; [|intros _; apply acks_mild; mild_steps; apply reclaim_mild].
  destruct (_ || _); [apply acks_mild; mild_steps|]. destruct (time_after _ _); [apply acks_mild; mild_steps|].
  apply acks_bind; [apply acks_mild; mild_steps|intros _]. apply acks_bind; [apply acks_mild; mild_steps|intros t'].
  destruct (serval_tsk_ack_scheduled _); [|apply acks_mild; mild_steps].
  apply acks_bind; [apply acks_mild; mild_steps|intros _]. apply send_ack_acks.
Qed.
Lemma acks_steps (m : TM unit) : acks m -> steps (on_conn (lift m)).
Proof.
  intros Hm W HW. destruct (live_fine _ _ _ _ _ _ (alive _ HW)) as [Hf Hmss]. apply wp_on_conn, wp_lift.
  eapply wp_mono; [by apply Hm|]. intros [] n (Hn & Hc & Hs). split; [|done].
  pose proof (mss_core _ _ Hc Hmss). injection Hc as ??????.
  by apply (snd_other _ _ _ (conn W)).
Qed.

(** The end of a migration. *)
Lemma migration_ok W : sender (conn W) St c ->
  ((snd_wnd (cong (tp (net (conn W)))) =? 0) = true -> 0 <= the_backoff W <= 30) ->
  wp serval_tcp_migration_completed W (fun _ => fate W).
Proof.
  intros HW Hb. unfold serval_tcp_migration_completed. apply wp_bind, wp_tcp_of.
  set (t := tp (net (conn W))) in *. apply wp_bind, wp_modS, wp_bind. set (W1 := W {{ tim ::= _ }}).
  apply (wp_mono _ _ (fun _ W2 => (sender (conn W2) St c /\ destroyed (tim W2) = destroyed (tim W1)) /\ the_backoff W2 = the_backoff W)).
  { destruct (packets_out _ =? 0); [by apply wp_ret|].
    apply (conn_backoff _ W1); [apply reset_steps|unfold reset_xmit_timer; within_steps|done]. }
  intros [] W2 [[HW2 _] Hb2]. apply wp_bind. destruct (snd_wnd _ =? 0).
  - eapply wp_mono; [apply probe0_ok; [done|rewrite Hb2; auto]|]. intros [] W3 [? _]. apply wp_ret. by left.
  - eapply wp_mono; [by apply push_steps|]. intros [] W3 [? _]. apply wp_ret. by left.
Qed.

(** ** Every handler *)
Inductive timer_event :=
  | WriteTimer (owned : bool) | DelackTimer (owned : bool) | KeepaliveTimer (owned : bool)
  | FreezeFlow | MigrationCompleted.
Definition handle (e : timer_event) : KM unit :=
  match e with
  | WriteTimer owned => serval_tcp_write_timer owned;; mret tt
  | DelackTimer owned => on_conn (lift (serval_tcp_delack_timer owned))
  | KeepaliveTimer owned => serval_tcp_keepalive_timer owned
  | FreezeFlow => serval_tcp_freeze_flow;; mret tt
  | MigrationCompleted => serval_tcp_migration_completed;; mret tt
  end.
(** Whether handling the event may send a probe of the window. *)
Definition may_probe (e : timer_event) W : bool :=
  match e with
  | WriteTimer _ => probe_pending W
  | MigrationCompleted => snd_wnd (cong (tp (net (conn W)))) =? 0
  | _ => false
  end.
(** C7 (safety): whenever a timer of a connection fires, or a migration stops and
    starts them, the handler returns, whether the user holds the socket or not:
    the retransmission of the first segment, the probe of a closed window, the
    marking of what is lost, the new timeout, the delayed acknowledgement are
    steps after which the connection is still one that sends its stream
    ([sender], with its conditions), with the queue and the frames that
    [tcp_write_queue_holds] and [tcp_frames_conform] speak of.  The exception is a
    socket without a user that is given up: it is destroyed.  An event that may
    probe the window (the probe timer, the end of a migration with a closed
    window) comes while the back-off is at most 30: the probe shifts the timeout
    by the back-off, which is undefined from 32 on ([probe_backoff_faults]), and
    retransmissions let the back-off grow without a bound of its own. *)
Theorem tcp_timers_safe e W :
  sender (conn W) St c -> 0 <= err_soft (tim W) ->
  (may_probe e W = true -> 0 <= backoff (cong (tp (net (conn W)))) <= 30) ->
  exists W', handle e W = Ok (tt, W') /\
    (sender (conn W') St c \/ sock_dead (tp (net (conn W))) = true /\ destroyed (tim W') = true).
Proof.
  intros HW He Hb. assert (Hr : wp (handle e) W (fun _ => fate W)).
  2: { apply wp_run in Hr as ([] & W' & Hr & Hf). by exists W'. }
  destruct e as [owned|owned|owned| |]; simpl.
  - apply wp_bind. eapply wp_mono; [by apply write_timer_ok|]. intros r W' ?. by apply wp_ret.
  - apply steps_fate; [|done]. apply acks_steps, delack_acks.
  - apply steps_fate; [|done]. unfold serval_tcp_keepalive_timer. steps_steps.
  - apply steps_fate; [|done]. unfold serval_tcp_freeze_flow. steps_steps. apply clear_steps.
  - apply wp_bind. eapply wp_mono; [by apply migration_ok|]. intros r W' ?. by apply wp_ret.
Qed.
End Handlers.

(** The probe timer of a socket without a user is a fault once the back-off has
    reached 32: the timeout is shifted by it. *)
Theorem probe_backoff_faults `{TcpEnv} `{SndEnv} `{TimEnv} W timeout :
  let t := tp (net (conn W)) in
  xmit_timer (snd_st (conn W)) = Some (STSK_TIME_PROBE0, timeout) ->
  tcp_state t <> TCP_CLOSE -> time_after timeout (jiffies (net (conn W))) = false ->
  packets_out (cong t) = 0 -> unsent_q (snd_st (conn W)) <> [] ->
  sock_dead t = true -> 32 <= backoff (cong t) ->
  handle (WriteTimer false) W = Fault.
Proof.
  destruct W as [[n x] k]. cbn [conn net snd_st]. intros Hx Hs Ht Hp Hu Hd Hb.
  destruct n, x. cbn in Hx, Hs, Ht, Hp, Hu, Hd, Hb. subst xmit_timer.
  unfold handle, serval_tcp_write_timer, serval_tcp_probe_timer, mbind, M_bind. cbn.
  rewrite (proj2 (Z.eqb_neq _ _)), Ht by done. cbn. rewrite Hp. cbn.
  rewrite bool_decide_eq_false_2 by done. rewrite Hd. unfold rto_backed_off.
  by rewrite (proj2 (Z.ltb_ge _ _)).
Qed.
