(* ===== verification/TcpEnd.v ===== *)
(** * From end to end

    The frames of a sender, as its peer decodes them, are segments of the stream
    that was written; a receiver that is handed them in any order, any number of
    times and with losses reads a prefix of what was written. *)
From S2P Require Import Prelude SalHdr Checksum TcpSock TcpQueue TcpFrame TcpQueueOk TcpStream TcpCong TcpCongOk TcpOut TcpRecv TcpRecvOk TcpClaims TcpSend TcpWire TcpSendOk TcpXmitOk TcpRetransOk TcpFillOk TcpAckOk TcpSession.
Local Open Scope Z_scope.

(** A frame of [d] arrives in a buffer with [hr] bytes in front of it that is
    charged [ts]; it fits a page. *)
Definition fits `{TcpEnv} (d : list Z) (hr ts : Z) : Prop :=
  Z.of_nat (length d) < 2 ^ 15 /\ 0 <= hr < PAGE_SIZE - sizeof_shared_info - TCP_HLEN /\ 0 <= ts < 2 ^ 31.

Section Decode.
Context `{EOk : TcpEnvOk} (isn : Z).
Implicit Types (t : tx_skb) (d : list Z) (s : tcp_seg).

Lemma checks_inv v sa da hr ts d t s :
  frame t d -> serval_tcp_rcv_checks v sa da hr ts d = Some s ->
  s = TcpSeg (u32 (tx_seq t))
        (u32 (u32 (tx_seq t) + (if Z.testbit (tx_flags t) 1 then 1 else 0) +
              (if Z.testbit (tx_flags t) 0 then 1 else 0) + Z.of_nat (length (tx_data t))))
        (byte_at d 13) 5 d hr ts 0.
Proof.
  intros [[Hlen Hdata] Hseq Hdoff Hfin Hsyn]. unfold serval_tcp_rcv_checks. cbv zeta.
  rewrite Hdoff, Hseq, Hfin, Hsyn. repeat (destruct (_ <? _); [done|]). destruct (negb v && _); [done|].
  intros <-%(inj Some). f_equal. f_equal. rewrite <- Hdata, length_drop. lia.
Qed.
Lemma decode_bare v sa da hr ts d t s :
  frame t d -> bare t -> serval_tcp_rcv_checks v sa da hr ts d = Some s -> seg_seq s = seg_end s.
Proof.
  intros Hf (Hd & _ & Hfin & Hsyn) Hs. rewrite (checks_inv _ _ _ _ _ _ _ _ Hf Hs). cbn [seg_seq seg_end].
  rewrite Hfin, Hsyn, Hd. cbn [length Z.of_nat]. rewrite !Z.add_0_r. unfold u32. by rewrite Z.mod_mod by lia.
Qed.
Lemma decode_ok St v sa da hr ts d t o e s :
  frame t d -> tx_at isn St t (o, e) -> o < e -> fits d hr ts ->
  serval_tcp_rcv_checks v sa da hr ts d = Some s -> arriving St isn s (o, e).
Proof.
  intros Hf [Hsq Hen Hr Hd Hfl] Hoe (Hlen & Hhr & Hts) Hs. cbn [fst snd] in *.
  pose proof (checks_inv _ _ _ _ _ _ _ _ Hf Hs) as Es. destruct Hf as [[H20 Hdata] _ _ Hfin Hsyn].
  destruct Hfl as (_ & Hflf & Hfls). rewrite Hflf, Hfls in Es.
  assert (Hsmall : Z.of_nat (length (tx_data t)) < 2 ^ 15) by (rewrite <- Hdata, length_drop; lia).
  assert (Hcount : Z.of_nat (length (tx_data t)) + (if e =? Z.of_nat (length St) + 1 then 1 else 0) = e - o).
  { rewrite Hd, bytes_length by lia. destruct (Z.eqb_spec e (Z.of_nat (length St) + 1)); lia. }
  subst s. split; [unfold seg_len; simpl; lia|].
  assert (Hpd : seg_data (pulled (TcpSeg (u32 (tx_seq t))
    (u32 (u32 (tx_seq t) + 0 + (if e =? Z.of_nat (length St) + 1 then 1 else 0) + Z.of_nat (length (tx_data t))))
    (byte_at d 13) 5 d hr ts 0)) = tx_data t) by exact Hdata.
  split; cbn [fst snd]; [| |lia| | | | |].
  - change (u32 (tx_seq t) = sq isn o). rewrite Hsq. unfold sq. apply u32_id, u32_range.
  - change (u32 (u32 (tx_seq t) + 0 + (if e =? Z.of_nat (length St) + 1 then 1 else 0) +
      Z.of_nat (length (tx_data t))) = sq isn e).
    rewrite Hsq, (u32_id (sq isn o)) by apply u32_range.
    replace (_ + _ + _ + _) with (sq isn o + (e - o)) by lia. rewrite sq_add. f_equal. lia.
  - change (Z.testbit (byte_at d 13) 1 = false). by rewrite Hsyn.
  - change (Z.testbit (byte_at d 13) 0 = (e =? Z.of_nat (length St) + 1)). by rewrite Hfin.
  - by rewrite Hpd.
  - split; try done. unfold seg_len. by rewrite Hpd.
  - change (0 <= hr + 20 < PAGE_SIZE - sizeof_shared_info). unfold TCP_HLEN in Hhr. lia.
Qed.
End Decode.

Section End.
Context `{EOk : TcpEnvOk} `{SndEnv} (RSt : list Z) (risn : Z) (isn : Z) (w0 : sndw) (r0 : tcpw).
Implicit Types (w : sndw) (r : tcpw) (St out d : list Z) (fs : list (list Z)).

(** ** The write queue *)
Lemma queue_data St q l a b :
  Forall2 (wseg isn St) q l -> adj a l b -> 0 <= a <= Z.of_nat (length St) ->
  concat (map (fun s => tx_data (wq s)) q) = bytes St a (Z.min b (Z.of_nat (length St))).
Proof.
  intros Hq. revert a. induction Hq as [|s [o e] q l Hs Hq IH]; simpl; intros a.
  { intros -> Hb. rewrite Z.min_l by lia. by rewrite bytes_nil. }
  intros (-> & Hae & Hadj) Ha. destruct Hs as [_ _ Hr Hd _]. cbn [fst snd] in *. rewrite Hd.
  pose proof (adj_le _ _ _ Hadj). destruct (decide (e <= Z.of_nat (length St))).
  - rewrite (IH e Hadj) by lia. rewrite (Z.min_l e) by lia. apply bytes_app; lia.
  - destruct Hq as [|s' [o' e'] q l Hs' Hq].
    + rewrite app_nil_r. change (e = b) in Hadj. by subst.
    + destruct Hadj as (-> & ? & Hadj). apply adj_le in Hadj. destruct Hs' as [_ _ Hr' _ _ _]. cbn [fst snd] in *. lia.
Qed.
(** Every call of a sender returns. *)
Definition never_stuck w : Prop :=
  (forall more iovs, queued w + Z.of_nat (length (concat iovs)) < 2 ^ 30 - 1 ->
     tail_ok (mss_cache (cong (tp (net w)))) (unsent_q (snd_st w)) ->
     exists k w', serval_tcp_sendmsg more iovs w = Ok (k, w')) /\
  (forall pre s post, rtx_q (snd_st w) = pre ++ s :: post ->
     exists k w', serval_tcp_retransmit_skb pre s post w = Ok (k, w')) /\
  (forall flag syn seq end_ ack window, 0 <= ack < 2 ^ 32 ->
     exists k w', serval_tcp_ack_queue flag syn seq end_ ack window w = Ok (k, w')).

(** C4 (invariant): however a user's writes, transmissions, retransmissions,
    acknowledgements, allocation failures and the close follow each other in a
    run that [sender] allows, the write queue holds exactly the part of the stream
    from some byte on that is not after the first unacknowledged one: nothing is
    lost before it is acknowledged; [packets_out] counts the segments sent and not
    acknowledged; and no further write, retransmission or acknowledgement faults,
    hits a BUG or loops for ever.  [sender] asks of a write that the last unsent
    segment is not larger than the segment size and has room up to it
    ([tail_ok]): after a probe has cut that segment, or when the segment size has
    grown since, a write does lose bytes ([probe_then_write_loses_bytes],
    [sendmsg_loses_bytes]).  It also asks that less than a gigabyte is queued, and
    that the user has read what arrived before it closes. *)
Theorem tcp_write_queue_holds w St c :
  snd_fresh RSt risn isn w0 -> sender RSt risn w0 w St c ->
  (exists a u, 0 <= a <= u /\ u <= Z.of_nat (length St) + (if c then 1 else 0) /\
     snd_una (cong (tp (net w))) = sq isn u /\
     concat (map (fun s => tx_data (wq s)) (rtx_q (snd_st w) ++ unsent_q (snd_st w))) = drop (Z.to_nat a) St) /\
  packets_out (cong (tp (net w))) = Z.of_nat (length (rtx_q (snd_st w))) /\ never_stuck w.
Proof.
  intros Hf Hs. pose proof (sender_live RSt risn isn w0 w St c Hf Hs) as Hl.
  pose proof Hl as (a & u & n & Hw & Hc & _ & _).
  split; [|split; [done|unfold never_stuck; split_and!]].
  - pose proof (sd_order _ _ _ _ _ _ _ _ _ Hw). destruct (rtx_bound _ _ _ _ _ _ _ _ _ Hw) as [Hn _].
    destruct (sd_rtx _ _ _ _ _ _ _ _ _ Hw) as (l & Hl1 & Ha & _), (sd_unsent _ _ _ _ _ _ _ _ _ Hw) as (l' & Hl2 & Ha').
    assert (Hall : adj a (l ++ l') (total St c)) by (apply adj_app; by exists n).
    exists a, u. unfold total in *. split_and!; [lia..|destruct c; lia|apply Hw|].
    pose proof (Forall2_app Hl1 Hl2) as Hl12. destruct (decide (a <= Z.of_nat (length St))).
    + rewrite (queue_data St _ _ _ _ Hl12 Hall) by lia. rewrite Z.min_r by (destruct c; lia).
      unfold bytes. apply take_ge. rewrite length_drop. lia.
    + apply adj_length in Hall. apply Forall2_length in Hl12. rewrite drop_ge by lia.
      replace (rtx_q (snd_st w) ++ unsent_q (snd_st w)) with (@nil wskb); [done|].
      symmetry. apply nil_length_inv. destruct c; lia.
  - intros more iovs Hq Ht. pose proof (write_live _ _ _ _ _ _ more iovs Hl Hq Ht) as Hr.
    apply wp_run in Hr as (k & w' & ? & _). eauto.
  - intros pre s post Hq. pose proof (again_live _ _ _ _ _ _ _ _ _ Hl Hq) as Hr.
    apply wp_run in Hr as (k & w' & ? & _). eauto.
  - intros flag syn seq end_ ack window Hack. pose proof (ack_live _ _ _ _ _ _ flag syn seq end_ ack window Hl Hack) as Hr.
    apply wp_run in Hr as (k & w' & ? & _). eauto.
Qed.


(** ** Delivery

    The peer is handed frames of [fs], and its user reads. *)
Inductive delivered fs : tcpw -> list Z -> Prop :=
| del_start : delivered fs r0 []
| del_arrive r out d v sa da hr ts s r' :
    delivered fs r out -> d ∈ fs -> fits d hr ts -> serval_tcp_rcv_checks v sa da hr ts d = Some s ->
    in_limits r -> serval_tcp_data_queue s r = Ok (tt, r') -> delivered fs r' out
| del_read r out len k got r' :
    delivered fs r out -> in_limits r -> 0 < len ->
    serval_tcp_recvmsg len false r = Ok (k, got, r') -> delivered fs r' (out ++ got)
| del_env r out r' : delivered fs r out -> tp r' = tp r -> delivered fs r' out.

Lemma bare_dropped s r r' : seg_seq s = seg_end s -> serval_tcp_data_queue s r = Ok (tt, r') -> r' = r.
Proof. intros E. unfold serval_tcp_data_queue. rewrite E, Z.eqb_refl. by intros [= ->]. Qed.
Lemma frame_arrives St c fs r out d v sa da hr ts s :
  Forall (carried isn St c) fs -> Z.of_nat (length St) < 2 ^ 30 - 1 -> fresh isn r0 -> session St isn r0 r out ->
  d ∈ fs -> fits d hr ts -> serval_tcp_rcv_checks v sa da hr ts d = Some s -> in_limits r ->
  seg_seq s = seg_end s \/ exists o e, may_arrive St isn r out s o e.
Proof.
  intros Hall Hlen Hf Hs Hd Hfit Hc Hlim. rewrite Forall_forall in Hall. destruct (Hall d Hd) as (t & Hfr & Hq).
  destruct Hq as [Hb|([o e] & Hr & Hoe)]; [left; by eapply decode_bare|right].
  cbn [fst snd] in *. exists o, e. split; [eapply decode_ok; try done; lia|].
  destruct (session_good St isn r0 r out Hf Hs) as (k & n & u & _ & Hi & Hm & -> & _).
  rewrite (received_eq St isn r k n u Hi Hm Hlim). pose proof (inv_order _ _ _ _ _ _ Hi).
  destruct Hr as [_ _ Hr _ _ _]. cbn [fst snd] in Hr. split; [lia|done].
Qed.
Lemma delivered_session St c fs r out :
  Forall (carried isn St c) fs -> Z.of_nat (length St) < 2 ^ 30 - 1 -> fresh isn r0 ->
  delivered fs r out -> session St isn r0 r out.
Proof.
  intros Hall Hlen Hf. induction 1 as [|r out d v sa da hr ts s r' _ IH Hd Hfit Hc Hlim Hrun|
    r out len k got r' _ IH Hlim Hl Hrun|r out r' _ IH Htp].
  - constructor.
  - destruct (frame_arrives St c fs r out d v sa da hr ts s) as [E|(o & e & Hm)]; try done.
    + by rewrite (bare_dropped _ _ _ E Hrun).
    + by eapply session_arrive.
  - by eapply session_read.
  - by eapply session_env.
Qed.

(** C3 (safety): end to end, what one user reads is at every time a prefix of
    what the other has written, in whatever order the sender's calls came in a
    run that [sender] allows, however its frames are lost, repeated or reordered
    on the way, and however the allocations on both sides fail; and every frame of
    the sender that arrives and every read is handled without a fault.  The
    conditions: a write comes only when the last unsent segment is not larger than
    the segment size and has room up to it ([tail_ok]), for otherwise bytes are
    lost ([sendmsg_loses_bytes], [probe_then_write_loses_bytes]); the stream is
    shorter than a gigabyte, so that its sequence numbers do not repeat; the
    sender's user has read what arrived when it closes; frames arrive in buffers of
    at most a page, and the receiver's queue and window are below half a gigabyte
    ([in_limits]); reads do not wait and do not peek. *)
Theorem tcp_end_to_end w St c r out :
  snd_fresh RSt risn isn w0 -> sender RSt risn w0 w St c -> Z.of_nat (length St) < 2 ^ 30 - 1 ->
  fresh isn r0 -> delivered (sent (net w)) r out ->
  (exists k, out = take k St) /\
  (forall d v sa da hr ts s, d ∈ sent (net w) -> fits d hr ts ->
     serval_tcp_rcv_checks v sa da hr ts d = Some s -> in_limits r ->
     exists r', serval_tcp_data_queue s r = Ok (tt, r')) /\
  (forall len, in_limits r -> 0 < len -> exists k got r', serval_tcp_recvmsg len false r = Ok (k, got, r')).
Proof.
  intros Hsf Hs Hlen Hf Hd. destruct (sender_live RSt risn isn w0 w St c Hsf Hs) as (a & u & n & Hw & _ & _ & _).
  pose proof (sd_sent _ _ _ _ _ _ _ _ _ Hw) as Hall.
  pose proof (delivered_session St c _ r out Hall Hlen Hf Hd) as Hses.
  pose proof (session_good St isn r0 r out Hf Hses) as Hg. split_and!.
  - destruct Hg as (k & m & v & _ & _ & _ & -> & _). unfold bytes. rewrite drop_0. eauto.
  - intros d v sa da hr ts s Hin Hfit Hc Hlim.
    destruct (frame_arrives St c (sent (net w)) r out d v sa da hr ts s) as [E|(o & e & Hm)]; try done.
    + exists r. unfold serval_tcp_data_queue. by rewrite E, Z.eqb_refl.
    + destruct (arrive_run St isn r out s o e Hg Hm) as (r' & ? & _). eauto.
  - intros len Hlim Hl. destruct (read_run St isn r out len Hg Hlim Hl) as (k & got & r' & ? & _). eauto.
Qed.
End End.

(** ** A small transfer, across the wrap of the sequence numbers *)
Module EndDemo.
#[local] Existing Instances TcpClaims.Demo.denv TcpClaims.Demo.denv_ok.
#[local] Instance dsnd : SndEnv := {| net_header_len := 20; retrans_collapse := true |}.
Definition isn : Z := TcpClaims.Demo.isn0.
Definition stream : list Z := TcpClaims.Demo.stream.
(** Segments of five bytes. *)
Definition s0 : sndw := {|
  net := TcpClaims.Demo.w0 {{ tp ::= (fun t => t {{ cong ::= (fun g => g {{ snd_una := isn; snd_nxt := isn;
           snd_up := isn; snd_cwnd := 10; mss_cache := 5 }}) }}) }};
  snd_st := {| rtx_q := []; unsent_q := []; write_seq := isn; pushed_seq := isn; snd_sml := isn; nonagle := 0;
    wmem_queued := 0; wmem_alloc := 0; sndbuf := 16384; sndbuf_lock := false; send_shutdown := false;
    queue_shrunk := false; no_space := false; xmit_timer := None; total_retrans := 0; lost_retrans_low := 0;
    pmtu_cookie := 1500; snd_mss_clamp := 1460; ext_hdr_len := 0; sal_fins := 0 |} |}.
Definition after_run {A} (m : SM A) (w : sndw) : sndw := match m w with Ok (_, w') => w' | _ => w end.
(** The stream is written in two pieces, the first seven bytes are acknowledged,
    the rest of the second segment is sent again, and the connection is closed. *)
Definition s1 : sndw := after_run (serval_tcp_sendmsg false [take 7 stream; drop 7 stream]) s0.
Definition s2 : sndw := after_run (serval_tcp_ack_queue FLAG_SLOWPATH false isn isn (sq isn 7) 5840) s1.
Definition s3 : sndw :=
  match rtx_q (snd_st s2) with
  | s :: post => after_run (serval_tcp_retransmit_skb [] s post) s2
  | [] => s2
  end.
Definition s4 : sndw := after_run serval_tcp_connection_close (shut s3).

Lemma fresh_s0 : snd_fresh [] isn isn s0.
Proof.
  split; try done. split; [|by vm_compute]. exists 0, 0, 0.
  split; [by split|by vm_compute|]. split; try done; [by exists []|by exists []].
Qed.
Lemma sender_s1 : sender [] isn s0 s1 stream false.
Proof.
  apply (snd_write [] isn s0 s0 [] false false [take 7 stream; drop 7 stream] 12 s1);
    [constructor|by vm_compute| |by vm_compute]. by intros s.
Qed.
Lemma sender_s2 : sender [] isn s0 s2 stream false.
Proof.
  eapply (snd_ack [] isn s0 s1 stream false FLAG_SLOWPATH false isn isn (sq isn 7) 5840);
    [apply sender_s1|by vm_compute|by vm_compute].
Qed.
Lemma sender_s3 : sender [] isn s0 s3 stream false.
Proof.
  eapply (snd_again [] isn s0 s2 stream false [] (hd (Wskb (TxSkb 0 0 0 [] false 0 0) 0 0 0 0 0 false) (rtx_q (snd_st s2)))
    (tail (rtx_q (snd_st s2)))); [apply sender_s2|by vm_compute|by vm_compute].
Qed.
Lemma sender_s4 : sender [] isn s0 s4 stream true.
Proof.
  eapply (snd_close [] isn s0 s3 stream); [apply sender_s3|by vm_compute|done|by vm_compute].
Qed.
(** The second segment arrives first. *)
Definition frame_of (i : nat) : list Z := nth i (sent (net s4)) [].
Definition seg_of (i : nat) : tcp_seg :=
  match serval_tcp_rcv_checks false 16777226 33554442 100 600 (frame_of i) with
  | Some s => s
  | None => TcpClaims.Demo.piece 0 1
  end.
Definition r1 : tcpw := TcpClaims.Demo.step_to (seg_of 1) TcpClaims.Demo.w0.
Definition r2 : tcpw := TcpClaims.Demo.step_to (seg_of 0) r1.
Definition r3 : tcpw := TcpClaims.Demo.step_to (seg_of 2) r2.
Definition r4 : tcpw :=
  match serval_tcp_recvmsg 100 false r3 with Ok (_, _, r') => r' | _ => r3 end.
Lemma frame_in i : (i < 3)%nat -> frame_of i ∈ sent (net s4).
Proof. intros Hi. destruct i as [|[|[|i]]]; [vm_compute..|lia]; [left|right; left|right; right; left]. Qed.
Lemma delivered_r3 : delivered TcpClaims.Demo.w0 (sent (net s4)) r3 [].
Proof.
  apply (del_arrive _ _ r2 [] (frame_of 2) false 16777226 33554442 100 600 (seg_of 2));
    [|apply frame_in; lia|by vm_compute..].
  apply (del_arrive _ _ r1 [] (frame_of 0) false 16777226 33554442 100 600 (seg_of 0));
    [|apply frame_in; lia|by vm_compute..].
  apply (del_arrive _ _ TcpClaims.Demo.w0 [] (frame_of 1) false 16777226 33554442 100 600 (seg_of 1));
    [constructor|apply frame_in; lia|by vm_compute..].
Qed.
Lemma delivered_r4 : delivered TcpClaims.Demo.w0 (sent (net s4)) r4 stream.
Proof.
  eapply (del_read _ _ r3 [] 100 12 stream r4); [apply delivered_r3|by vm_compute|done|by vm_compute].
Qed.

Lemma tcp_write_queue_holds_witness :
  packets_out (cong (tp (net s4))) = 3 /\ never_stuck s4.
Proof.
  destruct (tcp_write_queue_holds [] isn isn s0 s4 stream true fresh_s0 sender_s4) as (_ & Hp & Hn).
  split; [rewrite Hp; vm_compute; reflexivity|exact Hn].
Defined.
Lemma tcp_end_to_end_witness :
  delivered TcpClaims.Demo.w0 (sent (net s4)) r4 stream /\ (exists k, stream = take k stream) /\
  (forall len, in_limits r4 -> 0 < len -> exists k got r', serval_tcp_recvmsg len false r4 = Ok (k, got, r')).
Proof.
  assert (Hlen : Z.of_nat (length stream) < 2 ^ 30 - 1) by reflexivity.
  destruct (tcp_end_to_end [] isn isn s0 TcpClaims.Demo.w0 s4 stream true r4 stream fresh_s0 sender_s4 Hlen
    TcpClaims.Demo.fresh0 delivered_r4) as (Hk & _ & Hr).
  split; [apply delivered_r4|]. split; [exact Hk|exact Hr].
Defined.

(** ** Bytes that are counted and not sent

    Three bytes are written and held back, a larger window raises the segment
    size from 5 to 1460, and nine bytes more are written.  The last segment has
    room for five of them: the other four are counted in its sequence numbers
    and in what [sendmsg] returns, and are never sent. *)
Definition b1 : sndw := after_run (serval_tcp_sendmsg true [take 3 stream]) s0.
Definition b2 : sndw := after_run (serval_tcp_ack_queue FLAG_SLOWPATH false 1 1 isn 6000) b1.
Definition b3 : sndw := after_run (serval_tcp_sendmsg false [drop 3 stream]) b2.
Lemma sendmsg_loses_bytes :
  sender [] isn s0 b2 (take 3 stream) false /\
  serval_tcp_sendmsg false [drop 3 stream] b2 = Ok (9, b3) /\
  concat (map (fun s => tx_data (wq s)) (rtx_q (snd_st b3) ++ unsent_q (snd_st b3))) = take 8 stream /\
  write_seq (snd_st b3) = sq isn 12.
Proof.
  split; [|split; [by vm_compute|by vm_compute]].
  eapply (snd_ack [] isn s0 b1 (take 3 stream) false FLAG_SLOWPATH false 1 1 isn 6000); [|by vm_compute|by vm_compute].
  apply (snd_write [] isn s0 s0 [] false true [take 3 stream] 3 b1); [constructor|by vm_compute| |by vm_compute].
  by intros s.
Qed.
End EndDemo.
