(* ===== verification/TcpTimerLive.v ===== *)
(** * A silent peer is given up

    Once a segment has been sent again, the retransmission timer is always
    pending, its timeouts double up to the largest, and when their sum has
    passed the connection is closed with an error. *)
From S2P Require Import Prelude SalHdr Checksum TcpSock TcpQueue TcpFrame TcpQueueOk TcpStream TcpCong TcpCongOk TcpOut TcpRecv TcpRecvOk TcpSend TcpTimer TcpWire TcpSendOk TcpXmitOk TcpRetransOk TcpFillOk TcpAckOk TcpSession TcpTimerOk TcpOpt TcpClaims TcpEnd.
Local Open Scope Z_scope.

Lemma waits_range n r : 0 <= r <= SERVAL_TCP_RTO_MAX -> 0 <= waits n r <= (Z.of_nat n + 1) * SERVAL_TCP_RTO_MAX.
Proof.
  revert r. induction n as [|n IH]; intros r Hr; cbn [waits]; [lia|].
  specialize (IH (Z.min (2 * r) SERVAL_TCP_RTO_MAX)). lia.
Qed.

(** The clock moves on to [t]. *)
Definition at_time (t : Z) (W : timw) : timw :=
  W {{ conn ::= (fun w => w {{ net ::= (fun n => n {{ jiffies := t }}) }}) }}.

Section Silent.
Context `{EOk : TcpEnvOk} `{SndEnv} `{TimEnv} (RSt : list Z) (risn : Z) (isn : Z) (w0 : sndw).
Context (Hfresh : snd_fresh RSt risn isn w0) (St : list Z) (c : bool).
Implicit Types (w : sndw) (W : timw) (q : list wskb).
Abbreviation sender := (sender RSt risn w0).
Abbreviation steps := (steps RSt risn w0 St c).
Abbreviation the_cong W := (cong (tp (net (conn W)))).

(** Nothing but the retransmission timer happens: it fires when it is due. *)
Inductive rings : timw -> timw -> Prop :=
| rings_none W : rings W W
| rings_one W what t r W1 W2 :
    xmit_timer (snd_st (conn W)) = Some (what, t) ->
    serval_tcp_write_timer false (at_time t W) = Ok (r, W1) -> rings W1 W2 -> rings W W2.

(** A connection with a user that waits for an acknowledgement behind an open
    window; its first segment was sent again at [start]. *)
Record waiting (start : Z) W : Prop := {
  wt_sender : sender (conn W) St c;
  wt_soft : 0 <= err_soft (tim W);
  wt_user : sock_dead (tp (net (conn W))) = false;
  wt_state : handshaking (tp (net (conn W))) = false /\ tcp_state (tp (net (conn W))) <> TCP_CLOSE;
  wt_unacked : snd_una (the_cong W) <> snd_nxt (the_cong W) /\ snd_wnd (the_cong W) <> 0;
  wt_start : retrans_stamp (the_cong W) = u32 start /\ u32 start <> 0;
  wt_rto : 1 <= rto (the_cong W) <= SERVAL_TCP_RTO_MAX /\ 1 <= __serval_tcp_set_rto (the_cong W);
}.
Definition limit : Z := waits (Z.to_nat tcp_retries2) SERVAL_TCP_RTO_MIN.
(** Later retransmissions are two minutes apart. *)
Definition paced (start : Z) W (t : Z) : Prop :=
  let r := retransmits (tim W) in
  start <= t <= start + limit + SERVAL_TCP_RTO_MAX /\ 1 <= r /\ SERVAL_TCP_RTO_MAX * (r - 20) <= t - start /\
  (7 <= r -> Z.min SERVAL_TCP_RTO_MAX (2 ^ (r - 7)) <= rto (the_cong W)).

(** Something is unacknowledged exactly when segments are counted. *)
Lemma unacked_pkts w : sender w St c ->
  snd_una (cong (tp (net w))) <> snd_nxt (cong (tp (net w))) -> pkts w <> 0.
Proof.
  intros Hw Hne. destruct (sender_live RSt risn isn w0 w St c Hfresh Hw) as (a & u & n & Hs & Hc & _).
  destruct (sd_rtx _ _ _ _ _ _ _ _ _ Hs) as (l & Hl & Hadj & _). unfold counted in Hc. rewrite Hc.
  destruct (rtx_q (snd_st w)) as [|s q]; [|simpl; lia]. apply Forall2_nil_inv_l in Hl as ->. simpl in Hadj.
  pose proof (sd_order _ _ _ _ _ _ _ _ _ Hs). exfalso. apply Hne.
  rewrite (sd_una _ _ _ _ _ _ _ _ _ Hs), (sd_nxt _ _ _ _ _ _ _ _ _ Hs). f_equal. lia.
Qed.
Lemma at_time_sender t W : sender (conn W) St c -> sender (conn (at_time t W)) St c.
Proof.
  intros HW. destruct (live_fine _ _ _ _ _ _ (sender_alive RSt risn isn w0 Hfresh St c _ HW)) as [Hf Hm].
  apply (snd_other _ _ _ (conn W)); [done|]. destruct W as [[n x] k]. split; try done.
  - apply (fine_receiver RSt risn n); [done|apply Hf|done].
  - exists []. by rewrite app_nil_r.
Qed.

(** ** After a retransmission *)
Definition armed W W' (r' t' : Z) : Prop :=
  waited (the_cong W') = waited ((the_cong W) {{ rto := r' }}) /\
  retrans_stamp (the_cong W') = retrans_stamp (the_cong W) /\
  (tcp_state (tp (net (conn W'))), sock_dead (tp (net (conn W'))), jiffies (net (conn W'))) =
  (tcp_state (tp (net (conn W))), sock_dead (tp (net (conn W))), jiffies (net (conn W))) /\
  xmit_timer (snd_st (conn W')) = Some (STSK_TIME_RETRANS, t') /\
  (err_soft (tim W'), error_reports (tim W')) = (err_soft (tim W), error_reports (tim W)).
Lemma next_rto_ok t k g : exists r',
  waited (next_rto t k g) = waited (g {{ rto := r' }}) /\ rto (next_rto t k g) = r' /\
  retrans_stamp (next_rto t k g) = retrans_stamp g /\
  (r' = Z.min (u32 (Z.shiftl (rto g) 1)) SERVAL_TCP_RTO_MAX \/
   retransmits k <= TCP_THIN_LINEAR_RETRIES /\ r' = Z.min (__serval_tcp_set_rto g) SERVAL_TCP_RTO_MAX).
Proof.
  unfold next_rto. destruct (_ && _) eqn:E; eexists; split_and!; try done; [right|by left].
  apply andb_true_iff in E as [_ E]. split; [|done]. by apply Z.leb_le.
Qed.
Lemma reset_armed W :
  wp out_reset_timer W (fun _ W' => exists r', armed W W' r' (jiffies (net (conn W)) + Z.min r' SERVAL_TCP_RTO_MAX) /\
    retransmits (tim W') = retransmits (tim W) /\
    (r' = Z.min (u32 (Z.shiftl (rto (the_cong W)) 1)) SERVAL_TCP_RTO_MAX \/
     retransmits (tim W) <= TCP_THIN_LINEAR_RETRIES /\ r' = Z.min (__serval_tcp_set_rto (the_cong W)) SERVAL_TCP_RTO_MAX)).
Proof.
  unfold out_reset_timer. apply wp_bind, wp_tcp_of, wp_bind, wp_gets, wp_bind, wp_on_conn, wp_lift, wp_modS.
  destruct W as [[n x] k]. cbn [conn net tim]. destruct (next_rto_ok (tp n) k (cong (tp n))) as (r' & Hw & Hr & Hs & Hv).
  apply wp_bind, wp_tcp_of, wp_on_conn, wp_bind, wp_getS, wp_modS. exists r'. split; [|done].
  split_and!; try done. rewrite <- Hr. done.
Qed.
Lemma after_armed err W : 1 <= retransmits (tim W) < 255 ->
  wp (after_retransmit err) W (fun _ W' => exists r' t', armed W W' r' t' /\
    ((r' = rto (the_cong W) /\ t' = jiffies (net (conn W)) + Z.min (Z.min r' 50) SERVAL_TCP_RTO_MAX /\
      retransmits (tim W') = retransmits (tim W)) \/
     (t' = jiffies (net (conn W)) + Z.min r' SERVAL_TCP_RTO_MAX /\ retransmits (tim W') = retransmits (tim W) + 1 /\
      (r' = Z.min (u32 (Z.shiftl (rto (the_cong W)) 1)) SERVAL_TCP_RTO_MAX \/
       retransmits (tim W') <= TCP_THIN_LINEAR_RETRIES /\ r' = Z.min (__serval_tcp_set_rto (the_cong W)) SERVAL_TCP_RTO_MAX)))).
Proof.
  intros Hr. destruct W as [[n x] k]. cbn [tim conn net] in *. unfold after_retransmit. destruct (0 <? err).
  - apply wp_bind, wp_modS, wp_bind, wp_tcp_of, wp_on_conn, wp_bind, wp_getS, wp_modS.
    exists (rto (cong (tp n))), (jiffies n + Z.min (Z.min (rto (cong (tp n))) 50) SERVAL_TCP_RTO_MAX).
    assert (Hz : (retransmits k =? 0) = false) by lia. split; [split_and!; try done|left; split_and!; try done].
    + change ((err_soft (if retransmits k =? 0 then k {{ retransmits := 1 }} else k),
        error_reports (if retransmits k =? 0 then k {{ retransmits := 1 }} else k)) = (err_soft k, error_reports k)). by rewrite Hz.
    + change (retransmits (if retransmits k =? 0 then k {{ retransmits := 1 }} else k) = retransmits k). by rewrite Hz.
  - apply wp_bind, wp_on_conn, wp_lift, wp_modS, wp_bind, wp_modS. set (W1 := _ {{ tim ::= _ }}).
    assert (E1 : retransmits (tim W1) = retransmits k + 1).
    { change (u8 (retransmits k + 1) = retransmits k + 1). unfold u8. apply Z.mod_small. lia. }
    eapply wp_mono; [apply reset_armed|]. intros [] W2 (r' & (A1 & A2 & A3 & A4 & A5) & A6 & A7).
    exists r', (jiffies n + Z.min r' SERVAL_TCP_RTO_MAX). split; [by split_and!|]. right. split; [done|].
    rewrite A6, E1. split; [done|]. rewrite E1 in A7. exact A7.
Qed.

(** ** The pace *)
Lemma double_rto r : 1 <= r <= SERVAL_TCP_RTO_MAX -> Z.min (u32 (Z.shiftl r 1)) SERVAL_TCP_RTO_MAX = Z.min (2 * r) SERVAL_TCP_RTO_MAX.
Proof.
  unfold SERVAL_TCP_RTO_MAX. intros Hr. rewrite Z.shiftl_mul_pow2 by lia. change (2 ^ 1) with 2.
  rewrite u32_id by lia. lia.
Qed.
Lemma pace_late r rto : 20 <= r -> Z.min SERVAL_TCP_RTO_MAX (2 ^ (r - 7)) <= rto -> SERVAL_TCP_RTO_MAX <= 2 * rto.
Proof.
  intros Hr Hrto. assert (2 ^ 13 <= 2 ^ (r - 7)) by (apply Z.pow_le_mono_r; lia). unfold SERVAL_TCP_RTO_MAX in *. lia.
Qed.
Lemma pace_double r rto : 6 <= r -> 1 <= rto -> (7 <= r -> Z.min SERVAL_TCP_RTO_MAX (2 ^ (r - 7)) <= rto) ->
  Z.min SERVAL_TCP_RTO_MAX (2 ^ (r + 1 - 7)) <= Z.min (2 * rto) SERVAL_TCP_RTO_MAX.
Proof.
  intros Hr H1 H7. destruct (decide (r = 6)) as [->|]; [change (2 ^ (6 + 1 - 7)) with 1; unfold SERVAL_TCP_RTO_MAX; lia|].
  specialize (H7 ltac:(lia)). replace (r + 1 - 7) with (1 + (r - 7)) by lia. rewrite Z.pow_add_r by lia.
  change (2 ^ 1) with 2. pose proof (Z.pow_pos_nonneg 2 (r - 7)). lia.
Qed.
Lemma paced_next start W W' r' t t' :
  paced start W t -> 1 <= rto (the_cong W) <= SERVAL_TCP_RTO_MAX -> 1 <= __serval_tcp_set_rto (the_cong W) ->
  t - start < limit -> rto (the_cong W') = r' ->
  (r' = rto (the_cong W) /\ t' = t + Z.min (Z.min r' 50) SERVAL_TCP_RTO_MAX /\ retransmits (tim W') = retransmits (tim W)) \/
  (t' = t + Z.min r' SERVAL_TCP_RTO_MAX /\ retransmits (tim W') = retransmits (tim W) + 1 /\
   (r' = Z.min (u32 (Z.shiftl (rto (the_cong W)) 1)) SERVAL_TCP_RTO_MAX \/
    retransmits (tim W') <= TCP_THIN_LINEAR_RETRIES /\ r' = Z.min (__serval_tcp_set_rto (the_cong W)) SERVAL_TCP_RTO_MAX)) ->
  t < t' /\ 1 <= r' <= SERVAL_TCP_RTO_MAX /\ paced start W' t'.
Proof.
  intros (Ht & Hr & Hlate & Hpow) Hrto Hset Hlim Er Hcase. unfold paced. rewrite Er.
  destruct Hcase as [(-> & -> & ->)|(-> & -> & Hcase)]; [unfold SERVAL_TCP_RTO_MAX in *; split_and!; try lia; exact Hpow|].
  destruct Hcase as [->|[Hthin ->]].
  2: { unfold TCP_THIN_LINEAR_RETRIES, SERVAL_TCP_RTO_MAX in *. split_and!; lia. }
  rewrite double_rto by done. pose proof (pace_late (retransmits (tim W)) (rto (the_cong W))) as Hl.
  pose proof (pace_double (retransmits (tim W)) (rto (the_cong W))) as Hd.
  unfold SERVAL_TCP_RTO_MAX in *. split_and!; try lia.
Qed.

(** ** The timer fires *)
Lemma limit_ok : 0 <= tcp_retries2 <= 200 ->
  backoff_timeout tcp_retries2 false = limit /\ 0 <= limit <= 201 * SERVAL_TCP_RTO_MAX.
Proof.
  intros Hr. unfold limit. rewrite <- (timeout_sum (Z.to_nat tcp_retries2) false) by lia.
  rewrite Z2Nat.id by lia. split; [done|]. rewrite <- (Z2Nat.id tcp_retries2) by lia.
  rewrite (timeout_sum (Z.to_nat tcp_retries2) false) by lia.
  pose proof (waits_range (Z.to_nat tcp_retries2) (first_rto false)) as Hw. unfold first_rto in *.
  unfold SERVAL_TCP_RTO_MIN, SERVAL_TCP_RTO_MAX in *. lia.
Qed.
Lemma expired_iff start W : 0 <= tcp_retries2 <= 200 -> 1 <= retransmits (tim W) ->
  retrans_stamp (the_cong W) = u32 start -> u32 start <> 0 -> 0 <= jiffies (net (conn W)) - start < 2 ^ 32 ->
  expired tcp_retries2 false W = (limit <=? jiffies (net (conn W)) - start).
Proof.
  intros Hret Hr Hs Hz Hj. unfold expired, start_stamp. rewrite Hs.
  replace (retransmits (tim W) =? 0) with false by lia. replace (u32 start =? 0) with false by lia.
  rewrite (proj1 (limit_ok Hret)), u32_minus, u32_id by lia. done.
Qed.
(** The connection is closed and its user told. *)
Definition timed_out W W' : Prop :=
  tcp_state (tp (net (conn W'))) = TCP_CLOSE /\
  sk_err (tp (net (conn W'))) = (if err_soft (tim W) =? 0 then ETIMEDOUT else err_soft (tim W)) /\
  error_reports (tim W') = S (error_reports (tim W)).
Lemma waiting_kept start W W1 : waiting start W -> sender (conn W1) St c -> steady_snd (conn W) (conn W1) ->
  err_soft (tim W1) = err_soft (tim W) -> waiting start W1.
Proof.
  intros [H1 H2 H3 H4 H5 [H6 Hz] H7] Hs [E Est] Es. injection E as E1 E2 E3 E4 E5 E6 E7 E8 E9 E10 _.
  rewrite H6 in Est. specialize (Est Hz).
  split; [done|congruence|congruence| | |split; [congruence|done]|].
  - unfold handshaking in *. by rewrite E7.
  - by rewrite E1, E2, E3.
  - unfold __serval_tcp_set_rto in *. by rewrite E4, E5, E6.
Qed.
Lemma retransmit_fire start W t : 0 <= tcp_retries2 <= 200 ->
  waiting start W -> paced start W t -> jiffies (net (conn W)) = t ->
  wp serval_tcp_retransmit_timer W (fun _ W' => sender (conn W') St c /\
    ((timed_out W W' /\ limit <= t - start /\ jiffies (net (conn W')) = t) \/
     exists t', t < t' /\ waiting start W' /\ paced start W' t' /\
       xmit_timer (snd_st (conn W')) = Some (STSK_TIME_RETRANS, t') /\
       err_soft (tim W') = err_soft (tim W) /\ error_reports (tim W') = error_reports (tim W))).
Proof.
  intros Hret Hwait Hpace Hj. pose proof Hwait as [HW Hsoft Huser [Hhs Hst] [Hun Hwnd] [Hstamp Hz] [Hrto Hset]].
  pose proof (limit_ok Hret) as [_ Hlim]. unfold serval_tcp_retransmit_timer.
  apply wp_bind, wp_tcp_of, wp_bind, wp_gets, wp_bind, wp_now_stamp.
  replace (packets_out (the_cong W) =? 0) with false.
  2: { symmetry. apply Z.eqb_neq. exact (unacked_pkts _ HW Hun). }
  replace (snd_wnd (the_cong W) =? 0) with false by lia. cbn [andb]. apply wp_bind.
  eapply wp_mono; [by apply (write_timeout_ok RSt risn isn w0 Hfresh St c)|].
  intros gone W1 (W1' & b & Hk & Hgone & Hg & Hb). rewrite (Hb Hhs Huser) in Hgone.
  destruct Hk as (HW1 & Hst1 & Ht1 & _ & _). injection Ht1 as Er1 Es1 Ee1 _ _.
  pose proof (waiting_kept _ _ _ Hwait HW1 Hst1 Es1) as Hwait1.
  assert (Hj1 : jiffies (net (conn W1')) = t) by (destruct Hst1 as [E _]; injection E as ???????????; congruence).
  destruct Hpace as (Ht & Hr & Hlate & Hpow). rewrite (expired_iff start) in Hgone;
    [|done|by rewrite Er1|apply Hwait1|done|unfold SERVAL_TCP_RTO_MAX in *; rewrite Hj1; lia].
  rewrite Hj1 in Hgone. destruct (Z.leb_spec limit (t - start)) as [Hend|Hgo]; subst gone.
  - apply wp_ret. unfold over in Hg. rewrite (wt_user _ _ Hwait1) in Hg.
    destruct Hg as (HW2 & Hcl & Hj2 & He2 & Hn2 & _). split; [done|]. left. split; [|split; [done|congruence]].
    split; [done|]. by rewrite He2, Es1, Hn2, Ee1.
  - subst W1. apply wp_bind. eapply wp_mono; [by apply (enter_loss_ok RSt risn isn w0 Hfresh St c)|].
    intros [] W2 (HW2 & Hst2 & _ & _ & Ht2).
    assert (Hwait2 : waiting start W2) by (apply (waiting_kept _ W1'); [done..|rewrite Ht2; by destruct (tim W1')]).
    apply wp_bind. eapply wp_mono; [apply (head_ok RSt risn isn w0 Hfresh St c); [done|apply (unacked_pkts _ HW2), Hwait2]|].
    intros err W3 (HW3 & Hst3 & Ht3).
    assert (Hwait3 : waiting start W3) by (apply (waiting_kept _ W2); [done..|by rewrite Ht3]).
    assert (Er3 : retransmits (tim W3) = retransmits (tim W)) by (rewrite Ht3, Ht2; exact Er1).
    assert (Ep3 : rto (the_cong W3) = rto (the_cong W) /\ __serval_tcp_set_rto (the_cong W3) = __serval_tcp_set_rto (the_cong W) /\
      jiffies (net (conn W3)) = t).
    { destruct Hst1 as [E1 _], Hst2 as [E2 _], Hst3 as [E3 _]. injection E1 as ???????????. injection E2 as ???????????.
      injection E3 as ???????????. unfold __serval_tcp_set_rto. split_and!; congruence. }
    destruct Ep3 as (Ep3 & Eq3 & Hj3).
    eapply wp_mono; [apply wp_and; [by apply (after_steps RSt risn isn w0 Hfresh St c)|apply after_armed; rewrite Er3]|].
    { unfold SERVAL_TCP_RTO_MAX in *. lia. }
    intros [] W4 [[HW4 _] (r' & t' & (A1 & A2 & A3 & A4 & A5) & Hcase)]. split; [done|]. right. exists t'.
    injection A1 as B1 B2 B3 B4 B5 B6. injection A3 as B7 B8 B9. injection A5 as A5 A6. rewrite Hj3, Ep3, Eq3, Er3 in Hcase.
    destruct (paced_next start W W4 r' t t') as (Hlt & Hr' & Hpace'); [by unfold paced|done|done|done|done|exact Hcase|].
    split_and!; try done.
    + destruct Hwait3 as [_ ? ? [? ?] [? ?] [? ?] [? ?]].
      split; [done|congruence|congruence| | |split; congruence|].
      * unfold handshaking in *. by rewrite B7.
      * by rewrite B1, B2, B3.
      * unfold __serval_tcp_set_rto in *. rewrite B4, B5, B6. done.
    + rewrite A5, Ht3, Ht2. exact Es1.
    + rewrite A6, Ht3, Ht2. exact Ee1.
Qed.

(** Returning memory changes nothing of this. *)
Lemma reclaim_ok W : sender (conn W) St c ->
  wp (on_conn (lift sk_mem_reclaim)) W (fun _ W' => sender (conn W') St c /\ steady_snd (conn W) (conn W') /\
    tim W' = tim W /\ snd_st (conn W') = snd_st (conn W)).
Proof.
  intros HW.
  assert (Hv : wp (on_conn (lift sk_mem_reclaim)) W (fun _ W' =>
    steady_snd (conn W) (conn W') /\ tim W' = tim W /\ snd_st (conn W') = snd_st (conn W))).
  { destruct W as [[n x] k]. apply wp_on_conn, wp_lift. unfold sk_mem_reclaim. apply wp_bind, wp_gets.
    destruct (_ <=? _); [|by apply wp_ret]. apply wp_bind, wp_modS, wp_modS. by destruct (_ && _). }
  pose proof (reclaim_steps RSt risn isn w0 Hfresh St c W HW) as Hs.
  eapply wp_mono; [apply (wp_and _ _ _ _ Hs Hv)|]. intros [] W' [[? _] (? & ? & ?)]. by split_and!.
Qed.
Lemma write_fire start W t : 0 <= tcp_retries2 <= 200 ->
  waiting start W -> paced start W t -> xmit_timer (snd_st (conn W)) = Some (STSK_TIME_RETRANS, t) ->
  wp (serval_tcp_write_timer false) (at_time t W) (fun _ W' =>
    (timed_out W W' /\ limit <= t - start /\ jiffies (net (conn W')) = t) \/
     exists t', t < t' /\ waiting start W' /\ paced start W' t' /\
       xmit_timer (snd_st (conn W')) = Some (STSK_TIME_RETRANS, t') /\
       err_soft (tim W') = err_soft (tim W) /\ error_reports (tim W') = error_reports (tim W)).
Proof.
  intros Hret Hwait Hpace Htim. pose proof (at_time_sender t W (wt_sender _ _ Hwait)) as HW0.
  set (W0 := at_time t W) in *. unfold serval_tcp_write_timer. apply wp_bind, wp_gets, wp_bind, wp_tcp_of, wp_bind, wp_snd_of.
  assert (Hx : xmit_timer (snd_st (conn W0)) = Some (STSK_TIME_RETRANS, t)) by (by destruct W as [[n x] k]).
  rewrite Hx. cbn [negb]. replace (tcp_state (tp (net (conn W0))) =? TCP_CLOSE) with false.
  2: { symmetry. apply Z.eqb_neq. destruct W as [[n x] k]. apply Hwait. }
  replace (time_after t (jiffies (net (conn W0)))) with false.
  2: { change (false = (s64 (t - t) <? 0)). by rewrite Z.sub_diag. }
  apply wp_bind, wp_bind. pose proof (clear_steps RSt risn isn w0 Hfresh St c W0 HW0) as Hclear.
  apply wp_on_conn, wp_modS. set (W1 := W0 {{ conn := _ }}).
  assert (HW1 : sender (conn W1) St c) by (by apply Hclear). clear Hclear.
  assert (Hj1 : jiffies (net (conn W1)) = t) by done. assert (Ht1 : tim W1 = tim W) by done.
  assert (Hc1 : the_cong W1 = the_cong W) by done.
  assert (Hwait1 : waiting start W1).
  { destruct Hwait as [_ ? ? ? ? ? ?]. split; rewrite ?Ht1, ?Hc1; done. }
  assert (Hpace1 : paced start W1 t) by (unfold paced in *; by rewrite Ht1, Hc1). clearbody W1.
  change (STSK_TIME_RETRANS =? STSK_TIME_RETRANS) with true. cbv iota. apply wp_bind.
  eapply wp_mono; [by apply (retransmit_fire start W1 t)|]. intros [] W2 [HW2 Hr]. apply wp_ret, wp_bind.
  eapply wp_mono; [by apply reclaim_ok|]. intros [] W3 (HW3 & Hst & Ht3 & Hs3). apply wp_ret.
  unfold timed_out, paced in *. rewrite Ht3, Hs3, Ht1 in *.
  destruct Hr as [((Hcl & He & Hn) & Hlim & Hj)|(t' & Hlt & Hw2 & Hp2 & Hx2 & Hs2 & He2)].
  - left. destruct Hst as [E _]. injection E as ???????????. split_and!; congruence.
  - right. exists t'. split; [done|]. split; [by apply (waiting_kept _ W2); [..|by rewrite Ht3]|].
    assert (E : rto (the_cong W3) = rto (the_cong W2)) by (destruct Hst as [E _]; by injection E as ???????????).
    by rewrite E.
Qed.
Lemma rings_until start n : 0 <= tcp_retries2 <= 200 -> forall W t,
  (Z.to_nat (start + limit + SERVAL_TCP_RTO_MAX - t) < n)%nat ->
  waiting start W -> paced start W t -> xmit_timer (snd_st (conn W)) = Some (STSK_TIME_RETRANS, t) ->
  exists W', rings W W' /\ timed_out W W' /\
    start + limit <= jiffies (net (conn W')) <= start + limit + SERVAL_TCP_RTO_MAX.
Proof.
  intros Hret. induction n as [|n IH]; intros W t Hn Hwait Hpace Htim; [lia|].
  pose proof (write_fire start W t Hret Hwait Hpace Htim) as Hf. apply wp_run in Hf as (r & W1 & Hrun & Hf).
  destruct Hpace as [Ht _]. destruct Hf as [(Hout & Hlim & Hj)|(t' & Hlt & Hw1 & Hp1 & Hx1 & Hs1 & He1)].
  - exists W1. split; [by eapply rings_one; [..|apply rings_none]|]. split; [done|]. rewrite Hj. lia.
  - destruct (IH W1 t') as (W' & Hr & (H1 & H2 & H3) & Hj); try done.
    { destruct Hp1 as [Ht' _]. lia. }
    exists W'. split; [by eapply rings_one|]. split; [|done]. split; [done|]. by rewrite H2, Hs1, H3, He1.
Qed.
(** C6 (liveness): a connection whose peer has fallen silent is given up.  Once
    its first segment has been sent again, at [start], and nothing but its
    retransmission timer happens any more, the timer fires again and again, at
    the timeouts the code sets, until the connection is closed and its user is
    told of the timeout, whatever becomes of the transmissions and allocations
    in between.  That is not before the sum of the timeouts that double, from
    the smallest on, for the number of retries that is set, and at most two
    minutes after it. *)
Theorem silent_peer_times_out start W t :
  0 <= tcp_retries2 <= 200 -> waiting start W ->
  xmit_timer (snd_st (conn W)) = Some (STSK_TIME_RETRANS, t) -> start <= t <= start + SERVAL_TCP_RTO_MAX ->
  1 <= retransmits (tim W) <= 6 ->
  exists W', rings W W' /\ timed_out W W' /\
    start + waits (Z.to_nat tcp_retries2) SERVAL_TCP_RTO_MIN <= jiffies (net (conn W')) <=
    start + waits (Z.to_nat tcp_retries2) SERVAL_TCP_RTO_MIN + SERVAL_TCP_RTO_MAX.
Proof.
  intros Hret Hwait Htim Ht Hr. pose proof (limit_ok Hret) as [_ Hlim].
  apply (rings_until start (S (Z.to_nat (start + limit + SERVAL_TCP_RTO_MAX - t))) Hret W t); try done; [lia|].
  unfold paced. unfold SERVAL_TCP_RTO_MAX in *. split_and!; lia.
Qed.
End Silent.

(** ** A run *)
Module TimerDemo.
Import TcpEnd.EndDemo.
#[local] Existing Instances TcpClaims.Demo.denv TcpClaims.Demo.denv_ok TcpEnd.EndDemo.dsnd.
#[local] Instance dtim : TimEnv := {|
  tcp_retries1 := 3; tcp_retries2 := 15; tcp_orphan_retries := 0; thin_linear_timeouts := false;
  tcp_mtu_probing := false; tcp_base_mss := 512; tcp_reordering := 3 |}.
Definition c0 : sndw := s0 {{ net ::= (fun n => n {{ jiffies := 1000; tp ::= (fun t => t {{ tcp_state := TCP_ESTABLISHED;
  cong ::= (fun g => g {{ snd_wnd := 5840; rto := 100; rttvar := 100; srtt := 0 }}) }}) }}) }}.
Definition k0 : tcp_tim := {|
  retransmits := 0; probes_out := 0; err_soft := 0; rcv_tstamp := 1000; thin_lto := false; mtup_enabled := false;
  mtup_search_low := 0; retransmit_high := 0; snd_mig_last := 0; keepalive_timer := None; destroyed := false;
  sal_resets := 0; error_reports := 0; state_changes := 0; prunings := 0 |}.
Definition ring (W : timw) : timw :=
  match xmit_timer (snd_st (conn W)) with
  | Some (_, t) => match serval_tcp_write_timer false (at_time t W) with Ok (_, W') => W' | _ => W end
  | None => W
  end.
(** Twelve bytes are written; the timer fires once. *)
Definition c1 : timw := TimW (after_run (serval_tcp_sendmsg false [stream]) c0) k0.
Definition c2 : timw := ring c1.
Fixpoint ring_n (n : nat) (W : timw) : timw := match n with O => W | S n => ring_n n (ring W) end.
Lemma ring_rings n W : rings W (ring_n n W).
Proof.
  revert W. induction n as [|n IH]; intros W; [constructor|]. simpl. unfold ring.
  destruct (xmit_timer (snd_st (conn W))) as [[what t]|] eqn:E; [|done].
  destruct (serval_tcp_write_timer false (at_time t W)) as [[r W1]| |] eqn:Er; [|done..].
  by eapply rings_one.
Qed.
Lemma fresh_c0 : snd_fresh [] isn isn c0.
Proof.
  split; try done. split; [|by vm_compute]. exists 0, 0, 0.
  split; [by split|by vm_compute|]. split; try done; [by exists []|by exists []].
Qed.
Lemma sender_c1 : sender [] isn c0 (conn c1) stream false.
Proof.
  apply (snd_write [] isn c0 c0 [] false false [stream] 12 (conn c1)); [constructor|by vm_compute| |by vm_compute].
  by intros s.
Qed.
(** The first firing of the timer of a connection is a step of its sender. *)
Lemma sender_ring w0 W W' St :
  snd_fresh [] isn isn w0 -> sender [] isn w0 (conn W) St false -> 0 <= err_soft (tim W) ->
  sock_dead (tp (net (conn W))) = false -> 0 <= the_backoff W <= 30 ->
  serval_tcp_write_timer false (at_time 1100 W) = Ok (None, W') -> sender [] isn w0 (conn W') St false.
Proof.
  intros Hf HW Hs Hd Hp Hr.
  assert (Hpr : probe_pending (at_time 1100 W) = true -> 0 <= the_backoff (at_time 1100 W) <= 30) by done.
  pose proof (write_timer_ok [] isn isn w0 Hf St false false (at_time 1100 W)
    (at_time_sender [] isn isn w0 Hf St false 1100 W HW) Hs Hpr) as Hw. unfold wp in Hw. rewrite Hr in Hw.
  destruct Hw as [?|[Hdead _]]; [done|]. change (sock_dead (tp (net (conn W))) = true) in Hdead. congruence.
Qed.
Lemma sender_c2 : sender [] isn c0 (conn c2) stream false.
Proof. apply (sender_ring c0 c1 c2 stream fresh_c0 sender_c1); by vm_compute. Qed.
Lemma waiting_c2 : waiting [] isn c0 stream false 1100 c2.
Proof. split; [apply sender_c2|by vm_compute..]. Qed.

Lemma timeout_is_backed_off_witness : retransmits_timed_out 15 false c2 = Ok (92460 <=? 0, c2).
Proof.
  refine (timeout_is_backed_off 15 false c2 1100 _ _ _); vm_compute; first [discriminate|reflexivity].
Defined.
Lemma tcp_timers_safe_witness : exists W',
  handle (WriteTimer false) (at_time 1100 c1) = Ok (tt, W') /\
  (sender [] isn c0 (conn W') stream false \/
   sock_dead (tp (net (conn (at_time 1100 c1)))) = true /\ destroyed (tim W') = true).
Proof.
  apply (tcp_timers_safe [] isn isn c0 fresh_c0 stream false (WriteTimer false) (at_time 1100 c1)).
  - apply (at_time_sender [] isn isn c0 fresh_c0), sender_c1.
  - vm_compute. discriminate.
  - intros Hp. vm_compute in Hp. discriminate Hp.
Defined.
Lemma silent_peer_times_out_witness : exists W',
  rings c2 W' /\ timed_out c2 W' /\ 1100 + 92460 <= jiffies (net (conn W')) <= 1100 + 92460 + SERVAL_TCP_RTO_MAX.
Proof.
  assert (E : waits (Z.to_nat tcp_retries2) SERVAL_TCP_RTO_MIN = 92460) by (vm_compute; reflexivity). rewrite <- E.
  apply (silent_peer_times_out [] isn isn c0 fresh_c0 stream false 1100 c2 1300).
  - vm_compute. split; discriminate.
  - apply waiting_c2.
  - reflexivity.
  - vm_compute. split; discriminate.
  - vm_compute. split; discriminate.
Defined.

(** ** A link that refuses

    The time until a connection is given up is counted from the first
    retransmission, and, while none has succeeded, from when the first segment
    was last given to the SAL, which every attempt moves: when every attempt
    fails with an error, the timer goes on for ever.  Three hundred firings and
    nearly ten hours later the connection is still open. *)
Definition refused : timw :=
  c1 {{ conn ::= (fun w => w {{ net ::= (fun n => n {{ xmit_results := repeat (-101) 400 }}) }}) }}.
Lemma refused_goes_on :
  rings refused (ring_n 300 refused) /\ tcp_state (tp (net (conn (ring_n 300 refused)))) = TCP_ESTABLISHED /\
  sk_err (tp (net (conn (ring_n 300 refused)))) = 0 /\
  38 * waits 15 SERVAL_TCP_RTO_MIN < jiffies (net (conn (ring_n 300 refused))) - jiffies (net (conn refused)).
Proof. split; [apply ring_rings|]. by vm_compute. Qed.

(** ** A probe that loses bytes

    The window has room for three of twelve bytes that are written.  The probe
    cuts the segment there; the rest is in a buffer of its own, cut to its size.
    Twelve bytes more are written: the last segment has room for three of them,
    and the other nine are counted and never sent. *)
Definition p0 : sndw :=
  c0 {{ net ::= (fun n => n {{ tp ::= (fun t => t {{ cong ::= (fun g => g {{ snd_wnd := 3; mss_cache := 1460 }}) }}) }}) }}.
Definition p1 : timw := TimW (after_run (serval_tcp_sendmsg false [stream]) p0) k0.
Definition p2 : timw := ring p1.
Definition p3 : sndw := after_run (serval_tcp_sendmsg false [stream]) (conn p2).
Lemma fresh_p0 : snd_fresh [] isn isn p0.
Proof.
  split; try done. split; [|by vm_compute]. exists 0, 0, 0.
  split; [by split|by vm_compute|]. split; try done; [by exists []|by exists []].
Qed.
Lemma probe_then_write_loses_bytes :
  sender [] isn p0 (conn p2) stream false /\ serval_tcp_sendmsg false [stream] (conn p2) = Ok (12, p3) /\
  concat (map (fun s => tx_data (wq s)) (rtx_q (snd_st p3) ++ unsent_q (snd_st p3))) = stream ++ take 3 stream /\
  write_seq (snd_st p3) = sq isn 24.
Proof.
  split; [|split; [by vm_compute|by vm_compute]].
  apply (sender_ring p0 p1 p2 stream fresh_p0); [|by vm_compute..].
  apply (snd_write [] isn p0 p0 [] false false [stream] 12 (conn p1)); [constructor|by vm_compute| |by vm_compute].
  by intros s.
Qed.
End TimerDemo.
