(* ===== verification/Hash.v ===== *)
(** * The hash functions of the tables (include/common/hash.h)

    [u32] and [u64] arithmetic with its wrap-around; [unsigned long] has 64
    bits.  A shift by the width of its operand or more is undefined, and [None]
    here; so is a read behind the end of the bytes. *)
From S2P Require Import Prelude.
Local Open Scope Z_scope.

Definition GOLDEN_RATIO_PRIME_32 : Z := 0x9e370001.
Definition GOLDEN_RATIO_PRIME_64 : Z := 0x9e37fffffffc0001.

(** [x >> n] on [w] bits, with [n] computed in an unsigned int. *)
Definition shr (w x n : Z) : option Z :=
  if u32 n <? w then Some (Z.shiftr x (u32 n)) else None.

Definition hash_64 (val bits : Z) : option Z :=
  let hash := val in
  let n := hash in
  let n := u64 (Z.shiftl n 18) in
  let hash := u64 (hash - n) in
  let n := u64 (Z.shiftl n 33) in
  let hash := u64 (hash - n) in
  let n := u64 (Z.shiftl n 3) in
  let hash := u64 (hash + n) in
  let n := u64 (Z.shiftl n 3) in
  let hash := u64 (hash - n) in
  let n := u64 (Z.shiftl n 4) in
  let hash := u64 (hash + n) in
  let n := u64 (Z.shiftl n 2) in
  let hash := u64 (hash + n) in
  shr 64 hash (64 - bits).

Definition hash_32 (val bits : Z) : option Z :=
  let hash := u32 (u64 (val * GOLDEN_RATIO_PRIME_32)) in
  shr 32 hash (32 - bits).

Definition init_name_hash : Z := 0.
Definition partial_name_hash (c prevhash : Z) : Z :=
  u64 (u64 (u64 (prevhash + u64 (Z.shiftl c 4)) + Z.shiftr c 4) * 11).
Definition end_name_hash (hash : Z) : Z := u32 hash.

(** A [char] as an [unsigned long]: its sign is extended. *)
Definition char_ulong (c : Z) : Z := u64 (if c <? 128 then c else c - 256).

Fixpoint name_hash_loop (name : list Z) (len : nat) (hash : Z) : option Z :=
  match len, name with
  | O, _ => Some hash
  | S len, c :: name => name_hash_loop name len (partial_name_hash (char_ulong c) hash)
  | S _, [] => None
  end.
Definition full_name_hash (name : list Z) (len : Z) : option Z :=
  end_name_hash <$> name_hash_loop name (Z.to_nat len) init_name_hash.

Fixpoint bitstring_hash_loop (bits : list Z) (len : nat) (hash : Z) : option (list Z * Z) :=
  match len, bits with
  | O, _ => Some (bits, hash)
  | S len, c :: bits => bitstring_hash_loop bits len (partial_name_hash c hash)
  | S _, [] => None
  end.
(** The hash of the last bits is computed and dropped. *)
Definition full_bitstring_hash (bits : list Z) (num_bits : Z) : option Z :=
  let len := num_bits / 8 in
  '(rest, hash) ← bitstring_hash_loop bits (Z.to_nat len) init_name_hash;
  let num_bits := num_bits - len * 8 in
  if num_bits =? 0 then Some (end_name_hash hash)
  else
    b ← head rest;
    let last_bits := u8 (Z.land (Z.shiftl 0xff (8 - num_bits)) b) in
    let _ := partial_name_hash last_bits hash in
    Some (end_name_hash hash).

(** ** Multiplicative hashing *)
Lemma u64_shl a n : 0 <= n -> u64 (Z.shiftl (u64 a) n) = u64 (a * 2 ^ n).
Proof. intros. rewrite Z.shiftl_mul_pow2 by done. unfold u64. apply Zmult_mod_idemp_l. Qed.
Lemma u64_small z : 0 <= z < 2 ^ 64 -> u64 z = z.
Proof. intros. by apply Z.mod_small. Qed.
Lemma u64_range z : 0 <= u64 z < 2 ^ 64.
Proof. apply Z.mod_pos_bound. lia. Qed.
Lemma shr_some w x n : 0 <= n < w -> w <= 64 -> shr w x n = Some (x / 2 ^ n).
Proof.
  intros ??. unfold shr. rewrite u32_id by lia. destruct (Z.ltb_spec n w); [|lia].
  by rewrite Z.shiftr_div_pow2 by lia.
Qed.

Lemma hash_64_mul val bits :
  0 <= val < 2 ^ 64 -> 0 < bits <= 64 ->
  hash_64 val bits = Some (u64 (val * GOLDEN_RATIO_PRIME_64) / 2 ^ (64 - bits)).
Proof.
  intros Hv Hb. unfold hash_64. cbv zeta. rewrite shr_some by lia. f_equal. f_equal.
  rewrite <- (u64_small val Hv). generalize val. clear. intros v.
  rewrite !u64_shl by lia. unfold u64, GOLDEN_RATIO_PRIME_64.
  Z.to_euclidean_division_equations; lia.
Qed.

(** The prime is odd: multiplication by it is undone by its inverse. *)
Lemma golden_injective a b :
  0 <= a < 2 ^ 64 -> 0 <= b < 2 ^ 64 ->
  u64 (a * GOLDEN_RATIO_PRIME_64) = u64 (b * GOLDEN_RATIO_PRIME_64) -> a = b.
Proof.
  intros Ha Hb E.
  assert (Hinv : forall x, 0 <= x < 2 ^ 64 ->
    u64 (u64 (x * GOLDEN_RATIO_PRIME_64) * 0x6208001000040001) = x).
  { intros x Hx. unfold u64. rewrite Zmult_mod_idemp_l, <- Z.mul_assoc, Zmult_mod.
    replace ((GOLDEN_RATIO_PRIME_64 * 0x6208001000040001) mod 2 ^ 64) with 1 by reflexivity.
    rewrite Z.mul_1_r, Z.mod_mod by lia. by apply Z.mod_small. }
  by rewrite <- (Hinv a Ha), <- (Hinv b Hb), E.
Qed.

(** C33 (equivalence): the shifts, additions and subtractions of [hash_64]
    compute the multiplicative hash with the 64-bit golden ratio prime: the
    first [bits] bits of the low word of the product.  The value indexes a
    table of 2^bits cells, and at full width no two keys collide. *)
Theorem hash_64_golden val bits :
  0 <= val < 2 ^ 64 -> 0 < bits <= 64 ->
  hash_64 val bits = Some (u64 (val * GOLDEN_RATIO_PRIME_64) / 2 ^ (64 - bits)) /\
  (forall h, hash_64 val bits = Some h -> 0 <= h < 2 ^ bits) /\
  (forall val', 0 <= val' < 2 ^ 64 -> hash_64 val 64 = hash_64 val' 64 -> val = val').
Proof.
  intros Hv Hb. rewrite hash_64_mul by done. split_and!; [done| |].
  - intros h [= <-]. pose proof (u64_range (val * GOLDEN_RATIO_PRIME_64)) as Hr.
    split; [apply Z.div_pos; lia|]. apply Z.div_lt_upper_bound; [lia|].
    rewrite <- Z.pow_add_r by lia. replace (64 - bits + bits) with 64 by lia. lia.
  - intros val' Hv'. rewrite !hash_64_mul by lia. rewrite Z.sub_diag, Z.pow_0_r, !Z.div_1_r.
    intros [= E]. by apply golden_injective.
Qed.
Lemma hash_64_golden_witness :
  hash_64 0xdeadbeef 10 = Some (u64 (0xdeadbeef * GOLDEN_RATIO_PRIME_64) / 2 ^ 54) /\
  hash_64 0xdeadbeef 64 <> hash_64 0xdeadbef0 64.
Proof.
  split.
  - apply (hash_64_golden 0xdeadbeef 10); lia.
  - intros E. assert (0xdeadbeef = 0xdeadbef0); [|lia].
    apply (hash_64_golden 0xdeadbeef 10); [lia..|done].
Defined.

(** Bits behind the last whole byte do not enter the hash of a bit string. *)
Lemma bitstring_hash_drops_last bits b b' n :
  0 < n < 8 ->
  full_bitstring_hash (bits ++ [b]) (8 * Z.of_nat (length bits) + n) =
  full_bitstring_hash (bits ++ [b']) (8 * Z.of_nat (length bits) + n).
Proof.
  intros Hn. unfold full_bitstring_hash.
  assert (Hq : (8 * Z.of_nat (length bits) + n) / 8 = Z.of_nat (length bits)) by (symmetry; apply Z.div_unique with n; lia).
  rewrite Hq. clear Hq.
  rewrite Nat2Z.id.
  assert (Hl : forall r h, bitstring_hash_loop (bits ++ r) (length bits) h =
    (fun p => (r, p.2)) <$> bitstring_hash_loop bits (length bits) h).
  { intros r. induction bits as [|c bits IH]; simpl; intros h; [by destruct r|apply IH]. }
  rewrite !Hl. destruct (bitstring_hash_loop _ _ _) as [[r h]|]; [|done]. simpl.
  by repeat case_match.
Qed.
