(* ===== verification/Hashtable.v ===== *)
(** * The hash table of the control channel and the daemons (src/common/hashtable.c)

    Elements ([struct hashelm]) carry a reference count and are linked into the
    chains of the slots through the [hlist] of include/common/list.h: a node
    points to the next one and back to the pointer that points to it.  The model
    keeps elements in a store indexed by their addresses; a dangling pointer, an
    index outside the slots, an uninitialised slot and a mutex locked twice are
    faults.  Keys have the type [K]; the functions of an element ([hashfn],
    [equalfn]) are the ones of the client, the second applied to the element.
    [freefn] says whether there is a callback, which frees the element. *)
From S2P Require Import Prelude.
From coqutil Require Export Datatypes.RecordSetters.
Export DoubleBraceUpdate.
Local Open Scope Z_scope.

(** The address of an element, and what a [pprev] points to: the [first] of a
    slot or the [next] of an element. *)
Definition elmp := nat.
Inductive hloc := LFirst (i : nat) | LNext (p : elmp).
#[export] Instance hloc_eq_dec : EqDecision hloc.
Proof. solve_decision. Defined.

Record hlist_node := HNode { next : option elmp; pprev : option hloc }.

Record hashelm (K : Type) := HashElm {
  node : hlist_node;
  refcount : Z;
  hash : Z;
  hashfn : K -> Z;
  equalfn : K -> bool;
  freefn : bool;
}.
Arguments HashElm {K}. Arguments node {K}. Arguments refcount {K}. Arguments hash {K}.
Arguments hashfn {K}. Arguments equalfn {K}. Arguments freefn {K}.

Record hashslot := HashSlot { first : option elmp; slot_count : Z; slot_locked : bool }.

(** [struct hashtable] with the elements in memory, and the part of the world
    that callbacks may change. *)
Record hashtable (K W : Type) := HashTable {
  slots : list (option hashslot);
  mask : Z;
  count : Z;
  elms : gmap elmp (hashelm K);
  env : W;
}.
Arguments HashTable {K W}. Arguments slots {K W}. Arguments mask {K W}. Arguments count {K W}.
Arguments elms {K W}. Arguments env {K W}.

Section Code.
Context {K W : Type}.
Definition HTM := M (hashtable K W).

Definition elm (p : elmp) : HTM (hashelm K) := fun t =>
  match elms t !! p with Some e => Ok (e, t) | None => Fault end.
Definition upd_elm (p : elmp) (f : hashelm K -> hashelm K) : HTM unit := fun t =>
  match elms t !! p with
  | Some e => Ok (tt, t {{ elms := <[p := f e]> (elms t) }})
  | None => Fault
  end.
Definition slot (i : nat) : HTM hashslot := fun t =>
  match slots t !! i with Some (Some s) => Ok (s, t) | _ => Fault end.
Definition upd_slot (i : nat) (f : hashslot -> hashslot) : HTM unit := fun t =>
  match slots t !! i with
  | Some (Some s) => Ok (tt, t {{ slots := <[i := Some (f s)]> (slots t) }})
  | _ => Fault
  end.
Definition upd_node (p : elmp) (f : hlist_node -> hlist_node) : HTM unit :=
  upd_elm p (fun e => e {{ node ::= f }}).
(** [*pprev = v] *)
Definition store (l : hloc) (v : option elmp) : HTM unit :=
  match l with
  | LFirst i => upd_slot i (fun s => s {{ first := v }})
  | LNext p => upd_node p (fun n => n {{ next := v }})
  end.

(** ** Lists with a single-pointer head *)
Definition INIT_HLIST_NODE (p : elmp) : HTM unit := upd_node p (fun _ => HNode None None).
Definition hlist_unhashed (p : elmp) : HTM bool :=
  e ← elm p; mret (bool_decide (pprev (node e) = None)).
Definition __hlist_del (p : elmp) : HTM unit :=
  e ← elm p;
  match pprev (node e) with
  | None => faultM
  | Some l =>
      store l (next (node e));;
      match next (node e) with
      | Some q => upd_node q (fun n => n {{ pprev := Some l }})
      | None => mret tt
      end
  end.
Definition hlist_del_init (p : elmp) : HTM unit :=
  un ← hlist_unhashed p;
  if un : bool then mret tt else __hlist_del p;; INIT_HLIST_NODE p.
Definition hlist_add_head (p : elmp) (i : nat) : HTM unit :=
  s ← slot i;
  upd_node p (fun n => n {{ next := first s }});;
  match first s with
  | Some q => upd_node q (fun n => n {{ pprev := Some (LNext p) }})
  | None => mret tt
  end;;
  upd_slot i (fun s => s {{ first := Some p }});;
  upd_node p (fun n => n {{ pprev := Some (LFirst i) }}).

(** ** Locks and counters *)
Definition lock (i : nat) : HTM unit :=
  s ← slot i;
  if slot_locked s then faultM else upd_slot i (fun s => s {{ slot_locked := true }}).
Definition unlock (i : nat) : HTM unit := upd_slot i (fun s => s {{ slot_locked := false }}).
(** [slot->count] is an unsigned long, [table->count] an atomic int. *)
Definition add_count (i : nat) (d : Z) : HTM unit :=
  upd_slot i (fun s => s {{ slot_count := u64 (slot_count s + d) }});;
  modS (fun t => t {{ count := s32 (count t + d) }}).

(** ** Elements *)
Definition hashelm_init (p : elmp) (hf : K -> Z) (ef : K -> bool) (ff : bool) : HTM Z :=
  upd_elm p (fun e => e {{ node := HNode None None; refcount := 1; hashfn := hf; equalfn := ef; freefn := ff }});;
  mret 0.
Definition hashelm_hold (p : elmp) : HTM unit :=
  upd_elm p (fun e => e {{ refcount := s32 (refcount e + 1) }}).
Definition hashelm_put (p : elmp) : HTM unit :=
  upd_elm p (fun e => e {{ refcount := s32 (refcount e - 1) }});;
  e ← elm p;
  if (refcount e =? 0) && freefn e then modS (fun t => t {{ elms := delete p (elms t) }})
  else mret tt.
Definition hashelm_hashed (p : elmp) : HTM bool := un ← hlist_unhashed p; mret (negb un).

Definition get_slot (h : Z) : HTM nat := gets (fun t => Z.to_nat (Z.land h (mask t))).

Definition hashelm_hash (p : elmp) (key : K) : HTM Z :=
  un ← hlist_unhashed p;
  if negb un then mret (-1)
  else
    e ← elm p;
    upd_elm p (fun e => e {{ hash := hashfn e key }});;
    i ← get_slot (hashfn e key);
    lock i;;
    add_count i 1;;
    hlist_add_head p i;;
    hashelm_hold p;;
    unlock i;;
    mret 0.

(** The slot is locked by the caller of [__hashelm_unhash]. *)
Definition __hashelm_unhash (p : elmp) : HTM unit :=
  e ← elm p;
  i ← get_slot (hash e);
  hlist_del_init p;;
  add_count i (-1);;
  hashelm_put p.
Definition hashelm_unhash (p : elmp) : HTM unit :=
  e ← elm p;
  i ← get_slot (hash e);
  lock i;;
  hlist_del_init p;;
  add_count i (-1);;
  hashelm_put p;;
  unlock i.

(** ** The table *)
Fixpoint lookup_loop (fuel : nat) (pos : option elmp) (key : K) : HTM (option elmp) :=
  match pos with
  | None => mret None
  | Some p =>
      match fuel with
      | O => nofuelM
      | S fuel =>
          e ← elm p;
          if equalfn e key then hashelm_hold p;; mret (Some p)
          else lookup_loop fuel (next (node e)) key
      end
  end.
Definition hashtable_lookup (key : K) (hf : K -> Z) : HTM (option elmp) :=
  i ← get_slot (hf key);
  lock i;;
  s ← slot i;
  n ← gets (fun t => size (elms t));
  he ← lookup_loop n (first s) key;
  unlock i;;
  mret he.

Definition hashtable_count : HTM Z := gets (fun t => u32 (count t)).

(** [for (i = 0; i <= table->mask; i++)] with a signed [i]. *)
Fixpoint for_slots (fuel i : nat) (body : nat -> HTM unit) : HTM unit :=
  m ← gets mask;
  if m <? Z.of_nat i then mret tt
  else
    match fuel with
    | O => nofuelM
    | S fuel =>
        body i;;
        if 2 ^ 31 <=? Z.of_nat i + 1 then faultM else for_slots fuel (S i) body
    end.
Definition all_slots (body : nat -> HTM unit) : HTM unit :=
  m ← gets mask; for_slots (S (Z.to_nat m)) 0 body.

(** [hlist_for_each_entry_safe]: the next element is read before the body. *)
Fixpoint for_each_entry_safe (fuel : nat) (pos : option elmp) (body : elmp -> HTM unit) : HTM nat :=
  match pos with
  | None => mret O
  | Some p =>
      match fuel with
      | O => nofuelM
      | S fuel =>
          e ← elm p;
          body p;;
          n ← for_each_entry_safe fuel (next (node e)) body;
          mret (S n)
      end
  end.
Definition each_of_slot (i : nat) (body : elmp -> HTM unit) : HTM nat :=
  s ← slot i;
  n ← gets (fun t => size (elms t));
  for_each_entry_safe n (first s) body.

(** [malloc] succeeds or not: [ok]. *)
Definition hashtable_init (size : Z) (ok : bool) : HTM Z :=
  modS (fun t => t {{ slots := []; mask := 0; count := 0 }});;
  if negb ok then mret (-1)
  else
    modS (fun t => t {{ slots := replicate (Z.to_nat size) None; mask := u32 (size - 1) }});;
    modS (fun t => t {{ count := 0 }});;
    all_slots (fun i t =>
      match slots t !! i with
      | Some _ => Ok (tt, t {{ slots := <[i := Some (HashSlot None 0 false)]> (slots t) }})
      | None => Fault
      end);;
    mret 0.

Definition hashtable_fini : HTM unit :=
  all_slots (fun i =>
    lock i;;
    each_of_slot i (fun p => hlist_del_init p;; hashelm_put p);;
    upd_slot i (fun s => s {{ first := None; slot_count := 0 }});;
    unlock i);;
  modS (fun t => t {{ count := 0 }});;
  modS (fun t => t {{ slots := [] }}).

(** [action] is the callback with its data; the number of elements is counted in
    an int. *)
Fixpoint for_each_slots (fuel i : nat) (n : Z) (action : elmp -> HTM unit) : HTM Z :=
  m ← gets mask;
  if m <? Z.of_nat i then mret n
  else
    match fuel with
    | O => nofuelM
    | S fuel =>
        lock i;;
        k ← each_of_slot i action;
        unlock i;;
        if 2 ^ 31 <=? Z.of_nat i + 1 then faultM
        else for_each_slots fuel (S i) (n + Z.of_nat k) action
    end.
Definition hashtable_for_each (action : option (elmp -> HTM unit)) : HTM Z :=
  match action with
  | None => mret (-1)
  | Some action => m ← gets mask; for_each_slots (S (Z.to_nat m)) 0 0 action
  end.
End Code.
Arguments HTM : clear implicits.
