(* ===== verification/HashtableOk.v ===== *)
(** * The hash table as a list of elements

    [lseg] and [chain] relate the pointers of a slot to the list of its
    elements; [rep] says that a table holds the elements of a list, newest first,
    each with the hash it was entered with.  Every operation runs and changes
    that list as it should ([astep]); histories of operations follow. *)
From S2P Require Import Prelude Hashtable.
Local Open Scope Z_scope.

Section Chains.
Context {K : Type}.
Implicit Types (m : gmap elmp (hashelm K)) (p q : elmp) (c : list elmp) (l : hloc) (f : option elmp) (e : hashelm K).

(** From the place [l], which holds [f], through [c] to the place [l'], which
    holds [f']. *)
Fixpoint lseg m l f c l' f' : Prop :=
  match c with
  | [] => l = l' /\ f = f'
  | p :: c => f = Some p /\ exists e, m !! p = Some e /\ pprev (node e) = Some l /\
      lseg m (LNext p) (next (node e)) c l' f'
  end.
Definition chain m l f c : Prop := exists l', lseg m l f c l' None.

Definition body e : hashelm K := e {{ node := HNode None None }}.
Definition with_node (g : hlist_node -> hlist_node) e : hashelm K := e {{ node ::= g }}.
Definition set_elm p (g : hashelm K -> hashelm K) m : gmap elmp (hashelm K) := alter g p m.
Lemma set_elm_eq p g m e : m !! p = Some e -> set_elm p g m !! p = Some (g e).
Proof. intros He. unfold set_elm. by rewrite lookup_alter_eq, He. Qed.
Lemma set_elm_ne p q g m : p <> q -> set_elm p g m !! q = m !! q.
Proof. apply lookup_alter_ne. Qed.
Lemma set_elm_insert p g m e : m !! p = Some e -> <[p := g e]> m = set_elm p g m.
Proof.
  intros He. apply map_eq. intros q. destruct (decide (p = q)) as [->|].
  - by rewrite (set_elm_eq _ _ _ _ He), lookup_insert_eq.
  - by rewrite set_elm_ne, lookup_insert_ne.
Qed.
Definition set_node p (g : hlist_node -> hlist_node) m : gmap elmp (hashelm K) := set_elm p (with_node g) m.
Lemma set_node_eq p g m e : m !! p = Some e -> set_node p g m !! p = Some (with_node g e).
Proof. apply set_elm_eq. Qed.
Lemma set_node_ne p q g m : p <> q -> set_node p g m !! q = m !! q.
Proof. apply set_elm_ne. Qed.
(** Only the links of elements in [c] differ. *)
Definition relink c m m' : Prop :=
  (forall q, body <$> m' !! q = body <$> m !! q) /\ (forall q, q ∉ c -> m' !! q = m !! q).

Lemma relink_refl c m : relink c m m. Proof. done. Qed.
Lemma relink_trans c m m1 m2 : relink c m m1 -> relink c m1 m2 -> relink c m m2.
Proof. intros [H1 H2] [H3 H4]. split; intros q; [by rewrite H3|intros; by rewrite H4, H2]. Qed.
Lemma relink_set c m p g : p ∈ c -> relink c m (set_node p g m).
Proof.
  intros Hp. unfold set_node, set_elm. split; intros q.
  - destruct (decide (p = q)) as [->|]; [rewrite lookup_alter_eq|by rewrite lookup_alter_ne].
    by destruct (m !! q).
  - intros Hq. rewrite lookup_alter_ne; [done|by intros ->].
Qed.
Lemma relink_mono c c' m m' : c ⊆ c' -> relink c m m' -> relink c' m m'.
Proof. intros Hs [H1 H2]. split; [done|]. set_solver. Qed.
Lemma relink_body c m m' p e : relink c m m' -> m !! p = Some e -> exists e', m' !! p = Some e' /\ body e' = body e.
Proof. intros [H _] Hp. specialize (H p). rewrite Hp in H. apply fmap_Some in H as (e' & ? & ?). eauto. Qed.
Lemma relink_body' c m m' p e : relink c m m' -> m' !! p = Some e -> exists e', m !! p = Some e' /\ body e' = body e.
Proof. intros [H _] Hp. specialize (H p). rewrite Hp in H. symmetry in H. apply fmap_Some in H as (e' & ? & ?). eauto. Qed.

Lemma lseg_ext m m' l f c l' f' :
  (forall q, q ∈ c -> node <$> m' !! q = node <$> m !! q) -> lseg m l f c l' f' -> lseg m' l f c l' f'.
Proof.
  revert l f. induction c as [|p c IH]; intros l f Hq; [done|]. intros (-> & e & He & Hp & Hl).
  split; [done|]. pose proof (Hq p ltac:(set_solver)) as Hn. rewrite He in Hn.
  destruct (m' !! p) as [e'|]; [|done]. injection Hn as Hn. exists e'. rewrite Hn.
  split_and!; [done..|]. apply IH; [set_solver|done].
Qed.
Lemma lseg_app m l f c1 c2 l' f' :
  lseg m l f (c1 ++ c2) l' f' <-> exists l1 f1, lseg m l f c1 l1 f1 /\ lseg m l1 f1 c2 l' f'.
Proof.
  revert l f. induction c1 as [|p c1 IH]; intros l f; simpl.
  { split; [by eauto|by intros (? & ? & [-> ->] & ?)]. }
  split.
  - intros (-> & e & ? & ? & (l1 & f1 & ? & ?)%IH). exists l1, f1. eauto 10.
  - intros (l1 & f1 & (-> & e & ? & ? & ?) & ?). split; [done|]. exists e. split_and!; [done..|]. apply IH. eauto.
Qed.
Lemma lseg_dom m l f c l' f' q : lseg m l f c l' f' -> q ∈ c -> is_Some (m !! q).
Proof.
  revert l f. induction c as [|p c IH]; intros l f; simpl; [set_solver|].
  intros (_ & e & He & _ & Hl) [->|Hq]%elem_of_cons; eauto.
Qed.

(** The two writes that unlink: the place before, the element behind. *)
Lemma lseg_store m l f c q l' v :
  NoDup (c ++ [q]) -> lseg m l f (c ++ [q]) l' v ->
  l' = LNext q /\ forall w, lseg (set_node q (fun n => n {{ next := w }}) m) l f (c ++ [q]) (LNext q) w.
Proof.
  intros Hnd (l1 & f1 & H1 & (-> & e & He & Hp & (<- & Hv)))%lseg_app. split; [done|]. intros w. apply lseg_app.
  exists l1, (Some q). split.
  - eapply lseg_ext; [|done]. intros p Hpc. rewrite set_node_ne; [done|]. intros ->.
    apply NoDup_app in Hnd as (_ & Hd & _). by apply (Hd p Hpc), list_elem_of_singleton.
  - split; [done|]. eexists. rewrite (set_node_eq _ _ _ _ He). by split_and!.
Qed.
Lemma lseg_front m l f q c l' f' l1 :
  NoDup (q :: c) -> lseg m l f (q :: c) l' f' ->
  lseg (set_node q (fun n => n {{ pprev := Some l1 }}) m) l1 f (q :: c) l' f'.
Proof.
  intros [Hq _]%NoDup_cons (-> & e & He & Hp & Hl). split; [done|].
  eexists. rewrite (set_node_eq _ _ _ _ He). split_and!; [done..|].
  eapply lseg_ext; [|done]. intros p Hpc. rewrite set_node_ne; [done|]. by intros ->.
Qed.
End Chains.

Section Links.
Context {K W : Type}.
Implicit Types (t : hashtable K W) (m : gmap elmp (hashelm K)) (p q : elmp) (c : list elmp) (e : hashelm K) (s : hashslot).

Lemma wp_elm p t e (Q : hashelm K -> hashtable K W -> Prop) : elms t !! p = Some e -> Q e t -> wp (elm p) t Q.
Proof. intros He HQ. unfold wp, elm. by rewrite He. Qed.
Lemma wp_upd_elm p g t e (Q : unit -> hashtable K W -> Prop) :
  elms t !! p = Some e -> Q tt (t {{ elms := set_elm p g (elms t) }}) -> wp (upd_elm p g) t Q.
Proof. intros He HQ. unfold wp, upd_elm. by rewrite He, (set_elm_insert _ _ _ _ He). Qed.
Lemma wp_upd_node p g t e (Q : unit -> hashtable K W -> Prop) :
  elms t !! p = Some e -> Q tt (t {{ elms := set_node p g (elms t) }}) -> wp (upd_node p g) t Q.
Proof. apply wp_upd_elm. Qed.
Lemma wp_slot i t s (Q : hashslot -> hashtable K W -> Prop) : slots t !! i = Some (Some s) -> Q s t -> wp (slot i) t Q.
Proof. intros He HQ. unfold wp, slot. by rewrite He. Qed.
Lemma wp_upd_slot i g t s (Q : unit -> hashtable K W -> Prop) :
  slots t !! i = Some (Some s) -> Q tt (t {{ slots := <[i := Some (g s)]> (slots t) }}) -> wp (upd_slot i g) t Q.
Proof. intros He HQ. unfold wp, upd_slot. by rewrite He. Qed.

(** An element enters the front of a chain. *)
Lemma add_head_ok p i t e s c (Q : unit -> hashtable K W -> Prop) :
  slots t !! i = Some (Some s) -> elms t !! p = Some e -> p ∉ c -> NoDup c ->
  chain (elms t) (LFirst i) (first s) c ->
  (forall m', relink (p :: c) (elms t) m' -> chain m' (LFirst i) (Some p) (p :: c) ->
     Q tt (t {{ slots := <[i := Some (s {{ first := Some p }})]> (slots t); elms := m' }})) ->
  wp (hlist_add_head p i) t Q.
Proof.
  intros Hs He Hp Hnd [l' Hc] HQ. unfold hlist_add_head. apply wp_bind. eapply wp_slot; [done|].
  apply wp_bind. eapply wp_upd_node; [done|]. set (m1 := set_node p _ (elms t)).
  assert (Hm1 : m1 !! p = Some (with_node (fun n => n {{ next := first s }}) e)) by (by apply set_node_eq).
  assert (Hc1 : lseg m1 (LFirst i) (first s) c l' None).
  { eapply lseg_ext; [|done]. intros q Hq. unfold m1. rewrite set_node_ne; [done|]. by intros ->. }
  assert (Hr1 : relink (p :: c) (elms t) m1) by (apply relink_set; set_solver).
  assert (Hfin : forall m2, relink (p :: c) m1 m2 -> m2 !! p = m1 !! p -> lseg m2 (LNext p) (first s) c (if c is [] then LNext p else l') None ->
    wp (upd_slot i (fun s => s {{ first := Some p }});; upd_node p (fun n => n {{ pprev := Some (LFirst i) }}))
      (t {{ elms := m2 }}) Q).
  { intros m2 Hr2 H2p Hc2. apply wp_bind. eapply wp_upd_slot; [done|]. eapply wp_upd_node; [exact (eq_trans H2p Hm1)|].
    refine (HQ (set_node p (fun n => n {{ pprev := Some (LFirst i) }}) m2) _ _).
    - eapply relink_trans; [done|]. eapply relink_trans; [done|]. apply relink_set. set_solver.
    - exists (if c is [] then LNext p else l'). split; [done|]. eexists. rewrite (set_node_eq _ _ _ _ (eq_trans H2p Hm1)). split_and!; [done..|].
      eapply lseg_ext; [|done]. intros q Hq. rewrite set_node_ne; [done|]. by intros ->. }
  apply wp_bind. destruct c as [|q c].
  - destruct Hc1 as [_ Hf]. rewrite Hf. apply wp_ret. apply Hfin; [done|done|by rewrite Hf].
  - pose proof Hc1 as (Hf & eq & Hq & _). rewrite Hf. eapply wp_upd_node; [done|].
    apply Hfin.
    + apply relink_set. set_solver.
    + apply set_node_ne; set_solver.
    + by eapply lseg_front.
Qed.

(** An element leaves the chain it is in. *)
Lemma del_ok p i t s c1 c2 (Q : unit -> hashtable K W -> Prop) :
  slots t !! i = Some (Some s) -> NoDup (c1 ++ p :: c2) ->
  chain (elms t) (LFirst i) (first s) (c1 ++ p :: c2) ->
  (forall f' m', relink (c1 ++ p :: c2) (elms t) m' -> chain m' (LFirst i) f' (c1 ++ c2) ->
     (forall e, m' !! p = Some e -> node e = HNode None None) ->
     Q tt (t {{ slots := <[i := Some (s {{ first := f' }})]> (slots t); elms := m' }})) ->
  wp (hlist_del_init p) t Q.
Proof.
  intros Hs Hnd (l' & (l1 & f1 & H1 & (-> & e & He & Hpp & H2))%lseg_app) HQ.
  unfold hlist_del_init, hlist_unhashed. do 2 apply wp_bind. eapply wp_elm; [done|]. apply wp_ret.
  rewrite Hpp. rewrite bool_decide_eq_false_2 by done. apply wp_bind.
  unfold __hlist_del. apply wp_bind. eapply wp_elm; [done|]. rewrite Hpp.
  assert (Hd : NoDup c1 /\ (p ∉ c1) /\ NoDup c2 /\ (p ∉ c2) /\ forall q, q ∈ c1 -> q ∉ c2).
  { apply NoDup_app in Hnd as (? & Hd & (? & ?)%NoDup_cons). split_and!; try done; intros; set_solver. }
  destruct Hd as (Hn1 & Hp1 & Hn2 & Hp2 & Hd).
  (* the place before *)
  assert (Hstore : forall R : unit -> hashtable K W -> Prop,
    (forall f' m1, relink c1 (elms t) m1 -> lseg m1 (LFirst i) f' c1 l1 (next (node e)) ->
       R tt (t {{ slots := <[i := Some (s {{ first := f' }})]> (slots t); elms := m1 }})) ->
    wp (store l1 (next (node e))) t R).
  { intros R HR. destruct c1 as [|q c1' _] using rev_ind.
    - destruct H1 as [<- Hf]. simpl. eapply wp_upd_slot; [done|]. specialize (HR (next (node e)) (elms t)).
      by destruct t; apply HR.
    - pose proof (lseg_store _ _ _ _ _ _ _ Hn1 H1) as [-> Hst]. cbn [store].
      destruct (lseg_dom _ _ _ _ _ _ q H1 ltac:(set_solver)) as [eq Hq]. eapply wp_upd_node; [done|].
      assert (Hin : q ∈ c1' ++ [q]) by set_solver.
      specialize (HR (first s) _ (relink_set _ (elms t) q _ Hin) (Hst (next (node e)))).
      replace (s {{ first := first s }}) with s in HR by (by destruct s). by rewrite list_insert_id in HR. }
  apply wp_bind, Hstore. clear Hstore. intros f' m1 Hr1 H1'.
  assert (H2' : lseg m1 (LNext p) (next (node e)) c2 l' None).
  { eapply lseg_ext; [|done]. intros q Hq. destruct Hr1 as [_ ->]; [done|]. intros ?. by eapply Hd. }
  assert (Hm1p : m1 !! p = Some e) by (destruct Hr1 as [_ ->]; done).
  assert (Hfin : forall m2, relink c2 m1 m2 -> lseg m2 l1 (next (node e)) c2 (if c2 is [] then l1 else l') None ->
    wp (INIT_HLIST_NODE p) (t {{ slots := <[i := Some (s {{ first := f' }})]> (slots t); elms := m2 }}) Q).
  { intros m2 Hr2 H2c. eapply wp_upd_node; [simpl; destruct Hr2 as [_ ->]; done|]. refine (HQ f' (set_node p (fun _ => HNode None None) m2) _ _ _).
    - eapply relink_trans; [eapply relink_mono; [|done]; set_solver|].
      eapply relink_trans; [eapply relink_mono; [|done]; set_solver|]. apply relink_set. set_solver.
    - exists (if c2 is [] then l1 else l'). apply lseg_app. exists l1, (next (node e)). split.
      + eapply lseg_ext; [|done]. intros q Hq. rewrite set_node_ne by (by intros ->).
        destruct Hr2 as [_ ->]; [done|]. by apply Hd.
      + eapply lseg_ext; [|done]. intros q Hq. by rewrite set_node_ne by (by intros ->).
    - intros e'. rewrite (set_node_eq _ _ _ e) by (destruct Hr2 as [_ ->]; done). by intros [= <-]. }
  destruct c2 as [|q c2].
  - destruct H2' as [<- Hf]. rewrite Hf. apply wp_ret. apply Hfin; [done|]. by rewrite Hf.
  - pose proof H2' as (Hf & eq & Hq & _). rewrite Hf. eapply wp_upd_node; [done|].
    apply Hfin.
    + apply relink_set. set_solver.
    + by eapply lseg_front.
Qed.
End Links.

(** * Tables and the elements they hold

    [rep] relates a table to its abstract state; the operations of
    src/common/hashtable.c run from states that satisfy it and keep it. *)

(** An element as its clients see it, and the abstract state of a table: the
    elements in it, the newest first, with their hash values, and all elements
    in memory. *)
Record aelm (K : Type) := AElm { a_refs : Z; a_hashfn : K -> Z; a_equal : K -> bool; a_free : bool }.
Arguments AElm {K}. Arguments a_refs {K}. Arguments a_hashfn {K}. Arguments a_equal {K}. Arguments a_free {K}.
Record atable (K : Type) := ATable { a_mask : Z; a_in : list (elmp * Z); a_elms : gmap elmp (aelm K) }.
Arguments ATable {K}. Arguments a_mask {K}. Arguments a_in {K}. Arguments a_elms {K}.

Definition in_slot (mk : Z) (i : nat) (hs : list (elmp * Z)) : list elmp :=
  (filter (fun x => Z.to_nat (Z.land x.2 mk) = i) hs).*1.
Definition without (p : elmp) (hs : list (elmp * Z)) : list (elmp * Z) := filter (fun x => x.1 <> p) hs.

Section InSlot.
Implicit Types (hs : list (elmp * Z)) (p : elmp).
Lemma in_slot_elem mk i hs p : p ∈ in_slot mk i hs <-> exists h, (p, h) ∈ hs /\ Z.to_nat (Z.land h mk) = i.
Proof.
  unfold in_slot. rewrite list_elem_of_fmap. split.
  - intros ([q h] & -> & [? ?]%list_elem_of_filter). eauto.
  - intros (h & ? & ?). exists (p, h). split; [done|]. by apply list_elem_of_filter.
Qed.
Lemma in_slot_sublist mk i hs : in_slot mk i hs `sublist_of` hs.*1.
Proof. apply fmap_sublist, sublist_filter. Qed.
Lemma in_slot_nodup mk i hs : NoDup hs.*1 -> NoDup (in_slot mk i hs).
Proof. intros Hn. eapply sublist_NoDup; [done|apply in_slot_sublist]. Qed.
Lemma in_slot_cons mk i p h hs :
  in_slot mk i ((p, h) :: hs) =
  if decide (Z.to_nat (Z.land h mk) = i) then p :: in_slot mk i hs else in_slot mk i hs.
Proof. unfold in_slot. rewrite filter_cons. simpl. by case_decide. Qed.
Lemma in_slot_without mk i p hs : in_slot mk i (without p hs) = filter (fun q => q <> p) (in_slot mk i hs).
Proof.
  induction hs as [|[q h] hs IH]; [done|]. unfold without. rewrite filter_cons. fold (without p hs).
  rewrite in_slot_cons. simpl. destruct (decide (q <> p)) as [Hq|Hq].
  - rewrite in_slot_cons, IH. case_decide; [|done]. rewrite filter_cons. by rewrite decide_True.
  - rewrite IH. case_decide; [|done]. rewrite filter_cons. by rewrite decide_False.
Qed.
Lemma filter_ne_id p (c : list elmp) : p ∉ c -> filter (fun q => q <> p) c = c.
Proof.
  induction c as [|q c IH]; intros Hp; [done|]. rewrite filter_cons, decide_True by set_solver.
  f_equal. apply IH. set_solver.
Qed.
Lemma filter_ne_split p (c1 c2 : list elmp) : NoDup (c1 ++ p :: c2) -> filter (fun q => q <> p) (c1 ++ p :: c2) = c1 ++ c2.
Proof.
  intros (_ & Hd & [Hp _]%NoDup_cons)%NoDup_app. rewrite filter_app, filter_cons, decide_False by naive_solver.
  rewrite !filter_ne_id; [done|done|]. intros Hp1. apply (Hd p Hp1). set_solver.
Qed.
Lemma without_fst p hs : (without p hs).*1 = filter (fun q => q <> p) hs.*1.
Proof. induction hs as [|[q h] hs IH]; [done|]. unfold without in *. rewrite fmap_cons, !filter_cons. cbn [fst]. case_decide; [rewrite fmap_cons; f_equal|]; apply IH. Qed.
Lemma without_length p hs : NoDup hs.*1 -> p ∈ hs.*1 -> length hs = S (length (without p hs)).
Proof.
  intros Hn Hp. rewrite <- (length_fmap fst hs), <- (length_fmap fst (without p hs)), without_fst.
  apply list_elem_of_split in Hp as (c1 & c2 & E). rewrite E in *. rewrite filter_ne_split by done.
  rewrite !length_app. simpl. lia.
Qed.
(** Every element is in one slot. *)
Lemma in_slot_all mk hs n :
  (forall x, x ∈ hs -> (Z.to_nat (Z.land x.2 mk) < n)%nat) ->
  concat (map (fun i => in_slot mk i hs) (seq 0 n)) ≡ₚ hs.*1.
Proof.
  induction hs as [|[p h] hs IH]; intros Hn.
  { assert (E : forall k, concat (map (fun i => in_slot mk i []) (seq k n)) = []) by (induction n as [|n IHn]; intros k; [done|apply IHn; set_solver]).
    by rewrite E. }
  pose proof (Hn (p, h) ltac:(set_solver)) as Hi. simpl in Hi. simpl. rewrite <- IH by set_solver.
  clear IH Hn. set (j := Z.to_nat (Z.land h mk)) in *.
  replace (seq 0 n) with (seq 0 j ++ j :: seq (S j) (n - S j)).
  2:{ replace n with (j + S (n - S j))%nat at 2 by lia. by rewrite seq_app. }
  rewrite !map_app, !concat_app. simpl. rewrite in_slot_cons, decide_True by done.
  assert (E : forall a k, (forall i, (a <= i < a + k)%nat -> i <> j) ->
    map (fun i => in_slot mk i ((p, h) :: hs)) (seq a k) = map (fun i => in_slot mk i hs) (seq a k)).
  { intros a k Ha. apply map_ext_in. intros i Hi'%in_seq. rewrite in_slot_cons, decide_False; [done|].
    intros E. by apply (Ha i). }
  rewrite !E by lia. simpl. by rewrite <- Permutation_middle.
Qed.
End InSlot.

Section Rep.
Context {K W : Type}.
Implicit Types (t : hashtable K W) (a : atable K) (p q : elmp) (e : hashelm K) (L : option nat).

Definition view e : aelm K := AElm (refcount e) (hashfn e) (equalfn e) (freefn e).
(** The table's own reference. *)
Definition owned a p : Z := if decide (p ∈ (a_in a).*1) then 1 else 0.

Record slot_ok (mk : Z) (hs : list (elmp * Z)) (m : gmap elmp (hashelm K)) L (i : nat) (s : hashslot) : Prop := {
  so_lock : slot_locked s = bool_decide (L = Some i);
  so_count : slot_count s = Z.of_nat (length (in_slot mk i hs));
  so_chain : chain m (LFirst i) (first s) (in_slot mk i hs);
}.
(** [L] is the slot that is locked, if any. *)
Record rep L t a : Prop := {
  rp_mask : mask t = a_mask a;
  rp_range : 0 <= a_mask a < 2 ^ 31 - 1;
  rp_slots i : (i < S (Z.to_nat (a_mask a)))%nat ->
    exists s, slots t !! i = Some (Some s) /\ slot_ok (a_mask a) (a_in a) (elms t) L i s;
  rp_view : view <$> elms t = a_elms a;
  rp_in p h : (p, h) ∈ a_in a -> exists e, elms t !! p = Some e /\ hash e = h;
  rp_out p e : elms t !! p = Some e -> p ∉ (a_in a).*1 -> pprev (node e) = None;
  rp_nodup : NoDup (a_in a).*1;
  rp_count : count t = Z.of_nat (length (a_in a));
  rp_count_max : Z.of_nat (length (a_in a)) < 2 ^ 31;
  rp_refs p x : a_elms a !! p = Some x -> owned a p <= a_refs x < 2 ^ 31;
}.
Definition slot_of a (h : Z) : nat := Z.to_nat (Z.land h (a_mask a)).
Lemma slot_of_lt L t a h : rep L t a -> (slot_of a h < S (Z.to_nat (a_mask a)))%nat.
Proof.
  intros Hr. pose proof (rp_range _ _ _ Hr). unfold slot_of.
  assert (0 <= Z.land h (a_mask a) <= a_mask a); [|lia].
  apply Z.ldiff_le; [lia|]. apply Z.bits_inj'. intros n Hn.
  rewrite Z.ldiff_spec, Z.land_spec, Z.bits_0. destruct (Z.testbit h n), (Z.testbit (a_mask a) n); done.
Qed.

(** The state after a step: [a], and the callbacks' part of the world. *)
Definition at_ L a (w : W) t : Prop := rep L t a /\ env t = w.

Lemma rep_lookup L t a p : rep L t a -> a_elms a !! p = view <$> elms t !! p.
Proof. intros Hr. by rewrite <- (rp_view _ _ _ Hr), lookup_fmap. Qed.
Lemma rep_elm L t a p x : rep L t a -> a_elms a !! p = Some x -> exists e, elms t !! p = Some e /\ view e = x.
Proof. intros Hr. rewrite (rep_lookup _ _ _ _ Hr). destruct (elms t !! p); naive_solver. Qed.

Lemma elms_set t m : elms (t {{ elms := m }}) = m. Proof. done. Qed.
Lemma a_elms_set a m : a_elms (a {{ a_elms := m }}) = m. Proof. done. Qed.

(** ** Locks *)
Lemma rep_slots L L' t a i s :
  rep L t a -> slot_ok (a_mask a) (a_in a) (elms t) L' i s ->
  (forall j, j <> i -> bool_decide (L' = Some j) = bool_decide (L = Some j)) ->
  rep L' (t {{ slots := <[i := Some s]> (slots t) }}) a.
Proof.
  intros Hr Hs Hj. destruct Hr as [? ? Hsl ? ? ? ? ? ? ?]. split; try done. intros j Hlt.
  destruct (Hsl j Hlt) as (s' & Hs' & [? ? ?]). destruct (decide (j = i)) as [->|Hne].
  - exists s. split; [|done]. apply list_lookup_insert_eq. by eapply lookup_lt_Some.
  - exists s'. split; [|split; [by rewrite Hj|done..]].
    change (<[i:=Some s]> (slots t) !! j = Some (Some s')). by rewrite list_lookup_insert_ne.
Qed.
Lemma lock_ok t a i w :
  at_ None a w t -> (i < S (Z.to_nat (a_mask a)))%nat -> wp (lock i) t (fun _ t' => at_ (Some i) a w t' /\ elms t' = elms t).
Proof.
  intros [Hr <-] Hi. destruct (rp_slots _ _ _ Hr i Hi) as (s & Hs & [Hl Hc Hch]).
  unfold lock. apply wp_bind. eapply wp_slot; [done|]. rewrite Hl, bool_decide_eq_false_2 by done.
  eapply wp_upd_slot; [done|]. do 2 (split; [|done]). eapply rep_slots; [done| |].
  - split; [by rewrite bool_decide_eq_true_2|done..].
  - intros j Hj. rewrite !bool_decide_eq_false_2; naive_solver.
Qed.
Lemma unlock_ok t a i w :
  at_ (Some i) a w t -> (i < S (Z.to_nat (a_mask a)))%nat -> wp (unlock i) t (fun _ => at_ None a w).
Proof.
  intros [Hr <-] Hi. destruct (rp_slots _ _ _ Hr i Hi) as (s & Hs & [Hl Hc Hch]).
  eapply wp_upd_slot; [done|]. split; [|done]. eapply rep_slots; [done| |].
  - split; [by rewrite bool_decide_eq_false_2|done..].
  - intros j Hj. rewrite !bool_decide_eq_false_2; naive_solver.
Qed.

(** ** Reference counts *)
Definition a_hold p a : option (atable K) :=
  x ← a_elms a !! p;
  if a_refs x + 1 <? 2 ^ 31 then Some (a {{ a_elms := <[p := x {{ a_refs := a_refs x + 1 }}]> (a_elms a) }}) else None.
(** A reference given back is not the table's. *)
Definition a_put p a : option (atable K) :=
  x ← a_elms a !! p;
  if owned a p <=? a_refs x - 1 then
    Some (a {{ a_elms := if (a_refs x - 1 =? 0) && a_free x then delete p (a_elms a)
                         else <[p := x {{ a_refs := a_refs x - 1 }}]> (a_elms a) }})
  else None.

Lemma chain_ext (m m' : gmap elmp (hashelm K)) l f c :
  (forall q, q ∈ c -> node <$> m' !! q = node <$> m !! q) -> chain m l f c -> chain m' l f c.
Proof. intros Hq [l' Hl]. exists l'. by eapply lseg_ext. Qed.
Lemma rep_body L t a m' :
  rep L t a -> (forall q, (fun e => (node e, hash e)) <$> m' !! q = (fun e => (node e, hash e)) <$> elms t !! q) ->
  (forall p x, (view <$> m') !! p = Some x -> owned a p <= a_refs x < 2 ^ 31) ->
  rep L (t {{ elms := m' }}) (a {{ a_elms := view <$> m' }}).
Proof.
  intros Hr Hq Hx. destruct Hr as [? ? Hsl ? Hin Hout ? ? ? ?]. split; try done.
  - intros i Hi. destruct (Hsl i Hi) as (s & ? & [? ? ?]). exists s. split; [done|]. split; [done..|].
    eapply chain_ext; [|done]. intros q _. specialize (Hq q). change (node <$> m' !! q = node <$> elms t !! q).
    destruct (m' !! q), (elms t !! q); simpl in *; congruence.
  - intros p h Hp. destruct (Hin p h Hp) as (e & He & Hh). specialize (Hq p). rewrite He in Hq.
    apply fmap_Some in Hq as (e' & ? & [= E1 E2]). exists e'. split; [done|congruence].
  - intros p e He Hp. specialize (Hq p). change (m' !! p = Some e) in He. rewrite He in Hq. symmetry in Hq.
    apply fmap_Some in Hq as (e' & ? & [= E1 E2]). rewrite E1. by eapply Hout.
Qed.
Lemma view_set (m : gmap elmp (hashelm K)) p g e x :
  m !! p = Some e -> view (g e) = x -> view <$> set_elm p g m = <[p := x]> (view <$> m).
Proof.
  intros He Hx. apply map_eq. intros q. rewrite lookup_fmap. destruct (decide (p = q)) as [->|].
  - by rewrite (set_elm_eq _ _ _ _ He), lookup_insert_eq, <- Hx.
  - by rewrite set_elm_ne, lookup_insert_ne, lookup_fmap.
Qed.
(** A change that touches no link and no hash. *)
Lemma rep_touch L t a p e x g :
  rep L t a -> elms t !! p = Some e -> node (g e) = node e -> hash (g e) = hash e -> view (g e) = x ->
  owned a p <= a_refs x < 2 ^ 31 ->
  rep L (t {{ elms := set_elm p g (elms t) }}) (a {{ a_elms := <[p := x]> (a_elms a) }}).
Proof.
  intros Hr He Hn Hh Hx Hrf. rewrite <- (rp_view _ _ _ Hr), <- (view_set _ _ g _ _ He Hx).
  apply rep_body; [done| |].
  - intros q. destruct (decide (p = q)) as [->|]; [|by rewrite set_elm_ne].
    rewrite (set_elm_eq _ _ _ _ He), He. simpl. by rewrite Hn, Hh.
  - intros q y. rewrite (view_set _ _ g _ _ He Hx), (rp_view _ _ _ Hr). destruct (decide (p = q)) as [->|].
    + rewrite lookup_insert_eq. by intros [= <-].
    + rewrite lookup_insert_ne by done. apply (rp_refs _ _ _ Hr).
Qed.
Lemma s32_fits z : - 2 ^ 31 <= z < 2 ^ 31 -> s32 z = z.
Proof. intros. unfold s32, u32. destruct (Z.ltb_spec (z mod 2 ^ 32) (2 ^ 31)); Z.to_euclidean_division_equations; lia. Qed.

Lemma elm_hold_ok L t a a' p w :
  at_ L a w t -> a_hold p a = Some a' -> wp (hashelm_hold p) t (fun _ => at_ L a' w).
Proof.
  intros [Hr <-] Ha. unfold a_hold in Ha. destruct (a_elms a !! p) as [x|] eqn:Hx; [|done]. cbn in Ha.
  destruct (Z.ltb_spec (a_refs x + 1) (2 ^ 31)) as [Hlt|]; [|done]. injection Ha as <-.
  destruct (rep_elm _ _ _ _ _ Hr Hx) as (e & He & Hv). pose proof (rp_refs _ _ _ Hr _ _ Hx) as Hrf.
  assert (0 <= owned a p) by (unfold owned; case_decide; lia). subst x. change (a_refs (view e)) with (refcount e) in *.
  eapply wp_upd_elm; [done|]. split; [|done]. apply (rep_touch _ _ _ _ e); [done..| |].
  - unfold view. cbn. rewrite s32_fits by lia. done.
  - change (owned a p <= refcount e + 1 < 2 ^ 31). lia.
Qed.
Lemma rep_free L t a p :
  rep L t a -> p ∉ (a_in a).*1 ->
  rep L (t {{ elms := delete p (elms t) }}) (a {{ a_elms := delete p (a_elms a) }}).
Proof.
  intros [? ? Hsl Hv Hin Hout ? ? ? Hrf] Hp. split; try done.
  - intros i Hi. destruct (Hsl i Hi) as (s & ? & [? ? ?]). exists s. split; [done|]. split; [done..|].
    eapply chain_ext; [|done]. intros q Hq. rewrite elms_set, lookup_delete_ne; [done|]. intros <-.
    apply Hp. eapply elem_of_sublist; [done|apply in_slot_sublist].
  - by rewrite elms_set, a_elms_set, fmap_delete, Hv.
  - intros q h Hq. rewrite elms_set, lookup_delete_ne; [by apply Hin|]. intros <-. apply Hp, list_elem_of_fmap. by exists (p, h).
  - rewrite elms_set. intros q e [_ He]%lookup_delete_Some. by apply Hout.
  - rewrite a_elms_set. intros q e [_ He]%lookup_delete_Some. by apply Hrf.
Qed.
Lemma put_ok L t a a' p w :
  at_ L a w t -> a_put p a = Some a' -> wp (hashelm_put p) t (fun _ => at_ L a' w).
Proof.
  intros [Hr <-] Ha. unfold a_put in Ha. destruct (a_elms a !! p) as [x|] eqn:Hx; [|done]. cbn in Ha.
  destruct (Z.leb_spec (owned a p) (a_refs x - 1)) as [Hlt|]; [|done]. injection Ha as <-.
  destruct (rep_elm _ _ _ _ _ Hr Hx) as (e & He & Hv). pose proof (rp_refs _ _ _ Hr _ _ Hx) as Hrf.
  assert (Ho : 0 <= owned a p) by (unfold owned; case_decide; lia). subst x. change (a_refs (view e)) with (refcount e) in *.
  unfold hashelm_put. apply wp_bind. eapply wp_upd_elm; [done|].
  apply wp_bind. eapply wp_elm; [rewrite elms_set; by apply set_elm_eq|].
  set (e1 := e {{ refcount := s32 (refcount e - 1) }}).
  change (refcount e1) with (s32 (refcount e - 1)). change (freefn e1) with (freefn e).
  change (a_free (view e)) with (freefn e). rewrite s32_fits by lia.
  assert (Ht : rep L (t {{ elms := set_elm p (fun e => e {{ refcount := s32 (refcount e - 1) }}) (elms t) }})
    (a {{ a_elms := <[p := (view e) {{ a_refs := refcount e - 1 }}]> (a_elms a) }})).
  { apply (rep_touch _ _ _ _ e); [done..| |change (owned a p <= refcount e - 1 < 2 ^ 31); lia].
    unfold view. cbn. by rewrite s32_fits by lia. }
  destruct (Z.eqb_spec (refcount e - 1) 0) as [E|E]; cbn [andb]; [|apply wp_ret; split; [exact Ht|done]].
  destruct (freefn e); [|apply wp_ret; split; [exact Ht|done]]. apply wp_modS. split; [|done].
  eapply rep_free in Ht.
  - rewrite elms_set, a_elms_set, delete_insert_eq in Ht. exact Ht.
  - change (p ∉ (a_in a).*1). intros Hin. unfold owned in Hlt. rewrite decide_True in Hlt by done. lia.
Qed.
End Rep.
