(* ===== verification/HashtableClaims.v ===== *)
(** * Histories of the hash table

    Any sequence of calls whose clients respect the reference counts behaves
    like operations on a list of elements. *)

(** * The operations of the hash table on abstract states

    Entering, leaving, looking up and visiting elements, from any table that
    satisfies [rep]. *)
From S2P Require Import Prelude Hashtable HashtableOk.
Local Open Scope Z_scope.

Section Ops.
Context {K W : Type}.
Implicit Types (t : hashtable K W) (a : atable K) (p q : elmp) (e : hashelm K) (L : option nat) (k : K) (w : W).

Lemma relink_node c (m m' : gmap elmp (hashelm K)) q : relink c m m' -> q ∉ c -> node <$> m' !! q = node <$> m !! q.
Proof. intros [_ H] Hq. by rewrite H. Qed.
Lemma relink_view c (m m' : gmap elmp (hashelm K)) : relink c m m' -> view <$> m' = view <$> m.
Proof.
  intros [H _]. apply map_eq. intros q. rewrite !lookup_fmap. specialize (H q).
  destruct (m' !! q) as [[]|], (m !! q) as [[]|]; simpl in *; try done. by injection H as -> -> -> -> ->.
Qed.
Lemma relink_hash c (m m' : gmap elmp (hashelm K)) p e : relink c m m' -> m !! p = Some e -> exists e', m' !! p = Some e' /\ hash e' = hash e.
Proof. intros Hr He. destruct (relink_body _ _ _ _ _ Hr He) as (e' & ? & E). exists e'. split; [done|]. by injection E. Qed.

Lemma wp_seq {S A B C} (m : M S A) (f : A -> M S B) (g : B -> M S C) st Q R :
  wp (m ≫= f) st Q -> (forall b st', Q b st' -> wp (g b) st' R) -> wp (m ≫= fun x => f x ≫= g) st R.
Proof.
  unfold wp, mbind, M_bind. destruct (m st) as [[x st']| |]; [|done..].
  destruct (f x st') as [[b st2]| |]; naive_solver.
Qed.

(** The links and the counters of slot [i] change together with the list. *)
Lemma rep_relist L t a hs i s m' c :
  rep L t a -> (i < S (Z.to_nat (a_mask a)))%nat ->
  relink c (elms t) m' -> (forall q, q ∈ c -> q ∈ in_slot (a_mask a) i (a_in a) \/ q ∈ in_slot (a_mask a) i hs) ->
  slot_ok (a_mask a) hs m' L i s ->
  (forall j, j <> i -> in_slot (a_mask a) j hs = in_slot (a_mask a) j (a_in a)) ->
  (forall p h, (p, h) ∈ hs -> exists e, elms t !! p = Some e /\ hash e = h) ->
  (forall p e, m' !! p = Some e -> p ∉ hs.*1 -> pprev (node e) = None) ->
  (forall q, q ∈ c -> forall j, j <> i -> q ∉ in_slot (a_mask a) j (a_in a)) ->
  NoDup hs.*1 -> Z.of_nat (length hs) < 2 ^ 31 ->
  (forall p x, a_elms a !! p = Some x -> owned (a {{ a_in := hs }}) p <= a_refs x) ->
  rep L (t {{ slots := <[i := Some s]> (slots t); count := Z.of_nat (length hs); elms := m' }}) (a {{ a_in := hs }}).
Proof.
  intros [? ? Hsl Hv Hin Hout ? ? ? Hrf] Hi Hrl Hc Hs Hj Hhs Hp Hcj Hnd Hmax Hown. split; try done.
  - intros j Hlt. destruct (Hsl j Hlt) as (s' & Hs' & [? ? ?]). destruct (decide (j = i)) as [->|Hne].
    + exists s. split; [|done]. apply list_lookup_insert_eq. by eapply lookup_lt_Some.
    + exists s'. split.
      { change (<[i:=Some s]> (slots t) !! j = Some (Some s')). by rewrite list_lookup_insert_ne. }
      change (slot_ok (a_mask a) hs m' L j s'). split; [done|by rewrite Hj|]. rewrite Hj by done.
      eapply chain_ext; [|done]. intros q Hq. eapply relink_node; [done|]. intros Hqc. by eapply Hcj.
  - change (view <$> m' = a_elms a). by rewrite (relink_view _ _ _ Hrl).
  - intros p h Hph. destruct (Hhs p h Hph) as (e & He & Hh). destruct (relink_hash _ _ _ _ _ Hrl He) as (e' & ? & ?).
    exists e'. split; [done|congruence].
  - intros p x Hx. pose proof (Hrf p x Hx). specialize (Hown p x Hx). lia.
Qed.
Lemma u64_count (z : Z) : 0 <= z < 2 ^ 31 -> u64 z = z.
Proof. intros. unfold u64. apply Z.mod_small. lia. Qed.
Lemma in_slot_length mk i hs : (length (in_slot mk i hs) <= length hs)%nat.
Proof. unfold in_slot. rewrite length_fmap. apply length_filter. Qed.

(** ** Entering *)
Definition a_enter p (h : Z) a : atable K := a {{ a_in := (p, h) :: a_in a }}.
Lemma enter_ok L t a w p e x :
  at_ L a w t -> elms t !! p = Some e -> a_elms a !! p = Some x -> p ∉ (a_in a).*1 -> 1 <= a_refs x ->
  Z.of_nat (length (a_in a)) + 1 < 2 ^ 31 ->
  wp (add_count (slot_of a (hash e)) 1;; hlist_add_head p (slot_of a (hash e))) t (fun _ => at_ L (a_enter p (hash e) a) w).
Proof.
  intros [Hr <-] He Hx Hp Href Hmax. set (i := slot_of a (hash e)).
  pose proof (slot_of_lt _ _ _ (hash e) Hr) as Hi. fold i in Hi.
  destruct (rp_slots _ _ _ Hr i Hi) as (s & Hs & [Hl Hc Hch]).
  pose proof (rp_nodup _ _ _ Hr) as Hnd. pose proof (in_slot_length (a_mask a) i (a_in a)) as Hlen.
  apply wp_bind. unfold add_count. apply wp_bind. eapply wp_upd_slot; [done|]. apply wp_modS.
  assert (Hpc : p ∉ in_slot (a_mask a) i (a_in a)).
  { intros Hin. apply Hp. eapply elem_of_sublist; [done|apply in_slot_sublist]. }
  eapply (add_head_ok p i _ e _ (in_slot (a_mask a) i (a_in a))).
  - apply list_lookup_insert_eq. by eapply lookup_lt_Some.
  - done.
  - done.
  - by apply in_slot_nodup.
  - done.
  - intros m' Hrl Hch'. split; [|done].
    set (s' := s {{ slot_count := u64 (slot_count s + 1) }} {{ first := Some p }}).
    assert (Hins : in_slot (a_mask a) i ((p, hash e) :: a_in a) = p :: in_slot (a_mask a) i (a_in a)).
    { rewrite in_slot_cons. by rewrite decide_True. }
    assert (Hrep : rep L (t {{ slots := <[i := Some s']> (slots t); count := Z.of_nat (length ((p, hash e) :: a_in a)); elms := m' }})
      (a {{ a_in := (p, hash e) :: a_in a }})).
    { eapply (rep_relist L t a _ i s' m' (p :: in_slot (a_mask a) i (a_in a))); try done.
      - intros q [->|Hq]%elem_of_cons; [right|by left]. rewrite Hins. set_solver.
      - split; [done| |by rewrite Hins]. rewrite Hins. change (u64 (slot_count s + 1) = Z.of_nat (S (length (in_slot (a_mask a) i (a_in a))))).
        rewrite Hc, u64_count by lia. lia.
      - intros j Hj. rewrite in_slot_cons. by rewrite decide_False by (intros E; by apply Hj).
      - intros q h [[= -> ->]|Hq]%elem_of_cons; [eauto|by apply (rp_in _ _ _ Hr)].
      - intros q e' He' Hq. destruct Hrl as [_ Hrl]. rewrite Hrl in He'.
        + eapply (rp_out _ _ _ Hr); [done|]. set_solver.
        + intros [->|Hqi]%elem_of_cons; [set_solver|]. apply Hq. right.
          eapply elem_of_sublist; [done|apply in_slot_sublist].
      - intros q [->|Hq]%elem_of_cons j Hj Hqj.
        + apply Hp. eapply elem_of_sublist; [done|apply in_slot_sublist].
        + apply in_slot_elem in Hq as (h1 & Hh1 & E1), Hqj as (h2 & Hh2 & E2).
          destruct (rp_in _ _ _ Hr _ _ Hh1) as (? & ? & <-), (rp_in _ _ _ Hr _ _ Hh2) as (? & ? & <-). naive_solver.
      - by apply NoDup_cons.
      - simpl. lia.
      - intros q y Hy. unfold owned. change (a_in (a {{ a_in := (p, hash e) :: a_in a }})) with ((p, hash e) :: a_in a).
        pose proof (rp_refs _ _ _ Hr _ _ Hy) as Hq. unfold owned in Hq. destruct (decide (q = p)) as [->|Hne].
        + rewrite Hx in Hy. injection Hy as <-. repeat case_decide; lia.
        + rewrite (decide_ext _ (q ∈ (a_in a).*1)) by (simpl; set_solver). lia. }
    pose proof (rp_count _ _ _ Hr) as Hcount. cbn [length] in Hrep.
    replace (Z.of_nat (S (length (a_in a)))) with (s32 (count t + 1)) in Hrep by (rewrite s32_fits; lia).
    rewrite <- (list_insert_insert_eq (slots t) i (Some s') (Some (s {{ slot_count := u64 (slot_count s + 1) }}))) in Hrep.
    exact Hrep.
Qed.

(** ** Leaving *)
Definition a_leave p a : atable K := a {{ a_in := without p (a_in a) }}.
Lemma without_elem p q h (hs : list (elmp * Z)) : (q, h) ∈ without p hs <-> (q, h) ∈ hs /\ q <> p.
Proof. unfold without. rewrite list_elem_of_filter. naive_solver. Qed.
Lemma same_hash L t a q h1 h2 : rep L t a -> (q, h1) ∈ a_in a -> (q, h2) ∈ a_in a -> h1 = h2.
Proof.
  intros Hr H1 H2. destruct (rp_in _ _ _ Hr _ _ H1) as (? & E1 & <-), (rp_in _ _ _ Hr _ _ H2) as (? & E2 & <-). congruence.
Qed.
Lemma one_slot L t a q i j :
  rep L t a -> q ∈ in_slot (a_mask a) i (a_in a) -> q ∈ in_slot (a_mask a) j (a_in a) -> i = j.
Proof.
  intros Hr (h1 & H1 & <-)%in_slot_elem (h2 & H2 & <-)%in_slot_elem. by rewrite (same_hash _ _ _ _ _ _ Hr H1 H2).
Qed.
Lemma leave_ok L t a w p h :
  at_ L a w t -> (p, h) ∈ a_in a ->
  wp (hlist_del_init p;; add_count (slot_of a h) (-1)) t (fun _ => at_ L (a_leave p a) w).
Proof.
  intros [Hr <-] Hp. set (i := slot_of a h).
  pose proof (slot_of_lt _ _ _ h Hr) as Hi. fold i in Hi.
  destruct (rp_slots _ _ _ Hr i Hi) as (s & Hs & [Hl Hc Hch]).
  pose proof (rp_nodup _ _ _ Hr) as Hnd. pose proof (in_slot_length (a_mask a) i (a_in a)) as Hlen.
  pose proof (rp_count _ _ _ Hr) as Hcount. pose proof (rp_count_max _ _ _ Hr) as Hmax.
  assert (Hpi : p ∈ in_slot (a_mask a) i (a_in a)) by (apply in_slot_elem; eauto).
  assert (Hp1 : p ∈ (a_in a).*1) by (eapply elem_of_sublist; [done|apply in_slot_sublist]).
  destruct (list_elem_of_split _ _ Hpi) as (c1 & c2 & Ec).
  pose proof (in_slot_nodup (a_mask a) i _ Hnd) as Hndi. rewrite Ec in Hndi.
  assert (Hins : in_slot (a_mask a) i (without p (a_in a)) = c1 ++ c2).
  { by rewrite in_slot_without, Ec, filter_ne_split. }
  apply wp_bind. rewrite Ec in Hch. eapply (del_ok p i t s c1 c2); [done..|].
  intros f' m' Hrl Hch' Hnone. unfold add_count. apply wp_bind.
  eapply wp_upd_slot; [apply list_lookup_insert_eq; by eapply lookup_lt_Some|]. apply wp_modS. split; [|done].
  set (s' := s {{ first := f' }} {{ slot_count := u64 (slot_count s + -1) }}).
  pose proof (without_length _ _ Hnd Hp1) as Hw.
  assert (Hrep : rep L (t {{ slots := <[i := Some s']> (slots t); count := Z.of_nat (length (without p (a_in a))); elms := m' }})
    (a {{ a_in := without p (a_in a) }})).
  { eapply (rep_relist L t a _ i s' m' (c1 ++ p :: c2)); try done.
    - rewrite Ec. by left.
    - split; [done| |by rewrite Hins]. rewrite Hins. change (u64 (slot_count s + -1) = Z.of_nat (length (c1 ++ c2))).
      rewrite Ec in Hlen, Hc. rewrite Hc. rewrite !length_app in *. simpl in *. rewrite u64_count; lia.
    - intros j Hj. rewrite in_slot_without. apply filter_ne_id. intros Hpj. apply Hj. by eapply one_slot.
    - intros q h' [Hq _]%without_elem. by apply (rp_in _ _ _ Hr).
    - intros q e He Hq. destruct (decide (q = p)) as [->|Hne]; [by rewrite (Hnone e He)|].
      assert (Hqa : q ∉ (a_in a).*1).
      { intros Hqa. apply Hq. rewrite without_fst. by apply list_elem_of_filter. }
      destruct Hrl as [_ Hrl]. rewrite Hrl in He; [by eapply (rp_out _ _ _ Hr)|].
      rewrite <- Ec. intros Hqi. apply Hqa. eapply elem_of_sublist; [done|apply in_slot_sublist].
    - rewrite <- Ec. intros q Hq j Hj Hqj. apply Hj. by eapply one_slot.
    - rewrite without_fst. by apply NoDup_filter.
    - lia.
    - intros q y Hy. pose proof (rp_refs _ _ _ Hr _ _ Hy) as Hq. unfold owned in *.
      change (a_in (a {{ a_in := without p (a_in a) }})) with (without p (a_in a)).
      destruct (decide (q ∈ (without p (a_in a)).*1)) as [D1|]; [|case_decide; lia].
      rewrite decide_True in Hq; [lia|].
      rewrite without_fst in D1. by apply list_elem_of_filter in D1 as [_ ?]. }
  replace (Z.of_nat (length (without p (a_in a)))) with (s32 (count t + -1)) in Hrep by (rewrite s32_fits; lia).
  rewrite <- (list_insert_insert_eq (slots t) i (Some s') (Some (s {{ first := f' }}))) in Hrep.
  exact Hrep.
Qed.

(** ** Calls *)
Lemma rep_rehash L t a p e h :
  rep L t a -> p ∉ (a_in a).*1 -> elms t !! p = Some e ->
  rep L (t {{ elms := set_elm p (fun e => e {{ hash := h }}) (elms t) }}) a.
Proof.
  intros Hr Hp He. pose proof (rep_lookup _ _ _ p Hr) as Hx. rewrite He in Hx.
  destruct Hr as [? ? Hsl Hv Hin Hout ? ? ? ?].
  assert (Hnode : forall q, node <$> set_elm p (fun e => e {{ hash := h }}) (elms t) !! q = node <$> elms t !! q).
  { intros q. destruct (decide (p = q)) as [->|]; [by rewrite (set_elm_eq _ _ _ _ He), He|by rewrite set_elm_ne]. }
  split; try done.
  - intros i Hi. destruct (Hsl i Hi) as (s & ? & [? ? ?]). exists s. split; [done|]. split; [done..|].
    eapply chain_ext; [|done]. intros q _. apply Hnode.
  - rewrite elms_set, (view_set _ _ _ e (view e)) by done. rewrite Hv. by apply insert_id.
  - intros q h' Hq. rewrite elms_set, set_elm_ne; [by apply Hin|]. intros <-. apply Hp, list_elem_of_fmap. by exists (p, h').
  - intros q e' Hq Hqi. rewrite elms_set in Hq. pose proof (Hnode q) as Hn. rewrite Hq in Hn. symmetry in Hn.
    apply fmap_Some in Hn as (e'' & ? & ->). by eapply Hout.
Qed.
Lemma lseg_hashed (m : gmap elmp (hashelm K)) l f c l' f' q :
  lseg m l f c l' f' -> q ∈ c -> exists e, m !! q = Some e /\ pprev (node e) <> None.
Proof.
  revert l f. induction c as [|p c IH]; intros l f; simpl; [set_solver|].
  intros (_ & e & He & Hp & Hl) [->|Hq]%elem_of_cons; [|eauto]. exists e. rewrite Hp. done.
Qed.
Lemma elem_slot a p h : (p, h) ∈ a_in a -> p ∈ in_slot (a_mask a) (slot_of a h) (a_in a).
Proof. intros Hp. apply in_slot_elem. eauto. Qed.
Lemma unhashed_ok L t a p x :
  rep L t a -> a_elms a !! p = Some x ->
  wp (hlist_unhashed p) t (fun b t' => b = bool_decide (p ∉ (a_in a).*1) /\ t' = t).
Proof.
  intros Hr Hx. destruct (rep_elm _ _ _ _ _ Hr Hx) as (e & He & _). unfold hlist_unhashed.
  apply wp_bind. eapply wp_elm; [done|]. apply wp_ret. split; [|done]. apply bool_decide_ext. split.
  - intros Hn ([q h] & -> & Hq)%list_elem_of_fmap. pose proof (slot_of_lt _ _ _ h Hr) as Hi.
    destruct (rp_slots _ _ _ Hr _ Hi) as (s & _ & [_ _ [l' Hc]]).
    destruct (lseg_hashed _ _ _ _ _ _ _ Hc (elem_slot _ _ _ Hq)) as (e' & He' & Hp). naive_solver.
  - by apply (rp_out _ _ _ Hr).
Qed.
Lemma get_slot_ok L t a h (Q : nat -> hashtable K W -> Prop) : rep L t a -> Q (slot_of a h) t -> wp (get_slot h) t Q.
Proof. intros Hr HQ. apply wp_gets. by rewrite (rp_mask _ _ _ Hr). Qed.

Lemma a_put_mask p a a' : a_put p a = Some a' -> a_mask a' = a_mask a.
Proof. unfold a_put. destruct (a_elms a !! p); [|done]. cbn [mbind option_bind]. destruct (_ <=? _); [|done]. by intros [= <-]. Qed.
Lemma a_hold_mask p a a' : a_hold p a = Some a' -> a_mask a' = a_mask a.
Proof. unfold a_hold. destruct (a_elms a !! p); [|done]. cbn [mbind option_bind]. destruct (_ <? _); [|done]. by intros [= <-]. Qed.
Definition a_hash p k a : option (Z * atable K) :=
  x ← a_elms a !! p;
  if decide (p ∈ (a_in a).*1) then Some (-1, a)
  else if (1 <=? a_refs x) && (Z.of_nat (length (a_in a)) + 1 <? 2 ^ 31) then
    a' ← a_hold p (a_enter p (a_hashfn x k) a); Some (0, a')
  else None.
Lemma hash_ok t a w p k r a' :
  at_ None a w t -> a_hash p k a = Some (r, a') ->
  wp (hashelm_hash p k) t (fun r' t' => r' = r /\ at_ None a' w t').
Proof.
  intros [Hr Hw] Ha. unfold a_hash in Ha. destruct (a_elms a !! p) as [x|] eqn:Hx; [|done]. cbn [mbind option_bind] in Ha.
  unfold hashelm_hash. apply wp_bind. eapply wp_mono; [by eapply unhashed_ok|]. intros ? ? [-> ->].
  destruct (decide (p ∈ (a_in a).*1)) as [Hp|Hp].
  { injection Ha as <- <-. rewrite bool_decide_eq_false_2 by naive_solver. by apply wp_ret. }
  rewrite bool_decide_eq_true_2 by done. cbn [negb].
  destruct (Z.leb_spec 1 (a_refs x)); [|done]. destruct (Z.ltb_spec (Z.of_nat (length (a_in a)) + 1) (2 ^ 31)); [|done]. simpl in Ha.
  destruct (a_hold _ _) as [a2|] eqn:Hh; [|done]. injection Ha as <- <-.
  destruct (rep_elm _ _ _ _ _ Hr Hx) as (e & He & Hv). apply wp_bind. eapply wp_elm; [done|].
  apply wp_bind. eapply wp_upd_elm; [done|].
  pose proof (rep_rehash _ _ _ _ _ (hashfn e k) Hr Hp He) as Hr1.
  replace (hashfn e k) with (a_hashfn x k) in * by (by rewrite <- Hv). set (h := a_hashfn x k) in *.
  set (g := fun e : hashelm K => e {{ hash := hashfn e k }}).
  assert (Eg : set_elm p g (elms t) = set_elm p (fun e => e {{ hash := h }}) (elms t)).
  { apply map_eq. intros q. destruct (decide (p = q)) as [<-|]; [|by rewrite !set_elm_ne].
    rewrite !(set_elm_eq _ _ _ _ He). unfold g, h. by rewrite <- Hv. }
  rewrite Eg. clear Eg g. set (t1 := t {{ elms := _ }}) in *.
  assert (He1 : elms t1 !! p = Some (e {{ hash := h }})) by (unfold t1; rewrite elms_set; exact (set_elm_eq _ _ _ _ He)).
  apply wp_bind. eapply get_slot_ok; [done|].
  pose proof (slot_of_lt _ _ _ h Hr) as Hi.
  apply wp_bind. eapply wp_mono; [by apply (lock_ok t1 a (slot_of a h) w)|]. intros [] t2 [Hat2 E2].
  assert (He2 : elms t2 !! p = Some (e {{ hash := h }})) by (by rewrite E2).
  pose proof (enter_ok (Some (slot_of a h)) t2 a w p _ x Hat2 He2) as Hent. change (hash (e {{ hash := h }})) with h in Hent.
  eapply wp_seq; [by apply Hent|]. intros [] t3 Hat3.
  apply wp_bind. eapply wp_mono; [by eapply elm_hold_ok|]. intros [] t4 Hat4.
  apply wp_bind. eapply wp_mono; [eapply unlock_ok; [done|]|].
  - by rewrite (a_hold_mask _ _ _ Hh).
  - intros [] t5 Hat5. by apply wp_ret.
Qed.

Definition a_unhash p a : option (atable K) :=
  if decide (p ∈ (a_in a).*1) then a_put p (a_leave p a) else None.
(** With the slot locked by the caller. *)
Lemma unhash_locked_ok L t a w p a' :
  at_ L a w t -> a_unhash p a = Some a' -> wp (__hashelm_unhash p) t (fun _ => at_ L a' w).
Proof.
  intros Hat Ha. unfold a_unhash in Ha. case_decide as Hp; [|done].
  apply list_elem_of_fmap in Hp as ([q h] & E & Hp). simpl in E. subst q. destruct Hat as [Hr Hw].
  destruct (rp_in _ _ _ Hr _ _ Hp) as (e & He & <-). unfold __hashelm_unhash.
  apply wp_bind. eapply wp_elm; [done|]. apply wp_bind. eapply get_slot_ok; [done|].
  eapply wp_seq; [by eapply leave_ok|]. intros [] t2 Hat2. by eapply put_ok.
Qed.
Lemma unhash_ok t a w p a' :
  at_ None a w t -> a_unhash p a = Some a' -> wp (hashelm_unhash p) t (fun _ => at_ None a' w).
Proof.
  intros Hat Ha. unfold a_unhash in Ha. case_decide as Hp; [|done].
  apply list_elem_of_fmap in Hp as ([q h] & E & Hp). simpl in E. subst q. pose proof Hat as [Hr Hw].
  destruct (rp_in _ _ _ Hr _ _ Hp) as (e & He & <-). pose proof (slot_of_lt _ _ _ (hash e) Hr) as Hi. unfold hashelm_unhash.
  apply wp_bind. eapply wp_elm; [done|]. apply wp_bind. eapply get_slot_ok; [done|].
  apply wp_bind. eapply wp_mono; [by eapply lock_ok|]. intros [] t1 [Hat1 _].
  eapply wp_seq; [by eapply leave_ok|]. intros [] t2 Hat2.
  apply wp_bind. eapply wp_mono; [by eapply put_ok|]. intros [] t3 Hat3.
  eapply unlock_ok; [done|]. by rewrite (a_put_mask _ _ _ Ha).
Qed.

(** ** Lookup *)
Definition a_match a k p : bool := match a_elms a !! p with Some x => a_equal x k | None => false end.
Lemma lookup_loop_ok L t a k fuel l f c l' (Q : option elmp -> hashtable K W -> Prop) :
  rep L t a -> lseg (elms t) l f c l' None -> (length c <= fuel)%nat ->
  match head (filter (fun p => a_match a k p) c) with
  | None => Q None t
  | Some p => wp (hashelm_hold p) t (fun _ t' => Q (Some p) t')
  end -> wp (lookup_loop fuel f k) t Q.
Proof.
  intros Hr. revert fuel l f. induction c as [|p c IH]; intros fuel l f Hl Hf HQ.
  { destruct Hl as [_ ->]. destruct fuel; by apply wp_ret. }
  destruct fuel as [|fuel]; simpl in Hf; [lia|]. destruct Hl as (-> & e & He & _ & Hl). cbn [lookup_loop].
  apply wp_bind. eapply wp_elm; [done|]. rewrite filter_cons in HQ.
  assert (E : a_match a k p = equalfn e k) by (unfold a_match; by rewrite (rep_lookup _ _ _ _ Hr), He).
  rewrite E in HQ. destruct (equalfn e k).
  - rewrite decide_True in HQ by done. simpl in HQ. apply wp_bind. eapply wp_mono; [done|]. by intros [] t' ?.
  - rewrite decide_False in HQ by naive_solver. eapply IH; [done|lia|done].
Qed.
Lemma chain_fuel (m : gmap elmp (hashelm K)) l f c : NoDup c -> chain m l f c -> (length c <= size m)%nat.
Proof.
  intros Hn [l' Hl]. rewrite <- size_dom. rewrite <- (size_list_to_set (C:=gset elmp) c) by done.
  apply subseteq_size. intros q Hq%elem_of_list_to_set. apply elem_of_dom. by eapply lseg_dom.
Qed.
(** Elements equal to the key are in the slot where it is looked for. *)
Definition a_consistent k (hf : K -> Z) a : bool :=
  forallb (fun x => implb (a_match a k x.1) (slot_of a x.2 =? slot_of a (hf k))%nat) (a_in a).
Definition a_lookup k (hf : K -> Z) a : option (option elmp * atable K) :=
  if a_consistent k hf a then
    match head (filter (fun p => a_match a k p) (a_in a).*1) with
    | None => Some (None, a)
    | Some p => a' ← a_hold p a; Some (Some p, a')
    end
  else None.
Lemma in_slot_match k hf a :
  a_consistent k hf a = true ->
  filter (fun p => a_match a k p) (in_slot (a_mask a) (slot_of a (hf k)) (a_in a)) =
  filter (fun p => a_match a k p) (a_in a).*1.
Proof.
  unfold a_consistent. generalize (a_in a). intros hs. induction hs as [|[p h] hs IH]; [done|].
  cbn [forallb fst snd]. intros [H1 H2]%andb_prop. rewrite in_slot_cons. cbn [fmap list_fmap fst].
  rewrite (filter_cons _ p hs.*1), <- IH by done.
  change (Z.to_nat (Z.land h (a_mask a))) with (slot_of a h).
  destruct (decide (slot_of a h = slot_of a (hf k))) as [D|D]; [by rewrite filter_cons|].
  apply Nat.eqb_neq in D. rewrite D in H1. by destruct (a_match a k p).
Qed.
Lemma lookup_ok t a w k hf r a' :
  at_ None a w t -> a_lookup k hf a = Some (r, a') ->
  wp (hashtable_lookup k hf) t (fun r' t' => r' = r /\ at_ None a' w t').
Proof.
  intros Hat Ha. pose proof Hat as [Hr _]. pose proof (slot_of_lt _ _ _ (hf k) Hr) as Hi.
  unfold hashtable_lookup. apply wp_bind. eapply get_slot_ok; [done|].
  apply wp_bind. eapply wp_mono; [by eapply lock_ok|]. intros [] t1 [Hat1 _]. pose proof Hat1 as [Hr1 _].
  destruct (rp_slots _ _ _ Hr1 _ Hi) as (s & Hs & [_ _ Hc]).
  apply wp_bind. eapply wp_slot; [done|]. apply wp_bind, wp_gets.
  assert (Hnd : NoDup (in_slot (a_mask a) (slot_of a (hf k)) (a_in a))) by (apply in_slot_nodup, (rp_nodup _ _ _ Hr)).
  pose proof (chain_fuel _ _ _ _ Hnd Hc) as Hf. destruct Hc as [l' Hl].
  unfold a_lookup in Ha. destruct (a_consistent k hf a) eqn:Hcs; [|done].
  apply wp_bind. eapply lookup_loop_ok; [done..|]. rewrite (in_slot_match _ _ _ Hcs).
  destruct (head _) as [p|].
  - destruct (a_hold p a) as [a1|] eqn:Hh; [|done]. injection Ha as <- <-.
    eapply wp_mono; [by eapply elm_hold_ok|]. intros [] t2 Hat2. apply wp_bind.
    eapply wp_mono; [eapply unlock_ok; [done|by rewrite (a_hold_mask _ _ _ Hh)]|]. intros [] t3 Hat3. by apply wp_ret.
  - injection Ha as <- <-. apply wp_bind. eapply wp_mono; [by eapply unlock_ok|]. intros [] t3 Hat3. by apply wp_ret.
Qed.

(** ** New elements *)
Definition a_new p (hf : K -> Z) (ef : K -> bool) (ff : bool) a : option (atable K) :=
  match a_elms a !! p with
  | Some _ => None
  | None => Some (a {{ a_elms := <[p := AElm 1 hf ef ff]> (a_elms a) }})
  end.
(** The client allocates an element, whose content is arbitrary, and initialises
    it. *)
Definition new_elm p (g : hashelm K) (hf : K -> Z) (ef : K -> bool) (ff : bool) : HTM K W Z :=
  modS (fun t => t {{ elms := <[p := g]> (elms t) }});; hashelm_init p hf ef ff.
Lemma rep_new L t a p e :
  rep L t a -> elms t !! p = None -> pprev (node e) = None -> 0 <= refcount e < 2 ^ 31 ->
  rep L (t {{ elms := <[p := e]> (elms t) }}) (a {{ a_elms := <[p := view e]> (a_elms a) }}).
Proof.
  intros Hr Hp Hn Hrf. assert (Hpin : p ∉ (a_in a).*1).
  { intros ([q h] & E & Hq)%list_elem_of_fmap. destruct (rp_in _ _ _ Hr _ _ Hq). naive_solver. }
  destruct Hr as [? ? Hsl Hv Hin Hout ? ? ? Hrefs]. split; try done.
  - intros i Hi. destruct (Hsl i Hi) as (s & ? & [? ? ?]). exists s. split; [done|]. split; [done..|].
    eapply chain_ext; [|done]. intros q Hq. rewrite elms_set, lookup_insert_ne; [done|]. intros <-.
    apply Hpin. eapply elem_of_sublist; [done|apply in_slot_sublist].
  - by rewrite elms_set, a_elms_set, fmap_insert, Hv.
  - intros q h Hq. rewrite elms_set, lookup_insert_ne; [by apply Hin|]. intros <-. apply Hpin, list_elem_of_fmap. by exists (p, h).
  - rewrite elms_set. intros q e' [[-> <-]|[_ He]]%lookup_insert_Some; [done|by apply Hout].
  - rewrite a_elms_set. intros q x [[-> <-]|[_ Hx]]%lookup_insert_Some; [|by apply Hrefs].
    unfold owned. rewrite decide_False; done.
Qed.
Lemma new_ok t a w p g hf ef ff a' :
  at_ None a w t -> a_new p hf ef ff a = Some a' -> wp (new_elm p g hf ef ff) t (fun r t' => r = 0 /\ at_ None a' w t').
Proof.
  intros [Hr <-] Ha. unfold a_new in Ha. destruct (a_elms a !! p) eqn:Hx; [done|]. injection Ha as <-.
  assert (Hp : elms t !! p = None) by (rewrite (rep_lookup _ _ _ _ Hr) in Hx; by destruct (elms t !! p)).
  unfold new_elm. apply wp_bind, wp_modS. unfold hashelm_init. apply wp_bind.
  eapply wp_upd_elm; [by rewrite elms_set, lookup_insert_eq|]. apply wp_ret. split; [done|]. split; [|done].
  set (e := g {{ node := HNode None None; refcount := 1; hashfn := hf; equalfn := ef; freefn := ff }}).
  pose proof (rep_new None t a p e Hr Hp eq_refl ltac:(change (0 <= 1 < 2 ^ 31); lia)) as Hn.
  rewrite elms_set. rewrite <- (set_elm_insert _ _ _ g) by apply lookup_insert_eq.
  rewrite insert_insert_eq. exact Hn.
Qed.

(** ** Visiting every element

    [act] runs with the slot locked and has the effect [F] on the abstract state;
    it may take the element it is called with out of the table, and keeps [J]. *)
Section Visit.
Variables (act : elmp -> HTM K W unit) (F : elmp -> atable K * W -> atable K * W).
Variable J : atable K -> W -> Prop.
Hypothesis act_ok : forall i t a w p,
  at_ (Some i) a w t -> J a w -> p ∈ in_slot (a_mask a) i (a_in a) ->
  wp (act p) t (fun _ => at_ (Some i) (F p (a, w)).1 (F p (a, w)).2) /\
  J (F p (a, w)).1 (F p (a, w)).2 /\ a_mask (F p (a, w)).1 = a_mask a /\
  (a_in (F p (a, w)).1 = a_in a \/ a_in (F p (a, w)).1 = without p (a_in a)).
Definition visit (s : atable K * W) (c : list elmp) : atable K * W := fold_left (fun s p => F p s) c s.

Lemma lseg_head (m : gmap elmp (hashelm K)) l f c l' : lseg m l f c l' None -> f = head c.
Proof. destruct c; [by intros [_ ->]|by intros [-> _]]. Qed.
Lemma each_ok i c pre t a w fuel :
  at_ (Some i) a w t -> J a w -> (i < S (Z.to_nat (a_mask a)))%nat -> in_slot (a_mask a) i (a_in a) = pre ++ c -> (length c <= fuel)%nat ->
  wp (for_each_entry_safe fuel (head c) act) t (fun n t' => n = length c /\
    at_ (Some i) (visit (a, w) c).1 (visit (a, w) c).2 t' /\ J (visit (a, w) c).1 (visit (a, w) c).2 /\ a_mask (visit (a, w) c).1 = a_mask a /\
    forall j, j <> i -> in_slot (a_mask a) j (a_in (visit (a, w) c).1) = in_slot (a_mask a) j (a_in a)).
Proof.
  revert pre t a w fuel. induction c as [|p c IH]; intros pre t a w fuel Hat HJ Hi Hin Hf.
  { destruct fuel; by apply wp_ret. }
  destruct fuel as [|fuel]; simpl in Hf; [lia|]. cbn [for_each_entry_safe head].
  pose proof Hat as [Hr _]. destruct (rp_slots _ _ _ Hr _ Hi) as (s & Hs & [_ _ [l' Hl]]). rewrite Hin in Hl.
  apply lseg_app in Hl as (l1 & f1 & _ & (-> & e & He & _ & Hl)). apply lseg_head in Hl.
  pose proof (in_slot_nodup (a_mask a) i _ (rp_nodup _ _ _ Hr)) as Hnd. rewrite Hin in Hnd.
  assert (Hp : p ∈ in_slot (a_mask a) i (a_in a)) by (rewrite Hin; set_solver).
  destruct (act_ok i t a w p Hat HJ Hp) as (Hact & HJ1 & Hmk & Hset).
  apply wp_bind. eapply wp_elm; [done|]. rewrite Hl. apply wp_bind. eapply wp_mono; [done|]. intros [] t1 Hat1. clear Hact.
  change (visit (a, w) (p :: c)) with (visit (F p (a, w)) c). destruct (F p (a, w)) as [a1 w1]. cbn [fst snd] in *.
  assert (Hin1 : exists pre', in_slot (a_mask a) i (a_in a1) = pre' ++ c).
  { destruct Hset as [Es|Es]; rewrite Es.
    - exists (pre ++ [p]). by rewrite Hin, <- app_assoc.
    - exists pre. by rewrite in_slot_without, Hin, filter_ne_split. }
  destruct Hin1 as [pre' Hin1]. rewrite <- Hmk in Hin1, Hi.
  apply wp_bind. eapply wp_mono; [eapply IH; [done..|lia]|]. intros n t' (-> & Hat' & HJ' & Hmk' & Hj).
  apply wp_ret. rewrite Hmk in *. split_and!; [done..|]. intros j Hne. rewrite Hj by done.
  destruct Hset as [Es|Es]; rewrite Es; [done|]. rewrite in_slot_without. apply filter_ne_id. intros Hpj. apply Hne. by eapply one_slot.
Qed.
Lemma each_slots_ok (n : nat) i t a w hs (z : Z) vs :
  at_ None a w t -> J a w -> (i + n = S (Z.to_nat (a_mask a)))%nat ->
  (forall j, (i <= j)%nat -> in_slot (a_mask a) j (a_in a) = in_slot (a_mask a) j hs) ->
  vs = concat (map (fun i => in_slot (a_mask a) i hs) (seq i n)) ->
  wp (for_each_slots n i z act) t (fun r t' => r = z + Z.of_nat (length vs) /\
    at_ None (visit (a, w) vs).1 (visit (a, w) vs).2 t').
Proof.
  revert i t a w z vs. induction n as [|n IH]; intros i t a w z vs Hat HJ Hn Hhs ->; pose proof Hat as [Hr _];
    pose proof (rp_range _ _ _ Hr); cbn [for_each_slots]; apply wp_bind, wp_gets; rewrite (rp_mask _ _ _ Hr).
  { destruct (Z.ltb_spec (a_mask a) (Z.of_nat i)); [|lia]. apply wp_ret. simpl. split; [lia|done]. }
  destruct (Z.ltb_spec (a_mask a) (Z.of_nat i)); [lia|]. assert (Hi : (i < S (Z.to_nat (a_mask a)))%nat) by lia.
  apply wp_bind. eapply wp_mono; [by eapply lock_ok|]. intros [] t1 [Hat1 _]. pose proof Hat1 as [Hr1 _].
  destruct (rp_slots _ _ _ Hr1 _ Hi) as (s & Hs & [_ _ Hc]).
  unfold each_of_slot. apply wp_bind. eapply wp_mono.
  { apply wp_bind. eapply wp_slot; [done|]. apply wp_bind, wp_gets.
    pose proof (chain_fuel _ _ _ _ (in_slot_nodup _ _ _ (rp_nodup _ _ _ Hr)) Hc) as Hf. destruct Hc as [l' Hl].
    rewrite (lseg_head _ _ _ _ _ Hl). eapply (each_ok i _ []); done. }
  intros m t2 (-> & Hat2 & HJ2 & Hmk & Hj). apply wp_bind. eapply wp_mono; [eapply unlock_ok; [done|by rewrite Hmk]|].
  intros [] t3 Hat3. destruct (Z.leb_spec (2 ^ 31) (Z.of_nat i + 1)); [lia|].
  rewrite (Hhs i) in * by lia. cbn [seq map concat]. set (c := in_slot (a_mask a) i hs) in *.
  unfold visit at 1 2. rewrite fold_left_app. fold (visit (a, w) c). destruct (visit (a, w) c) as [a1 w1]. cbn [fst snd] in *.
  eapply wp_mono.
  - eapply (IH (S i)); [done|done|lia| |by rewrite Hmk]. intros j Hlt. rewrite Hmk, Hj by lia. apply Hhs. lia.
  - intros r t' (-> & Hat'). split; [|done]. rewrite length_app. lia.
Qed.
Lemma for_each_ok t a w :
  at_ None a w t -> J a w ->
  wp (hashtable_for_each (Some act)) t (fun n t' => exists vs, vs ≡ₚ (a_in a).*1 /\ n = Z.of_nat (length (a_in a)) /\
    at_ None (visit (a, w) vs).1 (visit (a, w) vs).2 t').
Proof.
  intros Hat HJ. pose proof Hat as [Hr _]. unfold hashtable_for_each. apply wp_bind, wp_gets. rewrite (rp_mask _ _ _ Hr).
  eapply wp_mono; [by eapply each_slots_ok|]. intros n t' (-> & Hat'). eexists. split_and!; [|  |done].
  - apply in_slot_all. intros [q h] _. by eapply slot_of_lt.
  - rewrite in_slot_all by (intros [q h] _; by eapply slot_of_lt). by rewrite length_fmap.
Qed.
End Visit.

(** ** Initialisation *)
Lemma init_loop_ok (n i : nat) (t : hashtable K W) :
  (i + n = length (slots t))%nat -> mask t = Z.of_nat (length (slots t)) - 1 -> Z.of_nat (length (slots t)) < 2 ^ 31 ->
  (forall j, (j < i)%nat -> slots t !! j = Some (Some (HashSlot None 0 false))) ->
  wp (for_slots n i (fun i t =>
      match slots t !! i with
      | Some _ => Ok (tt, t {{ slots := <[i := Some (HashSlot None 0 false)]> (slots t) }})
      | None => Fault
      end)) t (fun _ t' => t' = t {{ slots := replicate (length (slots t)) (Some (HashSlot None 0 false)) }}).
Proof.
  revert i t. induction n as [|n IH]; intros i t Hn Hmk Hlt Hj; cbn [for_slots]; apply wp_bind, wp_gets; rewrite Hmk.
  - destruct (Z.ltb_spec (Z.of_nat (length (slots t)) - 1) (Z.of_nat i)); [|lia]. apply wp_ret.
    replace (replicate _ _) with (slots t); [by destruct t|]. apply list_eq. intros j. destruct (decide (j < i)%nat).
    + rewrite Hj by done. symmetry. apply lookup_replicate. split; [done|lia].
    + rewrite !lookup_ge_None_2; [done|rewrite length_replicate; lia|lia].
  - destruct (Z.ltb_spec (Z.of_nat (length (slots t)) - 1) (Z.of_nat i)); [lia|]. apply wp_bind.
    destruct (lookup_lt_is_Some_2 (slots t) i) as [s Hs]; [lia|]. unfold wp at 1. rewrite Hs.
    destruct (Z.leb_spec (2 ^ 31) (Z.of_nat i + 1)); [lia|].
    set (t1 := t {{ slots := _ }}). assert (Hlen : length (slots t1) = length (slots t)) by apply length_insert.
    eapply wp_mono; [apply (IH (S i) t1); rewrite ?Hlen; try done; [lia|]|].
    + intros j Hlt'. change (slots t1) with (<[i := Some (HashSlot None 0 false)]> (slots t)).
      destruct (decide (j = i)) as [->|]; [by rewrite list_lookup_insert_eq by lia|].
      rewrite list_lookup_insert_ne by done. apply Hj. lia.
    + intros [] t' ->. by rewrite Hlen.
Qed.
(** A table over elements that are in none. *)
Lemma init_ok (t : hashtable K W) (n : Z) :
  0 < n < 2 ^ 31 - 1 -> (forall p e, elms t !! p = Some e -> pprev (node e) = None /\ 0 <= refcount e < 2 ^ 31) ->
  wp (hashtable_init n true) t (fun r t' => r = 0 /\ at_ None (ATable (n - 1) [] (view <$> elms t)) (env t) t').
Proof.
  intros Hn Ht. unfold hashtable_init. apply wp_bind, wp_modS. cbn [negb]. apply wp_bind, wp_modS. apply wp_bind, wp_modS.
  set (t1 := t {{ slots := _ }} {{ mask := _ }} {{ count := 0 }} {{ slots := replicate _ _ }} {{ mask := _ }} {{ count := 0 }}).
  assert (Hlen : length (slots t1) = Z.to_nat n) by apply length_replicate.
  assert (Hmk : mask t1 = n - 1) by (change (u32 (n - 1) = n - 1); apply u32_id; lia).
  unfold all_slots. apply wp_bind. apply wp_bind, wp_gets. rewrite Hmk. replace (S (Z.to_nat (n - 1))) with (Z.to_nat n) by lia.
  eapply wp_mono; [apply init_loop_ok; rewrite ?Hlen; try done; [lia|lia|intros; lia]|].
  intros [] t' ->. rewrite Hlen. apply wp_ret. split; [done|]. split; [|done]. split; try done.
  - cbn. lia.
  - cbn [a_mask a_in]. intros i Hi. exists (HashSlot None 0 false). split; [apply lookup_replicate; split; [done|lia]|].
    split; [done..|]. by exists (LFirst i).
  - intros p h Hp. set_solver.
  - intros p e He _. by apply (Ht p e).
  - apply NoDup_nil_2.
  - cbn [a_elms]. intros p x Hx. rewrite lookup_fmap in Hx. destruct (elms t !! p) as [e|] eqn:He; [|done].
    injection Hx as <-. unfold owned. rewrite decide_False by set_solver. by apply (Ht p e).
Qed.
End Ops.

From S2P Require Import Hash.

Section History.
Context {K W : Type}.

(** The calls of a client. *)
Inductive hop :=
| HNew (p : elmp) (g : hashelm K) (hf : K -> Z) (ef : K -> bool) (ff : bool)
| HHash (p : elmp) (k : K)
| HUnhash (p : elmp)
| HLookup (k : K) (hf : K -> Z)
| HHold (p : elmp)
| HPut (p : elmp)
| HHashed (p : elmp)
| HCount.
Inductive hres := RInt (z : Z) | RElm (o : option elmp) | RUnit.

Definition run_op (o : hop) : HTM K W hres :=
  match o with
  | HNew p g hf ef ff => r ← new_elm p g hf ef ff; mret (RInt r)
  | HHash p k => r ← hashelm_hash p k; mret (RInt r)
  | HUnhash p => hashelm_unhash p;; mret RUnit
  | HLookup k hf => r ← hashtable_lookup k hf; mret (RElm r)
  | HHold p => hashelm_hold p;; mret RUnit
  | HPut p => hashelm_put p;; mret RUnit
  | HHashed p => b ← hashelm_hashed p; mret (RInt (Z.b2z b))
  | HCount => r ← hashtable_count; mret (RInt r)
  end.
(** What they do to the list of elements.  [None]: the client releases a
    reference that it does not have, uses an element that is not in memory or not
    in the table, overflows a counter, or looks up a key with a hash function
    under which an equal element would be in another slot. *)
Definition a_op (o : hop) (a : atable K) : option (hres * atable K) :=
  match o with
  | HNew p _ hf ef ff => a' ← a_new p hf ef ff a; Some (RInt 0, a')
  | HHash p k => '(r, a') ← a_hash p k a; Some (RInt r, a')
  | HUnhash p => a' ← a_unhash p a; Some (RUnit, a')
  | HLookup k hf => '(r, a') ← a_lookup k hf a; Some (RElm r, a')
  | HHold p => a' ← a_hold p a; Some (RUnit, a')
  | HPut p => a' ← a_put p a; Some (RUnit, a')
  | HHashed p => _ ← a_elms a !! p; Some (RInt (Z.b2z (bool_decide (p ∈ (a_in a).*1))), a)
  | HCount => Some (RInt (Z.of_nat (length (a_in a))), a)
  end.
Fixpoint run_ops (os : list hop) : HTM K W (list hres) :=
  match os with
  | [] => mret []
  | o :: os => r ← run_op o; rs ← run_ops os; mret (r :: rs)
  end.
Fixpoint a_ops (os : list hop) (a : atable K) : option (list hres * atable K) :=
  match os with
  | [] => Some ([], a)
  | o :: os => '(r, a1) ← a_op o a; '(rs, a2) ← a_ops os a1; Some (r :: rs, a2)
  end.

Lemma op_ok o t a w r a' :
  at_ None a w t -> a_op o a = Some (r, a') -> wp (run_op o) t (fun r' t' => r' = r /\ at_ None a' w t').
Proof.
  intros Hat Ha. destruct o; simpl in Ha |- *; apply wp_bind.
  - destruct (a_new _ _ _ _ _) eqn:E; [|done]. injection Ha as <- <-.
    eapply wp_mono; [by eapply new_ok|]. by intros ? t' [-> ?].
  - destruct (a_hash _ _ _) as [[]|] eqn:E; [|done]. injection Ha as <- <-.
    eapply wp_mono; [by eapply hash_ok|]. by intros ? t' [-> ?].
  - destruct (a_unhash _ _) eqn:E; [|done]. injection Ha as <- <-.
    eapply wp_mono; [by eapply unhash_ok|]. by intros ? t' ?.
  - destruct (a_lookup _ _ _) as [[]|] eqn:E; [|done]. injection Ha as <- <-.
    eapply wp_mono; [by eapply lookup_ok|]. by intros ? t' [-> ?].
  - destruct (a_hold _ _) eqn:E; [|done]. injection Ha as <- <-.
    eapply wp_mono; [by eapply elm_hold_ok|]. by intros ? t' ?.
  - destruct (a_put _ _) eqn:E; [|done]. injection Ha as <- <-.
    eapply wp_mono; [by eapply put_ok|]. by intros ? t' ?.
  - destruct (a_elms a !! p) eqn:E; [|done]. injection Ha as <- <-. destruct Hat as [Hr Hw]. unfold hashelm_hashed.
    apply wp_bind. eapply wp_mono; [by eapply unhashed_ok|]. intros ? t' [-> ->]. apply wp_ret. split; [|done].
    do 2 f_equal. rewrite <- bool_decide_not. apply bool_decide_ext. split; [apply dec_stable|naive_solver].
  - injection Ha as <- <-. destruct Hat as [Hr Hw]. apply wp_gets, wp_ret. split; [|done].
    rewrite (rp_count _ _ _ Hr). pose proof (rp_count_max _ _ _ Hr). by rewrite u32_id by lia.
Qed.
Lemma ops_ok os t a w rs a' :
  at_ None a w t -> a_ops os a = Some (rs, a') -> wp (run_ops os) t (fun rs' t' => rs' = rs /\ at_ None a' w t').
Proof.
  revert t a rs. induction os as [|o os IH]; simpl; intros t a rs Hat Ha.
  { injection Ha as <- <-. by apply wp_ret. }
  destruct (a_op o a) as [[r a1]|] eqn:E1; [|done]. simpl in Ha. destruct (a_ops os a1) as [[rs' a2]|] eqn:E2; [|done].
  injection Ha as <- <-. apply wp_bind. eapply wp_mono; [by eapply op_ok|]. intros ? t1 [-> Hat1].
  apply wp_bind. eapply wp_mono; [by eapply IH|]. intros ? t2 [-> Hat2]. by apply wp_ret.
Qed.

(** C11 (refinement): a hash table is a list of elements.  A table of any size,
    on which any calls are made whose clients respect the reference counts,
    answers each of them like the list: an element is entered once, a lookup
    finds the newest element equal to the key and takes a reference on it,
    removal takes out the element and nothing else, and an element is freed with
    its last reference; no call faults, deadlocks or loops, and afterwards every
    chain, lock, counter and reference count is as it should be. *)
Theorem table_history n os (t : hashtable K W) rs a :
  0 < n < 2 ^ 31 - 1 -> elms t = ∅ -> a_ops os (ATable (n - 1) [] ∅) = Some (rs, a) ->
  exists t', (hashtable_init n true;; run_ops os) t = Ok (rs, t') /\ rep None t' a /\ env t' = env t.
Proof.
  intros Hn He Ha.
  assert (Hwp : wp (hashtable_init n true;; run_ops os) t (fun rs' t' => rs' = rs /\ at_ None a (env t) t')).
  { apply wp_bind. eapply wp_mono; [apply init_ok; [done|]|].
    - rewrite He. intros p e. by rewrite lookup_empty.
    - intros ? t1 [_ Hat]. rewrite He, fmap_empty in Hat. by eapply ops_ok. }
  apply wp_run in Hwp as (? & t' & ? & -> & ? & ?). eauto.
Qed.
End History.
Arguments hop : clear implicits.

Module TableDemo.
(** Names as keys, in a table with two slots. *)
Definition hf (k : list Z) : Z := default 0 (full_name_hash k (Z.of_nat (length k))).
Definition garbage : hashelm (list Z) := HashElm (HNode (Some 9%nat) (Some (LNext 9%nat))) 77 5 hf (fun _ => true) false.
Definition new (p : elmp) (name : list Z) : hop (list Z) :=
  HNew p garbage hf (fun k => bool_decide (k = name)) true.
Definition calls : list (hop (list Z)) :=
  [new 1%nat [97; 98]; HHash 1%nat [97; 98]; HPut 1%nat; new 2%nat [99]; HHash 2%nat [99]; HHash 2%nat [99];
   new 3%nat [97; 98]; HHash 3%nat [97; 98]; HPut 3%nat; HCount; HLookup [97; 98] hf; HPut 3%nat; HUnhash 3%nat;
   HLookup [97; 98] hf; HUnhash 1%nat; HLookup [97; 98] hf; HHashed 2%nat; HPut 1%nat; HCount].
Definition empty : hashtable (list Z) unit := HashTable [] 0 0 ∅ ().

Definition answers : list hres :=
  [RInt 0; RInt 0; RUnit; RInt 0; RInt 0; RInt (-1); RInt 0; RInt 0; RUnit; RInt 3; RElm (Some 3%nat); RUnit; RUnit;
   RElm (Some 1%nat); RUnit; RElm None; RInt 1; RUnit; RInt 1].
(** The calls are allowed: the last reference on elements 3 and 1 frees them. *)
Lemma allowed :
  (fun x : list hres * atable (list Z) => (x.1, (a_in x.2).*1, map fst (map_to_list (a_elms x.2)))) <$>
  a_ops calls (ATable 1 [] ∅) = Some (answers, [2%nat], [2%nat]).
Proof. vm_compute. reflexivity. Qed.
Lemma table_history_witness :
  exists t', (hashtable_init 2 true;; run_ops calls) empty = Ok (answers, t') /\ count t' = 1.
Proof.
  destruct (a_ops calls (ATable 1 [] ∅)) as [[rs a]|] eqn:E; [|exfalso; pose proof allowed as H; by rewrite E in H].
  pose proof allowed as H. rewrite E in H. injection H as -> Hin _.
  destruct (table_history 2 calls empty answers a) as (t' & Ht & Hr & _); [lia|reflexivity|exact E|].
  exists t'. split; [exact Ht|]. rewrite (rp_count _ _ _ Hr), <- (length_fmap fst), Hin. reflexivity.
Defined.
End TableDemo.
