(* ===== verification/Ctrl.v ===== *)
(** * The control channel (src/stack/userlevel/ctrl.c, src/stack/ctrl_handler.c)

    Messages of clients arrive in the static buffer [rbuf]; a client is
    remembered in the hash table [ctrl_clients] under the path of its socket, and
    replies go to all clients.  The handlers read the packed structures of
    include/serval/ctrlmsg.h from the buffer, in the byte order of the machine
    (little endian), change the service table and write their reply in place.  A
    read or write outside a buffer is a fault.

    [srv] is the service table, [clients] the hash table with the clients'
    addresses and what is sent to them in its [env], [devs] the network devices
    in the order of the chains of [dev_name_head], [dev_first] the position of the
    one that was registered first.  The results of [sendto] are
    taken from a list, whose end is success; allocations from that of the service
    table. *)
From S2P Require Import Prelude Bst ServiceEntry ServiceTable Hash Hashtable.
From coqutil Require Export Datatypes.RecordSetters.
Export DoubleBraceUpdate.
Local Open Scope Z_scope.

Record net_device := NetDevice { dv_name : list Z; dv_ifindex : Z; dv_addr : Z; dv_netmask : Z; dv_refs : Z }.

(** [struct ctrl_client] without its hash element, the datagrams sent with their
    destinations, and the results of the calls to [sendto]. *)
Record ctrlio := CtrlIO {
  cc_un : gmap elmp (list Z);
  outbox : list (list Z * list Z);
  sendto_ok : list bool;
}.
Record ctrlw := CtrlW {
  srv : @bst service_client;
  clients : hashtable (list Z) ctrlio;
  rbuf : list Z;
  devs : list net_device;
  dev_first : option nat;
  next_cc : elmp;
  sal_forward : Z;
}.
Definition CM := M ctrlw.

Definition on_srv {A} (m : SM A) : CM A := fun w =>
  match m (srv w) with
  | Ok (a, s) => Ok (a, w {{ srv := s }})
  | Fault => Fault
  | NoFuel => NoFuel
  end.
Definition on_clients {A} (m : HTM (list Z) ctrlio A) : CM A := fun w =>
  match m (clients w) with
  | Ok (a, c) => Ok (a, w {{ clients := c }})
  | Fault => Fault
  | NoFuel => NoFuel
  end.

(** ** Bytes *)
Fixpoint le (bs : list Z) : Z := match bs with [] => 0 | b :: bs => b + 256 * le bs end.
Fixpoint to_le (n : nat) (z : Z) : list Z :=
  match n with O => [] | S n => z mod 256 :: to_le n (z / 256) end.
Definition rd (buf : list Z) (off : Z) (n : nat) : option (list Z) :=
  if (0 <=? off) && (off + Z.of_nat n <=? Z.of_nat (length buf)) then Some (take n (drop (Z.to_nat off) buf)) else None.
Definition wr (buf : list Z) (off : Z) (bs : list Z) : option (list Z) :=
  if (0 <=? off) && (off + Z.of_nat (length bs) <=? Z.of_nat (length buf)) then
    Some (take (Z.to_nat off) buf ++ bs ++ drop (Z.to_nat off + length bs) buf)
  else None.
Definition bytes_at (off : Z) (n : nat) : CM (list Z) := b ← gets rbuf; derefM (rd b off n).
Definition uint_at (off : Z) (n : nat) : CM Z := bs ← bytes_at off n; mret (le bs).
Definition put_bytes (off : Z) (bs : list Z) : CM unit :=
  b ← gets rbuf; b' ← derefM (wr b off bs); modS (fun w => w {{ rbuf := b' }}).

(** ** Layout of messages (include/serval/ctrlmsg.h) *)
Definition CTRLMSG_TYPE_REGISTER : Z := 0.
Definition CTRLMSG_TYPE_ADD_SERVICE : Z := 3.
Definition CTRLMSG_TYPE_DEL_SERVICE : Z := 4.
Definition CTRLMSG_TYPE_MOD_SERVICE : Z := 5.
Definition CTRLMSG_TYPE_GET_SERVICE : Z := 6.
Definition CTRLMSG_TYPE_SERVICE_STAT : Z := 7.
Definition CTRLMSG_TYPE_CAPABILITIES : Z := 8.
Definition CTRLMSG_TYPE_MIGRATE : Z := 9.
Definition CTRLMSG_TYPE_STATS_QUERY : Z := 10.
Definition CTRLMSG_TYPE_DELAY_VERDICT : Z := 13.
Definition _CTRLMSG_TYPE_MAX : Z := 15.
Definition CTRLMSG_RETVAL_OK : Z := 0.
Definition CTRLMSG_RETVAL_ERROR : Z := 1.
Definition CTRLMSG_RETVAL_NOENTRY : Z := 2.
Definition SVSTK_TRANSIT : Z := 1.
Definition SERVICE_ID_MAX_PREFIX_BITS : Z := 256.
Definition SVSF_INVALID : Z := 0xff.
(** [struct ctrlmsg]: type, retval, len, xid; [struct ctrlmsg_service]: xid. *)
Definition o_type : Z := 0.
Definition o_retval : Z := 1.
Definition o_len : Z := 2.
Definition o_xid : Z := 4.
Definition o_service_xid : Z := 8.
Definition sizeof_ctrlmsg_service : Z := 12.
Definition sizeof_service_info : Z := 60.
Definition sizeof_service_info_stat : Z := 88.
Definition sizeof_in_addr : nat := 4.
(** Fields of [struct service_info]. *)
Definition s_type : Z := 0.
Definition s_prefix_bits : Z := 2.
Definition s_flags_off : Z := 3.
Definition s_if_index : Z := 4.
Definition s_priority_off : Z := 8.
Definition s_weight : Z := 12.
Definition s_address : Z := 24.
Definition s_srvid : Z := 28.
(** [&cmr->service[i]] *)
Definition service_off (i : Z) : Z := sizeof_ctrlmsg_service + sizeof_service_info * i.
Definition CTRLMSG_SERVICE_NUM_LEN (num : Z) : Z := sizeof_ctrlmsg_service + num * sizeof_service_info.
Definition CTRLMSG_SERVICE_INFO_STAT_NUM_LEN (num : Z) : Z := sizeof_ctrlmsg_service + num * sizeof_service_info_stat.
(** The subtraction is in a [size_t]. *)
Definition CTRLMSG_SERVICE_NUM (len : Z) : Z := u32 (u64 (len - sizeof_ctrlmsg_service) / sizeof_service_info).
(** More services than this do not fit the buffer. *)
Definition SERVICE_FUEL : nat := 40.

Definition rule_type (z : Z) : option service_rule_type :=
  if z =? 0 then Some SERVICE_RULE_UNDEFINED else if z =? 1 then Some SERVICE_RULE_FORWARD
  else if z =? 2 then Some SERVICE_RULE_DEMUX else if z =? 3 then Some SERVICE_RULE_DELAY
  else if z =? 4 then Some SERVICE_RULE_DROP else None.

(** ** Clients *)
Definition RCV_BUFSIZE : Z := 2048.
(** A path is the bytes up to the first zero. *)
Definition ctrl_client_hashfn (un : list Z) : Z := default 0 (full_name_hash un (Z.of_nat (length un))).
Definition ctrl_client_equalfn (un key : list Z) : bool := bool_decide (un = key).
(** What a new element contains before it is initialised: zeros. *)
Definition zeroed : hashelm (list Z) := HashElm (HNode None None) 0 0 (fun _ => 0) (fun _ => false) false.
Definition ctrl_client_new (un : list Z) : CM (option elmp) :=
  ok ← on_srv kmalloc;
  if ok : bool then
    cc ← gets next_cc;
    modS (fun w => w {{ next_cc := S cc }});;
    on_clients (modS (fun t => t {{ elms := <[cc := zeroed]> (elms t) }}));;
    on_clients (hashelm_init cc ctrl_client_hashfn (ctrl_client_equalfn un) true);;
    on_clients (modS (fun t => t {{ Hashtable.env ::= fun io => io {{ cc_un := <[cc := un]> (cc_un io) }} }}));;
    mret (Some cc)
  else mret None.

(** [sendto]: the next result, and the datagram when it is sent. *)
Definition sendto (un msg : list Z) : HTM (list Z) ctrlio Z := fun t =>
  let io := Hashtable.env t in
  match sendto_ok io with
  | false :: rest => Ok (-1, t {{ Hashtable.env := io {{ sendto_ok := rest }} }})
  | rs => Ok (Z.of_nat (length msg), t {{ Hashtable.env := io {{ sendto_ok := tail rs; outbox := outbox io ++ [(un, msg)] }} }})
  end.
Definition ctrl_send_to_all (msg : option (list Z)) (p : elmp) : HTM (list Z) ctrlio unit :=
  un ← gets (fun t => cc_un (Hashtable.env t) !! p);
  un ← derefM un;
  msg ← derefM msg;
  ret ← sendto un msg;
  if ret =? -1 then __hashelm_unhash p else mret tt.
(** The message is the first [len] bytes of [buf], where [len] is what its
    header says. *)
Definition message_of (buf : list Z) : option (list Z) :=
  len ← rd buf o_len 2;
  rd buf 0 (Z.to_nat (le len)).
Definition ctrl_sendmsg (buf : list Z) : CM Z :=
  on_clients (hashtable_for_each (Some (ctrl_send_to_all (message_of buf))));; mret 0.
Definition reply : CM unit := b ← gets rbuf; ctrl_sendmsg b;; mret tt.

(** ** Devices (src/stack/userlevel/dev.c) *)
Definition lo : list Z := [108; 111].
Definition upd_dev (k : nat) (d : Z) : CM unit :=
  modS (fun w => w {{ devs ::= alter (fun v => v {{ dv_refs := dv_refs v + d }}) k }}).
Definition dev_hold (k : nat) : CM unit := upd_dev k 1.
Definition dev_put (k : nat) : CM unit := upd_dev k (-1).
Fixpoint find_dev (f : net_device -> bool) (l : list net_device) (k : nat) : option nat :=
  match l with
  | [] => None
  | d :: l => if f d then Some k else find_dev f l (S k)
  end.
(** Index 0 stands for the first device; others are found in the chain of their
    index, and are unique. *)
Definition __dev_get_by_index (ifindex : Z) : CM (option nat) :=
  if ifindex =? 0 then gets dev_first
  else gets (fun w => find_dev (fun d => dv_ifindex d =? ifindex) (devs w) 0).
Definition dev_get_by_index (ifindex : Z) : CM (option nat) :=
  dev ← __dev_get_by_index ifindex;
  match dev with
  | Some k => dev_hold k;; mret (Some k)
  | None => mret None
  end.
Definition same_prefix (addr : Z) (d : net_device) : bool :=
  Z.land addr (dv_netmask d) =? Z.land (dv_addr d) (dv_netmask d).
Definition resolve_dev_impl (addr ifindex : Z) : CM (option nat) :=
  l ← gets devs;
  match find_dev (same_prefix addr) l 0 with
  | Some k => dev_hold k;; mret (Some k)
  | None =>
      let best_guess := find_dev (fun d => negb (bool_decide (dv_name d = lo))) l 0 in
      match best_guess with Some k => dev_hold k | None => mret tt end;;
      dev ← (if 0 <=? s32 ifindex then dev_get_by_index (s32 ifindex) else mret None);
      match dev, best_guess with
      | Some k, Some g => dev_put g;; mret (Some k)
      | _, _ => mret best_guess
      end
  end.
Definition resolve_dev (off : Z) : CM (option nat) :=
  addr ← uint_at (off + s_address) 4; ifindex ← uint_at (off + s_if_index) 4; resolve_dev_impl addr ifindex.
(** [dev->ifindex] of a NULL pointer is a fault. *)
Definition make_dev_target (dev : option nat) : CM target_out :=
  k ← derefM dev; l ← gets devs; d ← derefM (l !! k); mret (u32 (dv_ifindex d)).

(** ** Handlers *)
Definition dummy_ctrlmsg_handler : CM Z := mret 0.

(** [if (entry->srvid_prefix_bits > 0) prefix_bits = entry->srvid_prefix_bits] *)
Definition prefix_bits_at (off : Z) : CM Z :=
  b ← uint_at (off + s_prefix_bits) 1; mret (if 0 <? b then b else SERVICE_ID_MAX_PREFIX_BITS).
(** [memcpy(&cmr->service[index], entry, sizeof(entry))] when [index < i] *)
Definition copy_over (index i off : Z) : CM unit :=
  if index <? i then e ← bytes_at off (Z.to_nat sizeof_service_info); put_bytes (service_off index) e else mret tt.

Definition add_one (off : Z) (dev : option nat) : CM Z :=
  type ← uint_at (off + s_type) 2;
  prefix_bits ← prefix_bits_at off;
  srvid ← bytes_at (off + s_srvid) SERVICE_ID_SIZE;
  flags ← uint_at (off + s_flags_off) 1;
  priority ← uint_at (off + s_priority_off) 4;
  weight ← uint_at (off + s_weight) 4;
  address ← bytes_at (off + s_address) sizeof_in_addr;
  out ← make_dev_target dev;
  type ← derefM (rule_type type);
  on_srv (service_add (Some srvid) (Z.to_nat prefix_bits) type flags priority weight
            (Ptr 1 address) sizeof_in_addr out).
Fixpoint add_loop (fuel : nat) (i num_res index : Z) : CM Z :=
  if num_res <=? i then mret index
  else
    match fuel with
    | O => nofuelM
    | S fuel =>
        let off := service_off i in
        type ← uint_at (off + s_type) 2;
        dev ← (if type =? 1 then resolve_dev off else mret None);
        if (type =? 1) && bool_decide (dev = None) then add_loop fuel (i + 1) num_res index
        else
          err ← add_one off dev;
          match dev with Some k => dev_put k | None => mret tt end;;
          if 0 <? err then copy_over index i off;; add_loop fuel (i + 1) num_res (index + 1)
          else add_loop fuel (i + 1) num_res index
    end.
(** The end of the handlers that answer with the entries they changed. *)
Definition finish (index : Z) : CM Z :=
  (if index =? 0 then put_bytes o_retval [CTRLMSG_RETVAL_NOENTRY]
   else put_bytes o_retval [CTRLMSG_RETVAL_OK];; put_bytes o_len (to_le 2 (CTRLMSG_SERVICE_NUM_LEN index)));;
  reply;;
  mret 0.
Definition ctrl_handle_add_service_msg : CM Z :=
  len ← uint_at o_len 2;
  index ← add_loop SERVICE_FUEL 0 (CTRLMSG_SERVICE_NUM len) 0;
  finish index.

Fixpoint mod_loop (fuel : nat) (i num_res index : Z) : CM Z :=
  if num_res <=? i then mret index
  else
    match fuel with
    | O => nofuelM
    | S fuel =>
        let old := service_off i in
        let new := service_off (i + 1) in
        prefix_bits ← prefix_bits_at old;
        dev ← resolve_dev old;
        match dev with
        | None => mod_loop fuel (i + 2) num_res index
        | Some k =>
            srvid ← bytes_at (old + s_srvid) SERVICE_ID_SIZE;
            flags ← uint_at (old + s_flags_off) 1;
            priority ← uint_at (new + s_priority_off) 4;
            weight ← uint_at (new + s_weight) 4;
            old_address ← bytes_at (old + s_address) sizeof_in_addr;
            new_address ← bytes_at (new + s_address) sizeof_in_addr;
            make_dev_target dev;;
            err ← on_srv (service_modify (Some srvid) (Z.to_nat prefix_bits) SERVICE_RULE_FORWARD flags
                            priority weight (Ptr 1 old_address) sizeof_in_addr (Ptr 1 new_address) sizeof_in_addr);
            index ← (if 0 <? err then copy_over index i new;; mret (index + 1) else mret index);
            dev_put k;;
            mod_loop fuel (i + 2) num_res index
        end
    end.
Definition ctrl_handle_mod_service_msg : CM Z :=
  len ← uint_at o_len 2;
  let num_res := CTRLMSG_SERVICE_NUM len in
  if (num_res <? 2) || negb (num_res mod 2 =? 0) then mret 0
  else index ← mod_loop SERVICE_FUEL 0 num_res 0; finish index.

(** The reply to a deletion is a buffer of its own: [cms]. *)
Definition stat_off (index : Z) : Z := sizeof_ctrlmsg_service + sizeof_service_info_stat * index.
Definition wrM (buf : list Z) (off : Z) (bs : list Z) : CM (list Z) := derefM (wr buf off bs).
(** The fields behind the [struct service_info] of a [struct service_info_stat];
    the field of dropped bytes gets the dropped packets. *)
Definition stat_fields (t : target_stats) : list Z :=
  to_le 4 0 ++ to_le 4 0 ++ to_le 4 (ts_packets_resolved t) ++ to_le 4 (ts_bytes_resolved t) ++
  to_le 4 (ts_packets_dropped t) ++ to_le 4 (ts_packets_dropped t).
Fixpoint del_loop (fuel : nat) (i num_res index : Z) (cms : list Z) : CM (Z * list Z) :=
  if num_res <=? i then mret (index, cms)
  else
    match fuel with
    | O => nofuelM
    | S fuel =>
        let off := service_off i in
        srvid ← bytes_at (off + s_srvid) SERVICE_ID_SIZE;
        b ← uint_at (off + s_prefix_bits) 1;
        let prefix_bits := if is_default srvid || (0 <? b) then b else SERVICE_ID_MAX_PREFIX_BITS in
        cms ← wrM cms (stat_off index + s_prefix_bits) [u8 prefix_bits];
        se ← on_srv (service_find_exact (Some srvid) (Z.to_nat prefix_bits));
        match se with
        | None => del_loop fuel (i + 1) num_res index cms
        | Some se =>
            type ← uint_at (off + s_type) 2;
            address ← bytes_at (off + s_address) sizeof_in_addr;
            r ← match rule_type type with
                | Some type => on_srv (service_entry_remove_target se type (Ptr 1 address) sizeof_in_addr)
                | None => mret (0, None)
                end;
            let '(err, tstat) := r in
            ic ← (if 0 <? err then
                    t ← derefM tstat;
                    cms ← wrM cms (stat_off index + sizeof_service_info) (stat_fields t);
                    e ← bytes_at off (Z.to_nat sizeof_service_info);
                    cms ← wrM cms (stat_off index) e;
                    mret (index + 1, cms)
                  else mret (index, cms));
            let '(index, cms) := ic in
            on_srv (liftE (service_entry_put se));;
            del_loop fuel (i + 1) num_res index cms
        end
    end.
Definition ctrl_handle_del_service_msg : CM Z :=
  len ← uint_at o_len 2;
  let num_res := CTRLMSG_SERVICE_NUM len in
  ok ← on_srv kmalloc;
  if negb ok then
    put_bytes o_retval [CTRLMSG_RETVAL_ERROR];; reply;; mret (- ENOMEM)
  else
    let size := CTRLMSG_SERVICE_INFO_STAT_NUM_LEN num_res in
    ic ← del_loop SERVICE_FUEL 0 num_res 0 (replicate (Z.to_nat (Z.min size (CTRLMSG_SERVICE_INFO_STAT_NUM_LEN 40))) 0);
    let '(index, cms) := ic in
    (if index =? 0 then put_bytes o_retval [CTRLMSG_RETVAL_NOENTRY];; reply
     else
       sxid ← bytes_at o_service_xid 4;
       xid ← bytes_at o_xid 4;
       cms ← wrM cms o_type [CTRLMSG_TYPE_DEL_SERVICE];
       cms ← wrM cms o_service_xid sxid;
       cms ← wrM cms o_xid xid;
       cms ← wrM cms o_retval [CTRLMSG_RETVAL_OK];
       cms ← wrM cms o_len (to_le 2 (CTRLMSG_SERVICE_INFO_STAT_NUM_LEN index));
       ctrl_sendmsg cms;; mret tt);;
    mret 0.

(** The entries of the reply to a query: the forwarding targets of the first set
    of the entry. *)
Fixpoint get_loop (fuel : nat) (se : positive) (iter : service_iter) (i : Z) (cres : list Z) : CM (Z * list Z) :=
  '(t, iter) ← on_srv (service_iter_next iter);
  match t with
  | None => on_srv (service_iter_destroy iter);; mret (i, cres)
  | Some pos =>
      match fuel with
      | O => nofuelM
      | S fuel =>
          let off := service_off i in
          e ← on_srv (load_se se);
          t ← derefM (target_at (se_sets e) pos);
          '(_, srvid) ← on_srv (service_get_id (Some se));
          cres ← wrM cres (off + s_srvid) srvid;
          cres ← wrM cres (off + s_address) (t_dst t);
          bits ← on_srv (service_get_prefix_bits se);
          cres ← wrM cres (off + s_prefix_bits) [bits];
          flags ← on_srv (service_iter_get_flags iter);
          cres ← wrM cres (off + s_flags_off) [u8 flags];
          cres ← wrM cres (off + s_weight) (to_le 4 (t_weight t));
          priority ← on_srv (service_iter_get_priority iter);
          cres ← wrM cres (off + s_priority_off) (to_le 4 priority);
          get_loop fuel se iter (i + 1) cres
      end
  end.
Definition ctrl_handle_get_service_msg : CM Z :=
  let off := service_off 0 in
  prefix_bits ← prefix_bits_at off;
  srvid ← bytes_at (off + s_srvid) SERVICE_ID_SIZE;
  se ← on_srv (service_find (Some srvid) (Z.to_nat prefix_bits));
  match se with
  | Some se =>
      e ← on_srv (load_se se);
      ok ← on_srv kmalloc;
      if negb ok then
        on_srv (liftE (service_entry_put se));;
        put_bytes o_retval [CTRLMSG_RETVAL_ERROR];; reply;; mret (- ENOMEM)
      else
        let size := CTRLMSG_SERVICE_NUM_LEN (se_count e) in
        xid ← bytes_at o_xid 4;
        sxid ← bytes_at o_service_xid 4;
        cres ← wrM (replicate (Z.to_nat size) 0) o_type [CTRLMSG_TYPE_GET_SERVICE];
        cres ← wrM cres o_len (to_le 2 size);
        cres ← wrM cres o_xid xid;
        cres ← wrM cres o_service_xid sxid;
        '(_, iter) ← on_srv (service_iter_init se SERVICE_ITER_FORWARD 0);
        ic ← get_loop (S (n_targets (se_sets e))) se iter 0 cres;
        let '(i, cres) := ic in
        on_srv (liftE (service_entry_put se));;
        cres ← wrM cres o_retval [if i =? 0 then CTRLMSG_RETVAL_NOENTRY else CTRLMSG_RETVAL_OK];
        ctrl_sendmsg cres;;
        mret 0
  | None =>
      put_bytes (off + s_flags_off) [SVSF_INVALID];;
      put_bytes o_retval [CTRLMSG_RETVAL_NOENTRY];;
      reply;;
      mret 0
  end.

Definition ctrl_handle_service_stats_msg : CM Z :=
  f ← gets sal_forward;
  t ← on_srv service_table_get_stats;
  let caps := if f =? 0 then 0 else SVSTK_TRANSIT in
  put_bytes sizeof_ctrlmsg_service
    (to_le 4 caps ++ to_le 4 (tb_services t) ++ to_le 4 0 ++ to_le 4 (st_packets_resolved t) ++
     to_le 4 (st_bytes_resolved t) ++ to_le 4 (st_bytes_dropped t) ++ to_le 4 (st_packets_dropped t));;
  reply;;
  mret 0.
Definition ctrl_handle_capabilities_msg : CM Z :=
  c ← uint_at 8 4; modS (fun w => w {{ sal_forward := Z.land c SVSTK_TRANSIT }});; mret 0.

(** ** Dispatch

    [others] stands for the handlers that act on sockets and on the delay queue:
    migration, flow statistics and delay verdicts. *)
Section Dispatch.
Context (others : Z -> CM Z).
Definition handlers (type : Z) : CM Z :=
  if type =? CTRLMSG_TYPE_ADD_SERVICE then ctrl_handle_add_service_msg
  else if type =? CTRLMSG_TYPE_DEL_SERVICE then ctrl_handle_del_service_msg
  else if type =? CTRLMSG_TYPE_MOD_SERVICE then ctrl_handle_mod_service_msg
  else if type =? CTRLMSG_TYPE_GET_SERVICE then ctrl_handle_get_service_msg
  else if type =? CTRLMSG_TYPE_SERVICE_STAT then ctrl_handle_service_stats_msg
  else if type =? CTRLMSG_TYPE_CAPABILITIES then ctrl_handle_capabilities_msg
  else if (type =? CTRLMSG_TYPE_MIGRATE) || (type =? CTRLMSG_TYPE_STATS_QUERY) || (type =? CTRLMSG_TYPE_DELAY_VERDICT)
  then others type
  else dummy_ctrlmsg_handler.

(** Remember the client. *)
Definition note_client (un : list Z) : CM unit :=
  elm ← on_clients (hashtable_lookup un ctrl_client_hashfn);
  match elm with
  | None =>
      cc ← ctrl_client_new un;
      match cc with
      | Some cc => on_clients (hashelm_hash cc un);; on_clients (hashelm_put cc)
      | None => mret tt
      end
  | Some elm => on_clients (hashelm_put elm)
  end.
(** The datagram [msg] from the socket at [un], of which the buffer takes
    [RCV_BUFSIZE] bytes; [None] when there is none. *)
Definition ctrl_recvmsg (got : option (list Z * list Z)) : CM Z :=
  match got with
  | None => mret (-1)
  | Some (un, msg) =>
      put_bytes 0 (take (Z.to_nat RCV_BUFSIZE) msg);;
      type ← uint_at o_type 1;
      if _CTRLMSG_TYPE_MAX <=? type then mret (-1)
      else note_client un;; handlers type
  end.
End Dispatch.
