(* ===== verification/CtrlClients.v ===== *)
(** * Clients of the control channel

    The clients in the hash table are a list of paths without repetitions; a
    message is sent to each of them once, and those that cannot be reached are
    forgotten. *)
From S2P Require Import Prelude Bst ServiceEntry ServiceTable Hash Hashtable HashtableOk HashtableClaims Ctrl.
Local Open Scope Z_scope.

Section Clients.
Implicit Types (a : atable (list Z)) (io : ctrlio) (t : hashtable (list Z) ctrlio) (p : elmp) (un : list Z).

(** The element of a client: one reference, the table's. *)
Definition is_client un (e : aelm (list Z)) : Prop :=
  e = AElm 1 ctrl_client_hashfn (ctrl_client_equalfn un) true.
Definition client a io (x : elmp * Z) : Prop :=
  exists un, cc_un io !! x.1 = Some un /\ x.2 = ctrl_client_hashfn un /\
    exists e, a_elms a !! x.1 = Some e /\ is_client un e.
Definition un_of io p : list Z := default [] (cc_un io !! p).
Record known a io : Prop := {
  kn_each : Forall (client a io) (a_in a);
  kn_nodup : NoDup (map (fun x => un_of io x.1) (a_in a));
}.
Definition paths a io : list (list Z) := map (fun x => un_of io x.1) (a_in a).

Lemma client_un a io x un : client a io x -> cc_un io !! x.1 = Some un -> un_of io x.1 = un.
Proof. intros _ E. unfold un_of. by rewrite E. Qed.

(** ** Sending *)
Section Send.
Context (msg : list Z).
Definition send_effect p (s : atable (list Z) * ctrlio) : atable (list Z) * ctrlio :=
  let '(a, io) := s in
  match sendto_ok io with
  | false :: rest => (default a (a_unhash p a), io {{ sendto_ok := rest }})
  | rs => (a, io {{ sendto_ok := tail rs; outbox := outbox io ++ [(un_of io p, msg)] }})
  end.
Lemma unhash_some a io p : p ∈ (a_in a).*1 -> Forall (client a io) (a_in a) ->
  a_unhash p a = Some (ATable (a_mask a) (without p (a_in a)) (delete p (a_elms a))).
Proof.
  intros Hp Hc. unfold a_unhash. rewrite decide_True by done.
  apply list_elem_of_fmap in Hp as ([q h] & -> & Hq). rewrite Forall_forall in Hc.
  destruct (Hc _ Hq) as (un & _ & _ & e & He & ->). unfold a_put.
  change (a_elms (a_leave (q, h).1 a)) with (a_elms a). rewrite He. cbn [mbind option_bind].
  assert (E : owned (a_leave (q, h).1 a) (q, h).1 = 0).
  { unfold owned. rewrite decide_False; [done|]. change (a_in (a_leave (q, h).1 a)) with (without q (a_in a)).
    rewrite without_fst. intros [? _]%list_elem_of_filter. done. }
  rewrite E. done.
Qed.
Lemma known_without a io p : known a io ->
  known (ATable (a_mask a) (without p (a_in a)) (delete p (a_elms a))) io.
Proof.
  intros [Hc Hn]. split; cbn [a_in a_elms].
  - rewrite Forall_forall in *. intros [q h] [Hq Hne]%without_elem.
    destruct (Hc _ Hq) as (un & ? & ? & e & He & ?). exists un. split_and!; [done..|]. exists e.
    split; [|done]. cbn in *. by rewrite lookup_delete_ne.
  - eapply sublist_NoDup; [exact Hn|]. apply (fmap_sublist (fun x : elmp * Z => un_of io x.1)), sublist_filter.
Qed.
Lemma send_ok i t a io p :
  at_ (Some i) a io t -> known a io -> p ∈ in_slot (a_mask a) i (a_in a) ->
  wp (ctrl_send_to_all (Some msg) p) t (fun _ => at_ (Some i) (send_effect p (a, io)).1 (send_effect p (a, io)).2) /\
  known (send_effect p (a, io)).1 (send_effect p (a, io)).2 /\ a_mask (send_effect p (a, io)).1 = a_mask a /\
  (a_in (send_effect p (a, io)).1 = a_in a \/ a_in (send_effect p (a, io)).1 = without p (a_in a)).
Proof.
  intros Hat Hk Hp. pose proof Hat as [Hr Hio].
  assert (Hp1 : p ∈ (a_in a).*1) by (eapply elem_of_sublist; [done|apply in_slot_sublist]).
  pose proof (unhash_some _ _ _ Hp1 (kn_each _ _ Hk)) as Hun.
  pose proof (kn_each _ _ Hk) as Hc. rewrite Forall_forall in Hc.
  pose proof Hp1 as ([q h] & E & Hq)%list_elem_of_fmap. cbn in E. subst q.
  destruct (Hc _ Hq) as (un & Hcc & _). cbn in Hcc.
  unfold ctrl_send_to_all, send_effect. split.
  - apply wp_bind, wp_gets. rewrite Hio, Hcc. apply wp_bind, wp_ret. apply wp_bind, wp_ret.
    apply wp_bind. unfold wp at 1, sendto. rewrite Hio.
    assert (Eun : un_of io p = un) by (unfold un_of; by rewrite Hcc). rewrite Eun.
    assert (Hsent : forall rs, wp (if Z.of_nat (length msg) =? -1 then __hashelm_unhash p else mret tt)
      (t {{ Hashtable.env := io {{ sendto_ok := rs; outbox := outbox io ++ [(un, msg)] }} }})
      (fun _ => at_ (Some i) a (io {{ sendto_ok := rs; outbox := outbox io ++ [(un, msg)] }}))).
    { intros rs. destruct (Z.eqb_spec (Z.of_nat (length msg)) (-1)); [lia|]. apply wp_ret. split; [|done].
      by destruct Hr; split. }
    destruct (sendto_ok io) as [|[] rest]; try apply Hsent. rewrite Z.eqb_refl, Hun. cbn [fst snd default].
    eapply unhash_locked_ok; [|done]. split; [|done]. by destruct Hr; split.
  - destruct (sendto_ok io) as [|[] rest]; cbn [fst snd]; try (split_and!; [by destruct Hk; split|done|by left]).
    rewrite Hun. cbn. split_and!; [|done|by right].
    destruct (known_without a io p Hk). by split.
Qed.

(** The results of the next [n] calls, and the elements that were reached. *)
Fixpoint verdicts (n : nat) (l : list bool) : list bool :=
  match n with
  | O => []
  | S n => match l with [] => true :: verdicts n [] | b :: l => b :: verdicts n l end
  end.
Fixpoint pick {A} (vs : list A) (bs : list bool) : list A :=
  match vs, bs with
  | v :: vs, b :: bs => if b : bool then v :: pick vs bs else pick vs bs
  | _, _ => []
  end.
Lemma pick_map {A B} (f : A -> B) vs bs : pick (map f vs) bs = map f (pick vs bs).
Proof. revert bs. induction vs as [|v vs IH]; intros [|[] bs]; simpl; congruence. Qed.
Lemma pick_sub {A} (vs : list A) bs x : x ∈ pick vs bs -> x ∈ vs.
Proof. revert bs. induction vs as [|v vs IH]; intros [|[] bs]; simpl; set_solver. Qed.
Lemma verdicts_length n l : length (verdicts n l) = n.
Proof. revert l. induction n as [|n IH]; intros [|b l]; simpl; by rewrite ?IH. Qed.

(** After the elements [vs] were visited: those that failed are gone. *)
Lemma visit_ok vs a io :
  known a io -> NoDup vs -> (forall p, p ∈ vs -> p ∈ (a_in a).*1) ->
  let bs := verdicts (length vs) (sendto_ok io) in
  let s := visit send_effect (a, io) vs in
  outbox s.2 = outbox io ++ map (fun p => (un_of io p, msg)) (pick vs bs) /\ cc_un s.2 = cc_un io /\ known s.1 s.2 /\
  (forall p, is_Some (a_elms s.1 !! p) -> is_Some (a_elms a !! p)) /\
  a_in s.1 = filter (fun x => x.1 ∉ vs \/ x.1 ∈ pick vs bs) (a_in a).
Proof.
  revert a io. induction vs as [|p vs IH]; intros a io Hk Hnd Hin; cbn zeta.
  { cbn. rewrite app_nil_r. split_and!; [done..|]. generalize (a_in a). clear. intros l.
    induction l as [|x l IHl]; [done|]. rewrite filter_cons, decide_True by set_solver. f_equal. exact IHl. }
  apply NoDup_cons in Hnd as [Hp Hnd]. change (visit send_effect (a, io) (p :: vs)) with (visit send_effect (send_effect p (a, io)) vs).
  assert (Hsent : forall rs bs, bs = verdicts (length vs) rs ->
    let s := visit send_effect (a, io {{ sendto_ok := rs; outbox := outbox io ++ [(un_of io p, msg)] }}) vs in
    outbox s.2 = outbox io ++ map (fun p => (un_of io p, msg)) (pick (p :: vs) (true :: bs)) /\ cc_un s.2 = cc_un io /\ known s.1 s.2 /\
    (forall p, is_Some (a_elms s.1 !! p) -> is_Some (a_elms a !! p)) /\
    a_in s.1 = filter (fun x => x.1 ∉ p :: vs \/ x.1 ∈ pick (p :: vs) (true :: bs)) (a_in a)).
  { intros rs bs -> s. destruct (IH a (io {{ sendto_ok := rs; outbox := outbox io ++ [(un_of io p, msg)] }})) as (Ho & Hc & Hk' & He & Hf).
    { by destruct Hk; split. }
    { done. }
    { set_solver. }
    unfold s. split_and!; [|done..|].
    - rewrite Ho. cbn [pick map]. symmetry. exact (app_assoc (outbox io) [(un_of io p, msg)] _).
    - rewrite Hf. apply list_filter_iff. intros [q h]. cbn [fst pick]. rewrite elem_of_cons.
      destruct (decide (q = p)) as [->|]; set_solver. }
  pose proof (unhash_some _ _ _ (Hin p ltac:(set_solver)) (kn_each _ _ Hk)) as Hun.
  assert (Es : send_effect p (a, io) = match sendto_ok io with
    | false :: rest => (ATable (a_mask a) (without p (a_in a)) (delete p (a_elms a)), io {{ sendto_ok := rest }})
    | rs => (a, io {{ sendto_ok := tail rs; outbox := outbox io ++ [(un_of io p, msg)] }})
    end) by (unfold send_effect; by rewrite Hun).
  rewrite Es. clear Es Hun. cbn [length verdicts].
  destruct (sendto_ok io) as [|[] rest] eqn:Es; [exact (Hsent [] _ eq_refl)|exact (Hsent rest _ eq_refl)|]. clear Hsent.
  destruct (IH (ATable (a_mask a) (without p (a_in a)) (delete p (a_elms a))) (io {{ sendto_ok := rest }})) as (Ho & Hc & Hk' & He & Hf).
  { destruct (known_without a io p Hk). by split. }
  { done. }
  { intros q Hq. cbn [a_in]. rewrite without_fst. apply list_elem_of_filter. set_solver. }
  split_and!; [done..| |].
  { intros q Hq. apply He in Hq as [x Hx]. cbn [a_elms] in Hx. apply lookup_delete_Some in Hx as [_ Hx]. by exists x. }
  rewrite Hf. cbn [a_in pick]. unfold without. rewrite list_filter_filter. apply list_filter_iff.
  intros [q h]. cbn [fst]. pose proof (pick_sub vs (verdicts (length vs) rest) q) as Hsub. rewrite elem_of_cons.
  change (sendto_ok (io {{ sendto_ok := rest }})) with rest.
  destruct (decide (q = p)) as [->|]; set_solver.
Qed.

(** The table of clients holds these paths; elements from [nxt] on are new. *)
Definition clients_rep (nxt : elmp) t (uns : list (list Z)) : Prop :=
  exists a, at_ None a (Hashtable.env t) t /\ known a (Hashtable.env t) /\ paths a (Hashtable.env t) = uns /\
    forall p, is_Some (a_elms a !! p) -> (p < nxt)%nat.
Lemma pick_nodup {A} (vs : list A) bs : NoDup vs -> NoDup (pick vs bs).
Proof.
  revert bs. induction vs as [|v vs IH]; intros [|[] bs] Hn; simpl; try apply NoDup_nil_2; apply NoDup_cons in Hn as [? ?]; [|by apply IH].
  apply NoDup_cons. split; [|by apply IH]. intros ?%pick_sub. done.
Qed.
Lemma broadcast_ok (nxt : elmp) t uns :
  clients_rep nxt t uns ->
  wp (hashtable_for_each (Some (ctrl_send_to_all (Some msg)))) t (fun _ t' => exists vs uns', vs ≡ₚ uns /\
    let bs := verdicts (length uns) (sendto_ok (Hashtable.env t)) in
    outbox (Hashtable.env t') = outbox (Hashtable.env t) ++ map (fun un => (un, msg)) (pick vs bs) /\
    clients_rep nxt t' uns' /\ uns' ≡ₚ pick vs bs).
Proof.
  intros (a & Hat & Hk & <- & Hnxt). pose proof Hat as [Hr _]. set (io := Hashtable.env t) in *.
  eapply wp_mono; [apply (for_each_ok _ send_effect known send_ok _ _ _ Hat Hk)|].
  intros n t' (vs & Hvs & _ & Hat'). pose proof (rp_nodup _ _ _ Hr) as Hnd.
  assert (Hnv : NoDup vs) by (by rewrite Hvs).
  destruct (visit_ok vs a io Hk Hnv) as (Ho & Hc & Hk' & He & Hf); [intros p; by rewrite Hvs|].
  assert (Hlen : length vs = length (paths a io)).
  { rewrite Hvs. unfold paths. by rewrite length_map, length_fmap. }
  exists (map (un_of io) vs), (paths (visit send_effect (a, io) vs).1 (visit send_effect (a, io) vs).2).
  assert (Hpaths : forall a' io', cc_un io' = cc_un io -> paths a' io' = map (un_of io) (a_in a').*1).
  { intros a' io' Ecc. unfold paths, un_of. rewrite Ecc. symmetry. apply map_map. }
  destruct Hat' as [Hr' Hio']. cbv zeta. rewrite <- Hlen. split_and!.
  - rewrite Hvs. by rewrite (Hpaths a io).
  - rewrite Hio', Ho, pick_map, map_map. done.
  - exists (visit send_effect (a, io) vs).1. rewrite Hio'. split_and!; [done..|]. auto.
  - rewrite (Hpaths _ _ Hc), pick_map. apply fmap_Permutation. apply NoDup_Permutation.
    + apply (rp_nodup _ _ _ Hr').
    + by apply pick_nodup.
    + intros q. rewrite Hf, list_elem_of_fmap. split.
      * intros ([q' h] & -> & [[Hq|Hq] Hin]%list_elem_of_filter); [|done]. exfalso. apply Hq. rewrite Hvs. apply list_elem_of_fmap. by exists (q', h).
      * intros Hq. pose proof (pick_sub _ _ _ Hq) as Hqv. rewrite Hvs in Hqv. apply list_elem_of_fmap in Hqv as ([q' h] & -> & Hin).
        exists (q', h). split; [done|]. apply list_elem_of_filter. by split; [right|].
Qed.
End Send.

(** ** Remembering a client *)
Lemma match_iff a io k x :
  client a io x -> a_match a k x.1 = bool_decide (un_of io x.1 = k).
Proof.
  intros (un & Hun & _ & e & He & ->). unfold a_match, un_of. rewrite He, Hun. done.
Qed.
Lemma known_consistent a io un : known a io -> a_consistent un ctrl_client_hashfn a = true.
Proof.
  intros Hk. unfold a_consistent. apply forallb_forall. intros x Hx%list_elem_of_In.
  pose proof (kn_each _ _ Hk) as Hc. rewrite Forall_forall in Hc. specialize (Hc _ Hx).
  rewrite (match_iff _ _ _ _ Hc). case_bool_decide as E; [|done]. simpl. apply Nat.eqb_eq.
  destruct Hc as (un' & Hun & -> & _). unfold un_of in E. rewrite Hun in E. simpl in E. by subst.
Qed.
Lemma find_client a io un :
  known a io ->
  match head (filter (fun p => a_match a un p) (a_in a).*1) with
  | Some p => p ∈ (a_in a).*1 /\ un ∈ paths a io
  | None => un ∉ paths a io
  end.
Proof.
  intros Hk. pose proof (kn_each _ _ Hk) as Hc. rewrite Forall_forall in Hc.
  destruct (head _) as [p|] eqn:E.
  - apply head_Some_elem_of, list_elem_of_filter in E as [Hm Hp]. split; [done|].
    apply list_elem_of_fmap in Hp as (x & -> & Hx). rewrite (match_iff _ _ _ _ (Hc _ Hx)) in Hm.
    apply bool_decide_unpack in Hm. unfold paths. apply list_elem_of_fmap. by exists x.
  - intros Hin. unfold paths in Hin. apply list_elem_of_fmap in Hin as (x & Hu & Hx).
    destruct (filter _ _) as [|y l] eqn:Ef; [|done].
    assert (Hi : x.1 ∈ filter (fun p => a_match a un p) (a_in a).*1); [|rewrite Ef in Hi; set_solver].
    apply list_elem_of_filter. split; [|apply list_elem_of_fmap; eauto].
    rewrite (match_iff _ _ _ _ (Hc _ Hx)). by apply bool_decide_pack.
Qed.

Lemma wp_on_clients {A} (m : HTM (list Z) ctrlio A) w (Q : A -> ctrlw -> Prop) :
  wp m (clients w) (fun x c => Q x (w {{ clients := c }})) -> wp (on_clients m) w Q.
Proof. unfold wp, on_clients. by destruct (m (clients w)) as [[]| |]. Qed.
Lemma wp_on_srv {A} (m : SM A) w (Q : A -> ctrlw -> Prop) :
  wp m (srv w) (fun x s => Q x (w {{ srv := s }})) -> wp (on_srv m) w Q.
Proof. unfold wp, on_srv. by destruct (m (srv w)) as [[]| |]. Qed.

(** The client at [un] is taken in, and goes in front. *)
Lemma enter_client (nxt : elmp) t uns un a :
  at_ None a (Hashtable.env t) t -> known a (Hashtable.env t) -> paths a (Hashtable.env t) = uns ->
  (forall p, is_Some (a_elms a !! p) -> (p < nxt)%nat) -> un ∉ uns -> Z.of_nat (length uns) + 1 < 2 ^ 31 ->
  wp (modS (fun t => t {{ elms := <[nxt := zeroed]> (elms t) }});;
      hashelm_init nxt ctrl_client_hashfn (ctrl_client_equalfn un) true;;
      modS (fun t => t {{ Hashtable.env ::= fun io => io {{ cc_un := <[nxt := un]> (cc_un io) }} }});;
      hashelm_hash nxt un;; hashelm_put nxt) t
    (fun _ t' => clients_rep (S nxt) t' (un :: uns) /\
      Hashtable.env t' = (Hashtable.env t) {{ cc_un := <[nxt := un]> (cc_un (Hashtable.env t)) }}).
Proof.
  intros Hat Hk Hp Hnxt Hun Hlen. set (io := Hashtable.env t) in *.
  set (io' := io {{ cc_un := <[nxt := un]> (cc_un io) }}).
  assert (Hnone : a_elms a !! nxt = None).
  { destruct (a_elms a !! nxt) eqn:E; [|done]. specialize (Hnxt nxt ltac:(eauto)). lia. }
  assert (Hni : nxt ∉ (a_in a).*1).
  { intros ([q h] & E & Hq)%list_elem_of_fmap. pose proof (kn_each _ _ Hk) as Hc. rewrite Forall_forall in Hc.
    destruct (Hc _ Hq) as (? & _ & _ & e & He & _). rewrite <- E, Hnone in He. done. }
  set (e := AElm 1 ctrl_client_hashfn (ctrl_client_equalfn un) true).
  assert (Hnew : a_new nxt ctrl_client_hashfn (ctrl_client_equalfn un) true a = Some (a {{ a_elms := <[nxt := e]> (a_elms a) }})).
  { unfold a_new. by rewrite Hnone. }
  eapply wp_seq; [exact (new_ok _ _ _ _ zeroed _ _ _ _ Hat Hnew)|]. intros ? t1 [_ Hat1].
  set (a1 := a {{ a_elms := <[nxt := e]> (a_elms a) }}) in *.
  apply wp_bind, wp_modS. destruct Hat1 as [Hr1 Hio1].
  assert (Hat2 : at_ None a1 io' (t1 {{ Hashtable.env ::= fun io => io {{ cc_un := <[nxt := un]> (cc_un io) }} }})).
  { split; [by destruct Hr1; split|]. unfold io'. rewrite <- Hio1. done. }
  assert (Hlen1 : length (a_in a) = length uns) by (rewrite <- Hp; unfold paths; by rewrite length_map).
  set (h := ctrl_client_hashfn un). set (a2 := ATable (a_mask a) ((nxt, h) :: a_in a) (<[nxt := e]> (a_elms a))).
  assert (Hhash : a_hash nxt un a1 = Some (0, a2 {{ a_elms := <[nxt := e {{ a_refs := 2 }}]> (<[nxt := e]> (a_elms a)) }})).
  { unfold a_hash. change (a_elms a1) with (<[nxt := e]> (a_elms a)). rewrite lookup_insert_eq. cbn [mbind option_bind]. rewrite decide_False by done.
    change (a_in a1) with (a_in a). destruct (Z.ltb_spec (Z.of_nat (length (a_in a)) + 1) (2 ^ 31)); [|lia]. cbn [a_refs e Z.leb Z.compare Pos.compare Pos.compare_cont andb].
    unfold a_hold. change (a_elms (a_enter nxt _ a1)) with (<[nxt := e]> (a_elms a)). rewrite lookup_insert_eq. done. }
  apply wp_bind. eapply wp_mono; [by eapply hash_ok|]. intros ? t3 [_ Hat3].
  assert (Hput : a_put nxt (a2 {{ a_elms := <[nxt := e {{ a_refs := 2 }}]> (<[nxt := e]> (a_elms a)) }}) = Some a2).
  { unfold a_put. rewrite a_elms_set, lookup_insert_eq. cbn [mbind option_bind]. unfold owned. rewrite decide_True by (cbn; set_solver).
    cbn. f_equal. unfold a2. f_equal. by rewrite !insert_insert_eq. }
  eapply wp_mono; [by eapply put_ok|]. intros [] t4 [Hr4 Hio4]. rewrite Hio4. split; [|done].
  exists a2. split; [split; [done|by rewrite Hio4]|]. rewrite Hio4.
  assert (Hcl : forall x, x ∈ a_in a -> x.1 <> nxt) by (intros x Hx E; apply Hni; rewrite <- E; apply list_elem_of_fmap; eauto).
  assert (Ecc : cc_un io' = <[nxt := un]> (cc_un io)) by done.
  assert (Eel : a_elms a2 = <[nxt := e]> (a_elms a)) by done.
  assert (Hun' : forall x, x ∈ a_in a -> un_of io' x.1 = un_of io x.1).
  { intros x Hx. unfold un_of. rewrite Ecc, lookup_insert_ne; [done|]. intros E. by apply (Hcl x). }
  assert (Hun0 : un_of io' nxt = un) by (unfold un_of; by rewrite Ecc, lookup_insert_eq).
  assert (Hpaths : paths a2 io' = un :: uns).
  { unfold paths. cbn [a_in a2 map fst]. rewrite Hun0, <- Hp. f_equal. apply map_ext_in.
    intros x Hx%list_elem_of_In. by apply Hun'. }
  split_and!; [split|done|].
  - cbn [a_in a2]. apply Forall_cons. split.
    + exists un. cbn [fst snd]. rewrite Ecc, Eel, !lookup_insert_eq. split_and!; [done..|]. by exists e.
    + pose proof (kn_each _ _ Hk) as Hc. rewrite Forall_forall in Hc |- *. intros x Hx.
      destruct (Hc x Hx) as (un' & H1 & H2 & e' & He' & H3). pose proof (Hcl x Hx). exists un'.
      rewrite Ecc, Eel, !lookup_insert_ne by done. split_and!; [done..|]. by exists e'.
  - change (NoDup (paths a2 io')). rewrite Hpaths. apply NoDup_cons. split; [done|]. rewrite <- Hp. apply (kn_nodup _ _ Hk).
  - intros p. rewrite Eel. intros [x [[-> _]|[_ Hx]]%lookup_insert_Some]; [lia|]. specialize (Hnxt p ltac:(eauto)). lia.
Qed.
End Clients.
