(* ===== verification/CtrlAdd.v ===== *)
(** * Adding services through the control channel *)

(** * Handlers of the control channel

    What the handlers do to the clients, to the buffer and to the service table. *)
From S2P Require Import Prelude Bst BstRep BstFind BstInsert BstRemove BstHistory.
From S2P Require Import ServiceEntry ServiceTable ServiceInv ServiceRefine ServiceAdd ServiceDel.
From S2P Require Import Hash Hashtable HashtableOk HashtableClaims Ctrl CtrlClients.
Local Open Scope Z_scope.

Section Note.
Implicit Types (w : ctrlw) (un : list Z) (uns : list (list Z)).

Lemma wp_unbind {S A B} (m : M S A) (k : A -> M S B) st Q :
  wp (m ≫= k) st Q -> wp m st (fun a st' => wp (k a) st' Q).
Proof. unfold wp, mbind, M_bind. by destruct (m st) as [[]| |]. Qed.

Definition known_clients w uns : Prop := clients_rep (next_cc w) (clients w) uns.
(** Everything but the clients and the results of allocations. *)
Definition elsewhere w w' : Prop :=
  rbuf w' = rbuf w /\ devs w' = devs w /\ dev_first w' = dev_first w /\ sal_forward w' = sal_forward w.

Lemma wp_kmalloc st (Q : bool -> bst -> Prop) : Q (alloc_ok st).1 (alloc_ok st).2 -> wp kmalloc st Q.
Proof. unfold wp, kmalloc. by destruct (alloc_ok st). Qed.
Lemma clients_at nxt a io t uns :
  at_ None a io t -> known a io -> paths a io = uns -> (forall p, is_Some (a_elms a !! p) -> (p < nxt)%nat) ->
  clients_rep nxt t uns.
Proof. intros [Hr <-] ? ? ?. by exists a. Qed.
Lemma note_ok w un uns :
  known_clients w uns -> Z.of_nat (length uns) + 1 < 2 ^ 31 ->
  wp (note_client un) w (fun _ w' =>
    (if decide (un ∈ uns) then srv w' = srv w /\ known_clients w' uns
     else srv w' = (alloc_ok (srv w)).2 /\ known_clients w' (if (alloc_ok (srv w)).1 then un :: uns else uns)) /\
    outbox (Hashtable.env (clients w')) = outbox (Hashtable.env (clients w)) /\
    sendto_ok (Hashtable.env (clients w')) = sendto_ok (Hashtable.env (clients w)) /\ elsewhere w w').
Proof.
  intros (a & Hat & Hk & Hp & Hn) Hlen. unfold note_client. apply wp_bind, wp_on_clients.
  pose proof (find_client _ _ un Hk) as Hf. rewrite Hp in Hf.
  assert (Hlk : a_lookup un ctrl_client_hashfn a = match head (filter (fun p => a_match a un p) (a_in a).*1) with
    | None => Some (None, a) | Some p => a' ← a_hold p a; Some (Some p, a') end).
  { unfold a_lookup. by rewrite (known_consistent _ _ un Hk). }
  destruct (head _) as [p|].
  - destruct Hf as [Hin Hun].
    pose proof Hin as ([q h] & E & Hq)%list_elem_of_fmap. cbn in E. subst q.
    pose proof (kn_each _ _ Hk) as Hc. rewrite Forall_forall in Hc.
    destruct (Hc _ Hq) as (un' & _ & _ & e & He & ->). cbn [fst] in He.
    set (e := AElm 1 ctrl_client_hashfn (ctrl_client_equalfn un') true) in *.
    assert (Hh : a_hold p a = Some (a {{ a_elms := <[p := e {{ a_refs := 2 }}]> (a_elms a) }})).
    { unfold a_hold. by rewrite He. }
    assert (Hput : a_put p (a {{ a_elms := <[p := e {{ a_refs := 2 }}]> (a_elms a) }}) = Some a).
    { unfold a_put. rewrite a_elms_set, lookup_insert_eq. cbn [mbind option_bind]. unfold owned. rewrite decide_True by done.
      change ((1 <=? 2 - 1) && true) with true. cbn [a_refs e]. destruct a as [mk hs m]. cbn in *. do 2 f_equal.
      rewrite insert_insert_eq. by apply insert_id. }
    rewrite Hh in Hlk. eapply wp_mono; [exact (lookup_ok _ _ _ _ _ _ _ Hat Hlk)|]. intros ? t1 [-> Hat1].
    apply wp_on_clients. eapply wp_mono; [exact (put_ok _ _ _ _ _ _ Hat1 Hput)|]. intros [] t2 [Hr2 Hio2]. rewrite decide_True by done.
    split_and!; [done| |exact (f_equal outbox Hio2)|exact (f_equal sendto_ok Hio2)|done..].
    by eapply clients_at.
  - eapply wp_mono; [exact (lookup_ok _ _ _ _ _ _ _ Hat Hlk)|]. intros ? t1 [-> [Hr1 Hio1]].
    apply wp_bind. unfold ctrl_client_new. apply wp_bind, wp_on_srv, wp_kmalloc.
    change (srv (w {{ clients := t1 }})) with (srv w).
    destruct (alloc_ok (srv w)) as [ok s'] eqn:Eal. cbn [fst snd]. destruct ok.
    2:{ apply wp_ret. apply wp_ret. cbv beta. rewrite decide_False by done. split_and!; [done| |exact (f_equal outbox Hio1)|exact (f_equal sendto_ok Hio1)|done..].
      by eapply clients_at. }
    apply wp_bind, wp_gets. apply wp_bind, wp_modS.
    pose proof (enter_client (next_cc w) t1 uns un a) as He. rewrite Hio1 in He. specialize (He (conj Hr1 Hio1) Hk Hp Hn Hf Hlen).
    apply wp_bind, wp_on_clients. eapply wp_mono; [exact (wp_unbind _ _ _ _ He)|]. clear He. intros [] t2 He.
    apply wp_bind, wp_on_clients. eapply wp_mono; [exact (wp_unbind _ _ _ _ He)|]. clear He. intros ? t3 He.
    apply wp_bind, wp_on_clients. eapply wp_mono; [exact (wp_unbind _ _ _ _ He)|]. clear He. intros ? t4 He.
    apply wp_ret. apply wp_bind, wp_on_clients. eapply wp_mono; [exact (wp_unbind _ _ _ _ He)|]. clear He. intros ? t5 He.
    apply wp_on_clients. eapply wp_mono; [exact He|]. intros [] t6 [Hc Hio6]. rewrite decide_False by done.
    split_and!; [done|exact Hc|exact (f_equal outbox Hio6)|exact (f_equal sendto_ok Hio6)|done..].
Qed.
End Note.

(** ** Buffers *)
Section Buffers.
Implicit Types (buf bs : list Z).

Definition byte_list buf : Prop := Forall (fun b => 0 <= b < 256) buf.
Lemma rd_some buf off n : (off + n <= length buf)%nat -> rd buf (Z.of_nat off) n = Some (take n (drop off buf)).
Proof.
  intros H. unfold rd. destruct (Z.leb_spec 0 (Z.of_nat off)); [|lia].
  destruct (Z.leb_spec (Z.of_nat off + Z.of_nat n) (Z.of_nat (length buf))); [|lia]. by rewrite Nat2Z.id.
Qed.
Lemma wr_some buf off bs :
  (off + length bs <= length buf)%nat ->
  wr buf (Z.of_nat off) bs = Some (take off buf ++ bs ++ drop (off + length bs) buf).
Proof.
  intros H. unfold wr. destruct (Z.leb_spec 0 (Z.of_nat off)); [|lia].
  destruct (Z.leb_spec (Z.of_nat off + Z.of_nat (length bs)) (Z.of_nat (length buf))); [|lia]. by rewrite Nat2Z.id.
Qed.
(** The buffer after a write. *)
Definition patch buf (off : nat) bs : list Z := take off buf ++ bs ++ drop (off + length bs) buf.
Lemma patch_length buf off bs : (off + length bs <= length buf)%nat -> length (patch buf off bs) = length buf.
Proof. intros H. unfold patch. rewrite !length_app, length_take, length_drop. lia. Qed.
Lemma patch_bytes buf off bs : byte_list buf -> byte_list bs -> byte_list (patch buf off bs).
Proof.
  intros H1 H2. unfold byte_list, patch. rewrite !Forall_app. split_and!; [by apply Forall_take|done|by apply Forall_drop].
Qed.
Lemma patch_same buf off bs :
  (off + length bs <= length buf)%nat -> take (length bs) (drop off (patch buf off bs)) = bs.
Proof.
  intros H. unfold patch. rewrite drop_app_length' by (rewrite length_take; lia). by rewrite take_app_length.
Qed.
Lemma patch_before buf off bs x n :
  (off + length bs <= length buf)%nat -> (x + n <= off)%nat ->
  take n (drop x (patch buf off bs)) = take n (drop x buf).
Proof.
  intros H Hx. unfold patch. rewrite drop_app_le by (rewrite length_take; lia).
  rewrite take_app_le by (rewrite length_drop, length_take; lia).
  rewrite <- (take_drop off buf) at 2. rewrite drop_app_le by (rewrite length_take; lia).
  rewrite take_app_le by (rewrite length_drop, length_take; lia). done.
Qed.
Lemma patch_behind buf off bs x n :
  (off + length bs <= length buf)%nat -> (off + length bs <= x)%nat ->
  take n (drop x (patch buf off bs)) = take n (drop x buf).
Proof.
  intros H Hx. f_equal. unfold patch. rewrite app_assoc, drop_app_ge by (rewrite length_app, length_take; lia).
  rewrite length_app, length_take, drop_drop. f_equal. lia.
Qed.
Lemma le_bound bs : byte_list bs -> 0 <= le bs < 256 ^ Z.of_nat (length bs).
Proof.
  induction 1 as [|b bs Hb _ IH]; [simpl; lia|]. cbn [le length].
  rewrite Nat2Z.inj_succ, Z.pow_succ_r by lia. lia.
Qed.
Lemma le_to_le n z : 0 <= z < 256 ^ Z.of_nat n -> le (to_le n z) = z.
Proof.
  revert z. induction n as [|n IH]; intros z Hz; [simpl in *; lia|]. cbn [to_le le].
  rewrite Nat2Z.inj_succ, Z.pow_succ_r in Hz by lia. rewrite IH by (Z.to_euclidean_division_equations; nia).
  Z.to_euclidean_division_equations; lia.
Qed.
Lemma to_le_length n z : length (to_le n z) = n.
Proof. revert z. induction n as [|n IH]; intros z; simpl; [done|by rewrite IH]. Qed.
Lemma to_le_bytes n z : byte_list (to_le n z).
Proof. revert z. induction n as [|n IH]; intros z; constructor; [apply Z.mod_pos_bound; lia|apply IH]. Qed.

Lemma wp_bytes w off n (Q : list Z -> ctrlw -> Prop) :
  (off + n <= length (rbuf w))%nat -> Q (take n (drop off (rbuf w))) w -> wp (bytes_at (Z.of_nat off) n) w Q.
Proof. intros H HQ. unfold bytes_at. apply wp_bind, wp_gets. rewrite rd_some by done. by apply wp_ret. Qed.
Lemma wp_uint w off n (Q : Z -> ctrlw -> Prop) :
  (off + n <= length (rbuf w))%nat -> Q (le (take n (drop off (rbuf w)))) w -> wp (uint_at (Z.of_nat off) n) w Q.
Proof. intros H HQ. unfold uint_at. apply wp_bind, wp_bytes; [done|]. by apply wp_ret. Qed.
Lemma wp_put w off bs (Q : unit -> ctrlw -> Prop) :
  (off + length bs <= length (rbuf w))%nat -> Q tt (w {{ rbuf := patch (rbuf w) off bs }}) -> wp (put_bytes (Z.of_nat off) bs) w Q.
Proof. intros H HQ. unfold put_bytes. apply wp_bind, wp_gets. rewrite wr_some by done.
  apply wp_bind, wp_ret. by apply wp_modS. Qed.

(** ** Entries of a message *)
Definition entry buf (i : nat) : list Z := take 60 (drop (12 + 60 * i) buf).
Definition field (e : list Z) (x n : nat) : list Z := take n (drop x e).
Lemma entry_field buf i x n : (x + n <= 60)%nat -> field (entry buf i) x n = take n (drop (12 + 60 * i + x) buf).
Proof.
  intros H. unfold field, entry. rewrite skipn_firstn_comm, take_take, drop_drop. f_equal. lia.
Qed.
Lemma wp_field_bytes w i x n o (Q : list Z -> ctrlw -> Prop) :
  (12 + 60 * i + 60 <= length (rbuf w))%nat -> (x + n <= 60)%nat -> o = service_off (Z.of_nat i) + Z.of_nat x ->
  Q (field (entry (rbuf w) i) x n) w -> wp (bytes_at o n) w Q.
Proof.
  intros H1 H2 -> HQ. unfold service_off, sizeof_ctrlmsg_service, sizeof_service_info.
  replace (12 + 60 * Z.of_nat i + Z.of_nat x) with (Z.of_nat (12 + 60 * i + x)) by lia.
  apply wp_bytes; [lia|]. by rewrite <- entry_field.
Qed.
Lemma wp_field w i x n o (Q : Z -> ctrlw -> Prop) :
  (12 + 60 * i + 60 <= length (rbuf w))%nat -> (x + n <= 60)%nat -> o = service_off (Z.of_nat i) + Z.of_nat x ->
  Q (le (field (entry (rbuf w) i) x n)) w -> wp (uint_at o n) w Q.
Proof. intros H1 H2 Ho HQ. unfold uint_at. apply wp_bind. eapply wp_field_bytes; [done..|]. by apply wp_ret. Qed.
End Buffers.

Section Add.
Implicit Types (w : ctrlw) (e : list Z) (m : gmap (list bool) (positive * positive)).

(** ** Devices *)
(** Only the references of the devices change. *)
Definition same_but_devs w w' : Prop :=
  srv w' = srv w /\ clients w' = clients w /\ rbuf w' = rbuf w /\ next_cc w' = next_cc w /\
  sal_forward w' = sal_forward w /\ dev_first w' = dev_first w /\ length (devs w') = length (devs w).
Definition devs_ok w : Prop := match dev_first w with Some k => (k < length (devs w))%nat | None => True end.
Lemma find_dev_lt f l n k : find_dev f l n = Some k -> (n <= k < n + length l)%nat.
Proof.
  revert n. induction l as [|d l IH]; intros n; simpl; [done|]. destruct (f d); [intros [= <-]; lia|]. intros ?%IH. lia.
Qed.
Lemma upd_dev_ok w k d : wp (upd_dev k d) w (fun _ w' => same_but_devs w w').
Proof. apply wp_modS. split_and!; try done. cbn. apply length_alter. Qed.
Lemma devs_trans w1 w2 w3 : same_but_devs w1 w2 -> same_but_devs w2 w3 -> same_but_devs w1 w3.
Proof. intros (?&?&?&?&?&?&?) (?&?&?&?&?&?&?). split_and!; congruence. Qed.
Lemma same_devs_ok w w' : same_but_devs w w' -> devs_ok w -> devs_ok w'.
Proof. intros (_&_&_&_&_&E&El). unfold devs_ok. by rewrite E, El. Qed.
Definition dev_found w (o : option nat) w' : Prop :=
  same_but_devs w w' /\ match o with Some k => (k < length (devs w'))%nat | None => True end.
Lemma by_index_ok w i : devs_ok w -> wp (dev_get_by_index i) w (dev_found w).
Proof.
  intros Hd. unfold dev_get_by_index. apply wp_bind.
  apply (wp_mono _ _ (fun o w' => w' = w /\ match o with Some k => (k < length (devs w))%nat | None => True end)).
  { unfold __dev_get_by_index. destruct (i =? 0); apply wp_gets; [done|]. split; [done|].
    destruct (find_dev _ _ _) as [k|] eqn:E; [|done]. apply find_dev_lt in E. lia. }
  intros [k|] w' [-> Hk]; [|by apply wp_ret]. apply wp_bind. eapply wp_mono; [apply upd_dev_ok|]. intros [] w' Hs. apply wp_ret.
  split; [done|]. destruct Hs as (?&?&?&?&?&?&->). lia.
Qed.
Lemma resolve_impl_ok w addr i : devs_ok w -> wp (resolve_dev_impl addr i) w (dev_found w).
Proof.
  intros Hd. unfold resolve_dev_impl. apply wp_bind, wp_gets. destruct (find_dev (same_prefix addr) _ _) as [k|] eqn:E.
  { apply find_dev_lt in E. apply wp_bind. eapply wp_mono; [apply upd_dev_ok|]. intros [] w' Hs. apply wp_ret.
    split; [done|]. destruct Hs as (?&?&?&?&?&?&->). lia. }
  clear E. set (g := find_dev _ _ _). apply wp_bind.
  assert (Hg : match g with Some k => (k < length (devs w))%nat | None => True end).
  { destruct g as [k|] eqn:E; [|done]. apply find_dev_lt in E. lia. }
  apply (wp_mono _ _ (fun _ => same_but_devs w)).
  { destruct g; [apply upd_dev_ok|by apply wp_ret]. }
  intros [] w1 Hs1. apply wp_bind. apply (wp_mono _ _ (dev_found w1)).
  { destruct (0 <=? s32 i); [apply by_index_ok; by eapply same_devs_ok|by apply wp_ret]. }
  intros o w2 [Hs2 Ho]. pose proof (devs_trans _ _ _ Hs1 Hs2) as Hs.
  assert (Hlen : length (devs w2) = length (devs w)) by apply Hs.
  destruct o as [k|].
  - destruct g as [k'|].
    + apply wp_bind. eapply wp_mono; [apply upd_dev_ok|]. intros [] w3 Hs3. apply wp_ret. split; [by eapply devs_trans|].
      destruct Hs3 as (?&?&?&?&?&?&->). done.
    + by apply wp_ret.
  - apply wp_ret. split; [done|]. by rewrite Hlen.
Qed.

(** ** One entry *)
Definition e_type e : Z := le (field e 0 2).
Definition e_bits e : nat :=
  let b := le (field e 2 1) in Z.to_nat (if 0 <? b then b else SERVICE_ID_MAX_PREFIX_BITS).
Definition e_priority e : Z := le (field e 8 4).
Definition e_weight e : Z := weight_or_1 (le (field e 12 4)).
Definition e_address e : list Z := field e 24 4.
Definition e_srvid e : list Z := field e 28 32.
Definition e_key e : list bool := bits_of (e_srvid e) (table_bits (e_srvid e) (e_bits e)).
(** The rule an entry asks for. *)
Definition e_rule e (r : Z * target) : Prop :=
  r.1 = e_priority e /\ t_type r.2 = SERVICE_RULE_FORWARD /\ t_weight r.2 = e_weight e /\ t_dst r.2 = e_address e.

Definition good_entry e : Prop := length e = 60%nat /\ byte_list e /\ e_type e = 1.
Lemma e_field_length e x n : (x + n <= length e)%nat -> length (field e x n) = n.
Proof. intros. unfold field. rewrite length_take, length_drop. lia. Qed.
Lemma e_field_bytes e x n : byte_list e -> byte_list (field e x n).
Proof. intros. by apply Forall_take, Forall_drop. Qed.
Lemma field_range e x n : byte_list e -> (x + n <= length e)%nat -> 0 <= le (field e x n) < 256 ^ Z.of_nat n.
Proof. intros Hb Hl. rewrite <- (e_field_length e x n Hl) at 3. by apply le_bound, e_field_bytes. Qed.
Lemma PREFIX_SIZE_256 n : (n <= 256)%nat -> (PREFIX_SIZE n <= 32)%nat.
Proof.
  intros H. unfold PREFIX_SIZE, PREFIX_BYTE. pose proof (Nat.div_mod_eq n 8). pose proof (Nat.mod_upper_bound n 8).
  destruct (Nat.eqb_spec (n mod 8) 0); lia.
Qed.
Lemma bits_le e : good_entry e -> (PREFIX_SIZE (table_bits (e_srvid e) (e_bits e)) <= length (e_srvid e))%nat.
Proof.
  intros (Hl & Hb & _). unfold e_srvid at 2. rewrite e_field_length by lia.
  pose proof (field_range e 2 1 Hb ltac:(lia)) as Hr. change (256 ^ Z.of_nat 1) with 256 in Hr.
  assert (He : (e_bits e <= 256)%nat).
  { unfold e_bits, SERVICE_ID_MAX_PREFIX_BITS. destruct (0 <? _); lia. }
  unfold table_bits. destruct (is_default _).
  - change (PREFIX_SIZE 0) with 0%nat. lia.
  - by apply PREFIX_SIZE_256.
Qed.

(** The service table gains the rules of the entries [es] and nothing else. *)
Definition added (st : bst) m (es : list (list Z)) (st' : bst) m' : Prop :=
  forall key, exists rs, Forall2 e_rule (filter (fun e => e_key e = key) es) rs /\ bag st' m' key ≡ₚ rs ++ bag st m key.
Lemma added_nil st m st' m' : (forall key, bag st' m' key = bag st m key) -> added st m [] st' m'.
Proof. intros H key. exists []. split; [constructor|by rewrite H]. Qed.
Lemma added_cons st m e st1 m1 es st' m' :
  added st m [e] st1 m1 -> added st1 m1 es st' m' -> added st m (e :: es) st' m'.
Proof.
  intros H1 H2 key. destruct (H1 key) as (r1 & Hr1 & Hb1), (H2 key) as (rs & Hrs & Hb). exists (r1 ++ rs). split.
  - change (e :: es) with ([e] ++ es). rewrite filter_app. by apply Forall2_app.
  - rewrite Hb, Hb1, (Permutation_app_comm r1 rs), <- app_assoc. done.
Qed.
Lemma added_length st m es st' m' key : added st m es st' m' -> (length (bag st' m' key) <= length es + length (bag st m key))%nat.
Proof.
  intros H. destruct (H key) as (rs & Hrs%Forall2_length & Hb). rewrite Hb, length_app, <- Hrs.
  pose proof (length_filter (fun e => e_key e = key) es). lia.
Qed.

(** The table grows by one prefix at most. *)
Lemma bag_some st m key n l : table_ok st m -> m !! key = Some (n, l) -> bag st m key <> [].
Proof.
  intros Hok Hk. destruct (tk_entry _ _ Hok _ _ _ Hk) as (se & Hl & _ & He & Hne & _).
  rewrite (bag_at _ _ _ _ _ _ Hk Hl). destruct (se_sets se) as [|s sets] eqn:Es; [done|].
  destruct He as [[_ Hf] _]. rewrite Es in Hf. apply Forall_cons in Hf as [(Hs & _) _].
  rewrite flat_cons. unfold flat_set. by destruct (s_list s).
Qed.
Lemma size_grows st m st' m' key :
  table_ok st m -> table_ok st' m' -> (forall k, k <> key -> bag st' m' k = bag st m k) -> (size m' <= S (size m))%nat.
Proof.
  intros Hok Hok' Hb. rewrite <- !size_dom.
  transitivity (size ({[key]} ∪ dom m)); [apply subseteq_size|rewrite size_union_alt, size_singleton].
  - intros k Hk. apply elem_of_union. destruct (decide (k = key)) as [->|Hne]; [left; by apply elem_of_singleton|right].
    apply elem_of_dom in Hk as [[n l] Hk]. pose proof (bag_some _ _ _ _ _ Hok' Hk) as Hs. rewrite Hb in Hs by done.
    apply elem_of_dom. unfold bag in Hs. by destruct (m !! k) as [[]|].
  - pose proof (subseteq_size (dom m ∖ {[key]}) (dom m)) as H. specialize (H ltac:(set_solver)). lia.
Qed.

(** What [add_one] does with the entry at [i]. *)
Definition room (n : nat) (st : bst) m : Prop :=
  Z.of_nat (size m) + Z.of_nat n + 2 < 2 ^ 32 /\ forall key, Z.of_nat (length (bag st m key)) + Z.of_nat n < 2 ^ 16.
Lemma add_one_ok w m i k :
  let e := entry (rbuf w) i in
  (12 + 60 * i + 60 <= length (rbuf w))%nat -> good_entry e -> (k < length (devs w))%nat ->
  table_ok (srv w) m -> room 1 (srv w) m ->
  wp (add_one (service_off (Z.of_nat i)) (Some k)) w (fun err w' => exists m',
    table_ok (srv w') m' /\ (size m' <= S (size m))%nat /\
    added (srv w) m (if 0 <? err then [e] else []) (srv w') m' /\ w' = w {{ srv := srv w' }}).
Proof.
  intros e Hi Hg Hk Hok [Hsz Hbag]. pose proof Hg as (Hl & Hb & Ht). unfold add_one, prefix_bits_at.
  apply wp_bind. eapply (wp_field w i 0 2); [done|lia|unfold s_type; lia|]. fold e. fold (e_type e). rewrite Ht.
  apply wp_bind, wp_bind. eapply (wp_field w i 2 1); [done|lia|unfold s_prefix_bits; lia|]. apply wp_ret.
  apply wp_bind. eapply (wp_field_bytes w i 28 32); [done|lia|unfold s_srvid; lia|]. fold e. fold (e_srvid e).
  apply wp_bind. eapply (wp_field w i 3 1); [done|lia|unfold s_flags_off; lia|].
  apply wp_bind. eapply (wp_field w i 8 4); [done|lia|unfold s_priority_off; lia|]. fold e. fold (e_priority e).
  apply wp_bind. eapply (wp_field w i 12 4); [done|lia|unfold s_weight; lia|]. fold e.
  apply wp_bind. eapply (wp_field_bytes w i 24 4); [done|lia|unfold s_address; lia|]. fold e. fold (e_address e).
  unfold make_dev_target. apply wp_bind, wp_bind, wp_ret. apply wp_bind, wp_gets.
  destruct (lookup_lt_is_Some_2 _ _ Hk) as [d Hd]. rewrite Hd. apply wp_bind, wp_ret. apply wp_ret.
  apply wp_bind. cbn [rule_type Z.eqb Pos.eqb]. apply wp_ret. apply wp_on_srv. unfold service_add.
  fold (e_weight e) (e_bits e). set (out := u32 (dv_ifindex d)).
  assert (Hw : 0 <= e_weight e < 2 ^ 32).
  { pose proof (field_range e 12 4 Hb ltac:(lia)) as Hr. unfold e_weight, weight_or_1. destruct (_ =? 0); [lia|exact Hr]. }
  destruct (table_add_ok (srv w) m (e_srvid e) (e_bits e) SERVICE_RULE_FORWARD (le (field e 3 1)) (e_priority e) (e_weight e)
    (Ptr 1 (e_address e)) 4 out Hok (bits_le e Hg)) as (ret & st' & Hrun & m' & Hok' & Hframe & Hcase).
  { done. }
  { split_and!; [done|change (ADDR_LEN <= length (field e 24 4))%nat; rewrite e_field_length by lia; unfold ADDR_LEN; lia|done]. }
  { done. }
  { lia. }
  { apply (Hbag (e_key e)). }
  apply wp_run. exists ret, st'. split; [exact Hrun|]. exists m'. split_and!; [done|by eapply size_grows| |done].
  fold (e_key e) in Hframe, Hcase. destruct Hcase as [(-> & t & Hnew & Hp)|(Hret & -> & Hsame)].
  - intros key. cbn [Z.ltb Z.compare]. rewrite filter_cons. destruct (decide (e_key e = key)) as [<-|Hne].
    + exists [(e_priority e, t)]. split; [|done]. rewrite filter_nil. constructor; [|constructor].
      destruct Hnew as (Ht1 & Ht2 & _ & Ht3 & _). split_and!; [done..|]. cbn [snd]. rewrite Ht3. cbn [p_bytes].
      unfold e_address. by rewrite take_ge by (rewrite e_field_length; lia).
    + exists []. rewrite filter_nil. split; [constructor|]. by rewrite Hframe.
  - assert (Hneg : (0 <? ret) = false).
    { apply list_elem_of_In in Hret. simpl in Hret. unfold EADDRINUSE, ENOMEM, EEXIST in Hret. apply Z.ltb_ge. lia. }
    rewrite Hneg. apply added_nil. intros key. destruct (decide (key = e_key e)) as [->|]; [done|by apply Hframe].
Qed.

(** ** The loop *)
(** A buffer with room for [n] entries. *)
Definition holds_entries (n : nat) (buf : list Z) : Prop := (12 + 60 * n <= length buf)%nat /\ byte_list buf.
Lemma entry_bytes buf i : byte_list buf -> byte_list (entry buf i).
Proof. intros. by apply Forall_take, Forall_drop. Qed.
Lemma entry_length n buf i : holds_entries n buf -> (i < n)%nat -> length (entry buf i) = 60%nat.
Proof. intros [H _] Hi. unfold entry. rewrite length_take, length_drop. lia. Qed.
Lemma copy_ok n w index i :
  holds_entries n (rbuf w) -> (index <= i < n)%nat ->
  wp (copy_over (Z.of_nat index) (Z.of_nat i) (service_off (Z.of_nat i))) w (fun _ w' => exists buf,
    w' = w {{ rbuf := buf }} /\ holds_entries n buf /\ length buf = length (rbuf w) /\ take 12 buf = take 12 (rbuf w) /\
    entry buf index = entry (rbuf w) i /\ forall j, (j < n)%nat -> j <> index -> entry buf j = entry (rbuf w) j).
Proof.
  intros Hh Hi. pose proof Hh as [Hlen Hb]. pose proof (entry_length n _ i Hh ltac:(lia)) as He. unfold copy_over.
  destruct (Z.ltb_spec (Z.of_nat index) (Z.of_nat i)).
  - apply wp_bind. eapply (wp_field_bytes w i 0 60); [lia|lia|lia|].
    replace (field (entry (rbuf w) i) 0 60) with (entry (rbuf w) i) by (unfold field; rewrite drop_0; symmetry; apply take_ge; lia).
    unfold service_off, sizeof_ctrlmsg_service, sizeof_service_info. replace (12 + 60 * Z.of_nat index) with (Z.of_nat (12 + 60 * index)) by lia.
    apply wp_put; [rewrite He; lia|]. exists (patch (rbuf w) (12 + 60 * index) (entry (rbuf w) i)).
    assert (Hfit : (12 + 60 * index + length (entry (rbuf w) i) <= length (rbuf w))%nat) by (rewrite He; lia).
    split_and!; [done|split; [rewrite patch_length; lia|by apply patch_bytes; [|apply entry_bytes]]|by apply patch_length| | |].
    + exact (patch_before _ _ _ 0 12 Hfit ltac:(lia)).
    + pose proof (patch_same _ _ _ Hfit) as Hp. rewrite He in Hp. exact Hp.
    + intros j Hj Hne. destruct (decide (j < index)%nat).
      * exact (patch_before _ _ _ (12 + 60 * j) 60 Hfit ltac:(lia)).
      * exact (patch_behind _ _ _ (12 + 60 * j) 60 Hfit ltac:(rewrite He; lia)).
  - apply wp_ret. exists (rbuf w). assert (index = i) as -> by lia. split_and!; try done. by destruct w.
Qed.

Lemma room_added n st m es st' m' :
  room (S n) st m -> (size m' <= S (size m))%nat -> (length es <= 1)%nat -> added st m es st' m' -> room n st' m'.
Proof.
  intros [H1 H2] Hsz He Ha. split; [lia|]. intros key. pose proof (added_length _ _ _ _ _ key Ha). specialize (H2 key). lia.
Qed.
Lemma resolve_ok n w i :
  holds_entries n (rbuf w) -> (i < n)%nat -> devs_ok w -> wp (resolve_dev (service_off (Z.of_nat i))) w (dev_found w).
Proof.
  intros [Hlen _] Hi Hd. unfold resolve_dev. apply wp_bind. eapply (wp_field w i 24 4); [lia|lia|unfold s_address; lia|].
  apply wp_bind. eapply (wp_field w i 4 4); [lia|lia|unfold s_if_index; lia|]. by apply resolve_impl_ok.
Qed.

(** What the loop leaves: entries that were added, in front. *)
Record loop_end (n index i : nat) w m (oks : list bool) (index' : Z) w' m' : Prop := {
  le_oks : length oks = (n - i)%nat;
  le_index : index' = Z.of_nat (index + length (pick (map (entry (rbuf w)) (seq i (n - i))) oks));
  le_table : table_ok (srv w') m';
  le_added : added (srv w) m (pick (map (entry (rbuf w)) (seq i (n - i))) oks) (srv w') m';
  le_buf : holds_entries n (rbuf w') /\ length (rbuf w') = length (rbuf w) /\ take 12 (rbuf w') = take 12 (rbuf w);
  le_before j : (j < index)%nat -> entry (rbuf w') j = entry (rbuf w) j;
  le_entries j e : pick (map (entry (rbuf w)) (seq i (n - i))) oks !! j = Some e -> entry (rbuf w') (index + j) = e;
  le_clients : clients w' = clients w /\ next_cc w' = next_cc w /\ sal_forward w' = sal_forward w;
}.
Definition same_world w w1 : Prop :=
  clients w1 = clients w /\ next_cc w1 = next_cc w /\ sal_forward w1 = sal_forward w.
Lemma added_skip st m st1 m1 es st' m' : added st m [] st1 m1 -> added st1 m1 es st' m' -> added st m es st' m'.
Proof.
  intros H1 H2 key. destruct (H1 key) as (r1 & Hr1 & Hb1), (H2 key) as (rs & Hrs & Hb).
  rewrite filter_nil in Hr1. apply Forall2_nil_inv_l in Hr1 as ->. exists rs. split; [done|]. by rewrite Hb, Hb1.
Qed.
Lemma loop_skip n index i w m w1 m1 oks idx w' m' :
  (i < n)%nat -> rbuf w1 = rbuf w -> same_world w w1 -> added (srv w) m [] (srv w1) m1 ->
  loop_end n index (S i) w1 m1 oks idx w' m' -> loop_end n index i w m (false :: oks) idx w' m'.
Proof.
  intros Hi Hb (Hc & Hn & Hs) Ha [L1 L2 L3 L4 L5 L6 L7 (C1 & C2 & C3)]. rewrite Hb in *.
  assert (Hseq : seq i (n - i) = i :: seq (S i) (n - S i)) by (replace (n - i)%nat with (S (n - S i)) by lia; done).
  split; rewrite ?Hseq; try done.
  - cbn [length]. lia.
  - by eapply added_skip.
  - split_and!; congruence.
Qed.
Lemma loop_take n index i w m w1 m1 oks idx w' m' :
  (index <= i < n)%nat -> holds_entries n (rbuf w1) -> length (rbuf w1) = length (rbuf w) -> take 12 (rbuf w1) = take 12 (rbuf w) ->
  entry (rbuf w1) index = entry (rbuf w) i -> (forall j, (j < n)%nat -> j <> index -> entry (rbuf w1) j = entry (rbuf w) j) ->
  same_world w w1 -> added (srv w) m [entry (rbuf w) i] (srv w1) m1 ->
  loop_end n (S index) (S i) w1 m1 oks idx w' m' -> loop_end n index i w m (true :: oks) idx w' m'.
Proof.
  intros Hi Hh Hl1 Ht1 He Hj (Hc & Hn & Hs) Ha [L1 L2 L3 L4 (B1 & B2 & B3) L6 L7 (C1 & C2 & C3)].
  assert (Hseq : seq i (n - i) = i :: seq (S i) (n - S i)) by (replace (n - i)%nat with (S (n - S i)) by lia; done).
  assert (Hmap : map (entry (rbuf w1)) (seq (S i) (n - S i)) = map (entry (rbuf w)) (seq (S i) (n - S i))).
  { apply map_ext_in. intros j Hin%in_seq. apply Hj; lia. }
  rewrite Hmap in *. split; rewrite ?Hseq; cbn [map pick]; try done.
  - cbn [length]. lia.
  - rewrite L2. cbn [length]. f_equal. lia.
  - by eapply added_cons.
  - split_and!; [done|congruence..].
  - intros j Hlt. rewrite L6 by lia. apply Hj; lia.
  - intros [|j] e; cbn [lookup list_lookup].
    + intros [= <-]. rewrite Nat.add_0_r, L6 by lia. done.
    + intros He'. rewrite <- (L7 j e He'). f_equal. lia.
  - split_and!; congruence.
Qed.
Lemma add_loop_ok n fuel i index w m :
  holds_entries n (rbuf w) -> (forall j, (i <= j < n)%nat -> e_type (entry (rbuf w) j) = 1) -> (index <= i <= n)%nat ->
  (n - i <= fuel)%nat -> table_ok (srv w) m -> room (n - i) (srv w) m -> devs_ok w ->
  wp (add_loop fuel (Z.of_nat i) (Z.of_nat n) (Z.of_nat index)) w
    (fun index' w' => exists oks m', loop_end n index i w m oks index' w' m').
Proof.
  intros Hh Ht Hi Hf Hok Hroom Hdo. remember (n - i)%nat as d eqn:Ed. revert i index w m fuel Hh Ht Hi Hf Hok Hroom Hdo Ed.
  induction d as [|d IH]; intros i index w m fuel Hh Ht Hi Hf Hok Hroom Hdo Ed.
  { assert (i = n) as -> by lia. replace (add_loop fuel (Z.of_nat n) (Z.of_nat n) (Z.of_nat index)) with (mret (Z.of_nat index) : CM Z)
      by (destruct fuel; simpl; by rewrite Z.leb_refl).
    apply wp_ret. exists [], m. split; rewrite ?Nat.sub_diag; cbn; try done; [lia|by apply added_nil]. }
  destruct fuel as [|fuel]; [lia|]. cbn [add_loop]. destruct (Z.leb_spec (Z.of_nat n) (Z.of_nat i)); [lia|].
  apply wp_bind. eapply (wp_field w i 0 2); [destruct Hh; lia|lia|unfold s_type; lia|].
  fold (e_type (entry (rbuf w) i)). rewrite (Ht i) by lia. cbn [Z.eqb Pos.eqb andb].
  replace (Z.of_nat i + 1) with (Z.of_nat (S i)) by lia.
  apply wp_bind. eapply wp_mono; [apply (resolve_ok n); [done|lia|done]|]. intros dev w1 [Hs1 Hdev].
  pose proof (same_devs_ok _ _ Hs1 Hdo) as Hdo1. destruct Hs1 as (E1 & E2 & E3 & E4 & E5 & E6 & E7).
  destruct dev as [k|].
  2:{ rewrite bool_decide_eq_true_2 by done. eapply wp_mono.
    - apply (IH (S i) index w1 m fuel); rewrite ?E3, ?E1; try done; [intros; apply Ht; lia|lia|lia| |lia].
      eapply (room_added d _ _ []); [done|lia|simpl; lia|by apply added_nil].
    - intros idx w' (oks & m' & Hend). exists (false :: oks), m'. eapply (loop_skip n index i w m w1 m); [lia|done|done| |done].
      rewrite E1. by apply added_nil. }
  rewrite bool_decide_eq_false_2 by done.
  apply wp_bind. eapply wp_mono; [apply (add_one_ok w1 m i k); rewrite ?E3, ?E1; try done|].
  { destruct Hh. lia. }
  { split_and!; [apply (entry_length n); [done|lia]|apply entry_bytes, Hh|apply Ht; lia]. }
  { destruct Hroom as [H1 H2]. split; [lia|]. intros key. specialize (H2 key). lia. }
  intros err w2 (m1 & Hok1 & Hsz1 & Hadd1 & Hw2). rewrite E1 in Hadd1. rewrite E3 in Hadd1.
  assert (F : devs_ok w2 /\ rbuf w2 = rbuf w /\ same_world w w2) by (rewrite Hw2; split_and!; cbn; done).
  destruct F as (F1 & F3 & F2 & F4 & F5). clear Hw2.
  apply wp_bind. eapply wp_mono; [apply upd_dev_ok|]. intros [] w3 Hs3.
  pose proof (same_devs_ok _ _ Hs3 F1) as Hdo3. destruct Hs3 as (G1 & G2 & G3 & G4 & G5 & _ & _).
  assert (Hroom1 : room d (srv w3) m1).
  { rewrite G1. eapply room_added; [exact Hroom|done| |done]. destruct (0 <? err); simpl; lia. }
  destruct (0 <? err).
  - apply wp_bind. eapply wp_mono; [apply (copy_ok n w3 index i); [by rewrite G3, F3|lia]|].
    intros [] w4 (buf & -> & Hhb & Hlen & Htk & He & Hj). rewrite G3, F3 in Hlen, Htk, He, Hj.
    replace (Z.of_nat index + 1) with (Z.of_nat (S index)) by lia. eapply wp_mono.
    + apply (IH (S i) (S index) (w3 {{ rbuf := buf }}) m1 fuel); try done; [|lia|lia|by rewrite <- G1 in Hok1|lia].
      intros j Hij. change (e_type (entry buf j) = 1). rewrite Hj by lia. apply Ht. lia.
    + intros idx w' (oks & m' & Hend). exists (true :: oks), m'. eapply (loop_take n index i w m (w3 {{ rbuf := buf }}) m1); [lia|done..| | |done].
      * change (same_world w w3). split_and!; congruence.
      * change (added (srv w) m [entry (rbuf w) i] (srv w3) m1). by rewrite G1.
  - eapply wp_mono.
    + apply (IH (S i) index w3 m1 fuel); rewrite ?G3, ?F3; try done; [intros; apply Ht; lia|lia|lia|by rewrite G1|lia].
    + intros idx w' (oks & m' & Hend). exists (false :: oks), m'. eapply (loop_skip n index i w m w3 m1); [lia|congruence| | |done].
      * split_and!; congruence.
      * by rewrite G1.
Qed.
End Add.
