(* ===== verification/CtrlClaims.v ===== *)
(** * The control channel: its main theorems *)
From S2P Require Import Prelude Bst BstRep BstFind BstInsert BstRemove BstHistory.
From S2P Require Import ServiceEntry ServiceTable ServiceInv ServiceRefine ServiceAdd ServiceDel ServiceClaims.
From S2P Require Import Hash Hashtable HashtableOk HashtableClaims Ctrl CtrlClients CtrlAdd.
Local Open Scope Z_scope.

Section Handlers.
Implicit Types (w : ctrlw) (un msg : list Z) (uns : list (list Z)) (m : gmap (list bool) (positive * positive)).

(** A message reached the clients [vs] (in the order of the table), as far as
    [sendto] succeeded; the others are forgotten. *)
Definition broadcast w uns msg w' : Prop :=
  exists vs uns', vs ≡ₚ uns /\
    let bs := verdicts (length uns) (sendto_ok (Hashtable.env (clients w))) in
    outbox (Hashtable.env (clients w')) = outbox (Hashtable.env (clients w)) ++ map (fun un => (un, msg)) (pick vs bs) /\
    known_clients w' uns' /\ uns' ≡ₚ pick vs bs.
Lemma ctrl_sendmsg_ok w uns buf msg :
  known_clients w uns -> message_of buf = Some msg ->
  wp (ctrl_sendmsg buf) w (fun r w' => r = 0 /\ broadcast w uns msg w' /\ srv w' = srv w /\ elsewhere w w').
Proof.
  intros Hk Hm. unfold ctrl_sendmsg. rewrite Hm. apply wp_bind, wp_on_clients.
  eapply wp_mono; [exact (broadcast_ok msg _ _ _ Hk)|]. intros n t' (vs & uns' & Hvs & Ho & Hc & Hp).
  apply wp_ret. split_and!; try done. exists vs, uns'. done.
Qed.

Lemma alloc_table st m : table_ok st m -> table_ok (alloc_ok st).2 m /\ forall key, bag (alloc_ok st).2 m key = bag st m key.
Proof.
  intros Hok. destruct (kmalloc_Ok st) as (ok & st' & Hrun & Hs & He). unfold kmalloc in Hrun.
  destruct (alloc_ok st) as [ok' st2]. injection Hrun as -> ->. by apply table_ok_step.
Qed.

(** The answer to a request: its result and the entries that were added. *)
Definition answers (es : list (list Z)) (rep : list Z) : Prop :=
  rep !! 1%nat = Some (if es is [] then CTRLMSG_RETVAL_NOENTRY else CTRLMSG_RETVAL_OK) /\
  (es <> [] -> length rep = (12 + 60 * length es)%nat /\ forall j e, es !! j = Some e -> entry rep j = e).

Lemma message_take buf n :
  (4 <= length buf)%nat -> le (take 2 (drop 2 buf)) = Z.of_nat n -> (n <= length buf)%nat ->
  message_of buf = Some (take n buf).
Proof.
  intros H4 Hl Hn. unfold message_of. change o_len with (Z.of_nat 2). rewrite rd_some by lia. cbn [mbind option_bind].
  rewrite Hl, Nat2Z.id. change 0 with (Z.of_nat 0). by rewrite rd_some by lia.
Qed.
Lemma entry_take buf n j : (12 + 60 * j + 60 <= n)%nat -> entry (take n buf) j = entry buf j.
Proof. intros H. unfold entry. rewrite skipn_firstn_comm, take_take. f_equal. lia. Qed.

Lemma entry_take_header (buf : list Z) : take 2 (drop 2 (take 12 buf)) = take 2 (drop 2 buf).
Proof. rewrite skipn_firstn_comm, take_take. f_equal. Qed.
Lemma pick_length {A} (vs : list A) bs : (length (pick vs bs) <= length vs)%nat.
Proof. revert bs. induction vs as [|v vs IH]; intros [|[] bs]; simpl; try lia; specialize (IH bs); lia. Qed.

Lemma finish_ok w uns n es :
  holds_entries n (rbuf w) -> (length es <= n)%nat -> (n <= 33)%nat -> le (take 2 (drop 2 (rbuf w))) = 12 + 60 * Z.of_nat n ->
  (forall j e, es !! j = Some e -> entry (rbuf w) j = e) -> known_clients w uns ->
  wp (finish (Z.of_nat (length es))) w (fun r w' => r = 0 /\ srv w' = srv w /\
    exists rep, answers es rep /\ broadcast w uns rep w').
Proof.
  intros [Hlen Hb] Hes Hn Hl He Hk. unfold finish.
  assert (Hsend : forall w1 rep, clients w1 = clients w -> next_cc w1 = next_cc w -> srv w1 = srv w -> message_of (rbuf w1) = Some rep -> answers es rep ->
    wp (reply;; mret 0) w1 (fun r w' => r = 0 /\ srv w' = srv w /\ exists rep, answers es rep /\ broadcast w uns rep w')).
  { intros w1 rep Hc Hx Hs Hm Ha. unfold reply. apply wp_bind, wp_bind, wp_gets. apply wp_bind.
    assert (Hk1 : known_clients w1 uns) by (unfold known_clients; by rewrite Hc, Hx).
    eapply wp_mono; [exact (ctrl_sendmsg_ok w1 uns _ _ Hk1 Hm)|]. intros ? w2 (_ & Hbr & Hs2 & _). apply wp_ret. apply wp_ret.
    split_and!; [done|congruence|]. exists rep. split; [done|]. unfold broadcast in *. by rewrite Hc in Hbr. }
  destruct es as [|e es].
  - change (Z.of_nat (length ([] : list (list Z))) =? 0) with true. cbv iota.
    apply wp_bind. change o_retval with (Z.of_nat 1). apply wp_put; [cbn [length]; lia|].
    set (buf := patch (rbuf w) 1 [CTRLMSG_RETVAL_NOENTRY]).
    assert (Hbl : length buf = length (rbuf w)) by (apply patch_length; cbn [length]; lia).
    apply (Hsend (w {{ rbuf := buf }}) (take (12 + 60 * n) buf)); try done.
    + change (rbuf (w {{ rbuf := buf }})) with buf. apply message_take; [lia| |lia].
      unfold buf. rewrite patch_behind by (cbn [length]; lia). lia.
    + split; [|done]. rewrite lookup_take_lt by lia. unfold buf, patch. cbn [length].
      rewrite lookup_app_r by (rewrite length_take; lia). rewrite length_take, Nat.min_l by lia. done.
  - set (k := length (e :: es)) in *. destruct (Z.eqb_spec (Z.of_nat k) 0); [unfold k in *; simpl in *; lia|].
    apply wp_bind, wp_bind. change o_retval with (Z.of_nat 1). apply wp_put; [cbn [length]; lia|].
    set (buf := patch (rbuf w) 1 [CTRLMSG_RETVAL_OK]).
    assert (Hbl : length buf = length (rbuf w)) by (apply patch_length; cbn [length]; lia).
    change o_len with (Z.of_nat 2). set (lb := to_le 2 (CTRLMSG_SERVICE_NUM_LEN (Z.of_nat k))).
    assert (Hlb : length lb = 2%nat) by apply to_le_length.
    apply wp_put; [rewrite Hlb; change (rbuf (w {{ rbuf := buf }})) with buf; lia|].
    change (rbuf (w {{ rbuf := buf }})) with buf. set (buf2 := patch buf 2 lb).
    assert (Hbl2 : length buf2 = length buf) by (apply patch_length; rewrite Hlb; lia).
    assert (Hbe : forall j, entry buf2 j = entry (rbuf w) j).
    { intros j. unfold entry. unfold buf2. rewrite patch_behind by (rewrite Hlb; lia). unfold buf. rewrite patch_behind by (cbn [length]; lia). done. }
    apply (Hsend _ (take (12 + 60 * k) buf2)); try done.
    + change (message_of buf2 = Some (take (12 + 60 * k) buf2)). apply message_take; [lia| |lia].
      unfold buf2. rewrite <- Hlb at 1. rewrite patch_same by (rewrite Hlb; lia). unfold lb.
      unfold CTRLMSG_SERVICE_NUM_LEN, sizeof_ctrlmsg_service, sizeof_service_info. rewrite le_to_le by (change (256 ^ Z.of_nat 2) with 65536; lia). lia.
    + split.
      * rewrite lookup_take_lt by lia. unfold buf2, patch. rewrite lookup_app_l by (rewrite length_take; lia).
        rewrite lookup_take_lt by lia. unfold buf, patch. rewrite lookup_app_r by (rewrite length_take; lia).
        rewrite length_take, Nat.min_l by lia. done.
      * intros _. split; [rewrite length_take; lia|]. intros j e' Hj. pose proof (lookup_lt_Some _ _ _ Hj).
        rewrite entry_take by lia. rewrite Hbe. by apply He.
Qed.

(** A request to add the [n] services it carries, all forwarding rules. *)
Record add_request (msg : list Z) (n : nat) : Prop := {
  ar_length : length msg = (12 + 60 * n)%nat;
  ar_fits : (n <= 33)%nat;
  ar_bytes : byte_list msg;
  ar_type : msg !! 0%nat = Some CTRLMSG_TYPE_ADD_SERVICE;
  ar_len : le (take 2 (drop 2 msg)) = Z.of_nat (length msg);
  ar_forward j : (j < n)%nat -> e_type (entry msg j) = 1;
}.
Lemma patch_front buf msg x k :
  (length msg <= length buf)%nat -> (x + k <= length msg)%nat ->
  take k (drop x (patch buf 0 msg)) = take k (drop x msg).
Proof.
  intros H Hx. unfold patch. rewrite take_0, app_nil_l. rewrite drop_app_le by lia. rewrite take_app_le by (rewrite length_drop; lia). done.
Qed.
(** The clients after a message from [un]. *)
Definition noted w un uns : list (list Z) :=
  if decide (un ∈ uns) then uns else if (alloc_ok (srv w)).1 then un :: uns else uns.
Lemma handle_add_ok w m uns n :
  holds_entries n (rbuf w) -> (n <= 33)%nat -> le (take 2 (drop 2 (rbuf w))) = 12 + 60 * Z.of_nat n ->
  (forall j, (j < n)%nat -> e_type (entry (rbuf w) j) = 1) ->
  table_ok (srv w) m -> room n (srv w) m -> devs_ok w -> known_clients w uns ->
  wp ctrl_handle_add_service_msg w (fun r w' => r = 0 /\ exists oks m' rep,
    let es := pick (map (entry (rbuf w)) (seq 0 n)) oks in
    length oks = n /\ table_ok (srv w') m' /\ added (srv w) m es (srv w') m' /\ answers es rep /\ broadcast w uns rep w').
Proof.
  intros Hh Hn Hl Ht Hok Hroom Hdo Hk. unfold ctrl_handle_add_service_msg. apply wp_bind. change o_len with (Z.of_nat 2).
  apply wp_uint; [destruct Hh; lia|]. rewrite Hl.
  assert (Hnum : CTRLMSG_SERVICE_NUM (12 + 60 * Z.of_nat n) = Z.of_nat n).
  { unfold CTRLMSG_SERVICE_NUM, sizeof_ctrlmsg_service, sizeof_service_info, u64.
    rewrite Z.mod_small by lia. replace (12 + 60 * Z.of_nat n - 12) with (Z.of_nat n * 60) by lia.
    rewrite Z.div_mul by lia. apply u32_id. lia. }
  rewrite Hnum. apply wp_bind.
  eapply wp_mono; [apply (add_loop_ok n SERVICE_FUEL 0 0 w m); rewrite ?Nat.sub_0_r; try done; [intros; apply Ht; lia|lia|unfold SERVICE_FUEL; lia]|].
  intros idx w1 (oks & m1 & [L1 L2 L3 L4 (B1 & B2 & B3) L6 L7 (C1 & C2 & C3)]). rewrite Nat.sub_0_r in *.
  set (es := pick (map (entry (rbuf w)) (seq 0 n)) oks) in *. cbn [Nat.add] in *. subst idx.
  assert (Hes : (length es <= n)%nat).
  { unfold es. etransitivity; [apply pick_length|]. by rewrite length_map, length_seq. }
  assert (Hl1 : le (take 2 (drop 2 (rbuf w1))) = 12 + 60 * Z.of_nat n).
  { rewrite <- Hl. f_equal. destruct Hh, B1. rewrite <- (entry_take_header (rbuf w1)), <- (entry_take_header (rbuf w)), B3. done. }
  assert (Hk1 : known_clients w1 uns) by (unfold known_clients; by rewrite C1, C2).
  eapply wp_mono; [apply (finish_ok w1 uns n es); done|]. intros r w2 (-> & Hs & rep & Ha & Hb). split; [done|].
  exists oks, m1, rep. rewrite Hs. split_and!; try done. unfold broadcast in *. by rewrite C1 in Hb.
Qed.

(** C10 (functional): a request to add forwarding rules that arrives on the
    control channel is carried out and answered.  The service table gains the
    rules of some of its entries, with their prefix, priority, weight and
    address, and nothing else changes in it; the reply lists exactly those
    entries, in order (or says that there are none); the client is remembered,
    and the reply goes to every client once, except that clients that cannot be
    reached are forgotten.  It holds for every content of the buffer, every
    table, and every pattern of failing allocations and sends. *)
Theorem ctrl_add_request others w m uns un msg n :
  length (rbuf w) = 2048%nat -> byte_list (rbuf w) -> add_request msg n ->
  table_ok (srv w) m -> room n (srv w) m -> devs_ok w -> known_clients w uns -> Z.of_nat (length uns) + 1 < 2 ^ 31 ->
  exists w' m' oks rep,
    let es := pick (map (entry msg) (seq 0 n)) oks in
    ctrl_recvmsg others (Some (un, msg)) w = Ok (0, w') /\ length oks = n /\
    table_ok (srv w') m' /\ added (srv w) m es (srv w') m' /\ answers es rep /\ broadcast w (noted w un uns) rep w'.
Proof.
  intros Hlen Hbuf [Hl Hn Hb Ht Hlf Hfw] Hok Hroom Hdo Hk Hmax.
  assert (Hwp : wp (ctrl_recvmsg others (Some (un, msg))) w (fun r w' => r = 0 /\ exists m' oks rep,
    let es := pick (map (entry msg) (seq 0 n)) oks in length oks = n /\
    table_ok (srv w') m' /\ added (srv w) m es (srv w') m' /\ answers es rep /\ broadcast w (noted w un uns) rep w')).
  2:{ apply wp_run in Hwp as (r & w' & Hrun & -> & m' & oks & rep & H). by exists w', m', oks, rep. }
  unfold ctrl_recvmsg. rewrite take_ge by (unfold RCV_BUFSIZE; lia).
  apply wp_bind. change 0 with (Z.of_nat 0) at 1. apply wp_put; [lia|].
  set (buf := patch (rbuf w) 0 msg). assert (Hbl : length buf = 2048%nat) by (unfold buf; rewrite patch_length; lia).
  assert (Hfront : forall x k, (x + k <= length msg)%nat -> take k (drop x buf) = take k (drop x msg)).
  { intros x k Hx. apply patch_front; lia. }
  apply wp_bind. change o_type with (Z.of_nat 0). apply wp_uint; [change (0 + 1 <= length buf)%nat; lia|].
  change (rbuf (w {{ rbuf := buf }})) with buf. rewrite Hfront by lia.
  assert (Hty : le (take 1 (drop 0 msg)) = 3).
  { destruct msg as [|b msg']; [done|]. injection Ht as ->. reflexivity. }
  rewrite Hty. cbn [Z.leb Z.compare Pos.compare Pos.compare_cont _CTRLMSG_TYPE_MAX].
  apply wp_bind. eapply wp_mono; [by apply (note_ok _ un uns)|]. intros [] w1 (Hnote & Ho & Hso & Hrb & Hdv & Hdf & _). change (rbuf (w {{ rbuf := buf }})) with buf in Hrb.
  change (srv (w {{ rbuf := buf }})) with (srv w) in Hnote.
  change (clients (w {{ rbuf := buf }})) with (clients w) in Ho, Hso.
  assert (Hc : known_clients w1 (noted w un uns) /\ table_ok (srv w1) m /\ forall key, bag (srv w1) m key = bag (srv w) m key).
  { unfold noted. destruct (decide (un ∈ uns)); destruct Hnote as [Hs Hk1]; rewrite Hs.
    - done.
    - split; [by destruct (alloc_ok (srv w)).1|by apply alloc_table]. }
  clear Hnote. destruct Hc as (Hk1 & Hok1 & Hbag).
  change (handlers others 3) with ctrl_handle_add_service_msg.
  assert (Hent : forall j, (j < n)%nat -> entry (rbuf w1) j = entry msg j).
  { intros j Hj. rewrite Hrb. apply Hfront. lia. }
  eapply wp_mono.
  - apply (handle_add_ok w1 m (noted w un uns) n); try done.
    + rewrite Hrb. split; [lia|by apply patch_bytes].
    + rewrite Hrb, Hfront, Hlf by lia. lia.
    + intros j Hj. rewrite Hent by done. by apply Hfw.
    + destruct Hroom as [H1 H2]. split; [done|]. intros key. rewrite Hbag. apply H2.
    + unfold devs_ok. rewrite Hdv, Hdf. exact Hdo.
  - intros r w' (-> & oks & m' & rep & Hoks & Hok' & Hadd & Ha & Hbr). split; [done|]. exists m', oks, rep.
    assert (Hmap : map (entry (rbuf w1)) (seq 0 n) = map (entry msg) (seq 0 n)).
    { apply map_ext_in. intros j Hj%in_seq. apply Hent. lia. }
    rewrite Hmap in *. split_and!; try done.
    + intros key. destruct (Hadd key) as (rs & H1 & H2). exists rs. split; [done|]. by rewrite H2, Hbag.
    + unfold broadcast in *. by rewrite Ho, Hso in Hbr.
Qed.

(** An entry of another type than FORWARD has no device, and the index of that
    device is read all the same. *)
Lemma bytes_run w x k : (x + k <= length (rbuf w))%nat -> bytes_at (Z.of_nat x) k w = Ok (take k (drop x (rbuf w)), w).
Proof. intros Hx. unfold bytes_at. unfold mbind, M_bind, gets. by rewrite rd_some by lia. Qed.
Lemma uint_run w x k : (x + k <= length (rbuf w))%nat -> uint_at (Z.of_nat x) k w = Ok (le (take k (drop x (rbuf w))), w).
Proof. intros Hx. unfold uint_at. by rewrite (bind_Ok _ _ _ _ _ (bytes_run _ _ _ Hx)). Qed.
Lemma add_one_null w : (72 <= length (rbuf w))%nat -> add_one (service_off 0) None w = Fault.
Proof.
  intros Hl. unfold add_one.
  change (service_off 0 + s_type) with (Z.of_nat 12). rewrite (bind_Ok _ _ _ _ _ (uint_run w 12 2 ltac:(lia))).
  assert (Hp : exists b, prefix_bits_at (service_off 0) w = Ok (b, w)).
  { unfold prefix_bits_at. change (service_off 0 + s_prefix_bits) with (Z.of_nat 14).
    rewrite (bind_Ok _ _ _ _ _ (uint_run w 14 1 ltac:(lia))). eexists. reflexivity. }
  destruct Hp as [b Hp]. rewrite (bind_Ok _ _ _ _ _ Hp).
  change (service_off 0 + s_srvid) with (Z.of_nat 40). rewrite (bind_Ok _ _ _ _ _ (bytes_run w 40 SERVICE_ID_SIZE ltac:(unfold SERVICE_ID_SIZE; lia))).
  change (service_off 0 + s_flags_off) with (Z.of_nat 15). rewrite (bind_Ok _ _ _ _ _ (uint_run w 15 1 ltac:(lia))).
  change (service_off 0 + s_priority_off) with (Z.of_nat 20). rewrite (bind_Ok _ _ _ _ _ (uint_run w 20 4 ltac:(lia))).
  change (service_off 0 + s_weight) with (Z.of_nat 24). rewrite (bind_Ok _ _ _ _ _ (uint_run w 24 4 ltac:(lia))).
  change (service_off 0 + s_address) with (Z.of_nat 36). rewrite (bind_Ok _ _ _ _ _ (bytes_run w 36 4 ltac:(lia))).
  reflexivity.
Qed.
Lemma add_loop_null fuel num w :
  (72 <= length (rbuf w))%nat -> 0 < num -> e_type (entry (rbuf w) 0) <> 1 -> add_loop (S fuel) 0 num 0 w = Fault.
Proof.
  intros Hl Hn Ht. cbn [add_loop]. destruct (Z.leb_spec num 0); [lia|].
  change (service_off 0 + s_type) with (Z.of_nat 12). rewrite (bind_Ok _ _ _ _ _ (uint_run w 12 2 ltac:(lia))).
  unfold e_type in Ht. rewrite entry_field in Ht by lia. apply Z.eqb_neq in Ht. change (12 + 60 * 0 + 0)%nat with 12%nat in Ht. rewrite Ht.
  cbv iota. rewrite (bind_Ok (mret None : CM (option nat)) _ w None w eq_refl). cbn [andb]. unfold mbind at 1, M_bind at 1. by rewrite add_one_null.
Qed.

(** C34 (error): a request to add a rule that does not forward ends the stack: the
    handler takes the index of a device that is NULL for every other type of
    rule. *)
Theorem ctrl_add_other_type_faults w :
  length (rbuf w) = 2048%nat -> byte_list (rbuf w) -> 72 <= le (take 2 (drop 2 (rbuf w))) -> e_type (entry (rbuf w) 0) <> 1 ->
  ctrl_handle_add_service_msg w = Fault.
Proof.
  intros Hlen Hb Hl Ht. unfold ctrl_handle_add_service_msg. change o_len with (Z.of_nat 2).
  rewrite (bind_Ok _ _ _ _ _ (uint_run w 2 2 ltac:(lia))). change SERVICE_FUEL with (S 39).
  unfold mbind at 1, M_bind at 1. rewrite add_loop_null; [done|lia| |done].
  assert (Hr : 0 <= le (take 2 (drop 2 (rbuf w))) < 65536).
  { pose proof (le_bound (take 2 (drop 2 (rbuf w))) ltac:(by apply Forall_take, Forall_drop)) as H.
    rewrite length_take, length_drop in H. replace (Nat.min 2 (length (rbuf w) - 2)) with 2%nat in H by lia. exact H. }
  unfold CTRLMSG_SERVICE_NUM, sizeof_ctrlmsg_service, sizeof_service_info, u64. rewrite Z.mod_small by lia.
  rewrite u32_id; Z.to_euclidean_division_equations; lia.
Qed.
End Handlers.

(** ** A client that adds two rules *)
Module CtrlDemo.
Definition io0 : ctrlio := CtrlIO ∅ [] [].
Definition t0 : hashtable (list Z) ctrlio := HashTable [] 0 0 ∅ io0.
Definition clients0 : hashtable (list Z) ctrlio :=
  match hashtable_init 32 true t0 with Ok (_, t) => t | _ => t0 end.
Definition eth0 : net_device := NetDevice [101; 116; 104; 48] 2 0x0a00a8c0 0x00ffffff 1.
Definition w0 : ctrlw := CtrlW ServiceClaims.Demo.st0 clients0 (replicate 2048 0) [eth0] (Some 0%nat) 0%nat 0.
Definition path : list Z := [47; 116; 109; 112; 47; 99].
Definition service (b : Z) : list Z :=
  [1; 0; 16; 0] ++ to_le 4 2 ++ to_le 4 1 ++ to_le 4 100 ++ to_le 4 0 ++ to_le 4 0 ++ [192; 168; 0; 9] ++
  [b; b] ++ replicate 30 0.
Definition request : list Z :=
  [3; 0] ++ to_le 2 132 ++ to_le 4 77 ++ to_le 4 5 ++ service 10 ++ service 20.

Lemma all_bytes l : forallb (fun b => (0 <=? b) && (b <? 256)) l = true -> byte_list l.
Proof.
  intros H. apply Forall_forall. intros b Hb%list_elem_of_In. rewrite forallb_forall in H. specialize (H b Hb). lia.
Qed.
Lemma known0 : known_clients w0 [].
Proof.
  assert (Hwp : wp (hashtable_init 32 true) t0 (fun r t => r = 0 /\ at_ None (ATable 31 [] ∅) io0 t)).
  { eapply wp_mono; [apply (init_ok t0 32); [lia|by intros p e H]|]. intros r t [-> Hat]. split; [done|].
    change (elms t0) with (∅ : gmap elmp (hashelm (list Z))) in Hat. by rewrite fmap_empty in Hat. }
  pose proof (proj1 (wp_run _ _ _) Hwp) as Hx. clear Hwp. destruct Hx as (r & t & Hrun & _ & Hat).
  change (clients_rep 0%nat clients0 []). unfold clients0. rewrite Hrun. eapply clients_at; [exact Hat| |done|].
  - split; constructor.
  - intros p [x Hx]. cbn in Hx. by rewrite lookup_empty in Hx.
Qed.
Lemma request_ok : add_request request 2.
Proof.
  split; [reflexivity|lia| |reflexivity|reflexivity|].
  - by apply all_bytes.
  - intros [|[|j]] Hj; [reflexivity|reflexivity|lia].
Qed.
Lemma room0 : room 2 (srv w0) ∅.
Proof.
  split; [by rewrite map_size_empty|]. intros key. unfold bag. by rewrite lookup_empty.
Qed.
Lemma ctrl_add_request_witness : exists w' m' oks rep,
  ctrl_recvmsg (fun _ => dummy_ctrlmsg_handler) (Some (path, request)) w0 = Ok (0, w') /\
  table_ok (srv w') m' /\ answers (pick (map (entry request) (seq 0 2)) oks) rep /\ broadcast w0 [path] rep w'.
Proof.
  destruct (ctrl_add_request (fun _ => dummy_ctrlmsg_handler) w0 ∅ [] path request 2) as (w' & m' & oks & rep & Hrun & _ & Hok & _ & Ha & Hb).
  - reflexivity.
  - by apply Forall_replicate.
  - exact request_ok.
  - exact ServiceClaims.Demo.st0_ok.
  - exact room0.
  - change (0 < 1)%nat. lia.
  - exact known0.
  - simpl. lia.
  - exists w', m', oks, rep. change (noted w0 path []) with [path] in Hb.
    split; [exact Hrun|split; [exact Hok|split; [exact Ha|exact Hb]]].
Defined.
(** The two rules are in the reply, which goes to the client. *)
Lemma request_answered :
  match ctrl_recvmsg (fun _ => dummy_ctrlmsg_handler) (Some (path, request)) w0 with
  | Ok (r, w) => r = 0 /\ outbox (Hashtable.env (clients w)) = [(path, [3; 0] ++ drop 2 request)]
  | _ => False
  end.
Proof. vm_compute. done. Qed.
(** The same request for a rule that drops packets. *)
Definition w1 : ctrlw := w0 {{ rbuf := [3; 0] ++ to_le 2 72 ++ replicate 8 0 ++ [4; 0] ++ replicate 2034 0 }}.
Lemma ctrl_add_other_type_faults_witness : ctrl_handle_add_service_msg w1 = Fault.
Proof.
  apply ctrl_add_other_type_faults; [reflexivity|by apply all_bytes|vm_compute; discriminate|vm_compute; discriminate].
Defined.
End CtrlDemo.
